(* ===== verification/_CoqProject ===== *)
-Q . S2P
Prelude.v
SafeInt.v
Asset.v
ObjectDb.v
UndoProofs.v
UndoSpec.v
Block.v
ForkDb.v
UInt128.v
Vesting.v
Authority.v
GovState.v
NhState.v
State.v
Ledger.v
Market.v
MarketProofs.v
MarketSpec.v
Double.v
Fees.v
Operations.v
AssetEval.v
ExpiredOrders.v
Transaction.v
Candidates.v
Names.v
Text.v
Raw.v
Votes.v
VotesSpec.v
Elections.v
ElectionsSpec.v
Bids.v
Budget.v
BudgetSpec.v
NhAssets.v
NhSpec.v
Collateral.v
GovOperations.v
AllOperations.v
Contracts.v
ContractsSpec.v
Proposals.v
Tasks.v
Files.v
Schedule.v
Maintenance.v
MaintenanceSpec.v
Genesis.v
GenesisSpec.v
FromGenesis.v
BlockDb.v
Wire.v
DbBlock.v
ApplyBlock.v
Production.v
