(* ===== verification/Prelude.v ===== *)
(** * Cocos-BCX mainnet: verification library of the chain core

    The program is a delegated-proof-of-stake blockchain node (src/libraries).  Its
    core is a deterministic state machine: the object database (db/) holds typed
    objects in indexes with a multi-level undo log; blocks arrive at the fork
    database, the longest branch is applied by [database::_push_block]
    (chain/db_block.cpp), each block runs its transactions, each transaction checks
    its authorities and runs its operations through evaluators, and the evaluators move
    balances, orders and vesting funds with overflow-checked and 128-bit arithmetic.
    After the transactions every block updates the witness bookkeeping and clears what
    has expired; at intervals a maintenance elects witnesses and committee, pays workers
    and candidates from a budget and revives settled assets.  This library models that
    core as executable functions and proves what the parts promise each other.

    ** Conventions

    A fallible function returns [result]: [Ok] or the exception class it throws.  Code
    that throws after it has changed an object, and where the change stays, is in the
    state monad [stM]; elsewhere the undo session of the caller discards the changes,
    so a throwing function has no state.  What C++ leaves undefined (an iterator past
    the end, a dangling reference, a conversion out of range) is the value
    [undefined_behaviour], which no handler catches; a C [assert] that fails ends the
    program and has the same value ([c_assert]; the asserts of vesting and of the budget
    are in the definitions, the headers of [Market] and [Elections] say which are left
    out).  Machine integers are [Z] with
    their width written out.  Loops that are not structural take fuel and return
    [option]; the definitions supply the fuel, and a theorem or lemma shows that it is
    enough.  A C++ index is a [gmap] by object id, its secondary orders are sorting
    functions.  Pointers that outlive their object are modelled where the code has them
    (the predecessor pointers of the fork database, the shared authority buffer).

    ** Files, in dependency order

    - [Prelude]: errors, the two monads, machine bounds, tactics, lemmas on lists, maps
      and sums.
    - [SafeInt] (fc/safe.hpp), [UInt128] (fc/uint128): overflow-checked and 128-bit
      integers; the operators equal exact or modular arithmetic, and the division loops
      end.  [Double]: binary64 where the code uses it.
    - [Asset] (protocol/asset): amounts, prices, conversion by price rounded down,
      order of prices, margin call prices, feeds.
    - [ObjectDb], [UndoProofs], [UndoSpec] (db/): object ids, indexes with unique keys,
      sessions; the undo log refines a stack of snapshots, up to undos that a unique key
      stands in the way of.
    - [Block] (protocol/block), [ForkDb] (fork_database), [BlockDb] (block_database),
      [Schedule] (db_witness_schedule, parts of db_update), [DbBlock] and [ApplyBlock]
      (db_block): block ids and Merkle roots, the tree of forks, block storage as a
      map from ids, slots and schedules, irreversibility, pushing and popping blocks
      with fork switches, and what applying one block does.  [DbBlock] is proved against
      an interface of block application; [ApplyBlock] implements it, with the parts it
      does not model as arguments.  Ids are not taken to determine blocks: the code makes
      them of the signed header only, and the theorem on fork switches says what it assumes
      of blocks that come again.
    - [Vesting] (vesting_balance_object), [GovState], [NhState] and [State] (the objects
      evaluators work on), [Ledger] (db_balance, transfer and vesting evaluators), [Market] (db_market,
      market_evaluator), [MarketProofs], [MarketSpec]: balances, transfers, vesting;
      limit orders, margin positions, settlement, bids and black swans.  The total of
      an asset is what all objects hold of it, its [excess] the total less the supply.
    - [Fees] (evaluator.cpp, fee_schedule.cpp): fee calculation and payment; the class
      [Evaluator] is what an operation provides, [start_evaluate] and
      [apply_operation] run it, and the classes [Conserving] and [Deferring] say what it
      promises.  [Operations] and [AssetEval] (asset_evaluator.cpp, asset_ops.cpp)
      give the instances.
    - [ExpiredOrders] (db_update.cpp): expired limit orders, due settlements, expired
      feeds.
    - [Authority] (protocol/authority, protocol/transaction): weighing of signatures
      through nested authorities, and the choice of signatures.
    - [Transaction] (db_block.cpp): [_apply_transaction] with its guards, agreed tasks,
      the automatic gas withdrawal, pending transactions and expiration, against the
      interface [OperationSet].  [GovOperations] makes instances of [Evaluator] of the
      operations on accounts, candidates and items; [AllOperations] implements
      [OperationSet] with these and the evaluators of the ledger, the market and assets.
    - [Raw] (fc/io/raw.hpp and its neighbours), [Wire] (protocol/): the binary
      serialization, a codec per type with the interface [Faithful], the protocol's types
      and blocks in it, and the block database with it.  [Text] (asset_object.cpp,
      db/object_id.hpp): amounts and object ids as text.
    - [Names] (protocol/account.cpp): account names.  [Candidates]
      (witness_evaluator.cpp, committee_member_evaluator.cpp), [Votes]
      (account_evaluator.cpp), [VotesSpec]: candidates of the two offices, the accounts
      that vote for them, and what the totals mean.
    - [Elections], [ElectionsSpec], [Bids], [Budget], [BudgetSpec], [Maintenance],
      [MaintenanceSpec] (db_maint.cpp, vote_count.hpp, worker_evaluator.cpp): the chain
      maintenance, from the elections to the budget, as [ApplyBlock] runs it.
    - [NhAssets], [NhSpec] (nh_asset evaluators, world_view_evaluator.cpp): unique items,
      their creators, relations and orders.
    - [Collateral] (gas_evaluator.cpp, balance_evaluator.cpp): core units pledged for gas,
      and balances of the genesis.
    - [Proposals] (proposal_evaluator.cpp, proposal_object.cpp): proposals, their
      approvals, and the index of the approvals they require; what the proposed
      operations require is the interface [ProposedOps].
    - [Tasks] (crontab_evaluator.cpp, temporary_authority_evaluator.cpp): timed tasks and
      keys lent for a while.  [Files] (file_evaluator.cpp): files, their signatures and
      their relations.
    - [Contracts], [ContractsSpec] (contract_*.cpp): the functions a contract's script can
      call, nested calls, the evaluators of contracts and the fees of a call.  A script is
      a tree of calls and answers that the interpreter, an argument, makes of the code;
      the specification is a program logic over the functions.
    - [Genesis], [GenesisSpec] (db_init.cpp, genesis_state.hpp): the first state of the
      chain, and that the invariants of the other parts hold of it.  [FromGenesis]:
      transactions and the expiration of orders and feeds from the first state on.
    - [Production] (db_block.cpp, db_validate_block.cpp, plugins/witness): making a block
      and deciding when to make one, on top of [ApplyBlock] and [DbBlock].  The evaluation
      of transactions, [Transaction], has a state of its own; here, as in [ApplyBlock], it is
      given as functions, of which nothing is assumed that makes the two modes agree.

    ** What is shown

    - Storage: undoing, merging and committing sessions act on snapshots as they
      should, unless a unique key makes an undo throw; the block database is a map from ids; a block, and all that it is made of,
      is read back from its bytes, so blocks survive storage; amounts survive printing.
    - Consensus: pushing a block is all or nothing, also across a fork switch for which
      the fork point is kept; the fork
      database keeps its tree; branches meet at the latest common block; a block that
      is applied extends the head by the rules; the schedule is a permutation of the
      witnesses; the irreversible block has the support it needs; a block a node makes
      passes every check of its header, root and signature in the same state, so that only
      its transactions decide, and a node makes one block in a slot.
    - Transactions: of ordinary transactions (no agreed tasks, no sharing of contract fees)
      only authorized, fresh and unexpired ones are applied, and
      none is applied twice; a timed task is suspended after the failures allowed and, while
      its times fit 32 bits, never runs more often than planned; files keep what was written and signed.
    - Contracts: whatever a script does, short of pledging for gas, no unit appears or
      vanishes, and only the caller and the owners of contracts can lose units or items;
      caller and owner share the fee of a call.
    - Value: transfers, market operations, asset operations, fees, transactions, and
      the clearing of expired orders create and destroy nothing, but for deferred fees
      of limit orders, which the theorems name; neither do the chain maintenance with
      its budgets, pledges for gas, claims of initial balances and orders on items;
      conversions never favour the trader;
      supplies stay below their maximum; settlements are paid from the fund.
    - Beginning: an accepted genesis without negative amounts satisfies the invariants the
      other theorems start from; what exists of every asset is its recorded supply, and
      stays so over any sequence of transactions and expirations, but for deferred core
      fees; witness pay and maintenance move core units through budgets and have their own
      theorems.
    - Government: vote totals are what was frozen and locked, as long as votes change
      with a lock; the elected are the candidates with the most votes; their common
      accounts get majority and two-thirds authorities; the budget stays within the
      reserve there is when it is drawn up; proposals run exactly when the approvals satisfy the authorities, and
      group accounts have their review period; items change hands only by their owner
      or by an order; account names are those of the grammar.
    - Termination: the margin call loop ends after one round per order, the loop over
      due settlements after two turns per settlement order (each turn removes an order,
      uses up the volume of its asset or goes on to the next asset), the fee rounding
      loop after one turn, the clearing loops after one turn per object, the name
      validator after one turn per character.
    - Where the code does not do what it means to, a theorem exhibits it on a small
      state ([auto_gas_shifts_results], [expired_order_hangs_chain],
      [altered_copy_blocks_fork], [destroy_worker_overshoots], [wrapped_task_runs_again],
      [cancel_mints_deferred_fee], [margin_call_dangling_order],
      [shared_active_is_undefined], [uncounted_update_inflates],
      [fill_pays_named_account], [completion_ends_walk], [pledge_by_script_mints],
      [caught_failure_is_undefined], [share_fee_vanishes], [unsigned_int_truncated],
      [huge_tag_is_fatal], [misplaced_minus_accepted], [empty_schedule_accepted] and
      others).

    ** Not modelled

    Hashing, signatures and the codecs of single operations (arguments of the
    definitions); the fee each operation asks for, which depends on its serialized size;
    running times; the Lua interpreter, the compilation of scripts and the conversion of
    their tables; the fee schedule as a whole; the log of applied operations beyond the
    virtual operations pushed to it (no theorem is about it); opening and replaying the database files; networking, wallet,
    APIs and the plugins that observe the chain.

    ** Plan

    What could follow: pledges, claims, proposals, tasks and contracts as instances for
    [AllOperations]; the codecs of the single operations. *)

From stdpp Require Export base tactics list gmap option numbers strings.
From Stdlib Require Export ZArith Lia Bool.
From Stdlib Require Export Sorted.

#[export] Set Default Goal Selector "!".

Open Scope Z_scope.

(** ** Errors and the result monad

    The code signals failure by C++ exceptions.  [exn] names the exception
    classes the modelled code throws; [result] is a computation that returns a
    value or throws. *)

Inductive exn :=
| fc_exception
| assert_exception
| overflow_exception
| underflow_exception
| divide_by_zero_exception
| key_not_found_exception
| parse_error_exception
| out_of_range_exception
| bad_rational
| unlinkable_block_exception
| undo_database_exception
| pop_empty_chain
| black_swan_exception
| insufficient_feeds
| transfer_from_account_not_whitelisted
| transfer_to_account_not_whitelisted
| transfer_restricted_transfer_asset
| call_order_update_unfilled_margin_call
| asset_reserve_invalid_on_mia
| invalid_committee_approval
| tx_missing_active_auth
| tx_missing_owner_auth
| tx_missing_other_auth
| tx_irrelevant_sig
| tx_duplicate_sig
| internal_verify_auth_max_auth_exceeded
| internal_verify_auth_account_not_found
| account_create_max_auth_exceeded
| account_create_auth_account_not_found
| account_update_max_auth_exceeded
| account_update_auth_account_not_found
| proposal_create_review_period_required
| proposal_create_review_period_insufficient
| balance_claim_owner_mismatch
| balance_claim_invalid_claim_amount
| balance_claim_claimed_too_often
(** Not an exception: the program would use a reference to a removed object. *)
| undefined_behaviour.

#[global] Instance exn_eq_dec : EqDecision exn.
Proof. solve_decision. Defined.

Inductive result (A : Type) :=
| Ok (a : A)
| Err (e : exn).
Arguments Ok {A} a.
Arguments Err {A} e.

Definition rbind {A B} (m : result A) (k : A -> result B) : result B :=
  match m with
  | Ok a => k a
  | Err e => Err e
  end.

Definition fc_assert (b : bool) : result unit :=
  if b then Ok tt else Err assert_exception.

(** [assert] of the C library.  The documented build sets no build type and so keeps it; a
    condition that fails ends the process, which no handler sees. *)
Definition c_assert (b : bool) : result unit :=
  if b then Ok tt else Err undefined_behaviour.

(** [GRAPHENE_ASSERT(b, e, ...)]: throw the given exception class. *)
Definition graphene_assert (b : bool) (e : exn) : result unit :=
  if b then Ok tt else Err e.

Definition get_or {A} (o : option A) (e : exn) : result A :=
  match o with
  | Some a => Ok a
  | None => Err e
  end.

Definition is_ok {A} (m : result A) : bool :=
  match m with
  | Ok _ => true
  | Err _ => false
  end.

Declare Scope gph_scope.
Delimit Scope gph_scope with gph.

Notation "'let*' x ':=' m 'in' k" := (rbind m (fun x => k))
  (at level 10, x pattern, m at level 100, k at level 200) : gph_scope.
Notation "'check' b ; k" := (rbind (fc_assert b) (fun _ => k))
  (at level 10, b at level 100, k at level 200) : gph_scope.
Notation "'require' b 'else' e ; k" := (rbind (graphene_assert b e) (fun _ => k))
  (at level 10, b at level 100, e at level 0, k at level 200) : gph_scope.

Open Scope gph_scope.

(** ** State and exceptions

    Code that mutates an object and may throw: what was changed before the
    exception stays changed. *)
Definition stM (S A : Type) : Type := S -> result A * S.

Definition ret {S A} (a : A) : stM S A := fun s => (Ok a, s).
Definition throw {S A} (e : exn) : stM S A := fun s => (Err e, s).
Definition bind {S A B} (m : stM S A) (k : A -> stM S B) : stM S B :=
  fun s => match m s with
           | (Ok a, s') => k a s'
           | (Err e, s') => (Err e, s')
           end.
Definition lift {S A} (r : result A) : stM S A := fun s => (r, s).
Definition get {S A} (f : S -> A) : stM S A := fun s => (Ok (f s), s).
Definition modify {S} (f : S -> S) : stM S unit := fun s => (Ok tt, f s).

(** [try { m } catch (const fc::exception&) { h }]; undefined behaviour is not an
    exception. *)
Definition try_catch {S A} (m : stM S A) (h : exn -> stM S A) : stM S A :=
  fun s => match m s with
           | (Err undefined_behaviour, s') => (Err undefined_behaviour, s')
           | (Err e, s') => h e s'
           | r => r
           end.

Notation "x <-- m ; k" := (bind m (fun x => k))
  (at level 62, m at level 100, k at level 200, right associativity) : gph_scope.

(** Machine-integer bounds, as abbreviations so that [lia] sees the numbers. *)
Abbreviation int64_max := 9223372036854775807.
Abbreviation int64_min := (-9223372036854775808).
Abbreviation uint64_mod := 18446744073709551616.
Abbreviation uint32_mod := 4294967296.
Abbreviation uint16_mod := 65536.
Abbreviation uint128_mod := 340282366920938463463374607431768211456.

Definition in_int64 (z : Z) : bool := (int64_min <=? z) && (z <=? int64_max).

Definition wrap32 (z : Z) : Z := z mod uint32_mod.
Definition wrap64 (z : Z) : Z := z mod uint64_mod.
Definition wrap128 (z : Z) : Z := z mod uint128_mod.

(** Reading an unsigned 64-bit pattern as a signed one. *)
Definition to_int64 (z : Z) : Z :=
  let u := wrap64 z in if u <=? int64_max then u else u - uint64_mod.

(** ** Tactics *)

(** Break the result-monad structure of a hypothesis: every bind, check and
    conditional that must have succeeded becomes a hypothesis of its own. *)
Ltac res_step :=
  match goal with
  | H : Ok _ = Ok _ |- _ => injection H as H; try subst
  | H : Err _ = Ok _ |- _ => discriminate H
  | H : Ok _ = Err _ |- _ => discriminate H
  | H : Some _ = Some _ |- _ => injection H as H; try subst
  | H : None = Some _ |- _ => discriminate H
  | H : Some _ = None |- _ => discriminate H
  | H : rbind (fc_assert ?b) _ = Ok _ |- _ =>
      let E := fresh "Hchk" in destruct b eqn:E; cbn [fc_assert rbind] in H;
      [ | discriminate H ]
  | H : rbind (graphene_assert ?b _) _ = Ok _ |- _ =>
      let E := fresh "Hreq" in destruct b eqn:E; cbn [graphene_assert rbind] in H;
      [ | discriminate H ]
  | H : rbind (get_or ?o _) _ = Ok _ |- _ =>
      let E := fresh "Hget" in destruct o eqn:E; cbn [get_or rbind] in H;
      [ | discriminate H ]
  | H : rbind ?m _ = Ok _ |- _ =>
      let E := fresh "Hm" in destruct m eqn:E; cbn [rbind] in H;
      [ | discriminate H ]
  | H : fc_assert ?b = Ok _ |- _ =>
      let E := fresh "Hchk" in destruct b eqn:E; cbn [fc_assert] in H;
      [ clear H | discriminate H ]
  | H : graphene_assert ?b _ = Ok _ |- _ =>
      let E := fresh "Hreq" in destruct b eqn:E; cbn [graphene_assert] in H;
      [ clear H | discriminate H ]
  | H : get_or ?o _ = Ok _ |- _ =>
      let E := fresh "Hget" in destruct o eqn:E; cbn [get_or] in H;
      [ | discriminate H ]
  end.
Ltac res_inv := repeat res_step.

(** Turn boolean comparisons of the code into propositions for [lia]. *)
Ltac bool_to_prop :=
  repeat match goal with
  | H : (_ && _) = true |- _ => apply andb_true_iff in H; destruct H
  | H : (_ || _) = false |- _ => apply orb_false_iff in H; destruct H
  | H : negb _ = true |- _ => apply negb_true_iff in H
  | H : negb _ = false |- _ => apply negb_false_iff in H
  | H : (_ =? _) = true |- _ => apply Z.eqb_eq in H
  | H : (_ =? _) = false |- _ => apply Z.eqb_neq in H
  | H : (_ <? _) = true |- _ => apply Z.ltb_lt in H
  | H : (_ <? _) = false |- _ => apply Z.ltb_ge in H
  | H : (_ <=? _) = true |- _ => apply Z.leb_le in H
  | H : (_ <=? _) = false |- _ => apply Z.leb_gt in H
  | H : (_ >? _) = true |- _ => rewrite Z.gtb_ltb in H
  | H : (_ >? _) = false |- _ => rewrite Z.gtb_ltb in H
  | H : (_ >=? _) = true |- _ => rewrite Z.geb_leb in H
  | H : (_ >=? _) = false |- _ => rewrite Z.geb_leb in H
  | H : bool_decide _ = true |- _ => apply bool_decide_eq_true in H
  | H : bool_decide _ = false |- _ => apply bool_decide_eq_false in H
  end.

(** Case split on the first conditional of the goal. *)
Ltac case_if :=
  match goal with
  | |- context [if ?b then _ else _] => let E := fresh "Hif" in destruct b eqn:E
  end.
Ltac case_if_in H :=
  match type of H with
  | context [if ?b then _ else _] => let E := fresh "Hif" in destruct b eqn:E
  end.

(** ** Generic lemmas *)

Create HintDb gph.
Create Rewrite HintDb gph.

Lemma bind_ok {S A B} (m : stM S A) (k : A -> stM S B) s b s' :
  bind m k s = (Ok b, s') -> exists a s1, m s = (Ok a, s1) /\ k a s1 = (Ok b, s').
Proof. unfold bind. destruct (m s) as [[a|] s1]; [eauto|done]. Qed.

Lemma rbind_ok {A B} (m : result A) (k : A -> result B) b :
  rbind m k = Ok b <-> exists a, m = Ok a /\ k a = Ok b.
Proof. destruct m; cbn; split; intros; destruct_and?; naive_solver. Qed.

(** Pass over a bind whose result does not matter. *)
Ltac skip_bind H :=
  let x := fresh "skipped" in
  apply rbind_ok in H as (x & _ & H);
  lazymatch type of x with
  | prod _ _ => destruct x
  | _ => idtac
  end.

Lemma rbind_assoc {A B C} (m : result A) (f : A -> result B) (g : B -> result C) :
  rbind (rbind m f) g = rbind m (fun a => rbind (f a) g).
Proof. by destruct m. Qed.

Lemma in_int64_spec z : in_int64 z = true <-> int64_min <= z <= int64_max.
Proof. unfold in_int64. rewrite andb_true_iff, !Z.leb_le. lia. Qed.

Lemma wrap32_small z : 0 <= z < uint32_mod -> wrap32 z = z.
Proof. intros H. by apply Z.mod_small. Qed.

Lemma wrap64_small z : 0 <= z < uint64_mod -> wrap64 z = z.
Proof. intros H. by apply Z.mod_small. Qed.

Lemma wrap128_small z : 0 <= z < uint128_mod -> wrap128 z = z.
Proof. intros H. by apply Z.mod_small. Qed.

Lemma wrap32_bound z : 0 <= wrap32 z < uint32_mod.
Proof. apply Z.mod_pos_bound; lia. Qed.

Lemma wrap64_bound z : 0 <= wrap64 z < uint64_mod.
Proof. apply Z.mod_pos_bound; lia. Qed.

(** Unsigned arithmetic may wrap at every step or once at the end. *)
Lemma wrap64_add_wrap x y : wrap64 (wrap64 x + y) = wrap64 (x + y).
Proof. apply Zplus_mod_idemp_l. Qed.

Lemma wrap64_sub_wrap x y : wrap64 (wrap64 x - y) = wrap64 (x - y).
Proof. apply Zminus_mod_idemp_l. Qed.

Lemma to_int64_small z : 0 <= z <= int64_max -> to_int64 z = z.
Proof.
  intros H. unfold to_int64. rewrite wrap64_small by lia.
  destruct (Z.leb_spec z int64_max); lia.
Qed.

#[export] Hint Rewrite wrap32_small wrap64_small wrap128_small to_int64_small
  using lia : gph.
#[export] Hint Resolve wrap32_bound wrap64_bound : gph.

(** Sums over lists of integers. *)
Fixpoint sumZ {A} (f : A -> Z) (l : list A) : Z :=
  match l with
  | [] => 0
  | x :: l' => f x + sumZ f l'
  end.

Lemma sumZ_app {A} (f : A -> Z) l1 l2 : sumZ f (l1 ++ l2) = sumZ f l1 + sumZ f l2.
Proof. induction l1; cbn; lia. Qed.

Lemma sumZ_perm {A} (f : A -> Z) l1 l2 : Permutation l1 l2 -> sumZ f l1 = sumZ f l2.
Proof. induction 1; cbn in *; lia. Qed.

#[global] Instance sumZ_proper {A} (f : A -> Z) :
  Proper (Permutation ==> eq) (sumZ f).
Proof. intros l1 l2. apply sumZ_perm. Qed.

Lemma sumZ_nonneg {A} (f : A -> Z) l : (forall x, x ∈ l -> 0 <= f x) -> 0 <= sumZ f l.
Proof.
  induction l as [|a l IH]; intros H; cbn; [lia|].
  assert (0 <= f a) by (apply H; constructor).
  assert (0 <= sumZ f l) by (apply IH; intros; apply H; by constructor). lia.
Qed.

Lemma sumZ_ext {A} (f g : A -> Z) l : (forall x, x ∈ l -> f x = g x) -> sumZ f l = sumZ g l.
Proof.
  induction l as [|a l IH]; intros H; cbn; [done|].
  rewrite (H a) by constructor. rewrite IH; [done|]. intros; apply H; by constructor.
Qed.

(** Sums over the values of a finite map. *)
Definition sum_map {K V} `{Countable K} (f : K -> V -> Z) (m : gmap K V) : Z :=
  sumZ (fun kv => f kv.1 kv.2) (map_to_list m).

Section SumMap.
Context {K V : Type} `{Countable K}.
Implicit Types (m : gmap K V) (f : K -> V -> Z).

Lemma sum_map_empty f : sum_map f (∅ : gmap K V) = 0.
Proof. unfold sum_map. by rewrite map_to_list_empty. Qed.

Lemma sum_map_insert_new f m k v :
  m !! k = None -> sum_map f (<[k:=v]> m) = f k v + sum_map f m.
Proof. intros Hk. unfold sum_map. by rewrite map_to_list_insert. Qed.

Lemma sum_map_delete f m k v :
  m !! k = Some v -> sum_map f (delete k m) = sum_map f m - f k v.
Proof.
  intros Hk. rewrite <- (insert_delete_id m k v Hk) at 2.
  rewrite sum_map_insert_new by apply lookup_delete_eq. lia.
Qed.

Lemma sum_map_insert f m k v v' :
  m !! k = Some v -> sum_map f (<[k:=v']> m) = sum_map f m - f k v + f k v'.
Proof.
  intros Hk. rewrite <- insert_delete_eq.
  rewrite sum_map_insert_new by apply lookup_delete_eq.
  rewrite (sum_map_delete _ _ _ _ Hk). lia.
Qed.

Lemma sum_map_nonneg f m :
  (forall k v, m !! k = Some v -> 0 <= f k v) -> 0 <= sum_map f m.
Proof.
  intros Hf. apply sumZ_nonneg. intros [k v] Hin. apply Hf.
  by apply elem_of_map_to_list.
Qed.

Lemma sum_map_lookup_le f m k v :
  m !! k = Some v -> (forall k v, m !! k = Some v -> 0 <= f k v) -> f k v <= sum_map f m.
Proof.
  intros Hk Hf. rewrite <- (insert_delete_id m k v Hk).
  rewrite sum_map_insert_new by apply lookup_delete_eq.
  assert (0 <= sum_map f (delete k m)); [|lia].
  apply sum_map_nonneg. intros k' v' H'. apply lookup_delete_Some in H'. naive_solver.
Qed.
End SumMap.

(** ** Sorted walks over an index *)

Fixpoint insert_by {A} (before : A -> A -> bool) (x : A) (l : list A) : list A :=
  match l with
  | [] => [x]
  | y :: l' => if before x y then x :: l else y :: insert_by before x l'
  end.
Definition sort_by {A} (before : A -> A -> bool) (l : list A) : list A :=
  foldr (insert_by before) [] l.

Lemma insert_by_elem {A} (before : A -> A -> bool) x y l :
  y ∈ insert_by before x l <-> y = x \/ y ∈ l.
Proof.
  induction l as [|z l IH]; cbn; [by rewrite list_elem_of_singleton, elem_of_nil; intuition|].
  case_if; rewrite !elem_of_cons; [done|]. rewrite IH. tauto.
Qed.

Lemma sort_by_elem {A} (before : A -> A -> bool) y l : y ∈ sort_by before l <-> y ∈ l.
Proof.
  induction l as [|x l IH]; cbn; [done|]. rewrite insert_by_elem, elem_of_cons. by rewrite IH.
Qed.

Lemma sort_by_min {A} (before : A -> A -> bool) (key : A -> Z) l x y :
  (forall a b, before a b = true -> key a <= key b) ->
  (forall a b, before a b = false -> key b <= key a) ->
  head (sort_by before l) = Some x -> y ∈ l -> key x <= key y.
Proof.
  intros Ht Hf. revert x y. induction l as [|a l IH]; intros x y Hx Hy; [done|]. cbn in Hx.
  assert (Hl : forall z, z ∈ l -> match sort_by before l with
                           | [] => False | w :: _ => key w <= key z end).
  { intros z Hz. destruct (sort_by before l) as [|w t] eqn:E; [|by apply IH].
    apply (sort_by_elem before) in Hz. rewrite E in Hz. by apply elem_of_nil in Hz. }
  unfold sort_by in Hl, Hx. cbn in Hx. destruct (foldr (insert_by before) [] l) as [|w t]; cbn in Hx.
  - injection Hx as <-. apply elem_of_cons in Hy as [->|Hy]; [lia|]. by apply Hl in Hy.
  - destruct (before a w) eqn:Eb; injection Hx as <-; apply elem_of_cons in Hy as [->|Hy].
    + lia.
    + apply Ht in Eb. apply Hl in Hy. lia.
    + by apply Hf.
    + by apply Hl.
Qed.

Lemma insert_by_perm {A} (before : A -> A -> bool) x l : insert_by before x l ≡ₚ x :: l.
Proof.
  induction l as [|y l IH]; cbn; [done|]. case_if; [done|]. rewrite IH. apply Permutation_swap.
Qed.

Lemma sort_by_perm {A} (before : A -> A -> bool) l : sort_by before l ≡ₚ l.
Proof. induction l as [|x l IH]; [done|]. cbn. by rewrite insert_by_perm, IH. Qed.

(** Sorting by a total relation that is transitive gives a sorted list. *)
Lemma sort_by_sorted {A} (before : A -> A -> bool) l :
  (forall a b, before a b = true \/ before b a = true) ->
  (forall a b c, before a b = true -> before b c = true -> before a c = true) ->
  StronglySorted (fun a b => before a b = true) (sort_by before l).
Proof.
  intros Htot Htr. unfold sort_by. induction l as [|x l IH]; cbn; [constructor|].
  assert (Hins : forall l, StronglySorted (fun a b => before a b = true) l ->
    StronglySorted (fun a b => before a b = true) (insert_by before x l)).
  { clear l IH. induction l as [|y l IH]; intros Hs; cbn; [repeat constructor|].
    apply StronglySorted_inv in Hs as [Hs Hy]. case_if.
    - constructor; [by constructor|]. constructor; [done|].
      eapply Forall_impl; [exact Hy|]. cbn. eauto.
    - constructor; [by apply IH|]. rewrite insert_by_perm. constructor; [|done].
      destruct (Htot x y); [congruence|done]. }
  by apply Hins.
Qed.

(** Sorting by a strict order leaves nothing before its predecessor. *)
Lemma sort_by_strict {A} (before : A -> A -> bool) l :
  (forall a b c, before a b = true -> before b c = true -> before a c = true) ->
  (forall a b, before a b = true -> before b a = false) ->
  StronglySorted (fun a b => before b a = false) (sort_by before l).
Proof.
  intros Htr Has. unfold sort_by. induction l as [|x l IH]; cbn; [constructor|].
  assert (Hins : forall l, StronglySorted (fun a b => before b a = false) l ->
    StronglySorted (fun a b => before b a = false) (insert_by before x l)).
  { clear l IH. induction l as [|y l IH]; intros Hs; cbn; [repeat constructor|].
    apply StronglySorted_inv in Hs as [Hs Hy]. destruct (before x y) eqn:E.
    - constructor; [by constructor|]. constructor; [by apply Has|].
      eapply Forall_impl; [exact Hy|]. cbn. intros z Hz. destruct (before z x) eqn:Ez; [|done].
      by rewrite (Htr z x y) in Hz.
    - constructor; [by apply IH|]. rewrite insert_by_perm. by constructor. }
  by apply Hins.
Qed.

Lemma StronglySorted_app_le {A} (R : A -> A -> Prop) l1 l2 x y :
  StronglySorted R (l1 ++ l2) -> x ∈ l1 -> y ∈ l2 -> R x y.
Proof.
  induction l1 as [|a l1 IH]; cbn; intros Hs Hx Hy; [by apply elem_of_nil in Hx|].
  apply StronglySorted_inv in Hs as [Hs Ha]. apply elem_of_cons in Hx as [->|Hx]; [|by apply IH].
  rewrite Forall_forall in Ha. apply Ha, elem_of_app. by right.
Qed.
