(* ===== verification/SafeInt.v ===== *)
(** * Overflow-checked integers (fc/include/fc/safe.hpp)

    [fc::safe<T>] wraps a machine integer and throws on overflow.  The chain
    instantiates it at [int64_t] ([share_type]).  The bounds are section
    variables, so the theorems hold for any signed type whose minimum is one
    below the negated maximum; [Share] is the [int64_t] instance. *)

From S2P Require Import Prelude.

(** The operators test against the bounds *before* computing, so every
    intermediate value is itself in range.  C++ division truncates: [Z.quot]. *)
Section Safe.
Context (tmin tmax : Z).

Definition safe_add (a b : Z) : result Z :=
  if (b >? 0) && (a >? tmax - b) then Err overflow_exception
  else if (b <? 0) && (a <? tmin - b) then Err underflow_exception
  else Ok (a + b).

Definition safe_sub (a b : Z) : result Z :=
  if (b >? 0) && (a <? tmin + b) then Err underflow_exception
  else if (b <? 0) && (a >? tmax + b) then Err overflow_exception
  else Ok (a - b).

Definition safe_mul (a b : Z) : result Z :=
  if a >? 0 then
    if b >? 0 then
      if a >? Z.quot tmax b then Err overflow_exception else Ok (a * b)
    else
      if b <? Z.quot tmin a then Err underflow_exception else Ok (a * b)
  else
    if b >? 0 then
      if a <? Z.quot tmin b then Err underflow_exception else Ok (a * b)
    else
      if negb (a =? 0) && (b <? Z.quot tmax a) then Err overflow_exception
      else Ok (a * b).

Definition safe_div (a b : Z) : result Z :=
  if b =? 0 then Err divide_by_zero_exception
  else if (a =? tmin) && (b =? -1) then Err overflow_exception
  else Ok (Z.quot a b).

Definition safe_mod (a b : Z) : result Z :=
  if b =? 0 then Err divide_by_zero_exception
  else if (a =? tmin) && (b =? -1) then Err overflow_exception
  else Ok (Z.rem a b).

Definition safe_neg (a : Z) : result Z :=
  if a =? tmin then Err overflow_exception else Ok (- a).

(** [operator++] and [operator--], both forms: the post forms return the old
    value together with the updated one. *)
Definition safe_incr (a : Z) : result Z := safe_add a 1.
Definition safe_decr (a : Z) : result Z := safe_sub a 1.
Definition safe_post_incr (a : Z) : result (Z * Z) :=
  let* v := safe_add a 1 in Ok (a, v).
Definition safe_post_decr (a : Z) : result (Z * Z) :=
  let* v := safe_sub a 1 in Ok (a, v).

(** The comparison operators: [!=], [<=] and [>=] are the negations the
    header writes. *)
Definition safe_eqb (a b : Z) : bool := a =? b.
Definition safe_ltb (a b : Z) : bool := a <? b.
Definition safe_gtb (a b : Z) : bool := a >? b.
Definition safe_neb (a b : Z) : bool := negb (safe_eqb a b).
Definition safe_leb (a b : Z) : bool := negb (safe_gtb a b).
Definition safe_geb (a b : Z) : bool := negb (safe_ltb a b).

Definition in_range (z : Z) : Prop := tmin <= z <= tmax.

Context (Hsym : tmin = - tmax - 1) (Hpos : 0 < tmax).

Lemma safe_add_spec a b :
  in_range a -> in_range b ->
  (in_range (a + b) /\ safe_add a b = Ok (a + b)) \/
  (a + b > tmax /\ safe_add a b = Err overflow_exception) \/
  (a + b < tmin /\ safe_add a b = Err underflow_exception).
Proof using Type*.
  unfold safe_add, in_range. intros Ha Hb.
  case_if; [bool_to_prop; right; left; split; [lia|done]|].
  case_if; [bool_to_prop; right; right; split; [lia|done]|].
  left. split; [|done].
  apply andb_false_iff in Hif, Hif0.
  destruct Hif, Hif0; bool_to_prop; lia.
Qed.

Lemma safe_sub_spec a b :
  in_range a -> in_range b ->
  (in_range (a - b) /\ safe_sub a b = Ok (a - b)) \/
  (a - b < tmin /\ safe_sub a b = Err underflow_exception) \/
  (a - b > tmax /\ safe_sub a b = Err overflow_exception).
Proof using Type*.
  unfold safe_sub, in_range. intros Ha Hb.
  case_if; [bool_to_prop; right; left; split; [lia|done]|].
  case_if; [bool_to_prop; right; right; split; [lia|done]|].
  left. split; [|done].
  apply andb_false_iff in Hif, Hif0.
  destruct Hif, Hif0; bool_to_prop; lia.
Qed.

Lemma quot_upper n a b : 0 < b -> 0 <= n -> (a <= Z.quot n b <-> a * b <= n).
Proof using.
  intros Hb Hn. rewrite Z.quot_div_nonneg by lia. split; intros H.
  - pose proof (Z.mul_div_le n b Hb). nia.
  - apply Z.div_le_lower_bound; lia.
Qed.

Lemma quot_lower n a b : 0 < b -> n <= 0 -> (Z.quot n b <= a <-> n <= a * b).
Proof using.
  intros Hb Hn. replace n with (- (- n)) by lia.
  rewrite Z.quot_opp_l by lia.
  pose proof (quot_upper (- n) (- a) b Hb ltac:(lia)). nia.
Qed.

Lemma safe_mul_spec a b :
  in_range a -> in_range b ->
  (in_range (a * b) /\ safe_mul a b = Ok (a * b)) \/
  (a * b > tmax /\ safe_mul a b = Err overflow_exception) \/
  (a * b < tmin /\ safe_mul a b = Err underflow_exception).
Proof using Type*.
  unfold safe_mul, in_range. intros Ha Hb.
  destruct (a >? 0) eqn:E1; bool_to_prop; destruct (b >? 0) eqn:E2; bool_to_prop.
  - pose proof (quot_upper tmax a b ltac:(lia) ltac:(lia)).
    case_if; bool_to_prop; [right; left|left]; split; try done; nia.
  - pose proof (quot_lower tmin b a ltac:(lia) ltac:(lia)).
    case_if; bool_to_prop; [right; right|left]; split; try done; nia.
  - pose proof (quot_lower tmin a b ltac:(lia) ltac:(lia)).
    case_if; bool_to_prop; [right; right|left]; split; try done; nia.
  - destruct (Z.eq_dec a 0) as [->|Hne].
    { left. split; [lia|]. done. }
    assert (Hq : Z.quot tmax a = - Z.quot tmax (- a)).
    { replace a with (- (- a)) at 1 by lia. by rewrite Z.quot_opp_r by lia. }
    pose proof (quot_upper tmax (- b) (- a) ltac:(lia) ltac:(lia)).
    case_if; bool_to_prop.
    + right; left. split; [nia|done].
    + left. split; [|done].
      apply andb_false_iff in Hif. destruct Hif; bool_to_prop; nia.
Qed.

Lemma safe_div_spec a b :
  in_range a -> in_range b ->
  (b <> 0 /\ in_range (Z.quot a b) /\ safe_div a b = Ok (Z.quot a b)) \/
  (b = 0 /\ safe_div a b = Err divide_by_zero_exception) \/
  (Z.quot a b > tmax /\ safe_div a b = Err overflow_exception).
Proof using Type*.
  unfold safe_div, in_range. intros Ha Hb.
  case_if; bool_to_prop; [right; left; done|].
  case_if; bool_to_prop.
  - right; right. split; [|done].
    match goal with H : b = -1 |- _ => rewrite H end.
    rewrite (Z.quot_opp_r _ 1), Z.quot_1_r by lia. lia.
  - left. split; [done|]. split; [|done].
    assert (Hq : Z.abs (Z.quot a b) = Z.abs a / Z.abs b) by
      (rewrite <- Z.quot_div_nonneg by lia; by rewrite Z.quot_abs by lia).
    assert (Z.abs a / Z.abs b <= Z.abs a) by (apply Z.div_le_upper_bound; nia).
    destruct (Z.eq_dec a tmin) as [Ea|]; [rewrite Ea in *|lia].
    rewrite Z.eqb_refl in Hif0. cbn in Hif0. bool_to_prop.
    destruct (Z.eq_dec b 1) as [->|]; [rewrite Z.quot_1_r; lia|].
    assert (Z.abs tmin / Z.abs b <= tmax) by (apply Z.div_le_upper_bound; nia). lia.
Qed.

Lemma safe_neg_spec a :
  in_range a ->
  (in_range (- a) /\ safe_neg a = Ok (- a)) \/
  (- a > tmax /\ safe_neg a = Err overflow_exception).
Proof using Type*.
  unfold safe_neg, in_range. intros Ha.
  case_if; bool_to_prop; [right|left]; (split; [lia|done]).
Qed.
End Safe.

(** The [int64_t] instance, the chain's [share_type]. *)
Module Share.
Definition add := safe_add int64_min int64_max.
Definition sub := safe_sub int64_min int64_max.
Definition mul := safe_mul int64_min int64_max.
Definition div := safe_div int64_min.
Definition neg := safe_neg int64_min.

Abbreviation ok := (in_range int64_min int64_max).

(** Characterisation of success used by the ledger: the checked operation
    returns exactly when the mathematical result is representable. *)
Lemma add_ok a b c : ok a -> ok b -> (add a b = Ok c <-> c = a + b /\ ok (a + b)).
Proof.
  intros Ha Hb. unfold add.
  destruct (safe_add_spec int64_min int64_max ltac:(lia) ltac:(lia) a b Ha Hb)
    as [[? ->]|[[? ->]|[? ->]]]; unfold in_range in *; split; intros; try done;
    res_inv; try (split; [done|lia]); destruct_and?; subst; try done; lia.
Qed.

Lemma sub_ok a b c : ok a -> ok b -> (sub a b = Ok c <-> c = a - b /\ ok (a - b)).
Proof.
  intros Ha Hb. unfold sub.
  destruct (safe_sub_spec int64_min int64_max ltac:(lia) ltac:(lia) a b Ha Hb)
    as [[? ->]|[[? ->]|[? ->]]]; unfold in_range in *; split; intros; try done;
    res_inv; try (split; [done|lia]); destruct_and?; subst; try done; lia.
Qed.

(** Running the operations on operands that leave room. *)
Lemma add_run a b : ok a -> ok b -> ok (a + b) -> add a b = Ok (a + b).
Proof. intros. by apply add_ok. Qed.

Lemma sub_run a b : ok a -> ok b -> ok (a - b) -> sub a b = Ok (a - b).
Proof. intros. by apply sub_ok. Qed.

Lemma neg_run a : ok a -> a <> int64_min -> neg a = Ok (- a).
Proof.
  intros Ha Hn. unfold neg, safe_neg. destruct (Z.eqb_spec a int64_min); [done|]. done.
Qed.

(** Whatever the operands, a returned value is the exact one. *)
Lemma add_value a b c : add a b = Ok c -> c = a + b.
Proof. unfold add, safe_add. intros H. repeat case_if_in H; res_inv; done. Qed.

Lemma sub_value a b c : sub a b = Ok c -> c = a - b.
Proof. unfold sub, safe_sub. intros H. repeat case_if_in H; res_inv; done. Qed.

Lemma neg_value a c : neg a = Ok c -> c = - a.
Proof. unfold neg, safe_neg. intros H. repeat case_if_in H; res_inv; done. Qed.

Lemma mul_value a b c : mul a b = Ok c -> c = a * b.
Proof. unfold mul, safe_mul. intros H. repeat case_if_in H; res_inv; done. Qed.
End Share.

(** [fc::safe<int64_t>] addition, subtraction and multiplication never
    wrap and never reject a representable result: the operator returns the
    mathematical value exactly when it lies in the [int64_t] range, and throws
    otherwise. *)
Theorem safe_arith_exact (a b : Z)
    (Ha : in_range int64_min int64_max a) (Hb : in_range int64_min int64_max b) :
  is_ok (Share.add a b) = in_int64 (a + b) /\
  is_ok (Share.sub a b) = in_int64 (a - b) /\
  is_ok (Share.mul a b) = in_int64 (a * b) /\
  (forall c, Share.add a b = Ok c -> c = a + b) /\
  (forall c, Share.sub a b = Ok c -> c = a - b) /\
  (forall c, Share.mul a b = Ok c -> c = a * b).
Proof.
  split_and!; eauto using Share.add_value, Share.sub_value, Share.mul_value;
    apply eq_true_iff_eq; rewrite in_int64_spec.
  - unfold Share.add.
    destruct (safe_add_spec int64_min int64_max ltac:(lia) ltac:(lia) a b Ha Hb)
      as [[? ->]|[[? ->]|[? ->]]]; unfold in_range in *; cbn; split; intros; (done || lia).
  - unfold Share.sub.
    destruct (safe_sub_spec int64_min int64_max ltac:(lia) ltac:(lia) a b Ha Hb)
      as [[? ->]|[[? ->]|[? ->]]]; unfold in_range in *; cbn; split; intros; (done || lia).
  - unfold Share.mul.
    destruct (safe_mul_spec int64_min int64_max ltac:(lia) ltac:(lia) a b Ha Hb)
      as [[? ->]|[[? ->]|[? ->]]]; unfold in_range in *; cbn; split; intros; (done || lia).
Qed.

Lemma safe_arith_exact_witness :
  is_ok (Share.mul int64_max 2) = in_int64 (int64_max * 2) /\ in_int64 (int64_max * 2) = false.
Proof.
  split; [|reflexivity].
  apply (safe_arith_exact int64_max 2); unfold in_range; lia.
Defined.
