(* ===== verification/Asset.v ===== *)
(** * Assets and prices (chain/protocol/asset.hpp, chain/protocol/asset.cpp)

    An [asset] is an amount of one asset type, a [price] the ratio of two
    assets.  Cross products are computed in 128-bit unsigned arithmetic
    ([wrap128]); amounts are [share_type], i.e. checked [int64_t]. *)

From S2P Require Import Prelude SafeInt.

Abbreviation GRAPHENE_MAX_SHARE_SUPPLY := 1000000000000000000.
Abbreviation GRAPHENE_100_PERCENT := 10000.
Abbreviation GRAPHENE_COLLATERAL_RATIO_DENOM := 1000.
Abbreviation GRAPHENE_MIN_COLLATERAL_RATIO := 1001.
Abbreviation GRAPHENE_MAX_COLLATERAL_RATIO := 32000.
Abbreviation GRAPHENE_DEFAULT_MAINTENANCE_COLLATERAL_RATIO := 1750.
Abbreviation GRAPHENE_DEFAULT_MAX_SHORT_SQUEEZE_RATIO := 1500.

(** The core asset and the gas asset. *)
Abbreviation CORE := 0.
Abbreviation GRAPHENE_ASSET_GAS := 1.

(** ** Assets *)

Record asset := mk_asset { amount : Z; asset_id : Z }.

#[global] Instance asset_eq_dec : EqDecision asset.
Proof. solve_decision. Defined.

Definition asset_add (a o : asset) : result asset :=
  check asset_id a =? asset_id o;
  let* v := Share.add (amount a) (amount o) in
  Ok (mk_asset v (asset_id a)).

Definition asset_sub (a o : asset) : result asset :=
  check asset_id a =? asset_id o;
  let* v := Share.sub (amount a) (amount o) in
  Ok (mk_asset v (asset_id a)).

Definition asset_neg (a : asset) : result asset :=
  let* v := Share.neg (amount a) in Ok (mk_asset v (asset_id a)).

Definition asset_eqb (a b : asset) : bool :=
  (asset_id a =? asset_id b) && (amount a =? amount b).

Definition asset_ltb (a b : asset) : result bool :=
  check asset_id a =? asset_id b; Ok (amount a <? amount b).

Definition asset_leb (a b : asset) : result bool :=
  if asset_eqb a b then Ok true else asset_ltb a b.

Definition asset_gtb (a b : asset) : result bool :=
  let* r := asset_leb a b in Ok (negb r).

Definition asset_geb (a b : asset) : result bool :=
  let* r := asset_ltb a b in Ok (negb r).

(** The table [scaled_precision_lut] of powers of ten, built as the template
    [p10] builds it. *)
Fixpoint p10 (n : nat) : Z :=
  match n with
  | O => 1
  | S n' => 10 * p10 n'
  end.

Definition scaled_precision_lut : list Z := map p10 (seq 0 19).

Definition scaled_precision (precision : Z) : result Z :=
  check precision <? 19;
  get_or (scaled_precision_lut !! Z.to_nat precision) out_of_range_exception.

(** ** Prices *)

Record price := mk_price { base : asset; quote : asset }.

#[global] Instance price_eq_dec : EqDecision price.
Proof. solve_decision. Defined.

(** The default constructor [price()]. *)
Definition null_price : price := mk_price (mk_asset 0 0) (mk_asset 0 0).

Definition price_invert (p : price) : price := mk_price (quote p) (base p).

Definition unit_price (a : Z) : price := mk_price (mk_asset 1 a) (mk_asset 1 a).

(** [uint128_t(x) * y] for two [int64_t] operands. *)
Definition mult128 (x y : Z) : Z := wrap128 (wrap128 x * y).

Definition price_eqb (a b : price) : bool :=
  if negb ((asset_id (base a) =? asset_id (base b)) &&
           (asset_id (quote a) =? asset_id (quote b))) then false
  else
    let amult := mult128 (amount (quote b)) (amount (base a)) in
    let bmult := mult128 (amount (quote a)) (amount (base b)) in
    amult =? bmult.

Definition price_ltb (a b : price) : bool :=
  if asset_id (base a) <? asset_id (base b) then true
  else if asset_id (base a) >? asset_id (base b) then false
  else if asset_id (quote a) <? asset_id (quote b) then true
  else if asset_id (quote a) >? asset_id (quote b) then false
  else
    let amult := mult128 (amount (quote b)) (amount (base a)) in
    let bmult := mult128 (amount (quote a)) (amount (base b)) in
    amult <? bmult.

Definition price_leb (a b : price) : bool := price_eqb a b || price_ltb a b.
Definition price_neb (a b : price) : bool := negb (price_eqb a b).
Definition price_gtb (a b : price) : bool := negb (price_leb a b).
Definition price_geb (a b : price) : bool := negb (price_ltb a b).

(** [asset * price]. *)
Definition asset_mul_price (a : asset) (b : price) : result asset :=
  if asset_id a =? asset_id (base b) then
    check amount (base b) >? 0;
    let r := mult128 (amount a) (amount (quote b)) / amount (base b) in
    check r <=? GRAPHENE_MAX_SHARE_SUPPLY;
    Ok (mk_asset (to_int64 r) (asset_id (quote b)))
  else if asset_id a =? asset_id (quote b) then
    check amount (quote b) >? 0;
    let r := mult128 (amount a) (amount (base b)) / amount (quote b) in
    check r <=? GRAPHENE_MAX_SHARE_SUPPLY;
    Ok (mk_asset (to_int64 r) (asset_id (base b)))
  else Err assert_exception.

(** [asset / asset]. *)
Definition asset_div (b q : asset) : result price :=
  check negb (asset_id b =? asset_id q); Ok (mk_price b q).

Definition price_max (b q : Z) : result price :=
  asset_div (mk_asset GRAPHENE_MAX_SHARE_SUPPLY b) (mk_asset 1 q).
Definition price_min (b q : Z) : result price :=
  asset_div (mk_asset 1 b) (mk_asset GRAPHENE_MAX_SHARE_SUPPLY q).

Definition price_is_null (p : price) : bool := price_eqb p null_price.

Definition price_validate (p : price) : result unit :=
  check amount (base p) >? 0;
  check amount (quote p) >? 0;
  fc_assert (negb (asset_id (base p) =? asset_id (quote p))).

(** *** Rational arithmetic of [call_price]

    [boost::rational<int128_t>] keeps a fraction in lowest terms with a positive
    denominator and throws [bad_rational] on a zero one.  Numerators and
    denominators of the code stay below 2^80, far from the 127-bit magnitude. *)
Record rational := mk_rat { numerator : Z; denominator : Z }.

Definition rat_make (n d : Z) : result rational :=
  if d =? 0 then Err bad_rational
  else let g := Z.gcd n d in
       Ok (mk_rat (Z.sgn d * (n / g)) (Z.abs d / g)).

Definition rat_mul (a b : rational) : result rational :=
  rat_make (numerator a * numerator b) (denominator a * denominator b).

Definition rat_too_big (cp : rational) : bool :=
  (numerator cp >? GRAPHENE_MAX_SHARE_SUPPLY) ||
  (denominator cp >? GRAPHENE_MAX_SHARE_SUPPLY).

(** The two [while] loops of asset.cpp: halve numerator and denominator with
    [half] until both fit.  [None] is fuel exhaustion. *)
Fixpoint rat_shrink (half : Z -> Z) (fuel : nat) (cp : rational) : option (result rational) :=
  if rat_too_big cp then
    match fuel with
    | O => None
    | S fuel' =>
        match rat_make (half (numerator cp)) (half (denominator cp)) with
        | Err e => Some (Err e)
        | Ok cp' => rat_shrink half fuel' cp'
        end
    end
  else Some (Ok cp).

Definition half_plus_one (z : Z) : Z := Z.shiftr z 1 + 1.
Definition half_round_up (z : Z) : Z := Z.shiftr z 1 + Z.land z 1.

(** 128 halvings bring any 127-bit magnitude down to 1. *)
Definition shrink_fuel : nat := 128.

Definition run_shrink (half : Z -> Z) (cp : rational) : result rational :=
  match rat_shrink half shrink_fuel cp with
  | Some r => r
  | None => Err overflow_exception
  end.

Definition call_price (debt collateral : asset) (collateral_ratio : Z) : result price :=
  let* swan := rat_make (amount debt) (amount collateral) in
  let* ratio := rat_make collateral_ratio GRAPHENE_COLLATERAL_RATIO_DENOM in
  let* cp := rat_mul swan ratio in
  let* cp := run_shrink half_plus_one cp in
  let* p := asset_div (mk_asset (to_int64 (numerator cp)) (asset_id debt))
                      (mk_asset (to_int64 (denominator cp)) (asset_id collateral)) in
  Ok (price_invert p).

(** ** Price feeds *)

Record price_feed := mk_price_feed {
  settlement_price : price;
  maintenance_collateral_ratio : Z;
  maximum_short_squeeze_ratio : Z }.

Definition default_price_feed : price_feed :=
  mk_price_feed null_price GRAPHENE_DEFAULT_MAINTENANCE_COLLATERAL_RATIO
    GRAPHENE_DEFAULT_MAX_SHORT_SQUEEZE_RATIO.

Definition price_feed_eqb (a b : price_feed) : bool :=
  price_eqb (settlement_price a) (settlement_price b) &&
  (maintenance_collateral_ratio a =? maintenance_collateral_ratio b) &&
  (maximum_short_squeeze_ratio a =? maximum_short_squeeze_ratio b).

Definition max_short_squeeze_price (f : price_feed) : result price :=
  let sp := settlement_price f in
  let* r := rat_make (amount (base sp)) (amount (quote sp)) in
  let* ratio := rat_make GRAPHENE_COLLATERAL_RATIO_DENOM (maximum_short_squeeze_ratio f) in
  let* cp := rat_mul r ratio in
  let* cp := run_shrink half_round_up cp in
  asset_div (mk_asset (to_int64 (numerator cp)) (asset_id (base sp)))
            (mk_asset (to_int64 (denominator cp)) (asset_id (quote sp))).

Definition price_feed_validate (f : price_feed) : result unit :=
  let* _ := if negb (price_is_null (settlement_price f))
            then price_validate (settlement_price f) else Ok tt in
  check maximum_short_squeeze_ratio f >=? GRAPHENE_MIN_COLLATERAL_RATIO;
  check maximum_short_squeeze_ratio f <=? GRAPHENE_MAX_COLLATERAL_RATIO;
  check maintenance_collateral_ratio f >=? GRAPHENE_MIN_COLLATERAL_RATIO;
  check maintenance_collateral_ratio f <=? GRAPHENE_MAX_COLLATERAL_RATIO;
  check maintenance_collateral_ratio f >=? maximum_short_squeeze_ratio f;
  let* _ := max_short_squeeze_price f in Ok tt.

Definition price_feed_is_for (f : price_feed) (aid : Z) : bool :=
  if negb (price_is_null (settlement_price f))
  then asset_id (base (settlement_price f)) =? aid
  else true.

(** ** Lemmas *)

Definition price_ok (p : price) : Prop :=
  0 < amount (base p) <= int64_max /\ 0 < amount (quote p) <= int64_max.

(** Two prices of one market with the same ratio. *)
Definition price_equiv (a b : price) : Prop :=
  asset_id (base a) = asset_id (base b) /\ asset_id (quote a) = asset_id (quote b) /\
  amount (quote b) * amount (base a) = amount (quote a) * amount (base b).

Lemma mult128_small x y :
  0 <= x <= int64_max -> 0 <= y <= int64_max -> mult128 x y = x * y.
Proof.
  intros Hx Hy. unfold mult128.
  rewrite (wrap128_small x) by lia. apply wrap128_small. nia.
Qed.

Lemma asset_eqb_eq a b : asset_eqb a b = true <-> a = b.
Proof.
  unfold asset_eqb. destruct a, b; cbn. rewrite andb_true_iff, !Z.eqb_eq. naive_solver.
Qed.

Lemma asset_ltb_same a b :
  asset_id a = asset_id b -> asset_ltb a b = Ok (amount a <? amount b).
Proof. intros H. unfold asset_ltb. by rewrite H, Z.eqb_refl. Qed.

Lemma asset_leb_same a b :
  asset_id a = asset_id b -> asset_leb a b = Ok (amount a <=? amount b).
Proof.
  intros H. unfold asset_leb. destruct (asset_eqb a b) eqn:E.
  - apply asset_eqb_eq in E as ->. by rewrite Z.leb_refl.
  - rewrite asset_ltb_same by done. f_equal. apply eq_true_iff_eq.
    rewrite Z.ltb_lt, Z.leb_le. unfold asset_eqb in E. rewrite H, Z.eqb_refl in E.
    cbn in E. bool_to_prop. lia.
Qed.

Lemma asset_geb_same a b :
  asset_id a = asset_id b -> asset_geb a b = Ok (amount b <=? amount a).
Proof.
  intros H. unfold asset_geb. rewrite asset_ltb_same by done. cbn. f_equal.
  by rewrite Z.leb_antisym.
Qed.

Lemma asset_gtb_same a b :
  asset_id a = asset_id b -> asset_gtb a b = Ok (amount b <? amount a).
Proof.
  intros H. unfold asset_gtb. rewrite asset_leb_same by done. cbn. f_equal.
  by rewrite Z.ltb_antisym.
Qed.

Lemma price_eqb_spec a b :
  price_ok a -> price_ok b -> (price_eqb a b = true <-> price_equiv a b).
Proof.
  intros [? ?] [? ?]. unfold price_eqb, price_equiv.
  rewrite !mult128_small by lia. case_if.
  - apply negb_true_iff, andb_false_iff in Hif. split; [done|].
    intros (? & ? & _). destruct Hif; bool_to_prop; done.
  - bool_to_prop. rewrite Z.eqb_eq. naive_solver.
Qed.

(** Lexicographic reading of [operator<]. *)
Lemma price_ltb_spec a b :
  price_ok a -> price_ok b ->
  (price_ltb a b = true <->
   asset_id (base a) < asset_id (base b) \/
   asset_id (base a) = asset_id (base b) /\
     (asset_id (quote a) < asset_id (quote b) \/
      asset_id (quote a) = asset_id (quote b) /\
        amount (base a) * amount (quote b) < amount (base b) * amount (quote a))).
Proof.
  intros [? ?] [? ?]. unfold price_ltb. rewrite !mult128_small by lia.
  repeat case_if; bool_to_prop; rewrite ?Z.ltb_lt; split; intros; try done; nia.
Qed.

(** On valid prices [price_equiv] is an equivalence; [vprice] packages the
    validity so that the class instances can be stated. *)
Definition vprice := { p : price | price_ok p }.
Definition vequiv (a b : vprice) : Prop := price_equiv (`a) (`b).

Lemma price_equiv_trans a b c :
  price_ok a -> price_ok b -> price_ok c ->
  price_equiv a b -> price_equiv b c -> price_equiv a c.
Proof. unfold price_ok, price_equiv. intros. destruct_and!. split_and!; [lia..|]. nia. Qed.

#[global] Instance vequiv_equivalence : Equivalence vequiv.
Proof.
  split.
  - intros [a Ha]. unfold vequiv, price_equiv. cbn. lia.
  - intros [a Ha] [b Hb]. unfold vequiv, price_equiv. cbn. lia.
  - intros [a Ha] [b Hb] [c Hc]. unfold vequiv. cbn. by apply price_equiv_trans.
Qed.

Lemma div_same_ratio x q b q' b' :
  0 < b -> 0 < b' -> q * b' = q' * b -> x * q / b = x * q' / b'.
Proof.
  intros Hb Hb' H.
  rewrite <- (Z.div_mul_cancel_r (x * q) b b') by lia.
  rewrite <- (Z.div_mul_cancel_r (x * q') b' b) by lia.
  rewrite <- !Z.mul_assoc, H. f_equal; lia.
Qed.

(** The value of [asset * price] when nothing wraps. *)
Lemma asset_mul_price_base a p :
  asset_id a = asset_id (base p) -> 0 <= amount a <= int64_max -> price_ok p ->
  asset_mul_price a p =
    let r := amount a * amount (quote p) / amount (base p) in
    if r <=? GRAPHENE_MAX_SHARE_SUPPLY then Ok (mk_asset r (asset_id (quote p)))
    else Err assert_exception.
Proof.
  intros Hid Ha [Hb Hq]. unfold asset_mul_price. rewrite Hid, Z.eqb_refl.
  destruct (Z.gtb_spec (amount (base p)) 0); [|lia]. cbn [fc_assert rbind].
  rewrite mult128_small by lia. cbv zeta.
  assert (0 <= amount a * amount (quote p) / amount (base p)) by (apply Z.div_pos; nia).
  destruct (Z.leb_spec (amount a * amount (quote p) / amount (base p))
              GRAPHENE_MAX_SHARE_SUPPLY); cbn; [|done].
  by rewrite to_int64_small by lia.
Qed.

Lemma asset_mul_price_quote a p :
  asset_id a = asset_id (quote p) -> asset_id (base p) <> asset_id (quote p) ->
  asset_mul_price a p = asset_mul_price a (price_invert p).
Proof.
  intros Hid Hne. unfold asset_mul_price. cbn.
  rewrite Hid, Z.eqb_refl.
  destruct (Z.eqb_spec (asset_id (quote p)) (asset_id (base p))); [congruence|done].
Qed.

Lemma price_ok_invert p : price_ok p -> price_ok (price_invert p).
Proof. unfold price_ok. cbn. tauto. Qed.

#[export] Hint Resolve price_ok_invert : gph.

(** Result of a successful conversion, in either direction. *)
Lemma asset_mul_price_inv a p r :
  asset_mul_price a p = Ok r -> 0 <= amount a <= int64_max -> price_ok p ->
  (asset_id a = asset_id (base p) /\ asset_id r = asset_id (quote p) /\
     amount r = amount a * amount (quote p) / amount (base p)) \/
  (asset_id a = asset_id (quote p) /\ asset_id a <> asset_id (base p) /\
     asset_id r = asset_id (base p) /\
     amount r = amount a * amount (base p) / amount (quote p)).
Proof.
  intros H Ha Hp. destruct (Z.eq_dec (asset_id a) (asset_id (base p))) as [E|E].
  - left. rewrite asset_mul_price_base in H by done. cbv zeta in H.
    case_if_in H; res_inv. done.
  - right. assert (E' : asset_id a = asset_id (quote p)).
    { unfold asset_mul_price in H. case_if_in H; bool_to_prop; [done|].
      case_if_in H; bool_to_prop; done. }
    rewrite asset_mul_price_quote in H by congruence.
    rewrite asset_mul_price_base in H by (done || by apply price_ok_invert).
    cbv zeta in H. cbn in H. case_if_in H; res_inv. done.
Qed.

Lemma asset_mul_price_range a p r :
  asset_mul_price a p = Ok r -> 0 <= amount a <= int64_max -> price_ok p ->
  0 <= amount r <= GRAPHENE_MAX_SHARE_SUPPLY.
Proof.
  intros H Ha Hp. destruct (Z.eq_dec (asset_id a) (asset_id (base p))) as [E|E].
  - rewrite asset_mul_price_base in H by done. cbv zeta in H.
    case_if_in H; res_inv. cbn. bool_to_prop. destruct Hp.
    split; [apply Z.div_pos; nia|done].
  - destruct (asset_mul_price_inv _ _ _ H Ha Hp) as [[? _]|(Eq & _ & Er & Ev)]; [done|].
    unfold asset_mul_price in H.
    rewrite (proj2 (Z.eqb_neq _ _) E), Eq, Z.eqb_refl in H. destruct Hp.
    rewrite mult128_small in H by lia. res_inv. bool_to_prop. cbn in *.
    rewrite Ev. split; [apply Z.div_pos; nia|done].
Qed.

(** The two halving functions reach the bound. *)
Lemma rat_make_pos n d r :
  rat_make n d = Ok r -> 0 < n -> 0 < d ->
  0 < numerator r <= n /\ 0 < denominator r <= d /\
  numerator r * d = denominator r * n.
Proof.
  unfold rat_make. intros H Hn Hd. case_if_in H; res_inv; bool_to_prop; cbn.
  pose proof (Z.gcd_divide_l n d) as [x Hx]. pose proof (Z.gcd_divide_r n d) as [y Hy].
  set (g := Z.gcd n d) in *.
  assert (0 < g).
  { pose proof (Z.gcd_nonneg n d) as G. fold g in G.
    destruct (Z.eq_dec g 0) as [E|]; [rewrite E in Hx|]; lia. }
  rewrite (Z.sgn_pos d), (Z.abs_eq d), Z.mul_1_l by lia.
  assert (n / g = x) as -> by (rewrite Hx; apply Z.div_mul; lia).
  assert (d / g = y) as -> by (rewrite Hy; apply Z.div_mul; lia).
  clearbody g. subst n d. nia.
Qed.

Lemma rat_make_ok n d : d <> 0 -> exists r, rat_make n d = Ok r.
Proof. intros H. unfold rat_make. destruct (Z.eqb_spec d 0); [done|eauto]. Qed.

(** Halvings that keep positive numbers positive and lose about one bit. *)
Class Halving (half : Z -> Z) : Prop := {
  half_pos z : 0 < z -> 0 < half z;
  half_bound z : 0 < z -> 2 * half z <= z + 2 }.

#[global] Instance half_plus_one_halving : Halving half_plus_one.
Proof.
  split; intros z Hz; unfold half_plus_one; rewrite Z.shiftr_div_pow2 by lia;
    change (2 ^ 1) with 2; pose proof (Z.div_pos z 2); pose proof (Z.mul_div_le z 2); lia.
Qed.

#[global] Instance half_round_up_halving : Halving half_round_up.
Proof.
  split; intros z Hz; unfold half_round_up; rewrite Z.shiftr_div_pow2 by lia;
    change (Z.land z 1) with (Z.land z (Z.ones 1)); rewrite Z.land_ones by lia;
    change (2 ^ 1) with 2; pose proof (Z.mod_pos_bound z 2); pose proof (Z.div_mod z 2); lia.
Qed.

Lemma rat_shrink_terminates half `{!Halving half} (fuel : nat) : forall cp,
  0 < numerator cp <= GRAPHENE_MAX_SHARE_SUPPLY + 2 ^ Z.of_nat fuel ->
  0 < denominator cp <= GRAPHENE_MAX_SHARE_SUPPLY + 2 ^ Z.of_nat fuel ->
  exists cp', rat_shrink half (S fuel) cp = Some (Ok cp') /\
    0 < numerator cp' <= GRAPHENE_MAX_SHARE_SUPPLY /\
    0 < denominator cp' <= GRAPHENE_MAX_SHARE_SUPPLY.
Proof.
  induction fuel as [|fuel IH]; intros cp Hn Hd; cbn [rat_shrink].
  all: destruct (rat_too_big cp) eqn:E;
    [|exists cp; unfold rat_too_big in E; bool_to_prop; split; [done|lia]].
  all: pose proof (half_pos (numerator cp) (proj1 Hn)) as Pn;
    pose proof (half_pos (denominator cp) (proj1 Hd)) as Pd;
    pose proof (half_bound (numerator cp) (proj1 Hn)) as Bn;
    pose proof (half_bound (denominator cp) (proj1 Hd)) as Bd.
  all: destruct (rat_make_ok (half (numerator cp)) (half (denominator cp)) ltac:(lia))
    as [r Hr]; rewrite Hr; destruct (rat_make_pos _ _ _ Hr Pn Pd) as (Rn & Rd & _).
  - change (2 ^ Z.of_nat 0) with 1 in *.
    assert (numerator r <= GRAPHENE_MAX_SHARE_SUPPLY /\
            denominator r <= GRAPHENE_MAX_SHARE_SUPPLY) as [? ?]
      by (split; lia).
    assert (rat_too_big r = false) as ->
      by (unfold rat_too_big; apply orb_false_iff; rewrite !Z.gtb_ltb, !Z.ltb_ge; lia).
    exists r. split; [done|lia].
  - rewrite Nat2Z.inj_succ, Z.pow_succ_r in Hn, Hd by lia.
    cbn [rat_shrink] in IH. apply IH; lia.
Qed.

Lemma run_shrink_ok half `{!Halving half} cp :
  0 < numerator cp < 2 ^ 127 -> 0 < denominator cp < 2 ^ 127 ->
  exists cp', run_shrink half cp = Ok cp' /\
    0 < numerator cp' <= GRAPHENE_MAX_SHARE_SUPPLY /\
    0 < denominator cp' <= GRAPHENE_MAX_SHARE_SUPPLY.
Proof.
  intros Hn Hd.
  destruct (rat_shrink_terminates half 127 cp) as (cp' & H & ?); [lia..|].
  exists cp'. unfold run_shrink, shrink_fuel. by rewrite H.
Qed.

(** ** Properties *)

(** [asset * price] is the exact floor of the rational product on
    non-negative amounts and valid prices, in either direction, and throws
    precisely when that floor exceeds the maximum share supply. *)
Theorem asset_mul_price_floor (a : asset) (p : price)
    (Hp : price_ok p) (Ha : 0 <= amount a <= int64_max)
    (Hid : asset_id a = asset_id (base p)) (Hne : asset_id (base p) <> asset_id (quote p)) :
  (asset_mul_price a p =
     let r := amount a * amount (quote p) / amount (base p) in
     if r <=? GRAPHENE_MAX_SHARE_SUPPLY then Ok (mk_asset r (asset_id (quote p)))
     else Err assert_exception) /\
  asset_mul_price a (price_invert p) = asset_mul_price a p.
Proof.
  split; [by apply asset_mul_price_base|].
  rewrite (asset_mul_price_quote a (price_invert p)); [by destruct p|done|cbn; congruence].
Qed.

Lemma asset_mul_price_floor_witness :
  asset_mul_price (mk_asset 10 0) (mk_price (mk_asset 3 0) (mk_asset 2 5)) =
    Ok (mk_asset 6 5).
Proof.
  rewrite (proj1 (asset_mul_price_floor (mk_asset 10 0)
    (mk_price (mk_asset 3 0) (mk_asset 2 5)) ltac:(unfold price_ok; cbn; lia)
    ltac:(cbn; lia) eq_refl ltac:(cbn; lia))).
  reflexivity.
Defined.

(** Converting an amount at a price and converting the proceeds back at the
    same price never yields more than the original amount. *)
Theorem asset_mul_price_no_gain (a b c : asset) (p : price)
    (Hp : price_ok p) (Ha : 0 <= amount a <= int64_max)
    (Hne : asset_id (base p) <> asset_id (quote p))
    (H1 : asset_mul_price a p = Ok b) (H2 : asset_mul_price b p = Ok c) :
  asset_id c = asset_id a /\ 0 <= amount c <= amount a.
Proof.
  pose proof (asset_mul_price_range _ _ _ H1 Ha Hp) as Rb.
  assert (Hb : 0 <= amount b <= int64_max) by lia.
  pose proof (asset_mul_price_range _ _ _ H2 Hb Hp) as Rc.
  pose proof Hp as [Pb Pq].
  destruct (asset_mul_price_inv _ _ _ H1 Ha Hp) as [(I1 & I2 & I3)|(I1 & I2 & I3 & I4)];
  destruct (asset_mul_price_inv _ _ _ H2 Hb Hp) as [(J1 & J2 & J3)|(J1 & J2 & J3 & J4)];
    try congruence; (split; [congruence|]); (split; [lia|]).
  - rewrite J4, I3. apply Z.div_le_upper_bound; [lia|].
    pose proof (Z.mul_div_le (amount a * amount (quote p)) (amount (base p))). nia.
  - rewrite J3, I4. apply Z.div_le_upper_bound; [lia|].
    pose proof (Z.mul_div_le (amount a * amount (base p)) (amount (quote p))). nia.
Qed.

Lemma asset_mul_price_no_gain_witness :
  0 <= amount (mk_asset 9 0) <= amount (mk_asset 10 0).
Proof.
  apply (asset_mul_price_no_gain (mk_asset 10 0) (mk_asset 6 5) (mk_asset 9 0)
           (mk_price (mk_asset 3 0) (mk_asset 2 5))).
  - unfold price_ok. cbn. lia.
  - cbn. lia.
  - cbn. lia.
  - reflexivity.
  - reflexivity.
Defined.

(** C39: [operator<] and [operator==] on valid prices form a total order: exactly
    one of less, equal and greater holds, and [<] is transitive.  (The order
    books are multi-index containers sorted by these operators.) *)
Theorem price_order_total (a b c : price)
    (Ha : price_ok a) (Hb : price_ok b) (Hc : price_ok c) :
  price_ltb a a = false /\
  (price_ltb a b = true -> price_ltb b c = true -> price_ltb a c = true) /\
  (price_gtb a b = price_ltb b a) /\
  (price_eqb a b = true <-> price_ltb a b = false /\ price_ltb b a = false).
Proof.
  pose proof (price_ltb_spec a a Ha Ha) as Laa. pose proof (price_ltb_spec a b Ha Hb) as Lab.
  pose proof (price_ltb_spec b a Hb Ha) as Lba. pose proof (price_ltb_spec b c Hb Hc) as Lbc.
  pose proof (price_ltb_spec a c Ha Hc) as Lac. pose proof (price_eqb_spec a b Ha Hb) as Eab.
  unfold price_equiv, price_ok in *. unfold price_gtb, price_leb. split_and!.
  - apply not_true_iff_false. rewrite Laa. lia.
  - rewrite Lab, Lbc, Lac. clear -Ha Hb Hc. nia.
  - apply eq_true_iff_eq. rewrite negb_true_iff, orb_false_iff, <- !not_true_iff_false.
    rewrite Eab, Lab, Lba. lia.
  - rewrite <- !not_true_iff_false, Eab, Lab, Lba. lia.
Qed.

Lemma price_order_total_witness :
  price_gtb (mk_price (mk_asset 2 0) (mk_asset 3 1)) (mk_price (mk_asset 1 0) (mk_asset 2 1)) =
  price_ltb (mk_price (mk_asset 1 0) (mk_asset 2 1)) (mk_price (mk_asset 2 0) (mk_asset 3 1)).
Proof.
  apply (price_order_total (mk_price (mk_asset 2 0) (mk_asset 3 1))
          (mk_price (mk_asset 1 0) (mk_asset 2 1)) (mk_price (mk_asset 2 0) (mk_asset 3 1)));
    unfold price_ok; cbn; lia.
Defined.

(** Margin-call prices are always well formed: for positive debt,
    collateral and ratio the halving loop of [price::call_price] terminates and
    the returned price has both amounts in [1, GRAPHENE_MAX_SHARE_SUPPLY], with
    collateral as base and debt as quote. *)
Theorem call_price_ok (debt collateral : asset) (ratio : Z)
    (Hd : 0 < amount debt <= int64_max) (Hc : 0 < amount collateral <= int64_max)
    (Hr : 0 < ratio < uint16_mod) (Hne : asset_id debt <> asset_id collateral) :
  exists p, call_price debt collateral ratio = Ok p /\
    asset_id (base p) = asset_id collateral /\ asset_id (quote p) = asset_id debt /\
    0 < amount (base p) <= GRAPHENE_MAX_SHARE_SUPPLY /\
    0 < amount (quote p) <= GRAPHENE_MAX_SHARE_SUPPLY.
Proof.
  unfold call_price, rat_mul.
  destruct (rat_make_ok (amount debt) (amount collateral) ltac:(lia)) as [swan Hs].
  destruct (rat_make_ok ratio GRAPHENE_COLLATERAL_RATIO_DENOM ltac:(lia)) as [rt Hrt].
  destruct (rat_make_pos _ _ _ Hs) as (? & ? & _); [lia..|].
  destruct (rat_make_pos _ _ _ Hrt) as (? & ? & _); [lia..|].
  rewrite Hs, Hrt. cbn [rbind].
  destruct (rat_make_ok (numerator swan * numerator rt)
              (denominator swan * denominator rt) ltac:(nia)) as [cp Hcp].
  destruct (rat_make_pos _ _ _ Hcp) as (? & ? & _); [nia..|]. rewrite Hcp. cbn [rbind].
  destruct (run_shrink_ok half_plus_one cp) as (cp' & -> & ? & ?); [nia..|].
  cbn [rbind]. rewrite !to_int64_small by lia.
  unfold asset_div. cbn. rewrite (proj2 (Z.eqb_neq _ _) Hne). cbn. eauto 10.
Qed.

Lemma call_price_ok_witness :
  exists p, call_price (mk_asset int64_max 5) (mk_asset 1 0) 1750 = Ok p /\
    0 < amount (base p) <= GRAPHENE_MAX_SHARE_SUPPLY.
Proof.
  destruct (call_price_ok (mk_asset int64_max 5) (mk_asset 1 0) 1750) as (p & H & H');
    cbn; [lia..|]. exists p. split; [exact H|]. apply H'.
Defined.
