(* ===== verification/ObjectDb.v ===== *)
(** * Object database with multi-level undo (libraries/db)

    Object ids ([object_id.hpp]), the per-type index ([generic_index.hpp] under
    [primary_index] of [index.hpp]), the object database
    ([object_database.hpp/.cpp]) and the undo database
    ([undo_database.hpp/.cpp]).

    The payload type of objects is a section variable [V]; the uniqueness
    constraints of the secondary keys of a [multi_index_container] are a section
    variable [conflict] (two objects of one index that may not coexist).  The
    unordered containers of [undo_state] are finite maps and sets; loops over
    them fold over [map_to_list], and no theorem depends on its order. *)

From S2P Require Import Prelude.

(** ** Object ids *)

Record object_id := mk_oid { space : Z; type_id : Z; instance : Z }.

#[global] Instance object_id_eq_dec : EqDecision object_id.
Proof. solve_decision. Defined.

#[global] Instance object_id_countable : Countable object_id.
Proof.
  refine (inj_countable' (fun o => (space o, type_id o, instance o))
            (fun '(s, t, i) => mk_oid s t i) _). by intros [].
Defined.

Definition space_type (n : object_id) : Z := Z.lor (Z.shiftl (space n) 8) (type_id n).

Definition oid_eqb (a b : object_id) : bool :=
  (space_type a =? space_type b) && (instance a =? instance b).

Definition oid_ltb (a b : object_id) : bool :=
  if space_type a <? space_type b then true
  else if space_type a =? space_type b then instance a <? instance b
  else false.

Definition oid_gtb (a b : object_id) : bool :=
  if oid_eqb a b then false else negb (oid_ltb a b).

Definition oid_is_null (a : object_id) : bool := oid_eqb a (mk_oid 0 0 0).

Definition oid_succ (a : object_id) : object_id :=
  mk_oid (space a) (type_id a) (wrap64 (instance a + 1)).

Definition oid_add (a : object_id) (delta : Z) : object_id :=
  mk_oid (space a) (type_id a) (wrap64 (instance a + delta)).

(** The id of the index an object lives in, [object_id_type(space,type,0)]. *)
Definition index_id (o : object_id) : object_id := mk_oid (space o) (type_id o) 0.

(** ** The stores *)

(** Fold of a throwing step over a list, left to right. *)
Fixpoint foldM {A S} (f : A -> S -> result S) (l : list A) (s : S) : result S :=
  match l with
  | [] => Ok s
  | x :: l' => let* s' := f x s in foldM f l' s'
  end.

Section ObjectDb.
Context {V : Type} (conflict : V -> V -> bool).

Record index := mk_index { next_id : object_id; indices : gmap object_id V }.

Record undo_state := mk_undo_state {
  old_values : gmap object_id V;
  old_index_next_ids : gmap object_id object_id;
  new_ids : gset object_id;
  removed : gmap object_id V }.

Definition empty_undo_state : undo_state := mk_undo_state ∅ ∅ ∅ ∅.

(** [_stack] is a deque whose back is the current state; here the head of the
    list is the back. *)
Record undo_database := mk_undo_db {
  active_sessions : Z;
  disabled : bool;
  stack : list undo_state;
  max_size : Z }.

Record object_database := mk_odb {
  _index : gmap (Z * Z) index;
  _undo_db : undo_database }.

Definition with_index (d : object_database) i := mk_odb i (_undo_db d).
Definition with_undo (d : object_database) u := mk_odb (_index d) u.

Definition set_disabled (b : bool) (u : undo_database) : undo_database :=
  mk_undo_db (active_sessions u) b (stack u) (max_size u).
Definition set_stack (s : list undo_state) (u : undo_database) : undo_database :=
  mk_undo_db (active_sessions u) (disabled u) s (max_size u).
Definition set_active (n : Z) (u : undo_database) : undo_database :=
  mk_undo_db n (disabled u) (stack u) (max_size u).
Definition set_max_size (n : Z) (u : undo_database) : undo_database :=
  mk_undo_db (active_sessions u) (disabled u) (stack u) n.

Definition enable := set_disabled false.
Definition disable := set_disabled true.

(** *** Recording changes *)

(** The state at the back of the stack, created when the stack is empty. *)
Definition back_state (u : undo_database) : undo_state :=
  match stack u with [] => empty_undo_state | st :: _ => st end.
Definition set_back (st : undo_state) (u : undo_database) : undo_database :=
  set_stack (st :: tail (stack u)) u.

Definition on_create (id : object_id) (u : undo_database) : undo_database :=
  if disabled u then u
  else
    let st := back_state u in
    let next := match old_index_next_ids st !! index_id id with
                | None => <[index_id id := id]> (old_index_next_ids st)
                | Some _ => old_index_next_ids st
                end in
    set_back (mk_undo_state (old_values st) next ({[id]} ∪ new_ids st) (removed st)) u.

Definition on_modify (id : object_id) (v : V) (u : undo_database) : undo_database :=
  if disabled u then u
  else
    let st := back_state u in
    if decide (id ∈ new_ids st) then set_back st u
    else match old_values st !! id with
         | Some _ => set_back st u
         | None => set_back (mk_undo_state (<[id := v]> (old_values st))
                               (old_index_next_ids st) (new_ids st) (removed st)) u
         end.

Definition on_remove (id : object_id) (v : V) (u : undo_database) : undo_database :=
  if disabled u then u
  else
    let st := back_state u in
    if decide (id ∈ new_ids st) then
      set_back (mk_undo_state (old_values st) (old_index_next_ids st)
                  (new_ids st ∖ {[id]}) (removed st)) u
    else match old_values st !! id with
         | Some w => set_back (mk_undo_state (delete id (old_values st))
                       (old_index_next_ids st) (new_ids st) (<[id := w]> (removed st))) u
         | None =>
             match removed st !! id with
             | Some _ => set_back st u
             | None => set_back (mk_undo_state (old_values st) (old_index_next_ids st)
                                   (new_ids st) (<[id := v]> (removed st))) u
             end
         end.

(** *** The index operations *)

(** A unique key of another object of the index collides with [v].  (After a [modify]
    that collides the container has lost the object; an exception has no state here, so
    nothing is said of what a program finds after catching it.) *)
Definition collides (m : gmap object_id V) (v : V) : bool :=
  existsb (fun kw => conflict v kw.2) (map_to_list m).

Definition index_insert (id : object_id) (v : V) (i : index) : result index :=
  check bool_decide (indices i !! id = None) && negb (collides (indices i) v);
  Ok (mk_index (next_id i) (<[id := v]> (indices i))).

Definition index_create (v : object_id -> V) (i : index) : result (object_id * index) :=
  let id := next_id i in
  let* i' := index_insert id (v id) i in
  Ok (id, mk_index (oid_succ (next_id i')) (indices i')).

Definition index_modify (id : object_id) (f : V -> V) (i : index) : result index :=
  let* v := get_or (indices i !! id) assert_exception in
  check negb (collides (delete id (indices i)) (f v));
  Ok (mk_index (next_id i) (<[id := f v]> (indices i))).

Definition index_remove (id : object_id) (i : index) : index :=
  mk_index (next_id i) (delete id (indices i)).

Definition set_next_id (id : object_id) (i : index) : index := mk_index id (indices i).

(** *** The object database operations *)

Definition get_index (sp ty : Z) (d : object_database) : result index :=
  get_or (_index d !! (sp, ty)) assert_exception.

Definition put_index (sp ty : Z) (i : index) (d : object_database) : object_database :=
  with_index d (<[(sp, ty) := i]> (_index d)).

Definition find_object (id : object_id) (d : object_database) : result (option V) :=
  let* i := get_index (space id) (type_id id) d in Ok (indices i !! id).

Definition get_object (id : object_id) (d : object_database) : result V :=
  let* o := find_object id d in get_or o assert_exception.

Definition od_create (sp ty : Z) (v : object_id -> V) (d : object_database)
    : result (object_id * object_database) :=
  let* i := get_index sp ty d in
  let* (id, i') := index_create v i in
  let d' := put_index sp ty i' d in
  Ok (id, with_undo d' (on_create id (_undo_db d'))).

Definition od_insert (id : object_id) (v : V) (d : object_database)
    : result object_database :=
  let* i := get_index (space id) (type_id id) d in
  let* i' := index_insert id v i in
  Ok (put_index (space id) (type_id id) i' d).

Definition od_modify (id : object_id) (f : V -> V) (d : object_database)
    : result object_database :=
  let* v := get_object id d in
  let d := with_undo d (on_modify id v (_undo_db d)) in
  let* i := get_index (space id) (type_id id) d in
  let* i' := index_modify id f i in
  Ok (put_index (space id) (type_id id) i' d).

Definition od_remove (id : object_id) (d : object_database) : result object_database :=
  let* v := get_object id d in
  let d := with_undo d (on_remove id v (_undo_db d)) in
  let* i := get_index (space id) (type_id id) d in
  Ok (put_index (space id) (type_id id) (index_remove id i) d).

(** *** Sessions *)

Record session := mk_session { apply_undo : bool; disable_on_exit : bool }.

Definition drop_oldest (limit : Z) (st : list undo_state) : list undo_state :=
  if Z.of_nat (length st) >? limit then take (Z.to_nat limit) st else st.

Definition start_undo_session (force_enable : bool) (d : object_database)
    : session * object_database :=
  let u := _undo_db d in
  if disabled u && negb force_enable then (mk_session true false, d)
  else
    let doe := disabled u && force_enable in
    let u := if force_enable then set_disabled false u else u in
    let u := set_stack (empty_undo_state :: drop_oldest (max_size u) (stack u)) u in
    let u := set_active (wrap32 (active_sessions u + 1)) u in
    (mk_session true doe, with_undo d u).

(** The four loops of [undo] and [pop_commit]. *)
Definition restore_state (st : undo_state) (d : object_database)
    : result object_database :=
  let* d := foldM (fun kv d => od_modify kv.1 (fun _ => kv.2) d)
              (map_to_list (old_values st)) d in
  let* d := foldM (fun id d => let* _ := get_object id d in od_remove id d)
              (elements (new_ids st)) d in
  let* d := foldM (fun kn d =>
                     let* i := get_index (space kn.1) (type_id kn.1) d in
                     Ok (put_index (space kn.1) (type_id kn.1) (set_next_id kn.2 i) d))
              (map_to_list (old_index_next_ids st)) d in
  foldM (fun kv d => od_insert kv.1 kv.2 d) (map_to_list (removed st)) d.

(** [_stack.back()] of an empty stack is undefined. *)
Definition undo (d : object_database) : result object_database :=
  let u := _undo_db d in
  check negb (disabled u);
  check active_sessions u >? 0;
  let d := with_undo d (disable u) in
  let* state := get_or (head (stack u)) undefined_behaviour in
  let* d := restore_state state d in
  let u := _undo_db d in
  Ok (with_undo d (set_active (active_sessions u - 1) (enable (set_stack (tail (stack u)) u)))).

(** [merge] folds the back state into the one before it. *)
Definition merge_upd (kv : object_id * V) (p : undo_state) : undo_state :=
  if decide (kv.1 ∈ new_ids p) then p
  else match old_values p !! kv.1 with
       | Some _ => p
       | None => mk_undo_state (<[kv.1 := kv.2]> (old_values p)) (old_index_next_ids p)
                   (new_ids p) (removed p)
       end.

Definition merge_new (ids : gset object_id) (p : undo_state) : undo_state :=
  mk_undo_state (old_values p) (old_index_next_ids p) (ids ∪ new_ids p) (removed p).

Definition merge_next (kn : object_id * object_id) (p : undo_state) : undo_state :=
  match old_index_next_ids p !! kn.1 with
  | None => mk_undo_state (old_values p) (<[kn.1 := kn.2]> (old_index_next_ids p))
              (new_ids p) (removed p)
  | Some _ => p
  end.

Definition merge_del (kv : object_id * V) (p : undo_state) : undo_state :=
  if decide (kv.1 ∈ new_ids p) then
    mk_undo_state (old_values p) (old_index_next_ids p) (new_ids p ∖ {[kv.1]}) (removed p)
  else match old_values p !! kv.1 with
       | Some w => mk_undo_state (delete kv.1 (old_values p)) (old_index_next_ids p)
                     (new_ids p) (<[kv.1 := w]> (removed p))
       | None => mk_undo_state (old_values p) (old_index_next_ids p)
                   (new_ids p) (<[kv.1 := kv.2]> (removed p))
       end.

Definition merge_states (st p : undo_state) : undo_state :=
  let p := foldr merge_upd p (map_to_list (old_values st)) in
  let p := merge_new (new_ids st) p in
  let p := foldr merge_next p (map_to_list (old_index_next_ids st)) in
  foldr merge_del p (map_to_list (removed st)).

Definition merge (d : object_database) : result object_database :=
  let u := _undo_db d in
  check active_sessions u >? 0;
  if (active_sessions u =? 1) && (Z.of_nat (length (stack u)) =? 1) then
    Ok (with_undo d (set_active (active_sessions u - 1) (set_stack (tail (stack u)) u)))
  else
    match stack u with
    | st :: p :: rest =>
        Ok (with_undo d (set_active (active_sessions u - 1)
                           (set_stack (merge_states st p :: rest) u)))
    | _ => Err assert_exception
    end.

Definition commit (d : object_database) : result object_database :=
  let u := _undo_db d in
  check active_sessions u >? 0;
  Ok (with_undo d (set_active (active_sessions u - 1) u)).

Definition pop_commit (d : object_database) : result object_database :=
  let u := _undo_db d in
  check active_sessions u =? 0;
  check negb (bool_decide (stack u = []));
  let d := with_undo d (disable u) in
  let* d := restore_state (back_state u) d in
  let u := _undo_db d in
  Ok (with_undo d (enable (set_stack (tail (stack u)) u))).

(** Session methods. *)
Definition session_commit (s : session) (d : object_database)
    : result (session * object_database) :=
  let* d := commit d in Ok (mk_session false (disable_on_exit s), d).

Definition session_undo (s : session) (d : object_database)
    : result (session * object_database) :=
  let* d := if apply_undo s then undo d else Ok d in
  Ok (mk_session false (disable_on_exit s), d).

Definition session_merge (s : session) (d : object_database)
    : result (session * object_database) :=
  let* d := if apply_undo s then merge d else Ok d in
  Ok (mk_session false (disable_on_exit s), d).

Definition session_destroy (s : session) (d : object_database)
    : result object_database :=
  let* d := if apply_undo s then undo d else Ok d in
  Ok (if disable_on_exit s then with_undo d (disable (_undo_db d)) else d).
End ObjectDb.
