(* ===== verification/UndoProofs.v ===== *)
(** * Undo correctness (libraries/db/undo_database.cpp)

    The undo database records deltas; its specification is a stack of full
    snapshots.  [delta st m0 m] says that the undo state [st] describes how the
    index table [m] differs from the earlier table [m0].  Every recorded change
    preserves it, [merge_states] composes it, and [restore_state] inverts it. *)

From S2P Require Import Prelude ObjectDb.

Section Undo.
#[local] Set Default Proof Using "Type".
Context {V : Type} (conflict : V -> V -> bool).
Abbreviation table := (gmap (Z * Z) (@index V)).
Implicit Types (m : gmap (Z * Z) (@index V)) (st p : @undo_state V) (o : object_id)
  (d : @object_database V).

Definition key_of (o : object_id) : Z * Z := (space o, type_id o).

Definition look m o : option V := m !! key_of o ≫= fun i => indices i !! o.
Definition nexts m (k : Z * Z) : option object_id := next_id <$> m !! k.

(** Well-formed tables: objects and next ids belong to their index and ids
    below the next id only are in use. *)
Definition placed m : Prop :=
  forall k i, m !! k = Some i ->
    key_of (next_id i) = k /\ forall o v, indices i !! o = Some v -> key_of o = k.
Definition fresh m : Prop :=
  forall o v n, look m o = Some v -> nexts m (key_of o) = Some n -> instance o < instance n.

Lemma look_put m k i o :
  look (<[k := i]> m) o = if decide (k = key_of o) then indices i !! o else look m o.
Proof. unfold look. rewrite lookup_insert. by destruct (decide _). Qed.

Lemma nexts_put m k i k' :
  nexts (<[k := i]> m) k' = if decide (k = k') then Some (next_id i) else nexts m k'.
Proof. unfold nexts. rewrite lookup_insert. by destruct (decide _). Qed.

Lemma look_idx m k i o : m !! k = Some i -> key_of o = k -> look m o = indices i !! o.
Proof. intros H <-. unfold look. by rewrite H. Qed.

(** Two well-placed tables with the same objects and next ids are equal. *)
Lemma table_ext m1 m2 :
  placed m1 -> placed m2 -> (forall o, look m1 o = look m2 o) ->
  (forall k, nexts m1 k = nexts m2 k) -> m1 = m2.
Proof.
  intros P1 P2 Hl Hn. apply map_eq. intros k.
  pose proof (Hn k) as Hk. unfold nexts in Hk.
  destruct (m1 !! k) as [[n1 i1]|] eqn:E1, (m2 !! k) as [[n2 i2]|] eqn:E2;
    cbn in Hk; try discriminate; [|done].
  injection Hk as ->. do 2 f_equal. apply map_eq. intros o.
  destruct (decide (key_of o = k)) as [Ho|Ho].
  - pose proof (Hl o) as H. by rewrite (look_idx _ _ _ _ E1 Ho), (look_idx _ _ _ _ E2 Ho) in H.
  - destruct (P1 _ _ E1) as [_ Q1], (P2 _ _ E2) as [_ Q2]. cbn in *.
    destruct (i1 !! o) eqn:F1; [by apply Q1 in F1|].
    destruct (i2 !! o) eqn:F2; [by apply Q2 in F2|]. done.
Qed.

Record delta st m0 m : Prop := {
  d_new o : o ∈ new_ids st -> look m0 o = None /\ is_Some (look m o);
  d_old o v : old_values st !! o = Some v -> look m0 o = Some v /\ is_Some (look m o);
  d_rem o v : removed st !! o = Some v -> look m0 o = Some v /\ look m o = None;
  d_nop o : o ∉ new_ids st -> old_values st !! o = None -> removed st !! o = None ->
    look m0 o = look m o;
  d_next_some k n : old_index_next_ids st !! k = Some n ->
    k = index_id k /\ nexts m0 (key_of k) = Some n;
  d_next_none k : k = index_id k -> old_index_next_ids st !! k = None ->
    nexts m0 (key_of k) = nexts m (key_of k);
  d_dom k : nexts m0 k = None <-> nexts m k = None;
  d_mono k n0 n : nexts m0 k = Some n0 -> nexts m k = Some n -> instance n0 <= instance n;
  d_newid o n0 : o ∈ new_ids st -> nexts m0 (key_of o) = Some n0 ->
    instance n0 <= instance o }.

Lemma delta_refl m : delta empty_undo_state m m.
Proof.
  split; cbn; intros *; rewrite ?lookup_empty; try done; try set_solver.
Qed.

(** Two values out of [Q] that may not coexist in an index. *)
Definition clash (Q : V -> Prop) : Prop := exists v w, conflict v w = true /\ Q v /\ Q w.

(** A step of a restoration: it gets where it should, or throws because of a clash. *)
Definition restored (Q : V -> Prop) (r : result (@object_database V)) (post : @object_database V -> Prop) : Prop :=
  match r with
  | Ok d => post d
  | Err e => e = assert_exception /\ clash Q
  end.

Lemma restored_bind Q r (k : @object_database V -> result (@object_database V)) post post' :
  restored Q r post -> (forall d, post d -> restored Q (k d) post') -> restored Q (rbind r k) post'.
Proof. destruct r; cbn; auto. Qed.

Lemma restored_mono Q r post post' : restored Q r post -> (forall d, post d -> post' d) -> restored Q r post'.
Proof. destruct r; cbn; auto. Qed.

Definition values_in (Q : V -> Prop) m : Prop := forall o v, look m o = Some v -> Q v.

(** Effects of the index operations on [look] and [nexts]. *)
Lemma collides_clash (Q : V -> Prop) (x : gmap object_id V) v : Q v -> (forall o w, x !! o = Some w -> Q w) ->
  collides conflict x v = false \/ collides conflict x v = true /\ clash Q.
Proof.
  intros Hv Hx. destruct (collides conflict x v) eqn:E; [right|by left]. split; [done|].
  apply existsb_exists in E as ([o w] & Hin & Hc). apply list_elem_of_In, elem_of_map_to_list in Hin.
  exists v, w. split; [done|]. split; [done|by eapply Hx].
Qed.

Lemma get_index_ok sp ty d i : get_index sp ty d = Ok i <-> _index d !! (sp, ty) = Some i.
Proof.
  clear conflict. unfold get_index. destruct (_index d !! (sp, ty)); cbn; naive_solver. Qed.

Lemma get_object_ok o d v : get_object o d = Ok v <-> look (_index d) o = Some v.
Proof.
  clear conflict.
  unfold get_object, find_object, get_index, look, key_of.
  destruct (_index d !! (space o, type_id o)) as [i|]; cbn; [|naive_solver].
  destruct (indices i !! o); cbn; naive_solver.
Qed.

(** What a change does to a table, seen through [look] and [nexts]. *)
Definition upd_look m m' (o : object_id) (v : option V) : Prop :=
  placed m' /\ (forall o', look m' o' = if decide (o = o') then v else look m o') /\
  (forall k, nexts m' k = nexts m k).

Lemma placed_put m o i x :
  placed m -> m !! key_of o = Some i ->
  (forall o' v, x !! o' = Some v -> is_Some (indices i !! o') \/ o' = o) ->
  placed (<[key_of o := mk_index (next_id i) x]> m).
Proof.
  intros P Hi Hx k j. rewrite lookup_insert. case_decide as Hk; [|by apply P].
  intros [= <-]. destruct (P _ _ Hi) as [Q1 Q2]. rewrite <- Hk. cbn. split; [done|].
  intros o' v Ho'. destruct (Hx _ _ Ho') as [[w Hw]| ->]; [|done]. by eapply Q2.
Qed.

Lemma upd_look_put m o i x v :
  placed m -> m !! key_of o = Some i ->
  (forall o', x !! o' = if decide (o = o') then v else indices i !! o') ->
  upd_look m (<[key_of o := mk_index (next_id i) x]> m) o v.
Proof.
  clear conflict.
  intros P Hi Hx. split_and!.
  - apply placed_put; [done..|]. intros o' w. rewrite Hx. case_decide; naive_solver.
  - intros o'. rewrite look_put. cbn. case_decide as Hk.
    + rewrite Hx. case_decide; [done|]. by rewrite (look_idx _ _ _ _ Hi).
    + case_decide; [congruence|done].
  - intros k. rewrite nexts_put. case_decide as Hk; [|done]. subst k.
    unfold nexts. by rewrite Hi.
Qed.

Lemma od_modify_effect o f d d' :
  placed (_index d) -> od_modify conflict o f d = Ok d' ->
  exists v, look (_index d) o = Some v /\
    upd_look (_index d) (_index d') o (Some (f v)) /\
    _undo_db d' = on_modify o v (_undo_db d).
Proof.
  intros P H. unfold od_modify in H. res_inv.
  apply get_object_ok in Hm. exists a. split; [done|]. split; [|done].
  apply get_index_ok in Hm0. cbn in Hm0. unfold index_modify in Hm1. res_inv. cbn.
  rewrite (look_idx _ _ _ _ Hm0) in Hm by done.
  apply upd_look_put; [done..|]. intros o'. rewrite lookup_insert.
  case_decide; [|done]. congruence.
Qed.

Lemma index_values (Q : V -> Prop) m k i : placed m -> values_in Q m -> m !! k = Some i ->
  forall o v, indices i !! o = Some v -> Q v.
Proof.
  intros P HQ Hi o v Ho. apply (HQ o). destruct (P _ _ Hi) as [_ Hk]. by rewrite (look_idx _ _ _ _ Hi (Hk _ _ Ho)).
Qed.

Lemma od_modify_succeeds Q o v d : placed (_index d) -> values_in Q (_index d) -> Q v ->
  is_Some (look (_index d) o) ->
  restored Q (od_modify conflict o (fun _ => v) d) (fun d' => od_modify conflict o (fun _ => v) d = Ok d').
Proof.
  intros P HQ Hw [x Hv]. unfold od_modify. rewrite (proj2 (get_object_ok _ _ _) Hv). cbn [rbind].
  unfold look in Hv. destruct (_index d !! key_of o) as [i|] eqn:Hi; [|done]. cbn in Hv.
  unfold get_index. cbn. unfold key_of in Hi. rewrite Hi. cbn [get_or rbind].
  unfold index_modify. rewrite Hv. cbn [get_or rbind].
  destruct (collides_clash Q (delete o (indices i)) v Hw) as [-> |[-> Hc]]; [|done|done].
  intros o' w [_ Ho]%lookup_delete_Some. by eapply index_values.
Qed.

Lemma od_remove_effect o d d' :
  placed (_index d) -> od_remove o d = Ok d' ->
  exists v, look (_index d) o = Some v /\ upd_look (_index d) (_index d') o None /\
    _undo_db d' = on_remove o v (_undo_db d).
Proof.
  intros P H. unfold od_remove in H. res_inv.
  apply get_object_ok in Hm. exists a. split; [done|]. split; [|done].
  apply get_index_ok in Hm0. cbn in Hm0. cbn. unfold index_remove.
  apply upd_look_put; [done..|]. intros o'. rewrite lookup_delete. done.
Qed.

Lemma od_remove_succeeds o d :
  is_Some (look (_index d) o) -> exists d', od_remove o d = Ok d'.
Proof.
  intros [v Hv]. unfold od_remove. rewrite (proj2 (get_object_ok _ _ _) Hv). cbn.
  unfold look in Hv. destruct (_index d !! key_of o) as [i|] eqn:Hi; [|done].
  unfold get_index. cbn. unfold key_of in Hi. rewrite Hi. cbn. eauto.
Qed.

Lemma od_insert_effect o v d d' :
  placed (_index d) -> od_insert conflict o v d = Ok d' ->
  upd_look (_index d) (_index d') o (Some v) /\ _undo_db d' = _undo_db d.
Proof.
  intros P H. unfold od_insert, index_insert in H. res_inv.
  apply get_index_ok in Hm. split; [|done]. cbn.
  apply upd_look_put; [done..|]. intros o'. by rewrite lookup_insert.
Qed.

Lemma od_insert_succeeds Q o v d : placed (_index d) -> values_in Q (_index d) -> Q v ->
  look (_index d) o = None -> is_Some (nexts (_index d) (key_of o)) ->
  restored Q (od_insert conflict o v d) (fun d' => od_insert conflict o v d = Ok d').
Proof.
  intros P HQ Hw Hv [n Hn]. unfold od_insert, get_index.
  unfold nexts, look, key_of in *.
  destruct (_index d !! (space o, type_id o)) as [i|] eqn:Hi; [|done]. cbn in Hv. cbn [get_or rbind].
  unfold index_insert. rewrite bool_decide_eq_true_2 by done. cbn [andb].
  destruct (collides_clash Q (indices i) v Hw) as [-> |[-> Hc]]; [|done|done].
  by eapply index_values.
Qed.

Lemma od_create_effect sp ty mk d o d' :
  placed (_index d) -> od_create conflict sp ty mk d = Ok (o, d') ->
  key_of o = (sp, ty) /\ nexts (_index d) (sp, ty) = Some o /\ look (_index d) o = None /\
  placed (_index d') /\
  (forall o', look (_index d') o' =
     if decide (o = o') then Some (mk o) else look (_index d) o') /\
  (forall k, nexts (_index d') k =
     if decide ((sp, ty) = k) then Some (oid_succ o) else nexts (_index d) k) /\
  _undo_db d' = on_create o (_undo_db d).
Proof.
  intros P H. unfold od_create, index_create, index_insert in H. res_inv.
  bool_to_prop.
  apply get_index_ok in Hm. destruct (P _ _ Hm) as [Q1 Q2].
  assert (Hno : look (_index d) (next_id a) = None)
    by (rewrite (look_idx _ _ _ _ Hm) by done; done).
  split_and!; [done|unfold nexts; by rewrite Hm|done|..|done]; cbn.
  - intros k j. rewrite lookup_insert. case_decide as Hk; [|by apply P].
    intros [= <-]. subst k. cbn. split; [done|]. intros o v. rewrite lookup_insert.
    case_decide; [subst; done|apply Q2].
  - intros o. rewrite look_put. cbn. case_decide as Hk.
    + rewrite lookup_insert. case_decide; [done|]. by rewrite (look_idx _ _ _ _ Hm).
    + case_decide; [congruence|done].
  - intros k. rewrite nexts_put. cbn. done.
Qed.

(** *** Recording preserves [delta] *)

Lemma delta_modify (u : @undo_database V) m0 m m' o v w :
  disabled u = false -> delta (back_state u) m0 m -> look m o = Some v ->
  upd_look m m' o (Some w) -> delta (back_state (on_modify o v u)) m0 m'.
Proof.
  intros En D Hv (P & Hl & Hn). unfold on_modify. rewrite En.
  set (st := back_state u) in *. clearbody st.
  assert (Hs : forall o', is_Some (look m o') -> is_Some (look m' o')).
  { intros o' Ho'. rewrite Hl. case_decide; [eauto|done]. }
  assert (Hnone : forall o', look m o' = None -> look m' o' = None).
  { intros o' Ho'. rewrite Hl. case_decide; [congruence|done]. }
  destruct D as [Dn Do Dr Dp Dk Dj Dd Dm Di].
  assert (D' : o ∈ new_ids st \/ is_Some (old_values st !! o) -> delta st m0 m').
  { intros Hin. split; intros *; rewrite ?Hn; eauto.
    - intros H. destruct (Dn _ H). eauto.
    - intros H. destruct (Do _ _ H). eauto.
    - intros H. destruct (Dr _ _ H). eauto.
    - intros H1 H2 H3. rewrite Hl. case_decide; [|eauto]. subst.
      destruct Hin as [?|[? ?]]; [done|congruence]. }
  case_decide as Hin; [cbn; auto|].
  destruct (old_values st !! o) as [x|] eqn:Ho; [cbn; eauto|].
  clear D'. cbn. split; cbn; intros *; rewrite ?Hn; eauto.
  - intros H. destruct (Dn _ H). eauto.
  - rewrite lookup_insert. case_decide as E.
    + intros [= <-]. subst. destruct (removed st !! o0) eqn:R.
      { apply Dr in R as [? ?]. congruence. }
      rewrite (Dp o0) by done. split; [done|]. apply Hs. eauto.
    + intros H. destruct (Do _ _ H). eauto.
  - intros H. destruct (Dr _ _ H). eauto.
  - intros H1 H2 H3. rewrite lookup_insert in H2. case_decide; [done|].
    rewrite Hl. case_decide; [done|eauto].
Qed.

Lemma delta_remove (u : @undo_database V) m0 m m' o v :
  disabled u = false -> delta (back_state u) m0 m -> look m o = Some v ->
  upd_look m m' o None -> delta (back_state (on_remove o v u)) m0 m'.
Proof.
  clear conflict.
  intros En D Hv (P & Hl & Hn). unfold on_remove. rewrite En.
  set (st := back_state u) in *. clearbody st.
  assert (Hne : forall o', o <> o' -> look m' o' = look m o')
    by (intros; rewrite Hl; by case_decide).
  assert (Ho : look m' o = None) by (rewrite Hl; by case_decide).
  destruct D as [Dn Do Dr Dp Dk Dj Dd Dm Di].
  case_decide as Hin; [|destruct (old_values st !! o) as [x|] eqn:Hold;
    [|destruct (removed st !! o) as [y|] eqn:Hrem; [apply Dr in Hrem as [? ?]; congruence|]]];
    cbn; split; cbn; intros *; rewrite ?Hn; eauto.
  - intros [H1 H2]%elem_of_difference. rewrite Hne by set_solver. eauto.
  - intros H. rewrite Hne; [eauto|]. intros ->. apply Do in H. apply Dn in Hin.
    naive_solver.
  - intros H. rewrite Hne; [eauto|]. intros ->. apply Dr in H. naive_solver.
  - intros H1 H2 H3. destruct (decide (o = o0)) as [->|].
    + rewrite Ho. by apply Dn.
    + rewrite Hne by done. apply Dp; set_solver.
  - intros [H1 H2]%elem_of_difference. eauto.
  - intros H. rewrite Hne; [eauto|]. congruence.
  - rewrite lookup_delete_Some. intros [? H]. rewrite Hne by done. eauto.
  - rewrite lookup_insert. case_decide as E.
    + intros [= <-]. subst. split; [by apply Do|done].
    + intros H. rewrite Hne by done. eauto.
  - rewrite lookup_insert, lookup_delete. case_decide as E; [done|].
    intros. rewrite Hne by done. eauto.
  - intros H. rewrite Hne; [eauto|]. congruence.
  - intros H. rewrite Hne; [eauto|]. congruence.
  - rewrite lookup_insert. case_decide as E.
    + intros [= <-]. subst. split; [|done]. by rewrite Dp.
    + intros H. rewrite Hne by done. eauto.
  - rewrite lookup_insert. case_decide as E; [done|].
    intros. rewrite Hne by done. eauto.
Qed.

Lemma delta_create (u : @undo_database V) m0 m m' o v :
  disabled u = false -> delta (back_state u) m0 m -> fresh m0 ->
  nexts m (key_of o) = Some o -> look m o = None ->
  (forall o', look m' o' = if decide (o = o') then Some v else look m o') ->
  (forall k, nexts m' k = if decide (key_of o = k) then Some (oid_succ o) else nexts m k) ->
  0 <= instance o -> instance o + 1 < uint64_mod ->
  delta (back_state (on_create o u)) m0 m'.
Proof.
  clear conflict.
  intros En D F Hnx Hno Hl Hn Hlo Hroom. unfold on_create. rewrite En. cbn.
  set (st := back_state u) in *. clearbody st.
  assert (Hne : forall o', o <> o' -> look m' o' = look m o')
    by (intros; rewrite Hl; by case_decide).
  assert (Hs : forall o', is_Some (look m o') -> is_Some (look m' o')).
  { intros o' Ho'. rewrite Hl. case_decide; [eauto|done]. }
  destruct D as [Dn Do Dr Dp Dk Dj Dd Dm Di].
  assert (Hm0 : look m0 o = None).
  { destruct (look m0 o) as [x|] eqn:Ex; [|done]. exfalso.
    destruct (nexts m0 (key_of o)) as [n0|] eqn:En0.
    - pose proof (F _ _ _ Ex En0). pose proof (Dm _ _ _ En0 Hnx). lia.
    - apply Dd in En0. congruence. }
  assert (Hidx : key_of (index_id o) = key_of o) by done.
  split; cbn.
  - intros o' [->%elem_of_singleton|H]%elem_of_union.
    + split; [done|]. rewrite Hl. case_decide; [eauto|done].
    + destruct (Dn _ H). eauto.
  - intros o' x H. destruct (Do _ _ H). eauto.
  - intros o' x H. destruct (Dr _ _ H). split; [done|]. rewrite Hne; [done|]. congruence.
  - intros o' H1 H2 H3. rewrite Hne by set_solver. apply Dp; set_solver.
  - intros k n. destruct (old_index_next_ids st !! index_id o) eqn:Ei; [apply Dk|].
    rewrite lookup_insert. case_decide as E; [|apply Dk]. intros [= <-]. subst k.
    split; [done|]. rewrite Dj by done. by rewrite Hidx.
  - intros k Hk Hnone. rewrite Hn. case_decide as E.
    + exfalso. assert (k = index_id o) as -> by (rewrite Hk; unfold index_id, key_of in *; congruence).
      destruct (old_index_next_ids st !! index_id o) eqn:Ei; [congruence|].
      by rewrite lookup_insert_eq in Hnone.
    + apply Dj; [done|]. destruct (old_index_next_ids st !! index_id o) eqn:Ei; [done|].
      rewrite lookup_insert_ne in Hnone; [done|]. intros <-. done.
  - intros k. rewrite Dd, Hn. case_decide; [|done]. subst k. split; congruence.
  - intros k n0 n H0. rewrite Hn. case_decide; [|by apply Dm]. intros [= <-]. subst k.
    pose proof (Dm _ _ _ H0 Hnx). cbn. rewrite wrap64_small by lia. lia.
  - intros o' n0 [->%elem_of_singleton|H]%elem_of_union H0; [|by eapply Di].
    by eapply Dm.
Qed.

(** *** Merging composes deltas *)

Lemma merge_upd_spec (l : list (object_id * V)) p :
  NoDup l.*1 ->
  let q := foldr merge_upd p l in
  new_ids q = new_ids p /\ old_index_next_ids q = old_index_next_ids p /\
  removed q = removed p /\
  forall o, old_values q !! o =
    if decide (o ∈ new_ids p) then old_values p !! o
    else match old_values p !! o with
         | Some v => Some v
         | None => (list_to_map l : gmap object_id V) !! o
         end.
Proof.
  clear conflict.
  induction l as [|[k v] l IH]; cbn [foldr fmap list_fmap fst]; intros ND.
  - split_and!; try done. intros o. cbn. case_decide; [done|].
    by destruct (old_values p !! o).
  - apply NoDup_cons in ND as [Hk ND]. destruct (IH ND) as (E1 & E2 & E3 & E4). clear IH.
    set (q := foldr merge_upd p l) in *. cbn [list_to_map foldr].
    assert (Hkl : (list_to_map l : gmap object_id V) !! k = None)
      by (by apply not_elem_of_list_to_map_1).
    unfold merge_upd. cbn [fst snd]. rewrite E1. case_decide as Hin; [|].
    + split_and!; try done. intros o. rewrite E4. case_decide; [done|].
      destruct (old_values p !! o); [done|]. rewrite lookup_insert_ne; [done|set_solver].
    + rewrite E4, decide_False, Hkl by done.
      destruct (old_values p !! k) as [x|] eqn:Ek.
      * split_and!; try done. intros o. rewrite E4. case_decide; [done|].
        destruct (old_values p !! o) eqn:Eo; [done|].
        rewrite lookup_insert_ne; [done|congruence].
      * cbn. split_and!; try done. intros o. rewrite lookup_insert, E4.
        repeat case_decide; subst; try done.
        -- by rewrite Ek, lookup_insert_eq.
        -- destruct (old_values p !! o); [done|]. by rewrite lookup_insert_ne.
Qed.

Lemma merge_next_spec (l : list (object_id * object_id)) p :
  NoDup l.*1 ->
  let q := foldr merge_next p l in
  new_ids q = new_ids p /\ old_values q = old_values p /\ removed q = removed p /\
  forall k, old_index_next_ids q !! k =
    match old_index_next_ids p !! k with
    | Some n => Some n
    | None => (list_to_map l : gmap object_id object_id) !! k
    end.
Proof.
  induction l as [|[k v] l IH]; cbn [foldr fmap list_fmap fst]; intros ND.
  - split_and!; try done. intros k. cbn. by destruct (old_index_next_ids p !! k).
  - apply NoDup_cons in ND as [Hk ND]. destruct (IH ND) as (E1 & E2 & E3 & E4). clear IH.
    set (q := foldr merge_next p l) in *. cbn [list_to_map foldr].
    assert (Hkl : (list_to_map l : gmap object_id object_id) !! k = None)
      by (by apply not_elem_of_list_to_map_1).
    unfold merge_next. cbn [fst snd]. rewrite E4, Hkl.
    destruct (old_index_next_ids p !! k) as [x|] eqn:Ek.
    + split_and!; try done. intros o. rewrite E4.
      destruct (old_index_next_ids p !! o) eqn:Eo; [done|].
      rewrite lookup_insert_ne; [done|congruence].
    + cbn. split_and!; try done. intros o. rewrite lookup_insert, E4.
      case_decide; subst; [by rewrite Ek, lookup_insert_eq|].
      destruct (old_index_next_ids p !! o); [done|]. by rewrite lookup_insert_ne.
Qed.

Lemma merge_del_spec (l : list (object_id * V)) p :
  NoDup l.*1 ->
  let q := foldr merge_del p l in
  let lm := list_to_map l : gmap object_id V in
  old_index_next_ids q = old_index_next_ids p /\
  (forall o, o ∈ new_ids q <-> o ∈ new_ids p /\ lm !! o = None) /\
  (forall o, old_values q !! o =
     if decide (o ∉ new_ids p /\ is_Some (lm !! o)) then None else old_values p !! o) /\
  (forall o, removed q !! o =
     match lm !! o with
     | Some v => if decide (o ∈ new_ids p) then removed p !! o
                 else Some (default v (old_values p !! o))
     | None => removed p !! o
     end).
Proof.
  clear conflict.
  induction l as [|[k v] l IH]; cbn [foldr fmap list_fmap fst]; intros ND.
  - cbn. split_and!; try done; intros o; rewrite ?lookup_empty.
    + naive_solver.
    + rewrite decide_False; [done|]. intros [_ [? ?]]. done.
  - apply NoDup_cons in ND as [Hk ND]. destruct (IH ND) as (E1 & E2 & E3 & E4). clear IH.
    set (q := foldr merge_del p l) in *. cbn [list_to_map foldr]. cbv zeta in *.
    set (lm := list_to_map l : gmap object_id V) in *.
    change (foldr _ ∅ l) with lm.
    assert (Hkl : lm !! k = None) by (by apply not_elem_of_list_to_map_1).
    assert (Hnk : k ∈ new_ids q <-> k ∈ new_ids p) by (rewrite E2, Hkl; naive_solver).
    assert (Hok : old_values q !! k = old_values p !! k).
    { rewrite E3, decide_False; [done|]. rewrite Hkl. intros [_ [? ?]]. done. }
    assert (Hother : forall o, k <> o -> (<[k:=v]> lm : gmap object_id V) !! o = lm !! o)
      by (intros; by apply lookup_insert_ne).
    unfold merge_del. cbn [fst snd]. case_decide as Hin; [|rewrite Hok;
      destruct (old_values p !! k) as [w|] eqn:Ek]; cbn; rewrite Hnk in Hin.
    all: split_and!; try done; intros o; (destruct (decide (k = o)) as [<-|Hne];
      [rewrite ?lookup_insert_eq, ?lookup_delete_eq, ?Hok
      |rewrite ?Hother, ?lookup_insert_ne, ?lookup_delete_ne, ?E2, ?E3, ?E4 by done]).
    all: try done; try (rewrite decide_True by eauto; done).
    all: try match goal with |- _ <-> _ => clear -Hin Hne || clear -Hin; set_solver end.
    + rewrite elem_of_difference, E2, elem_of_singleton. naive_solver.
    + by rewrite decide_False by naive_solver.
    + rewrite decide_True by done. by rewrite E4, Hkl.
    + rewrite Hnk. naive_solver.
    + by rewrite decide_False, Ek by done.
    + rewrite Hnk. naive_solver.
    + by rewrite decide_False, Ek by done.
Qed.

Lemma merge_states_spec st p :
  let q := merge_states st p in
  let oldp o := if decide (o ∈ new_ids p) then old_values p !! o
                else match old_values p !! o with
                     | Some v => Some v | None => old_values st !! o end in
  (forall o, o ∈ new_ids q <->
     (o ∈ new_ids st \/ o ∈ new_ids p) /\ removed st !! o = None) /\
  (forall o, old_values q !! o =
     if decide (~ (o ∈ new_ids st \/ o ∈ new_ids p) /\ is_Some (removed st !! o))
     then None else oldp o) /\
  (forall o, removed q !! o =
     match removed st !! o with
     | Some v => if decide (o ∈ new_ids st \/ o ∈ new_ids p) then removed p !! o
                 else Some (default v (oldp o))
     | None => removed p !! o
     end) /\
  (forall k, old_index_next_ids q !! k =
     match old_index_next_ids p !! k with
     | Some n => Some n | None => old_index_next_ids st !! k end).
Proof.
  clear conflict.
  cbv zeta. unfold merge_states.
  destruct (merge_upd_spec (map_to_list (old_values st)) p) as (A1 & A2 & A3 & A4);
    [apply NoDup_fst_map_to_list|].
  set (p1 := foldr merge_upd p (map_to_list (old_values st))) in *.
  rewrite list_to_map_to_list in A4. clearbody p1.
  destruct (merge_next_spec (map_to_list (old_index_next_ids st)) (merge_new (new_ids st) p1))
    as (B1 & B2 & B3 & B4); [apply NoDup_fst_map_to_list|].
  rewrite list_to_map_to_list in B4. cbn in B1, B2, B3, B4.
  set (p2 := foldr merge_next _ _) in *. clearbody p2.
  destruct (merge_del_spec (map_to_list (removed st)) p2) as (C1 & C2 & C3 & C4);
    [apply NoDup_fst_map_to_list|].
  rewrite list_to_map_to_list in C2, C3, C4. cbv zeta in *.
  set (q := foldr merge_del _ _) in *. clearbody q.
  assert (Hn : forall o, o ∈ new_ids p2 <-> o ∈ new_ids st \/ o ∈ new_ids p)
    by (intros o; rewrite B1, A1; apply elem_of_union).
  split_and!.
  - intros o. by rewrite C2, Hn.
  - intros o. rewrite C3, B2, A4.
    repeat case_decide; try done; naive_solver.
  - intros o. rewrite C4, B3, A3, B2, A4.
    destruct (removed st !! o); [|done]. repeat case_decide; try done; naive_solver.
  - intros k. rewrite C1, B4, A2. done.
Qed.

(** The four ways an object can stand in a delta (the rows and columns of the
    table in the comment of [undo_database::merge]). *)
Inductive stands st m0 m o : Prop :=
| stands_new v : o ∈ new_ids st -> old_values st !! o = None -> removed st !! o = None ->
    look m0 o = None -> look m o = Some v -> stands st m0 m o
| stands_upd v w : o ∉ new_ids st -> old_values st !! o = Some v -> removed st !! o = None ->
    look m0 o = Some v -> look m o = Some w -> stands st m0 m o
| stands_del v : o ∉ new_ids st -> old_values st !! o = None -> removed st !! o = Some v ->
    look m0 o = Some v -> look m o = None -> stands st m0 m o
| stands_nop : o ∉ new_ids st -> old_values st !! o = None -> removed st !! o = None ->
    look m0 o = look m o -> stands st m0 m o.

Lemma delta_stands st m0 m o : delta st m0 m -> stands st m0 m o.
Proof.
  clear conflict.
  intros [Dn Do Dr Dp _ _ _ _ _].
  destruct (decide (o ∈ new_ids st)) as [Hn|Hn].
  - destruct (Dn _ Hn) as [? [v ?]].
    destruct (old_values st !! o) eqn:E; [apply Do in E; naive_solver|].
    destruct (removed st !! o) eqn:E'; [apply Dr in E'; naive_solver|].
    by eapply stands_new.
  - destruct (old_values st !! o) eqn:E.
    + destruct (Do _ _ E) as [? [w ?]].
      destruct (removed st !! o) eqn:E'; [apply Dr in E'; naive_solver|].
      by eapply stands_upd.
    + destruct (removed st !! o) eqn:E'.
      * destruct (Dr _ _ E'). by eapply stands_del.
      * apply stands_nop; auto.
Qed.

Lemma stands_delta_objects st m0 m :
  (forall o, stands st m0 m o) ->
  (forall o, o ∈ new_ids st -> look m0 o = None /\ is_Some (look m o)) /\
  (forall o v, old_values st !! o = Some v -> look m0 o = Some v /\ is_Some (look m o)) /\
  (forall o v, removed st !! o = Some v -> look m0 o = Some v /\ look m o = None) /\
  (forall o, o ∉ new_ids st -> old_values st !! o = None -> removed st !! o = None ->
     look m0 o = look m o).
Proof. clear conflict. intros H. split_and!; intros o; destruct (H o); naive_solver. Qed.

(** Side conditions of [stands] after the lookups of a merge are rewritten. *)
Local Ltac side := first
  [ eassumption | congruence | tauto
  | match goal with H : ?a = ?b |- ?b = Some _ => rewrite <- H; eassumption end ].

Lemma merge_stands st p m0 m1 m2 o :
  (o ∈ new_ids st -> look m0 o = None) ->
  stands p m0 m1 o -> stands st m1 m2 o -> stands (merge_states st p) m0 m2 o.
Proof.
  clear conflict.
  intros F Hp Hs. destruct (merge_states_spec st p) as (Qn & Qo & Qr & _). cbv zeta in *.
  set (q := merge_states st p) in *. clearbody q.
  specialize (Qn o). specialize (Qo o). specialize (Qr o).
  destruct Hp as [v P1 P2 P3 P4 P5|v w P1 P2 P3 P4 P5|v P1 P2 P3 P4 P5|P1 P2 P3 P4];
  destruct Hs as [x S1 S2 S3 S4 S5|x y S1 S2 S3 S4 S5|x S1 S2 S3 S4 S5|S1 S2 S3 S4];
    try (exfalso; first [congruence | specialize (F S1); congruence]);
    rewrite ?S3 in Qn; rewrite ?P2, ?S2, ?S3 in Qo; rewrite ?P2, ?P3, ?S2, ?S3 in Qr;
    assert (NS : ~ is_Some (@None V)) by (intros [? ?]; done);
    try (assert (SS : is_Some (Some x)) by eauto);
    try (assert (NN : Some x <> None) by done).
  all: repeat case_decide; try solve [exfalso; tauto]; cbn in Qo, Qr.
  all: first
    [ solve [eapply stands_nop; side] | solve [eapply stands_new; side]
    | solve [eapply stands_upd; side] | solve [eapply stands_del; side] ].
Qed.

Lemma delta_merge st p m0 m1 m2 :
  fresh m0 -> delta p m0 m1 -> delta st m1 m2 -> delta (merge_states st p) m0 m2.
Proof.
  intros F Dp Ds.
  assert (Hmono : forall o n0, o ∈ new_ids st -> nexts m0 (key_of o) = Some n0 ->
            instance n0 <= instance o).
  { intros o n0 H1 H2. destruct (nexts m1 (key_of o)) as [n1|] eqn:E.
    - pose proof (d_mono _ _ _ Dp _ _ _ H2 E). pose proof (d_newid _ _ _ Ds _ _ H1 E). lia.
    - apply (d_dom _ _ _ Dp) in E. congruence. }
  assert (Hnew0 : forall o, o ∈ new_ids st -> look m0 o = None).
  { intros o H1. destruct (look m0 o) as [x|] eqn:E; [|done]. exfalso.
    destruct (nexts m0 (key_of o)) as [n0|] eqn:En.
    - pose proof (F _ _ _ E En). pose proof (Hmono _ _ H1 En). lia.
    - unfold nexts, look in *. destruct (m0 !! key_of o); done. }
  assert (Hst : forall o, stands (merge_states st p) m0 m2 o).
  { intros o. eapply merge_stands; eauto using delta_stands. }
  destruct (merge_states_spec st p) as (Qn & _ & _ & Qk). cbv zeta in *.
  destruct (stands_delta_objects _ _ _ Hst) as (? & ? & ? & ?).
  destruct Dp as [_ _ _ _ Pk Pj Pd Pm Pi], Ds as [_ _ _ _ Sk Sj Sd Sm _].
  split; try done.
  - intros k n. rewrite Qk. destruct (old_index_next_ids p !! k) eqn:E.
    + intros [= <-]. by apply Pk.
    + intros H'. destruct (Sk _ _ H') as [Hk ?]. split; [done|]. by rewrite Pj.
  - intros k Hk. rewrite Qk. destruct (old_index_next_ids p !! k) eqn:E; [done|].
    intros H'. rewrite Pj by done. by apply Sj.
  - intros k. by rewrite Pd, Sd.
  - intros k n0 n E0 E2. destruct (nexts m1 k) as [n1|] eqn:E1.
    + pose proof (Pm _ _ _ E0 E1). pose proof (Sm _ _ _ E1 E2). lia.
    + apply Pd in E1. congruence.
  - intros o n0 [[Ho|Ho] _]%Qn E0; eauto.
Qed.

(** *** Restoring inverts a delta *)

Abbreviation lm l := (list_to_map l : gmap object_id V).

(** What the objects [l] put back leave. *)
Definition put_back (l : list (object_id * V)) d d' : Prop :=
  placed (_index d') /\ _undo_db d' = _undo_db d /\
  (forall o, look (_index d') o =
     match lm l !! o with Some v => Some v | None => look (_index d) o end) /\
  (forall k, nexts (_index d') k = nexts (_index d) k).

Lemma put_back_values Q l d d' : put_back l d d' -> values_in Q (_index d) -> (forall v, v ∈ l.*2 -> Q v) ->
  values_in Q (_index d').
Proof.
  intros (_ & _ & L & _) HQ Hl o v. rewrite L. destruct (lm l !! o) as [w|] eqn:E; [|apply HQ].
  intros [= <-]. apply Hl. apply elem_of_list_to_map_2 in E. apply list_elem_of_fmap. by exists (o, w).
Qed.

Lemma values_upd (Q : V -> Prop) m m' o v : upd_look m m' o (Some v) -> values_in Q m -> Q v -> values_in Q m'.
Proof. intros (_ & L & _) HQ Hv o' w. rewrite L. case_decide; [by intros [= <-]|apply HQ]. Qed.

Lemma restore_old_ok Q (l : list (object_id * V)) : forall d,
  placed (_index d) -> disabled (_undo_db d) = true -> NoDup l.*1 ->
  (forall o, o ∈ l.*1 -> is_Some (look (_index d) o)) ->
  values_in Q (_index d) -> (forall v, v ∈ l.*2 -> Q v) ->
  restored Q (foldM (fun kv d => od_modify conflict kv.1 (fun _ => kv.2) d) l d) (put_back l d).
Proof.
  induction l as [|[k v] l IH]; intros d P Dis ND Hk HQ Hl; cbn [foldM].
  - cbn. unfold put_back. split_and!; done.
  - cbn in ND. apply NoDup_cons in ND as [Hkl ND]. cbn [fst snd].
    assert (Hv : Q v) by (apply Hl; cbn; by constructor).
    eapply restored_bind; [apply (od_modify_succeeds Q k v d P HQ Hv), Hk; cbn; by constructor|].
    intros d1 H1. destruct (od_modify_effect _ _ _ _ P H1) as (w & Hw & UL & U1). pose proof UL as (P1 & L1 & N1).
    unfold on_modify in U1. rewrite Dis in U1.
    eapply restored_mono; [apply (IH d1)|].
    + done.
    + congruence.
    + done.
    + intros o Ho. rewrite L1. case_decide; [eauto|]. apply Hk. cbn. by constructor.
    + by eapply values_upd.
    + intros x Hx. apply Hl. cbn. by constructor.
    + intros d' (P' & U' & L' & N'). split_and!; [done|congruence|..].
      * intros o. rewrite L', L1. cbn [list_to_map foldr fst snd]. rewrite lookup_insert.
        case_decide as E; [|by rewrite ?(decide_False _ _ E)]. subst o.
        by rewrite (not_elem_of_list_to_map_1 _ _ Hkl).
      * intros k'. by rewrite N', N1.
Qed.

Lemma restore_new_ok (l : list object_id) : forall d,
  placed (_index d) -> disabled (_undo_db d) = true -> NoDup l ->
  (forall o, o ∈ l -> is_Some (look (_index d) o)) ->
  exists d', foldM (fun id d => let* _ := get_object id d in od_remove id d) l d = Ok d' /\
    placed (_index d') /\ _undo_db d' = _undo_db d /\
    (forall o, look (_index d') o = if decide (o ∈ l) then None else look (_index d) o) /\
    (forall k, nexts (_index d') k = nexts (_index d) k).
Proof.
  clear conflict.
  induction l as [|k l IH]; intros d P Dis ND Hk; cbn [foldM].
  - exists d. split_and!; done.
  - apply NoDup_cons in ND as [Hkl ND].
    assert (Hs : is_Some (look (_index d) k)) by (apply Hk; by constructor).
    destruct (od_remove_succeeds k d Hs) as [d1 H1]. destruct Hs as [w0 Hs].
    rewrite (proj2 (get_object_ok _ _ _) Hs). cbn [rbind]. rewrite H1. cbn [rbind].
    destruct (od_remove_effect _ _ _ P H1) as (w & Hw & (P1 & L1 & N1) & U1).
    unfold on_remove in U1. rewrite Dis in U1.
    destruct (IH d1) as (d' & H & P' & U' & L' & N'); [done|congruence|done|..].
    { intros o Ho. rewrite L1. case_decide; [subst; done|]. apply Hk. by constructor. }
    exists d'. split_and!; [done|done|congruence|..].
    + intros o. rewrite L', L1. repeat case_decide; try done; set_solver.
    + intros k'. by rewrite N', N1.
Qed.

Lemma restore_removed_ok Q (l : list (object_id * V)) : forall d,
  placed (_index d) -> NoDup l.*1 ->
  (forall o, o ∈ l.*1 -> look (_index d) o = None /\ is_Some (nexts (_index d) (key_of o))) ->
  values_in Q (_index d) -> (forall v, v ∈ l.*2 -> Q v) ->
  restored Q (foldM (fun kv d => od_insert conflict kv.1 kv.2 d) l d) (put_back l d).
Proof.
  induction l as [|[k v] l IH]; intros d P ND Hk HQ Hl; cbn [foldM].
  - cbn. unfold put_back. split_and!; done.
  - cbn in ND. apply NoDup_cons in ND as [Hkl ND]. cbn [fst snd].
    destruct (Hk k) as [Hn Hx]; [cbn; by constructor|].
    assert (Hv : Q v) by (apply Hl; cbn; by constructor).
    eapply restored_bind; [by apply (od_insert_succeeds Q k v d)|].
    intros d1 H1. destruct (od_insert_effect _ _ _ _ P H1) as (UL & U1). pose proof UL as (P1 & L1 & N1).
    eapply restored_mono; [apply (IH d1)|].
    + done.
    + done.
    + intros o Ho. rewrite L1, N1. case_decide; [subst; done|]. apply Hk. cbn. by constructor.
    + by eapply values_upd.
    + intros x Hx'. apply Hl. cbn. by constructor.
    + intros d' (P' & U' & L' & N'). split_and!; [done|congruence|..].
      * intros o. rewrite L', L1. cbn [list_to_map foldr fst snd]. rewrite lookup_insert.
        case_decide as E; [|done]. subst o. by rewrite (not_elem_of_list_to_map_1 _ _ Hkl).
      * intros k'. by rewrite N', N1.
Qed.

Lemma restore_next_ok (l : list (object_id * object_id)) : forall d,
  placed (_index d) -> NoDup l.*1 ->
  (forall k n, (k, n) ∈ l -> k = index_id k /\ key_of n = key_of k /\
     is_Some (nexts (_index d) (key_of k))) ->
  exists d', foldM (fun kn d =>
      let* i := get_index (space kn.1) (type_id kn.1) d in
      Ok (put_index (space kn.1) (type_id kn.1) (set_next_id kn.2 i) d)) l d = Ok d' /\
    placed (_index d') /\ _undo_db d' = _undo_db d /\
    (forall o, look (_index d') o = look (_index d) o) /\
    (forall k, k = index_id k -> nexts (_index d') (key_of k) =
       match (list_to_map l : gmap object_id object_id) !! k with
       | Some n => Some n | None => nexts (_index d) (key_of k) end).
Proof.
  induction l as [|[k n] l IH]; intros d P ND Hk; cbn [foldM].
  - exists d. split_and!; done.
  - cbn in ND. apply NoDup_cons in ND as [Hkl ND].
    destruct (Hk k n) as (Hk1 & Hk2 & [x Hx]); [by constructor|].
    unfold nexts in Hx. destruct (_index d !! key_of k) as [i|] eqn:Hi; [|done].
    cbn [fst snd]. rewrite (proj2 (get_index_ok _ _ _ _) Hi). cbn [rbind].
    set (d1 := put_index _ _ _ d).
    assert (L1 : forall o, look (_index d1) o = look (_index d) o).
    { intros o. cbn. rewrite look_put. case_decide as E; [|done].
      cbn. by rewrite (look_idx _ _ _ _ Hi). }
    assert (N1 : forall k', nexts (_index d1) k' =
              if decide (key_of k = k') then Some n else nexts (_index d) k').
    { intros k'. cbn. by rewrite nexts_put. }
    destruct (IH d1) as (d' & H & P' & U' & L' & N'); [|done|..].
    { intros k' j. cbn. rewrite lookup_insert. case_decide as E; [|apply P].
      intros [= <-]. subst k'. cbn. split; [done|]. by apply P. }
    { intros k' n' Hin. destruct (Hk k' n') as (? & ? & ?); [by constructor|].
      split_and!; [done..|]. rewrite N1. case_decide; eauto. }
    exists d'. split_and!; [done|done|by rewrite U'|intros o; by rewrite L', L1|].
    intros k' Hk'. rewrite N', N1 by done. cbn [list_to_map foldr fst snd].
    rewrite lookup_insert. destruct (decide (k = k')) as [<-|Hne].
    + rewrite (not_elem_of_list_to_map_1 _ _ Hkl). by rewrite decide_True.
    + rewrite (decide_False (P := key_of k = key_of k')); [done|].
      intros E. apply Hne. rewrite Hk1, Hk'. unfold index_id. unfold key_of in E. congruence.
Qed.

(** The values a restoration works with: those of the tables now and those saved. *)
Definition known_value st m (v : V) : Prop :=
  exists o, look m o = Some v \/ old_values st !! o = Some v \/ removed st !! o = Some v.

Lemma restore_state_ok st m0 d :
  placed m0 -> placed (_index d) -> disabled (_undo_db d) = true ->
  delta st m0 (_index d) ->
  restored (known_value st (_index d)) (restore_state conflict st d)
    (fun d' => _index d' = m0 /\ _undo_db d' = _undo_db d).
Proof.
  intros P0 P Dis D. unfold restore_state. set (Q := known_value st (_index d)).
  pose proof D as [Dn Do Dr Dp Dk Dj Dd Dm Di].
  assert (HQ : values_in Q (_index d)) by (intros o v Ho; exists o; auto).
  assert (HQo : forall v, v ∈ (map_to_list (old_values st)).*2 -> Q v).
  { intros v ([o w] & -> & Hin)%list_elem_of_fmap. apply elem_of_map_to_list in Hin. exists o. auto. }
  eapply restored_bind; [apply (restore_old_ok Q); [done|done|apply NoDup_fst_map_to_list| |done|done]|].
  { intros o Ho. apply list_elem_of_fmap in Ho as ([k v] & -> & Hin).
    apply elem_of_map_to_list, Do in Hin. by apply Hin. }
  intros d1 B1. pose proof (put_back_values Q _ _ _ B1 HQ HQo) as HQ1.
  destruct B1 as (P1 & U1 & L1 & N1). rewrite list_to_map_to_list in L1.
  destruct (restore_new_ok (elements (new_ids st)) d1) as (d2 & -> & P2 & U2 & L2 & N2);
    [done|congruence|apply NoDup_elements|..].
  { intros o Ho. apply elem_of_elements in Ho. destruct (Dn _ Ho) as [_ H].
    rewrite L1. destruct (old_values st !! o); eauto. }
  cbn [rbind].
  destruct (restore_next_ok (map_to_list (old_index_next_ids st)) d2)
    as (d3 & -> & P3 & U3 & L3 & N3); [done|apply NoDup_fst_map_to_list|..].
  { intros k n Hin. apply elem_of_map_to_list, Dk in Hin as [Hk Hn].
    split_and!; [done| |].
    - unfold nexts in Hn. destruct (m0 !! key_of k) eqn:E; [|done].
      apply P0 in E as [E _]. cbn in Hn. congruence.
    - rewrite N2, N1. destruct (nexts (_index d) (key_of k)) eqn:E; [eauto|].
      apply Dd in E. congruence. }
  rewrite list_to_map_to_list in N3. cbn [rbind].
  assert (N3' : forall k, nexts (_index d3) k = nexts m0 k).
  { intros [sp ty]. change (sp, ty) with (key_of (mk_oid sp ty 0)). rewrite N3 by done.
    destruct (old_index_next_ids st !! mk_oid sp ty 0) eqn:E.
    - apply Dk in E. symmetry. apply E.
    - rewrite N2, N1. symmetry. by apply Dj. }
  assert (HQ3 : values_in Q (_index d3)).
  { intros o v. rewrite L3, L2. case_decide; [done|]. apply HQ1. }
  eapply restored_mono; [apply (restore_removed_ok Q); [done|apply NoDup_fst_map_to_list| |done|]|].
  { intros o Ho. apply list_elem_of_fmap in Ho as ([k v] & -> & Hin).
    apply elem_of_map_to_list in Hin. cbn. destruct (Dr _ _ Hin) as [H1 H2]. split.
    - rewrite L3, L2. case_decide; [done|]. rewrite L1.
      destruct (old_values st !! k) eqn:E; [|done]. apply Do in E as [_ [? ?]]. congruence.
    - rewrite N3'. unfold nexts, look in *. destruct (m0 !! key_of k); [eauto|done]. }
  { intros v ([o w] & -> & Hin)%list_elem_of_fmap. apply elem_of_map_to_list in Hin. exists o. auto. }
  intros d4 (P4 & U4 & L4 & N4). rewrite list_to_map_to_list in L4. split; [|congruence].
  apply table_ext; [done..| |].
  - intros o. rewrite L4, L3, L2, L1.
    destruct (delta_stands _ _ _ o D) as [v S1 S2 S3 S4 S5|v w S1 S2 S3 S4 S5
                                         |v S1 S2 S3 S4 S5|S1 S2 S3 S4]; rewrite S3.
    + by rewrite decide_True by (by apply elem_of_elements).
    + by rewrite decide_False, S2 by (by rewrite elem_of_elements).
    + done.
    + by rewrite decide_False, S2 by (by rewrite elem_of_elements).
  - intros k. by rewrite N4, N3'.
Qed.
End Undo.
