(* ===== verification/UndoSpec.v ===== *)
(** * The undo database refines a stack of snapshots

    Abstract specification of [undo_database]: the current table plus the list
    of tables saved when sessions were opened.  The theorem is a lock-step
    simulation of every operation of the object database and of the undo
    database, errors included, for indexes with any unique keys: the two part only
    where putting objects back runs into a unique key. *)

From S2P Require Import Prelude ObjectDb UndoProofs.

Section Spec.
#[local] Set Default Proof Using "Type".
Context {V : Type} (conflict : V -> V -> bool).

Abbreviation table := (gmap (Z * Z) (@index V)).

(** Commands: the object operations and the session operations. *)
Inductive db_op :=
| op_create (sp ty : Z) (mk : object_id -> V)
| op_modify (id : object_id) (f : V -> V)
| op_remove (id : object_id).

Inductive cmd :=
| c_op (op : db_op)
| c_start
| c_undo
| c_merge
| c_commit
| c_pop_commit.

Definition run_op (op : db_op) (d : @object_database V) : result (@object_database V) :=
  match op with
  | op_create sp ty mk => let* r := od_create conflict sp ty mk d in Ok r.2
  | op_modify id f => od_modify conflict id f d
  | op_remove id => od_remove id d
  end.

Definition exec (c : cmd) (d : @object_database V) : result (@object_database V) :=
  match c with
  | c_op op => run_op op d
  | c_start => Ok (start_undo_session false d).2
  | c_undo => undo conflict d
  | c_merge => merge d
  | c_commit => commit d
  | c_pop_commit => pop_commit conflict d
  end.

Fixpoint exec_all (cs : list cmd) (d : @object_database V) : result (@object_database V) :=
  match cs with
  | [] => Ok d
  | c :: cs' => let* d' := exec c d in exec_all cs' d'
  end.

(** The specification. *)
Record snapshots := mk_snap {
  cur : table; saved : list table; sessions : Z; history : Z }.

(** An object operation on a bare table. *)
Definition table_op (op : db_op) (m : table) : result table :=
  let* d := run_op op (mk_odb m (mk_undo_db 0 true [] 0)) in Ok (_index d).

Definition spec (c : cmd) (s : snapshots) : result snapshots :=
  match c with
  | c_op op =>
      let* m := table_op op (cur s) in
      Ok (mk_snap m (match saved s with [] => [cur s] | l => l end) (sessions s) (history s))
  | c_start =>
      let kept := if Z.of_nat (length (saved s)) >? history s
                  then take (Z.to_nat (history s)) (saved s) else saved s in
      Ok (mk_snap (cur s) (cur s :: kept) (wrap32 (sessions s + 1)) (history s))
  | c_undo =>
      check sessions s >? 0;
      let* m := get_or (head (saved s)) undefined_behaviour in
      Ok (mk_snap m (tail (saved s)) (sessions s - 1) (history s))
  | c_merge =>
      check sessions s >? 0;
      if (sessions s =? 1) && (Z.of_nat (length (saved s)) =? 1)
      then Ok (mk_snap (cur s) [] (sessions s - 1) (history s))
      else check 2 <=? Z.of_nat (length (saved s));
           Ok (mk_snap (cur s) (tail (saved s)) (sessions s - 1) (history s))
  | c_commit =>
      check sessions s >? 0;
      Ok (mk_snap (cur s) (saved s) (sessions s - 1) (history s))
  | c_pop_commit =>
      check sessions s =? 0;
      check negb (bool_decide (length (saved s) = 0%nat));
      Ok (mk_snap (hd (cur s) (saved s)) (tail (saved s)) (sessions s) (history s))
  end.

Fixpoint spec_all (cs : list cmd) (s : snapshots) : result snapshots :=
  match cs with
  | [] => Ok s
  | c :: cs' => let* s' := spec c s in spec_all cs' s'
  end.

(** ** The simulation relation *)

(** No id counter can wrap within the next [n] operations. *)
Definition room (n : Z) (m : table) : Prop :=
  forall k x, nexts m k = Some x -> 0 <= instance x /\ instance x + n < uint64_mod.

Definition good (n : Z) (m : table) : Prop := placed m /\ fresh m /\ room n m.

Fixpoint chain (stk : list (@undo_state V)) (hist : list table) (m : table) : Prop :=
  match stk, hist with
  | [], [] => True
  | st :: stk', m0 :: hist' => delta st m0 m /\ chain stk' hist' m0
  | _, _ => False
  end.

Definition sim (n : Z) (d : @object_database V) (s : snapshots) : Prop :=
  _index d = cur s /\ disabled (_undo_db d) = false /\
  active_sessions (_undo_db d) = sessions s /\ max_size (_undo_db d) = history s /\
  Forall (good n) (cur s :: saved s) /\ chain (stack (_undo_db d)) (saved s) (cur s).

Lemma chain_length stk hist m : chain stk hist m -> length stk = length hist.
Proof.
  revert hist m. induction stk as [|st stk IH]; intros [|m0 hist] m; cbn; try done.
  intros [_ H]. f_equal. eauto.
Qed.

Lemma chain_take i stk hist m : chain stk hist m -> chain (take i stk) (take i hist) m.
Proof.
  revert stk hist m. induction i as [|i IH]; intros [|st stk] [|m0 hist] m; cbn; try done.
  intros [? ?]. eauto.
Qed.

Lemma good_mono n n' m : n' <= n -> good n m -> good n' m.
Proof.
  intros Hn (P & F & R). split_and!; [done..|]. intros k x Hx.
  destruct (R _ _ Hx). lia.
Qed.

Lemma good_modify n m m' o v w :
  good n m -> look m o = Some w -> upd_look m m' o v -> good n m'.
Proof.
  intros (P & F & R) Hw (P' & L & N). split_and!; [done| |].
  - intros o' x y. rewrite L, N. case_decide as E; [|apply F].
    subst o'. intros _ Hy. by eapply F.
  - intros k x. rewrite N. apply R.
Qed.

Lemma good_create n m m' o v :
  0 <= n -> good (n + 1) m -> nexts m (key_of o) = Some o -> placed m' ->
  (forall o', look m' o' = if decide (o = o') then Some v else look m o') ->
  (forall k, nexts m' k = if decide (key_of o = k) then Some (oid_succ o) else nexts m k) ->
  good n m'.
Proof.
  intros Hn (P & F & R) Ho P' L N. destruct (R _ _ Ho) as [R1 R2].
  split_and!; [done| |].
  - intros o' x y. rewrite L, N. repeat case_decide; subst.
    + intros _ [= <-]. cbn. rewrite wrap64_small by lia. lia.
    + done.
    + intros Hx [= <-]. cbn. rewrite wrap64_small by lia.
      assert (Ho' : nexts m (key_of o') = Some o) by congruence.
      pose proof (F _ _ _ Hx Ho'). lia.
    + apply F.
  - intros k x. rewrite N. case_decide as E.
    + intros [= <-]. cbn. rewrite wrap64_small by lia. lia.
    + intros Hx. destruct (R _ _ Hx). lia.
Qed.

Lemma run_op_table op d :
  table_op op (_index d) =
    match run_op op d with Ok d' => Ok (_index d') | Err e => Err e end.
Proof.
  destruct d as [m u]. unfold table_op.
  destruct op as [sp ty mk|id f|id]; cbn [run_op];
    unfold od_create, od_modify, od_remove, get_object, find_object, get_index; cbn.
  - destruct (m !! (sp, ty)); cbn; [|done]. by destruct (index_create conflict mk i) as [[]|].
  - destruct (m !! (space id, type_id id)); cbn; [|done].
    destruct (indices i !! id); cbn; [|done]. by destruct (index_modify conflict id f i).
  - destruct (m !! (space id, type_id id)); cbn; [|done]. by destruct (indices i !! id).
Qed.

(** The undo record of the current state after an enabled operation. *)
Lemma stack_set_back (u : @undo_database V) st :
  stack (set_back st u) = st :: tail (stack u).
Proof. done. Qed.

Lemma on_change_shape (u u' : @undo_database V) :
  disabled u = false ->
  (exists o v, u' = on_create o u \/ u' = on_modify o v u \/ u' = on_remove o v u) ->
  disabled u' = false /\ active_sessions u' = active_sessions u /\
  max_size u' = max_size u /\ stack u' = back_state u' :: tail (stack u).
Proof.
  intros En (o & v & [-> |[-> | ->]]); unfold on_create, on_modify, on_remove; rewrite En;
    repeat (case_decide || case_match); done.
Qed.

(** One object operation, recorded in the undo state. *)
Lemma run_op_delta n op d d' m0 :
  0 <= n -> run_op op d = Ok d' -> disabled (_undo_db d) = false ->
  good (n + 1) (_index d) -> fresh m0 -> delta (back_state (_undo_db d)) m0 (_index d) ->
  good n (_index d') /\ delta (back_state (_undo_db d')) m0 (_index d') /\
  exists o v, _undo_db d' = on_create o (_undo_db d) \/
    _undo_db d' = on_modify o v (_undo_db d) \/ _undo_db d' = on_remove o v (_undo_db d).
Proof.
  intros Hn H En G F0 D. pose proof G as (P & F & R).
  destruct op as [sp ty mk|id f|id]; cbn [run_op] in H.
  - res_inv. destruct a as [o d1]. cbn.
    destruct (od_create_effect _ _ _ _ _ _ _ P Hm) as (K & N & L0 & P' & L & N' & U).
    rewrite <- K in N, N'. destruct (R _ _ N).
    split_and!.
    + by eapply good_create.
    + rewrite U. by eapply delta_create; try done; try lia.
    + rewrite U. exists o, (mk o). auto.
  - destruct (od_modify_effect _ _ _ _ _ P H) as (v & Hv & Hu & U).
    split_and!.
    + eapply good_modify; [|done..]. apply (good_mono (n + 1)); [lia|done].
    + rewrite U. by eapply delta_modify.
    + rewrite U. eauto 10.
  - destruct (od_remove_effect _ _ _ P H) as (v & Hv & Hu & U).
    split_and!.
    + eapply good_modify; [|done..]. apply (good_mono (n + 1)); [lia|done].
    + rewrite U. by eapply delta_remove.
    + rewrite U. eauto 10.
Qed.

Lemma sim_op n op d s :
  0 <= n -> sim (n + 1) d s ->
  match run_op op d, spec (c_op op) s with
  | Ok d', Ok s' => sim n d' s'
  | Err e, Err e' => e = e'
  | _, _ => False
  end.
Proof.
  intros Hn (Hi & En & Ha & Hh & Hg & Hc). cbn [spec].
  rewrite <- Hi, run_op_table. destruct (run_op op d) as [d'|e] eqn:Hop; cbn; [|done].
  rewrite <- Hi in Hg, Hc.
  apply Forall_cons in Hg as [G Gs].
  destruct (saved s) as [|m0 hist] eqn:Es; destruct (stack (_undo_db d)) as [|st stk] eqn:Est;
    cbn in Hc; try done.
  - destruct (run_op_delta n op d d' (_index d) Hn Hop En G) as (G' & D' & Hu).
    { apply G. }
    { unfold back_state. rewrite Est. apply delta_refl. }
    destruct (on_change_shape _ _ En Hu) as (S1 & S2 & S3 & S4).
    split_and!; cbn; [done|done|congruence|congruence| |rewrite S4, Est; done].
    apply Forall_cons. split; [done|]. apply Forall_singleton.
    apply (good_mono (n + 1)); [lia|done].
  - destruct Hc as [D Hc].
    apply Forall_cons in Gs as [G0 Gs].
    destruct (run_op_delta n op d d' m0 Hn Hop En G) as (G' & D' & Hu).
    { apply G0. }
    { unfold back_state. by rewrite Est. }
    destruct (on_change_shape _ _ En Hu) as (S1 & S2 & S3 & S4).
    split_and!; cbn; [done|done|congruence|congruence| |rewrite S4, Est; done].
    constructor; [done|]. constructor; [apply (good_mono (n + 1)); [lia|done]|].
    eapply Forall_impl; [done|]. intros ? ?. apply (good_mono (n + 1)); [lia|done].
Qed.

Lemma Forall_good_mono n l : Forall (good (n + 1)) l -> Forall (good n) l.
Proof. intros H. eapply Forall_impl; [done|]. intros ? ?. apply (good_mono (n + 1)); [lia|done]. Qed.

(** An object that is to be put back and another one, there now or also to be put back,
    may not coexist. *)
Definition undo_clash (d : @object_database V) : Prop :=
  clash conflict (known_value (back_state (_undo_db d)) (_index d)).

(** Undoing the most recent saved state. *)
Lemma restore_sim n d s : sim n d s ->
  restored conflict (known_value (back_state (_undo_db d)) (_index d))
    (restore_state conflict (back_state (_undo_db d)) (with_undo d (disable (_undo_db d))))
    (fun d' => _index d' = hd (cur s) (saved s) /\ _undo_db d' = disable (_undo_db d)).
Proof.
  intros (Hi & En & Ha & Hh & Hg & Hc). apply Forall_cons in Hg as [G Gs].
  change (_index d) with (_index (with_undo d (disable (_undo_db d)))).
  destruct (saved s) as [|m0 hist] eqn:Es; destruct (stack (_undo_db d)) as [|st stk] eqn:Est;
    cbn in Hc; try done; cbn [hd].
  - unfold back_state. rewrite Est.
    apply restore_state_ok; cbn; rewrite ?Hi; try done; try apply G. apply delta_refl.
  - destruct Hc as [D Hc]. apply Forall_cons in Gs as [G0 Gs].
    unfold back_state. rewrite Est.
    apply restore_state_ok; cbn; rewrite ?Hi; try done; [apply G0|apply G].
Qed.

Lemma sim_undo_like n d s d' u' k :
  sim (n + 1) d s -> _index d' = hd (cur s) (saved s) -> _undo_db d' = disable (_undo_db d) ->
  u' = set_active k (enable (set_stack (tail (stack (_undo_db d'))) (_undo_db d'))) ->
  sim n (with_undo d' u') (mk_snap (hd (cur s) (saved s)) (tail (saved s)) k (history s)).
Proof.
  intros (Hi & En & Ha & Hh & Hg & Hc) H1 H2 ->. rewrite H2. split_and!; cbn; try done.
  - apply Forall_good_mono. apply Forall_cons in Hg as [G Gs].
    destruct (saved s); cbn; [by apply Forall_singleton|done].
  - destruct (saved s), (stack (_undo_db d)); cbn in *; try done. apply Hc.
Qed.

(** Where the two may part: the saved objects can not be put back. *)
Definition undo_refused (c : cmd) (d : @object_database V) (e : exn) : Prop :=
  e = assert_exception /\ (c = c_undo \/ c = c_pop_commit) /\ undo_clash d.

Definition step_agrees (n : Z) (c : cmd) (d : @object_database V) (s : snapshots) : Prop :=
  match exec c d, spec c s with
  | Ok d', Ok s' => sim n d' s'
  | Err e, Err e' => e = e' \/ undo_refused c d e
  | Err e, Ok _ => undo_refused c d e
  | Ok _, Err _ => False
  end.

Lemma sim_step n c d s : 0 <= n -> sim (n + 1) d s -> step_agrees n c d s.
Proof.
  unfold step_agrees.
  intros Hn S. pose proof S as (Hi & En & Ha & Hh & Hg & Hc).
  pose proof (chain_length _ _ _ Hc) as Hlen.
  destruct c as [op| | | | |].
  { pose proof (sim_op n op d s Hn S) as H. cbn [exec]. destruct (run_op op d), (spec (c_op op) s); try done. by left. }
  all: cbn [exec spec].
  - unfold start_undo_session. rewrite En. cbn. split_and!; cbn; try done; [congruence|..].
    + apply Forall_good_mono. apply Forall_cons in Hg as [G Gs].
      constructor; [done|]. constructor; [done|].
      case_if; [by apply Forall_take|done].
    + split; [apply delta_refl|]. unfold drop_oldest. rewrite Hlen, Hh.
      case_if; [by apply chain_take|done].
  - unfold undo. rewrite En, Ha. cbn [negb fc_assert rbind].
    destruct (sessions s >? 0); cbn [fc_assert rbind]; [|by left].
    pose proof (restore_sim _ _ _ S) as Hres.
    assert (Hst : get_or (head (stack (_undo_db d))) undefined_behaviour
      = (let* _ := get_or (head (saved s)) undefined_behaviour in Ok (back_state (_undo_db d)))).
    { unfold back_state. by destruct (saved s), (stack (_undo_db d)). }
    rewrite Hst. destruct (saved s) as [|m0 hist] eqn:Es; cbn [head get_or rbind]; [by left|].
    destruct (restore_state _ _ _) as [d'|e]; cbn [rbind restored] in Hres |- *.
    + destruct Hres as [H1 H2]. replace m0 with (hd (cur s) (saved s)) by (by rewrite Es).
      change hist with (tail (m0 :: hist)). rewrite <- Es in H1 |- *.
      eapply sim_undo_like; [done..|]. rewrite H2. cbn. by rewrite Ha.
    + destruct Hres as [-> Hc']. split; [done|]. by split; [left|].
  - unfold merge. rewrite Ha. destruct (sessions s >? 0); cbn [fc_assert rbind]; [|by left].
    rewrite Hlen. destruct (saved s) as [|h1 [|h2 hist]] eqn:Es;
      destruct (stack (_undo_db d)) as [|st [|p stk]] eqn:Est; cbn in Hc, Hlen; try done.
    + by destruct (sessions s =? 1); left.
    + destruct (sessions s =? 1); cbn; [|by left].
      split_and!; cbn; try done. apply Forall_good_mono. apply Forall_cons in Hg as [? _].
      by apply Forall_singleton.
    + assert (Z.of_nat (length (h1 :: h2 :: hist)) =? 1 = false) as ->
        by (apply Z.eqb_neq; cbn; lia).
      rewrite andb_false_r.
      assert (2 <=? Z.of_nat (length (h1 :: h2 :: hist)) = true) as ->
        by (apply Z.leb_le; cbn; lia).
      cbn. destruct Hc as (D1 & D2 & Hc).
      apply Forall_cons in Hg as [G Gs]. apply Forall_cons in Gs as [G1 Gs].
      split_and!; cbn; try done.
      * apply Forall_good_mono. by constructor.
      * apply Forall_cons in Gs as [G2 _].
        split; [|done]. eapply delta_merge; [|done..]. apply G2.
  - unfold commit. rewrite Ha. destruct (sessions s >? 0); cbn; [|by left].
    split_and!; cbn; try done. by apply Forall_good_mono.
  - unfold pop_commit. rewrite Ha. destruct (sessions s =? 0); cbn [fc_assert rbind]; [|by left].
    assert (bool_decide (stack (_undo_db d) = []) = bool_decide (length (saved s) = 0%nat)) as ->.
    { apply bool_decide_ext. rewrite <- Hlen. by destruct (stack (_undo_db d)). }
    destruct (negb _); cbn [fc_assert rbind]; [|by left].
    pose proof (restore_sim _ _ _ S) as Hres.
    destruct (restore_state _ _ _) as [d'|e]; cbn [rbind restored] in Hres |- *.
    + destruct Hres as [H1 H2]. eapply sim_undo_like; [done..|]. rewrite H2, <- Ha. done.
    + destruct Hres as [-> Hc']. split; [done|]. by split; [right|].
Qed.
End Spec.

Section Run.
Context {V : Type} (conflict : V -> V -> bool).

(** The commands [cs] stop at an undo that a unique key refuses. *)
Definition refused_at (cs : list (@cmd V)) (d : @object_database V) (e : exn) : Prop :=
  exists cs1 c cs2 d1, cs = cs1 ++ c :: cs2 /\ exec_all conflict cs1 d = Ok d1 /\ undo_refused conflict c d1 e.

Lemma sim_run (cs : list (@cmd V)) k : 0 <= k -> forall d s,
  sim (Z.of_nat (length cs) + k) d s ->
  match exec_all conflict cs d with
  | Ok d' => exists s', spec_all conflict cs s = Ok s' /\ sim k d' s'
  | Err e => spec_all conflict cs s = Err e \/ refused_at cs d e
  end.
Proof.
  intros Hk. induction cs as [|c cs IH]; intros d s S; cbn [exec_all spec_all]; [by exists s|].
  pose proof (sim_step conflict (Z.of_nat (length cs) + k) c d s) as H. unfold step_agrees in H.
  cbn [length] in S. rewrite Nat2Z.inj_succ in S.
  replace (Z.succ (Z.of_nat (length cs)) + k) with (Z.of_nat (length cs) + k + 1) in S by lia.
  specialize (H ltac:(lia) S).
  destruct (exec conflict c d) as [d1|e] eqn:Ee, (spec conflict c s) as [s1|e1]; cbn [rbind]; try done.
  - specialize (IH _ _ H). destruct (exec_all conflict cs d1) as [d'|e]; [exact IH|].
    destruct IH as [IH|(cs1 & c1 & cs2 & d2 & -> & H2 & H3)]; [by left|right].
    exists (c :: cs1), c1, cs2, d2. split; [done|]. split; [|done]. cbn [exec_all]. by rewrite Ee.
  - right. exists [], c, cs, d. by split_and!.
  - destruct H as [-> |H]; [by left|right]. exists [], c, cs, d. by split_and!.
Qed.

Lemma sim_start (n : Z) (d : @object_database V) :
  disabled (_undo_db d) = false -> stack (_undo_db d) = [] -> good n (_index d) ->
  sim n d (mk_snap (_index d) [] (active_sessions (_undo_db d)) (max_size (_undo_db d))).
Proof. intros H1 H2 H3. split_and!; cbn; try done; [by apply Forall_singleton|by rewrite H2]. Qed.

Lemma spec_ops_saved (ops : list (@db_op V)) : forall s s' m l,
  saved s = m :: l -> spec_all conflict (map c_op ops) s = Ok s' ->
  saved s' = m :: l /\ sessions s' = sessions s.
Proof.
  induction ops as [|op ops IH]; intros s s' m l Hs H; cbn in H; [by res_inv|].
  res_inv. rewrite Hs in H. by apply (IH _ _ m l) in H.
Qed.
End Run.

(** Object databases used by the examples: one index [1.2.*] holding two
    integers, undo enabled. *)
Definition demo_db : @object_database Z :=
  mk_odb {[ (1, 2) := mk_index (mk_oid 1 2 2)
                        (<[mk_oid 1 2 0 := 7]> (<[mk_oid 1 2 1 := 8]> ∅)) ]}
         (mk_undo_db 0 false [] 256).

Lemma demo_good : good 100 (_index demo_db).
Proof.
  assert (Hl : forall o v, look (_index demo_db) o = Some v ->
            o = mk_oid 1 2 0 \/ o = mk_oid 1 2 1).
  { intros o v. unfold look, demo_db. cbn [_index].
    rewrite lookup_singleton. case_decide as E; [|done]. cbn.
    rewrite lookup_insert. case_decide; [eauto|].
    rewrite lookup_insert. case_decide; [eauto|done]. }
  assert (Hn : forall k n, nexts (_index demo_db) k = Some n -> k = (1, 2) /\ n = mk_oid 1 2 2).
  { intros k n. unfold nexts, demo_db. cbn [_index]. rewrite lookup_singleton.
    case_decide; [|done]. cbn. intros [= <-]. done. }
  split_and!.
  - intros k i. unfold demo_db. cbn [_index]. rewrite lookup_singleton.
    case_decide as E; [|done]. intros [= <-]. subst k. cbn. split; [done|].
    intros o v. rewrite !lookup_insert. repeat case_decide; subst; try done.
  - intros o v n Ho Hx. apply Hn in Hx as [_ ->]. apply Hl in Ho as [-> | ->]; cbn; lia.
  - intros k x Hx. apply Hn in Hx as [_ ->]. cbn. lia.
Qed.

(** C5: the undo database implements a stack of snapshots, whatever the unique keys of
    the indexes.  For every sequence of object and session commands from an enabled
    database with an empty history in which no id counter can reach 2^64: when the
    delta-based implementation gets through, the snapshot specification does too, and
    they hold the same objects and the same next ids; when it throws, the specification
    stops with the same exception, or the command that threw is an undo (or a pop of a
    committed state) for which a saved object and another one share a unique key. *)
Theorem undo_refines_snapshots {V} (conflict : V -> V -> bool)
    (cs : list (@cmd V)) (d : @object_database V)
    (Hen : disabled (_undo_db d) = false) (Hst : stack (_undo_db d) = [])
    (Hgood : good (Z.of_nat (length cs)) (_index d)) :
  let s := mk_snap (_index d) [] (active_sessions (_undo_db d)) (max_size (_undo_db d)) in
  match exec_all conflict cs d with
  | Ok d' => exists s', spec_all conflict cs s = Ok s'
      /\ _index d' = cur s' /\ length (stack (_undo_db d')) = length (saved s')
  | Err e => spec_all conflict cs s = Err e \/ refused_at conflict cs d e
  end.
Proof.
  intros s. rewrite <- (Z.add_0_r (Z.of_nat (length cs))) in Hgood.
  pose proof (sim_run conflict cs 0 (Z.le_refl 0) d _ (sim_start _ d Hen Hst Hgood)) as H.
  destruct (exec_all conflict cs d); [|done]. destruct H as (s' & Hs & (? & _ & _ & _ & _ & Hc)).
  exists s'. split; [done|]. split; [done|]. by eapply chain_length.
Qed.

Definition demo_cmds : list (@cmd Z) :=
  [c_start; c_op (op_modify (mk_oid 1 2 0) (fun _ => 9)); c_start;
   c_op (op_create 1 2 (fun _ => 5)); c_merge; c_undo].

Lemma undo_refines_snapshots_witness :
  match exec_all Z.eqb demo_cmds demo_db with
  | Ok d' => exists s', spec_all Z.eqb demo_cmds (mk_snap (_index demo_db) [] 0 256) = Ok s'
      /\ _index d' = cur s' /\ length (stack (_undo_db d')) = length (saved s')
  | Err _ => False
  end.
Proof.
  pose proof (undo_refines_snapshots Z.eqb demo_cmds demo_db eq_refl eq_refl
    ltac:(eapply good_mono; [|exact demo_good]; cbn; lia)) as H.
  assert (E : is_ok (exec_all Z.eqb demo_cmds demo_db) = true) by (vm_compute; reflexivity).
  destruct (exec_all Z.eqb demo_cmds demo_db); [exact H|discriminate E].
Defined.

(** A session that is undone leaves no trace.  If the object operations
    made inside a session succeed, the undo that closes it brings back exactly the objects
    and next ids the database held before, unless a unique key is in the way. *)
Theorem session_rollback {V} (conflict : V -> V -> bool)
    (ops : list (@db_op V)) (d d1 : @object_database V)
    (Hen : disabled (_undo_db d) = false) (Hst : stack (_undo_db d) = [])
    (Hact : 0 <= active_sessions (_undo_db d) < 1000) (Hmax : 0 <= max_size (_undo_db d))
    (Hgood : good (Z.of_nat (length ops) + 2) (_index d))
    (Hrun : exec_all conflict (c_start :: map c_op ops) d = Ok d1) :
  match undo conflict d1 with
  | Ok d2 => _index d2 = _index d
  | Err e => undo_refused conflict c_undo d1 e
  end.
Proof.
  set (s0 := mk_snap (_index d) [] (active_sessions (_undo_db d)) (max_size (_undo_db d))).
  pose proof (sim_run conflict (c_start :: map c_op ops) 1 ltac:(lia) d s0) as H.
  rewrite Hrun in H. destruct H as (s2 & E2 & S2).
  { apply sim_start; [done|done|]. eapply good_mono; [|done]. cbn. rewrite length_map. lia. }
  pose proof (sim_step conflict 0 c_undo d1 s2 ltac:(lia) S2) as H. unfold step_agrees in H.
  cbn [spec_all spec rbind] in E2.
  apply (spec_ops_saved _ _ _ _ (_index d) []) in E2 as [Hs2 Ha2].
  - cbn in Ha2. unfold wrap32 in Ha2. rewrite Z.mod_small in Ha2 by lia.
    cbn [exec spec] in H. rewrite Hs2, Ha2 in H.
    destruct (Z.gtb_spec (active_sessions (_undo_db d) + 1) 0); [|lia]. cbn [fc_assert head get_or rbind] in H.
    destruct (undo conflict d1) as [d2|]; [|done]. by destruct H as [H _].
  - cbn [saved s0 length history]. change (Z.of_nat 0) with 0.
    destruct (Z.gtb_spec 0 (max_size (_undo_db d))); [lia|done].
Qed.

Lemma session_rollback_witness :
  exists d1 d2, exec_all Z.eqb
      (c_start :: map c_op [op_create 1 2 (fun _ => 5); op_remove (mk_oid 1 2 0);
                            op_modify (mk_oid 1 2 1) (fun v => v + 1)]) demo_db = Ok d1 /\
    undo Z.eqb d1 = Ok d2 /\ _index d2 = _index demo_db.
Proof.
  eexists. pose proof (session_rollback Z.eqb
    [op_create 1 2 (fun _ => 5); op_remove (mk_oid 1 2 0); op_modify (mk_oid 1 2 1) (fun v => v + 1)]
    demo_db _ eq_refl eq_refl ltac:(cbn; lia) ltac:(cbn; lia)
    ltac:(eapply good_mono; [|exact demo_good]; cbn; lia) ltac:(vm_compute; reflexivity)) as H.
  destruct (undo Z.eqb _) as [d2|] eqn:E in H; [|vm_compute in E; discriminate E].
  exists d2. split; [vm_compute; reflexivity|]. split; [exact E|exact H].
Defined.

(** The restore loop of [undo] puts modified objects back before it removes
    the objects created in the session.  With a unique secondary key this can
    fail: an object gives up its key, a new object takes it, and the undo of
    that session throws instead of rolling back. *)
Theorem undo_fails_on_reused_key :
  match exec_all Z.eqb [c_start; c_op (op_modify (mk_oid 1 2 0) (fun _ => 9));
                        c_op (op_create 1 2 (fun _ => 7))] demo_db with
  | Ok d1 => undo Z.eqb d1 = Err assert_exception
  | Err _ => False
  end.
Proof. vm_compute. reflexivity. Qed.
