(* ===== verification/Block.v ===== *)
(** * Blocks, block ids and the transaction Merkle root

    [fc/bitutil.hpp] (byte reversal), [protocol/block.hpp] and
    [protocol/block.cpp].  The hash functions ([sha224], the digest of a pair,
    the digest of a transaction) are OpenSSL and serialization code and stay
    parameters; the array algorithm of [calculate_merkle_root] is translated as
    it is written, in place. *)

From S2P Require Import Prelude.

(** ** Byte order reversal *)

Definition byte_at (x s : Z) : Z := Z.land (Z.shiftr x s) 255.

Definition endian_reverse_u32 (x : Z) : Z :=
  Z.lor (Z.lor (Z.lor (byte_at x 24)
                      (Z.shiftl (byte_at x 16) 8))
               (Z.shiftl (byte_at x 8) 16))
        (Z.shiftl (byte_at x 0) 24).

Definition endian_reverse_u64 (x : Z) : Z :=
  Z.lor (Z.lor (Z.lor (Z.lor (Z.lor (Z.lor (Z.lor (byte_at x 56)
    (Z.shiftl (byte_at x 48) 8))
    (Z.shiftl (byte_at x 40) 16))
    (Z.shiftl (byte_at x 32) 24))
    (Z.shiftl (byte_at x 24) 32))
    (Z.shiftl (byte_at x 16) 40))
    (Z.shiftl (byte_at x 8) 48))
    (Z.shiftl (byte_at x 0) 56).

(** ** Block ids: five 32-bit words, the first holds the block number *)

Record block_id_type := mk_bid {
  hash0 : Z; hash1 : Z; hash2 : Z; hash3 : Z; hash4 : Z }.

#[global] Instance block_id_type_eq_dec : EqDecision block_id_type.
Proof. solve_decision. Defined.

Definition null_block_id : block_id_type := mk_bid 0 0 0 0 0.

Definition num_from_id (id : block_id_type) : Z := endian_reverse_u32 (hash0 id).

(** [signed_block]; the hashes and the signature it carries are opaque, and so
    is the type of its transactions. *)
Record signed_block (Sum Tx : Type) := mk_block {
  previous : block_id_type;
  timestamp : Z;
  witness : Z;
  transaction_merkle_root : Sum;
  header_extensions : option (list string);
  witness_signature : Z;
  block_id : block_id_type;
  transactions : list Tx }.
Arguments mk_block {Sum Tx}.
Arguments previous {Sum Tx}.
Arguments timestamp {Sum Tx}.
Arguments witness {Sum Tx}.
Arguments transaction_merkle_root {Sum Tx}.
Arguments header_extensions {Sum Tx}.
Arguments witness_signature {Sum Tx}.
Arguments block_id {Sum Tx}.
Arguments transactions {Sum Tx}.

Definition block_num {Sum Tx} (b : signed_block Sum Tx) : Z :=
  wrap32 (num_from_id (previous b) + 1).

(** [make_id]: the sha224 digest of the header (seven words), its first word
    replaced by the block number, cut to the five words of a ripemd160. *)
Record sha224_words := mk_sha224 {
  w0 : Z; w1 : Z; w2 : Z; w3 : Z; w4 : Z; w5 : Z; w6 : Z }.

Definition make_id {Sum Tx} (sha224 : signed_block Sum Tx -> sha224_words)
    (b : signed_block Sum Tx) : block_id_type :=
  let tmp := sha224 b in
  mk_bid (endian_reverse_u32 (block_num b)) (w1 tmp) (w2 tmp) (w3 tmp) (w4 tmp).

(** ** The Merkle root, in place *)

Section Merkle.
Context {Digest Sum Tx : Type}.
Variable hash_pair : Digest -> Digest -> Digest.
Variable checksum : Digest -> Sum.
Variable checksum_null : Sum.
Variable merkle_digest : Tx -> Digest.

(** [for( i = 0; i < i_max; i += 2 ) ids[k++] = hash(ids[i], ids[i+1]);]
    [None] is an access out of range. *)
Fixpoint merkle_inner (fuel : nat) (i k i_max : nat) (ids : list Digest)
    : option (list Digest * nat) :=
  match fuel with
  | O => None
  | S f =>
      if (i <? i_max)%nat then
        match ids !! i, ids !! S i with
        | Some a, Some b =>
            merkle_inner f (i + 2)%nat (S k) i_max (<[k := hash_pair a b]> ids)
        | _, _ => None
        end
      else Some (ids, k)
  end.

Definition merkle_round (current : nat) (ids : list Digest)
    : option (list Digest * nat) :=
  let i_max := (current - current mod 2)%nat in
  match merkle_inner (S current) 0 0 i_max ids with
  | None => None
  | Some (ids, k) =>
      if (current mod 2 =? 1)%nat then
        match ids !! i_max with
        | Some d => Some (<[k := d]> ids, S k)
        | None => None
        end
      else Some (ids, k)
  end.

Fixpoint merkle_loop (fuel : nat) (current : nat) (ids : list Digest)
    : option (list Digest) :=
  match fuel with
  | O => None
  | S f =>
      if (1 <? current)%nat then
        match merkle_round current ids with
        | None => None
        | Some (ids, k) => merkle_loop f k ids
        end
      else Some ids
  end.

Definition calculate_merkle_root (b : signed_block Sum Tx) : option Sum :=
  if (length (transactions b) =? 0)%nat then Some checksum_null
  else
    let ids := map merkle_digest (transactions b) in
    match merkle_loop (S (length ids)) (length ids) ids with
    | Some ids => checksum <$> ids !! 0%nat
    | None => None
    end.

(** Reference: hash a level in pairs, an odd digest at the end carried up. *)
Fixpoint pair_up (l : list Digest) : list Digest :=
  match l with
  | a :: b :: l' => hash_pair a b :: pair_up l'
  | _ => l
  end.

Fixpoint merkle_ref (fuel : nat) (l : list Digest) : option Digest :=
  match fuel, l with
  | _, [] => None
  | _, [d] => Some d
  | O, _ => None
  | S f, _ => merkle_ref f (pair_up l)
  end.

End Merkle.

(** ** Lemmas: byte order *)

Lemma byte_at_bit x s n : 0 <= s -> 0 <= n ->
  Z.testbit (byte_at x s) n = (n <? 8) && Z.testbit x (n + s).
Proof.
  intros Hs Hn. unfold byte_at.
  rewrite Z.land_spec, Z.shiftr_spec by lia.
  change 255 with (Z.ones 8). rewrite Z.testbit_ones_nonneg by lia.
  apply andb_comm.
Qed.

Lemma byte_at_bound x s : 0 <= byte_at x s < 256.
Proof.
  unfold byte_at. change 255 with (Z.ones 8). rewrite Z.land_ones by lia.
  apply Z.mod_pos_bound. lia.
Qed.

Lemma rev32_bit x n : 0 <= n ->
  Z.testbit (endian_reverse_u32 x) n
  = (n <? 32) && Z.testbit x (8 * (3 - n / 8) + n mod 8).
Proof.
  intros Hn. unfold endian_reverse_u32.
  rewrite !Z.lor_spec, !Z.shiftl_spec by lia.
  assert (Hd : n = 8 * (n / 8) + n mod 8) by (apply Z.div_mod; lia).
  pose proof (Z.mod_pos_bound n 8 ltac:(lia)) as Hm.
  assert (Hq : 0 <= n / 8) by (apply Z.div_pos; lia).
  remember (n / 8) as q. remember (n mod 8) as r.
  assert (Hneg : forall y m, m < 0 -> Z.testbit y m = false)
    by (intros y m Hm'; by apply Z.testbit_neg_r).
  destruct (Z.ltb_spec n 32) as [H32|H32].
  - assert (q = 0 \/ q = 1 \/ q = 2 \/ q = 3) as [->|[->|[->| ->]]] by lia;
      subst n; rewrite andb_true_l;
      repeat match goal with
      | |- context [Z.testbit (byte_at ?y ?s) ?m] =>
          first [ rewrite (Hneg (byte_at y s) m) by lia
                | rewrite (byte_at_bit y s m) by lia;
                  destruct (Z.ltb_spec m 8); [|try lia]; try lia ]
      end; rewrite ?orb_false_r, ?orb_false_l, ?andb_true_l, ?andb_false_l, ?orb_false_r, ?orb_false_l;
      f_equal; lia.
  - rewrite !byte_at_bit by lia.
    repeat match goal with |- context [?a <? 8] => destruct (Z.ltb_spec a 8); [lia|] end.
    done.
Qed.

Lemma rev32_bound x : 0 <= endian_reverse_u32 x < uint32_mod.
Proof.
  assert (H0 : 0 <= endian_reverse_u32 x).
  { unfold endian_reverse_u32.
    pose proof (byte_at_bound x 24). pose proof (byte_at_bound x 16).
    pose proof (byte_at_bound x 8). pose proof (byte_at_bound x 0).
    repeat (apply Z.lor_nonneg; split); try lia; apply Z.shiftl_nonneg; lia. }
  split; [done|].
  destruct (Z.eq_dec (endian_reverse_u32 x) 0) as [->|Hne]; [lia|].
  change uint32_mod with (2 ^ 32). apply Z.log2_lt_pow2; [lia|].
  destruct (Z.lt_ge_cases (Z.log2 (endian_reverse_u32 x)) 32) as [|Hge]; [done|].
  pose proof (Z.bit_log2 (endian_reverse_u32 x) ltac:(lia)) as Hb.
  rewrite rev32_bit in Hb by lia.
  destruct (Z.ltb_spec (Z.log2 (endian_reverse_u32 x)) 32); [lia|done].
Qed.

Lemma rev32_involutive x : 0 <= x < uint32_mod ->
  endian_reverse_u32 (endian_reverse_u32 x) = x.
Proof.
  intros Hx. apply Z.bits_inj'. intros n Hn.
  rewrite rev32_bit by lia. destruct (Z.ltb_spec n 32) as [H32|H32].
  - rewrite andb_true_l.
    pose proof (Z.mod_pos_bound n 8 ltac:(lia)) as Hm.
    pose proof (Z.div_mod n 8 ltac:(lia)) as Hd.
    assert (Hq : 0 <= n / 8 < 4)
      by (split; [apply Z.div_pos; lia|apply Z.div_lt_upper_bound; lia]).
    rewrite rev32_bit by lia.
    assert (E1 : (8 * (3 - n / 8) + n mod 8) / 8 = 3 - n / 8)
      by (symmetry; apply (Z.div_unique _ _ _ (n mod 8)); lia).
    assert (E2 : (8 * (3 - n / 8) + n mod 8) mod 8 = n mod 8)
      by (symmetry; apply (Z.mod_unique _ _ (3 - n / 8)); lia).
    rewrite E1, E2. destruct (Z.ltb_spec (8 * (3 - n / 8) + n mod 8) 32); [|lia].
    rewrite andb_true_l. f_equal. lia.
  - rewrite andb_false_l. symmetry. destruct (Z.eq_dec x 0) as [->|]; [apply Z.bits_0|].
    apply Z.bits_above_log2; [lia|].
    apply Z.log2_lt_pow2; [lia|]. change (2 ^ n) with (2 ^ n).
    apply Z.lt_le_trans with (2 ^ 32); [|apply Z.pow_le_mono_r]; lia.
Qed.

Lemma num_from_id_bound id : 0 <= num_from_id id < uint32_mod.
Proof. apply rev32_bound. Qed.

Lemma block_num_bound {Sum Tx} (b : signed_block Sum Tx) : 0 <= block_num b < uint32_mod.
Proof. apply wrap32_bound. Qed.

(** The number stored in an id made by [make_id] is the block's number. *)
Lemma num_of_make_id {Sum Tx} sha (b : signed_block Sum Tx) :
  num_from_id (make_id sha b) = block_num b.
Proof. apply rev32_involutive, block_num_bound. Qed.

(** ** Lemmas: the in-place Merkle loop computes the pairwise tree *)

Section MerkleProofs.
Context {Digest Sum Tx : Type} `{EqDecision Digest}.
Variable hash_pair : Digest -> Digest -> Digest.
Variable checksum : Digest -> Sum.
Variable checksum_null : Sum.
Variable merkle_digest : Tx -> Digest.
Implicit Types (ids l : list Digest).

Lemma merkle_inner_spec n : forall fuel i k ids,
  (n < fuel)%nat -> (k <= i)%nat -> (i + 2 * n <= length ids)%nat ->
  exists ids', merkle_inner hash_pair fuel i k (i + 2 * n) ids = Some (ids', k + n)%nat
    /\ length ids' = length ids
    /\ take (k + n) ids' = take k ids ++ pair_up hash_pair (take (2 * n) (drop i ids))
    /\ drop (i + 2 * n) ids' = drop (i + 2 * n) ids.
Proof.
  induction n as [|n IH]; intros [|fuel] i k ids Hf Hk Hl; try lia; cbn [merkle_inner].
  - rewrite (proj2 (Nat.ltb_ge i (i + 2 * 0))) by lia. exists ids.
    rewrite !Nat.add_0_r, take_0, app_nil_r. done.
  - rewrite (proj2 (Nat.ltb_lt i (i + 2 * S n))) by lia.
    destruct (lookup_lt_is_Some_2 ids i ltac:(lia)) as [a Ha].
    destruct (lookup_lt_is_Some_2 ids (S i) ltac:(lia)) as [b Hb].
    rewrite Ha, Hb.
    destruct (IH fuel (i + 2)%nat (S k) (<[k := hash_pair a b]> ids))
      as (ids' & Hrun & Hlen & Htake & Hdrop);
      [lia|lia|rewrite length_insert; lia|].
    replace (i + 2 * S n)%nat with (i + 2 + 2 * n)%nat by lia.
    rewrite length_insert in Hlen.
    exists ids'. replace (k + S n)%nat with (S k + n)%nat by lia.
    split; [exact Hrun|]. split; [done|]. split.
    + rewrite Htake.
      rewrite (take_S_r _ _ (hash_pair a b)) by (apply list_lookup_insert_eq; lia).
      rewrite take_insert_ge by lia. rewrite drop_insert_lt by lia.
      rewrite <- app_assoc. f_equal.
      rewrite (drop_S ids a i Ha), (drop_S ids b (S i) Hb).
      replace (2 * S n)%nat with (S (S (2 * n))) by lia. cbn [firstn pair_up app].
      do 2 f_equal. f_equal. f_equal. lia.
    + rewrite Hdrop. apply drop_insert_lt. lia.
Qed.

Lemma pair_up_snoc d : forall n l, length l = (2 * n)%nat ->
  pair_up hash_pair (l ++ [d]) = pair_up hash_pair l ++ [d].
Proof.
  induction n as [|n IH]; intros [|a [|b l]] Hl; cbn in Hl; try lia; [done|].
  cbn. f_equal. apply IH. lia.
Qed.

Lemma pair_up_length l : length (pair_up hash_pair l) = Nat.div2 (S (length l)).
Proof.
  remember (length l) as m eqn:Hm. revert l Hm.
  induction m as [m IH] using lt_wf_ind; intros [|a [|b l]] Hm; subst; try done.
  cbn [pair_up length]. rewrite (IH (length l)) by (cbn; auto; lia). done.
Qed.

Lemma merkle_round_spec c ids : (c <= length ids)%nat ->
  exists ids', merkle_round hash_pair c ids
      = Some (ids', length (pair_up hash_pair (take c ids)))
    /\ length ids' = length ids
    /\ take (length (pair_up hash_pair (take c ids))) ids' = pair_up hash_pair (take c ids).
Proof.
  intros Hc. unfold merkle_round.
  pose proof (Nat.div_mod_eq c 2) as Hdm.
  pose proof (Nat.mod_upper_bound c 2 ltac:(lia)) as Hmod.
  destruct (merkle_inner_spec (c / 2) (S c) 0 0 ids) as (ids' & Hrun & Hlen & Htake & Hdrop);
    [lia|lia|lia|].
  replace (c - c mod 2)%nat with (0 + 2 * (c / 2))%nat by lia.
  rewrite Hrun. cbn [Nat.add] in *. rewrite drop_0 in Htake. rewrite take_0, app_nil_l in Htake.
  destruct (Nat.eqb_spec (c mod 2) 1) as [Hodd|Heven].
  - destruct (lookup_lt_is_Some_2 ids (2 * (c / 2)) ltac:(lia)) as [d Hd].
    assert (Hd' : ids' !! (2 * (c / 2))%nat = Some d).
    { rewrite <- (Nat.add_0_r (2 * (c / 2))), <- lookup_drop, Hdrop, lookup_drop.
      by rewrite Nat.add_0_r. }
    rewrite Hd'.
    assert (Hpu : pair_up hash_pair (take c ids)
                  = pair_up hash_pair (take (2 * (c / 2)) ids) ++ [d]).
    { rewrite <- (pair_up_snoc d (c / 2)) by (rewrite length_take; lia).
      f_equal. rewrite Hdm at 1. rewrite Hodd, Nat.add_1_r. by apply take_S_r. }
    assert (Hl : length (pair_up hash_pair (take c ids)) = S (c / 2)).
    { rewrite Hpu, length_app, <- Htake, length_take. cbn [length]. lia. }
    rewrite Hl. eexists. split; [reflexivity|]. rewrite length_insert. split; [done|].
    rewrite (take_S_r _ _ d) by (apply list_lookup_insert_eq; lia).
    rewrite take_insert_ge by lia. by rewrite Htake, Hpu.
  - assert (E : (2 * (c / 2) = c)%nat) by lia. rewrite E in *.
    assert (Hl : length (pair_up hash_pair (take c ids)) = (c / 2)%nat)
      by (rewrite <- Htake, length_take; lia).
    rewrite Hl. eauto.
Qed.

Lemma merkle_ref_step f l : (1 < length l)%nat ->
  merkle_ref hash_pair (S f) l = merkle_ref hash_pair f (pair_up hash_pair l).
Proof. destruct l as [|a [|b l]]; cbn [length]; [lia|lia|done]. Qed.

Lemma merkle_loop_spec : forall fuel c ids, (1 <= c < fuel)%nat -> (c <= length ids)%nat ->
  exists ids' d, merkle_loop hash_pair fuel c ids = Some ids' /\ ids' !! 0%nat = Some d
    /\ merkle_ref hash_pair c (take c ids) = Some d.
Proof.
  intros fuel c ids Hc Hl.
  assert (H : forall g, (c <= g)%nat -> exists ids' d,
    merkle_loop hash_pair fuel c ids = Some ids' /\ ids' !! 0%nat = Some d
    /\ merkle_ref hash_pair g (take c ids) = Some d); [|by apply H].
  revert c ids Hc Hl. induction fuel as [|fuel IH]; intros c ids Hc Hl g Hg; [lia|].
  cbn [merkle_loop]. destruct (Nat.ltb_spec 1 c) as [H1|H1].
  - destruct (merkle_round_spec c ids Hl) as (ids' & -> & Hlen & Htake).
    pose proof (pair_up_length (take c ids)) as Hpl.
    rewrite length_take, Nat.min_l in Hpl by done.
    pose proof (Nat.div2_div (S c)) as Hd2.
    pose proof (Nat.div_mod_eq (S c) 2). pose proof (Nat.mod_upper_bound (S c) 2 ltac:(lia)).
    destruct g as [|g]; [lia|].
    destruct (IH (length (pair_up hash_pair (take c ids))) ids') with (g := g)
      as (ids'' & d & Hrun & Hd & Href); [lia|lia|lia|].
    exists ids'', d. rewrite merkle_ref_step by (rewrite length_take; lia).
    rewrite Htake in Href. done.
  - assert (c = 1%nat) as -> by lia.
    destruct ids as [|d ids]; cbn in Hl; [lia|]. exists (d :: ids), d.
    cbn. destruct g; done.
Qed.

Lemma calculate_merkle_root_ref (b : signed_block Sum Tx) :
  transactions b <> [] ->
  exists d, merkle_ref hash_pair (length (transactions b)) (map merkle_digest (transactions b))
      = Some d
    /\ calculate_merkle_root hash_pair checksum checksum_null merkle_digest b
       = Some (checksum d).
Proof.
  intros Hne. unfold calculate_merkle_root.
  destruct (Nat.eqb_spec (length (transactions b)) 0) as [E|E];
    [by apply nil_length_inv in E|].
  rewrite length_map.
  destruct (merkle_loop_spec (S (length (transactions b))) (length (transactions b))
              (map merkle_digest (transactions b))) as (ids' & d & -> & Hd & Href);
    [lia|rewrite length_map; lia|].
  rewrite take_ge in Href by (rewrite length_map; lia).
  exists d. split; [done|]. by rewrite Hd.
Qed.

(** A collision of the pair hash. *)
Definition pair_collision : Prop :=
  exists a b c d, (a, b) <> (c, d) /\ hash_pair a b = hash_pair c d.

Lemma pair_up_inj : forall n l1 l2, (length l1 <= n)%nat -> length l1 = length l2 ->
  pair_up hash_pair l1 = pair_up hash_pair l2 -> l1 = l2 \/ pair_collision.
Proof.
  induction n as [|n IH]; intros [|a [|b l1]] [|c [|d l2]] Hn Hlen Heq;
    cbn in Hn, Hlen; try lia; try (by left); try (left; exact Heq).
  cbn in Heq. injection Heq as Hh Ht.
  destruct (decide ((a, b) = (c, d))) as [E|E]; [|right; exists a, b, c, d; done].
  destruct (IH l1 l2) as [->|]; [lia|lia|done| |by right].
  left. by simplify_eq.
Qed.

Lemma merkle_ref_inj : forall f l1 l2 d, length l1 = length l2 ->
  merkle_ref hash_pair f l1 = Some d -> merkle_ref hash_pair f l2 = Some d ->
  l1 = l2 \/ pair_collision.
Proof.
  induction f as [|f IH]; intros l1 l2 d Hlen H1 H2.
  - destruct l1 as [|a [|b l1]], l2 as [|c [|e l2]]; cbn in *; simplify_eq; by left.
  - destruct l1 as [|a [|b l1]], l2 as [|c [|e l2]]; cbn [length] in Hlen; try lia.
    + cbn in *. simplify_eq.
    + cbn in *. simplify_eq. by left.
    + rewrite merkle_ref_step in H1, H2 by (cbn; lia).
      assert (Hpl : length (pair_up hash_pair (a :: b :: l1))
                    = length (pair_up hash_pair (c :: e :: l2)))
        by (rewrite !pair_up_length; cbn [length]; f_equal; lia).
      destruct (IH _ _ d Hpl H1 H2)
        as [E|]; [|by right].
      eapply pair_up_inj; [reflexivity|cbn [length]; lia|done].
Qed.

End MerkleProofs.

(** ** Properties *)

(** C38: the Merkle root of a block commits to its transactions: the in-place
    algorithm always finishes within the array, and two blocks with the same
    number of transactions and the same root have the same transaction digests,
    unless the checksum or the pair hash collides. *)
Theorem merkle_root_commits {Digest Sum Tx} `{EqDecision Digest}
    (hash_pair : Digest -> Digest -> Digest) (checksum : Digest -> Sum) (null : Sum)
    (digest : Tx -> Digest) (b1 b2 : signed_block Sum Tx) :
  length (transactions b1) = length (transactions b2) ->
  calculate_merkle_root hash_pair checksum null digest b1
    = calculate_merkle_root hash_pair checksum null digest b2 ->
  (exists r, calculate_merkle_root hash_pair checksum null digest b1 = Some r) /\
  (map digest (transactions b1) = map digest (transactions b2)
   \/ (exists d1 d2, d1 <> d2 /\ checksum d1 = checksum d2)
   \/ pair_collision hash_pair).
Proof.
  intros Hlen Heq.
  destruct (transactions b1) as [|t ts] eqn:E1.
  { destruct (transactions b2) eqn:E2; [|done]. unfold calculate_merkle_root.
    rewrite E1. cbn. eauto. }
  assert (Hne1 : transactions b1 <> []) by (by rewrite E1).
  assert (Hne2 : transactions b2 <> []) by (by destruct (transactions b2)).
  destruct (calculate_merkle_root_ref hash_pair checksum null digest b1 Hne1)
    as (d1 & Hr1 & Hc1).
  destruct (calculate_merkle_root_ref hash_pair checksum null digest b2 Hne2)
    as (d2 & Hr2 & Hc2).
  rewrite <- E1 in *. split; [eauto|].
  destruct (decide (d1 = d2)) as [->|Hd].
  - rewrite Hlen in Hr1.
    destruct (merkle_ref_inj hash_pair (length (transactions b2)) (map digest (transactions b1))
                (map digest (transactions b2)) d2) as [E|E]; [|done|done|by left|by right; right].
    by rewrite !length_map.
  - right. left. exists d1, d2. rewrite Hc1, Hc2 in Heq. by injection Heq.
Qed.

Definition demo_block (txs : list Z) : signed_block Z Z :=
  mk_block null_block_id 0 0 0 None 0 null_block_id txs.

Lemma merkle_root_commits_witness :
  map Z.succ [1; 2; 3] = map Z.succ [1; 2; 3] \/ (exists d1 d2 : Z, d1 <> d2 /\ d1 = d2)
  \/ pair_collision (fun a b => 2 ^ a * 3 ^ b).
Proof.
  apply (merkle_root_commits (fun a b => 2 ^ a * 3 ^ b) (fun d => d) 0 Z.succ
           (demo_block [1; 2; 3]) (demo_block [1; 2; 3])); reflexivity.
Defined.

(** The block number can be read back from an id made by [make_id], and
    byte reversal on 32-bit words is its own inverse and stays within 32 bits. *)
Theorem block_number_roundtrip {Sum Tx} (sha224 : signed_block Sum Tx -> sha224_words)
    (b : signed_block Sum Tx) (x : Z) :
  0 <= x < uint32_mod ->
  num_from_id (make_id sha224 b) = block_num b
  /\ 0 <= endian_reverse_u32 x < uint32_mod
  /\ endian_reverse_u32 (endian_reverse_u32 x) = x.
Proof.
  intros Hx. auto using num_of_make_id, rev32_bound, rev32_involutive.
Qed.

Lemma block_number_roundtrip_witness :
  endian_reverse_u32 (endian_reverse_u32 305419896) = 305419896.
Proof.
  apply (block_number_roundtrip (fun _ => mk_sha224 0 0 0 0 0 0 0) (demo_block []) 305419896).
  lia.
Defined.
