(* ===== verification/ForkDb.v ===== *)
(** * The fork database (libraries/chain/fork_database.hpp/.cpp)

    A [fork_item] is a heap object: [addr] is its address, [prev] the address a
    [weak_ptr] holds.  A weak pointer locks while some [shared_ptr] of the
    database ([_head], [_index], [_unlinked_index]) still holds the object.  The
    multi-index containers are lists in insertion order: unique in the block id,
    iterated by number with equal numbers in insertion order. *)

From S2P Require Import Prelude Block.

Section ForkDb.
Context {Sum Tx : Type}.
Abbreviation block := (signed_block Sum Tx).

Record fork_item := mk_item {
  addr : nat;
  prev : option nat;
  num : Z;
  id : block_id_type;
  data : block }.

Definition new_item (a : nat) (b : block) : fork_item :=
  mk_item a None (block_num b) (block_id b) b.

Definition previous_id (it : fork_item) : block_id_type := previous (data it).

Record fork_database := mk_fork_db {
  _max_size : Z;
  _unlinked_index : list fork_item;
  _index : list fork_item;
  _head : option fork_item;
  next_addr : nat }.

Definition empty_fork_db : fork_database := mk_fork_db 1024 [] [] None 0.

Definition with_head (h : option fork_item) (db : fork_database) : fork_database :=
  mk_fork_db (_max_size db) (_unlinked_index db) (_index db) h (next_addr db).
Definition with_index (l : list fork_item) (db : fork_database) : fork_database :=
  mk_fork_db (_max_size db) (_unlinked_index db) l (_head db) (next_addr db).
Definition with_unlinked (l : list fork_item) (db : fork_database) : fork_database :=
  mk_fork_db (_max_size db) l (_index db) (_head db) (next_addr db).
Definition alloc (db : fork_database) : fork_database :=
  mk_fork_db (_max_size db) (_unlinked_index db) (_index db) (_head db) (S (next_addr db)).

(** ** Container operations *)

Definition has_id (i : block_id_type) (it : fork_item) : bool := bool_decide (id it = i).

Definition find_id (i : block_id_type) (l : list fork_item) : option fork_item :=
  find (has_id i) l.

(** [insert] into a container whose block id is unique. *)
Definition insert_item (it : fork_item) (l : list fork_item) : list fork_item :=
  if existsb (has_id (id it)) l then l else l ++ [it].

(** Erase from the front of the by-number index while the number is below [n]. *)
Definition erase_below (n : Z) (l : list fork_item) : list fork_item :=
  filter (fun it => n <= num it) l.

Definition erase_num (n : Z) (l : list fork_item) : list fork_item :=
  filter (fun it => num it <> n) l.

(** The objects kept alive by the database. *)
Definition held (db : fork_database) : list fork_item :=
  option_list (_head db) ++ _index db ++ _unlinked_index db.

Definition lock (db : fork_database) (w : option nat) : option fork_item :=
  match w with
  | None => None
  | Some a => find (fun it => Nat.eqb (addr it) a) (held db)
  end.

(** ** Operations *)

Definition reset (db : fork_database) : fork_database := with_index [] (with_head None db).

Definition pop_block (db : fork_database) : result fork_database :=
  let* h := get_or (_head db) assert_exception in
  let* p := get_or (lock db (prev h)) assert_exception in
  Ok (with_head (Some p) db).

Definition start_block (b : block) (db : fork_database) : fork_database :=
  let item := new_item (next_addr db) b in
  let db := alloc db in
  with_head (Some item) (with_index (insert_item item (_index db)) db).

Definition push_item (item : fork_item) (db : fork_database) : result fork_database :=
  let* _ := match _head db with
            | Some h => fc_assert (num item >? Z.max 0 (num h - _max_size db))
            | None => Ok tt
            end in
  let* item :=
    match _head db with
    | Some _ =>
        if bool_decide (previous_id item = null_block_id) then Ok item
        else
          let* p := get_or (find_id (previous_id item) (_index db))
                      unlinkable_block_exception in
          Ok (mk_item (addr item) (Some (addr p)) (num item) (id item) (data item))
    | None => Ok item
    end in
  let db := with_index (insert_item item (_index db)) db in
  match _head db with
  | None => Ok (with_head (Some item) db)
  | Some h =>
      if num item >? num h then
        let db := with_head (Some item) db in
        let min_num := num item - Z.min (_max_size db) (num item) in
        let db := with_index (erase_below min_num (_index db)) db in
        Ok (with_unlinked (erase_num (wrap32 (num item - _max_size db))
                             (_unlinked_index db)) db)
      else Ok db
  end.

(** [push_block]: on [unlinkable_block_exception] the handler logs and rethrows
    before it reaches the insertion into [_unlinked_index]. *)
Definition push_block (b : block) (db : fork_database)
    : result (option fork_item * fork_database) :=
  let item := new_item (next_addr db) b in
  let* db := push_item item (alloc db) in
  Ok (_head db, db).

Definition set_max_size (s : Z) (db : fork_database) : fork_database :=
  let db := mk_fork_db s (_unlinked_index db) (_index db) (_head db) (next_addr db) in
  match _head db with
  | None => db
  | Some h =>
      let bound := Z.max 0 (num h - s) in
      with_unlinked (erase_below bound (_unlinked_index db))
        (with_index (erase_below bound (_index db)) db)
  end.

Definition fetch_block (i : block_id_type) (db : fork_database) : option fork_item :=
  match find_id i (_index db) with
  | Some it => Some it
  | None => find_id i (_unlinked_index db)
  end.

Definition is_known_block (i : block_id_type) (db : fork_database) : bool :=
  match find_id i (_index db) with
  | Some _ => true
  | None => match find_id i (_unlinked_index db) with Some _ => true | None => false end
  end.

Definition fetch_block_by_number (n : Z) (db : fork_database) : list fork_item :=
  filter (fun it => num it = n) (_index db).

Definition set_head (h : option fork_item) (db : fork_database) : fork_database :=
  with_head h db.

Definition remove (i : block_id_type) (db : fork_database) : fork_database :=
  with_index (filter (fun it => id it <> i) (_index db)) db.

(** [while( a->block_num() > n ) { branch.push_back(a); a = a->prev.lock(); }];
    the outer [option] is [None] when the fuel runs out. *)
Fixpoint descend (fuel : nat) (db : fork_database) (n : Z) (a : fork_item)
    (branch : list fork_item) : option (result (fork_item * list fork_item)) :=
  match fuel with
  | O => None
  | S f =>
      if block_num (data a) >? n then
        match lock db (prev a) with
        | Some p => descend f db n p (branch ++ [a])
        | None => Some (Err assert_exception)
        end
      else Some (Ok (a, branch))
  end.

Fixpoint climb_together (fuel : nat) (db : fork_database) (a b : fork_item)
    (ba bb : list fork_item) : option (result (list fork_item * list fork_item)) :=
  match fuel with
  | O => None
  | S f =>
      if bool_decide (previous (data a) <> previous (data b)) then
        match lock db (prev a) with
        | None => Some (Err assert_exception)
        | Some a' =>
            match lock db (prev b) with
            | None => Some (Err assert_exception)
            | Some b' => climb_together f db a' b' (ba ++ [a]) (bb ++ [b])
            end
        end
      else Some (Ok (ba ++ [a], bb ++ [b]))
  end.

Definition fetch_branch_fuel (fuel : nat) (first second : block_id_type)
    (db : fork_database) : option (result (list fork_item * list fork_item)) :=
  match find_id first (_index db), find_id second (_index db) with
  | Some a, Some b =>
      match descend fuel db (block_num (data b)) a [] with
      | None => None
      | Some (Err e) => Some (Err e)
      | Some (Ok (a, ba)) =>
          match descend fuel db (block_num (data a)) b [] with
          | None => None
          | Some (Err e) => Some (Err e)
          | Some (Ok (b, bb)) => climb_together fuel db a b ba bb
          end
      end
  | _, _ => Some (Err assert_exception)
  end.

(** Addresses fall along [prev], so the number of allocations is enough fuel. *)
Definition fetch_branch_from (first second : block_id_type) (db : fork_database)
    : result (list fork_item * list fork_item) :=
  match fetch_branch_fuel (S (next_addr db)) first second db with
  | Some r => r
  | None => Err assert_exception
  end.

(** ** Steps of the database, and the states they reach *)

Inductive step : fork_database -> fork_database -> Prop :=
| step_reset db : step db (reset db)
| step_pop db db' : pop_block db = Ok db' -> step db db'
| step_start b db : step db (start_block b db)
| step_push b h db db' : push_block b db = Ok (h, db') -> step db db'
| step_refused db : step db (alloc db)
| step_max_size s db : 0 <= s < uint32_mod -> step db (set_max_size s db)
| step_set_head h db : fetch_block (id h) db = Some h -> step db (set_head (Some h) db)
| step_remove i db : step db (remove i db).

Inductive reachable : fork_database -> Prop :=
| reach_init : reachable empty_fork_db
| reach_step db db' : reachable db -> step db db' -> reachable db'.

(** ** Well-formedness *)

(** Items of a heap with [n] allocations: initialised from their block, with
    distinct addresses, and weak pointers to older items that hold the previous
    block. *)
Record items_ok (n : nat) (l : list fork_item) : Prop := {
  ok_data : forall it, it ∈ l ->
    (addr it < n)%nat /\ num it = block_num (data it) /\ id it = block_id (data it);
  ok_addr : forall i1 i2, i1 ∈ l -> i2 ∈ l -> addr i1 = addr i2 -> i1 = i2;
  ok_older : forall it a, it ∈ l -> prev it = Some a -> (a < addr it)%nat;
  ok_prev : forall it p, it ∈ l -> p ∈ l -> prev it = Some (addr p) ->
    id p = previous_id it }.

Record wf (db : fork_database) : Prop := {
  wf_unlinked : _unlinked_index db = [];
  wf_nodup : NoDup (map id (_index db));
  wf_items : items_ok (next_addr db) (held db) }.

Lemma items_ok_sub n n' l l' :
  items_ok n l -> (n <= n')%nat -> (forall it, it ∈ l' -> it ∈ l) -> items_ok n' l'.
Proof.
  intros [Hd Ha Ho Hp] Hn Hsub. split; intros; eauto.
  destruct (Hd it); eauto; [lia..|].
  repeat split; [lia|tauto|tauto].
Qed.

Lemma items_ok_new n l it :
  items_ok n l -> addr it = n -> num it = block_num (data it) -> id it = block_id (data it) ->
  (prev it = None \/ exists p, p ∈ l /\ prev it = Some (addr p) /\ id p = previous_id it) ->
  items_ok (S n) (it :: l).
Proof.
  intros [Hd Ha Ho Hp] Hat Hnum Hid Hprev.
  assert (Hlt : forall x, x ∈ l -> (addr x < n)%nat) by (intros x Hx; by apply Hd).
  split.
  - intros x [->|Hx]%elem_of_cons; [repeat split; [lia|done..]|].
    destruct (Hd x Hx); repeat split; [lia|tauto|tauto].
  - intros x y [->|Hx]%elem_of_cons [->|Hy]%elem_of_cons E; eauto.
    + specialize (Hlt y Hy). lia.
    + specialize (Hlt x Hx). lia.
  - intros x a [->|Hx]%elem_of_cons E; eauto.
    destruct Hprev as [E'|(p & Hp' & E' & _)]; [congruence|].
    specialize (Hlt p Hp'). rewrite E' in E. injection E as <-. lia.
  - intros x p [->|Hx]%elem_of_cons [->|Hpl]%elem_of_cons E; eauto.
    + destruct Hprev as [E'|(q & Hq & E' & Hid')]; [congruence|].
      specialize (Hlt q Hq). rewrite E' in E. injection E as E. lia.
    + destruct Hprev as [E'|(q & Hq & E' & Hid')]; [congruence|].
      rewrite E' in E. injection E as E. by rewrite <- (Ha q p Hq Hpl E).
    + specialize (Ho x (addr it) Hx E). specialize (Hlt x Hx). lia.
Qed.

Lemma lock_spec db w p : lock db w = Some p -> w = Some (addr p) /\ p ∈ held db.
Proof.
  unfold lock. destruct w as [a|]; [|done]. intros [Hin Ha]%find_some.
  apply Nat.eqb_eq in Ha as <-. split; [done|]. by apply list_elem_of_In.
Qed.

Lemma find_id_spec i l it : find_id i l = Some it -> it ∈ l /\ id it = i.
Proof.
  intros [Hin H]%find_some. apply bool_decide_eq_true in H.
  split; [by apply list_elem_of_In|done].
Qed.

Lemma elem_of_insert_item it x l : x ∈ insert_item it l -> x = it \/ x ∈ l.
Proof.
  unfold insert_item. case_if; [by right|].
  rewrite elem_of_app, list_elem_of_singleton. tauto.
Qed.

Lemma nodup_insert_item it l : NoDup (map id l) -> NoDup (map id (insert_item it l)).
Proof.
  intros H. unfold insert_item. destruct (existsb (has_id (id it)) l) eqn:E; [done|].
  rewrite map_app, NoDup_app. split; [done|]. split; [|apply NoDup_singleton].
  intros i Hi ->%list_elem_of_singleton.
  apply list_elem_of_In, in_map_iff in Hi as (x & Hx & Hin).
  assert (existsb (has_id (id it)) l = true); [|congruence].
  apply existsb_exists. exists x. split; [done|]. by apply bool_decide_eq_true.
Qed.

Lemma nodup_filter_ids (P : fork_item -> Prop) `{!forall x, Decision (P x)} l :
  NoDup (map id l) -> NoDup (map id (filter P l)).
Proof.
  induction l as [|a l IH]; [done|]. cbn [map]. rewrite NoDup_cons. intros [Ha Hl].
  rewrite filter_cons. case_decide; [|by apply IH]. cbn [map]. apply NoDup_cons.
  split; [|by apply IH]. contradict Ha.
  apply list_elem_of_In, in_map_iff in Ha as (x & Hx & Hin).
  apply list_elem_of_In, in_map_iff. exists x. split; [done|].
  apply list_elem_of_In in Hin. apply list_elem_of_filter in Hin as [_ Hin].
  by apply list_elem_of_In.
Qed.

Lemma held_in db it :
  it ∈ held db <-> _head db = Some it \/ it ∈ _index db \/ it ∈ _unlinked_index db.
Proof.
  unfold held. rewrite !elem_of_app. destruct (_head db) as [h|]; cbn.
  - rewrite list_elem_of_singleton. intuition congruence.
  - rewrite elem_of_nil. intuition congruence.
Qed.

(** A state whose index and head only lost items stays well formed. *)
Lemma wf_shrink db db' :
  wf db -> _unlinked_index db' = [] -> (next_addr db <= next_addr db')%nat ->
  NoDup (map id (_index db')) ->
  (forall it, it ∈ held db' -> it ∈ held db) -> wf db'.
Proof. intros [Hu Hn Hi] Hu' Ha Hn' Hsub. split; [done..|]. by eapply items_ok_sub. Qed.

Lemma push_item_wf b db db' :
  wf db -> push_item (new_item (next_addr db) b) (alloc db) = Ok db' -> wf db'.
Proof.
  intros Hwf H. unfold push_item in H. destruct Hwf as [Hu Hnd Hok].
  apply rbind_ok in H as (_ & _ & H). apply rbind_ok in H as (it & Hit & H).
  assert (Hfresh : addr it = next_addr db /\ data it = b /\ num it = block_num b
    /\ id it = block_id b
    /\ (prev it = None \/ exists p, p ∈ held db /\ prev it = Some (addr p)
                          /\ id p = previous_id it)).
  { cbn [alloc _head _index] in Hit. destruct (_head db); [|res_inv; cbn; tauto].
    case_if_in Hit; res_inv; cbn; [tauto|].
    apply find_id_spec in Hget as [Hin Hid]. repeat split; [done..|]. right. eexists.
    split; [apply held_in; right; left; exact Hin|]. done. }
  destruct Hfresh as (Ha & Hd & Hn & Hi & Hp).
  assert (Hok' : items_ok (S (next_addr db)) (it :: held db))
    by (apply items_ok_new; rewrite ?Hd; done).
  assert (Hgen : forall db1, next_addr db1 = S (next_addr db) -> _unlinked_index db1 = [] ->
    NoDup (map id (_index db1)) ->
    (forall x, _head db1 = Some x -> x = it \/ _head db = Some x) ->
    (forall x, x ∈ _index db1 -> x = it \/ x ∈ _index db) -> wf db1).
  { intros db1 E1 E2 E3 Hh Hx. split; [done..|]. rewrite E1.
    eapply items_ok_sub; [exact Hok'|lia|]. intros x Hin. apply elem_of_cons.
    rewrite held_in in Hin |- *. rewrite E2 in Hin. rewrite elem_of_nil in Hin.
    destruct Hin as [Hin|[Hin|[]]]; [apply Hh in Hin|apply Hx in Hin]; tauto. }
  pose proof (nodup_insert_item it _ Hnd) as Hnd'.
  cbn [alloc with_index _index _head] in H.
  destruct (_head db) as [h|] eqn:Eh; [case_if_in H|]; res_inv.
  - apply Hgen; cbn; [done|by rewrite Hu|by apply nodup_filter_ids| |].
    + intros x E. left. congruence.
    + intros x [_ Hx]%list_elem_of_filter. by apply elem_of_insert_item.
  - apply Hgen; cbn; [done|done|done| |].
    + intros x E. right. congruence.
    + intros x Hx. by apply elem_of_insert_item.
  - apply Hgen; cbn; [done|done|done| |].
    + intros x E. left. congruence.
    + intros x Hx. by apply elem_of_insert_item.
Qed.

Lemma step_wf db db' : wf db -> step db db' -> wf db'.
Proof.
  intros Hwf Hs. destruct Hs as [db|db db' H|b db|b h db db' H|db|s db Hs|h db H|i db].
  - eapply wf_shrink; [exact Hwf|apply Hwf|done|constructor|].
    intros it. rewrite !held_in. cbn. rewrite elem_of_nil. intros [?|[[]|?]]; [done|tauto].
  - unfold pop_block in H. res_inv. apply lock_spec in Hget0 as [_ Hin].
    eapply wf_shrink; [exact Hwf|apply Hwf|done|apply Hwf|].
    intros it. rewrite !held_in in *. cbn. intros [E|[?|?]]; [|tauto..].
    injection E as <-. exact Hin.
  - destruct Hwf as [Hu Hnd Hok]. split; [done|by apply nodup_insert_item|].
    eapply items_ok_sub.
    + apply (items_ok_new _ _ (new_item (next_addr db) b) Hok); [done..|]. by left.
    + done.
    + intros x Hx. apply elem_of_cons. rewrite held_in in Hx |- *. cbn in Hx.
      destruct Hx as [E|[Hx|Hx]]; [left; congruence| |tauto].
      apply elem_of_insert_item in Hx. tauto.
  - unfold push_block in H. res_inv. by eapply push_item_wf.
  - eapply wf_shrink; [exact Hwf|apply Hwf|cbn; lia|apply Hwf|done].
  - unfold set_max_size. cbn. destruct (_head db) as [hd|] eqn:E.
    + eapply wf_shrink; [exact Hwf|cbn; by rewrite (wf_unlinked _ Hwf)|done
        |apply nodup_filter_ids, Hwf|].
      intros it. rewrite !held_in. cbn. unfold erase_below.
      rewrite !list_elem_of_filter. rewrite E. tauto.
    + eapply wf_shrink; [exact Hwf|apply Hwf|done|apply Hwf|].
      intros it. rewrite !held_in. cbn. rewrite E. tauto.
  - eapply wf_shrink; [exact Hwf|apply Hwf|done|apply Hwf|].
    intros it. rewrite !held_in. cbn. intros [E|?]; [|tauto]. injection E as <-.
    unfold fetch_block in H. destruct (find_id (id h) (_index db)) eqn:E.
    + apply find_id_spec in E. right. left. naive_solver.
    + apply find_id_spec in H. tauto.
  - eapply wf_shrink; [exact Hwf|apply Hwf|done|apply nodup_filter_ids, Hwf|].
    intros it. rewrite !held_in. cbn. rewrite list_elem_of_filter. tauto.
Qed.

Lemma reachable_wf db : reachable db -> wf db.
Proof.
  induction 1 as [|db db' _ IH Hs]; [|by eapply step_wf].
  split; [done|constructor|]. split; intros; by set_solver.
Qed.

(** ** Branches *)

(** Consecutive items are linked by [prev]. *)
Fixpoint linked (db : fork_database) (l : list fork_item) : Prop :=
  match l with
  | x :: ((y :: _) as l') => lock db (prev x) = Some y /\ linked db l'
  | _ => True
  end.

Lemma linked_snoc db l x y :
  linked db (l ++ [x]) -> lock db (prev x) = Some y -> linked db ((l ++ [x]) ++ [y]).
Proof.
  induction l as [|a l IH]; cbn [app]; [done|].
  destruct l as [|b l]; cbn [app linked] in *; [tauto|].
  intros [Hab Hl] Hx. split; [done|]. by apply IH.
Qed.

Lemma linked_ids db l : wf db -> (forall x, x ∈ l -> x ∈ held db) -> linked db l ->
  forall k x y, l !! k = Some x -> l !! S k = Some y ->
  previous (data x) = id y.
Proof.
  intros Hwf. induction l as [|a l IH]; intros Hin Hl k x y Hx Hy; [done|].
  destruct l as [|b l]; [by destruct k|]. destruct Hl as [Hab Hl].
  destruct k as [|k]; cbn in Hx, Hy.
  - simplify_eq. apply lock_spec in Hab as [Hp Hh]. symmetry.
    eapply (ok_prev _ _ (wf_items _ Hwf)); [apply Hin; constructor|done|done].
  - eapply IH; [|done|done|done]. intros z Hz. apply Hin. by constructor.
Qed.

(** What a walk from [a] to [a'] collects: the items before [a']. *)
Definition walk (db : fork_database) (a : fork_item) (l : list fork_item) (a' : fork_item)
    : Prop :=
  linked db (l ++ [a']) /\ head (l ++ [a']) = Some a
  /\ (forall x, x ∈ l ++ [a'] -> x ∈ held db).

Lemma walk_nil db a : a ∈ held db -> walk db a [] a.
Proof. intros Ha. repeat split. intros x ->%list_elem_of_singleton. done. Qed.

Lemma walk_snoc db a l x y :
  walk db a l x -> lock db (prev x) = Some y -> walk db a (l ++ [x]) y.
Proof.
  intros (Hl & Hh & Hin) Hxy. split; [by apply linked_snoc|]. split.
  - destruct l; done.
  - intros z. rewrite elem_of_app, list_elem_of_singleton. intros [Hz| ->]; [by apply Hin|].
    by apply lock_spec in Hxy as [_ ?].
Qed.

Lemma prev_older db a p : wf db -> a ∈ held db -> lock db (prev a) = Some p ->
  (addr p < addr a)%nat.
Proof.
  intros Hwf Ha [E _]%lock_spec. by apply (ok_older _ _ (wf_items _ Hwf)).
Qed.

Lemma descend_spec db n a0 : wf db -> forall fuel a br, (addr a < fuel)%nat -> walk db a0 br a ->
  exists r, descend fuel db n a br = Some r
    /\ forall a' br', r = Ok (a', br') ->
         walk db a0 br' a' /\ block_num (data a') <= n /\ (addr a' <= addr a)%nat
         /\ (block_num (data a) <= n -> br' = br).
Proof.
  intros Hwf. induction fuel as [|f IH]; intros a br Hf Hw; [lia|]. cbn [descend].
  assert (Ha : a ∈ held db) by (apply Hw; set_solver).
  destruct (block_num (data a) >? n) eqn:E; bool_to_prop.
  - destruct (lock db (prev a)) as [p|] eqn:Hl; [|by eexists].
    pose proof (prev_older _ _ _ Hwf Ha Hl).
    destruct (IH p (br ++ [a])) as (r & Hr & Hspec); [lia|by apply walk_snoc|].
    exists r. split; [done|]. intros a' br' ->. destruct (Hspec a' br' eq_refl) as (?&?&?&?).
    do 2 (split; [done|]). split; lia.
  - eexists. split; [done|]. intros a' br' [= -> ->]. split; [done|]. split; [lia|]. done.
Qed.

Lemma climb_spec db a0 b0 : wf db -> forall fuel a b ba bb, (addr a < fuel)%nat ->
  walk db a0 ba a -> walk db b0 bb b ->
  exists r, climb_together fuel db a b ba bb = Some r
    /\ forall ra rb, r = Ok (ra, rb) -> exists qa qb a' b',
         ra = ba ++ qa ++ [a'] /\ rb = bb ++ qb ++ [b']
         /\ walk db a0 (ba ++ qa) a' /\ walk db b0 (bb ++ qb) b'
         /\ previous (data a') = previous (data b')
         /\ Forall2 (fun x y => previous (data x) <> previous (data y)) qa qb.
Proof.
  intros Hwf. induction fuel as [|f IH]; intros a b ba bb Hf Hwa Hwb; [lia|].
  cbn [climb_together].
  assert (Ha : a ∈ held db) by (apply Hwa; set_solver).
  case_bool_decide as Hne.
  - destruct (lock db (prev a)) as [pa|] eqn:Hla; [|by eexists].
    destruct (lock db (prev b)) as [pb|] eqn:Hlb; [|by eexists].
    pose proof (prev_older _ _ _ Hwf Ha Hla).
    destruct (IH pa pb (ba ++ [a]) (bb ++ [b])) as (r & Hr & Hspec);
      [lia|by apply walk_snoc..|].
    exists r. split; [done|]. intros ra rb ->.
    destruct (Hspec ra rb eq_refl) as (qa & qb & a' & b' & -> & -> & Hwa' & Hwb' & Hp & Hall).
    exists (a :: qa), (b :: qb), a', b'. rewrite <- !app_assoc in *. cbn [app] in *.
    do 5 (split; [done|]). by constructor.
  - eexists. split; [done|]. intros ra rb [= <- <-]. exists [], [], a, b.
    rewrite !app_nil_r. cbn [app]. do 4 (split; [done|]). split; [exact Hne|constructor].
Qed.

Lemma descend_above db n : forall fuel a br a' br', descend fuel db n a br = Some (Ok (a', br')) ->
  Forall (fun x => block_num (data x) > n) br -> Forall (fun x => block_num (data x) > n) br'.
Proof.
  induction fuel as [|f IH]; intros a br a' br' H Hbr; cbn in H; [done|].
  destruct (block_num (data a) >? n) eqn:E; bool_to_prop; [|by injection H as <- <-].
  destruct (lock db (prev a)) as [p|]; [|done]. eapply IH; [exact H|].
  apply Forall_app. split; [done|]. apply Forall_singleton. lia.
Qed.

(** Block ids carry the numbers of their blocks, and those have room below 2^32. *)
Definition ids_numbered (db : fork_database) : Prop :=
  forall it, it ∈ held db -> num_from_id (id it) = block_num (data it) /\ block_num (data it) + 1 < uint32_mod.

(** Along a walk the numbers fall one by one. *)
Lemma walk_numbers db l : wf db -> ids_numbered db -> (forall x, x ∈ l -> x ∈ held db) -> linked db l ->
  forall k x h, l !! k = Some x -> head l = Some h -> block_num (data x) = block_num (data h) - Z.of_nat k.
Proof.
  intros Hwf Hn Hin Hl. induction k as [|k IH]; intros x h Hx Hh.
  - destruct l; [done|]. cbn in *. simplify_eq. lia.
  - destruct (lookup_lt_is_Some_2 l k) as [y Hy]; [apply lookup_lt_Some in Hx; lia|].
    pose proof (linked_ids db l Hwf Hin Hl k y x Hy Hx) as E. specialize (IH y h Hy Hh).
    destruct (Hn x) as [Ex Bx]; [apply Hin; by eapply list_elem_of_lookup_2|].
    assert (0 <= block_num (data x)) by apply block_num_bound.
    assert (block_num (data y) = block_num (data x) + 1); [|lia].
    unfold block_num at 1. rewrite E, Ex, wrap32_small by lia. done.
Qed.

(** Two walks that end in blocks with one predecessor: the same predecessor elsewhere means
    the same distance from the ends. *)
Lemma walks_aligned db la lb a b i j x y : wf db -> ids_numbered db ->
  (forall x, x ∈ la -> x ∈ held db) -> linked db la -> (forall x, x ∈ lb -> x ∈ held db) -> linked db lb ->
  list.last la = Some a -> list.last lb = Some b -> previous (data a) = previous (data b) ->
  la !! i = Some x -> lb !! j = Some y -> previous (data x) = previous (data y) ->
  Z.of_nat (length la) - Z.of_nat i = Z.of_nat (length lb) - Z.of_nat j.
Proof.
  intros Hwf Hn Ha La Hb Lb Ea Eb Hp Hx Hy Hq.
  destruct la as [|ha la]; [done|]. destruct lb as [|hb lb]; [done|].
  rewrite last_lookup in Ea, Eb.
  pose proof (walk_numbers db _ Hwf Hn Ha La _ _ ha Ea eq_refl) as N1.
  pose proof (walk_numbers db _ Hwf Hn Hb Lb _ _ hb Eb eq_refl) as N2.
  pose proof (walk_numbers db _ Hwf Hn Ha La _ _ ha Hx eq_refl) as N3.
  pose proof (walk_numbers db _ Hwf Hn Hb Lb _ _ hb Hy eq_refl) as N4.
  assert (block_num (data a) = block_num (data b)) by (unfold block_num; by rewrite Hp).
  assert (block_num (data x) = block_num (data y)) by (unfold block_num; by rewrite Hq).
  cbn [length pred] in *. lia.
Qed.

(** Above the second block nothing of the first branch meets the second one, and below it
    the two were walked in step. *)
Lemma only_ends db a b pa pb qa qb a2 b2 i j x y : wf db -> ids_numbered db ->
  Forall (fun x => block_num (data x) > block_num (data b)) pa ->
  walk db a (pa ++ qa) a2 -> walk db b (pb ++ qb) b2 -> previous (data a2) = previous (data b2) ->
  Forall2 (fun x y => previous (data x) <> previous (data y)) qa qb ->
  ((pa ++ qa) ++ [a2]) !! i = Some x -> ((pb ++ qb) ++ [b2]) !! j = Some y ->
  previous (data x) = previous (data y) ->
  S i = length ((pa ++ qa) ++ [a2]) /\ S j = length ((pb ++ qb) ++ [b2]).
Proof.
  intros Hwf Hn Habove (La & Fa & Ia) (Lb & Fb & Ib) Hp Hall Hx Hy Hq.
  pose proof (walks_aligned db _ _ a2 b2 i j x y Hwf Hn Ia La Ib Lb ltac:(by rewrite last_snoc)
    ltac:(by rewrite last_snoc) Hp Hx Hy Hq) as Hd.
  pose proof (walk_numbers db _ Hwf Hn Ib Lb _ _ b Hy Fb) as Ny.
  pose proof (Forall2_length _ _ _ Hall) as Hlen.
  pose proof (lookup_lt_Some _ _ _ Hx) as Hi. pose proof (lookup_lt_Some _ _ _ Hy) as Hj.
  rewrite !length_app in *. cbn [length] in *.
  destruct (decide (i < length pa)%nat) as [Hpa|Hpa].
  { exfalso. rewrite !lookup_app_l in Hx by (rewrite ?length_app; lia).
    eapply Forall_lookup_1 in Habove; [|exact Hx].
    assert (block_num (data x) = block_num (data y)) by (unfold block_num; by rewrite Hq). cbn in Habove. lia. }
  destruct (decide (i < length pa + length qa)%nat) as [Hqa|Hqa]; [|lia]. exfalso.
  rewrite lookup_app_l in Hx by (rewrite length_app; lia). rewrite lookup_app_r in Hx by lia.
  rewrite lookup_app_l in Hy by (rewrite length_app; lia). rewrite lookup_app_r in Hy by lia.
  replace (j - length pb)%nat with (i - length pa)%nat in Hy by lia.
  by eapply (Forall2_lookup_lr _ _ _ _ _ _ Hall Hx Hy).
Qed.

Lemma find_id_held db i it : find_id i (_index db) = Some it -> it ∈ held db.
Proof. intros [H _]%find_id_spec. apply held_in. tauto. Qed.

Lemma held_addr db it : wf db -> it ∈ held db -> (addr it < next_addr db)%nat.
Proof. intros Hwf H. by destruct (ok_data _ _ (wf_items _ Hwf) it H). Qed.

(** The branches that are returned are walks from the two blocks asked for. *)
Lemma fetch_branch_walks db first second ra rb : wf db ->
  fetch_branch_from first second db = Ok (ra, rb) ->
  exists a b qa qb a' b',
    find_id first (_index db) = Some a /\ find_id second (_index db) = Some b
    /\ ra = qa ++ [a'] /\ rb = qb ++ [b'] /\ walk db a qa a' /\ walk db b qb b'
    /\ previous (data a') = previous (data b').
Proof.
  intros Hwf H. unfold fetch_branch_from, fetch_branch_fuel in H.
  destruct (find_id first (_index db)) as [a|] eqn:Ea; [|done].
  destruct (find_id second (_index db)) as [b|] eqn:Eb; [|done].
  pose proof (find_id_held _ _ _ Ea) as Ha. pose proof (find_id_held _ _ _ Eb) as Hb.
  destruct (descend_spec db (block_num (data b)) a Hwf (S (next_addr db)) a [])
    as (r1 & E1 & H1); [pose proof (held_addr _ _ Hwf Ha); lia|by apply walk_nil|].
  rewrite E1 in H. destruct r1 as [[a1 pa]|e]; [|done].
  destruct (H1 a1 pa eq_refl) as (Hwa & _ & Haddr & _).
  destruct (descend_spec db (block_num (data a1)) b Hwf (S (next_addr db)) b [])
    as (r2 & E2 & H2); [pose proof (held_addr _ _ Hwf Hb); lia|by apply walk_nil|].
  rewrite E2 in H. destruct r2 as [[b1 pb]|e]; [|done].
  destruct (H2 b1 pb eq_refl) as (Hwb & _ & _ & _).
  destruct (climb_spec db a b Hwf (S (next_addr db)) a1 b1 pa pb) as (r & E3 & Hr);
    [pose proof (held_addr _ _ Hwf Ha); lia|done|done|].
  rewrite E3 in H. subst r.
  destruct (Hr ra rb eq_refl) as (qa & qb & a2 & b2 & -> & -> & Hwa2 & Hwb2 & Hp & _).
  exists a, b, (pa ++ qa), (pb ++ qb), a2, b2. rewrite !app_assoc. by split_and!.
Qed.

(** ** Pushing *)

Lemma push_block_err b db e : push_block b db = Err e <->
  exists h, _head db = Some h
    /\ ((e = assert_exception /\ block_num b <= Z.max 0 (num h - _max_size db))
        \/ (e = unlinkable_block_exception
            /\ block_num b > Z.max 0 (num h - _max_size db)
            /\ previous b <> null_block_id
            /\ find_id (previous b) (_index db) = None)).
Proof.
  unfold push_block, push_item, previous_id.
  cbn [alloc with_index with_head _head _index _max_size new_item num data].
  destruct (_head db) as [h|]; cbn [rbind];
    [|split; [intros Hx; cbn in Hx; discriminate Hx|intros (h & Hh & _); discriminate Hh]].
  destruct (block_num b >? Z.max 0 (num h - _max_size db)) eqn:E; bool_to_prop;
    cbn [fc_assert rbind].
  2:{ split; [intros [= <-]; eauto|]. intros (h0 & [= <-] & [[-> _]|[_ [? _]]]); [done|lia]. }
  case_bool_decide as En; cbn [rbind].
  - split; [case_if; done|]. intros (h0 & [= <-] & [[_ ?]|(_ & _ & ? & _)]); [lia|done].
  - destruct (find_id (previous b) (_index db)) eqn:Ef; cbn [get_or rbind].
    + split; [case_if; done|]. intros (h0 & [= <-] & [[_ ?]|(_ & _ & _ & ?)]); [lia|done].
    + split.
      * intros [= <-]. exists h. split; [done|]. right. repeat split; [lia|done..].
      * intros (h0 & [= <-] & [[_ ?]|[-> _]]); [lia|done].
Qed.

Lemma insert_item_fresh it db :
  is_known_block (id it) db = false -> it ∈ insert_item it (_index db).
Proof.
  intros Hk. unfold is_known_block in Hk.
  destruct (find_id (id it) (_index db)) eqn:Ef; [done|].
  unfold insert_item. case_if; [|apply elem_of_app; right; by apply list_elem_of_singleton].
  apply existsb_exists in Hif as (x & Hx & Hxid).
  by rewrite (find_none _ _ Ef x Hx) in Hxid.
Qed.

Lemma push_item_ok b db db' :
  push_item (new_item (next_addr db) b) (alloc db) = Ok db' ->
  exists hd, _head db' = Some hd /\ _head db' = Some hd
    /\ (forall h, _head db = Some h -> block_num b <= num h -> hd = h)
    /\ (forall h, _head db = Some h -> block_num b > num h ->
          data hd = b /\ num hd = block_num b
          /\ forall it, it ∈ _index db' -> block_num b - _max_size db <= num it)
    /\ (is_known_block (block_id b) db = false -> 0 <= _max_size db ->
          exists it, it ∈ _index db' /\ data it = b).
Proof.
  intros H. unfold push_item in H.
  apply rbind_ok in H as (_ & _ & H). apply rbind_ok in H as (it & Hit & H).
  assert (Hf : data it = b /\ num it = block_num b /\ id it = block_id b).
  { cbn [alloc _head _index] in Hit. destruct (_head db); [|by res_inv].
    case_if_in Hit; by res_inv. }
  destruct Hf as (Hd & Hn & Hi). cbn [alloc with_index with_head _index _head _max_size] in H.
  pose proof (insert_item_fresh it db) as Hfresh. rewrite Hi in Hfresh.
  destruct (_head db) as [h|] eqn:Eh; [destruct (num it >? num h) eqn:E|]; res_inv;
    bool_to_prop; rewrite ?Hn in *; cbn.
  - exists it. do 2 (split; [done|]). split; [intros h0 [= <-]; lia|].
    split.
    + intros h0 _ _. do 2 (split; [done|]). intros x [Hx _]%list_elem_of_filter. lia.
    + intros Hk Hm. exists it. split; [|done].
      apply list_elem_of_filter. split; [rewrite Hn; pose proof (block_num_bound (data it)); lia|by apply Hfresh].
  - exists h. do 2 (split; [done|]). split; [intros h0 [= <-]; done|].
    split; [intros h0 [= <-]; lia|]. intros Hk _. exists it. auto.
  - exists it. do 2 (split; [done|]). split; [done|]. split; [done|].
    intros Hk _. exists it. auto.
Qed.

(** What a push changes: one new item, which may become the head. *)
Lemma push_block_shape b db h db' : push_block b db = Ok (h, db') ->
  exists hd it, h = Some hd /\ _head db' = Some hd /\ next_addr db' = S (next_addr db)
    /\ addr it = next_addr db /\ data it = b /\ num it = block_num b /\ id it = block_id b
    /\ (hd = it \/ _head db = Some hd) /\ (forall x, x ∈ _index db' -> x = it \/ x ∈ _index db).
Proof.
  intros H. unfold push_block in H. apply rbind_ok in H as (db1 & H & [= <- <-]).
  unfold push_item in H. apply rbind_ok in H as (_ & _ & H). apply rbind_ok in H as (it & Hit & H).
  assert (Hf : addr it = next_addr db /\ data it = b /\ num it = block_num b /\ id it = block_id b).
  { cbn [alloc _head _index] in Hit. destruct (_head db); [|by res_inv].
    case_if_in Hit; by res_inv. }
  destruct Hf as (Ha & Hd & Hn & Hi). cbn [alloc with_index with_head _index _head _max_size] in H.
  destruct (_head db) as [h|] eqn:Eh; [case_if_in H|]; res_inv; cbn.
  - exists it, it. split_and!; try done; [by left|]. intros x [_ Hx]%list_elem_of_filter. by apply elem_of_insert_item.
  - exists h, it. split_and!; try done; [by right|]. intros x Hx. by apply elem_of_insert_item.
  - exists it, it. split_and!; try done; [by left|]. intros x Hx. by apply elem_of_insert_item.
Qed.

(** A block whose id is in the index is not put into it a second time. *)
Lemma push_block_known b db h db' y : push_block b db = Ok (h, db') -> y ∈ _index db ->
  id y = block_id b -> forall x, x ∈ _index db' -> x ∈ _index db.
Proof.
  intros H Hy Ey. unfold push_block in H. apply rbind_ok in H as (db1 & H & [= <- <-]).
  unfold push_item in H. apply rbind_ok in H as (_ & _ & H). apply rbind_ok in H as (it & Hit & H).
  assert (Hi : id it = block_id b).
  { cbn [alloc _head _index] in Hit. destruct (_head db); [|by res_inv]. case_if_in Hit; by res_inv. }
  assert (Hsame : insert_item it (_index db) = _index db).
  { unfold insert_item. replace (existsb (has_id (id it)) (_index db)) with true; [done|]. symmetry.
    apply existsb_exists. exists y. split; [by apply list_elem_of_In|]. apply bool_decide_eq_true. congruence. }
  cbn [alloc with_index with_head _index _head _max_size] in H. rewrite Hsame in H.
  destruct (_head db) as [h'|] eqn:Eh; [case_if_in H|]; res_inv; cbn; [|done..].
  by intros x [_ Hx]%list_elem_of_filter.
Qed.

End ForkDb.
Arguments fork_item : clear implicits.
Arguments fork_database : clear implicits.

(** ** Properties *)

(** C21: in every state the fork database can reach, block ids are unique, the
    cache of unlinked blocks is empty (nothing ever enters it), and an item whose
    weak pointer to its predecessor still locks is linked to the item that holds
    the block named by its [previous] field. *)
Theorem fork_tree_invariant {Sum Tx} (db : fork_database Sum Tx) :
  reachable db ->
  NoDup (map id (_index db)) /\ _unlinked_index db = []
  /\ forall it p, it ∈ _index db -> lock db (prev it) = Some p ->
       id p = previous_id it /\ (addr p < addr it)%nat.
Proof.
  intros H. pose proof (reachable_wf _ H) as Hwf.
  split; [apply Hwf|]. split; [apply Hwf|]. intros it p Hit Hl.
  assert (Hh : it ∈ held db) by (apply held_in; tauto).
  split; [|by eapply prev_older]. apply lock_spec in Hl as [E Hp].
  by eapply (ok_prev _ _ (wf_items _ Hwf)).
Qed.

(** A small tree: a root, a block on it, and two rival blocks on that one. *)
Definition demo_bid (n s : Z) : block_id_type := mk_bid (endian_reverse_u32 n) s 0 0 0.
Definition demo_child (prev_id : block_id_type) (s : Z) : signed_block Z Z :=
  mk_block prev_id 0 0 0 None 0 (demo_bid (num_from_id prev_id + 1) s) [].
Definition try_push (db : fork_database Z Z) (b : signed_block Z Z) : fork_database Z Z :=
  match push_block b db with Ok (_, db') => db' | Err _ => db end.
Definition demo_fork : fork_database Z Z :=
  fold_left try_push
    [demo_child (demo_bid 7 1) 2; demo_child (demo_bid 8 2) 4; demo_child (demo_bid 8 2) 3;
     demo_child (demo_bid 9 3) 5]
    (start_block (demo_child (demo_bid 6 0) 1) empty_fork_db).

Lemma demo_fork_reachable : reachable demo_fork.
Proof.
  unfold demo_fork. generalize [demo_child (demo_bid 7 1) 2; demo_child (demo_bid 8 2) 4;
    demo_child (demo_bid 8 2) 3; demo_child (demo_bid 9 3) 5] as bs.
  assert (H : reachable (start_block (demo_child (demo_bid 6 0) 1) empty_fork_db))
    by (eapply reach_step; [apply reach_init|apply step_start]).
  intros bs. revert H. generalize (start_block (demo_child (demo_bid 6 0) 1) empty_fork_db).
  induction bs as [|b bs IH]; intros db H; [done|]. apply IH. unfold try_push.
  destruct (push_block b db) as [[h db']|] eqn:E; [|done].
  by eapply reach_step; [|eapply step_push].
Qed.

Lemma fork_tree_invariant_witness :
  NoDup (map id (_index demo_fork)) /\ length (_index demo_fork) = 5%nat.
Proof.
  split; [exact (proj1 (fork_tree_invariant _ demo_fork_reachable))|vm_compute; reflexivity].
Defined.

(** C22: [fetch_branch_from] always ends, and when it returns, the two branches
    start at the requested blocks, follow the [previous] links block by block, and end
    in blocks with one common predecessor.  When the ids carry the block numbers (and
    these stay below 2^32 - 1), that predecessor is the most recent common one: no other
    pair of a block of the one and a block of the other branch has one predecessor. *)
Theorem fetch_branch_from_spec {Sum Tx} (db : fork_database Sum Tx) first second :
  reachable db ->
  (exists r, fetch_branch_fuel (S (next_addr db)) first second db = Some r) /\
  forall ra rb, fetch_branch_from first second db = Ok (ra, rb) ->
    id <$> head ra = Some first /\ id <$> head rb = Some second
    /\ (forall k x y, ra !! k = Some x -> ra !! S k = Some y -> previous (data x) = id y)
    /\ (forall k x y, rb !! k = Some x -> rb !! S k = Some y -> previous (data x) = id y)
    /\ (exists a b, list.last ra = Some a /\ list.last rb = Some b /\ previous (data a) = previous (data b))
    /\ (ids_numbered db -> forall i j x y, ra !! i = Some x -> rb !! j = Some y ->
          previous (data x) = previous (data y) -> S i = length ra /\ S j = length rb).
Proof.
  intros H. pose proof (reachable_wf _ H) as Hwf.
  unfold fetch_branch_from, fetch_branch_fuel.
  destruct (find_id first (_index db)) as [a|] eqn:Ea; [|split; [by eexists|done]].
  destruct (find_id second (_index db)) as [b|] eqn:Eb; [|split; [by eexists|done]].
  pose proof (find_id_held _ _ _ Ea) as Ha. pose proof (find_id_held _ _ _ Eb) as Hb.
  destruct (descend_spec db (block_num (data b)) a Hwf (S (next_addr db)) a [])
    as (r1 & Hr1 & H1); [pose proof (held_addr _ _ Hwf Ha); lia|by apply walk_nil|]. rewrite Hr1.
  destruct r1 as [[a1 pa]|e]; [|split; [by eexists|done]].
  destruct (H1 a1 pa eq_refl) as (Hwa & _ & Haddr & _). clear H1.
  pose proof (descend_above _ _ _ _ _ _ _ Hr1 (Forall_nil_2 _)) as Habove. clear Hr1.
  destruct (descend_spec db (block_num (data a1)) b Hwf (S (next_addr db)) b [])
    as (r2 & -> & H2); [pose proof (held_addr _ _ Hwf Hb); lia|by apply walk_nil|].
  destruct r2 as [[b1 pb]|e]; [|split; [by eexists|done]].
  destruct (H2 b1 pb eq_refl) as (Hwb & _ & _ & _). clear H2.
  destruct (climb_spec db a b Hwf (S (next_addr db)) a1 b1 pa pb) as (r & -> & Hr);
    [pose proof (held_addr _ _ Hwf Ha); lia|done|done|].
  split; [by eexists|]. intros ra rb ->.
  destruct (Hr ra rb eq_refl) as (qa & qb & a2 & b2 & -> & -> & Hwa2 & Hwb2 & Hp & Hall).
  apply find_id_spec in Ea as [_ Ida], Eb as [_ Idb]. rewrite !app_assoc.
  split; [rewrite (proj1 (proj2 Hwa2)); by f_equal/=|].
  split; [rewrite (proj1 (proj2 Hwb2)); by f_equal/=|].
  split; [eapply (linked_ids db); [exact Hwf|apply Hwa2|apply Hwa2]|].
  split; [eapply (linked_ids db); [exact Hwf|apply Hwb2|apply Hwb2]|].
  split; [exists a2, b2; by rewrite !last_snoc|].
  intros Hn i j x y Hx Hy Hq. by eapply (only_ends db a b pa pb qa qb a2 b2).
Qed.

Lemma fetch_branch_from_spec_witness :
  exists ra rb, fetch_branch_from (demo_bid 10 5) (demo_bid 9 4) demo_fork = Ok (ra, rb)
    /\ id <$> head ra = Some (demo_bid 10 5) /\ length ra = 2%nat /\ length rb = 1%nat
    /\ forall i j x y, ra !! i = Some x -> rb !! j = Some y ->
         previous (data x) = previous (data y) -> S i = 2%nat /\ S j = 1%nat.
Proof.
  assert (Hn : ids_numbered demo_fork).
  { intros it Hit. assert (Hall : forallb (fun it => (num_from_id (id it) =? block_num (data it))
      && (block_num (data it) + 1 <? uint32_mod)) (held demo_fork) = true) by (vm_compute; reflexivity).
    apply list_elem_of_In in Hit. eapply forallb_forall in Hall; [|exact Hit]. bool_to_prop. by split. }
  pose proof (fetch_branch_from_spec demo_fork (demo_bid 10 5) (demo_bid 9 4)
                demo_fork_reachable) as [_ H].
  destruct (fetch_branch_from (demo_bid 10 5) (demo_bid 9 4) demo_fork) as [[ra rb]|e] eqn:E.
  - exists ra, rb. destruct (H ra rb eq_refl) as (Hh & _ & _ & _ & _ & Ho). specialize (Ho Hn).
    vm_compute in E. injection E as <- <-. split; [reflexivity|]. split; [exact Hh|].
    split; [reflexivity|]. split; [reflexivity|exact Ho].
  - vm_compute in E. discriminate E.
Defined.

(** Pushing a block.  It is refused exactly when it is older than the cached
    window, or names a predecessor the database does not hold; when it is taken,
    the head is the higher of the old head and the block (the old head on a
    tie), the block is in the index unless its id was known before, and when the
    head moved every block left in the index is within [_max_size] of it. *)
Theorem push_block_spec {Sum Tx} (b : signed_block Sum Tx) (db : fork_database Sum Tx) :
  (forall e, push_block b db = Err e <->
     exists h, _head db = Some h
       /\ ((e = assert_exception /\ block_num b <= Z.max 0 (num h - _max_size db))
           \/ (e = unlinkable_block_exception
               /\ block_num b > Z.max 0 (num h - _max_size db)
               /\ previous b <> null_block_id
               /\ find_id (previous b) (_index db) = None))) /\
  (forall h' db', push_block b db = Ok (h', db') ->
     exists hd, h' = Some hd /\ _head db' = Some hd
       /\ (forall h, _head db = Some h -> block_num b <= num h -> hd = h)
       /\ (forall h, _head db = Some h -> block_num b > num h ->
             data hd = b /\ num hd = block_num b
             /\ forall it, it ∈ _index db' -> block_num b - _max_size db <= num it)
       /\ (is_known_block (block_id b) db = false -> 0 <= _max_size db ->
             exists it, it ∈ _index db' /\ data it = b)).
Proof.
  split; [intros e; apply push_block_err|].
  intros h' db' H. unfold push_block in H. apply rbind_ok in H as (db1 & H & [= <- <-]).
  by apply push_item_ok.
Qed.
