(* ===== verification/UInt128.v ===== *)
(** * 128-bit unsigned integers (fc/uint128.hpp, fc/src/uint128.cpp)

    A pair of 64-bit words with carry, shift, multiplication by 32-bit limbs, a
    shift-and-subtract division and the full 256-bit product.  [val] is the
    number a pair of words denotes; the theorems state every routine as exact or
    modular arithmetic on it. *)

From S2P Require Import Prelude.

Record uint128 := mk_u128 { hi : Z; lo : Z }.

#[global] Instance uint128_eq_dec : EqDecision uint128.
Proof. solve_decision. Defined.

Definition u64_not (x : Z) : Z := uint64_mod - 1 - x.
Definition b2z (b : bool) : Z := if b then 1 else 0.

(** Constructors from 64-bit words. *)
Definition of_uint64 (l : Z) : uint128 := mk_u128 0 l.
Definition of_int64 (l : Z) : uint128 := mk_u128 (wrap64 (- b2z (l <? 0))) (wrap64 l).

Definition u_eqb (a b : uint128) : bool := (hi a =? hi b) && (lo a =? lo b).
Definition u_ltb (a b : uint128) : bool :=
  if hi a =? hi b then lo a <? lo b else hi a <? hi b.
Definition u_gtb (a b : uint128) : bool := u_ltb b a.
Definition u_geb (a b : uint128) : bool := u_eqb a b || u_gtb a b.
Definition u_leb (a b : uint128) : bool := u_eqb a b || u_ltb a b.
Definition u_is_zero (a : uint128) : bool := negb (negb (hi a =? 0) || negb (lo a =? 0)).

Definition u_not (a : uint128) : uint128 := mk_u128 (u64_not (hi a)) (u64_not (lo a)).
Definition u_incr (a : uint128) : uint128 :=
  let l := wrap64 (lo a + 1) in mk_u128 (wrap64 (hi a + b2z (l =? 0))) l.
Definition u_decr (a : uint128) : uint128 :=
  mk_u128 (wrap64 (hi a - b2z (lo a =? 0))) (wrap64 (lo a - 1)).
Definition u_neg (a : uint128) : uint128 := u_incr (u_not a).

(** [|=], [&=] and [^=]. *)
Definition u_or_assign (a u : uint128) : uint128 :=
  mk_u128 (Z.lor (hi a) (hi u)) (Z.lor (lo a) (lo u)).
Definition u_and_assign (a u : uint128) : uint128 :=
  mk_u128 (Z.land (hi a) (hi u)) (Z.land (lo a) (lo u)).
Definition u_xor_assign (a u : uint128) : uint128 :=
  mk_u128 (Z.lxor (hi a) (hi u)) (Z.lxor (lo a) (lo u)).

(** The free [operator |]: its body is [uint128(l)=(r)], an assignment. *)
Definition u_or (l r : uint128) : uint128 := r.

Definition u_add (a u : uint128) : uint128 :=
  let old := lo a in
  let l := wrap64 (lo a + lo u) in
  mk_u128 (wrap64 (hi a + (hi u + b2z (l <? old)))) l.
Definition u_sub (a u : uint128) : uint128 := u_add a (u_neg u).

Definition u_to_integer (a : uint128) : result Z :=
  check hi a =? 0;
  let lo32 := wrap32 (lo a) in
  check lo a =? lo32;
  Ok lo32.
Definition u_to_uint64 (a : uint128) : result Z :=
  check hi a =? 0;
  Ok (lo a).

(** Shifts; a count below 128 always passes the checks of [to_integer]. *)
Definition u_shl_bits (a : uint128) (n : Z) : uint128 :=
  let '(n, h, l) := if n >=? 64 then (n - 64, lo a, 0) else (n, hi a, lo a) in
  if negb (n =? 0) then
    let h := wrap64 (Z.shiftl h n) in
    let mask := u64_not (Z.shiftr (uint64_mod - 1) n) in
    mk_u128 (Z.lor h (Z.shiftr (Z.land l mask) (64 - n))) (wrap64 (Z.shiftl l n))
  else mk_u128 h l.
Definition u_shl (a rhs : uint128) : uint128 :=
  if u_geb rhs (of_uint64 128) then mk_u128 0 0 else u_shl_bits a (wrap32 (lo rhs)).

Definition u_shr_bits (a : uint128) (n : Z) : uint128 :=
  let '(n, h, l) := if n >=? 64 then (n - 64, 0, hi a) else (n, hi a, lo a) in
  if negb (n =? 0) then
    let l := Z.shiftr l n in
    let mask := u64_not (wrap64 (Z.shiftl (uint64_mod - 1) n)) in
    mk_u128 (Z.shiftr h n) (Z.lor l (wrap64 (Z.shiftl (Z.land h mask) (64 - n))))
  else mk_u128 h l.
Definition u_shr (a rhs : uint128) : uint128 :=
  if u_geb rhs (of_uint64 128) then mk_u128 0 0 else u_shr_bits a (wrap32 (lo rhs)).

(** [*=]: products of 32-bit limbs, added from the most significant down. *)
Definition u_add64 (a : uint128) (x : Z) : uint128 := u_add a (of_uint64 x).
Definition u_mul (a b : uint128) : uint128 :=
  let a0 := wrap32 (lo a) in
  let a1 := wrap32 (Z.shiftr (lo a) 32) in
  let a2 := wrap32 (hi a) in
  let a3 := wrap32 (Z.shiftr (hi a) 32) in
  let b0 := wrap32 (lo b) in
  let b1 := wrap32 (Z.shiftr (lo b) 32) in
  let b2 := wrap32 (hi b) in
  let b3 := wrap32 (Z.shiftr (hi b) 32) in
  let r := mk_u128 0 (wrap64 (a3 * b0)) in
  let r := u_add64 r (wrap64 (a2 * b1)) in
  let r := u_add64 r (wrap64 (a1 * b2)) in
  let r := u_add64 r (wrap64 (a0 * b3)) in
  let r := u_shl r (of_uint64 32) in
  let r := u_add64 r (wrap64 (a2 * b0)) in
  let r := u_add64 r (wrap64 (a1 * b1)) in
  let r := u_add64 r (wrap64 (a0 * b2)) in
  let r := u_shl r (of_uint64 32) in
  let r := u_add64 r (wrap64 (a1 * b0)) in
  let r := u_add64 r (wrap64 (a0 * b1)) in
  let r := u_shl r (of_uint64 32) in
  u_add64 r (wrap64 (a0 * b0)).

(** [divide]: scale the divisor up, then subtract it back down. *)
Fixpoint scale_up (fuel : nat) (n d x : uint128) : option (uint128 * uint128) :=
  match fuel with
  | O => None
  | S f =>
      if u_geb n d
         && u_is_zero (u_and_assign (u_shr d (of_uint64 127)) (of_uint64 1))
      then scale_up f n (u_shl d (of_uint64 1)) (u_shl x (of_uint64 1))
      else Some (d, x)
  end.

Fixpoint subtract_down (fuel : nat) (n d x answer : uint128) : option (uint128 * uint128) :=
  match fuel with
  | O => None
  | S f =>
      if negb (u_is_zero x) then
        let '(n, answer) :=
          if u_geb n d then (u_sub n d, u_or_assign answer x) else (n, answer) in
        subtract_down f n (u_shr d (of_uint64 1)) (u_shr x (of_uint64 1)) answer
      else Some (answer, n)
  end.

(** Quotient and remainder; [divide by zero] is a [std::domain_error]. *)
Definition u_divide (n d : uint128) : option (result (uint128 * uint128)) :=
  if u_is_zero d then Some (Err divide_by_zero_exception)
  else
    match scale_up 129 n d (of_uint64 1) with
    | None => None
    | Some (d, x) =>
        match subtract_down 129 n d x (of_uint64 0) with
        | None => None
        | Some qr => Some (Ok qr)
        end
    end.

Definition u_mod (a b : uint128) : option (result uint128) :=
  match u_divide a b with
  | Some (Ok (_, r)) => Some (Ok r)
  | Some (Err e) => Some (Err e)
  | None => None
  end.

(** The number a pair of words denotes. *)
Definition val (a : uint128) : Z := hi a * uint64_mod + lo a.
Definition of_val (z : Z) : uint128 := mk_u128 (z / uint64_mod) (z mod uint64_mod).

(** [/=] goes through the 128-bit integer of Boost. *)
Definition u_div (a b : uint128) : result uint128 :=
  let self := wrap128 (wrap128 (Z.shiftl (hi a) 64) + lo a) in
  let other := wrap128 (wrap128 (Z.shiftl (hi b) 64) + lo b) in
  if other =? 0 then Err divide_by_zero_exception
  else
    let self := self / other in
    Ok (mk_u128 (wrap64 (Z.shiftr self 64)) (wrap64 (Z.shiftr (wrap128 (Z.shiftl self 64)) 64))).

(** The 256-bit product, high and low halves. *)
Definition full_product (a b : uint128) : uint128 * uint128 :=
  let s := u_mul (of_uint64 (lo a)) (of_uint64 (lo b)) in
  let r := u_mul (of_uint64 (hi a)) (of_uint64 (lo b)) in
  let q := u_mul (of_uint64 (lo a)) (of_uint64 (hi b)) in
  let p := u_mul (of_uint64 (hi a)) (of_uint64 (hi b)) in
  let y0 := lo s in
  let acc := u_add64 (u_add64 (of_uint64 (hi s)) (lo q)) (lo r) in
  let y1 := lo acc in
  let acc := u_add64 (u_add64 (u_add64 (of_uint64 (hi acc)) (hi q)) (hi r)) (lo p) in
  let y2 := lo acc in
  let y3 := wrap64 (hi acc + hi p) in
  (mk_u128 y3 y2, mk_u128 y1 y0).

(** ** Lemmas: words and values *)

Definition wf_u (a : uint128) : Prop :=
  0 <= hi a < uint64_mod /\ 0 <= lo a < uint64_mod.

Lemma val_bound a : wf_u a -> 0 <= val a < uint128_mod.
Proof. unfold wf_u, val. lia. Qed.

Lemma val_inj a b : wf_u a -> wf_u b -> val a = val b -> a = b.
Proof.
  destruct a as [ah al], b as [bh bl]. unfold wf_u, val. cbn. intros Ha Hb E.
  f_equal; lia.
Qed.

Lemma wf_of_uint64 x : 0 <= x < uint64_mod -> wf_u (of_uint64 x).
Proof. intros H. split; cbn; lia. Qed.

Lemma val_of_uint64 x : val (of_uint64 x) = x.
Proof. done. Qed.

Lemma wf_of_val z : 0 <= z < uint128_mod -> wf_u (of_val z) /\ val (of_val z) = z.
Proof.
  intros H. unfold of_val, wf_u, val. cbn [hi lo].
  pose proof (Z.div_mod z uint64_mod ltac:(lia)).
  pose proof (Z.mod_pos_bound z uint64_mod ltac:(lia)).
  assert (0 <= z / uint64_mod) by (apply Z.div_pos; lia).
  lia.
Qed.

Lemma u_eqb_val a b : wf_u a -> wf_u b -> u_eqb a b = (val a =? val b).
Proof.
  unfold wf_u, u_eqb, val. intros Ha Hb.
  destruct (Z.eqb_spec (hi a) (hi b)), (Z.eqb_spec (lo a) (lo b)); cbn [andb]; symmetry;
    first [apply Z.eqb_eq; lia|apply Z.eqb_neq; lia].
Qed.

Lemma u_ltb_val a b : wf_u a -> wf_u b -> u_ltb a b = (val a <? val b).
Proof.
  unfold wf_u, u_ltb, val. intros Ha Hb.
  destruct (Z.eqb_spec (hi a) (hi b)).
  - destruct (Z.ltb_spec (lo a) (lo b)); symmetry;
      first [apply Z.ltb_lt; lia|apply Z.ltb_ge; lia].
  - destruct (Z.ltb_spec (hi a) (hi b)); symmetry;
      first [apply Z.ltb_lt; lia|apply Z.ltb_ge; lia].
Qed.

Lemma u_geb_val a b : wf_u a -> wf_u b -> u_geb a b = (val b <=? val a).
Proof.
  intros Ha Hb. unfold u_geb, u_gtb. rewrite u_eqb_val, u_ltb_val by done.
  destruct (Z.eqb_spec (val a) (val b)), (Z.ltb_spec (val b) (val a)); cbn [orb]; symmetry;
    first [apply Z.leb_le; lia|apply Z.leb_gt; lia].
Qed.

Lemma u_is_zero_val a : wf_u a -> u_is_zero a = (val a =? 0).
Proof.
  unfold wf_u, u_is_zero, val. intros Ha.
  destruct (Z.eqb_spec (hi a) 0), (Z.eqb_spec (lo a) 0); cbn [negb orb]; symmetry;
    first [apply Z.eqb_eq; lia|apply Z.eqb_neq; lia].
Qed.

(** [wrap64] of a number within one modulus above the range. *)
Lemma wrap64_carry x : 0 <= x < 2 * uint64_mod ->
  wrap64 x = if x <? uint64_mod then x else x - uint64_mod.
Proof.
  intros H. unfold wrap64. destruct (Z.ltb_spec x uint64_mod).
  - apply Z.mod_small; lia.
  - symmetry. apply (Z.mod_unique _ _ 1); lia.
Qed.

Lemma u_add_spec a b : wf_u a -> wf_u b ->
  wf_u (u_add a b) /\ val (u_add a b) = wrap128 (val a + val b).
Proof.
  intros Ha Hb. unfold u_add. split; [split; cbn; apply wrap64_bound|].
  destruct a as [ah al], b as [bh bl]. unfold wf_u, val in *. cbn [hi lo] in *.
  rewrite (wrap64_carry (al + bl)) by lia.
  destruct (Z.ltb_spec (al + bl) uint64_mod) as [Hc|Hc].
  - destruct (Z.ltb_spec (al + bl) al); [lia|]. cbn [b2z].
    rewrite (wrap64_carry (ah + (bh + 0))) by lia. unfold wrap128.
    destruct (Z.ltb_spec (ah + (bh + 0)) uint64_mod);
      [apply (Z.mod_unique _ _ 0)|apply (Z.mod_unique _ _ 1)]; lia.
  - destruct (Z.ltb_spec (al + bl - uint64_mod) al); [|lia]. cbn [b2z].
    rewrite (wrap64_carry (ah + (bh + 1))) by lia. unfold wrap128.
    destruct (Z.ltb_spec (ah + (bh + 1)) uint64_mod);
      [apply (Z.mod_unique _ _ 0)|apply (Z.mod_unique _ _ 1)]; lia.
Qed.

Lemma u_neg_spec a : wf_u a -> wf_u (u_neg a) /\ val (u_neg a) = wrap128 (- val a).
Proof.
  intros Ha. unfold u_neg, u_incr, u_not, u64_not. split; [split; cbn; apply wrap64_bound|].
  destruct a as [ah al]. unfold wf_u, val in *. cbn [hi lo] in *.
  rewrite (wrap64_carry (uint64_mod - 1 - al + 1)) by lia.
  destruct (Z.ltb_spec (uint64_mod - 1 - al + 1) uint64_mod).
  - destruct (Z.eqb_spec (uint64_mod - 1 - al + 1) 0); [lia|]. cbn [b2z].
    rewrite wrap64_small by lia. unfold wrap128. apply (Z.mod_unique _ _ (-1)); lia.
  - destruct (Z.eqb_spec (uint64_mod - 1 - al + 1 - uint64_mod) 0); [|lia]. cbn [b2z].
    rewrite (wrap64_carry (uint64_mod - 1 - ah + 1)) by lia. unfold wrap128.
    destruct (Z.ltb_spec (uint64_mod - 1 - ah + 1) uint64_mod);
      [apply (Z.mod_unique _ _ (-1))|apply (Z.mod_unique _ _ 0)]; lia.
Qed.

Lemma u_sub_spec a b : wf_u a -> wf_u b ->
  wf_u (u_sub a b) /\ val (u_sub a b) = wrap128 (val a - val b).
Proof.
  intros Ha Hb. unfold u_sub. destruct (u_neg_spec b Hb) as [Hn Hv].
  destruct (u_add_spec a (u_neg b) Ha Hn) as [Hw Hs]. split; [done|].
  rewrite Hs, Hv. unfold wrap128. rewrite Zplus_mod_idemp_r. f_equal.
Qed.

(** A multiple of [2^n] or-ed with a number below [2^n] is their sum. *)
Lemma lor_high_low x y n : 0 <= n -> 0 <= y < 2 ^ n -> Z.lor (x * 2 ^ n) y = x * 2 ^ n + y.
Proof.
  intros Hn Hy. symmetry. apply Z.add_nocarry_lor. apply Z.bits_inj'. intros i Hi.
  rewrite Z.land_spec, Z.bits_0. destruct (Z.lt_ge_cases i n).
  - by rewrite Z.mul_pow2_bits_low.
  - destruct (Z.eq_dec y 0) as [->|]; [by rewrite Z.bits_0, andb_false_r|].
    rewrite (Z.bits_above_log2 y i), andb_false_r; [done|lia|].
    apply Z.log2_lt_pow2; [lia|]. apply Z.lt_le_trans with (2 ^ n); [lia|].
    apply Z.pow_le_mono_r; lia.
Qed.

(** Powers of two that make up a word. *)
Lemma pow_split n : 0 <= n <= 64 ->
  0 < 2 ^ n /\ 0 < 2 ^ (64 - n) /\ 2 ^ n * 2 ^ (64 - n) = uint64_mod.
Proof.
  intros H. rewrite <- Z.pow_add_r by lia. replace (n + (64 - n)) with 64 by lia.
  repeat split; apply Z.pow_pos_nonneg; lia.
Qed.

Lemma wrap64_shiftl x n : 0 <= x -> 0 <= n <= 64 ->
  wrap64 (Z.shiftl x n) = (x mod 2 ^ (64 - n)) * 2 ^ n.
Proof.
  intros Hx Hn. destruct (pow_split n Hn) as (Hp & Hq & E).
  unfold wrap64. rewrite Z.shiftl_mul_pow2 by lia. rewrite <- E.
  rewrite (Z.mul_comm (2 ^ n)). apply Z.mul_mod_distr_r; lia.
Qed.

Lemma high_bits l n : 0 <= l < uint64_mod -> 0 < n < 64 ->
  Z.shiftr (Z.land l (u64_not (Z.shiftr (uint64_mod - 1) n))) (64 - n) = l / 2 ^ (64 - n).
Proof.
  intros Hl Hn. destruct (pow_split n ltac:(lia)) as (Hp & Hq & E).
  assert (Hm : u64_not (Z.shiftr (uint64_mod - 1) n) = (2 ^ n - 1) * 2 ^ (64 - n)).
  { unfold u64_not. rewrite Z.shiftr_div_pow2 by lia.
    replace ((uint64_mod - 1) / 2 ^ n) with (2 ^ (64 - n) - 1); [lia|].
    apply (Z.div_unique _ _ _ (2 ^ n - 1)); [lia|]. nia. }
  rewrite Hm, Z.shiftr_land, !Z.shiftr_div_pow2 by lia. rewrite Z.div_mul by lia.
  replace (2 ^ n - 1) with (Z.ones n) by (rewrite Z.ones_equiv; lia).
  rewrite Z.land_ones by lia. apply Z.mod_small.
  split; [apply Z.div_pos; lia|]. apply Z.div_lt_upper_bound; nia.
Qed.

Lemma low_bits h n : 0 <= h < uint64_mod -> 0 < n < 64 ->
  wrap64 (Z.shiftl (Z.land h (u64_not (wrap64 (Z.shiftl (uint64_mod - 1) n)))) (64 - n))
  = (h mod 2 ^ n) * 2 ^ (64 - n).
Proof.
  intros Hh Hn. destruct (pow_split n ltac:(lia)) as (Hp & Hq & E).
  rewrite (wrap64_shiftl (uint64_mod - 1)) by lia.
  replace ((uint64_mod - 1) mod 2 ^ (64 - n)) with (2 ^ (64 - n) - 1)
    by (apply (Z.mod_unique _ _ (2 ^ n - 1)); lia).
  replace (u64_not ((2 ^ (64 - n) - 1) * 2 ^ n)) with (Z.ones n)
    by (rewrite Z.ones_equiv; unfold u64_not; lia).
  rewrite Z.land_ones by lia. rewrite wrap64_shiftl.
  - replace (64 - (64 - n)) with n by lia. f_equal. apply Z.mod_mod. lia.
  - apply Z.mod_pos_bound; lia.
  - lia.
Qed.

(** ** Lemmas: shifts *)

Lemma shl_word h l n : 0 <= h < uint64_mod -> 0 <= l < uint64_mod -> 0 < n < 64 ->
  let a := mk_u128 (Z.lor (wrap64 (Z.shiftl h n))
              (Z.shiftr (Z.land l (u64_not (Z.shiftr (uint64_mod - 1) n))) (64 - n)))
              (wrap64 (Z.shiftl l n)) in
  wf_u a /\ val a = wrap128 ((h * uint64_mod + l) * 2 ^ n).
Proof.
  intros Hh Hl Hn. destruct (pow_split n ltac:(lia)) as (Hp & Hq & E).
  cbn zeta. rewrite high_bits, !wrap64_shiftl by lia.
  set (A := 2 ^ n) in *. set (B := 2 ^ (64 - n)) in *.
  pose proof (Z.div_mod h B ltac:(lia)). pose proof (Z.mod_pos_bound h B ltac:(lia)).
  pose proof (Z.div_mod l B ltac:(lia)). pose proof (Z.mod_pos_bound l B ltac:(lia)).
  assert (0 <= l / B < A) by (split; [apply Z.div_pos|apply Z.div_lt_upper_bound]; nia).
  assert (0 <= h / B) by (apply Z.div_pos; lia).
  change (h mod B * A) with (h mod B * 2 ^ n).
  rewrite lor_high_low by (fold A; lia). unfold wf_u, val, wrap128. cbn [hi lo]. fold A.
  split; [split; nia|].
  apply (Z.mod_unique _ _ (h / B)); [left; nia|].
  change uint128_mod with (uint64_mod * uint64_mod). rewrite <- E. nia.
Qed.

Lemma u_shl_bits_spec a n : wf_u a -> 0 <= n < 128 ->
  wf_u (u_shl_bits a n) /\ val (u_shl_bits a n) = wrap128 (val a * 2 ^ n).
Proof.
  intros [Hh Hl] Hn. unfold u_shl_bits.
  destruct (Z.geb_spec n 64) as [H64|H64].
  - destruct (Z.eqb_spec (n - 64) 0) as [E|E]; cbn [negb].
    + split; [split; cbn; lia|]. unfold val, wrap128. cbn [hi lo].
      replace n with 64 by lia. apply (Z.mod_unique _ _ (hi a)); lia.
    + destruct (shl_word (lo a) 0 (n - 64)) as [Hw Hv]; [lia..|].
      split; [exact Hw|]. rewrite Hv. unfold val, wrap128.
      replace (2 ^ n) with (uint64_mod * 2 ^ (n - 64))
        by (change uint64_mod with (2 ^ 64); rewrite <- Z.pow_add_r by lia; f_equal; lia).
      replace ((hi a * uint64_mod + lo a) * (uint64_mod * 2 ^ (n - 64)))
        with ((lo a * uint64_mod + 0) * 2 ^ (n - 64) + hi a * 2 ^ (n - 64) * uint128_mod) by lia.
      symmetry. apply Z_mod_plus_full.
  - destruct (Z.eqb_spec n 0) as [->|E]; cbn [negb].
    + split; [done|]. unfold val. cbn [hi lo]. rewrite Z.mul_1_r.
      symmetry. apply wrap128_small. lia.
    + apply shl_word; lia.
Qed.

Lemma u_shl_spec a n : wf_u a -> 0 <= n < 128 ->
  wf_u (u_shl a (of_uint64 n)) /\ val (u_shl a (of_uint64 n)) = wrap128 (val a * 2 ^ n).
Proof.
  intros Ha Hn. unfold u_shl. rewrite u_geb_val by (apply wf_of_uint64; lia).
  rewrite !val_of_uint64. destruct (Z.leb_spec 128 n); [lia|]. cbn [of_uint64 lo].
  rewrite wrap32_small by lia. by apply u_shl_bits_spec.
Qed.

Lemma shr_word h l n : 0 <= h < uint64_mod -> 0 <= l < uint64_mod -> 0 < n < 64 ->
  let a := mk_u128 (Z.shiftr h n)
    (Z.lor (Z.shiftr l n)
       (wrap64 (Z.shiftl (Z.land h (u64_not (wrap64 (Z.shiftl (uint64_mod - 1) n)))) (64 - n)))) in
  wf_u a /\ val a = (h * uint64_mod + l) / 2 ^ n.
Proof.
  intros Hh Hl Hn. destruct (pow_split n ltac:(lia)) as (Hp & Hq & E).
  cbn zeta. rewrite low_bits, !Z.shiftr_div_pow2 by lia.
  set (A := 2 ^ n) in *. set (B := 2 ^ (64 - n)) in *.
  pose proof (Z.div_mod h A ltac:(lia)). pose proof (Z.mod_pos_bound h A ltac:(lia)).
  pose proof (Z.div_mod l A ltac:(lia)). pose proof (Z.mod_pos_bound l A ltac:(lia)).
  assert (0 <= l / A < B) by (split; [apply Z.div_pos|apply Z.div_lt_upper_bound]; nia).
  assert (0 <= h / A) by (apply Z.div_pos; lia).
  change (h mod A * B) with (h mod A * 2 ^ (64 - n)).
  rewrite Z.lor_comm, lor_high_low by (fold B; lia). fold B.
  unfold wf_u, val. cbn [hi lo].
  split; [split; nia|].
  apply (Z.div_unique _ _ _ (l mod A)); [left; lia|]. rewrite <- E. nia.
Qed.

Lemma u_shr_bits_spec a n : wf_u a -> 0 <= n < 128 ->
  wf_u (u_shr_bits a n) /\ val (u_shr_bits a n) = val a / 2 ^ n.
Proof.
  intros [Hh Hl] Hn. unfold u_shr_bits.
  assert (Hsplit : 64 <= n -> val a / 2 ^ n = hi a / 2 ^ (n - 64)).
  { intros H. replace n with (64 + (n - 64)) at 1 by lia.
    rewrite Z.pow_add_r, <- Z.div_div by (try apply Z.pow_pos_nonneg; lia).
    f_equal. unfold val. symmetry. apply (Z.div_unique _ _ _ (lo a)); lia. }
  destruct (Z.geb_spec n 64) as [H64|H64].
  - rewrite Hsplit by lia. destruct (Z.eqb_spec (n - 64) 0) as [E|E]; cbn [negb].
    + rewrite E. unfold val. cbn [hi lo]. rewrite Z.div_1_r. split; [split; cbn; lia|lia].
    + destruct (shr_word 0 (hi a) (n - 64)) as [Hw Hv]; [lia..|].
      split; [exact Hw|]. rewrite Hv. f_equal.
  - destruct (Z.eqb_spec n 0) as [->|E]; cbn [negb].
    + split; [done|]. unfold val. cbn [hi lo]. by rewrite Z.div_1_r.
    + apply shr_word; lia.
Qed.

Lemma u_shr_spec a n : wf_u a -> 0 <= n < 128 ->
  wf_u (u_shr a (of_uint64 n)) /\ val (u_shr a (of_uint64 n)) = val a / 2 ^ n.
Proof.
  intros Ha Hn. unfold u_shr. rewrite u_geb_val by (apply wf_of_uint64; lia).
  rewrite !val_of_uint64. destruct (Z.leb_spec 128 n); [lia|]. cbn [of_uint64 lo].
  rewrite wrap32_small by lia. by apply u_shr_bits_spec.
Qed.

(** ** Lemmas: multiplication *)

Lemma u_add64_spec a x : wf_u a -> 0 <= x < uint64_mod ->
  wf_u (u_add64 a x) /\ val (u_add64 a x) = wrap128 (val a + x).
Proof. intros Ha Hx. apply u_add_spec; [done|]. by apply wf_of_uint64. Qed.

(** A step of the multiplication keeps the value up to a multiple of [2^128]. *)
Definition holds (a : uint128) (z : Z) : Prop := wf_u a /\ val a = wrap128 z.

Lemma holds_add a z x y : holds a z -> 0 <= x < uint32_mod -> 0 <= y < uint32_mod ->
  holds (u_add64 a (wrap64 (x * y))) (z + x * y).
Proof.
  intros [Hw Hv] Hx Hy. assert (0 <= x * y < uint64_mod) by nia.
  rewrite wrap64_small by done. destruct (u_add64_spec a (x * y) Hw) as [Hw' Hv']; [done|].
  split; [done|]. rewrite Hv', Hv. unfold wrap128. apply Zplus_mod_idemp_l.
Qed.

Lemma holds_shl a z : holds a z -> holds (u_shl a (of_uint64 32)) (z * 2 ^ 32).
Proof.
  intros [Hw Hv]. destruct (u_shl_spec a 32 Hw) as [Hw' Hv']; [lia|].
  split; [done|]. rewrite Hv', Hv. unfold wrap128. apply Zmult_mod_idemp_l.
Qed.

Lemma limbs x : 0 <= x < uint64_mod ->
  x = wrap32 x + uint32_mod * wrap32 (Z.shiftr x 32)
  /\ 0 <= wrap32 x < uint32_mod /\ 0 <= wrap32 (Z.shiftr x 32) < uint32_mod.
Proof.
  intros H. pose proof (wrap32_bound x). pose proof (wrap32_bound (Z.shiftr x 32)).
  split; [|done]. rewrite Z.shiftr_div_pow2 by lia. change (2 ^ 32) with uint32_mod.
  assert (0 <= x / uint32_mod < uint32_mod)
    by (split; [apply Z.div_pos; lia|apply Z.div_lt_upper_bound; lia]).
  rewrite (wrap32_small (x / uint32_mod)) by done.
  unfold wrap32. pose proof (Z.div_mod x uint32_mod ltac:(lia)). lia.
Qed.

Lemma u_mul_spec a b : wf_u a -> wf_u b ->
  wf_u (u_mul a b) /\ val (u_mul a b) = wrap128 (val a * val b).
Proof.
  intros [Hah Hal] [Hbh Hbl]. unfold u_mul.
  destruct (limbs (lo a) Hal) as (Ea0 & H0 & H1), (limbs (hi a) Hah) as (Ea1 & H2 & H3).
  destruct (limbs (lo b) Hbl) as (Eb0 & K0 & K1), (limbs (hi b) Hbh) as (Eb1 & K2 & K3).
  set (a0 := wrap32 (lo a)) in *. set (a1 := wrap32 (Z.shiftr (lo a) 32)) in *.
  set (a2 := wrap32 (hi a)) in *. set (a3 := wrap32 (Z.shiftr (hi a) 32)) in *.
  set (b0 := wrap32 (lo b)) in *. set (b1 := wrap32 (Z.shiftr (lo b) 32)) in *.
  set (b2 := wrap32 (hi b)) in *. set (b3 := wrap32 (Z.shiftr (hi b) 32)) in *.
  assert (Va : val a = (a2 + uint32_mod * a3) * uint64_mod + (a0 + uint32_mod * a1))
    by (unfold val; lia).
  assert (Vb : val b = (b2 + uint32_mod * b3) * uint64_mod + (b0 + uint32_mod * b1))
    by (unfold val; lia).
  rewrite Va, Vb.
  clearbody a0 a1 a2 a3 b0 b1 b2 b3. clear Ea0 Ea1 Eb0 Eb1 Hah Hal Hbh Hbl Va Vb.
  assert (Hst : holds (mk_u128 0 (wrap64 (a3 * b0))) (a3 * b0)).
  { assert (0 <= a3 * b0 < uint64_mod) by nia. rewrite wrap64_small by done.
    split; [by apply wf_of_uint64|]. rewrite wrap128_small by lia. done. }
  pose proof (holds_add _ _ a2 b1 Hst ltac:(done) ltac:(done)) as G1.
  pose proof (holds_add _ _ a1 b2 G1 ltac:(done) ltac:(done)) as G2.
  pose proof (holds_shl _ _ (holds_add _ _ a0 b3 G2 ltac:(done) ltac:(done))) as G3.
  pose proof (holds_add _ _ a2 b0 G3 ltac:(done) ltac:(done)) as G4.
  pose proof (holds_add _ _ a1 b1 G4 ltac:(done) ltac:(done)) as G5.
  pose proof (holds_shl _ _ (holds_add _ _ a0 b2 G5 ltac:(done) ltac:(done))) as G6.
  pose proof (holds_add _ _ a1 b0 G6 ltac:(done) ltac:(done)) as G7.
  pose proof (holds_shl _ _ (holds_add _ _ a0 b1 G7 ltac:(done) ltac:(done))) as G8.
  destruct (holds_add _ _ a0 b0 G8 ltac:(done) ltac:(done)) as [Hw Hv].
  split; [exact Hw|]. rewrite Hv. unfold wrap128.
  rewrite <- (Z_mod_plus_full _ (a3 * b1 + a2 * b2 + a1 * b3
    + uint32_mod * (a3 * b2 + a2 * b3) + uint64_mod * (a3 * b3)) uint128_mod).
  f_equal. change (2 ^ 32) with uint32_mod. ring.
Qed.

(** ** Lemmas: division *)

Lemma lor_bound x y n : 0 <= n -> 0 <= x < 2 ^ n -> 0 <= y < 2 ^ n -> 0 <= Z.lor x y < 2 ^ n.
Proof.
  intros Hn Hx Hy. split; [apply Z.lor_nonneg; lia|].
  destruct (Z.eq_dec (Z.lor x y) 0) as [->|Hne]; [apply Z.pow_pos_nonneg; lia|].
  assert (0 <= Z.lor x y) by (apply Z.lor_nonneg; lia).
  destruct (Z.eq_dec x 0) as [->|]; [rewrite Z.lor_0_l in *; lia|].
  destruct (Z.eq_dec y 0) as [->|]; [rewrite Z.lor_0_r in *; lia|].
  apply Z.log2_lt_pow2; [lia|]. rewrite Z.log2_lor by lia.
  apply Z.max_lub_lt; apply Z.log2_lt_pow2; lia.
Qed.

Lemma val_or a b : wf_u a -> wf_u b ->
  wf_u (u_or_assign a b) /\ val (u_or_assign a b) = Z.lor (val a) (val b).
Proof.
  intros [Hah Hal] [Hbh Hbl]. change uint64_mod with (2 ^ 64) in *.
  assert (Hh : 0 <= Z.lor (hi a) (hi b) < 2 ^ 64) by (apply lor_bound; lia).
  assert (Hl : 0 <= Z.lor (lo a) (lo b) < 2 ^ 64) by (apply lor_bound; lia).
  split; [split; cbn; done|]. unfold val. cbn [hi lo u_or_assign].
  change uint64_mod with (2 ^ 64).
  rewrite <- !lor_high_low by lia. rewrite <- !Z.shiftl_mul_pow2 by lia.
  rewrite Z.shiftl_lor, !Z.lor_assoc. f_equal.
  rewrite <- !Z.lor_assoc. f_equal. apply Z.lor_comm.
Qed.

Lemma top_bit d : wf_u d ->
  u_is_zero (u_and_assign (u_shr d (of_uint64 127)) (of_uint64 1)) = (val d <? 2 ^ 127).
Proof.
  intros Hd. destruct (u_shr_spec d 127 Hd) as [[Hwh Hwl] Hv]; [lia|].
  pose proof (val_bound d Hd) as Hb.
  assert (E : hi (u_shr d (of_uint64 127)) = 0
            /\ lo (u_shr d (of_uint64 127)) = if val d <? 2 ^ 127 then 0 else 1).
  { revert Hv. unfold val at 1. destruct (Z.ltb_spec (val d) (2 ^ 127)) as [Hlt|Hge].
    - rewrite Z.div_small by lia. lia.
    - replace (val d / 2 ^ 127) with 1 by (apply (Z.div_unique _ _ _ (val d - 2 ^ 127)); lia).
      lia. }
  destruct E as [E1 E2]. unfold u_is_zero, u_and_assign. cbn [hi lo of_uint64].
  rewrite E1, E2. destruct (val d <? 2 ^ 127); done.
Qed.

Lemma scale_up_spec n D : wf_u n -> 0 < D -> forall fuel d x k,
  wf_u d -> wf_u x -> 0 <= k -> val x = 2 ^ k -> val d = D * 2 ^ k ->
  128 < k + Z.of_nat fuel ->
  exists d' x' k', scale_up fuel n d x = Some (d', x') /\ wf_u d' /\ wf_u x'
    /\ 0 <= k' < 128 /\ val x' = 2 ^ k' /\ val d' = D * 2 ^ k' /\ val n < 2 * val d'.
Proof.
  intros Hn HD. induction fuel as [|f IH]; intros d x k Hd Hx Hk Hvx Hvd Hf.
  - exfalso. pose proof (val_bound x Hx). rewrite Hvx in *.
    assert (2 ^ 128 < 2 ^ k) by (apply Z.pow_lt_mono_r; lia). lia.
  - cbn [scale_up]. rewrite u_geb_val, top_bit by done.
    pose proof (val_bound d Hd) as Hbd. pose proof (val_bound n Hn) as Hbn.
    assert (Hk' : k < 128).
    { apply (Z.pow_lt_mono_r_iff 2); [lia..|]. pose proof (val_bound x Hx). lia. }
    destruct (Z.leb_spec (val d) (val n)) as [H1|H1];
      destruct (Z.ltb_spec (val d) (2 ^ 127)) as [H2|H2]; cbn [andb];
      [|exists d, x, k; do 6 (split; [first [done|lia]|]); change (2 ^ 127) with (uint64_mod * 9223372036854775808) in *; lia..].
    destruct (u_shl_spec d 1 Hd) as [Hwd Hd2]; [lia|].
    destruct (u_shl_spec x 1 Hx) as [Hwx Hx2]; [lia|].
    assert (Hle : val x <= val d) by nia.
    rewrite wrap128_small in Hd2, Hx2 by lia.
    apply (IH _ _ (k + 1)); [done|done|lia| | |lia].
    + rewrite Hx2, Hvx, Z.pow_add_r by lia. done.
    + rewrite Hd2, Hvd, Z.pow_add_r by lia. lia.
Qed.

(** One round of the second loop. *)
Lemma subtract_step N D n d x ans m k :
  wf_u n -> wf_u d -> wf_u x -> wf_u ans -> 0 <= k ->
  val x = 2 ^ k -> val d = D * 2 ^ k -> val n < 2 * val d ->
  val ans = m * 2 ^ (k + 1) -> N = val ans * D + val n ->
  exists n' ans' m',
    (if u_geb n d then (u_sub n d, u_or_assign ans x) else (n, ans)) = (n', ans')
    /\ wf_u n' /\ wf_u ans' /\ 0 <= val n' < val d /\ N = val ans' * D + val n'
    /\ val ans' = m' * 2 ^ k.
Proof.
  intros Hn Hd Hx Ha Hk Hvx Hvd Hlt Hm HN. rewrite u_geb_val by done.
  pose proof (val_bound n Hn). pose proof (val_bound d Hd).
  destruct (Z.leb_spec (val d) (val n)) as [Hge|Hl].
  - destruct (u_sub_spec n d Hn Hd) as [Hw1 Hv1], (val_or ans x Ha Hx) as [Hw2 Hv2].
    rewrite wrap128_small in Hv1 by lia.
    assert (Hor : Z.lor (val ans) (val x) = val ans + val x).
    { rewrite Hm, Hvx. apply lor_high_low; [lia|]. rewrite Z.pow_add_r by lia.
      pose proof (Z.pow_pos_nonneg 2 k). lia. }
    exists (u_sub n d), (u_or_assign ans x), (2 * m + 1). rewrite Hv1, Hv2, Hor.
    do 3 (split; [done|]). split; [lia|]. split.
    + rewrite HN, Hvx, Hvd. ring.
    + rewrite Hm, Hvx, Z.pow_add_r by lia. ring.
  - exists n, ans, (2 * m). do 3 (split; [done|]). split; [lia|]. split; [done|].
    rewrite Hm, Z.pow_add_r by lia. ring.
Qed.

Lemma subtract_done fuel n d x ans : wf_u x -> val x = 0 ->
  subtract_down (S fuel) n d x ans = Some (ans, n).
Proof. intros Hx Hv. cbn [subtract_down]. rewrite u_is_zero_val by done. by rewrite Hv. Qed.

Lemma subtract_down_spec N D : 0 < D -> forall j fuel n d x ans m,
  (j + 1 < fuel)%nat -> wf_u n -> wf_u d -> wf_u x -> wf_u ans ->
  val x = 2 ^ Z.of_nat j -> val d = D * 2 ^ Z.of_nat j -> val n < 2 * val d ->
  val ans = m * 2 ^ (Z.of_nat j + 1) -> N = val ans * D + val n ->
  exists q r, subtract_down fuel n d x ans = Some (q, r) /\ wf_u q /\ wf_u r
    /\ N = val q * D + val r /\ 0 <= val r < D.
Proof.
  intros HD j. induction j as [|j IH]; intros [|fuel] n d x ans m Hf Hn Hd Hx Ha Hvx Hvd Hlt Hm HN;
    try lia; cbn [subtract_down]; rewrite (u_is_zero_val x Hx);
    destruct (Z.eqb_spec (val x) 0) as [E|E];
    try (exfalso; rewrite Hvx in E; pose proof (Z.pow_pos_nonneg 2 (Z.of_nat (S j))); lia);
    try (exfalso; rewrite Hvx in E; lia); cbn [negb];
    destruct (subtract_step N D n d x ans m _ Hn Hd Hx Ha (Nat2Z.is_nonneg _) Hvx Hvd Hlt Hm HN)
      as (n' & ans' & m' & -> & Hwn & Hwa & Hbn & HN' & Hm').
  - destruct (u_shr_spec x 1 Hx) as [Hwx Hx']; [lia|].
    destruct fuel as [|fuel]; [lia|]. rewrite subtract_done; [|done|].
    + exists ans', n'. do 4 (split; [done|]). lia.
    + rewrite Hx', Hvx. done.
  - destruct (u_shr_spec x 1 Hx) as [Hwx Hx'], (u_shr_spec d 1 Hd) as [Hwd Hd']; [lia..|].
    assert (Ep : 2 ^ Z.of_nat (S j) = 2 ^ Z.of_nat j * 2)
      by (rewrite Nat2Z.inj_succ, Z.pow_succ_r by lia; lia).
    change (2 ^ 1) with 2 in *.
    rewrite Hvx, Ep, Z.div_mul in Hx' by lia.
    rewrite Hvd, Ep, Z.mul_assoc, Z.div_mul in Hd' by lia.
    apply (IH _ _ _ _ _ m'); [lia|done|done|done|done|done|done| | |done].
    + rewrite Hd'. rewrite Hvd, Ep in Hbn. lia.
    + rewrite Hm', Nat2Z.inj_succ, <- Z.add_1_r. done.
Qed.

Lemma u_divide_spec a b : wf_u a -> wf_u b -> 0 < val b ->
  exists q r, u_divide a b = Some (Ok (q, r)) /\ wf_u q /\ wf_u r
    /\ val q = val a / val b /\ val r = val a mod val b.
Proof.
  intros Ha Hb Hpos. unfold u_divide. rewrite u_is_zero_val by done.
  destruct (Z.eqb_spec (val b) 0); [lia|].
  destruct (scale_up_spec a (val b) Ha Hpos 129 b (of_uint64 1) 0)
    as (d & x & k & -> & Hd & Hx & Hk & Hvx & Hvd & Hlt);
    [done|by apply wf_of_uint64|lia|done|lia|lia|].
  destruct (subtract_down_spec (val a) (val b) Hpos (Z.to_nat k) 129 a d x (of_uint64 0) 0)
    as (q & r & -> & Hq & Hr & E & Hbr); try done; rewrite ?Z2Nat.id by lia; try done; [lia|].
  exists q, r. do 3 (split; [done|]).
  split; [apply (Z.div_unique _ _ _ (val r)); lia|apply (Z.mod_unique _ _ (val q)); lia].
Qed.

Lemma u_div_spec a b : wf_u a -> wf_u b -> 0 < val b ->
  exists q, u_div a b = Ok q /\ wf_u q /\ val q = val a / val b.
Proof.
  intros Ha Hb Hpos. pose proof (val_bound a Ha). pose proof (val_bound b Hb).
  unfold u_div. rewrite !Z.shiftl_mul_pow2 by lia. change (2 ^ 64) with uint64_mod.
  assert (E : forall u, wf_u u -> wrap128 (wrap128 (hi u * uint64_mod) + lo u) = val u).
  { intros u [Hu1 Hu2]. rewrite (wrap128_small (hi u * uint64_mod)) by lia.
    by apply wrap128_small; fold (val u); apply val_bound. }
  rewrite !E by done. destruct (Z.eqb_spec (val b) 0); [lia|].
  assert (Hq : 0 <= val a / val b < uint128_mod).
  { split; [apply Z.div_pos; lia|]. apply Z.div_lt_upper_bound; [lia|]. nia. }
  set (q := val a / val b) in *.
  destruct (wf_of_val q Hq) as [Hw Hv].
  exists (of_val q). split; [|done]. f_equal. unfold of_val.
  rewrite !Z.shiftr_div_pow2 by lia. change (2 ^ 64) with uint64_mod.
  pose proof (Z.div_mod q uint64_mod ltac:(lia)) as Hdm.
  pose proof (Z.mod_pos_bound q uint64_mod ltac:(lia)) as Hmb.
  assert (0 <= q / uint64_mod) by (apply Z.div_pos; lia).
  f_equal; [apply wrap64_small; lia|].
  replace (wrap128 (q * uint64_mod)) with (q mod uint64_mod * uint64_mod)
    by (unfold wrap128; apply (Z.mod_unique _ _ (q / uint64_mod)); lia).
  rewrite Z.div_mul by lia. apply wrap64_small. lia.
Qed.

(** ** Lemmas: the full product *)

Lemma mul64_exact x y : 0 <= x < uint64_mod -> 0 <= y < uint64_mod ->
  wf_u (u_mul (of_uint64 x) (of_uint64 y))
  /\ val (u_mul (of_uint64 x) (of_uint64 y)) = x * y.
Proof.
  intros Hx Hy. destruct (u_mul_spec (of_uint64 x) (of_uint64 y)) as [Hw Hv];
    [by apply wf_of_uint64..|]. split; [done|].
  rewrite Hv, !val_of_uint64. apply wrap128_small. nia.
Qed.

Lemma u_add64_exact a x : wf_u a -> 0 <= x < uint64_mod -> val a + x < uint128_mod ->
  wf_u (u_add64 a x) /\ val (u_add64 a x) = val a + x.
Proof.
  intros Ha Hx Hb. destruct (u_add64_spec a x Ha Hx) as [Hw Hv]. split; [done|].
  rewrite Hv. apply wrap128_small. pose proof (val_bound a Ha). lia.
Qed.

(** Adding up the four 64-bit by 64-bit products, column by column. *)
Lemma assemble_product P Q R S N sh sl qh ql rh rl ph pl ch cl dh dl :
  N = P * uint128_mod + (Q + R) * uint64_mod + S -> N < uint128_mod * uint128_mod ->
  sh * uint64_mod + sl = S -> rh * uint64_mod + rl = R ->
  qh * uint64_mod + ql = Q -> ph * uint64_mod + pl = P ->
  ch * uint64_mod + cl = sh + ql + rl -> dh * uint64_mod + dl = ch + qh + rh + pl ->
  0 <= dl < uint64_mod -> 0 <= cl < uint64_mod -> 0 <= sl < uint64_mod ->
  dh + ph < uint64_mod
  /\ ((dh + ph) * uint64_mod + dl) * uint128_mod + (cl * uint64_mod + sl) = N.
Proof. lia. Qed.

Lemma full_product_spec a b : wf_u a -> wf_u b ->
  wf_u (full_product a b).1 /\ wf_u (full_product a b).2
  /\ val (full_product a b).1 * uint128_mod + val (full_product a b).2 = val a * val b.
Proof.
  intros Ha Hb. pose proof (val_bound a Ha) as Va. pose proof (val_bound b Hb) as Vb.
  assert (HN : val a * val b < uint128_mod * uint128_mod) by nia.
  assert (EN : val a * val b = hi a * hi b * uint128_mod
    + (lo a * hi b + hi a * lo b) * uint64_mod + lo a * lo b) by (unfold val; ring).
  generalize dependent (val a * val b). intros N HN EN. clear Va Vb.
  destruct Ha as [Hah Hal], Hb as [Hbh Hbl].
  unfold full_product.
  destruct (mul64_exact (lo a) (lo b)) as [[Hs1 Hs2] Vs]; [done..|].
  destruct (mul64_exact (hi a) (lo b)) as [[Hr1 Hr2] Vr]; [done..|].
  destruct (mul64_exact (lo a) (hi b)) as [[Hq1 Hq2] Vq]; [done..|].
  destruct (mul64_exact (hi a) (hi b)) as [[Hp1 Hp2] Vp]; [done..|].
  generalize dependent (u_mul (of_uint64 (lo a)) (of_uint64 (lo b))). intros s Hs1 Hs2 Vs.
  generalize dependent (u_mul (of_uint64 (hi a)) (of_uint64 (lo b))). intros r Hr1 Hr2 Vr.
  generalize dependent (u_mul (of_uint64 (lo a)) (of_uint64 (hi b))). intros q Hq1 Hq2 Vq.
  generalize dependent (u_mul (of_uint64 (hi a)) (of_uint64 (hi b))). intros p Hp1 Hp2 Vp.
  destruct (u_add64_exact (of_uint64 (hi s)) (lo q)) as [W1 V1];
    [by apply wf_of_uint64|done|rewrite val_of_uint64; lia|].
  destruct (u_add64_exact (u_add64 (of_uint64 (hi s)) (lo q)) (lo r)) as [[W2h W2l] V2];
    [done|done|rewrite V1, val_of_uint64; lia|].
  rewrite V1, val_of_uint64 in V2.
  generalize dependent (u_add64 (u_add64 (of_uint64 (hi s)) (lo q)) (lo r)).
  intros acc W2h W2l V2. clear W1 V1.
  destruct (u_add64_exact (of_uint64 (hi acc)) (hi q)) as [W3 V3];
    [by apply wf_of_uint64|done|rewrite val_of_uint64; lia|].
  destruct (u_add64_exact (u_add64 (of_uint64 (hi acc)) (hi q)) (hi r)) as [W4 V4];
    [done|done|rewrite V3, val_of_uint64; lia|].
  destruct (u_add64_exact (u_add64 (u_add64 (of_uint64 (hi acc)) (hi q)) (hi r)) (lo p))
    as [[W5h W5l] V5]; [done|done|rewrite V4, V3, val_of_uint64; lia|].
  rewrite V4, V3, val_of_uint64 in V5.
  generalize dependent (u_add64 (u_add64 (u_add64 (of_uint64 (hi acc)) (hi q)) (hi r)) (lo p)).
  intros acc2 W5h W5l V5. clear W3 V3 W4 V4.
  destruct (assemble_product _ _ _ _ N (hi s) (lo s) (hi q) (lo q) (hi r) (lo r) (hi p) (lo p)
              (hi acc) (lo acc) (hi acc2) (lo acc2) EN HN Vs Vr Vq Vp V2 V5 W5l W2l Hs2)
    as [Htop Hsum].
  cbn [fst snd]. rewrite (wrap64_small (hi acc2 + hi p)) by lia.
  split; [split; cbn [hi lo]; lia|]. split; [split; cbn [hi lo]; lia|]. exact Hsum.
Qed.

(** ** Properties *)

(** The 128-bit arithmetic on word pairs is exact modular arithmetic:
    addition, subtraction, negation, shifts and the limb multiplication agree
    with arithmetic modulo 2^128, and the comparison with the order of numbers. *)
Theorem uint128_arith a b n :
  wf_u a -> wf_u b -> 0 <= n < 128 ->
  val (u_add a b) = wrap128 (val a + val b)
  /\ val (u_sub a b) = wrap128 (val a - val b)
  /\ val (u_neg a) = wrap128 (- val a)
  /\ val (u_mul a b) = wrap128 (val a * val b)
  /\ val (u_shl a (of_uint64 n)) = wrap128 (val a * 2 ^ n)
  /\ val (u_shr a (of_uint64 n)) = val a / 2 ^ n
  /\ u_ltb a b = (val a <? val b) /\ u_geb a b = (val b <=? val a)
  /\ (u_eqb a b = true <-> a = b).
Proof.
  intros Ha Hb Hn.
  split; [by apply u_add_spec|]. split; [by apply u_sub_spec|]. split; [by apply u_neg_spec|].
  split; [by apply u_mul_spec|]. split; [by apply u_shl_spec|]. split; [by apply u_shr_spec|].
  split; [by apply u_ltb_val|]. split; [by apply u_geb_val|].
  rewrite u_eqb_val, Z.eqb_eq by done. split; [by apply val_inj|by intros ->].
Qed.

Lemma uint128_arith_witness :
  val (u_mul (mk_u128 3 5) (mk_u128 7 18446744073709551615))
  = wrap128 (val (mk_u128 3 5) * val (mk_u128 7 18446744073709551615)).
Proof. apply (uint128_arith (mk_u128 3 5) (mk_u128 7 18446744073709551615) 1); split; cbn; lia. Defined.

(** Division.  The shift-and-subtract loops always end and give quotient and
    remainder, and the division through Boost's integer gives the same
    quotient; both refuse a zero divisor. *)
Theorem uint128_division a b :
  wf_u a -> wf_u b ->
  if val b =? 0 then
    u_divide a b = Some (Err divide_by_zero_exception)
    /\ u_div a b = Err divide_by_zero_exception
  else
    exists q r, u_divide a b = Some (Ok (q, r)) /\ u_div a b = Ok q /\ wf_u q /\ wf_u r
      /\ val q = val a / val b /\ val r = val a mod val b.
Proof.
  intros Ha Hb. pose proof (val_bound b Hb). destruct (Z.eqb_spec (val b) 0) as [E|E].
  - unfold u_divide, u_div. rewrite u_is_zero_val by done. rewrite E. split; [done|].
    assert (Hz : b = of_uint64 0) by (apply val_inj; [done|by apply wf_of_uint64|done]).
    by rewrite Hz.
  - destruct (u_divide_spec a b Ha Hb) as (q & r & Hd & Hq & Hr & Vq & Vr); [lia|].
    destruct (u_div_spec a b Ha Hb) as (q' & Hd' & Hq' & Vq'); [lia|].
    assert (q' = q) as -> by (apply val_inj; [done|done|congruence]). eauto 10.
Qed.

Lemma uint128_division_witness :
  exists q r, u_divide (mk_u128 5 17) (mk_u128 0 1000) = Some (Ok (q, r))
    /\ u_div (mk_u128 5 17) (mk_u128 0 1000) = Ok q /\ wf_u q /\ wf_u r
    /\ val q = val (mk_u128 5 17) / 1000 /\ val r = val (mk_u128 5 17) mod 1000.
Proof. apply (uint128_division (mk_u128 5 17) (mk_u128 0 1000)); split; cbn; lia. Defined.

(** [full_product] returns the exact 256-bit product in two halves. *)
Theorem full_product_exact a b :
  wf_u a -> wf_u b ->
  wf_u (full_product a b).1 /\ wf_u (full_product a b).2
  /\ val (full_product a b).1 * uint128_mod + val (full_product a b).2 = val a * val b.
Proof. apply full_product_spec. Qed.

Lemma full_product_exact_witness :
  val (full_product (mk_u128 7 9) (mk_u128 11 13)).1 * uint128_mod
  + val (full_product (mk_u128 7 9) (mk_u128 11 13)).2
  = val (mk_u128 7 9) * val (mk_u128 11 13).
Proof. apply (full_product_exact (mk_u128 7 9) (mk_u128 11 13)); split; cbn; lia. Defined.

(** The binary [operator |] does not compute the bitwise or: it assigns the
    right operand to a copy of the left one, so the left operand is lost.  The
    compound [|=] does compute it. *)
Theorem uint128_or_drops_left :
  u_or (of_uint64 1) (of_uint64 2) = of_uint64 2
  /\ u_or_assign (of_uint64 1) (of_uint64 2) = of_uint64 3
  /\ forall a b, wf_u a -> wf_u b -> val (u_or_assign a b) = Z.lor (val a) (val b).
Proof. split; [done|]. split; [done|]. intros a b Ha Hb. by apply val_or. Qed.
