(* ===== verification/Vesting.v ===== *)
(** * Vesting balances (chain/vesting_balance_object.hpp/.cpp)

    The linear policy with a cliff and the coin-seconds policy.  Times are
    seconds ([time_point_sec]); [fc::uint128] values are numbers modulo [2^128],
    as the word-pair arithmetic of [UInt128] implements them.  The [assert]s of
    the code that can fail are [c_assert]s; the theorems show when they hold. *)

From S2P Require Import Prelude SafeInt Asset.

Record vesting_policy_context := mk_ctx { ctx_balance : asset; ctx_now : Z; ctx_amount : asset }.

Record linear_vesting_policy := mk_linear {
  begin_timestamp : Z;
  vesting_cliff_seconds : Z;
  vesting_duration_seconds : Z;
  begin_balance : Z }.

Record cdd_vesting_policy := mk_cdd {
  vesting_seconds : Z;
  coin_seconds_earned : Z;
  start_claim : Z;
  coin_seconds_earned_last_update : Z }.

Inductive vesting_policy :=
| Linear (p : linear_vesting_policy)
| Cdd (p : cdd_vesting_policy).

Record vesting_balance_object := mk_vbo {
  owner : Z;
  balance : asset;
  create_time : Z;
  update_time : Z;
  policy : vesting_policy;
  describe : option string }.

(** [uint128::to_uint64] and the conversion of its result to [share_type]. *)
Definition to_uint64 (x : Z) : result Z :=
  check x <? uint64_mod;
  Ok (to_int64 x).

Definition sum_below_max_shares (a b : asset) : result bool :=
  if negb (amount a <=? GRAPHENE_MAX_SHARE_SUPPLY) then Ok false
  else if negb (amount b <=? GRAPHENE_MAX_SHARE_SUPPLY) then Ok false
  else let* s := Share.add (amount a) (amount b) in Ok (s <=? GRAPHENE_MAX_SHARE_SUPPLY).

(** ** Linear policy *)

Definition linear_get_allowed_withdraw (p : linear_vesting_policy)
    (ctx : vesting_policy_context) : result asset :=
  let* allowed_withdraw :=
    if ctx_now ctx >? begin_timestamp p then
      let elapsed_seconds := ctx_now ctx - begin_timestamp p in
      if elapsed_seconds >=? vesting_cliff_seconds p then
        let* total_vested :=
          if elapsed_seconds <? vesting_duration_seconds p then
            to_uint64 (wrap128 (wrap128 (begin_balance p) * wrap128 elapsed_seconds)
                       / vesting_duration_seconds p)
          else Ok (begin_balance p) in
        let* _ := c_assert (total_vested >=? 0) in
        let* withdrawn_already := Share.sub (begin_balance p) (amount (ctx_balance ctx)) in
        let* _ := c_assert (withdrawn_already >=? 0) in
        let* allowed_withdraw := Share.sub total_vested withdrawn_already in
        let* _ := c_assert (allowed_withdraw >=? 0) in
        Ok allowed_withdraw
      else Ok 0
    else Ok 0 in
  Ok (mk_asset allowed_withdraw (asset_id (ctx_balance ctx))).

Definition linear_is_deposit_allowed (p : linear_vesting_policy)
    (ctx : vesting_policy_context) : result bool :=
  if asset_id (ctx_amount ctx) =? asset_id (ctx_balance ctx)
  then sum_below_max_shares (ctx_amount ctx) (ctx_balance ctx) else Ok false.

Definition linear_is_withdraw_allowed (p : linear_vesting_policy)
    (ctx : vesting_policy_context) : result bool :=
  if asset_id (ctx_amount ctx) =? asset_id (ctx_balance ctx)
  then let* a := linear_get_allowed_withdraw p ctx in asset_leb (ctx_amount ctx) a
  else Ok false.

(** ** Coin-seconds policy *)

Definition vs_denom (p : cdd_vesting_policy) : Z := Z.max (vesting_seconds p) 1.

Definition compute_coin_seconds_earned (p : cdd_vesting_policy)
    (ctx : vesting_policy_context) : result Z :=
  let* _ := c_assert (ctx_now ctx >=? coin_seconds_earned_last_update p) in
  let delta_seconds := ctx_now ctx - coin_seconds_earned_last_update p in
  let delta_coin_seconds :=
    wrap128 (wrap128 (amount (ctx_balance ctx)) * wrap128 delta_seconds) in
  let cap := wrap128 (wrap128 (amount (ctx_balance ctx)) * vs_denom p) in
  Ok (Z.min (wrap128 (coin_seconds_earned p + delta_coin_seconds)) cap).

Definition update_coin_seconds_earned (p : cdd_vesting_policy)
    (ctx : vesting_policy_context) : result cdd_vesting_policy :=
  let* earned := compute_coin_seconds_earned p ctx in
  Ok (mk_cdd (vesting_seconds p) earned (start_claim p) (ctx_now ctx)).

(** The comparison with the balance is made on [uint128]. *)
Definition cdd_get_allowed_withdraw (p : cdd_vesting_policy)
    (ctx : vesting_policy_context) : result asset :=
  if ctx_now ctx <=? start_claim p then Ok (mk_asset 0 (asset_id (ctx_balance ctx)))
  else
    let* cs_earned := compute_coin_seconds_earned p ctx in
    let withdraw_available := cs_earned / vs_denom p in
    let* _ := c_assert (withdraw_available <=? wrap128 (amount (ctx_balance ctx))) in
    let* w := to_uint64 withdraw_available in
    Ok (mk_asset w (asset_id (ctx_balance ctx))).

Definition cdd_on_deposit := update_coin_seconds_earned.

(** [ctx.amount.amount.value * std::max(vesting_seconds, 1u)] is a 64-bit signed
    product, then converted to 128 bits. *)
Definition cdd_on_deposit_vested (p : cdd_vesting_policy)
    (ctx : vesting_policy_context) : result cdd_vesting_policy :=
  let* p := cdd_on_deposit p ctx in
  Ok (mk_cdd (vesting_seconds p)
       (wrap128 (coin_seconds_earned p + wrap128 (to_int64 (amount (ctx_amount ctx) * vs_denom p))))
       (start_claim p) (coin_seconds_earned_last_update p)).

Definition cdd_on_withdraw (p : cdd_vesting_policy)
    (ctx : vesting_policy_context) : result cdd_vesting_policy :=
  let* p := update_coin_seconds_earned p ctx in
  let coin_seconds_needed := wrap128 (wrap128 (amount (ctx_amount ctx)) * vs_denom p) in
  let* _ := c_assert (coin_seconds_needed <=? coin_seconds_earned p) in
  Ok (mk_cdd (vesting_seconds p) (wrap128 (coin_seconds_earned p - coin_seconds_needed))
       (start_claim p) (coin_seconds_earned_last_update p)).

Definition cdd_is_deposit_allowed (p : cdd_vesting_policy)
    (ctx : vesting_policy_context) : result bool :=
  if asset_id (ctx_amount ctx) =? asset_id (ctx_balance ctx)
  then sum_below_max_shares (ctx_amount ctx) (ctx_balance ctx) else Ok false.

Definition cdd_is_withdraw_allowed (p : cdd_vesting_policy)
    (ctx : vesting_policy_context) : result bool :=
  let* a := cdd_get_allowed_withdraw p ctx in asset_leb (ctx_amount ctx) a.

(** ** The object: dispatch on the policy *)

Definition get_allowed_withdraw (v : vesting_balance_object) (now : Z) : result asset :=
  let ctx := mk_ctx (balance v) now (mk_asset 0 0) in
  match policy v with
  | Linear p => linear_get_allowed_withdraw p ctx
  | Cdd p => cdd_get_allowed_withdraw p ctx
  end.

Definition is_deposit_allowed (v : vesting_balance_object) (now : Z) (a : asset) : result bool :=
  let ctx := mk_ctx (balance v) now a in
  match policy v with
  | Linear p => linear_is_deposit_allowed p ctx
  | Cdd p => cdd_is_deposit_allowed p ctx
  end.

Definition is_deposit_vested_allowed (v : vesting_balance_object) (now : Z) (a : asset)
    : result bool :=
  match policy v with
  | Linear _ => Ok false
  | Cdd p => cdd_is_deposit_allowed p (mk_ctx (balance v) now a)
  end.

Definition is_withdraw_allowed (v : vesting_balance_object) (now : Z) (a : asset)
    : result bool :=
  let ctx := mk_ctx (balance v) now a in
  let* r := match policy v with
            | Linear p => linear_is_withdraw_allowed p ctx
            | Cdd p => cdd_is_withdraw_allowed p ctx
            end in
  let* within_balance := asset_leb a (balance v) in
  let* _ := c_assert (within_balance || negb r) in
  Ok r.

Definition with_policy (v : vesting_balance_object) (p : vesting_policy) (b : asset) :=
  mk_vbo (owner v) b (create_time v) (update_time v) p (describe v).

Definition deposit (v : vesting_balance_object) (now : Z) (a : asset)
    : result vesting_balance_object :=
  let ctx := mk_ctx (balance v) now a in
  let* p := match policy v with
            | Linear p => Ok (Linear p)
            | Cdd p => let* p := cdd_on_deposit p ctx in Ok (Cdd p)
            end in
  let* b := asset_add (balance v) a in
  Ok (with_policy v p b).

Definition deposit_vested (v : vesting_balance_object) (now : Z) (a : asset)
    : result vesting_balance_object :=
  let ctx := mk_ctx (balance v) now a in
  let* p := match policy v with
            | Linear _ => Err assert_exception
            | Cdd p => let* p := cdd_on_deposit_vested p ctx in Ok (Cdd p)
            end in
  let* b := asset_add (balance v) a in
  Ok (with_policy v p b).

Definition withdraw (v : vesting_balance_object) (now : Z) (a : asset)
    : result vesting_balance_object :=
  let* within_balance := asset_leb a (balance v) in
  let* _ := c_assert within_balance in
  let ctx := mk_ctx (balance v) now a in
  let* p := match policy v with
            | Linear p => Ok (Linear p)
            | Cdd p => let* p := cdd_on_withdraw p ctx in Ok (Cdd p)
            end in
  let* b := asset_sub (balance v) a in
  Ok (with_policy v p b).

(** ** The invariant of a vesting balance at time [t] *)

(** Funds of a linear policy vested at time [t]: nothing before the cliff, then
    a proportional share, then everything. *)
Definition vested (p : linear_vesting_policy) (t : Z) : Z :=
  let e := t - begin_timestamp p in
  if (e <=? 0) || (e <? vesting_cliff_seconds p) then 0
  else if e <? vesting_duration_seconds p
       then begin_balance p * e / vesting_duration_seconds p
       else begin_balance p.

Definition vbo_ok (v : vesting_balance_object) (t : Z) : Prop :=
  0 <= t < uint32_mod /\ 0 <= amount (balance v) <= GRAPHENE_MAX_SHARE_SUPPLY /\
  match policy v with
  | Linear p =>
      0 <= begin_timestamp p < uint32_mod /\ 0 <= vesting_cliff_seconds p
      /\ 0 <= vesting_duration_seconds p < uint32_mod
      /\ 0 <= begin_balance p <= GRAPHENE_MAX_SHARE_SUPPLY
      /\ begin_balance p - amount (balance v) <= vested p t
      /\ amount (balance v) <= begin_balance p
  | Cdd p =>
      0 <= vesting_seconds p < uint32_mod
      /\ 0 <= coin_seconds_earned_last_update p <= t
      /\ 0 <= coin_seconds_earned p <= amount (balance v) * vs_denom p
  end.

(** What may be withdrawn at time [t]. *)
Definition withdrawable (v : vesting_balance_object) (t : Z) : Z :=
  match policy v with
  | Linear p =>
      let e := t - begin_timestamp p in
      if (e <=? 0) || (e <? vesting_cliff_seconds p) then 0
      else amount (balance v) - (begin_balance p - vested p t)
  | Cdd p =>
      if t <=? start_claim p then 0
      else Z.min (coin_seconds_earned p
                  + amount (balance v) * (t - coin_seconds_earned_last_update p))
                 (amount (balance v) * vs_denom p) / vs_denom p
  end.

(** ** Lemmas *)

Lemma vested_bounds p t : 0 <= begin_balance p -> 0 <= vested p t <= begin_balance p.
Proof.
  intros Hb. unfold vested. case_if; [lia|].
  bool_to_prop. destruct (Z.ltb_spec (t - begin_timestamp p) (vesting_duration_seconds p)) as [Hd|];
    [|lia].
  split; [apply Z.div_pos; nia|]. apply Z.div_le_upper_bound; nia.
Qed.

Lemma vested_mono p t t' : 0 <= begin_balance p -> t <= t' -> vested p t <= vested p t'.
Proof.
  intros Hb Ht. pose proof (vested_bounds p t' Hb) as Hb'. unfold vested in *.
  destruct ((t - begin_timestamp p <=? 0) || (t - begin_timestamp p <? vesting_cliff_seconds p))
    eqn:E; [lia|]. bool_to_prop.
  destruct (Z.leb_spec (t' - begin_timestamp p) 0); [lia|].
  destruct (Z.ltb_spec (t' - begin_timestamp p) (vesting_cliff_seconds p)); [lia|].
  cbn [orb] in *.
  destruct (Z.ltb_spec (t - begin_timestamp p) (vesting_duration_seconds p)) as [Hd|Hd];
  destruct (Z.ltb_spec (t' - begin_timestamp p) (vesting_duration_seconds p)) as [Hd'|Hd'];
    try lia.
  - apply Z.div_le_mono; nia.
  - apply Z.div_le_upper_bound; nia.
Qed.

Lemma vs_denom_pos p : 0 <= vesting_seconds p < uint32_mod -> 1 <= vs_denom p < uint32_mod.
Proof. unfold vs_denom. lia. Qed.

Lemma to_uint64_ok x : 0 <= x <= int64_max -> to_uint64 x = Ok x.
Proof.
  intros H. unfold to_uint64. destruct (Z.ltb_spec x uint64_mod); [|lia].
  cbn [fc_assert rbind]. by rewrite to_int64_small.
Qed.

(** The coin seconds of a balance at time [t], without overflow. *)
Definition coin_seconds_at (v : vesting_balance_object) (p : cdd_vesting_policy) (t : Z) : Z :=
  Z.min (coin_seconds_earned p + amount (balance v) * (t - coin_seconds_earned_last_update p))
        (amount (balance v) * vs_denom p).

Lemma coin_seconds_value v p t a : vbo_ok v t -> policy v = Cdd p ->
  compute_coin_seconds_earned p (mk_ctx (balance v) t a) = Ok (coin_seconds_at v p t)
  /\ 0 <= coin_seconds_at v p t <= amount (balance v) * vs_denom p.
Proof.
  intros (Ht & Hb & Hp) E. rewrite E in Hp. destruct Hp as (Hv & Hl & Hc).
  pose proof (vs_denom_pos p Hv) as Hd. unfold compute_coin_seconds_earned, coin_seconds_at.
  cbn [ctx_balance ctx_now]. rewrite (proj2 (Z.geb_le t (coin_seconds_earned_last_update p))) by lia.
  cbn [c_assert rbind].
  set (B := amount (balance v)) in *. set (D := vs_denom p) in *.
  set (dt := t - coin_seconds_earned_last_update p).
  assert (0 <= dt < uint32_mod) by (unfold dt; lia).
  assert (0 <= B * dt <= GRAPHENE_MAX_SHARE_SUPPLY * uint32_mod) by nia.
  assert (0 <= B * D <= GRAPHENE_MAX_SHARE_SUPPLY * uint32_mod) by nia.
  rewrite (wrap128_small B), (wrap128_small dt) by lia.
  rewrite (wrap128_small (B * dt)), (wrap128_small (B * D)) by lia.
  rewrite wrap128_small by lia. split; [done|lia].
Qed.

Lemma linear_allowed_value v p t : vbo_ok v t -> policy v = Linear p ->
  linear_get_allowed_withdraw p (mk_ctx (balance v) t (mk_asset 0 0))
    = Ok (mk_asset (withdrawable v t) (asset_id (balance v)))
  /\ 0 <= withdrawable v t <= amount (balance v).
Proof.
  intros (Ht & Hb & Hp) E. unfold withdrawable. rewrite E in *. destruct Hp as (Hbt & Hcl & Hdur & Hbb & Hinv & Htop).
  pose proof (vested_bounds p t ltac:(lia)) as Hvb.
  unfold linear_get_allowed_withdraw. cbn [ctx_now ctx_balance].
  rewrite Z.gtb_ltb, Z.geb_leb.
  destruct (Z.leb_spec (t - begin_timestamp p) 0);
    [destruct (Z.ltb_spec (begin_timestamp p) t); [lia|]; cbn [rbind orb]; split; [done|lia]|].
  destruct (Z.ltb_spec (begin_timestamp p) t); [|lia]. cbn [orb].
  destruct (Z.ltb_spec (t - begin_timestamp p) (vesting_cliff_seconds p));
    destruct (Z.leb_spec (vesting_cliff_seconds p) (t - begin_timestamp p)); try lia;
    [cbn [rbind]; split; [done|lia]|].
  assert (Hv : (if t - begin_timestamp p <? vesting_duration_seconds p then
            to_uint64 (wrap128 (wrap128 (begin_balance p) * wrap128 (t - begin_timestamp p))
                       / vesting_duration_seconds p)
          else Ok (begin_balance p)) = Ok (vested p t)).
  { unfold vested in *. destruct (Z.leb_spec (t - begin_timestamp p) 0); [lia|].
    destruct (Z.ltb_spec (t - begin_timestamp p) (vesting_cliff_seconds p)); [lia|].
    cbn [orb] in *. case_if; [|done].
    rewrite (wrap128_small (begin_balance p)), (wrap128_small (t - begin_timestamp p)) by lia.
    rewrite wrap128_small by nia. apply to_uint64_ok. lia. }
  rewrite Hv. cbn [rbind]. rewrite (proj2 (Z.geb_le (vested p t) 0)) by lia. cbn [c_assert rbind].
  rewrite Share.sub_run by (unfold in_range; lia). cbn [rbind].
  rewrite (proj2 (Z.geb_le (begin_balance p - amount (balance v)) 0)) by lia. cbn [c_assert rbind].
  rewrite Share.sub_run by (unfold in_range; lia). cbn [rbind].
  rewrite (proj2 (Z.geb_le (vested p t - (begin_balance p - amount (balance v))) 0)) by lia.
  cbn [c_assert rbind]. split; [|lia]. do 2 f_equal. lia.
Qed.

Lemma get_allowed_withdraw_value v t : vbo_ok v t ->
  get_allowed_withdraw v t = Ok (mk_asset (withdrawable v t) (asset_id (balance v)))
  /\ 0 <= withdrawable v t <= amount (balance v).
Proof.
  intros Hok. unfold get_allowed_withdraw. destruct (policy v) as [p|p] eqn:E; [by apply linear_allowed_value|].
  pose proof Hok as (Ht & Hb & Hp). unfold withdrawable. rewrite E in *.
  destruct Hp as (Hv & Hl & Hc). unfold cdd_get_allowed_withdraw. cbn [ctx_now ctx_balance].
  destruct (Z.leb_spec t (start_claim p)); [split; [done|lia]|].
  destruct (coin_seconds_value v p t (mk_asset 0 0) Hok E) as [-> Hbd]. cbn [rbind].
  pose proof (vs_denom_pos p Hv) as Hd. fold (coin_seconds_at v p t).
  assert (Hq : 0 <= coin_seconds_at v p t / vs_denom p <= amount (balance v))
    by (split; [apply Z.div_pos; lia|apply Z.div_le_upper_bound; lia]).
  rewrite wrap128_small by lia.
  rewrite (proj2 (Z.leb_le (coin_seconds_at v p t / vs_denom p) (amount (balance v)))) by lia.
  cbn [c_assert rbind]. rewrite to_uint64_ok by lia. by split.
Qed.

Lemma vbo_ok_later v t t' : vbo_ok v t -> t <= t' < uint32_mod -> vbo_ok v t'.
Proof.
  intros (Ht & Hb & Hp) Hle. split; [lia|]. split; [done|].
  destruct (policy v) as [p|p]; [|intuition lia].
  destruct Hp as (?&?&?&?&?&?). pose proof (vested_mono p t t'). intuition lia.
Qed.

(** [is_withdraw_allowed] decides by the allowed amount. *)
Lemma withdraw_allowed_value v now a : vbo_ok v now -> asset_id a = asset_id (balance v) ->
  is_withdraw_allowed v now a = Ok (amount a <=? withdrawable v now).
Proof.
  intros Hok Hid. destruct (get_allowed_withdraw_value v now Hok) as [Hg Hw].
  assert (H : match policy v with
     | Linear p => linear_is_withdraw_allowed p (mk_ctx (balance v) now a)
     | Cdd p => cdd_is_withdraw_allowed p (mk_ctx (balance v) now a)
     end = Ok (amount a <=? withdrawable v now)).
  { unfold get_allowed_withdraw in Hg. destruct (policy v) as [p|p].
    - unfold linear_is_withdraw_allowed. cbn [ctx_amount ctx_balance]. rewrite Hid, Z.eqb_refl.
      change (linear_get_allowed_withdraw p (mk_ctx (balance v) now a))
        with (linear_get_allowed_withdraw p (mk_ctx (balance v) now (mk_asset 0 0))).
      rewrite Hg. cbn [rbind]. by rewrite asset_leb_same.
    - unfold cdd_is_withdraw_allowed.
      change (cdd_get_allowed_withdraw p (mk_ctx (balance v) now a))
        with (cdd_get_allowed_withdraw p (mk_ctx (balance v) now (mk_asset 0 0))).
      rewrite Hg. cbn [rbind ctx_amount]. by rewrite asset_leb_same. }
  unfold is_withdraw_allowed. rewrite H. cbn [rbind]. rewrite asset_leb_same by done. cbn [rbind].
  destruct (Z.leb_spec (amount a) (withdrawable v now)); cbn [negb orb]; [|by rewrite orb_true_r].
  by rewrite (proj2 (Z.leb_le (amount a) (amount (balance v)))) by lia.
Qed.

(** The policies' own decision, before the comparison with the balance. *)
Lemma linear_allowed_bound v p now a : vbo_ok v now -> policy v = Linear p ->
  linear_is_withdraw_allowed p (mk_ctx (balance v) now a) = Ok true ->
  asset_id a = asset_id (balance v) /\ amount a <= withdrawable v now.
Proof.
  intros Hok E H. destruct (linear_allowed_value v p now Hok E) as [Hg _].
  unfold linear_is_withdraw_allowed in H. cbn [ctx_amount ctx_balance] in H.
  destruct (Z.eqb_spec (asset_id a) (asset_id (balance v))) as [Hid|]; [|done]. split; [done|].
  change (linear_get_allowed_withdraw p (mk_ctx (balance v) now a))
    with (linear_get_allowed_withdraw p (mk_ctx (balance v) now (mk_asset 0 0))) in H.
  rewrite Hg in H. cbn [rbind] in H. rewrite asset_leb_same in H by done. injection H as H. by apply Z.leb_le.
Qed.

Lemma asset_sub_run a b : asset_id a = asset_id b -> Share.ok (amount a) -> Share.ok (amount b) ->
  Share.ok (amount a - amount b) ->
  asset_sub a b = Ok (mk_asset (amount a - amount b) (asset_id a)).
Proof.
  intros E Ha Hb Hab. unfold asset_sub. rewrite E, Z.eqb_refl. cbn [fc_assert rbind].
  by rewrite Share.sub_run.
Qed.

Lemma asset_add_run a b : asset_id a = asset_id b -> Share.ok (amount a) -> Share.ok (amount b) ->
  Share.ok (amount a + amount b) ->
  asset_add a b = Ok (mk_asset (amount a + amount b) (asset_id a)).
Proof.
  intros E Ha Hb Hab. unfold asset_add. rewrite E, Z.eqb_refl. cbn [fc_assert rbind].
  by rewrite Share.add_run.
Qed.

(** ** Properties *)

(** A withdrawal within the allowed amount. *)
Lemma withdraw_run v now a : vbo_ok v now -> asset_id a = asset_id (balance v) ->
  0 <= amount a <= withdrawable v now ->
  exists v', withdraw v now a = Ok v'
    /\ balance v' = mk_asset (amount (balance v) - amount a) (asset_id (balance v)) /\ vbo_ok v' now.
Proof.
  intros Hok Hid Hle. destruct (get_allowed_withdraw_value v now Hok) as [_ Hw]. pose proof Hok as (Ht & Hb & Hp).
  assert (Hab : 0 <= amount a <= amount (balance v)) by lia.
  unfold withdraw. rewrite asset_leb_same by done. cbn [rbind].
  rewrite (proj2 (Z.leb_le (amount a) (amount (balance v)))) by lia. cbn [c_assert rbind].
  assert (Hpol : exists p', match policy v with
      | Linear p => Ok (Linear p)
      | Cdd p => let* p := cdd_on_withdraw p (mk_ctx (balance v) now a) in Ok (Cdd p)
      end = Ok p' /\ vbo_ok (with_policy v p' (mk_asset (amount (balance v) - amount a) (asset_id (balance v)))) now).
  { unfold withdrawable in Hle. destruct (policy v) as [p|p] eqn:E.
    - exists (Linear p). split; [done|]. destruct Hp as (Hbt & Hcl & Hdur & Hbb & Hinv & Htop).
      split; [done|]. split; [cbn; lia|]. cbn [with_policy policy balance amount]. do 4 (split; [done|]).
      split; [|lia]. case_if_in Hle; [|lia]. assert (amount a = 0) as -> by lia. lia.
    - destruct Hp as (Hv & Hl & Hc). pose proof (vs_denom_pos p Hv) as Hd.
      unfold cdd_on_withdraw, update_coin_seconds_earned.
      destruct (coin_seconds_value v p now a Hok E) as [-> Hbd]. cbn [rbind].
      change (vs_denom (mk_cdd _ _ _ _)) with (vs_denom p).
      cbn [vesting_seconds coin_seconds_earned coin_seconds_earned_last_update ctx_now ctx_amount start_claim].
      fold (coin_seconds_at v p now) in Hle. set (cs := coin_seconds_at v p now) in *.
      assert (Hneed : amount a * vs_denom p <= cs).
      { case_if_in Hle; [nia|]. pose proof (Z.mul_div_le cs (vs_denom p)). nia. }
      assert (0 <= amount a * vs_denom p) by nia.
      assert (amount (balance v) * vs_denom p <= GRAPHENE_MAX_SHARE_SUPPLY * uint32_mod) by nia.
      rewrite (wrap128_small (amount a)) by lia. rewrite (wrap128_small (amount a * vs_denom p)) by lia.
      rewrite (proj2 (Z.leb_le (amount a * vs_denom p) cs)) by lia. cbn [c_assert rbind].
      rewrite wrap128_small by lia. eexists. split; [done|].
      split; [done|]. split; [cbn; lia|]. cbn [with_policy policy balance amount vesting_seconds
        coin_seconds_earned coin_seconds_earned_last_update]. change (vs_denom (mk_cdd _ _ _ _)) with (vs_denom p).
      split; [done|]. split; [lia|]. nia. }
  destruct Hpol as (p' & -> & Hok'). cbn [rbind].
  rewrite asset_sub_run by (try done; unfold in_range; lia). cbn [rbind]. eauto.
Qed.

(** C36: a vesting balance never releases more than it holds.  In its invariant,
    [get_allowed_withdraw] returns, with no assertion failing, an amount between zero and
    the balance; [is_withdraw_allowed] accepts exactly the amounts of the balance's asset up
    to that one; and a withdrawal that it accepts succeeds, takes exactly the amount off the
    balance and keeps the invariant. *)
Theorem vesting_withdraw_safe v now : vbo_ok v now ->
  exists w, get_allowed_withdraw v now = Ok (mk_asset w (asset_id (balance v)))
    /\ 0 <= w <= amount (balance v)
    /\ forall a, asset_id a = asset_id (balance v) ->
         is_withdraw_allowed v now a = Ok (amount a <=? w)
         /\ (0 <= amount a <= w -> exists v', withdraw v now a = Ok v'
               /\ balance v' = mk_asset (amount (balance v) - amount a) (asset_id (balance v))
               /\ vbo_ok v' now).
Proof.
  intros Hok. destruct (get_allowed_withdraw_value v now Hok) as [Hg Hw].
  exists (withdrawable v now). split; [done|]. split; [done|]. intros a Hid.
  split; [by apply withdraw_allowed_value|]. by apply withdraw_run.
Qed.

Definition demo_cdd : vesting_balance_object :=
  mk_vbo 7 (mk_asset 1000 0) 0 0 (Cdd (mk_cdd 100 50000 0 10)) None.

Lemma vesting_withdraw_safe_witness :
  exists v', withdraw demo_cdd 20 (mk_asset 600 0) = Ok v' /\ vbo_ok v' 20.
Proof.
  assert (Hok : vbo_ok demo_cdd 20) by (unfold vbo_ok, vs_denom; cbn; lia).
  destruct (vesting_withdraw_safe demo_cdd 20 Hok) as (w & Hg & _ & H).
  vm_compute in Hg. injection Hg as <-.
  destruct (H (mk_asset 600 0) eq_refl) as [_ Hw]. destruct Hw as (v' & Hv & _ & Hok'); [cbn; lia|]. eauto.
Defined.

Lemma deposit_room (b a : asset) : (if asset_id a =? asset_id b then sum_below_max_shares a b else Ok false) = Ok true ->
  asset_id b = asset_id a /\ amount b + amount a <= GRAPHENE_MAX_SHARE_SUPPLY.
Proof.
  intros H. destruct (Z.eqb_spec (asset_id a) (asset_id b)) as [E|]; [|done].
  split; [done|]. unfold sum_below_max_shares in H.
  do 2 (case_if_in H; [done|]). bool_to_prop. apply rbind_ok in H as (s & Hs & [= Hle]).
  apply Share.add_value in Hs. bool_to_prop. lia.
Qed.

(** Deposits keep the invariant of a coin-seconds policy (nothing deposits into a linear
    one).  An accepted deposit of a non-negative
    amount succeeds and adds it to the balance; an accepted vested deposit does
    so and makes the amount withdrawable, provided amount times vesting seconds
    fits the signed 64-bit product the code computes. *)
Theorem vesting_deposit_safe v p now a :
  vbo_ok v now -> policy v = Cdd p -> 0 <= amount a ->
  (is_deposit_allowed v now a = Ok true ->
     exists v', deposit v now a = Ok v'
       /\ balance v' = mk_asset (amount (balance v) + amount a) (asset_id (balance v))
       /\ vbo_ok v' now) /\
  (amount a * vs_denom p <= int64_max ->
     is_deposit_vested_allowed v now a = Ok true ->
     exists v', deposit_vested v now a = Ok v'
       /\ balance v' = mk_asset (amount (balance v) + amount a) (asset_id (balance v))
       /\ vbo_ok v' now
       /\ (start_claim p < now -> withdrawable v' now = withdrawable v now + amount a)).
Proof.
  intros Hok E Ha. pose proof Hok as (Ht & Hb & Hp). rewrite E in Hp. destruct Hp as (Hv & Hl & Hc).
  pose proof (vs_denom_pos p Hv) as Hd. destruct (coin_seconds_value v p now a Hok E) as [Hval Hbd].
  unfold is_deposit_allowed, is_deposit_vested_allowed, deposit, deposit_vested. rewrite E.
  unfold cdd_on_deposit_vested, cdd_on_deposit, update_coin_seconds_earned. rewrite Hval. cbn [rbind].
  split.
  - intros [Hid Hmax]%deposit_room. cbn [ctx_amount ctx_balance] in *.
    rewrite asset_add_run by (try done; unfold in_range; lia).
    cbn [rbind]. eexists. split; [done|]. split; [done|].
    split; [done|]. split; [cbn; lia|]. cbn [with_policy policy balance amount].
    change (vs_denom (mk_cdd _ _ _ _)) with (vs_denom p). cbn. split; [done|]. split; [lia|]. nia.
  - intros Hfit [Hid Hmax]%deposit_room. cbn [ctx_amount ctx_balance] in *.
    rewrite asset_add_run by (try done; unfold in_range; lia).
    cbn [rbind]. eexists. split; [done|]. split; [done|].
    change (vs_denom (mk_cdd _ _ _ _)) with (vs_denom p). cbn [coin_seconds_earned].
    set (cs := coin_seconds_at v p now) in *.
    rewrite to_int64_small by nia. rewrite (wrap128_small (amount a * _)) by nia.
    rewrite (wrap128_small (cs + amount a * _)) by nia. split.
    + split; [done|]. split; [cbn; lia|]. cbn [with_policy policy balance amount vesting_seconds
        coin_seconds_earned coin_seconds_earned_last_update ctx_now].
      change (vs_denom (mk_cdd _ _ _ _)) with (vs_denom p). split; [done|]. split; [lia|]. nia.
    + intros Hclaim. unfold withdrawable. rewrite E. cbn [with_policy policy balance amount start_claim
        coin_seconds_earned coin_seconds_earned_last_update ctx_now].
      change (vs_denom (mk_cdd _ _ _ _)) with (vs_denom p).
      destruct (Z.leb_spec now (start_claim p)); [lia|]. fold (coin_seconds_at v p now). fold cs.
      rewrite Z.sub_diag, Z.mul_0_r, Z.add_0_r, Z.min_l by nia.
      apply Z.div_add. lia.
Qed.

Lemma vesting_deposit_safe_witness :
  exists v', deposit demo_cdd 20 (mk_asset 5 0) = Ok v' /\ vbo_ok v' 20.
Proof.
  assert (Hok : vbo_ok demo_cdd 20) by (unfold vbo_ok, vs_denom; cbn; lia).
  destruct (vesting_deposit_safe demo_cdd _ 20 (mk_asset 5 0) Hok eq_refl) as [H _]; [cbn; lia|].
  destruct (H eq_refl) as (v' & Hv & _ & Hok'). eauto.
Defined.

(** The vesting period has run at time [t]: the duration and the cliff of a linear policy, or
    the vesting seconds since the last update of a coin-seconds policy past its claim date. *)
Definition period_over (v : vesting_balance_object) (t : Z) : Prop :=
  match policy v with
  | Linear p => vesting_duration_seconds p <= t - begin_timestamp p
                /\ vesting_cliff_seconds p <= t - begin_timestamp p /\ begin_timestamp p < t
  | Cdd p => vs_denom p <= t - coin_seconds_earned_last_update p /\ start_claim p < t
  end.

Lemma withdrawable_mono v t t' : vbo_ok v t -> t <= t' < uint32_mod -> withdrawable v t <= withdrawable v t'.
Proof.
  intros Hok Hle. pose proof (vbo_ok_later _ _ _ Hok Hle) as Hok'.
  destruct (get_allowed_withdraw_value v t' Hok') as [_ Hw'].
  pose proof Hok as (Ht & Hb & Hp). unfold withdrawable in *. destruct (policy v) as [p|p].
  - destruct Hp as (Hbt & Hcl & Hdur & Hbb & Hinv & Htop).
    pose proof (vested_mono p t t' ltac:(lia) ltac:(lia)) as Hmono.
    case_if; [lia|]. bool_to_prop.
    destruct (Z.leb_spec (t' - begin_timestamp p) 0); [lia|].
    destruct (Z.ltb_spec (t' - begin_timestamp p) (vesting_cliff_seconds p)); [lia|].
    cbn [orb]. lia.
  - destruct Hp as (Hv & Hl & Hc). pose proof (vs_denom_pos p Hv) as Hd.
    destruct (Z.leb_spec t (start_claim p)) as [|Hs]; [lia|].
    destruct (Z.leb_spec t' (start_claim p)); [lia|]. apply Z.div_le_mono; [lia|]. nia.
Qed.

Lemma withdrawable_all v t : vbo_ok v t -> period_over v t -> withdrawable v t = amount (balance v).
Proof.
  intros (Ht & Hb & Hp) Hover. unfold withdrawable, period_over, vested in *. destruct (policy v) as [p|p].
  - destruct Hover as (Hd & Hc & Hb0).
    destruct (Z.leb_spec (t - begin_timestamp p) 0); [lia|].
    destruct (Z.ltb_spec (t - begin_timestamp p) (vesting_cliff_seconds p)); [lia|].
    destruct (Z.ltb_spec (t - begin_timestamp p) (vesting_duration_seconds p)); [lia|].
    cbn [orb]. lia.
  - destruct Hp as (Hv & Hl & Hc). pose proof (vs_denom_pos p Hv) as Hd. destruct Hover as [Hd' Hs].
    destruct (Z.leb_spec t (start_claim p)); [lia|].
    rewrite Z.min_r by nia. by rewrite Z.div_mul by lia.
Qed.

(** C37: vesting only moves forward.  From a balance in its invariant, at any later time
    [get_allowed_withdraw] returns no less than before; and once the vesting period has run
    it returns the whole balance, [is_withdraw_allowed] accepts a withdrawal of all of it, and
    [withdraw] pays it out and leaves nothing. *)
Theorem vesting_progress v t t' : vbo_ok v t -> t <= t' < uint32_mod ->
  exists w w', get_allowed_withdraw v t = Ok (mk_asset w (asset_id (balance v)))
    /\ get_allowed_withdraw v t' = Ok (mk_asset w' (asset_id (balance v))) /\ w <= w'
    /\ (period_over v t' -> w' = amount (balance v)
        /\ is_withdraw_allowed v t' (balance v) = Ok true
        /\ exists v', withdraw v t' (balance v) = Ok v' /\ balance v' = mk_asset 0 (asset_id (balance v))).
Proof.
  intros Hok Hle. pose proof (vbo_ok_later _ _ _ Hok Hle) as Hok'.
  exists (withdrawable v t), (withdrawable v t'). destruct (get_allowed_withdraw_value v t' Hok') as [Hg' Hw'].
  split; [by apply get_allowed_withdraw_value|]. split; [done|]. split; [by apply withdrawable_mono|].
  intros Hover. pose proof (withdrawable_all v t' Hok' Hover) as Hall. split; [done|]. split.
  - rewrite withdraw_allowed_value by done. by rewrite Hall, Z.leb_refl.
  - destruct (withdraw_run v t' (balance v) Hok' eq_refl) as (v' & Hv & Hb & _); [lia|].
    exists v'. split; [done|]. by rewrite Hb, Z.sub_diag.
Qed.

Lemma vesting_progress_witness :
  get_allowed_withdraw demo_cdd 20 = Ok (mk_asset 600 0)
  /\ exists v', withdraw demo_cdd 500 (mk_asset 1000 0) = Ok v' /\ balance v' = mk_asset 0 0.
Proof.
  split; [vm_compute; reflexivity|].
  destruct (vesting_progress demo_cdd 20 500) as (w & w' & _ & _ & _ & H);
    [unfold vbo_ok, vs_denom; cbn; lia|lia|].
  destruct H as (_ & _ & H); [unfold period_over, vs_denom; cbn; lia|exact H].
Defined.

(** A vested deposit whose amount times vesting seconds exceeds the signed
    64-bit range is not credited as vested: the product is computed in 64 bits
    before it is widened.  Here a vested deposit of 2.2 * 10^14 units with a day of
    vesting leaves only 6.5 * 10^12 of them withdrawable. *)
Theorem deposit_vested_overflow :
  let v := mk_vbo 7 (mk_asset 0 0) 0 0 (Cdd (mk_cdd 86400 0 0 10)) None in
  vbo_ok v 20 /\
  rbind (deposit_vested v 20 (mk_asset 220000000000000 0)) (fun v' => get_allowed_withdraw v' 20)
  = Ok (mk_asset 6496017665398 0).
Proof. split; [unfold vbo_ok, vs_denom; cbn; lia|vm_compute; reflexivity]. Qed.
