(* ===== verification/Authority.v ===== *)
(** * Transaction authorities (chain/protocol/authority.hpp, transaction.cpp)

    The weighted multi-signature check: [sign_state] walks an authority's keys,
    addresses and accounts, recursing into the active authorities of accounts up to
    a maximum depth, and marks the signatures it uses; [verify_authority] requires
    it of every operation.  Public keys, addresses and accounts are numbers in the
    order of their flat containers; how a key is hashed into its five address forms
    is a parameter.  A pointer that may be null is an [option]. *)

From stdpp Require Import sorting.
From S2P Require Import Prelude.

Record authority := mk_authority {
  weight_threshold : Z;
  account_auths : list (Z * Z);
  key_auths : list (Z * Z);
  address_auths : list (Z * Z) }.

Definition weights (l : list (Z * Z)) : Z := sumZ snd l.

(** The sum is a [uint64_t]. *)
Definition is_impossible (a : authority) : bool :=
  wrap64 (weights (account_auths a) + weights (key_auths a) + weights (address_auths a))
  <? weight_threshold a.

Abbreviation GRAPHENE_COMMITTEE_ACCOUNT := 0.
Abbreviation GRAPHENE_NULL_ACCOUNT := 3.
Abbreviation GRAPHENE_TEMP_ACCOUNT := 4.

Definition num_auths (a : authority) : nat :=
  length (account_auths a) + length (key_auths a) + length (address_auths a).

(** Addresses are left in place. *)
Definition authority_clear (a : authority) : authority :=
  mk_authority (weight_threshold a) [] [] (address_auths a).

Definition null_authority : authority := mk_authority 1 [(GRAPHENE_NULL_ACCOUNT, 1)] [] [].

(** [add_authority_accounts]. *)
Definition add_authority_accounts (result_ : gset Z) (a : authority) : gset Z :=
  foldl (fun s item => {[item.1]} ∪ s) result_ (account_auths a).

(** ** The checker's state and effects *)

Record sign_state := mk_sign_state {
  provided_signatures : gmap Z bool;
  available_keys : gset Z;
  approved_by : gset Z;
  address_sigs : option (gmap Z Z * gmap Z Z) }.

Definition set_provided (m : gmap Z bool) (s : sign_state) : sign_state :=
  mk_sign_state m (available_keys s) (approved_by s) (address_sigs s).
Definition set_approved (x : gset Z) (s : sign_state) : sign_state :=
  mk_sign_state (provided_signatures s) (available_keys s) x (address_sigs s).
Definition set_address_sigs (t : gmap Z Z * gmap Z Z) (s : sign_state) : sign_state :=
  mk_sign_state (provided_signatures s) (available_keys s) (approved_by s) (Some t).

(** A member function: it may throw, and what it changed stays changed. *)
Definition M (A : Type) : Type := stM sign_state A.

(** ** Signatures *)

Definition signed_by_key (k : Z) : M bool :=
  p <-- get provided_signatures;
  match p !! k with
  | None =>
      av <-- get available_keys;
      if bool_decide (k ∈ av)
      then _ <-- modify (set_provided (<[k := true]> p)); ret true
      else ret false
  | Some _ => _ <-- modify (set_provided (<[k := true]> p)); ret true
  end.

Section Checker.
(** The five address forms of a key, in the order the code enters them. *)
Variable key_addresses : Z -> list Z.
(** [get_active] and [get_owner]: the lookup may throw or return null. *)
Variable get_active : Z -> result (option authority).
(** Whether [get_active] returns the address of one buffer that its next call
    overwrites ([_apply_transaction]) or of the account itself. *)
Variable shared : bool.
Variable get_owner : Z -> result (option authority).

(** A table filled key by key in ascending order: a later key overwrites. *)
Definition address_table (keys : list Z) : gmap Z Z :=
  foldl (fun t k => foldl (fun t a => <[a := k]> t) t (key_addresses k)) ∅ (merge_sort Z.le keys).

Definition fill_address_sigs : M (gmap Z Z * gmap Z Z) :=
  t <-- get address_sigs;
  match t with
  | Some t => ret t
  | None =>
      av <-- get available_keys;
      p <-- get provided_signatures;
      let t := (address_table (elements av), address_table (map fst (map_to_list p))) in
      _ <-- modify (set_address_sigs t); ret t
  end.

(** An address that is in neither table dereferences the end iterator of the
    second. *)
Definition signed_by_address (a : Z) : M bool :=
  t <-- fill_address_sigs;
  p <-- get provided_signatures;
  match t.2 !! a with
  | None =>
      match t.1 !! a with
      | Some k =>
          av <-- get available_keys;
          if bool_decide (k ∈ av)
          then _ <-- modify (set_provided (<[k := true]> p)); ret true
          else ret false
      | None => throw undefined_behaviour
      end
  | Some k => _ <-- modify (set_provided (<[k := true]> p)); ret true
  end.

(** ** Weighing an authority *)

(** A loop over weighted members: [None] when the threshold was reached. *)
Fixpoint weigh (member : Z -> M bool) (threshold : Z) (l : list (Z * Z)) (total_weight : Z)
    : M (option Z) :=
  match l with
  | [] => ret (Some total_weight)
  | (k, w) :: l' =>
      b <-- member k;
      if b then
        let t := wrap32 (total_weight + w) in
        if t >=? threshold then ret None else weigh member threshold l' t
      else weigh member threshold l' total_weight
  end.

(** [rec] checks the active authority of an account one level deeper; it is absent
    at the maximum depth.  [buffered]: the member is an element of an authority in the
    shared buffer; it is gone when the loop comes back to it. *)
Definition account_member (rec : option (option authority -> M bool)) (buffered : bool) (a : Z)
    : M bool :=
  ap <-- get approved_by;
  if bool_decide (a ∈ ap) then ret true
  else
    match rec with
    | None => ret false
    | Some deeper =>
        au <-- lift (get_active a);
        b <-- deeper au;
        if buffered then throw undefined_behaviour
        else if b then _ <-- modify (fun s => set_approved ({[a]} ∪ approved_by s) s); ret true
        else ret false
    end.

(** [levels] is [max_recursion - depth]. *)
Fixpoint check_authority (levels : nat) (buffered : bool) (au : option authority) : M bool :=
  match au with
  | None => ret false
  | Some auth =>
      let th := weight_threshold auth in
      t <-- weigh signed_by_key th (key_auths auth) 0;
      match t with
      | None => ret true
      | Some t =>
          t <-- weigh signed_by_address th (address_auths auth) t;
          match t with
          | None => ret true
          | Some t =>
              let rec := match levels with
                         | O => None
                         | S n => Some (fun a => check_authority n shared a)
                         end in
              t <-- weigh (account_member rec buffered) th (account_auths auth) t;
              match t with
              | None => ret true
              | Some t => ret (t >=? th)
              end
          end
      end
  end.

Definition check_account (max_recursion : nat) (id : Z) : M bool :=
  ap <-- get approved_by;
  if bool_decide (id ∈ ap) then ret true
  else au <-- lift (get_active id); check_authority max_recursion shared au.

(** The number of unused signatures; they are erased. *)
Definition remove_unused_signatures : M Z :=
  p <-- get provided_signatures;
  let unused := filter (fun kv => kv.2 = false) p in
  _ <-- modify (set_provided (filter (fun kv => kv.2 = true) p));
  ret (Z.of_nat (size unused)).

Definition new_sign_state (sigs keys : gset Z) : sign_state :=
  mk_sign_state (gset_to_gmap false sigs) keys {[GRAPHENE_TEMP_ACCOUNT]} None.

(** ** Verification *)

(** The message of a failed assertion dereferences the authorities it prints. *)
Definition missing (e : exn) (au : result (option authority)) : result unit :=
  let* a := au in
  match a with
  | Some _ => Err e
  | None => Err undefined_behaviour
  end.

Fixpoint each {A} (f : A -> M unit) (l : list A) : M unit :=
  match l with
  | [] => ret tt
  | x :: l' => _ <-- f x; each f l'
  end.

Definition require_other (n : nat) (auth : authority) : M unit :=
  b <-- check_authority n false (Some auth);
  lift (graphene_assert b tx_missing_other_auth).

Definition require_active (n : nat) (id : Z) : M unit :=
  b <-- check_account n id;
  b <-- (if b then ret true
         else au <-- lift (get_owner id); check_authority n false au);
  if b then ret tt
  else _ <-- lift (let* a := get_active id in
                   match a with Some _ => Ok tt | None => Err undefined_behaviour end);
       lift (missing tx_missing_active_auth (get_owner id)).

Definition require_owner (n : nat) (owner_approvals : gset Z) (id : Z) : M unit :=
  b <-- (if bool_decide (id ∈ owner_approvals) then ret true
         else au <-- lift (get_owner id); check_authority n false au);
  if b then ret tt else lift (missing tx_missing_owner_auth (get_owner id)).

(** [try { ... } catch (...)] around the committee check: an exception counts as no. *)
Definition committee_approves (n : nat) : M bool :=
  try_catch (check_account n GRAPHENE_COMMITTEE_ACCOUNT) (fun _ => ret false).

(** What the operations require: active and owner authorities of accounts, and
    authorities of their own. *)
Record requirements := mk_requirements {
  required_active : list Z;
  required_owner : list Z;
  other : list authority }.

Definition verify_all (n : nat) (allow_committe : bool) (owner_approvals : gset Z)
    (r : requirements) : M unit :=
  _ <-- each (require_other n) (other r);
  _ <-- each (require_active n) (required_active r);
  _ <-- each (require_owner n owner_approvals) (required_owner r);
  k <-- remove_unused_signatures;
  lift (graphene_assert ((k <=? 5) || allow_committe) tx_irrelevant_sig).

Definition verify_authority (r : requirements) (sigs : gset Z) (max_recursion_depth : nat)
    (allow_committe : bool) (active_aprovals owner_approvals : gset Z) : result unit :=
  let s := new_sign_state sigs ∅ in
  let s := set_approved (owner_approvals ∪ (active_aprovals ∪ approved_by s)) s in
  ((if negb allow_committe then
     _ <-- lift (graphene_assert (bool_decide (GRAPHENE_COMMITTEE_ACCOUNT ∉ required_active r))
                   invalid_committee_approval);
     verify_all max_recursion_depth allow_committe owner_approvals r
   else
     b <-- committee_approves max_recursion_depth;
     if b then ret tt else verify_all max_recursion_depth allow_committe owner_approvals r) s).1.

(** ** Choosing signatures *)

(** The keys recovered from the signatures, in order. *)
Fixpoint get_signature_keys (recovered : list Z) (acc : gset Z) : result (gset Z) :=
  match recovered with
  | [] => Ok acc
  | k :: l => require bool_decide (k ∉ acc) else tx_duplicate_sig; get_signature_keys l ({[k]} ∪ acc)
  end.

Definition get_required_signatures (r : requirements) (recovered : list Z) (available : gset Z)
    (max_recursion_depth : nat) : result (gset Z) :=
  let* sigs := get_signature_keys recovered ∅ in
  match (_ <-- each (fun a => _ <-- check_authority max_recursion_depth false (Some a); ret tt) (other r);
         _ <-- each (fun id => au <-- lift (get_owner id);
                               _ <-- check_authority max_recursion_depth false au; ret tt) (required_owner r);
         _ <-- each (fun id => _ <-- check_account max_recursion_depth id; ret tt) (required_active r);
         remove_unused_signatures) (new_sign_state sigs available) with
  | (Ok _, s) => Ok (dom (provided_signatures s) ∩ available)
  | (Err e, _) => Err e
  end.

(** Drop each key in turn and keep it out when the rest still verifies. *)
Fixpoint minimize_loop (r : requirements) (max_recursion : nat) (keys : list Z) (result_ : gset Z)
    : result (gset Z) :=
  match keys with
  | [] => Ok result_
  | k :: keys' =>
      match verify_authority r (result_ ∖ {[k]}) max_recursion false ∅ ∅ with
      | Ok _ => minimize_loop r max_recursion keys' (result_ ∖ {[k]})
      | Err e =>
          if bool_decide (e ∈ [tx_missing_owner_auth; tx_missing_active_auth; tx_missing_other_auth])
          then minimize_loop r max_recursion keys' ({[k]} ∪ result_ ∖ {[k]})
          else Err e
      end
  end.

Definition minimize_required_signatures (r : requirements) (recovered : list Z)
    (available : gset Z) (max_recursion : nat) : result (gset Z) :=
  let* s := get_required_signatures r recovered available max_recursion in
  minimize_loop r max_recursion (merge_sort Z.le (elements s)) s.
End Checker.

(** ** What a signature set supports *)

Section Spec.
Variable key_addresses : Z -> list Z.
Variable get_active : Z -> result (option authority).
Variable keys : gset Z.
Variable approvals : gset Z.

(** Weights are unsigned and an authority's weights fit the 32-bit total. *)
Definition authority_ok (a : authority) : Prop :=
  Forall (fun kw => 0 <= kw.2) (key_auths a) /\ Forall (fun kw => 0 <= kw.2) (address_auths a)
  /\ Forall (fun kw => 0 <= kw.2) (account_auths a)
  /\ weights (key_auths a) + weights (address_auths a) + weights (account_auths a) < uint32_mod.

(** Members that hold enough weight are supported by a finite derivation from the
    keys and the approvals: no account vouches for itself. *)
Inductive satisfied : authority -> Prop :=
| satisfied_intro auth K D A :
    sublist K (key_auths auth) -> Forall (fun kw => kw.1 ∈ keys) K ->
    sublist D (address_auths auth) ->
    Forall (fun dw => exists k, k ∈ keys /\ dw.1 ∈ key_addresses k) D ->
    sublist A (account_auths auth) ->
    Forall (fun aw => aw.1 ∈ approvals
                      \/ exists au, get_active aw.1 = Ok (Some au) /\ satisfied au) A ->
    weight_threshold auth <= weights K + weights D + weights A ->
    satisfied auth.

Definition accepted (a : Z) : Prop :=
  a ∈ approvals \/ exists au, get_active a = Ok (Some au) /\ satisfied au.

(** The same through at most [n] levels of accounts, without addresses. *)
Fixpoint satisfied_within (n : nat) (auth : authority) : Prop :=
  exists K A, sublist K (key_auths auth) /\ Forall (fun kw => kw.1 ∈ keys) K
    /\ sublist A (account_auths auth)
    /\ Forall (fun aw => aw.1 ∈ approvals
                 \/ match n with
                    | O => False
                    | S n' => exists au, get_active aw.1 = Ok (Some au) /\ satisfied_within n' au
                    end) A
    /\ weight_threshold auth <= weights K + weights A.
End Spec.

(** ** Weighing, in general *)

Lemma wrap32_le z : 0 <= z -> wrap32 z <= z.
Proof. intros H. apply Z.mod_le; lia. Qed.

Lemma weights_nonneg l : Forall (fun kw : Z * Z => 0 <= kw.2) l -> 0 <= weights l.
Proof. intros H. apply sumZ_nonneg. by rewrite Forall_forall in H. Qed.

Lemma weights_sublist l k : Forall (fun kw : Z * Z => 0 <= kw.2) l -> sublist k l -> weights k <= weights l.
Proof.
  intros Hl Hs. induction Hs as [|x k l _ IH|x k l _ IH]; cbn in *; [lia| |];
    inversion_clear Hl; specialize (IH H0); unfold weights in *; lia.
Qed.

Section Weigh.
Variable inv : sign_state -> Prop.
Variable good : Z -> Prop.
Variable member : Z -> M bool.
Hypothesis member_sound : forall k s r s', inv s -> member k s = (r, s') ->
  inv s' /\ (r = Ok true -> good k).

Lemma weigh_sound th l : forall t s r s',
  Forall (fun kw : Z * Z => 0 <= kw.2) l -> 0 <= t -> inv s -> weigh member th l t s = (r, s') ->
  inv s' /\ exists L, sublist L l /\ Forall (fun kw => good kw.1) L
    /\ (r = Ok None -> th <= t + weights L)
    /\ (forall t', r = Ok (Some t') -> 0 <= t' <= t + weights L).
Proof.
  induction l as [|[k w] l IH]; intros t s r s' Hl Ht Hi H; cbn in H.
  - injection H as <- <-. split; [done|]. exists []. do 2 (split; [done|]). split; [done|].
    intros t' [= <-]. cbn. lia.
  - inversion_clear Hl as [|? ? Hw Hl']. cbn in Hw. unfold bind at 1 in H.
    destruct (member k s) as [[b|e] s1] eqn:Em; destruct (member_sound _ _ _ _ Hi Em) as [Hi1 Hg].
    + destruct b.
      * specialize (Hg eq_refl).
        assert (Hw2 : 0 <= wrap32 (t + w) <= t + w)
          by (split; [apply wrap32_bound|apply wrap32_le; lia]).
        case_if_in H.
        -- injection H as <- <-. split; [done|]. exists [(k, w)].
           split; [apply sublist_skip, sublist_nil_l|]. split; [by constructor|].
           bool_to_prop. split; [cbn; lia|done].
        -- destruct (IH _ _ _ _ Hl' (proj1 Hw2) Hi1 H) as (Hi2 & L & Hs & Hf & H1 & H2).
           split; [done|]. exists ((k, w) :: L). split; [by apply sublist_skip|].
           split; [by constructor|]. cbn [weights sumZ snd]. fold (weights L).
           split; [intros E; specialize (H1 E); lia|intros t' E; specialize (H2 _ E); lia].
      * destruct (IH _ _ _ _ Hl' Ht Hi1 H) as (Hi2 & L & Hs & Hf & H1 & H2).
        split; [done|]. exists L. split; [by apply sublist_cons|done].
    + injection H as <- <-. split; [done|]. exists []. split; [apply sublist_nil_l|]. done.
Qed.
End Weigh.

Section WeighComplete.
Variable inv : sign_state -> Prop.
Variable member : Z -> M bool.
Variable wanted known : Z -> Prop.
Hypothesis member_total : forall k s, known k -> inv s -> exists b s', member k s = (Ok b, s') /\ inv s'
  /\ (wanted k -> b = true).

Lemma weigh_complete th l : forall t s,
  Forall (fun kw : Z * Z => 0 <= kw.2) l -> Forall (fun kw : Z * Z => known kw.1) l ->
  inv s -> 0 <= t -> t + weights l < uint32_mod ->
  exists o s', weigh member th l t s = (Ok o, s') /\ inv s'
    /\ forall t', o = Some t' -> t' <= t + weights l
       /\ forall L, sublist L l -> Forall (fun kw => wanted kw.1) L -> t + weights L <= t'.
Proof.
  induction l as [|[k w] l IH]; intros t s Hl Hkn Hi Ht Hb; cbn [weigh].
  - exists (Some t), s. do 2 (split; [done|]). intros t' [= <-]. cbn. split; [lia|].
    intros L HL _. apply sublist_nil_r in HL as ->. cbn. lia.
  - inversion_clear Hl as [|? ? Hw Hl']. cbn in Hw. pose proof (weights_nonneg _ Hl') as Hn.
    apply Forall_cons in Hkn as [Hk Hkn].
    change (weights ((k, w) :: l)) with (w + weights l) in *.
    destruct (member_total k s Hk Hi) as (b & s1 & Em & Hi1 & Hb1).
    unfold bind at 1. rewrite Em.
    assert (HL : forall L, sublist L ((k, w) :: l) -> Forall (fun kw => wanted kw.1) L ->
      exists L', sublist L' l /\ Forall (fun kw => wanted kw.1) L'
        /\ weights L <= weights L' + (if b then w else 0)).
    { intros L Hs Hf. apply sublist_cons_r in Hs as [Hs|(L' & -> & Hs)].
      - exists L. split; [done|]. split; [done|]. destruct b; lia.
      - inversion_clear Hf as [|? ? Hwk Hf']. rewrite (Hb1 Hwk). exists L'. do 2 (split; [done|]). cbn.
        unfold weights. lia. }
    destruct b.
    + rewrite wrap32_small by lia. case_if.
      * exists None, s1. done.
      * destruct (IH (t + w) s1) as (o & s2 & E & Hi2 & Ho); [done..|lia|lia|].
        exists o, s2. do 2 (split; [done|]). intros t' Et. destruct (Ho _ Et) as [H1 H2].
        split; [lia|]. intros L Hs Hf. destruct (HL L Hs Hf) as (L' & Hs' & Hf' & HwL).
        specialize (H2 L' Hs' Hf'). cbv iota in HwL. lia.
    + destruct (IH t s1) as (o & s2 & E & Hi2 & Ho); [done..|lia|].
      exists o, s2. do 2 (split; [done|]). intros t' Et. destruct (Ho _ Et) as [H1 H2].
      split; [lia|]. intros L Hs Hf. destruct (HL L Hs Hf) as (L' & Hs' & Hf' & HwL).
      specialize (H2 L' Hs' Hf'). cbv iota in HwL. lia.
Qed.
End WeighComplete.

(** ** Soundness of the checker *)

Section Sound.
Variable key_addresses : Z -> list Z.
Variable get_active : Z -> result (option authority).
Variable shared : bool.
Variable get_owner : Z -> result (option authority).
Variable keys : gset Z.
Variable approvals : gset Z.
Hypothesis active_ok : forall a au, get_active a = Ok (Some au) -> authority_ok au.

Notation satisfied := (satisfied key_addresses get_active keys approvals).
Notation accepted := (accepted key_addresses get_active keys approvals).

Definition table_ok (t : gmap Z Z) : Prop :=
  forall a k, t !! a = Some k -> k ∈ keys /\ a ∈ key_addresses k.

(** What the checker's state records is justified. *)
Record state_ok (s : sign_state) : Prop := {
  so_provided : forall k b, provided_signatures s !! k = Some b -> k ∈ keys;
  so_available : available_keys s ⊆ keys;
  so_approved : forall a, a ∈ approved_by s -> accepted a;
  so_tables : forall t, address_sigs s = Some t -> table_ok t.1 /\ table_ok t.2 }.

Lemma state_ok_provided s k : state_ok s -> k ∈ keys ->
  state_ok (set_provided (<[k := true]> (provided_signatures s)) s).
Proof.
  intros [] Hk. split; auto. cbn. intros k' b Hb. apply lookup_insert_Some in Hb as [[<- _]|[_ Hb]]; eauto.
Qed.

Lemma signed_by_key_sound k s r s' : state_ok s -> signed_by_key k s = (r, s') ->
  state_ok s' /\ (r = Ok true -> k ∈ keys).
Proof.
  intros Hs H. unfold signed_by_key, bind, get in H. cbn in H.
  destruct (provided_signatures s !! k) as [b|] eqn:E.
  - injection H as <- <-. pose proof (so_provided _ Hs _ _ E) as Hk.
    split; [by apply state_ok_provided|done].
  - case_if_in H; injection H as <- <-; [|by split].
    apply bool_decide_eq_true in Hif. pose proof (so_available _ Hs _ Hif) as Hk.
    split; [by apply state_ok_provided|done].
Qed.

Lemma address_table_ok l : Forall (fun k => k ∈ keys) l -> table_ok (address_table key_addresses l).
Proof.
  unfold address_table. intros Hl.
  assert (Hin : forall k, k ∈ merge_sort Z.le l -> k ∈ keys).
  { intros k Hk. rewrite Forall_forall in Hl. apply Hl. by rewrite (merge_sort_Permutation Z.le l) in Hk. }
  assert (Hgen : forall ks t, (forall k, k ∈ ks -> k ∈ keys) -> table_ok t -> table_ok (foldl (fun t k =>
    foldl (fun t a => <[a := k]> t) t (key_addresses k)) t ks)).
  { induction ks as [|k ks IH]; cbn; intros t Hks Ht; [done|]. apply IH; [intros k' Hk'; apply Hks; by constructor|].
    assert (Hk : k ∈ keys) by (apply Hks; constructor).
    assert (Hsub : forall al t, al ⊆ key_addresses k -> table_ok t ->
      table_ok (foldl (fun t a => <[a := k]> t) t al)).
    { clear IH Hks Ht t. induction al as [|a al IHa]; cbn; intros t Hal Ht; [done|].
      apply IHa; [intros a' Ha'; apply Hal; by constructor|]. intros a' k' Hk'.
      apply lookup_insert_Some in Hk' as [[<- <-]|[_ Hk']]; [|by apply Ht].
      split; [done|apply Hal; constructor]. }
    by apply Hsub. }
  apply Hgen; [done|]. intros a k H. by rewrite lookup_empty in H.
Qed.

Lemma signed_by_address_sound a s r s' : state_ok s ->
  signed_by_address key_addresses a s = (r, s') ->
  state_ok s' /\ (r = Ok true -> exists k, k ∈ keys /\ a ∈ key_addresses k).
Proof.
  intros Hs H. unfold signed_by_address in H. unfold bind at 1 in H.
  destruct (fill_address_sigs key_addresses s) as [rt s1] eqn:Ef.
  assert (H1 : exists t, rt = Ok t /\ state_ok s1 /\ table_ok t.1 /\ table_ok t.2
    /\ available_keys s1 = available_keys s).
  { unfold fill_address_sigs, bind, get, modify, ret in Ef.
    destruct (address_sigs s) as [t|] eqn:Et.
    - injection Ef as <- <-. destruct (so_tables _ Hs _ Et). exists t. by do 4 (split; [done|]).
    - injection Ef as <- <-. eexists. split; [done|].
      assert (T1 : table_ok (address_table key_addresses (elements (available_keys s)))).
      { apply address_table_ok, Forall_forall. intros k Hk. apply elem_of_elements in Hk.
        by apply (so_available _ Hs). }
      assert (T2 : table_ok (address_table key_addresses (map fst (map_to_list (provided_signatures s))))).
      { apply address_table_ok, Forall_forall. intros k Hk. apply list_elem_of_fmap in Hk as ([k' b] & -> & Hk).
        apply elem_of_map_to_list in Hk. by eapply so_provided. }
      destruct Hs. split; [|done]. split; auto. cbn. by intros t [= <-]. }
  destruct H1 as (t & -> & Hs1 & T1 & T2 & Ea). unfold bind, get, modify, ret, throw in H.
  destruct (t.2 !! a) as [k|] eqn:E2.
  - injection H as <- <-. destruct (T2 _ _ E2). split; [by apply state_ok_provided|eauto].
  - destruct (t.1 !! a) as [k|] eqn:E1; [|by injection H as <- <-].
    destruct (T1 _ _ E1). case_if_in H; injection H as <- <-; [|by split].
    split; [by apply state_ok_provided|eauto].
Qed.

Lemma account_member_sound rec bf a s r s' :
  (forall f, rec = Some f -> forall au s r s', get_active a = Ok au -> state_ok s -> f au s = (r, s') ->
     state_ok s' /\ (r = Ok true -> exists x, au = Some x /\ satisfied x)) ->
  state_ok s -> account_member get_active rec bf a s = (r, s') ->
  state_ok s' /\ (r = Ok true -> accepted a).
Proof.
  intros Hrec Hs H. unfold account_member, bind, get, lift, modify, ret in H.
  case_if_in H.
  - injection H as <- <-. apply bool_decide_eq_true in Hif. split; [done|]. intros _. by apply (so_approved s).
  - destruct rec as [f|]; [|by injection H as <- <-].
    destruct (get_active a) as [au|] eqn:Ea; [|by injection H as <- <-].
    destruct (f au s) as [[b|] s1] eqn:Ef; destruct (Hrec f eq_refl _ _ _ _ eq_refl Hs Ef) as [Hs1 Hb].
    + destruct bf; [by injection H as <- <-|]. destruct b; injection H as <- <-; [|by split].
      destruct (Hb eq_refl) as (x & -> & Hx). assert (Hacc : accepted a) by (right; eauto).
      split; [|done]. destruct Hs1. split; auto. cbn. intros a' Ha'.
      apply elem_of_union in Ha' as [Ha'|Ha']; [apply elem_of_singleton in Ha' as ->; done|auto].
    + by injection H as <- <-.
Qed.

Lemma check_authority_sound n : forall bf au s r s',
  (forall a, au = Some a -> authority_ok a) -> state_ok s ->
  check_authority key_addresses get_active shared n bf au s = (r, s') ->
  state_ok s' /\ (r = Ok true -> exists a, au = Some a /\ satisfied a).
Proof.
  induction n as [|n IH]; intros bf [auth|] s r s' Hok Hs H;
    try (cbn in H; injection H as <- <-; done); cbn [check_authority] in H;
    destruct (Hok _ eq_refl) as (O1 & O2 & O3 & _); unfold bind at 1 in H.
  all: destruct (weigh signed_by_key _ _ 0 s) as [r1 s1] eqn:E1;
    destruct (weigh_sound state_ok (fun k => k ∈ keys) signed_by_key signed_by_key_sound
      _ _ _ _ _ _ O1 (Z.le_refl 0) Hs E1) as (S1 & K & K1 & K2 & K3 & K4).
  all: destruct r1 as [[t1|]|]; [|injection H as <- <-; split; [done|intros _; exists auth; split; [done|]];
      apply (satisfied_intro _ _ _ _ auth K [] []); cbn;
        [done|done|apply sublist_nil_l|constructor|apply sublist_nil_l|constructor|specialize (K3 eq_refl); lia]
    |by injection H as <- <-].
  all: specialize (K4 _ eq_refl); unfold bind at 1 in H;
    destruct (weigh (signed_by_address key_addresses) _ _ t1 s1) as [r2 s2] eqn:E2;
    destruct (weigh_sound state_ok (fun a => exists k, k ∈ keys /\ a ∈ key_addresses k)
      (signed_by_address key_addresses) signed_by_address_sound
      _ _ _ _ _ _ O2 (proj1 K4) S1 E2) as (S2 & D & D1 & D2 & D3 & D4).
  all: destruct r2 as [[t2|]|]; [|injection H as <- <-; split; [done|intros _; exists auth; split; [done|]];
      apply (satisfied_intro _ _ _ _ auth K D []); cbn;
        [done|done|done|done|apply sublist_nil_l|constructor|specialize (D3 eq_refl); lia]
    |by injection H as <- <-].
  all: specialize (D4 _ eq_refl); unfold bind at 1 in H.
  all: match type of H with context [weigh (account_member get_active ?rc ?b)] => set (rec := rc) in H; set (bf0 := b) in H end.
  all: assert (Hm : forall k s r s', state_ok s -> account_member get_active rec bf0 k s = (r, s') ->
    state_ok s' /\ (r = Ok true -> accepted k)) by
    (intros k s0 r0 s0' Hs0 Hc0; eapply account_member_sound; [|exact Hs0|exact Hc0]; subst rec;
     intros f Hf; first [discriminate Hf|injection Hf as <-; intros au s4 r4 s4' Hau Hs4 Hc;
     eapply IH; [|exact Hs4|exact Hc]; intros a ->; by eapply active_ok]).
  all: destruct (weigh (account_member get_active rec bf0) _ _ t2 s2) as [r3 s3] eqn:E3;
    destruct (weigh_sound state_ok accepted (account_member get_active rec bf0) Hm
      _ _ _ _ _ _ O3 (proj1 D4) S2 E3) as (S3 & A & A1 & A2 & A3 & A4).
  all: destruct r3 as [[t3|]|]; injection H as <- <-; (split; [done|]); intros Hr; try discriminate Hr;
    exists auth; (split; [done|]); apply (satisfied_intro _ _ _ _ auth K D A); try done;
    [injection Hr as Hr; specialize (A4 _ eq_refl); bool_to_prop; lia|specialize (A3 eq_refl); lia].
Qed.

Hypothesis owner_ok : forall a au, get_owner a = Ok (Some au) -> authority_ok au.

Lemma each_sound {A} (f : A -> M unit) (Q : A -> Prop) l :
  (forall x s s', x ∈ l -> state_ok s -> f x s = (Ok tt, s') -> state_ok s' /\ Q x) ->
  forall s s', state_ok s -> each f l s = (Ok tt, s') -> state_ok s' /\ Forall Q l.
Proof.
  induction l as [|x l IH]; intros Hf s s' Hs H; cbn in H.
  - by injection H as <-.
  - apply bind_ok in H as ([] & s1 & H1 & H). destruct (Hf x s s1) as [Hs1 Hx]; [constructor|done..|].
    destruct (IH (fun y t t' Hy => Hf y t t' (proj2 (elem_of_cons _ _ _) (or_intror Hy))) s1 s' Hs1 H).
    split; [done|by constructor].
Qed.

Lemma check_account_sound n id s r s' : state_ok s ->
  check_account key_addresses get_active shared n id s = (r, s') ->
  state_ok s' /\ (r = Ok true -> accepted id).
Proof.
  intros Hs H. unfold check_account, bind, get, lift, ret in H. case_if_in H.
  - injection H as <- <-. apply bool_decide_eq_true in Hif. split; [done|]. intros _. by apply (so_approved s).
  - destruct (get_active id) as [au|] eqn:Ea; [|by injection H as <- <-].
    destruct (check_authority_sound n shared au s r s') as [Hs' Hr]; [|done|done|].
    + intros a ->. by eapply active_ok.
    + split; [done|]. intros Er. destruct (Hr Er) as (a & -> & Ha). right. eauto.
Qed.

(** Either authority of the owner kind satisfied. *)
Definition owned (id : Z) : Prop := exists au, get_owner id = Ok (Some au) /\ satisfied au.

Lemma check_owner_sound n id s r s' : state_ok s ->
  bind (lift (get_owner id)) (fun au => check_authority key_addresses get_active shared n false au) s = (r, s') ->
  state_ok s' /\ (r = Ok true -> owned id).
Proof.
  intros Hs H. unfold bind, lift in H. destruct (get_owner id) as [au|] eqn:Ea; [|by injection H as <- <-].
  destruct (check_authority_sound n false au s r s') as [Hs' Hr]; [|done|done|].
  - intros a ->. by eapply owner_ok.
  - split; [done|]. intros Er. destruct (Hr Er) as (a & -> & Ha). eexists. eauto.
Qed.

Lemma missing_not_ok e au u : missing e au <> Ok u.
Proof. unfold missing. destruct au as [[]|]; done. Qed.

Lemma require_active_sound n id s s' : state_ok s ->
  require_active key_addresses get_active shared get_owner n id s = (Ok tt, s') ->
  state_ok s' /\ (accepted id \/ owned id).
Proof.
  intros Hs H. unfold require_active in H. apply bind_ok in H as (b & s1 & H1 & H).
  destruct (check_account_sound _ _ _ _ _ Hs H1) as [Hs1 Hb].
  apply bind_ok in H as (b2 & s2 & H2 & H).
  assert (Hs2 : state_ok s2 /\ (b2 = true -> accepted id \/ owned id)).
  { destruct b; [injection H2 as <- <-; auto|].
    destruct (check_owner_sound _ _ _ _ _ Hs1 H2) as [Hs2 Ho]. split; [done|]. intros ->. auto. }
  destruct Hs2 as [Hs2 Hacc]. destruct b2; [injection H as <-; auto|].
  apply bind_ok in H as (u & s3 & _ & H). injection H as Hm _. by apply missing_not_ok in Hm.
Qed.

Lemma require_owner_sound n own id s s' : state_ok s ->
  require_owner key_addresses get_active shared get_owner n own id s = (Ok tt, s') ->
  state_ok s' /\ (id ∈ own \/ owned id).
Proof.
  intros Hs H. unfold require_owner in H. apply bind_ok in H as (b & s1 & H1 & H).
  assert (Hs1 : state_ok s1 /\ (b = true -> id ∈ own \/ owned id)).
  { case_if_in H1; [injection H1 as <- <-; apply bool_decide_eq_true in Hif; auto|].
    destruct (check_owner_sound _ _ _ _ _ Hs H1) as [Hs1 Ho]. split; [done|]. intros ->. auto. }
  destruct Hs1 as [Hs1 Hacc]. destruct b; [injection H as <-; auto|].
  injection H as Hm _. by apply missing_not_ok in Hm.
Qed.

Lemma require_other_sound n a s s' : authority_ok a -> state_ok s ->
  require_other key_addresses get_active shared n a s = (Ok tt, s') -> state_ok s' /\ satisfied a.
Proof.
  intros Ha Hs H. unfold require_other in H. apply bind_ok in H as (b & s1 & H1 & H).
  destruct (check_authority_sound n false (Some a) s (Ok b) s1) as [Hs1 Hb]; [by intros x [= <-]|done|done|].
  unfold lift in H. destruct b; cbn in H; [|done]. injection H as <-.
  split; [done|]. by destruct (Hb eq_refl) as (x & [= <-] & Hx).
Qed.

(** Everything the operations require is supported. *)
Definition authorized (own : gset Z) (r : requirements) : Prop :=
  Forall satisfied (other r)
  /\ Forall (fun id => accepted id \/ owned id) (required_active r)
  /\ Forall (fun id => id ∈ own \/ owned id) (required_owner r).

Lemma verify_all_sound n allow own r s s' : Forall authority_ok (other r) -> state_ok s ->
  verify_all key_addresses get_active shared get_owner n allow own r s = (Ok tt, s') -> authorized own r.
Proof.
  intros Ho Hs H. unfold verify_all in H. apply bind_ok in H as ([] & s1 & H1 & H).
  apply bind_ok in H as ([] & s2 & H2 & H). apply bind_ok in H as ([] & s3 & H3 & _).
  destruct (each_sound _ satisfied _ (fun x t t' Hx Ht => require_other_sound n x t t'
    (proj1 (Forall_forall _ _) Ho x Hx) Ht) _ _ Hs H1) as [Hs1 F1].
  destruct (each_sound _ (fun id => accepted id \/ owned id) _ (fun x t t' _ Ht => require_active_sound n x t t' Ht)
    _ _ Hs1 H2) as [Hs2 F2].
  destruct (each_sound _ (fun id => id ∈ own \/ owned id) _ (fun x t t' _ Ht => require_owner_sound n own x t t' Ht)
    _ _ Hs2 H3) as [_ F3].
  done.
Qed.
End Sound.

(** ** Completeness of the checker *)

Section Complete.
Variable key_addresses : Z -> list Z.
Variable get_active : Z -> result (option authority).
Variable get_owner : Z -> result (option authority).
Variable keys : gset Z.
Variable approvals : gset Z.
(** The accounts there are; looking up another one throws. *)
Variable known : gset Z.

(** Authorities that name accounts there are and no obsolete addresses. *)
Definition plain (au : authority) : Prop :=
  authority_ok au /\ address_auths au = [] /\ Forall (fun aw => aw.1 ∈ known) (account_auths au).

Hypothesis active_found : forall a, a ∈ known -> exists o, get_active a = Ok o /\ forall au, o = Some au -> plain au.
Hypothesis owner_found : forall a, a ∈ known -> exists au, get_owner a = Ok (Some au) /\ plain au.

Notation within := (satisfied_within get_active keys approvals).

Record ready (s : sign_state) : Prop := {
  rd_provided : dom (provided_signatures s) = keys;
  rd_available : available_keys s = ∅;
  rd_approved : approvals ⊆ approved_by s }.

Lemma ready_mark s k : ready s -> k ∈ keys ->
  ready (set_provided (<[k := true]> (provided_signatures s)) s).
Proof. intros [E1 E2 E3] Hk. split; cbn; [|done|done]. rewrite dom_insert_L, E1. set_solver. Qed.

Lemma signed_by_key_total k s : ready s -> exists b s', signed_by_key k s = (Ok b, s') /\ ready s'
  /\ (k ∈ keys -> b = true).
Proof.
  intros Hs. unfold signed_by_key, bind, get, modify, ret.
  destruct (provided_signatures s !! k) as [b|] eqn:E.
  - assert (Hk : k ∈ keys) by (rewrite <- (rd_provided _ Hs); apply elem_of_dom; eauto).
    exists true. eexists. split; [done|]. split; [by apply ready_mark|done].
  - assert (Hk : k ∉ keys) by (rewrite <- (rd_provided _ Hs); by apply not_elem_of_dom).
    rewrite (rd_available _ Hs), bool_decide_eq_false_2 by set_solver.
    exists false, s. done.
Qed.

Lemma account_member_total rec a s (W : Prop) : a ∈ known -> ready s ->
  (forall f, rec = Some f -> forall o s, get_active a = Ok o -> ready s ->
     exists b s', f o s = (Ok b, s') /\ ready s' /\ (W -> b = true)) ->
  exists b s', account_member get_active rec false a s = (Ok b, s') /\ ready s'
    /\ (a ∈ approvals \/ (rec <> None /\ W) -> b = true).
Proof.
  intros Hkn Hs Hrec. unfold account_member, bind, get, lift, modify, ret. case_if.
  - exists true, s. done.
  - apply bool_decide_eq_false in Hif.
    assert (Hna : a ∉ approvals) by (intros Ha; apply Hif; by apply (rd_approved _ Hs)).
    destruct rec as [f|].
    + destruct (active_found a Hkn) as (o & Eo & _). rewrite Eo.
      destruct (Hrec f eq_refl o s Eo Hs) as (b & s1 & Ef & Hs1 & Hb). rewrite Ef. destruct b.
      * exists true. eexists. split; [done|]. split; [|done]. destruct Hs1. split; cbn; [done|done|set_solver].
      * exists false, s1. do 2 (split; [done|]). intros [?|[_ Hw]]; [done|by apply Hb].
    + exists false, s. do 2 (split; [done|]). by intros [?|[? _]].
Qed.

(** Members of an authority that count within [n] levels. *)
Definition counts (n : nat) (a : Z) : Prop :=
  a ∈ approvals \/ match n with
                   | O => False
                   | S n' => exists au, get_active a = Ok (Some au) /\ within n' au
                   end.

Lemma within_unfold n auth : within n auth <->
  exists K A, sublist K (key_auths auth) /\ Forall (fun kw => kw.1 ∈ keys) K
    /\ sublist A (account_auths auth) /\ Forall (fun aw => counts n aw.1) A
    /\ weight_threshold auth <= weights K + weights A.
Proof. by destruct n. Qed.

(** One level, given what the level below does. *)
Lemma check_level n auth s : ready s -> plain auth ->
  (forall n', n = S n' -> forall o s, ready s -> (forall au, o = Some au -> plain au) ->
     exists b s', check_authority key_addresses get_active false n' false o s = (Ok b, s') /\ ready s'
       /\ forall au, o = Some au -> within n' au -> b = true) ->
  exists b s', check_authority key_addresses get_active false n false (Some auth) s = (Ok b, s') /\ ready s'
    /\ (within n auth -> b = true).
Proof.
  intros Hs [(O1 & _ & O3 & Osum) [Oa Okn]] IH.
  assert (Osum' : weights (key_auths auth) + weights (account_auths auth) < uint32_mod)
    by (rewrite Oa in Osum; unfold weights in *; cbn in Osum; lia). clear Osum.
  pose proof (weights_nonneg _ O1) as Pk. pose proof (weights_nonneg _ O3) as Pa.
  destruct (weigh_complete ready signed_by_key (fun k => k ∈ keys) (fun _ => True)
    (fun k s _ => signed_by_key_total k s) (weight_threshold auth) (key_auths auth) 0 s O1
    ltac:(by apply Forall_true) Hs ltac:(lia) ltac:(lia)) as (o1 & s1 & E1 & Hs1 & H1).
  set (rec := match n with O => None
              | S m => Some (fun a => check_authority key_addresses get_active false m false a) end).
  assert (Hm : forall k s, k ∈ known -> ready s -> exists b s', account_member get_active rec false k s = (Ok b, s')
    /\ ready s' /\ (counts n k -> b = true)).
  { intros k s0 Hkn Hs0. destruct (account_member_total rec k s0
      (match n with O => False | S m => exists au, get_active k = Ok (Some au) /\ within m au end))
      as (b & s0' & E & Hs0' & Hb); [done|done| |].
    - intros f Hf o s2 Ho Hs2. unfold rec in Hf. destruct n as [|m]; [done|]. injection Hf as <-.
      destruct (active_found k Hkn) as (o' & Eo & Hp). rewrite Eo in Ho. injection Ho as ->.
      destruct (IH m eq_refl o s2 Hs2 Hp) as (b & s3 & Ec & Hs3 & Hb). exists b, s3.
      do 2 (split; [done|]). intros (au & Eau & Hw). rewrite Eo in Eau. injection Eau as ->.
      by apply (Hb au).
    - exists b, s0'. do 2 (split; [done|]). intros [Ha|Hw]; apply Hb; [by left|right].
      unfold rec. by destruct n. }
  assert (Eunf : check_authority key_addresses get_active false n false (Some auth) s =
    match o1 with
    | None => (Ok true, s1)
    | Some t => bind (weigh (account_member get_active rec false) (weight_threshold auth) (account_auths auth) t)
        (fun t => match t with None => ret true | Some t => ret (t >=? weight_threshold auth) end) s1
    end).
  { subst rec. destruct n; cbn [check_authority]; unfold bind at 1; rewrite E1; destruct o1; try done;
      rewrite Oa; cbn [weigh]; unfold bind at 1, ret at 1; done. }
  rewrite Eunf. destruct o1 as [t1|]; [|by exists true, s1]. destruct (H1 _ eq_refl) as [B1 L1].
  specialize (L1 [] ltac:(apply sublist_nil_l) ltac:(constructor)) as T1. cbn in T1.
  destruct (weigh_complete ready _ (counts n) (fun k => k ∈ known) Hm (weight_threshold auth) _ t1 s1 O3 Okn Hs1 ltac:(lia) ltac:(lia))
    as (o2 & s2 & E2 & Hs2 & H2). unfold bind, ret. rewrite E2.
  destruct o2 as [t2|]; [|by exists true, s2]. destruct (H2 _ eq_refl) as [B2 L2].
  eexists _, s2. split; [done|]. split; [done|]. rewrite within_unfold.
  intros (K & A & K1 & K2 & A1 & A2 & Hth). specialize (L1 K K1 K2). specialize (L2 A A1 A2).
  rewrite Z.geb_leb. apply Z.leb_le. lia.
Qed.

Lemma check_authority_total n : forall o s, ready s -> (forall au, o = Some au -> plain au) ->
  exists b s', check_authority key_addresses get_active false n false o s = (Ok b, s') /\ ready s'
    /\ forall au, o = Some au -> within n au -> b = true.
Proof.
  induction n as [|n IH]; intros [auth|] s Hs Hpl; try (exists false, s; done).
  - destruct (check_level 0 auth s Hs (Hpl _ eq_refl)) as (b & s' & E & Hs' & Hb); [done|].
    exists b, s'. do 2 (split; [done|]). by intros au [= <-].
  - destruct (check_level (S n) auth s Hs (Hpl _ eq_refl)) as (b & s' & E & Hs' & Hb).
    { intros n' [= <-]. exact IH. }
    exists b, s'. do 2 (split; [done|]). by intros au [= <-].
Qed.

Lemma check_account_total n id s : id ∈ known -> ready s ->
  exists b s', check_account key_addresses get_active false n id s = (Ok b, s') /\ ready s'
    /\ (counts (S n) id -> b = true).
Proof.
  intros Hkn Hs. unfold check_account, bind, get, lift, ret. case_if; [by exists true, s|].
  apply bool_decide_eq_false in Hif. destruct (active_found id Hkn) as (o & Eo & Hp). rewrite Eo.
  destruct (check_authority_total n o s Hs Hp) as (b & s' & E & Hs' & Hb).
  exists b, s'. do 2 (split; [done|]). intros [Ha|(au & Eau & Hw)].
  - exfalso. apply Hif. by apply (rd_approved _ Hs).
  - rewrite Eo in Eau. injection Eau as ->. by apply (Hb au).
Qed.

Definition owns (n : nat) (id : Z) : Prop := exists au, get_owner id = Ok (Some au) /\ within n au.

Lemma check_owner_total n id s : id ∈ known -> ready s ->
  exists b s', bind (lift (get_owner id)) (fun au => check_authority key_addresses get_active false n false au) s = (Ok b, s')
    /\ ready s' /\ (owns n id -> b = true).
Proof.
  intros Hkn Hs. unfold bind, lift. destruct (owner_found id Hkn) as (au & Ea & Hp). rewrite Ea.
  destruct (check_authority_total n (Some au) s Hs) as (b & s' & E & Hs' & Hb); [by intros x [= <-]|].
  exists b, s'. do 2 (split; [done|]). intros (x & Ex & Hw). rewrite Ea in Ex. injection Ex as ->.
  by apply (Hb x).
Qed.

Lemma each_complete {A} (f : A -> M unit) l :
  (forall x s, x ∈ l -> ready s -> exists s', f x s = (Ok tt, s') /\ ready s') ->
  forall s, ready s -> exists s', each f l s = (Ok tt, s') /\ ready s'.
Proof.
  induction l as [|x l IH]; intros Hf s Hs; cbn; [by exists s|].
  destruct (Hf x s) as (s1 & E & Hs1); [constructor|done|]. unfold bind. rewrite E.
  apply IH; [|done]. intros y t Hy. apply Hf. by constructor.
Qed.

Lemma require_active_complete n id s : id ∈ known -> ready s -> counts (S n) id \/ owns n id ->
  exists s', require_active key_addresses get_active false get_owner n id s = (Ok tt, s') /\ ready s'.
Proof.
  intros Hkn Hs Hc. unfold require_active. unfold bind at 1.
  destruct (check_account_total n id s Hkn Hs) as (b & s1 & E & Hs1 & Hb). rewrite E.
  destruct b; [by exists s1|]. unfold bind at 1.
  destruct (check_owner_total n id s1 Hkn Hs1) as (b2 & s2 & E2 & Hs2 & Hb2). rewrite E2.
  assert (b2 = true) as -> by (destruct Hc as [Hc|Hc]; [by specialize (Hb Hc)|by apply Hb2]).
  by exists s2.
Qed.

Lemma require_owner_complete n own id s : id ∈ known -> ready s -> id ∈ own \/ owns n id ->
  exists s', require_owner key_addresses get_active false get_owner n own id s = (Ok tt, s') /\ ready s'.
Proof.
  intros Hkn Hs Hc. unfold require_owner. unfold bind at 1. case_if; [by exists s|].
  apply bool_decide_eq_false in Hif. destruct Hc as [?|Hc]; [done|].
  destruct (check_owner_total n id s Hkn Hs) as (b2 & s2 & E2 & Hs2 & Hb2). rewrite E2, (Hb2 Hc).
  by exists s2.
Qed.

Lemma require_other_complete n a s : ready s -> plain a -> within n a ->
  exists s', require_other key_addresses get_active false n a s = (Ok tt, s') /\ ready s'.
Proof.
  intros Hs Hp Hw. unfold require_other, bind.
  destruct (check_authority_total n (Some a) s Hs) as (b & s1 & E & Hs1 & Hb); [by intros x [= <-]|].
  rewrite E, (Hb a eq_refl Hw). by exists s1.
Qed.

Lemma unused_bound s : ready s -> exists k s', remove_unused_signatures s = (Ok k, s')
  /\ k <= Z.of_nat (size keys).
Proof.
  intros Hs. unfold remove_unused_signatures, bind, get, modify, ret. eexists _, _. split; [done|].
  rewrite <- (rd_provided _ Hs), size_dom. apply Nat2Z.inj_le.
  apply map_subseteq_size, map_filter_subseteq.
Qed.

(** Everything the operations require is of accounts there are and supported within [n] levels. *)
Definition authorized_within (n : nat) (own : gset Z) (r : requirements) : Prop :=
  Forall (fun a => plain a /\ within n a) (other r)
  /\ Forall (fun id => id ∈ known /\ (counts (S n) id \/ owns n id)) (required_active r)
  /\ Forall (fun id => id ∈ known /\ (id ∈ own \/ owns n id)) (required_owner r).

Lemma verify_all_complete n allow own r s : ready s -> authorized_within n own r ->
  Z.of_nat (size keys) <= 5 \/ allow = true ->
  exists s', verify_all key_addresses get_active false get_owner n allow own r s = (Ok tt, s').
Proof.
  intros Hs (F1 & F2 & F3) Hsz. unfold verify_all.
  rewrite Forall_forall in F1. rewrite Forall_forall in F2. rewrite Forall_forall in F3.
  destruct (each_complete (require_other key_addresses get_active false n) (other r)) with (s := s)
    as (s1 & E1 & Hs1); [intros x t Hx Ht; destruct (F1 _ Hx); by apply require_other_complete|done|].
  unfold bind at 1. rewrite E1.
  destruct (each_complete (require_active key_addresses get_active false get_owner n) (required_active r)) with (s := s1)
    as (s2 & E2 & Hs2); [intros x t Hx Ht; destruct (F2 _ Hx); by apply require_active_complete|done|].
  unfold bind at 1. rewrite E2.
  destruct (each_complete (require_owner key_addresses get_active false get_owner n own) (required_owner r)) with (s := s2)
    as (s3 & E3 & Hs3); [intros x t Hx Ht; destruct (F3 _ Hx); by apply require_owner_complete|done|].
  unfold bind at 1. rewrite E3. unfold bind.
  destruct (unused_bound s3 Hs3) as (k & s4 & E4 & Hk). rewrite E4. unfold lift.
  exists s4. destruct Hsz as [Hsz| ->]; [|by rewrite orb_true_r].
  by rewrite (proj2 (Z.leb_le k 5)) by lia.
Qed.
End Complete.

(** ** Properties *)

(** The accounts taken as approved before any signature is looked at. *)
Definition initial_approvals (active_aprovals owner_approvals : gset Z) : gset Z :=
  owner_approvals ∪ (active_aprovals ∪ {[GRAPHENE_TEMP_ACCOUNT]}).

(** C7: a transaction or proposal passes [verify_authority] only when everything
    its operations require is supported, by a finite derivation through accounts'
    active authorities, by the given signatures and approvals; or, for proposals,
    when the committee account is.  A transaction that needs the committee account
    never passes. *)
Theorem verify_authority_sound (key_addresses : Z -> list Z)
    (get_active : Z -> result (option authority)) (shared : bool)
    (get_owner : Z -> result (option authority))
    (r : requirements) (sigs : gset Z) (n : nat) (allow : bool) (act own : gset Z)
    (Ha : forall a au, get_active a = Ok (Some au) -> authority_ok au)
    (Ho : forall a au, get_owner a = Ok (Some au) -> authority_ok au)
    (Hr : Forall authority_ok (other r))
    (H : verify_authority key_addresses get_active shared get_owner r sigs n allow act own = Ok tt) :
  (allow = true
     /\ accepted key_addresses get_active sigs (initial_approvals act own) GRAPHENE_COMMITTEE_ACCOUNT)
  \/ (authorized key_addresses get_active get_owner sigs (initial_approvals act own) own r
      /\ (allow = false -> GRAPHENE_COMMITTEE_ACCOUNT ∉ required_active r)).
Proof.
  unfold verify_authority in H.
  set (s0 := set_approved _ _) in H.
  assert (Hs0 : state_ok key_addresses get_active sigs (initial_approvals act own) s0).
  { split; cbn; try done.
    - intros k b Hk. by apply lookup_gset_to_gmap_Some in Hk as [? _].
    - intros a Hin. by left. }
  destruct allow; cbn [negb] in H.
  - unfold bind, committee_approves, try_catch in H.
    destruct (check_account key_addresses get_active shared n GRAPHENE_COMMITTEE_ACCOUNT s0) as [rc s1] eqn:Ec.
    destruct (check_account_sound _ _ _ _ _ Ha _ _ _ _ _ Hs0 Ec) as [Hs1 Hc].
    assert (Hgo : (verify_all key_addresses get_active shared get_owner n true own r s1).1 = Ok tt ->
      authorized key_addresses get_active get_owner sigs (initial_approvals act own) own r).
    { destruct (verify_all _ _ _ _ n true own r s1) as [rv s2] eqn:Ev. cbn. intros ->.
      by eapply verify_all_sound in Ev. }
    destruct rc as [[]|e]; [left; split; [done|by apply Hc]|right; split; [by apply Hgo|done]|right].
    split; [|done]. apply Hgo. destruct e; first [exact H|discriminate H].
  - unfold bind, lift, graphene_assert in H. case_if_in H; [|done]. apply bool_decide_eq_true in Hif. cbn in H. right.
    split; [|done].
    destruct (verify_all _ _ _ _ n false own r s0) as [rv s2] eqn:Ev. cbn in H. subst rv.
    by eapply verify_all_sound in Ev.
Qed.

(** Account 10 holds key 1 with weight 1 and account 11 with weight 1 under the
    threshold 2; account 11 holds key 2. *)
Definition demo_active (a : Z) : result (option authority) :=
  if a =? 10 then Ok (Some (mk_authority 2 [(11, 1)] [(1, 1)] []))
  else if a =? 11 then Ok (Some (mk_authority 1 [] [(2, 1)] []))
  else Err assert_exception.
Definition demo_requirements : requirements := mk_requirements [10] [] [].

Lemma demo_active_ok a au : demo_active a = Ok (Some au) -> plain {[10; 11]} au.
Proof.
  unfold demo_active. intros H. repeat case_if_in H; try done; injection H as <-; unfold plain, authority_ok; cbn;
    repeat split; repeat constructor; cbn; try lia; set_solver.
Qed.

Lemma verify_authority_sound_witness :
  authorized (fun k => [k + 100]) demo_active demo_active {[1; 2]} (initial_approvals ∅ ∅) ∅
    demo_requirements.
Proof.
  destruct (verify_authority_sound (fun k => [k + 100]) demo_active false demo_active demo_requirements
    {[1; 2]} 2 false ∅ ∅) as [[H _]|[H _]].
  - intros a au H. by apply demo_active_ok in H as [H _].
  - intros a au H. by apply demo_active_ok in H as [H _].
  - constructor.
  - vm_compute. reflexivity.
  - discriminate H.
  - exact H.
Defined.

(** C29: when [get_active] returns the accounts' own authorities (as for proposals), the
    accounts that are required exist, the authorities of existing accounts name existing
    accounts and no obsolete addresses, and everything
    required is supported within the recursion depth, [verify_authority] accepts,
    provided that for a transaction the committee account is not required and at most five
    signatures are given, and for a proposal the committee account exists. *)
Theorem verify_authority_complete (key_addresses : Z -> list Z)
    (get_active get_owner : Z -> result (option authority))
    (r : requirements) (sigs : gset Z) (n : nat) (allow : bool) (act own known : gset Z)
    (Ha : forall a, a ∈ known -> exists o, get_active a = Ok o /\ forall au, o = Some au -> plain known au)
    (Ho : forall a, a ∈ known -> exists au, get_owner a = Ok (Some au) /\ plain known au)
    (Hr : authorized_within get_active get_owner sigs (initial_approvals act own) known n own r)
    (Hc : if allow then GRAPHENE_COMMITTEE_ACCOUNT ∈ known
          else GRAPHENE_COMMITTEE_ACCOUNT ∉ required_active r)
    (Hs : Z.of_nat (size sigs) <= 5 \/ allow = true) :
  verify_authority key_addresses get_active false get_owner r sigs n allow act own = Ok tt.
Proof.
  unfold verify_authority. set (s0 := set_approved _ _).
  assert (Hs0 : ready sigs (initial_approvals act own) s0)
    by (split; cbn; [apply dom_gset_to_gmap|done|done]).
  destruct allow; cbn [negb].
  - unfold bind, committee_approves, try_catch.
    destruct (check_account_total key_addresses get_active get_owner sigs (initial_approvals act own) known Ha Ho n
      GRAPHENE_COMMITTEE_ACCOUNT s0 Hc Hs0) as (b & s1 & E & Hs1 & _).
    rewrite E. destruct b; [done|].
    destruct (verify_all_complete key_addresses get_active get_owner sigs _ known Ha Ho n true own r s1 Hs1 Hr Hs)
      as [s2 E2]. by rewrite E2.
  - unfold bind, lift. rewrite bool_decide_eq_true_2 by auto. cbn [graphene_assert].
    destruct (verify_all_complete key_addresses get_active get_owner sigs _ known Ha Ho n false own r s0 Hs0 Hr Hs)
      as [s2 E2]. by rewrite E2.
Qed.

Lemma verify_authority_complete_witness :
  verify_authority (fun k => [k + 100]) demo_active false demo_active demo_requirements {[1; 2]} 1 false ∅ ∅
  = Ok tt.
Proof.
  assert (Hfound : forall a, a ∈ ({[10; 11]} : gset Z) -> exists au, demo_active a = Ok (Some au) /\ plain {[10; 11]} au).
  { intros a Ha. assert (E : exists au, demo_active a = Ok (Some au))
      by (apply elem_of_union in Ha as [->%elem_of_singleton| ->%elem_of_singleton]; by eexists).
    destruct E as [au E]. exists au. split; [exact E|by apply (demo_active_ok a)]. }
  apply verify_authority_complete with (known := {[10; 11]}).
  - intros a Ha. destruct (Hfound a Ha) as (au & E & Hp). exists (Some au). split; [exact E|]. by intros au' [= <-].
  - exact Hfound.
  - split; [constructor|]. split; [|constructor]. constructor; [|constructor]. split; [set_solver|]. left. right.
    eexists. split; [reflexivity|]. exists [(1, 1)], [(11, 1)].
    split; [apply sublist_skip; constructor|]. split; [constructor; [cbn; set_solver|constructor]|].
    split; [apply sublist_skip; constructor|]. split; [|cbn; lia]. constructor; [|constructor]. right.
    eexists. split; [reflexivity|]. exists [(2, 1)], [].
    split; [apply sublist_skip; constructor|]. split; [constructor; [cbn; set_solver|constructor]|].
    split; [constructor|]. split; [constructor|cbn; lia].
  - cbn. by rewrite list_elem_of_singleton.
  - left. vm_compute. discriminate.
Defined.

(** Dropping signatures one at a time keeps a set that verifies: from a set
    that verifies, [minimize_required_signatures] returns a subset that verifies. *)
Theorem minimize_keeps_authority (key_addresses : Z -> list Z)
    (get_active : Z -> result (option authority)) (shared : bool)
    (get_owner : Z -> result (option authority))
    (r : requirements) (recovered : list Z) (available required result_ : gset Z) (n : nat)
    (Hreq : get_required_signatures key_addresses get_active shared get_owner r recovered available n
            = Ok required)
    (Hv : verify_authority key_addresses get_active shared get_owner r required n false ∅ ∅ = Ok tt)
    (H : minimize_required_signatures key_addresses get_active shared get_owner r recovered available n
         = Ok result_) :
  result_ ⊆ required /\ required ⊆ available /\
  verify_authority key_addresses get_active shared get_owner r result_ n false ∅ ∅ = Ok tt.
Proof.
  unfold minimize_required_signatures in H. rewrite Hreq in H. cbn [rbind] in H.
  assert (Hsub : required ⊆ available).
  { unfold get_required_signatures in Hreq. apply rbind_ok in Hreq as (sg & _ & Hreq).
    match type of Hreq with context [match ?m with _ => _ end] => destruct m as [[k|] s'] end; [|done].
    injection Hreq as <-. set_solver. }
  assert (Hgen : forall ks cur, verify_authority key_addresses get_active shared get_owner r cur n false ∅ ∅ = Ok tt ->
    list_to_set ks ⊆ required -> cur ⊆ required ->
    minimize_loop key_addresses get_active shared get_owner r n ks cur = Ok result_ -> result_ ⊆ required /\
    verify_authority key_addresses get_active shared get_owner r result_ n false ∅ ∅ = Ok tt).
  { induction ks as [|k ks IH]; cbn [minimize_loop]; intros cur Hcur Hks Hc Hl.
    - by injection Hl as <-.
    - cbn in Hks. destruct (verify_authority _ _ _ _ r (cur ∖ {[k]}) n false ∅ ∅) as [[]|e] eqn:E.
      + apply (IH (cur ∖ {[k]})); [done|set_solver|set_solver|done].
      + case_if_in Hl; [|done]. destruct (decide (k ∈ cur)) as [Hk|Hk].
        * replace ({[k]} ∪ cur ∖ {[k]}) with cur in Hl
            by (apply set_eq; intros y; destruct (decide (y = k)); set_solver).
          apply (IH cur); [done|set_solver|done|done].
        * exfalso. replace (cur ∖ {[k]}) with cur in E by set_solver. congruence. }
  destruct (Hgen (merge_sort Z.le (elements required)) required Hv) as [H1 H2]; [|done|done|done].
  intros y Hy. apply elem_of_list_to_set in Hy. rewrite (merge_sort_Permutation Z.le) in Hy.
  by apply elem_of_elements in Hy.
Qed.

Lemma minimize_keeps_authority_witness :
  verify_authority (fun k => [k + 100]) demo_active false demo_active demo_requirements {[1; 2]} 2 false ∅ ∅
  = Ok tt.
Proof.
  apply (minimize_keeps_authority (fun k => [k + 100]) demo_active false demo_active demo_requirements []
           {[1; 2; 3]} {[1; 2]}).
  - vm_compute. reflexivity.
  - vm_compute. reflexivity.
  - vm_compute. reflexivity.
Defined.

(** An address member none of whose keys signed makes the checker read past the
    end of its table instead of answering no. *)
Theorem unsigned_address_is_undefined :
  (check_authority (fun k => [k + 100]) demo_active false 2 false
     (Some (mk_authority 1 [] [] [(777, 1)])) (new_sign_state {[1]} ∅)).1
  = Err undefined_behaviour.
Proof. vm_compute. reflexivity. Qed.

(** With the shared buffer of [_apply_transaction] the same transaction of account
    10, signed by both keys, makes the checker go on in a container that was
    overwritten: weighing account 11 replaces the authority of account 10. *)
Theorem shared_active_is_undefined :
  verify_authority (fun k => [k + 100]) demo_active false demo_active demo_requirements {[1; 2]} 2 false ∅ ∅
  = Ok tt
  /\ verify_authority (fun k => [k + 100]) demo_active true demo_active demo_requirements {[1; 2]} 2 false ∅ ∅
     = Err undefined_behaviour.
Proof. by vm_compute. Qed.
