(* ===== verification/GovState.v ===== *)
(** * Accounts and the state of governance

    [account_object.hpp] with the locks of [protocol/account.hpp], the candidates of
    [witness_object.hpp] and [committee_member_object.hpp], [chain_parameters.hpp] and
    [worker_object.hpp]. *)

From S2P Require Import Prelude SafeInt Asset Authority.

(** ** Accounts *)

(** The special authorities an account may have instead of fixed members. *)
Inductive special_authority :=
| no_special_authority
| top_holders_special_authority (top_asset : Z) (num_top_holders : Z).

(** A vote id has a type (committee 0, witness 1) and an instance.  Two vote ids compare
    by their instances alone, so a flat set of them maps instances to types. *)
Abbreviation committee := 0.
Abbreviation witness := 1.
Abbreviation vote_noone := 2.

Record account_object := mk_account {
  account_name : string;
  registrar : Z;
  membership_expiration_date : Z;
  owner_auth : authority;
  active_auth : authority;
  memo_key : Z;
  votes : gmap Z Z;
  locked_total : gmap Z Z;
  committee_freeze : option asset;
  witness_freeze : option asset;
  vote_for_committee : option asset;
  vote_for_witness : option asset;
  nft_locked : list Z;
  witness_status : option (Z * bool);
  committee_status : option (Z * bool);
  cashback_gas : option Z;
  cashback_vb : option Z;
  cashback_vote : option Z;
  owner_special_authority : option special_authority;
  active_special_authority : option special_authority;
  top_n_control_flags : option Z }.

Definition set_membership_expiration_date (x : Z) (a : account_object) : account_object :=
  mk_account (account_name a) (registrar a) x (owner_auth a) (active_auth a) (memo_key a)
    (votes a) (locked_total a) (committee_freeze a) (witness_freeze a) (vote_for_committee a)
    (vote_for_witness a) (nft_locked a) (witness_status a) (committee_status a) (cashback_gas a)
    (cashback_vb a) (cashback_vote a) (owner_special_authority a) (active_special_authority a)
    (top_n_control_flags a).
Definition set_owner_auth (x : authority) (a : account_object) : account_object :=
  mk_account (account_name a) (registrar a) (membership_expiration_date a) x (active_auth a)
    (memo_key a) (votes a) (locked_total a) (committee_freeze a) (witness_freeze a)
    (vote_for_committee a) (vote_for_witness a) (nft_locked a) (witness_status a)
    (committee_status a) (cashback_gas a) (cashback_vb a) (cashback_vote a)
    (owner_special_authority a) (active_special_authority a) (top_n_control_flags a).
Definition set_active_auth (x : authority) (a : account_object) : account_object :=
  mk_account (account_name a) (registrar a) (membership_expiration_date a) (owner_auth a) x
    (memo_key a) (votes a) (locked_total a) (committee_freeze a) (witness_freeze a)
    (vote_for_committee a) (vote_for_witness a) (nft_locked a) (witness_status a)
    (committee_status a) (cashback_gas a) (cashback_vb a) (cashback_vote a)
    (owner_special_authority a) (active_special_authority a) (top_n_control_flags a).
Definition set_memo_key (x : Z) (a : account_object) : account_object :=
  mk_account (account_name a) (registrar a) (membership_expiration_date a) (owner_auth a)
    (active_auth a) x (votes a) (locked_total a) (committee_freeze a) (witness_freeze a)
    (vote_for_committee a) (vote_for_witness a) (nft_locked a) (witness_status a)
    (committee_status a) (cashback_gas a) (cashback_vb a) (cashback_vote a)
    (owner_special_authority a) (active_special_authority a) (top_n_control_flags a).
Definition set_votes (x : gmap Z Z) (a : account_object) : account_object :=
  mk_account (account_name a) (registrar a) (membership_expiration_date a) (owner_auth a)
    (active_auth a) (memo_key a) x (locked_total a) (committee_freeze a) (witness_freeze a)
    (vote_for_committee a) (vote_for_witness a) (nft_locked a) (witness_status a)
    (committee_status a) (cashback_gas a) (cashback_vb a) (cashback_vote a)
    (owner_special_authority a) (active_special_authority a) (top_n_control_flags a).
Definition set_locked_total (x : gmap Z Z) (a : account_object) : account_object :=
  mk_account (account_name a) (registrar a) (membership_expiration_date a) (owner_auth a)
    (active_auth a) (memo_key a) (votes a) x (committee_freeze a) (witness_freeze a)
    (vote_for_committee a) (vote_for_witness a) (nft_locked a) (witness_status a)
    (committee_status a) (cashback_gas a) (cashback_vb a) (cashback_vote a)
    (owner_special_authority a) (active_special_authority a) (top_n_control_flags a).
Definition set_committee_freeze (x : option asset) (a : account_object) : account_object :=
  mk_account (account_name a) (registrar a) (membership_expiration_date a) (owner_auth a)
    (active_auth a) (memo_key a) (votes a) (locked_total a) x (witness_freeze a)
    (vote_for_committee a) (vote_for_witness a) (nft_locked a) (witness_status a)
    (committee_status a) (cashback_gas a) (cashback_vb a) (cashback_vote a)
    (owner_special_authority a) (active_special_authority a) (top_n_control_flags a).
Definition set_witness_freeze (x : option asset) (a : account_object) : account_object :=
  mk_account (account_name a) (registrar a) (membership_expiration_date a) (owner_auth a)
    (active_auth a) (memo_key a) (votes a) (locked_total a) (committee_freeze a) x
    (vote_for_committee a) (vote_for_witness a) (nft_locked a) (witness_status a)
    (committee_status a) (cashback_gas a) (cashback_vb a) (cashback_vote a)
    (owner_special_authority a) (active_special_authority a) (top_n_control_flags a).
Definition set_vote_for_committee (x : option asset) (a : account_object) : account_object :=
  mk_account (account_name a) (registrar a) (membership_expiration_date a) (owner_auth a)
    (active_auth a) (memo_key a) (votes a) (locked_total a) (committee_freeze a)
    (witness_freeze a) x (vote_for_witness a) (nft_locked a) (witness_status a)
    (committee_status a) (cashback_gas a) (cashback_vb a) (cashback_vote a)
    (owner_special_authority a) (active_special_authority a) (top_n_control_flags a).
Definition set_vote_for_witness (x : option asset) (a : account_object) : account_object :=
  mk_account (account_name a) (registrar a) (membership_expiration_date a) (owner_auth a)
    (active_auth a) (memo_key a) (votes a) (locked_total a) (committee_freeze a)
    (witness_freeze a) (vote_for_committee a) x (nft_locked a) (witness_status a)
    (committee_status a) (cashback_gas a) (cashback_vb a) (cashback_vote a)
    (owner_special_authority a) (active_special_authority a) (top_n_control_flags a).
Definition set_nft_locked (x : list Z) (a : account_object) : account_object :=
  mk_account (account_name a) (registrar a) (membership_expiration_date a) (owner_auth a)
    (active_auth a) (memo_key a) (votes a) (locked_total a) (committee_freeze a)
    (witness_freeze a) (vote_for_committee a) (vote_for_witness a) x (witness_status a)
    (committee_status a) (cashback_gas a) (cashback_vb a) (cashback_vote a)
    (owner_special_authority a) (active_special_authority a) (top_n_control_flags a).
Definition set_witness_status (x : option (Z * bool)) (a : account_object) : account_object :=
  mk_account (account_name a) (registrar a) (membership_expiration_date a) (owner_auth a)
    (active_auth a) (memo_key a) (votes a) (locked_total a) (committee_freeze a)
    (witness_freeze a) (vote_for_committee a) (vote_for_witness a) (nft_locked a) x
    (committee_status a) (cashback_gas a) (cashback_vb a) (cashback_vote a)
    (owner_special_authority a) (active_special_authority a) (top_n_control_flags a).
Definition set_committee_status (x : option (Z * bool)) (a : account_object) : account_object :=
  mk_account (account_name a) (registrar a) (membership_expiration_date a) (owner_auth a)
    (active_auth a) (memo_key a) (votes a) (locked_total a) (committee_freeze a)
    (witness_freeze a) (vote_for_committee a) (vote_for_witness a) (nft_locked a)
    (witness_status a) x (cashback_gas a) (cashback_vb a) (cashback_vote a)
    (owner_special_authority a) (active_special_authority a) (top_n_control_flags a).
Definition set_cashback_gas (x : option Z) (a : account_object) : account_object :=
  mk_account (account_name a) (registrar a) (membership_expiration_date a) (owner_auth a)
    (active_auth a) (memo_key a) (votes a) (locked_total a) (committee_freeze a)
    (witness_freeze a) (vote_for_committee a) (vote_for_witness a) (nft_locked a)
    (witness_status a) (committee_status a) x (cashback_vb a) (cashback_vote a)
    (owner_special_authority a) (active_special_authority a) (top_n_control_flags a).
Definition set_cashback_vb (x : option Z) (a : account_object) : account_object :=
  mk_account (account_name a) (registrar a) (membership_expiration_date a) (owner_auth a)
    (active_auth a) (memo_key a) (votes a) (locked_total a) (committee_freeze a)
    (witness_freeze a) (vote_for_committee a) (vote_for_witness a) (nft_locked a)
    (witness_status a) (committee_status a) (cashback_gas a) x (cashback_vote a)
    (owner_special_authority a) (active_special_authority a) (top_n_control_flags a).
Definition set_cashback_vote (x : option Z) (a : account_object) : account_object :=
  mk_account (account_name a) (registrar a) (membership_expiration_date a) (owner_auth a)
    (active_auth a) (memo_key a) (votes a) (locked_total a) (committee_freeze a)
    (witness_freeze a) (vote_for_committee a) (vote_for_witness a) (nft_locked a)
    (witness_status a) (committee_status a) (cashback_gas a) (cashback_vb a) x
    (owner_special_authority a) (active_special_authority a) (top_n_control_flags a).
Definition set_owner_special_authority (x : option special_authority) (a : account_object) : account_object :=
  mk_account (account_name a) (registrar a) (membership_expiration_date a) (owner_auth a)
    (active_auth a) (memo_key a) (votes a) (locked_total a) (committee_freeze a)
    (witness_freeze a) (vote_for_committee a) (vote_for_witness a) (nft_locked a)
    (witness_status a) (committee_status a) (cashback_gas a) (cashback_vb a) (cashback_vote a) x
    (active_special_authority a) (top_n_control_flags a).
Definition set_active_special_authority (x : option special_authority) (a : account_object) : account_object :=
  mk_account (account_name a) (registrar a) (membership_expiration_date a) (owner_auth a)
    (active_auth a) (memo_key a) (votes a) (locked_total a) (committee_freeze a)
    (witness_freeze a) (vote_for_committee a) (vote_for_witness a) (nft_locked a)
    (witness_status a) (committee_status a) (cashback_gas a) (cashback_vb a) (cashback_vote a)
    (owner_special_authority a) x (top_n_control_flags a).
Definition set_top_n_control_flags (x : option Z) (a : account_object) : account_object :=
  mk_account (account_name a) (registrar a) (membership_expiration_date a) (owner_auth a)
    (active_auth a) (memo_key a) (votes a) (locked_total a) (committee_freeze a)
    (witness_freeze a) (vote_for_committee a) (vote_for_witness a) (nft_locked a)
    (witness_status a) (committee_status a) (cashback_gas a) (cashback_vb a) (cashback_vote a)
    (owner_special_authority a) (active_special_authority a) x.

(** A registered account without votes and locked items. *)
Definition basic_account (locked : gmap Z Z) (cashback : option Z) : account_object :=
  mk_account "" 0 0 null_authority null_authority 0 ∅ locked None None None None [] None None cashback
    None None None None None.

(** ** Candidates, parameters and workers *)

(** [witness_object] and [committee_member_object]: the fields elections use.  The fields
    of a witness that block production uses are in [Schedule]; only witnesses have a
    signing key. *)
Record candidate := mk_candidate {
  cand_account : Z;
  cand_vote_id : Z;
  total_votes : Z;
  cand_url : string;
  work_status : bool;
  cand_next_maintenance : Z;
  supporters : gmap Z asset;
  signing_key : option Z }.

(** The [chain_parameters] that accounts, elections and maintenance read, with the basic
    fee of account creation from the fee schedule. *)
Record chain_parameters := mk_parameters {
  block_interval_ : Z;
  maintenance_interval : Z;
  maintenance_skip_slots_ : Z;
  committee_proposal_review_period : Z;
  maximum_proposal_lifetime : Z;
  witness_number_of_election : Z;
  committee_number_of_election : Z;
  maximum_authority_membership : Z;
  cashback_vb_period_seconds : Z;
  cashback_vote_period_seconds : Z;
  witness_pay_per_block_ : Z;
  witness_pay_vesting_seconds_ : Z;
  worker_budget_per_day : Z;
  accounts_per_fee_scale : Z;
  account_fee_scale_bitshifts : Z;
  maximum_nh_asset_order_expiration : Z;
  witness_candidate_freeze : Z;
  committee_candidate_freeze : Z;
  candidate_award_budget : Z;
  committee_percent_of_candidate_award : Z;
  unsuccessful_candidates_percent : Z;
  account_create_basic_fee : Z }.

Definition set_account_create_basic_fee (x : Z) (p : chain_parameters) : chain_parameters :=
  mk_parameters (block_interval_ p) (maintenance_interval p) (maintenance_skip_slots_ p)
    (committee_proposal_review_period p) (maximum_proposal_lifetime p)
    (witness_number_of_election p) (committee_number_of_election p)
    (maximum_authority_membership p) (cashback_vb_period_seconds p)
    (cashback_vote_period_seconds p) (witness_pay_per_block_ p) (witness_pay_vesting_seconds_ p)
    (worker_budget_per_day p) (accounts_per_fee_scale p) (account_fee_scale_bitshifts p)
    (maximum_nh_asset_order_expiration p) (witness_candidate_freeze p)
    (committee_candidate_freeze p) (candidate_award_budget p)
    (committee_percent_of_candidate_award p) (unsuccessful_candidates_percent p) x.

Record global_property_extensions := mk_extensions {
  witness_max_votes : Z;
  committee_max_votes : Z;
  contract_private_data_size : Z;
  contract_total_data_size : Z;
  contract_max_data_size : Z }.

Inductive worker_type :=
| destroy_worker (total_burned : Z)
| vesting_balance_worker (pay_balance : Z)
| burn_worker (total_burned : Z)
| issuance_worker (total_issuance : Z).

Record worker_object := mk_worker {
  beneficiary : option Z;
  work_begin_date : Z;
  work_end_date : Z;
  daily_pay : Z;
  worker : worker_type;
  worker_name : string;
  worker_describe : string;
  completed : bool }.

(** [special_authorities] maps an object to its account; [uncompleted_workers] is the part
    of the index [by_completed] with a false key, in the order of the index. *)
Record governance_state := mk_governance {
  next_account : Z;
  witness_candidates : gmap Z candidate;
  next_witness : Z;
  committee_members : gmap Z candidate;
  next_committee_member : Z;
  next_available_vote_id : Z;
  parameters : chain_parameters;
  pending_parameters : option chain_parameters;
  accounts_registered_this_interval : Z;
  property_extensions : option global_property_extensions;
  special_authorities : gmap Z Z;
  next_special_authority : Z;
  workers : gmap Z worker_object;
  next_worker : Z;
  uncompleted_workers : list Z }.

Definition set_next_account (x : Z) (g : governance_state) : governance_state :=
  mk_governance x (witness_candidates g) (next_witness g) (committee_members g)
    (next_committee_member g) (next_available_vote_id g) (parameters g) (pending_parameters g)
    (accounts_registered_this_interval g) (property_extensions g) (special_authorities g)
    (next_special_authority g) (workers g) (next_worker g) (uncompleted_workers g).
Definition set_witness_candidates (x : gmap Z candidate) (g : governance_state) : governance_state :=
  mk_governance (next_account g) x (next_witness g) (committee_members g)
    (next_committee_member g) (next_available_vote_id g) (parameters g) (pending_parameters g)
    (accounts_registered_this_interval g) (property_extensions g) (special_authorities g)
    (next_special_authority g) (workers g) (next_worker g) (uncompleted_workers g).
Definition set_next_witness (x : Z) (g : governance_state) : governance_state :=
  mk_governance (next_account g) (witness_candidates g) x (committee_members g)
    (next_committee_member g) (next_available_vote_id g) (parameters g) (pending_parameters g)
    (accounts_registered_this_interval g) (property_extensions g) (special_authorities g)
    (next_special_authority g) (workers g) (next_worker g) (uncompleted_workers g).
Definition set_committee_members (x : gmap Z candidate) (g : governance_state) : governance_state :=
  mk_governance (next_account g) (witness_candidates g) (next_witness g) x
    (next_committee_member g) (next_available_vote_id g) (parameters g) (pending_parameters g)
    (accounts_registered_this_interval g) (property_extensions g) (special_authorities g)
    (next_special_authority g) (workers g) (next_worker g) (uncompleted_workers g).
Definition set_next_committee_member (x : Z) (g : governance_state) : governance_state :=
  mk_governance (next_account g) (witness_candidates g) (next_witness g) (committee_members g) x
    (next_available_vote_id g) (parameters g) (pending_parameters g)
    (accounts_registered_this_interval g) (property_extensions g) (special_authorities g)
    (next_special_authority g) (workers g) (next_worker g) (uncompleted_workers g).
Definition set_next_available_vote_id (x : Z) (g : governance_state) : governance_state :=
  mk_governance (next_account g) (witness_candidates g) (next_witness g) (committee_members g)
    (next_committee_member g) x (parameters g) (pending_parameters g)
    (accounts_registered_this_interval g) (property_extensions g) (special_authorities g)
    (next_special_authority g) (workers g) (next_worker g) (uncompleted_workers g).
Definition set_parameters (x : chain_parameters) (g : governance_state) : governance_state :=
  mk_governance (next_account g) (witness_candidates g) (next_witness g) (committee_members g)
    (next_committee_member g) (next_available_vote_id g) x (pending_parameters g)
    (accounts_registered_this_interval g) (property_extensions g) (special_authorities g)
    (next_special_authority g) (workers g) (next_worker g) (uncompleted_workers g).
Definition set_pending_parameters (x : option chain_parameters) (g : governance_state) : governance_state :=
  mk_governance (next_account g) (witness_candidates g) (next_witness g) (committee_members g)
    (next_committee_member g) (next_available_vote_id g) (parameters g) x
    (accounts_registered_this_interval g) (property_extensions g) (special_authorities g)
    (next_special_authority g) (workers g) (next_worker g) (uncompleted_workers g).
Definition set_accounts_registered_this_interval (x : Z) (g : governance_state) : governance_state :=
  mk_governance (next_account g) (witness_candidates g) (next_witness g) (committee_members g)
    (next_committee_member g) (next_available_vote_id g) (parameters g) (pending_parameters g) x
    (property_extensions g) (special_authorities g) (next_special_authority g) (workers g)
    (next_worker g) (uncompleted_workers g).
Definition set_property_extensions (x : option global_property_extensions) (g : governance_state) : governance_state :=
  mk_governance (next_account g) (witness_candidates g) (next_witness g) (committee_members g)
    (next_committee_member g) (next_available_vote_id g) (parameters g) (pending_parameters g)
    (accounts_registered_this_interval g) x (special_authorities g) (next_special_authority g)
    (workers g) (next_worker g) (uncompleted_workers g).
Definition set_special_authorities (x : gmap Z Z) (g : governance_state) : governance_state :=
  mk_governance (next_account g) (witness_candidates g) (next_witness g) (committee_members g)
    (next_committee_member g) (next_available_vote_id g) (parameters g) (pending_parameters g)
    (accounts_registered_this_interval g) (property_extensions g) x (next_special_authority g)
    (workers g) (next_worker g) (uncompleted_workers g).
Definition set_next_special_authority (x : Z) (g : governance_state) : governance_state :=
  mk_governance (next_account g) (witness_candidates g) (next_witness g) (committee_members g)
    (next_committee_member g) (next_available_vote_id g) (parameters g) (pending_parameters g)
    (accounts_registered_this_interval g) (property_extensions g) (special_authorities g) x
    (workers g) (next_worker g) (uncompleted_workers g).
Definition set_workers (x : gmap Z worker_object) (g : governance_state) : governance_state :=
  mk_governance (next_account g) (witness_candidates g) (next_witness g) (committee_members g)
    (next_committee_member g) (next_available_vote_id g) (parameters g) (pending_parameters g)
    (accounts_registered_this_interval g) (property_extensions g) (special_authorities g)
    (next_special_authority g) x (next_worker g) (uncompleted_workers g).
Definition set_next_worker (x : Z) (g : governance_state) : governance_state :=
  mk_governance (next_account g) (witness_candidates g) (next_witness g) (committee_members g)
    (next_committee_member g) (next_available_vote_id g) (parameters g) (pending_parameters g)
    (accounts_registered_this_interval g) (property_extensions g) (special_authorities g)
    (next_special_authority g) (workers g) x (uncompleted_workers g).
Definition set_uncompleted_workers (x : list Z) (g : governance_state) : governance_state :=
  mk_governance (next_account g) (witness_candidates g) (next_witness g) (committee_members g)
    (next_committee_member g) (next_available_vote_id g) (parameters g) (pending_parameters g)
    (accounts_registered_this_interval g) (property_extensions g) (special_authorities g)
    (next_special_authority g) (workers g) (next_worker g) x.

(** A chain before its first account. *)
Definition zero_parameters : chain_parameters :=
  mk_parameters 0 0 0 0 0 0 0 0 0 0 0 0 0 0 0 0 0 0 0 0 0 0.
Definition empty_governance : governance_state :=
  mk_governance 0 ∅ 0 ∅ 0 0 zero_parameters None 0 None ∅ 0 ∅ 0 [].
