(* ===== verification/NhState.v ===== *)
(** * The state of non-homogeneous assets

    [nh_asset_creator_object.hpp], [world_view_object.hpp], [nh_asset_object.hpp] and
    [nh_asset_order_object.hpp]. *)

From S2P Require Import Prelude SafeInt Asset.

Record nh_asset_creator_object := mk_nh_creator { creator_views : list string; creator_account : Z }.

Record world_view_object := mk_world_view {
  view_name : string;
  view_creator : Z;
  related_nht_creator : list Z }.

(** The hash of an item is its instance number and the digest of its description; an item
    lists its parents and children by contract. *)
Record nh_asset_object := mk_nh_asset {
  nh_hash : Z * Z;
  nh_asset_creator : Z;
  nh_asset_owner : Z;
  nh_asset_active : Z;
  dealership : Z;
  nh_world_view : string;
  base_describe : string;
  parent : gmap Z (list Z);
  child : gmap Z (list Z);
  nh_create_time : Z }.

Record nh_asset_order_object := mk_nh_order {
  no_seller : Z;
  otcaccount : Z;
  nh_asset_id : Z;
  no_world_view : string;
  no_base_describe : string;
  no_hash : Z * Z;
  no_price : asset;
  no_memo : string;
  no_expiration : Z }.

Record nh_state := mk_nh {
  nh_creators : gmap Z nh_asset_creator_object;
  next_nh_creator : Z;
  world_views : gmap Z world_view_object;
  next_world_view : Z;
  nh_assets : gmap Z nh_asset_object;
  next_nh_asset : Z;
  nh_orders : gmap Z nh_asset_order_object;
  next_nh_order : Z }.

Definition set_nh_creators (x : gmap Z nh_asset_creator_object) (n : nh_state) : nh_state :=
  mk_nh x (next_nh_creator n) (world_views n) (next_world_view n) (nh_assets n)
    (next_nh_asset n) (nh_orders n) (next_nh_order n).
Definition set_next_nh_creator (x : Z) (n : nh_state) : nh_state :=
  mk_nh (nh_creators n) x (world_views n) (next_world_view n) (nh_assets n) (next_nh_asset n)
    (nh_orders n) (next_nh_order n).
Definition set_world_views (x : gmap Z world_view_object) (n : nh_state) : nh_state :=
  mk_nh (nh_creators n) (next_nh_creator n) x (next_world_view n) (nh_assets n)
    (next_nh_asset n) (nh_orders n) (next_nh_order n).
Definition set_next_world_view (x : Z) (n : nh_state) : nh_state :=
  mk_nh (nh_creators n) (next_nh_creator n) (world_views n) x (nh_assets n) (next_nh_asset n)
    (nh_orders n) (next_nh_order n).
Definition set_nh_assets (x : gmap Z nh_asset_object) (n : nh_state) : nh_state :=
  mk_nh (nh_creators n) (next_nh_creator n) (world_views n) (next_world_view n) x
    (next_nh_asset n) (nh_orders n) (next_nh_order n).
Definition set_next_nh_asset (x : Z) (n : nh_state) : nh_state :=
  mk_nh (nh_creators n) (next_nh_creator n) (world_views n) (next_world_view n) (nh_assets n) x
    (nh_orders n) (next_nh_order n).
Definition set_nh_orders (x : gmap Z nh_asset_order_object) (n : nh_state) : nh_state :=
  mk_nh (nh_creators n) (next_nh_creator n) (world_views n) (next_world_view n) (nh_assets n)
    (next_nh_asset n) x (next_nh_order n).
Definition set_next_nh_order (x : Z) (n : nh_state) : nh_state :=
  mk_nh (nh_creators n) (next_nh_creator n) (world_views n) (next_world_view n) (nh_assets n)
    (next_nh_asset n) (nh_orders n) x.

Definition empty_nh : nh_state := mk_nh ∅ 0 ∅ 0 ∅ 0 ∅ 0.
