(* ===== verification/State.v ===== *)
(** * The chain state the evaluators work on

    The objects of [account_object.hpp], [asset_object.hpp], [market_object.hpp]
    and [vesting_balance_object.hpp], and the indexes of the database that hold
    them.  An index is a finite map from the instance number of the object id;
    the balance index is keyed by its unique key (owner, asset).  The one-to-one
    objects an asset or account refers to by id (dynamic data, bitasset data,
    statistics) are keyed by the id of their owner.  [total] is the amount of an
    asset that exists anywhere in the state. *)

From S2P Require Import Prelude SafeInt Asset Vesting.
From S2P Require Export GovState NhState.

(** ** Objects *)

(** Asset flags ([asset_issuer_permission_flags]). *)
Abbreviation charge_market_fee := 1.
Abbreviation white_list := 2.
Abbreviation override_authority := 4.
Abbreviation transfer_restricted := 8.
Abbreviation disable_force_settle := 16.
Abbreviation global_settle := 32.

Abbreviation disable_issuer := 64.
Abbreviation witness_fed_asset := 128.
Abbreviation committee_fed_asset := 256.

Record asset_options := mk_asset_options {
  opt_max_supply : Z;
  opt_market_fee_percent : Z;
  opt_max_market_fee : Z;
  opt_issuer_permissions : Z;
  opt_flags : Z;
  opt_core_exchange_rate : option price;
  description : string }.

Record asset_object := mk_asset_object {
  symbol : string;
  precision : Z;
  issuer : Z;
  common_options : asset_options;
  is_market_issued : bool }.

Definition max_supply (a : asset_object) : Z := opt_max_supply (common_options a).
Definition market_fee_percent (a : asset_object) : Z := opt_market_fee_percent (common_options a).
Definition max_market_fee (a : asset_object) : Z := opt_max_market_fee (common_options a).
Definition issuer_permissions (a : asset_object) : Z := opt_issuer_permissions (common_options a).
Definition flags (a : asset_object) : Z := opt_flags (common_options a).
Definition core_exchange_rate (a : asset_object) : option price :=
  opt_core_exchange_rate (common_options a).

Definition has_flag (fl bit : Z) : bool := negb (Z.land fl bit =? 0).
Definition can_force_settle (a : asset_object) : bool :=
  negb (has_flag (flags a) disable_force_settle).
Definition can_global_settle (a : asset_object) : bool :=
  has_flag (issuer_permissions a) global_settle.
Definition charges_market_fees (a : asset_object) : bool := has_flag (flags a) charge_market_fee.
Definition is_transfer_restricted (a : asset_object) : bool :=
  has_flag (flags a) transfer_restricted.
Definition is_white_list (a : asset_object) : bool := has_flag (flags a) white_list.
Definition can_override (a : asset_object) : bool := has_flag (flags a) override_authority.

Record asset_dynamic_data := mk_dyn { current_supply : Z; accumulated_fees : Z }.

Record bitasset_options := mk_bitasset_options {
  feed_lifetime_sec : Z;
  minimum_feeds : Z;
  force_settlement_delay_sec : Z;
  force_settlement_offset_percent : Z;
  maximum_force_settlement_volume : Z;
  short_backing_asset : Z }.

(** [feeds] maps a publisher to the publication time and the feed. *)
Record asset_bitasset_data := mk_bitasset {
  options : bitasset_options;
  feeds : list (Z * (Z * price_feed));
  current_feed : price_feed;
  current_feed_publication_time : Z;
  force_settled_volume : Z;
  settlement_price : price;
  settlement_fund : Z }.

Definition has_settlement (b : asset_bitasset_data) : bool :=
  negb (price_is_null (settlement_price b)).

Record limit_order_object := mk_limit {
  lo_expiration : Z;
  lo_seller : Z;
  for_sale : Z;
  sell_price : price;
  deferred_fee : option Z }.

Definition amount_for_sale (o : limit_order_object) : asset :=
  mk_asset (for_sale o) (asset_id (base (sell_price o))).
Definition amount_to_receive (o : limit_order_object) : result asset :=
  asset_mul_price (amount_for_sale o) (sell_price o).

Record call_order_object := mk_call {
  borrower : Z;
  collateral : Z;
  debt : Z;
  co_call_price : price }.

Definition debt_type (c : call_order_object) : Z := asset_id (quote (co_call_price c)).
Definition get_collateral (c : call_order_object) : asset :=
  mk_asset (collateral c) (asset_id (base (co_call_price c))).
Definition get_debt (c : call_order_object) : asset := mk_asset (debt c) (debt_type c).
Definition collateralization (c : call_order_object) : result price :=
  asset_div (get_collateral c) (get_debt c).

Record force_settlement_object := mk_settle {
  fs_owner : Z;
  fs_balance : asset;
  settlement_date : Z }.

Record collateral_bid_object := mk_bid { bidder : Z; inv_swan_price : price }.

Record collateral_for_gas_object := mk_gas_collateral {
  mortgager : Z;
  gas_beneficiary : Z;
  gas_collateral : Z;
  gas_debt : Z }.

Record balance_object := mk_balance_object {
  bal_owner : Z;
  bal_balance : asset;
  bal_policy : option linear_vesting_policy;
  last_claim_date : Z }.

(** Virtual operations pushed to the log of applied operations while the market works. *)
Inductive virtual_op :=
| vop_fill_order (order account : Z) (pays receives : asset) (fill_price : price) (is_maker : bool)
| vop_limit_order_cancel (order account : Z)
| vop_settle_cancel (settlement account : Z) (amount : asset)
| vop_bid_collateral (bidder : Z) (additional_collateral debt_covered : asset)
| vop_execute_bid (bidder : Z) (coll debt : asset).

(** ** The database *)

Record database := mk_db {
  accounts : gmap Z account_object;
  account_balances : gmap (Z * Z) Z;
  account_statistics : gmap Z Z;
  assets : gmap Z asset_object;
  next_asset : Z;
  dynamic_data : gmap Z asset_dynamic_data;
  bitassets : gmap Z asset_bitasset_data;
  asset_restricted : gset (Z * Z * Z);
  limit_orders : gmap Z limit_order_object;
  next_limit_order : Z;
  call_orders : gmap Z call_order_object;
  next_call_order : Z;
  force_settlements : gmap Z force_settlement_object;
  next_force_settlement : Z;
  collateral_bids : gmap Z collateral_bid_object;
  next_bid : Z;
  vesting_balances : gmap Z vesting_balance_object;
  next_vesting_balance : Z;
  gas_collaterals : gmap Z collateral_for_gas_object;
  next_gas_collateral : Z;
  initial_balances : gmap Z balance_object;
  governance : governance_state;
  nh : nh_state;
  head_block_time : Z;
  applied_ops : list virtual_op }.

Definition set_accounts (x : gmap Z account_object) (d : database) : database :=
  mk_db x (account_balances d) (account_statistics d) (assets d) (next_asset d) (dynamic_data d)
    (bitassets d) (asset_restricted d) (limit_orders d) (next_limit_order d) (call_orders d)
    (next_call_order d) (force_settlements d) (next_force_settlement d) (collateral_bids d)
    (next_bid d) (vesting_balances d) (next_vesting_balance d) (gas_collaterals d)
    (next_gas_collateral d) (initial_balances d) (governance d) (nh d) (head_block_time d)
    (applied_ops d).
Definition set_account_balances (x : gmap (Z * Z) Z) (d : database) : database :=
  mk_db (accounts d) x (account_statistics d) (assets d) (next_asset d) (dynamic_data d)
    (bitassets d) (asset_restricted d) (limit_orders d) (next_limit_order d) (call_orders d)
    (next_call_order d) (force_settlements d) (next_force_settlement d) (collateral_bids d)
    (next_bid d) (vesting_balances d) (next_vesting_balance d) (gas_collaterals d)
    (next_gas_collateral d) (initial_balances d) (governance d) (nh d) (head_block_time d)
    (applied_ops d).
Definition set_account_statistics (x : gmap Z Z) (d : database) : database :=
  mk_db (accounts d) (account_balances d) x (assets d) (next_asset d) (dynamic_data d)
    (bitassets d) (asset_restricted d) (limit_orders d) (next_limit_order d) (call_orders d)
    (next_call_order d) (force_settlements d) (next_force_settlement d) (collateral_bids d)
    (next_bid d) (vesting_balances d) (next_vesting_balance d) (gas_collaterals d)
    (next_gas_collateral d) (initial_balances d) (governance d) (nh d) (head_block_time d)
    (applied_ops d).
Definition set_assets (x : gmap Z asset_object) (d : database) : database :=
  mk_db (accounts d) (account_balances d) (account_statistics d) x (next_asset d)
    (dynamic_data d) (bitassets d) (asset_restricted d) (limit_orders d) (next_limit_order d)
    (call_orders d) (next_call_order d) (force_settlements d) (next_force_settlement d)
    (collateral_bids d) (next_bid d) (vesting_balances d) (next_vesting_balance d)
    (gas_collaterals d) (next_gas_collateral d) (initial_balances d) (governance d) (nh d)
    (head_block_time d) (applied_ops d).
Definition set_next_asset (x : Z) (d : database) : database :=
  mk_db (accounts d) (account_balances d) (account_statistics d) (assets d) x (dynamic_data d)
    (bitassets d) (asset_restricted d) (limit_orders d) (next_limit_order d) (call_orders d)
    (next_call_order d) (force_settlements d) (next_force_settlement d) (collateral_bids d)
    (next_bid d) (vesting_balances d) (next_vesting_balance d) (gas_collaterals d)
    (next_gas_collateral d) (initial_balances d) (governance d) (nh d) (head_block_time d)
    (applied_ops d).
Definition set_dynamic_data (x : gmap Z asset_dynamic_data) (d : database) : database :=
  mk_db (accounts d) (account_balances d) (account_statistics d) (assets d) (next_asset d) x
    (bitassets d) (asset_restricted d) (limit_orders d) (next_limit_order d) (call_orders d)
    (next_call_order d) (force_settlements d) (next_force_settlement d) (collateral_bids d)
    (next_bid d) (vesting_balances d) (next_vesting_balance d) (gas_collaterals d)
    (next_gas_collateral d) (initial_balances d) (governance d) (nh d) (head_block_time d)
    (applied_ops d).
Definition set_bitassets (x : gmap Z asset_bitasset_data) (d : database) : database :=
  mk_db (accounts d) (account_balances d) (account_statistics d) (assets d) (next_asset d)
    (dynamic_data d) x (asset_restricted d) (limit_orders d) (next_limit_order d)
    (call_orders d) (next_call_order d) (force_settlements d) (next_force_settlement d)
    (collateral_bids d) (next_bid d) (vesting_balances d) (next_vesting_balance d)
    (gas_collaterals d) (next_gas_collateral d) (initial_balances d) (governance d) (nh d)
    (head_block_time d) (applied_ops d).
Definition set_asset_restricted (x : gset (Z * Z * Z)) (d : database) : database :=
  mk_db (accounts d) (account_balances d) (account_statistics d) (assets d) (next_asset d)
    (dynamic_data d) (bitassets d) x (limit_orders d) (next_limit_order d) (call_orders d)
    (next_call_order d) (force_settlements d) (next_force_settlement d) (collateral_bids d)
    (next_bid d) (vesting_balances d) (next_vesting_balance d) (gas_collaterals d)
    (next_gas_collateral d) (initial_balances d) (governance d) (nh d) (head_block_time d)
    (applied_ops d).
Definition set_limit_orders (x : gmap Z limit_order_object) (d : database) : database :=
  mk_db (accounts d) (account_balances d) (account_statistics d) (assets d) (next_asset d)
    (dynamic_data d) (bitassets d) (asset_restricted d) x (next_limit_order d) (call_orders d)
    (next_call_order d) (force_settlements d) (next_force_settlement d) (collateral_bids d)
    (next_bid d) (vesting_balances d) (next_vesting_balance d) (gas_collaterals d)
    (next_gas_collateral d) (initial_balances d) (governance d) (nh d) (head_block_time d)
    (applied_ops d).
Definition set_next_limit_order (x : Z) (d : database) : database :=
  mk_db (accounts d) (account_balances d) (account_statistics d) (assets d) (next_asset d)
    (dynamic_data d) (bitassets d) (asset_restricted d) (limit_orders d) x (call_orders d)
    (next_call_order d) (force_settlements d) (next_force_settlement d) (collateral_bids d)
    (next_bid d) (vesting_balances d) (next_vesting_balance d) (gas_collaterals d)
    (next_gas_collateral d) (initial_balances d) (governance d) (nh d) (head_block_time d)
    (applied_ops d).
Definition set_call_orders (x : gmap Z call_order_object) (d : database) : database :=
  mk_db (accounts d) (account_balances d) (account_statistics d) (assets d) (next_asset d)
    (dynamic_data d) (bitassets d) (asset_restricted d) (limit_orders d) (next_limit_order d) x
    (next_call_order d) (force_settlements d) (next_force_settlement d) (collateral_bids d)
    (next_bid d) (vesting_balances d) (next_vesting_balance d) (gas_collaterals d)
    (next_gas_collateral d) (initial_balances d) (governance d) (nh d) (head_block_time d)
    (applied_ops d).
Definition set_next_call_order (x : Z) (d : database) : database :=
  mk_db (accounts d) (account_balances d) (account_statistics d) (assets d) (next_asset d)
    (dynamic_data d) (bitassets d) (asset_restricted d) (limit_orders d) (next_limit_order d)
    (call_orders d) x (force_settlements d) (next_force_settlement d) (collateral_bids d)
    (next_bid d) (vesting_balances d) (next_vesting_balance d) (gas_collaterals d)
    (next_gas_collateral d) (initial_balances d) (governance d) (nh d) (head_block_time d)
    (applied_ops d).
Definition set_force_settlements (x : gmap Z force_settlement_object) (d : database) : database :=
  mk_db (accounts d) (account_balances d) (account_statistics d) (assets d) (next_asset d)
    (dynamic_data d) (bitassets d) (asset_restricted d) (limit_orders d) (next_limit_order d)
    (call_orders d) (next_call_order d) x (next_force_settlement d) (collateral_bids d)
    (next_bid d) (vesting_balances d) (next_vesting_balance d) (gas_collaterals d)
    (next_gas_collateral d) (initial_balances d) (governance d) (nh d) (head_block_time d)
    (applied_ops d).
Definition set_next_force_settlement (x : Z) (d : database) : database :=
  mk_db (accounts d) (account_balances d) (account_statistics d) (assets d) (next_asset d)
    (dynamic_data d) (bitassets d) (asset_restricted d) (limit_orders d) (next_limit_order d)
    (call_orders d) (next_call_order d) (force_settlements d) x (collateral_bids d) (next_bid d)
    (vesting_balances d) (next_vesting_balance d) (gas_collaterals d) (next_gas_collateral d)
    (initial_balances d) (governance d) (nh d) (head_block_time d) (applied_ops d).
Definition set_collateral_bids (x : gmap Z collateral_bid_object) (d : database) : database :=
  mk_db (accounts d) (account_balances d) (account_statistics d) (assets d) (next_asset d)
    (dynamic_data d) (bitassets d) (asset_restricted d) (limit_orders d) (next_limit_order d)
    (call_orders d) (next_call_order d) (force_settlements d) (next_force_settlement d) x
    (next_bid d) (vesting_balances d) (next_vesting_balance d) (gas_collaterals d)
    (next_gas_collateral d) (initial_balances d) (governance d) (nh d) (head_block_time d)
    (applied_ops d).
Definition set_next_bid (x : Z) (d : database) : database :=
  mk_db (accounts d) (account_balances d) (account_statistics d) (assets d) (next_asset d)
    (dynamic_data d) (bitassets d) (asset_restricted d) (limit_orders d) (next_limit_order d)
    (call_orders d) (next_call_order d) (force_settlements d) (next_force_settlement d)
    (collateral_bids d) x (vesting_balances d) (next_vesting_balance d) (gas_collaterals d)
    (next_gas_collateral d) (initial_balances d) (governance d) (nh d) (head_block_time d)
    (applied_ops d).
Definition set_vesting_balances (x : gmap Z vesting_balance_object) (d : database) : database :=
  mk_db (accounts d) (account_balances d) (account_statistics d) (assets d) (next_asset d)
    (dynamic_data d) (bitassets d) (asset_restricted d) (limit_orders d) (next_limit_order d)
    (call_orders d) (next_call_order d) (force_settlements d) (next_force_settlement d)
    (collateral_bids d) (next_bid d) x (next_vesting_balance d) (gas_collaterals d)
    (next_gas_collateral d) (initial_balances d) (governance d) (nh d) (head_block_time d)
    (applied_ops d).
Definition set_next_vesting_balance (x : Z) (d : database) : database :=
  mk_db (accounts d) (account_balances d) (account_statistics d) (assets d) (next_asset d)
    (dynamic_data d) (bitassets d) (asset_restricted d) (limit_orders d) (next_limit_order d)
    (call_orders d) (next_call_order d) (force_settlements d) (next_force_settlement d)
    (collateral_bids d) (next_bid d) (vesting_balances d) x (gas_collaterals d)
    (next_gas_collateral d) (initial_balances d) (governance d) (nh d) (head_block_time d)
    (applied_ops d).
Definition set_gas_collaterals (x : gmap Z collateral_for_gas_object) (d : database) : database :=
  mk_db (accounts d) (account_balances d) (account_statistics d) (assets d) (next_asset d)
    (dynamic_data d) (bitassets d) (asset_restricted d) (limit_orders d) (next_limit_order d)
    (call_orders d) (next_call_order d) (force_settlements d) (next_force_settlement d)
    (collateral_bids d) (next_bid d) (vesting_balances d) (next_vesting_balance d) x
    (next_gas_collateral d) (initial_balances d) (governance d) (nh d) (head_block_time d)
    (applied_ops d).
Definition set_next_gas_collateral (x : Z) (d : database) : database :=
  mk_db (accounts d) (account_balances d) (account_statistics d) (assets d) (next_asset d)
    (dynamic_data d) (bitassets d) (asset_restricted d) (limit_orders d) (next_limit_order d)
    (call_orders d) (next_call_order d) (force_settlements d) (next_force_settlement d)
    (collateral_bids d) (next_bid d) (vesting_balances d) (next_vesting_balance d)
    (gas_collaterals d) x (initial_balances d) (governance d) (nh d) (head_block_time d)
    (applied_ops d).
Definition set_initial_balances (x : gmap Z balance_object) (d : database) : database :=
  mk_db (accounts d) (account_balances d) (account_statistics d) (assets d) (next_asset d)
    (dynamic_data d) (bitassets d) (asset_restricted d) (limit_orders d) (next_limit_order d)
    (call_orders d) (next_call_order d) (force_settlements d) (next_force_settlement d)
    (collateral_bids d) (next_bid d) (vesting_balances d) (next_vesting_balance d)
    (gas_collaterals d) (next_gas_collateral d) x (governance d) (nh d) (head_block_time d)
    (applied_ops d).
Definition set_governance (x : governance_state) (d : database) : database :=
  mk_db (accounts d) (account_balances d) (account_statistics d) (assets d) (next_asset d)
    (dynamic_data d) (bitassets d) (asset_restricted d) (limit_orders d) (next_limit_order d)
    (call_orders d) (next_call_order d) (force_settlements d) (next_force_settlement d)
    (collateral_bids d) (next_bid d) (vesting_balances d) (next_vesting_balance d)
    (gas_collaterals d) (next_gas_collateral d) (initial_balances d) x (nh d)
    (head_block_time d) (applied_ops d).
Definition set_nh (x : nh_state) (d : database) : database :=
  mk_db (accounts d) (account_balances d) (account_statistics d) (assets d) (next_asset d)
    (dynamic_data d) (bitassets d) (asset_restricted d) (limit_orders d) (next_limit_order d)
    (call_orders d) (next_call_order d) (force_settlements d) (next_force_settlement d)
    (collateral_bids d) (next_bid d) (vesting_balances d) (next_vesting_balance d)
    (gas_collaterals d) (next_gas_collateral d) (initial_balances d) (governance d) x
    (head_block_time d) (applied_ops d).
Definition set_head_block_time (x : Z) (d : database) : database :=
  mk_db (accounts d) (account_balances d) (account_statistics d) (assets d) (next_asset d)
    (dynamic_data d) (bitassets d) (asset_restricted d) (limit_orders d) (next_limit_order d)
    (call_orders d) (next_call_order d) (force_settlements d) (next_force_settlement d)
    (collateral_bids d) (next_bid d) (vesting_balances d) (next_vesting_balance d)
    (gas_collaterals d) (next_gas_collateral d) (initial_balances d) (governance d) (nh d) x
    (applied_ops d).
Definition set_applied_ops (x : list virtual_op) (d : database) : database :=
  mk_db (accounts d) (account_balances d) (account_statistics d) (assets d) (next_asset d)
    (dynamic_data d) (bitassets d) (asset_restricted d) (limit_orders d) (next_limit_order d)
    (call_orders d) (next_call_order d) (force_settlements d) (next_force_settlement d)
    (collateral_bids d) (next_bid d) (vesting_balances d) (next_vesting_balance d)
    (gas_collaterals d) (next_gas_collateral d) (initial_balances d) (governance d) (nh d)
    (head_block_time d) x.

Definition push_op (op : virtual_op) (d : database) : database :=
  set_applied_ops (applied_ops d ++ [op]) d.

(** Object lookups: [get] throws when the object does not exist. *)
Definition get_account (a : Z) (d : database) : result account_object :=
  get_or (accounts d !! a) assert_exception.
Definition get_asset (x : Z) (d : database) : result asset_object :=
  get_or (assets d !! x) assert_exception.
Definition get_dynamic_data (x : Z) (d : database) : result asset_dynamic_data :=
  get_or (dynamic_data d !! x) assert_exception.
Definition get_bitasset (x : Z) (d : database) : result asset_bitasset_data :=
  get_or (bitassets d !! x) assert_exception.

(** [mia.bitasset_data(db)]: throws when the asset is not market issued. *)
Definition bitasset_data (x : Z) (a : asset_object) (d : database) : result asset_bitasset_data :=
  check is_market_issued a;
  get_bitasset x d.

(** [modify( account.statistics, ... )] on [total_core_in_orders]. *)
Definition modify_statistics (acc : Z) (f : Z -> result Z) (d : database) : result database :=
  let* s := get_or (account_statistics d !! acc) assert_exception in
  let* s := f s in
  Ok (set_account_statistics (<[acc := s]> (account_statistics d)) d).

Definition modify_dynamic_data (x : Z) (f : asset_dynamic_data -> result asset_dynamic_data)
    (d : database) : result database :=
  let* dd := get_dynamic_data x d in
  let* dd := f dd in
  Ok (set_dynamic_data (<[x := dd]> (dynamic_data d)) d).

(** ** Where the units of an asset are *)

Definition in_asset (x : Z) (a : asset) : Z := if asset_id a =? x then amount a else 0.

Definition in_balances (x : Z) (m : gmap (Z * Z) Z) : Z :=
  sum_map (fun k v => in_asset x (mk_asset v k.2)) m.
Definition in_limit_orders (x : Z) (m : gmap Z limit_order_object) : Z :=
  sum_map (fun _ o => in_asset x (amount_for_sale o)) m.
Definition in_call_orders (x : Z) (m : gmap Z call_order_object) : Z :=
  sum_map (fun _ c => in_asset x (get_collateral c)) m.
Definition in_settlements (x : Z) (m : gmap Z force_settlement_object) : Z :=
  sum_map (fun _ s => in_asset x (fs_balance s)) m.
Definition in_bids (x : Z) (m : gmap Z collateral_bid_object) : Z :=
  sum_map (fun _ b => in_asset x (base (inv_swan_price b))) m.
Definition in_funds (x : Z) (m : gmap Z asset_bitasset_data) : Z :=
  sum_map (fun _ b => in_asset x (mk_asset (settlement_fund b)
                                   (short_backing_asset (options b)))) m.
Definition in_fees (x : Z) (m : gmap Z asset_dynamic_data) : Z :=
  sum_map (fun k dd => in_asset x (mk_asset (accumulated_fees dd) k)) m.
Definition in_vesting (x : Z) (m : gmap Z vesting_balance_object) : Z :=
  sum_map (fun _ v => in_asset x (balance v)) m.

Definition in_gas_collateral (x : Z) (m : gmap Z collateral_for_gas_object) : Z :=
  sum_map (fun _ c => in_asset x (mk_asset (gas_collateral c) CORE)) m.
Definition in_initial (x : Z) (m : gmap Z balance_object) : Z :=
  sum_map (fun _ b => in_asset x (bal_balance b)) m.

(** Every unit of asset [x] held by the state. *)
Definition total (x : Z) (d : database) : Z :=
  in_balances x (account_balances d) + in_limit_orders x (limit_orders d)
  + in_call_orders x (call_orders d) + in_settlements x (force_settlements d)
  + in_bids x (collateral_bids d) + in_funds x (bitassets d)
  + in_fees x (dynamic_data d) + in_vesting x (vesting_balances d)
  + in_gas_collateral x (gas_collaterals d) + in_initial x (initial_balances d).

(** The recorded supply of asset [x]. *)
Definition supply (x : Z) (d : database) : Z :=
  sum_map (fun k dd => in_asset x (mk_asset (current_supply dd) k)) (dynamic_data d).

(** Units in existence beyond the recorded supply; an operation that neither
    creates nor destroys value keeps it. *)
Definition excess (x : Z) (d : database) : Z := total x d - supply x d.

(** ** Lemmas on the parts of a total *)

Lemma in_asset_sub x a b i : in_asset x (mk_asset (a - b) i)
  = in_asset x (mk_asset a i) - in_asset x (mk_asset b i).
Proof. unfold in_asset. cbn. case_if; lia. Qed.

Lemma in_asset_add x a b i : in_asset x (mk_asset (a + b) i)
  = in_asset x (mk_asset a i) + in_asset x (mk_asset b i).
Proof. unfold in_asset. cbn. case_if; lia. Qed.

Lemma in_asset_0 x i : in_asset x (mk_asset 0 i) = 0.
Proof. unfold in_asset. cbn. case_if; lia. Qed.

Lemma in_asset_eta x a : in_asset x a = in_asset x (mk_asset (amount a) (asset_id a)).
Proof. by destruct a. Qed.

#[export] Hint Rewrite in_asset_sub in_asset_add in_asset_0 : gph.

Lemma modify_dynamic_data_inv x f d d' :
  modify_dynamic_data x f d = Ok d' ->
  exists dd dd', dynamic_data d !! x = Some dd /\ f dd = Ok dd'
    /\ d' = set_dynamic_data (<[x := dd']> (dynamic_data d)) d.
Proof. unfold modify_dynamic_data, get_dynamic_data. intros H. res_inv. eauto. Qed.

Lemma modify_statistics_inv acc f d d' :
  modify_statistics acc f d = Ok d' ->
  exists s s', account_statistics d !! acc = Some s /\ f s = Ok s'
    /\ d' = set_account_statistics (<[acc := s']> (account_statistics d)) d.
Proof. unfold modify_statistics. intros H. res_inv. eauto. Qed.
