(* ===== verification/Ledger.v ===== *)
(** * Balances and transfers

    [db_balance.cpp] (balances, lazily vesting deposits), [is_authorized_asset]
    and the transfer evaluators ([transfer_evaluator.cpp]). *)

From S2P Require Import Prelude SafeInt Asset Vesting State.

(** ** Balances *)

Definition get_balance (owner aid : Z) (d : database) : asset :=
  match account_balances d !! (owner, aid) with
  | None => mk_asset 0 aid
  | Some b => mk_asset b aid
  end.

Definition locked_of (a : account_object) (aid : Z) : Z := default 0 (locked_total a !! aid).

Definition assert_balance (acc : Z) (target : asset) (d : database) : result unit :=
  let* a := get_account acc d in
  let b := amount (get_balance acc (asset_id target) d) in
  fc_assert ((locked_of a (asset_id target) >=? 0) && (locked_of a (asset_id target) <=? b)).

Definition adjust_balance (account : Z) (delta : asset) (allow_gas_negative : bool)
    (d : database) : result database :=
  if amount delta =? 0 then Ok d
  else
    match account_balances d !! (account, asset_id delta) with
    | None =>
        check amount delta >? 0;
        Ok (set_account_balances
              (<[(account, asset_id delta) := amount delta]> (account_balances d)) d)
    | Some b =>
        let bal := mk_asset b (asset_id delta) in
        let* _ :=
          if (amount delta <? 0)
             && negb (allow_gas_negative && (asset_id delta =? GRAPHENE_ASSET_GAS)) then
            let* neg := asset_neg delta in
            let* enough := asset_geb bal neg in
            check enough;
            let* a := get_account account d in
            let locked := locked_of a (asset_id delta) in
            check locked >=? 0;
            let* rest := asset_add bal delta in
            let* free := asset_geb rest (mk_asset locked (asset_id delta)) in
            fc_assert free
          else Ok tt in
        let* b := Share.add b (amount delta) in
        Ok (set_account_balances (<[(account, asset_id delta) := b]> (account_balances d)) d)
    end.

(** ** Deposits into lazily created vesting balances *)

Definition deposit_lazy_vesting (ovbid : option Z) (amt : asset) (req_vesting_seconds : Z)
    (req_owner : Z) (descr : string) (require_vesting : bool) (d : database)
    : result (option Z * database) :=
  if amount amt =? 0 then Ok (None, d)
  else
    let now := head_block_time d in
    let create_new :=
      let p := mk_cdd req_vesting_seconds
                 (wrap128 (if require_vesting then 0
                           else to_int64 (amount amt * req_vesting_seconds)))
                 0 now in
      let v := mk_vbo req_owner amt now 0 (Cdd p) (Some descr) in
      let id := next_vesting_balance d in
      Ok (Some id, set_next_vesting_balance (id + 1)
                     (set_vesting_balances (<[id := v]> (vesting_balances d)) d)) in
    match ovbid with
    | None => create_new
    | Some id =>
        let* v := get_or (vesting_balances d !! id) assert_exception in
        if negb (owner v =? req_owner) then create_new
        else
          match policy v with
          | Linear _ => create_new
          | Cdd p =>
              if negb (vesting_seconds p =? req_vesting_seconds) then create_new
              else if negb (bool_decide (describe v = Some descr)) then create_new
              else
                let* v := if require_vesting then deposit v now amt
                          else deposit_vested v now amt in
                Ok (None, set_vesting_balances (<[id := v]> (vesting_balances d)) d)
          end
    end.

Definition deposit_cashback (acct : Z) (amt : asset) (period : Z) (descr : string)
    (require_vesting : bool) (d : database) : result database :=
  if amount amt =? 0 then Ok d
  else
    let* a := get_account acct d in
    let* (new_vbid, d) :=
      deposit_lazy_vesting (cashback_gas a) amt period acct descr require_vesting d in
    match new_vbid with
    | Some id =>
        Ok (set_accounts (<[acct := set_cashback_gas (Some id) a]> (accounts d)) d)
    | None => Ok d
    end.

(** [account_object::pay_fee]: a fee in the core asset is accumulated, any other
    fee goes to the payer's own vesting balance. *)
Definition pay_fee (acct : Z) (fee : asset) (period : Z) (d : database) : result database :=
  if asset_id fee =? CORE then
    modify_dynamic_data CORE
      (fun dd => let* f := Share.add (accumulated_fees dd) (amount fee) in
                 Ok (mk_dyn (current_supply dd) f)) d
  else deposit_cashback acct fee period "cashback_gas" true d.

(** ** Authorised assets *)

Abbreviation whitelist_authorities := 1.
Abbreviation blacklist_authorities := 2.
Abbreviation whitelist_markets := 3.
Abbreviation blacklist_markets := 4.

Definition restricted_find (aid kind id : Z) (d : database) : bool :=
  bool_decide ((aid, kind, id) ∈ asset_restricted d).
Definition restricted_any (aid kind : Z) (d : database) : bool :=
  existsb (fun '(x, k, _) => (x =? aid) && (k =? kind)) (elements (asset_restricted d)).

Definition is_authorized_asset_slow (d : database) (acct aid : Z) (a : asset_object) : bool :=
  if negb (is_transfer_restricted a) && restricted_find aid blacklist_authorities acct d
  then false
  else if negb (restricted_any aid whitelist_authorities d) then true
  else restricted_find aid whitelist_authorities acct d.

Definition is_authorized_asset (d : database) (acct aid : Z) (a : asset_object) : bool :=
  if negb (has_flag (flags a) white_list) then true
  else is_authorized_asset_slow d acct aid a.

(** ** Transfers *)

Record transfer_operation := mk_transfer { tr_from : Z; tr_to : Z; tr_amount : asset }.

Definition transfer_do_evaluate (op : transfer_operation) (d : database) : result unit :=
  let* _ := get_account (tr_from op) d in
  let* _ := get_account (tr_to op) d in
  let aid := asset_id (tr_amount op) in
  let* a := get_asset aid d in
  check negb (aid =? GRAPHENE_ASSET_GAS);
  let* _ :=
    if negb (tr_from op =? issuer a) && negb (tr_to op =? issuer a) then
      require is_authorized_asset d (tr_from op) aid a
        else transfer_from_account_not_whitelisted;
      graphene_assert (is_authorized_asset d (tr_to op) aid a)
        transfer_to_account_not_whitelisted
    else Ok tt in
  let* _ :=
    if is_transfer_restricted a && negb (is_white_list a) then
      graphene_assert ((tr_from op =? issuer a) || (tr_to op =? issuer a))
        transfer_restricted_transfer_asset
    else Ok tt in
  fc_assert (amount (get_balance (tr_from op) aid d) >=? amount (tr_amount op)).

Definition transfer_do_apply (op : transfer_operation) (d : database) : result database :=
  if amount (tr_amount op) >? 0 then
    let* neg := asset_neg (tr_amount op) in
    let* d := adjust_balance (tr_from op) neg false d in
    adjust_balance (tr_to op) (tr_amount op) false d
  else Ok d.

Definition transfer (op : transfer_operation) (d : database) : result database :=
  let* _ := transfer_do_evaluate op d in transfer_do_apply op d.

Record override_transfer_operation := mk_override {
  ov_issuer : Z; ov_from : Z; ov_to : Z; ov_amount : asset }.

Definition override_do_evaluate (op : override_transfer_operation) (d : database) : result unit :=
  let aid := asset_id (ov_amount op) in
  check negb (aid =? GRAPHENE_ASSET_GAS);
  let* a := get_asset aid d in
  check can_override a;
  check issuer a =? ov_issuer op;
  let* _ := get_account (ov_from op) d in
  let* _ := get_account (ov_to op) d in
  check is_authorized_asset d (ov_to op) aid a;
  check is_authorized_asset d (ov_from op) aid a;
  fc_assert (amount (get_balance (ov_from op) aid d) >=? amount (ov_amount op)).

Definition override_do_apply (op : override_transfer_operation) (d : database) : result database :=
  let* neg := asset_neg (ov_amount op) in
  let* d := adjust_balance (ov_from op) neg false d in
  adjust_balance (ov_to op) (ov_amount op) false d.

Definition override_transfer (op : override_transfer_operation) (d : database)
    : result database :=
  let* _ := override_do_evaluate op d in override_do_apply op d.

(** ** Vesting balance operations (vesting_balance_evaluator.cpp) *)

Inductive vesting_policy_initializer :=
| LinearInit (begin_ts cliff duration : Z)
| CddInit (start vesting : Z).

Definition init_policy (i : vesting_policy_initializer) (init_balance now : Z) : vesting_policy :=
  match i with
  | LinearInit b c dur => Linear (mk_linear b c dur init_balance)
  | CddInit s v => Cdd (mk_cdd v 0 s now)
  end.

Record vesting_balance_create_operation := mk_vb_create {
  vbc_creator : Z; vbc_owner : Z; vbc_amount : asset; vbc_policy : vesting_policy_initializer }.

Definition vesting_create_do_evaluate (op : vesting_balance_create_operation) (d : database)
    : result unit :=
  let* _ := get_account (vbc_creator op) d in
  let* _ := get_account (vbc_owner op) d in
  check amount (vbc_amount op) >? 0;
  let* enough := asset_geb (get_balance (vbc_creator op) (asset_id (vbc_amount op)) d)
                   (vbc_amount op) in
  check enough;
  let* a := get_asset (asset_id (vbc_amount op)) d in
  fc_assert (negb (is_transfer_restricted a)).

Definition vesting_create_do_apply (op : vesting_balance_create_operation) (d : database)
    : result (Z * database) :=
  let now := head_block_time d in
  let* enough := asset_geb (get_balance (vbc_creator op) (asset_id (vbc_amount op)) d)
                   (vbc_amount op) in
  check enough;
  let* neg := asset_neg (vbc_amount op) in
  let* d := adjust_balance (vbc_creator op) neg false d in
  let v := mk_vbo (vbc_owner op) (vbc_amount op) 0 0
             (init_policy (vbc_policy op) (amount (vbc_amount op)) now) None in
  let id := next_vesting_balance d in
  Ok (id, set_next_vesting_balance (id + 1)
            (set_vesting_balances (<[id := v]> (vesting_balances d)) d)).

Record vesting_balance_withdraw_operation := mk_vb_withdraw {
  vbw_vesting_balance : Z; vbw_owner : Z; vbw_amount : asset }.

Definition vesting_withdraw_do_evaluate (op : vesting_balance_withdraw_operation) (d : database)
    : result unit :=
  let now := head_block_time d in
  let* v := get_or (vesting_balances d !! vbw_vesting_balance op) assert_exception in
  check vbw_owner op =? owner v;
  let* allowed := is_withdraw_allowed v now (vbw_amount op) in
  check allowed;
  let* _ := get_account (vbw_owner op) d in
  Ok tt.

Definition vesting_withdraw_do_apply (op : vesting_balance_withdraw_operation) (d : database)
    : result database :=
  let now := head_block_time d in
  let* v := get_or (vesting_balances d !! vbw_vesting_balance op) assert_exception in
  let* v := withdraw v now (vbw_amount op) in
  let d := set_vesting_balances (<[vbw_vesting_balance op := v]> (vesting_balances d)) d in
  adjust_balance (vbw_owner op) (vbw_amount op) false d.

Definition vesting_withdraw (op : vesting_balance_withdraw_operation) (d : database)
    : result database :=
  let* _ := vesting_withdraw_do_evaluate op d in vesting_withdraw_do_apply op d.

(** ** Lemmas: what [adjust_balance] changes *)

Lemma set_balances_same d : d = set_account_balances (account_balances d) d.
Proof. by destruct d. Qed.

Lemma in_balances_insert x m k v :
  in_balances x (<[k := v]> m)
  = in_balances x m + in_asset x (mk_asset (v - default 0 (m !! k)) k.2).
Proof.
  unfold in_balances. destruct (m !! k) as [w|] eqn:E.
  - change (default 0 (Some w)) with w.
    rewrite (sum_map_insert _ _ _ w) by done. rewrite in_asset_sub. lia.
  - change (default 0 None) with 0. rewrite sum_map_insert_new by done. rewrite Z.sub_0_r. lia.
Qed.

Lemma adjust_balance_map acc delta allow d d' :
  adjust_balance acc delta allow d = Ok d' ->
  d' = set_account_balances (account_balances d') d
  /\ forall k, default 0 (account_balances d' !! k)
       = default 0 (account_balances d !! k)
         + (if decide (k = (acc, asset_id delta)) then amount delta else 0).
Proof.
  unfold adjust_balance. intros H. case_if_in H; bool_to_prop.
  { injection H as <-. split; [apply set_balances_same|]. intros k. case_decide; lia. }
  destruct (account_balances d !! (acc, asset_id delta)) as [b|] eqn:E.
  - apply rbind_ok in H as (_ & _ & H). apply rbind_ok in H as (b' & Hb & [= <-]).
    apply Share.add_value in Hb as ->. split; [done|]. intros k. cbn.
    case_decide as Ek; subst; [rewrite lookup_insert_eq, E|rewrite lookup_insert_ne by done];
      cbn; lia.
  - res_inv. split; [done|]. intros k. cbn.
    case_decide as Ek; subst; [rewrite lookup_insert_eq, E|rewrite lookup_insert_ne by done];
      cbn; lia.
Qed.

(** The total held in balances moves by the amount adjusted. *)
Lemma adjust_balance_total acc delta allow d d' :
  adjust_balance acc delta allow d = Ok d' ->
  exists m, d' = set_account_balances m d
    /\ forall x, in_balances x m = in_balances x (account_balances d) + in_asset x delta.
Proof.
  unfold adjust_balance. intros H. case_if_in H; bool_to_prop.
  { injection H as <-. eexists. split; [apply set_balances_same|]. intros x.
    rewrite (in_asset_eta x delta), Hif, in_asset_0. lia. }
  destruct (account_balances d !! (acc, asset_id delta)) as [b|] eqn:E.
  - apply rbind_ok in H as (_ & _ & H). apply rbind_ok in H as (b' & Hb & [= <-]).
    apply Share.add_value in Hb as ->. eexists. split; [done|]. intros x.
    rewrite in_balances_insert, E. cbn. rewrite (in_asset_eta x delta). do 3 f_equal. lia.
  - res_inv. eexists. split; [done|]. intros x.
    rewrite in_balances_insert, E. cbn. rewrite (in_asset_eta x delta). do 3 f_equal. lia.
Qed.

Definition balances_nonneg (d : database) : Prop :=
  forall k v, account_balances d !! k = Some v -> 0 <= v.

(** A debit leaves the locked amount in place. *)
Lemma adjust_balance_locked acc delta d d' :
  adjust_balance acc delta false d = Ok d' -> amount delta < 0 ->
  exists a, get_account acc d = Ok a
    /\ 0 <= locked_of a (asset_id delta) <= amount (get_balance acc (asset_id delta) d) + amount delta.
Proof.
  intros H Hlt. unfold adjust_balance in H. case_if_in H; bool_to_prop; [lia|].
  unfold get_balance. destruct (account_balances d !! (acc, asset_id delta)) as [b|] eqn:E; [|res_inv; bool_to_prop; lia].
  apply rbind_ok in H as (u0 & Hg & _). destruct (Z.ltb_spec (amount delta) 0); [|lia]. cbn [andb negb] in Hg.
  apply rbind_ok in Hg as (ng & _ & Hg). apply rbind_ok in Hg as (en & _ & Hg).
  apply rbind_ok in Hg as (_ & _ & Hg). apply rbind_ok in Hg as (a & Ha & Hg).
  apply rbind_ok in Hg as (u & Hl & Hg). apply rbind_ok in Hg as (rest & Hr & Hg).
  apply rbind_ok in Hg as (fr & Hf & Hg).
  unfold asset_add in Hr. cbn [asset_id amount] in Hr. rewrite Z.eqb_refl in Hr.
  apply rbind_ok in Hr as (_ & _ & Hr). apply rbind_ok in Hr as (s & Hs & [= <-]).
  apply Share.add_value in Hs as ->. rewrite asset_geb_same in Hf by done.
  injection Hf as <-. unfold fc_assert in *. cbn [amount] in *.
  case_if_in Hg; [|done]. case_if_in Hl; [|done]. bool_to_prop. exists a. split; [done|lia].
Qed.

(** Without the gas exception no balance becomes negative, and a debit leaves
    the locked amount in place. *)
Lemma adjust_balance_guard acc delta d d' :
  adjust_balance acc delta false d = Ok d' -> balances_nonneg d ->
  balances_nonneg d'
  /\ (amount delta < 0 -> exists a, get_account acc d = Ok a
        /\ 0 <= locked_of a (asset_id delta)
             <= amount (get_balance acc (asset_id delta) d) + amount delta).
Proof.
  intros H Hn. assert (Hgd := adjust_balance_locked _ _ _ _ H). split; [|done].
  unfold adjust_balance in H. case_if_in H; bool_to_prop; [by injection H as <-|].
  unfold get_balance in Hgd. destruct (account_balances d !! (acc, asset_id delta)) as [b|] eqn:E.
  - apply rbind_ok in H as (u0 & _ & H). apply rbind_ok in H as (b' & Hb & [= <-]).
    apply Share.add_value in Hb as ->. assert (Hb0 : 0 <= b) by (by eapply Hn).
    intros k v Hk. cbn in Hk. destruct (decide (k = (acc, asset_id delta))) as [->|Ek].
    + rewrite lookup_insert_eq in Hk. injection Hk as <-.
      destruct (Z.lt_ge_cases (amount delta) 0) as [Hlt|]; [|lia].
      destruct (Hgd Hlt) as (a & _ & Hl). cbn [amount] in Hl. lia.
    + rewrite lookup_insert_ne in Hk by done. by eapply Hn.
  - res_inv. bool_to_prop. intros k v Hk. cbn in Hk.
    destruct (decide (k = (acc, asset_id delta))) as [->|Ek].
    + rewrite lookup_insert_eq in Hk. injection Hk as <-. lia.
    + rewrite lookup_insert_ne in Hk by done. by eapply Hn.
Qed.

Lemma asset_neg_value a n : asset_neg a = Ok n ->
  asset_id n = asset_id a /\ amount n = - amount a.
Proof. unfold asset_neg. intros H. res_inv. by apply Share.neg_value in Hm. Qed.

Lemma adjust_balance_excess acc delta allow d d' x :
  adjust_balance acc delta allow d = Ok d' ->
  total x d' = total x d + in_asset x delta /\ supply x d' = supply x d.
Proof.
  intros H. apply adjust_balance_total in H as (m & -> & Hm).
  unfold total, supply. cbn. rewrite Hm. lia.
Qed.

Lemma adjust_balance_rest acc delta allow d d' :
  adjust_balance acc delta allow d = Ok d' ->
  vesting_balances d' = vesting_balances d /\ next_vesting_balance d' = next_vesting_balance d
  /\ accounts d' = accounts d /\ head_block_time d' = head_block_time d.
Proof. intros H. by apply adjust_balance_total in H as (m & -> & _). Qed.

(** Two adjustments that move an amount from one account to another. *)
Lemma move_balance from_ to_ a neg d d1 d2 x :
  asset_neg a = Ok neg -> adjust_balance from_ neg false d = Ok d1 ->
  adjust_balance to_ a false d1 = Ok d2 ->
  total x d2 = total x d /\ supply x d2 = supply x d.
Proof.
  intros Hn H1 H2. apply (adjust_balance_excess _ _ _ _ _ x) in H1 as [T1 S1], H2 as [T2 S2].
  destruct (asset_neg_value _ _ Hn) as [Hid Hamt]. rewrite T2, T1, S2, S1.
  unfold in_asset. rewrite Hid, Hamt. split; [case_if; lia|done].
Qed.

(** ** The operations of the ledger as one step *)

Inductive ledger_op :=
| OpTransfer (op : transfer_operation)
| OpOverride (op : override_transfer_operation)
| OpVestingCreate (op : vesting_balance_create_operation)
| OpVestingWithdraw (op : vesting_balance_withdraw_operation).

Definition run_ledger_op (op : ledger_op) (d : database) : result database :=
  match op with
  | OpTransfer op => transfer op d
  | OpOverride op => override_transfer op d
  | OpVestingCreate op =>
      let* _ := vesting_create_do_evaluate op d in
      let* (_, d) := vesting_create_do_apply op d in Ok d
  | OpVestingWithdraw op => vesting_withdraw op d
  end.

(** An operation that throws is rolled back. *)
Definition apply_ledger_op (d : database) (op : ledger_op) : database :=
  match run_ledger_op op d with Ok d' => d' | Err _ => d end.

Definition vesting_fresh (d : database) : Prop :=
  forall id v, vesting_balances d !! id = Some v -> id < next_vesting_balance d.

Definition ledger_ok (d : database) : Prop := balances_nonneg d /\ vesting_fresh d.

Lemma in_vesting_insert x m id v :
  in_vesting x (<[id := v]> m)
  = in_vesting x m - match m !! id with Some w => in_asset x (balance w) | None => 0 end
    + in_asset x (balance v).
Proof.
  unfold in_vesting. destruct (m !! id) as [w|] eqn:E.
  - by rewrite (sum_map_insert _ _ _ w).
  - rewrite sum_map_insert_new by done. lia.
Qed.

Lemma total_set_vesting x m d :
  total x (set_vesting_balances m d) = total x d - in_vesting x (vesting_balances d) + in_vesting x m.
Proof. unfold total. cbn. lia. Qed.

Lemma transfer_apply_step from_ to_ a d d' x :
  (let* neg := asset_neg a in
   let* d := adjust_balance from_ neg false d in adjust_balance to_ a false d) = Ok d' ->
  total x d' = total x d /\ supply x d' = supply x d /\ (ledger_ok d -> ledger_ok d').
Proof.
  intros H. apply rbind_ok in H as (neg & Hn & H). apply rbind_ok in H as (d1 & H1 & H2).
  destruct (move_balance from_ to_ a neg d d1 d' x Hn H1 H2) as [-> ->].
  split; [done|]. split; [done|]. intros [Hb Hf].
  destruct (adjust_balance_guard _ _ _ _ H1 Hb) as [Hb1 _].
  destruct (adjust_balance_guard _ _ _ _ H2 Hb1) as [Hb2 _].
  split; [done|].
  apply adjust_balance_rest in H1 as (E1 & E2 & _), H2 as (E3 & E4 & _).
  unfold vesting_fresh in *. by rewrite E3, E4, E1, E2.
Qed.

Lemma vesting_create_step op d id d' x :
  vesting_create_do_apply op d = Ok (id, d') -> ledger_ok d ->
  total x d' = total x d /\ supply x d' = supply x d /\ ledger_ok d'.
Proof.
  intros H [Hb Hf]. unfold vesting_create_do_apply in H.
  apply rbind_ok in H as (en & _ & H). apply rbind_ok in H as (u & _ & H).
  apply rbind_ok in H as (neg & Hn & H). apply rbind_ok in H as (d1 & H1 & [= <- <-]).
  pose proof (adjust_balance_excess _ _ _ _ _ x H1) as [T1 S1].
  destruct (adjust_balance_guard _ _ _ _ H1 Hb) as [Hb1 _].
  apply adjust_balance_rest in H1 as (E1 & E2 & _).
  destruct (asset_neg_value _ _ Hn) as [Hid Hamt].
  assert (Hnone : vesting_balances d1 !! next_vesting_balance d1 = None).
  { destruct (vesting_balances d1 !! next_vesting_balance d1) as [v|] eqn:E; [|done].
    rewrite E1, E2 in E. apply Hf in E. lia. }
  split; [|split; [exact S1|split]].
  - change (total x (set_vesting_balances (<[next_vesting_balance d1 :=
      mk_vbo (vbc_owner op) (vbc_amount op) 0 0
        (init_policy (vbc_policy op) (amount (vbc_amount op)) (head_block_time d)) None]>
      (vesting_balances d1)) d1) = total x d).
    rewrite total_set_vesting, in_vesting_insert, Hnone, T1. cbn [balance].
    unfold in_asset. rewrite Hid, Hamt. case_if; lia.
  - exact Hb1.
  - intros i v Hi. cbn in Hi |- *. destruct (decide (i = next_vesting_balance d1)) as [->|Ei];
      [lia|]. rewrite lookup_insert_ne in Hi by done. rewrite E1 in Hi. apply Hf in Hi. lia.
Qed.

Lemma vesting_withdraw_step op d d' x :
  vesting_withdraw_do_apply op d = Ok d' ->
  total x d' = total x d /\ supply x d' = supply x d /\ (ledger_ok d -> ledger_ok d').
Proof.
  intros H. unfold vesting_withdraw_do_apply in H.
  apply rbind_ok in H as (v & Hv & H). apply rbind_ok in H as (v' & Hw & H).
  unfold get_or in Hv. destruct (vesting_balances d !! vbw_vesting_balance op) as [v0|] eqn:E;
    [|done]. injection Hv as ->.
  pose proof (adjust_balance_excess _ _ _ _ _ x H) as [T1 S1].
  assert (Hbal : in_asset x (balance v') = in_asset x (balance v) - in_asset x (vbw_amount op)).
  { unfold withdraw in Hw. do 3 (apply rbind_ok in Hw as (? & _ & Hw)).
    apply rbind_ok in Hw as (b & Hb & [= <-]). cbn.
    unfold asset_sub in Hb. res_inv. bool_to_prop. apply Share.sub_value in Hm. subst.
    unfold in_asset. cbn. rewrite Hchk. case_if; lia. }
  split; [|split].
  - rewrite T1, total_set_vesting, in_vesting_insert, E. lia.
  - by rewrite S1.
  - intros [Hb Hf]. destruct (adjust_balance_guard _ _ _ _ H) as [Hb1 _]; [exact Hb|].
    split; [done|]. apply adjust_balance_rest in H as (E1 & E2 & _).
    intros i w Hi. rewrite E1 in Hi. rewrite E2. cbn in Hi |- *.
    destruct (decide (i = vbw_vesting_balance op)) as [->|Ei]; [by eapply Hf|].
    rewrite lookup_insert_ne in Hi by done. by eapply Hf.
Qed.

Lemma run_ledger_op_step op d d' x :
  ledger_ok d -> run_ledger_op op d = Ok d' ->
  total x d' = total x d /\ supply x d' = supply x d /\ ledger_ok d'.
Proof.
  intros Hok H. destruct op as [op|op|op|op]; cbn [run_ledger_op] in H.
  - unfold transfer in H. apply rbind_ok in H as (u & _ & H). unfold transfer_do_apply in H.
    case_if_in H; [|by injection H as <-].
    apply (transfer_apply_step _ _ _ _ _ x) in H as (? & ? & Hk). auto.
  - unfold override_transfer in H. apply rbind_ok in H as (u & _ & H).
    apply (transfer_apply_step _ _ _ _ _ x) in H as (? & ? & Hk). auto.
  - apply rbind_ok in H as (u & _ & H). apply rbind_ok in H as ([id d1] & H & [= <-]).
    by eapply vesting_create_step.
  - unfold vesting_withdraw in H. apply rbind_ok in H as (u & _ & H).
    apply (vesting_withdraw_step _ _ _ x) in H as (? & ? & Hk). auto.
Qed.

(** Balances after a transfer that moved a positive amount. *)
Lemma transfer_moves op d d' :
  transfer op d = Ok d' -> 0 < amount (tr_amount op) ->
  exists neg d1, asset_neg (tr_amount op) = Ok neg
    /\ adjust_balance (tr_from op) neg false d = Ok d1
    /\ adjust_balance (tr_to op) (tr_amount op) false d1 = Ok d'.
Proof.
  intros H Hpos. unfold transfer in H. apply rbind_ok in H as (u & _ & H).
  unfold transfer_do_apply in H. case_if_in H; [|bool_to_prop; lia].
  apply rbind_ok in H as (neg & Hn & H). apply rbind_ok in H as (d1 & H1 & H2). eauto.
Qed.

Lemma get_balance_default owner aid d :
  amount (get_balance owner aid d) = default 0 (account_balances d !! (owner, aid)).
Proof. unfold get_balance. by destruct (account_balances d !! (owner, aid)). Qed.

Lemma adjust_balance_get acc delta allow d d' o aid :
  adjust_balance acc delta allow d = Ok d' ->
  amount (get_balance o aid d')
  = amount (get_balance o aid d)
    + (if decide ((o, aid) = (acc, asset_id delta)) then amount delta else 0).
Proof. intros H. rewrite !get_balance_default. by apply adjust_balance_map in H as [_ ->]. Qed.

(** When a debit or credit goes through. *)
Lemma adjust_balance_debit acc delta d b a :
  account_balances d !! (acc, asset_id delta) = Some b -> accounts d !! acc = Some a ->
  amount delta < 0 -> - int64_max <= amount delta -> 0 <= locked_of a (asset_id delta) ->
  locked_of a (asset_id delta) <= b + amount delta -> b <= int64_max ->
  exists d', adjust_balance acc delta false d = Ok d'.
Proof.
  intros Hb Ha Hlt Hmin Hl Hle Hmax. unfold adjust_balance.
  destruct (Z.eqb_spec (amount delta) 0); [lia|]. rewrite Hb.
  destruct (Z.ltb_spec (amount delta) 0); [|lia]. cbn [andb negb].
  unfold asset_neg. rewrite Share.neg_run by (unfold in_range; lia). cbn [rbind].
  rewrite asset_geb_same by done. cbn [rbind amount].
  destruct (Z.leb_spec (- amount delta) b); [|lia]. cbn [fc_assert rbind].
  unfold get_account. rewrite Ha. cbn [get_or rbind].
  destruct (Z.geb_spec (locked_of a (asset_id delta)) 0); [|lia]. cbn [fc_assert rbind].
  unfold asset_add. cbn [asset_id amount]. rewrite Z.eqb_refl. cbn [fc_assert rbind].
  rewrite Share.add_run by (unfold in_range; lia). cbn [rbind].
  rewrite asset_geb_same by done. cbn [rbind amount].
  destruct (Z.leb_spec (locked_of a (asset_id delta)) (b + amount delta)); [|lia].
  cbn [fc_assert rbind]. by eexists.
Qed.

Lemma adjust_balance_credit acc delta d :
  0 < amount delta <= int64_max ->
  0 <= default 0 (account_balances d !! (acc, asset_id delta)) <= int64_max - amount delta ->
  exists d', adjust_balance acc delta false d = Ok d'.
Proof.
  intros Hpos Hroom. unfold adjust_balance. destruct (Z.eqb_spec (amount delta) 0); [lia|].
  destruct (account_balances d !! (acc, asset_id delta)) as [b|].
  - cbn in Hroom. destruct (Z.ltb_spec (amount delta) 0); [lia|]. cbn [andb rbind].
    rewrite Share.add_run by (unfold in_range; lia). cbn [rbind]. eauto.
  - destruct (Z.gtb_spec (amount delta) 0); [|lia]. cbn [fc_assert rbind]. eauto.
Qed.

(** ** Deposits keep the books *)

Lemma deposit_policy_balance v now a v' x : deposit v now a = Ok v' ->
  in_asset x (balance v') = in_asset x (balance v) + in_asset x a.
Proof.
  unfold deposit, asset_add. intros H. skip_bind H. apply rbind_ok in H as (b & Hb & H).
  apply rbind_ok in Hb as (u & Hu & Hb). apply rbind_ok in Hb as (s & Hs & [= <-]).
  apply Share.add_value in Hs as ->. unfold fc_assert in Hu. case_if_in Hu; [|done]. bool_to_prop.
  injection H as <-. cbn. rewrite in_asset_add, <- in_asset_eta. rewrite Hif, <- in_asset_eta. done.
Qed.

Lemma deposit_lazy_total ovbid amt secs who descr d r d' x :
  deposit_lazy_vesting ovbid amt secs who descr true d = Ok (r, d') -> vesting_fresh d ->
  total x d' = total x d + in_asset x amt /\ vesting_fresh d' /\ supply x d' = supply x d.
Proof.
  unfold deposit_lazy_vesting. intros H Hf. case_if_in H.
  { injection H as <- <-. bool_to_prop. rewrite (in_asset_eta x amt), Hif, in_asset_0. split; [lia|done]. }
  set (p := mk_cdd _ _ _ _) in H. set (v0 := mk_vbo _ _ _ _ _ _) in H.
  assert (Hnew : forall r d', Ok (Some (next_vesting_balance d),
      set_next_vesting_balance (next_vesting_balance d + 1)
        (set_vesting_balances (<[next_vesting_balance d := v0]> (vesting_balances d)) d)) = Ok (r, d') ->
    total x d' = total x d + in_asset x amt /\ vesting_fresh d' /\ supply x d' = supply x d).
  { intros r0 d0 [= <- <-]. split; [|split; [|done]].
    - match goal with |- total x (set_next_vesting_balance _ ?e) = _ =>
        change (total x (set_next_vesting_balance (next_vesting_balance d + 1) e)) with (total x e) end.
      rewrite total_set_vesting, in_vesting_insert.
      destruct (vesting_balances d !! next_vesting_balance d) as [w|] eqn:E; [apply Hf in E; lia|].
      cbn [balance v0]. lia.
    - intros i w Hi. cbn in Hi |- *. destruct (decide (i = next_vesting_balance d)) as [->|Hne]; [lia|].
      rewrite lookup_insert_ne in Hi by done. apply Hf in Hi. lia. }
  destruct ovbid as [id|]; [|by eapply Hnew].
  apply rbind_ok in H as (v & Hv & H). unfold get_or in Hv.
  destruct (vesting_balances d !! id) as [v1|] eqn:Ev; [|done]. injection Hv as ->.
  case_if_in H; [by eapply Hnew|]. destruct (policy v) as [q|q]; [by eapply Hnew|].
  case_if_in H; [by eapply Hnew|]. case_if_in H; [by eapply Hnew|].
  apply rbind_ok in H as (v' & Hd & [= <- <-]). split; [|split; [|done]].
  - rewrite total_set_vesting, in_vesting_insert, Ev, (deposit_policy_balance _ _ _ _ x Hd). lia.
  - intros i w Hi. cbn in Hi |- *. destruct (decide (i = id)) as [->|Hne]; [by eapply Hf|].
    rewrite lookup_insert_ne in Hi by done. by eapply Hf.
Qed.

(** A lazy deposit only touches the vesting balances. *)
Lemma deposit_lazy_frame ovbid amt secs who descr rq d r d' :
  deposit_lazy_vesting ovbid amt secs who descr rq d = Ok (r, d') ->
  exists m n, d' = set_next_vesting_balance n (set_vesting_balances m d).
Proof.
  unfold deposit_lazy_vesting. intros H.
  assert (Hsame : d = set_next_vesting_balance (next_vesting_balance d)
                        (set_vesting_balances (vesting_balances d) d)) by (by destruct d).
  case_if_in H; [injection H as _ <-; eauto|].
  set (v0 := mk_vbo _ _ _ _ _ _) in H.
  destruct ovbid as [id|]; [|injection H as _ <-; eauto].
  apply rbind_ok in H as (v & _ & H). case_if_in H; [injection H as _ <-; eauto|].
  destruct (policy v); [injection H as _ <-; eauto|].
  case_if_in H; [injection H as _ <-; eauto|]. case_if_in H; [injection H as _ <-; eauto|].
  apply rbind_ok in H as (v' & _ & [= _ <-]). exists (<[id := v']> (vesting_balances d)).
  exists (next_vesting_balance d). by destruct d.
Qed.

(** ** Properties *)

(** Transfers, issuer overrides and vesting operations neither create nor
    destroy anything: over any sequence of them, with failed ones rolled back,
    the total of every asset and its recorded supply stay the same, and no
    balance becomes negative. *)
Theorem ledger_conservation ops d :
  ledger_ok d ->
  ledger_ok (fold_left apply_ledger_op ops d)
  /\ forall x, total x (fold_left apply_ledger_op ops d) = total x d
     /\ supply x (fold_left apply_ledger_op ops d) = supply x d.
Proof.
  revert d. induction ops as [|op ops IH]; intros d Hok; [done|]. cbn [fold_left].
  assert (Hs : ledger_ok (apply_ledger_op d op) /\ forall x,
    total x (apply_ledger_op d op) = total x d /\ supply x (apply_ledger_op d op) = supply x d).
  { unfold apply_ledger_op. destruct (run_ledger_op op d) as [d'|e] eqn:E; [|done].
    split; [apply (run_ledger_op_step op d d' 0 Hok E)|].
    intros x. by destruct (run_ledger_op_step op d d' x Hok E) as (? & ? & _). }
  destruct Hs as [Hok' Hs]. destruct (IH _ Hok') as [Hok'' IHx]. split; [done|].
  intros x. destruct (Hs x), (IHx x). split; congruence.
Qed.

Definition demo_accounts : gmap Z account_object :=
  {[ 5 := basic_account {[ 3 := 40 ]} None; 6 := basic_account ∅ None ]}.
Definition demo_ledger : database :=
  mk_db demo_accounts {[ (5, 3) := 100 ]} ∅
    {[ 3 := mk_asset_object "TOKEN" 5 9 (mk_asset_options 1000000 0 0 0 0 None "a token") false ]} 4
    {[ 3 := mk_dyn 100 0 ]} ∅ ∅
    ∅ 0 ∅ 0 ∅ 0 ∅ 0 ∅ 0 ∅ 0 ∅ empty_governance empty_nh 1000 [].

Lemma demo_ledger_ok : ledger_ok demo_ledger.
Proof.
  split.
  - intros k v Hk. cbn in Hk. apply lookup_singleton_Some in Hk as [_ <-]. lia.
  - intros id v Hv. cbn in Hv. by rewrite lookup_empty in Hv.
Qed.

Lemma ledger_conservation_witness :
  let d := fold_left apply_ledger_op
             [OpTransfer (mk_transfer 5 6 (mk_asset 60 3));
              OpTransfer (mk_transfer 5 6 (mk_asset 1 3));
              OpVestingCreate (mk_vb_create 6 5 (mk_asset 10 3) (CddInit 0 100))] demo_ledger in
  total 3 d = 100 /\ amount (get_balance 5 3 d) = 40 /\ amount (get_balance 6 3 d) = 50.
Proof.
  intros d. split; [|vm_compute; done].
  destruct (ledger_conservation _ _ demo_ledger_ok : ledger_ok d /\ _) as [_ H].
  destruct (H 3) as [E _]. unfold d. rewrite E. vm_compute. reflexivity.
Defined.

(** A transfer that succeeds moves exactly its amount: the sender's balance
    falls and the receiver's rises by it, every other balance is unchanged, and
    the sender keeps at least the amount locked on the account. *)
Theorem transfer_effect op d d' :
  balances_nonneg d -> transfer op d = Ok d' -> 0 < amount (tr_amount op) ->
  let x := asset_id (tr_amount op) in
  x <> GRAPHENE_ASSET_GAS
  /\ (forall o y, amount (get_balance o y d')
        = amount (get_balance o y d)
          + (if decide ((o, y) = (tr_to op, x)) then amount (tr_amount op) else 0)
          - (if decide ((o, y) = (tr_from op, x)) then amount (tr_amount op) else 0))
  /\ exists a, get_account (tr_from op) d = Ok a
     /\ 0 <= locked_of a x <= amount (get_balance (tr_from op) x d) - amount (tr_amount op).
Proof.
  intros Hnn H Hpos x.
  assert (Hgas : x <> GRAPHENE_ASSET_GAS).
  { unfold transfer, transfer_do_evaluate in H. res_inv. bool_to_prop. done. }
  destruct (transfer_moves op d d' H Hpos) as (neg & d1 & Hn & H1 & H2).
  destruct (asset_neg_value _ _ Hn) as [Hid Hamt].
  split; [done|]. split.
  - intros o y. rewrite (adjust_balance_get _ _ _ _ _ o y H2), (adjust_balance_get _ _ _ _ _ o y H1).
    rewrite Hid, Hamt. fold x. repeat case_decide; lia.
  - destruct (adjust_balance_guard _ _ _ _ H1 Hnn) as [_ Hg].
    rewrite Hid, Hamt in Hg. destruct Hg as (a & Ha & Hl); [lia|]. exists a. split; [done|].
    fold x in Hl. lia.
Qed.

Lemma transfer_effect_witness :
  exists d', transfer (mk_transfer 5 6 (mk_asset 60 3)) demo_ledger = Ok d'
    /\ amount (get_balance 6 3 d') = 60 /\ amount (get_balance 5 3 d') = 40.
Proof.
  destruct (transfer (mk_transfer 5 6 (mk_asset 60 3)) demo_ledger) as [d'|e] eqn:E.
  - exists d'. split; [done|].
    destruct (transfer_effect _ _ _ (proj1 demo_ledger_ok) E ltac:(cbn; lia)) as (_ & Hg & _).
    split; rewrite Hg; vm_compute; reflexivity.
  - vm_compute in E. discriminate E.
Defined.

(** A transfer the evaluator accepts is carried out, never stuck half way:
    if the unlocked balance covers a positive amount within the supply limit and
    the receiver's balance has room, both adjustments succeed. *)
Theorem transfer_completes op d a :
  transfer_do_evaluate op d = Ok tt -> balances_nonneg d ->
  0 < amount (tr_amount op) <= GRAPHENE_MAX_SHARE_SUPPLY ->
  accounts d !! tr_from op = Some a ->
  let x := asset_id (tr_amount op) in
  0 <= locked_of a x <= amount (get_balance (tr_from op) x d) - amount (tr_amount op) ->
  (forall o, amount (get_balance o x d) <= GRAPHENE_MAX_SHARE_SUPPLY) ->
  exists d', transfer op d = Ok d'.
Proof.
  intros Hev Hnn Hamt Ha x Hlock Hmax. unfold transfer. rewrite Hev. cbn [rbind].
  unfold transfer_do_apply. destruct (Z.gtb_spec (amount (tr_amount op)) 0); [|lia].
  unfold asset_neg. rewrite Share.neg_run by (unfold in_range; lia). cbn [rbind].
  pose proof (Hmax (tr_from op)) as Hm. unfold get_balance in Hlock, Hm.
  destruct (account_balances d !! (tr_from op, x)) as [b|] eqn:Eb; cbn [amount] in *; [|lia].
  destruct (adjust_balance_debit (tr_from op) (mk_asset (- amount (tr_amount op)) x) d b a)
    as [d1 H1]; cbn [amount asset_id]; try done; try lia.
  fold x. rewrite H1. cbn [rbind].
  apply adjust_balance_credit; [lia|].
  destruct (adjust_balance_map _ _ _ _ _ H1) as [_ ->]. cbn [asset_id amount]. fold x.
  rewrite <- get_balance_default. pose proof (Hmax (tr_to op)) as Hto.
  assert (0 <= amount (get_balance (tr_to op) x d)).
  { rewrite get_balance_default. destruct (account_balances d !! (tr_to op, x)) as [w|] eqn:E;
      cbn; [by eapply Hnn|lia]. }
  case_decide as Ed; [|lia]. injection Ed as Et. rewrite Et in *. unfold get_balance in *.
  rewrite Eb in *. cbn [amount] in *. lia.
Qed.

Lemma transfer_completes_witness :
  exists d', transfer (mk_transfer 5 6 (mk_asset 60 3)) demo_ledger = Ok d'.
Proof.
  apply (transfer_completes (mk_transfer 5 6 (mk_asset 60 3)) demo_ledger
           (basic_account {[ 3 := 40 ]} None)); try reflexivity.
  - apply demo_ledger_ok.
  - cbn. lia.
  - split; vm_compute; discriminate.
  - intros o. unfold get_balance. cbn [account_balances demo_ledger].
    destruct (({[(5, 3) := 100]} : gmap (Z * Z) Z) !! (o, _)) as [b|] eqn:E; cbn [amount]; [|lia].
    apply lookup_singleton_Some in E as [_ <-]. lia.
Defined.
