(* ===== verification/Market.v ===== *)
(** * The market (chain/db_market.cpp, market_evaluator.cpp)

    Order books, matching, margin calls, global settlement, collateral bids and
    the evaluators of the market operations.  A book is walked in the order of
    its [by_price] index; an iterator is a list of the ids still to visit, and
    dereferencing one whose object was removed is [undefined_behaviour].  The
    [assert]s of the code (on the assets of prices and amounts, and that a match fills one
    of its orders) are left out: where one fails the process ends, and nothing is said of
    it.  [limit_create_do_apply] returns the id it read before the order was matched, as the
    source does after it; that the source reads it from an order that may be gone is
    recorded as a finding and not made undefined here. *)

From S2P Require Import Prelude SafeInt Asset Vesting State Ledger.

(** ** Ordered walks over the order books *)

(** [composite_key_compare< std::greater<price>, std::less<object_id_type> >]. *)
Definition limit_before (a b : Z * limit_order_object) : bool :=
  if price_gtb (sell_price a.2) (sell_price b.2) then true
  else if price_gtb (sell_price b.2) (sell_price a.2) then false
  else a.1 <? b.1.

(** [composite_key_compare< std::less<price>, std::less<object_id_type> >]. *)
Definition call_before (a b : Z * call_order_object) : bool :=
  if price_ltb (co_call_price a.2) (co_call_price b.2) then true
  else if price_ltb (co_call_price b.2) (co_call_price a.2) then false
  else a.1 <? b.1.

(** From [lower_bound(first)] to [upper_bound(last)] in the limit order book
    (highest price first). *)
Definition limit_range (first last : price) (d : database) : list Z :=
  map fst (sort_by limit_before
    (filter (fun o => negb (price_gtb (sell_price o.2) first)
                      && negb (price_gtb last (sell_price o.2)))
       (map_to_list (limit_orders d)))).

(** From [lower_bound(first)] to [upper_bound(last)] in the call order book
    (lowest call price first). *)
Definition call_range (first last : price) (d : database) : list Z :=
  map fst (sort_by call_before
    (filter (fun c => negb (price_ltb (co_call_price c.2) first)
                      && negb (price_ltb last (co_call_price c.2)))
       (map_to_list (call_orders d)))).

Definition deref_limit (id : Z) (d : database) : result limit_order_object :=
  get_or (limit_orders d !! id) undefined_behaviour.
Definition deref_call (id : Z) (d : database) : result call_order_object :=
  get_or (call_orders d !! id) undefined_behaviour.
Definition deref_settle (id : Z) (d : database) : result force_settlement_object :=
  get_or (force_settlements d !! id) undefined_behaviour.
Definition deref_bid (id : Z) (d : database) : result collateral_bid_object :=
  get_or (collateral_bids d !! id) undefined_behaviour.

(** ** Cancelling *)

Definition cancel_limit_order (id : Z) (create_virtual_op : bool) (d : database)
    : result database :=
  let* o := deref_limit id d in
  let refunded := amount_for_sale o in
  let* d := modify_statistics (lo_seller o)
              (fun s => if asset_id refunded =? CORE then Share.sub s (amount refunded) else Ok s) d in
  let* d := adjust_balance (lo_seller o) refunded false d in
  let* d := match deferred_fee o with
            | Some f => adjust_balance (lo_seller o) (mk_asset f CORE) false d
            | None => Ok d
            end in
  let d := if create_virtual_op then push_op (vop_limit_order_cancel id (lo_seller o)) d else d in
  Ok (set_limit_orders (delete id (limit_orders d)) d).

Definition cancel_settle_order (id : Z) (create_virtual_op : bool) (d : database)
    : result database :=
  let* s := deref_settle id d in
  let* d := adjust_balance (fs_owner s) (fs_balance s) false d in
  let d := if create_virtual_op
           then push_op (vop_settle_cancel id (fs_owner s) (fs_balance s)) d else d in
  Ok (set_force_settlements (delete id (force_settlements d)) d).

Definition cancel_bid (id : Z) (create_virtual_op : bool) (d : database) : result database :=
  let* b := deref_bid id d in
  let* d := adjust_balance (bidder b) (base (inv_swan_price b)) false d in
  let d := if create_virtual_op
           then push_op (vop_bid_collateral (bidder b) (base (inv_swan_price b))
                           (mk_asset 0 (asset_id (quote (inv_swan_price b))))) d
           else d in
  Ok (set_collateral_bids (delete id (collateral_bids d)) d).

(** Cancel an order that would receive nothing for the rest of its amount. *)
Definition maybe_cull_small_order (id : Z) (d : database) : result (bool * database) :=
  let* o := deref_limit id d in
  let* r := amount_to_receive o in
  if amount r =? 0 then
    let* d := cancel_limit_order id true d in Ok (true, d)
  else Ok (false, d).

(** ** Fees and payments *)

(** [fc::uint128] of a signed amount, times the percentage, over 100%. *)
Definition calculate_market_fee (aid : Z) (a : asset_object) (trade_amount : asset)
    : result asset :=
  if negb (charges_market_fees a) then Ok (mk_asset 0 aid)
  else if market_fee_percent a =? 0 then Ok (mk_asset 0 aid)
  else
    let fee := wrap128 (wrap128 (amount trade_amount) * market_fee_percent a)
               / GRAPHENE_100_PERCENT in
    let* percent_fee := to_uint64 fee in
    if percent_fee >? max_market_fee a then Ok (mk_asset (max_market_fee a) aid)
    else Ok (mk_asset percent_fee aid).

Definition pay_market_fees (aid : Z) (receives : asset) (d : database)
    : result (asset * database) :=
  let* a := get_asset aid d in
  let* issuer_fees := calculate_market_fee aid a receives in
  if amount issuer_fees >? 0 then
    let* d := modify_dynamic_data aid
                (fun dd => let* f := Share.add (accumulated_fees dd) (amount issuer_fees) in
                           Ok (mk_dyn (current_supply dd) f)) d in
    Ok (issuer_fees, d)
  else Ok (issuer_fees, d).

Definition pay_order (receiver : Z) (receives pays : asset) (d : database) : result database :=
  let* d := modify_statistics receiver
              (fun s => if asset_id pays =? CORE then Share.sub s (amount pays) else Ok s) d in
  adjust_balance receiver receives false d.

(** ** Filling *)

Definition fill_limit_order (id : Z) (pays receives : asset) (cull_if_small : bool)
    (fill_price : price) (is_maker : bool) (d : database) : result (bool * database) :=
  let* o := deref_limit id d in
  check asset_id (amount_for_sale o) =? asset_id pays;
  check negb (asset_id pays =? asset_id receives);
  let* _ := get_account (lo_seller o) d in
  let* (issuer_fees, d) := pay_market_fees (asset_id receives) receives d in
  let* net := asset_sub receives issuer_fees in
  let* d := pay_order (lo_seller o) net pays d in
  let d := push_op (vop_fill_order id (lo_seller o) pays receives fill_price is_maker) d in
  if asset_eqb pays (amount_for_sale o) then
    Ok (true, set_limit_orders (delete id (limit_orders d)) d)
  else
    let* rest := Share.sub (for_sale o) (amount pays) in
    let o' := mk_limit (lo_expiration o) (lo_seller o) rest (sell_price o) (deferred_fee o) in
    let d := set_limit_orders (<[id := o']> (limit_orders d)) d in
    if cull_if_small then maybe_cull_small_order id d else Ok (false, d).

Definition fill_call_order (id : Z) (pays receives : asset) (fill_price : price)
    (is_maker : bool) (d : database) : result (bool * database) :=
  let* o := deref_call id d in
  check asset_id (get_debt o) =? asset_id receives;
  check asset_id (get_collateral o) =? asset_id pays;
  let* enough := asset_geb (get_collateral o) pays in
  check enough;
  let* debt' := Share.sub (debt o) (amount receives) in
  let* coll' := Share.sub (collateral o) (amount pays) in
  let freed := if debt' =? 0
               then Some (mk_asset coll' (asset_id (base (co_call_price o)))) else None in
  let o' := mk_call (borrower o) (if debt' =? 0 then 0 else coll') debt' (co_call_price o) in
  let d := set_call_orders (<[id := o']> (call_orders d)) d in
  let* _ := get_asset (asset_id receives) d in
  let* d := modify_dynamic_data (asset_id receives)
              (fun dd => let* s := Share.sub (current_supply dd) (amount receives) in
                         Ok (mk_dyn s (accumulated_fees dd))) d in
  let* _ := get_account (borrower o) d in
  let* d :=
    if bool_decide (is_Some freed) || (asset_id pays =? CORE) then
      let* d := match freed with
                | Some f => adjust_balance (borrower o) f false d
                | None => Ok d
                end in
      modify_statistics (borrower o)
        (fun s =>
           let* s := match freed with
                     | Some f => if amount f >? 0 then Share.sub s (amount f) else Ok s
                     | None => Ok s
                     end in
           if asset_id pays =? CORE then Share.sub s (amount pays) else Ok s) d
    else Ok d in
  let d := push_op (vop_fill_order id (borrower o) pays receives fill_price is_maker) d in
  match freed with
  | Some _ => Ok (true, set_call_orders (delete id (call_orders d)) d)
  | None => Ok (false, d)
  end.

Definition fill_settle_order (id : Z) (pays receives : asset) (fill_price : price)
    (is_maker : bool) (d : database) : result (bool * database) :=
  let* s := deref_settle id d in
  let* (issuer_fees, d) := pay_market_fees (asset_id receives) receives d in
  let* partial := asset_ltb pays (fs_balance s) in
  let* d :=
    if partial then
      let* rest := asset_sub (fs_balance s) pays in
      Ok (set_force_settlements
            (<[id := mk_settle (fs_owner s) rest (settlement_date s)]> (force_settlements d)) d)
    else Ok d in
  let* net := asset_sub receives issuer_fees in
  let* d := adjust_balance (fs_owner s) net false d in
  let d := push_op (vop_fill_order id (fs_owner s) pays receives fill_price is_maker) d in
  if partial then Ok (false, d)
  else Ok (true, set_force_settlements (delete id (force_settlements d)) d).

(** ** Matching two orders *)

(** Amounts exchanged when [usd] meets [core] at [match_price]. *)
Definition match_amounts (usd_for_sale core_for_sale : asset) (match_price : price)
    : result (asset * asset) :=
  let* core_value := asset_mul_price core_for_sale match_price in
  let* usd_fits := asset_leb usd_for_sale core_value in
  if usd_fits then
    let* usd_receives := asset_mul_price usd_for_sale match_price in
    Ok (usd_for_sale, usd_receives)
  else
    let* core_receives := asset_mul_price core_for_sale match_price in
    Ok (core_receives, core_for_sale).

(** Bit 0: the first order was filled; bit 1: the second. *)
Definition match_limit (usd core : Z) (match_price : price) (d : database)
    : result (Z * database) :=
  let* u := deref_limit usd d in
  let* c := deref_limit core d in
  let* (core_receives, usd_receives) :=
    match_amounts (amount_for_sale u) (amount_for_sale c) match_price in
  let core_pays := usd_receives in
  let usd_pays := core_receives in
  let* (f1, d) := fill_limit_order usd usd_pays usd_receives false match_price false d in
  let* (f2, d) := fill_limit_order core core_pays core_receives true match_price true d in
  Ok (Z.lor (if f1 then 1 else 0) (Z.shiftl (if f2 then 1 else 0) 1), d).

Definition asset_min (a b : asset) : result asset :=
  let* lt := asset_ltb b a in Ok (if lt then b else a).

Definition match_settle (call settle : Z) (match_price : price) (max_settlement : asset)
    (d : database) : result (asset * database) :=
  let* c := deref_call call d in
  let* s := deref_settle settle d in
  check asset_id (get_debt c) =? asset_id (fs_balance s);
  check (debt c >? 0) && (collateral c >? 0) && (amount (fs_balance s) >? 0);
  let* settle_for_sale := asset_min (fs_balance s) max_settlement in
  let* call_receives := asset_min settle_for_sale (get_debt c) in
  let* call_pays := asset_mul_price call_receives match_price in
  let settle_pays := call_receives in
  let settle_receives := call_pays in
  let* covered := asset_ltb call_pays (get_collateral c) in
  require covered else black_swan_exception;
  let* (_, d) := fill_call_order call call_pays call_receives match_price true d in
  let* (_, d) := fill_settle_order settle settle_pays settle_receives match_price false d in
  Ok (call_receives, d).

(** ** Global settlement and margin calls *)

Fixpoint close_calls (ids : list Z) (price_ : price) (gathered : asset) (d : database)
    : result (asset * database) :=
  match ids with
  | [] => Ok (gathered, d)
  | id :: ids' =>
      let* c := deref_call id d in
      let* pays := asset_mul_price (get_debt c) price_ in
      let* over := asset_gtb pays (get_collateral c) in
      let pays := if over then get_collateral c else pays in
      let* gathered := asset_add gathered pays in
      let* (filled, d) := fill_call_order id pays (get_debt c) price_ true d in
      check filled;
      close_calls ids' price_ gathered d
  end.

Definition globally_settle_asset (mia : Z) (price_ : price) (d : database) : result database :=
  let* a := get_asset mia d in
  let* b := bitasset_data mia a d in
  check negb (has_settlement b);
  let backing := short_backing_asset (options b) in
  let* _ := get_asset backing d in
  let* dd := get_dynamic_data mia d in
  let original_supply := current_supply dd in
  let* first := price_min backing mia in
  let* last := price_max backing mia in
  let* (gathered, d) := close_calls (call_range first last d) price_ (mk_asset 0 backing) d in
  let* b := get_bitasset mia d in
  let* sp := asset_div (mk_asset original_supply mia) gathered in
  let d := set_bitassets
             (<[mia := mk_bitasset (options b) (feeds b) (current_feed b)
                         (current_feed_publication_time b) (force_settled_volume b) sp
                         (amount gathered)]> (bitassets d)) d in
  modify_dynamic_data mia (fun dd => Ok (mk_dyn original_supply (accumulated_fees dd))) d.

(** [std::max] of two prices. *)
Definition max_price_of (a b : price) : price := if price_ltb a b then b else a.

Definition check_for_blackswan (mia : Z) (enable_black_swan : bool) (d : database)
    : result (bool * database) :=
  let* a := get_asset mia d in
  if negb (is_market_issued a) then Ok (false, d)
  else
    let* b := bitasset_data mia a d in
    if has_settlement b then Ok (true, d)
    else
      let settle_price := Asset.settlement_price (current_feed b) in
      if price_is_null settle_price then Ok (false, d)
      else
        let backing := short_backing_asset (options b) in
        let* highest_possible_bid := price_max mia backing in
        let* lowest_possible_bid := price_min mia backing in
        let* call_min := price_min backing mia in
        let* call_max := price_max backing mia in
        match call_range call_min call_max d with
        | [] => Ok (false, d)
        | c :: _ =>
            let* highest :=
              match limit_range highest_possible_bid lowest_possible_bid d with
              | [] => Ok settle_price
              | l :: _ => let* o := deref_limit l d in Ok (max_price_of (sell_price o) settle_price)
              end in
            let* call := deref_call c d in
            let* least_collateral := collateralization call in
            if price_geb (price_invert least_collateral) highest then
              check enable_black_swan;
              let* d := globally_settle_asset mia (price_invert least_collateral) d in
              Ok (true, d)
            else Ok (false, d)
        end.

(** The loop of [check_call_orders]; [None] when the fuel runs out. *)
Fixpoint call_loop (fuel : nat) (mia : Z) (enable for_new : bool) (limits calls : list Z)
    (filled_limit margin_called : bool) (d : database)
    : option (result (bool * database)) :=
  match fuel with
  | O => None
  | S f =>
      match check_for_blackswan mia enable d with
      | Err e => Some (Err e)
      | Ok (swan, d) =>
          if swan then Some (Ok (margin_called, d))
          else
            match calls with
            | [] => Some (Ok (margin_called, d))
            | call_id :: calls' =>
                match limits with
                | [] => Some (Ok (margin_called, d))
                | limit_id :: limits' =>
                    let step :=
                      let* o := deref_limit limit_id d in
                      let match_price := sell_price o in
                      let usd_for_sale := amount_for_sale o in
                      let* _ := price_validate match_price in
                      let* c := deref_call call_id d in
                      let* b := get_bitasset mia d in
                      let feed := Asset.settlement_price (current_feed b) in
                      if price_gtb feed (price_invert (co_call_price c))
                         || price_gtb match_price (price_invert (co_call_price c))
                      then Ok (inl (margin_called, d))
                      else
                        let usd_to_buy := get_debt c in
                        let* cost := asset_mul_price usd_to_buy match_price in
                        let* swan := asset_gtb cost (get_collateral c) in
                        if swan then
                          check enable;
                          let* d := globally_settle_asset mia feed d in
                          Ok (inl (true, d))
                        else
                          let* fill_order_first := asset_geb usd_to_buy usd_for_sale in
                          let traded := if fill_order_first then usd_for_sale else usd_to_buy in
                          let* order_receives := asset_mul_price traded match_price in
                          let filled_limit := filled_limit || fill_order_first in
                          let filled_call :=
                            if fill_order_first then asset_eqb usd_to_buy usd_for_sale else true in
                          check filled_call || filled_limit;
                          let* (_, d) := fill_call_order call_id order_receives traded match_price
                                           for_new d in
                          let* (_, d) := fill_limit_order limit_id traded order_receives true
                                           match_price (negb for_new) d in
                          Ok (inr (filled_limit, filled_call, d)) in
                    match step with
                    | Err e => Some (Err e)
                    | Ok (inl r) => Some (Ok r)
                    | Ok (inr (filled_limit, filled_call, d)) =>
                        call_loop f mia enable for_new
                          (if filled_limit then limits' else limits)
                          (if filled_call then calls' else calls)
                          filled_limit true d
                    end
                end
            end
      end
  end.

Definition check_call_orders_fuel (fuel : nat -> nat) (mia : Z) (enable for_new : bool)
    (d : database) : option (result (bool * database)) :=
  let setup :=
    let* a := get_asset mia d in
    if negb (is_market_issued a) then Ok (inl (false, d))
    else
      let* (swan, d) := check_for_blackswan mia enable d in
      if swan then Ok (inl (false, d))
      else
        let* b := bitasset_data mia a d in
        if price_is_null (Asset.settlement_price (current_feed b)) then Ok (inl (false, d))
        else
          let backing := short_backing_asset (options b) in
          let* max_price := price_max mia backing in
          let* min_price := max_short_squeeze_price (current_feed b) in
          match limit_range max_price min_price d with
          | [] => Ok (inl (false, d))
          | limits =>
              let* call_min := price_min backing mia in
              let* call_max := price_max backing mia in
              Ok (inr (limits, call_range call_min call_max d, d))
          end in
  match setup with
  | Err e => Some (Err e)
  | Ok (inl r) => Some (Ok r)
  | Ok (inr (limits, calls, d)) =>
      call_loop (fuel (length limits + length calls)%nat) mia enable for_new limits calls
        false false d
  end.

(** Every round of the loop moves one of the two iterators. *)
Definition check_call_orders (mia : Z) (enable for_new : bool) (d : database)
    : result (bool * database) :=
  match check_call_orders_fuel S mia enable for_new d with
  | Some r => r
  | None => Err undefined_behaviour
  end.

(** ** Placing an order *)

(** Match against the book until the new order is filled or no longer crosses. *)
Fixpoint match_book (new : Z) (book : list Z) (d : database) : result database :=
  match book with
  | [] => Ok d
  | old :: book' =>
      let* o := deref_limit old d in
      let* (r, d) := match_limit new old (sell_price o) d in
      if r =? 2 then match_book new book' d else Ok d
  end.

Definition apply_order (id : Z) (allow_black_swan : bool) (d : database)
    : result (bool * database) :=
  let* o := deref_limit id d in
  let sell_asset := asset_id (amount_for_sale o) in
  let* _ := get_asset sell_asset d in
  let* r := amount_to_receive o in
  let receive_asset := asset_id r in
  let* _ := get_asset receive_asset d in
  let* (called1, d) := check_call_orders sell_asset allow_black_swan true d in
  let* (called2, d) := check_call_orders receive_asset allow_black_swan true d in
  if (called1 || called2) && bool_decide (limit_orders d !! id = None) then Ok (true, d)
  else
    let* o := deref_limit id d in
    let max_price := price_invert (sell_price o) in
    let* best := price_max (asset_id (base max_price)) (asset_id (quote max_price)) in
    let* d := match_book id (limit_range best max_price d) d in
    let* (_, d) := check_call_orders sell_asset allow_black_swan false d in
    let* (_, d) := check_call_orders receive_asset allow_black_swan false d in
    match limit_orders d !! id with
    | None => Ok (true, d)
    | Some _ => maybe_cull_small_order id d
    end.

Record limit_order_create_operation := mk_loc {
  loc_seller : Z;
  loc_amount_to_sell : asset;
  loc_min_to_receive : asset;
  loc_expiration : Z;
  loc_fill_or_kill : bool }.

Definition limit_create_validate (op : limit_order_create_operation) : result unit :=
  check negb (asset_id (loc_amount_to_sell op) =? asset_id (loc_min_to_receive op));
  check amount (loc_amount_to_sell op) >? 0;
  fc_assert (amount (loc_min_to_receive op) >? 0).

Definition limit_create_do_evaluate (op : limit_order_create_operation) (d : database)
    : result unit :=
  check loc_expiration op >=? head_block_time d;
  let sell := asset_id (loc_amount_to_sell op) in
  let recv := asset_id (loc_min_to_receive op) in
  let* sell_asset := get_asset sell d in
  let* _ := get_asset recv d in
  check negb (sell =? GRAPHENE_ASSET_GAS);
  let* _ := if restricted_any sell whitelist_markets d
            then fc_assert (restricted_find sell whitelist_markets recv d) else Ok tt in
  check negb (restricted_find sell blacklist_markets recv d);
  let* _ := if negb (loc_seller op =? issuer sell_asset)
            then fc_assert (is_authorized_asset d (loc_seller op) sell sell_asset) else Ok tt in
  let* enough := asset_geb (get_balance (loc_seller op) sell d) (loc_amount_to_sell op) in
  fc_assert enough.

Definition limit_create_do_apply (op : limit_order_create_operation) (d : database)
    : result (Z * bool * database) :=
  let a := loc_amount_to_sell op in
  let* d := modify_statistics (loc_seller op)
              (fun s => if asset_id a =? CORE then Share.add s (amount a) else Ok s) d in
  let* neg := asset_neg a in
  let* d := adjust_balance (loc_seller op) neg false d in
  let* p := asset_div a (loc_min_to_receive op) in
  let id := next_limit_order d in
  let o := mk_limit (loc_expiration op) (loc_seller op) (amount a) p None in
  let d := set_next_limit_order (id + 1) (set_limit_orders (<[id := o]> (limit_orders d)) d) in
  let* (filled, d) := apply_order id true d in
  check negb (loc_fill_or_kill op) || filled;
  Ok (id, filled, d).

(** After the fee was paid, an order still on the book remembers its core fees. *)
Definition limit_create_set_deferred (id : Z) (filled : bool) (core_fee : option Z) (d : database)
    : result database :=
  if filled then Ok d
  else
    let* o := get_or (limit_orders d !! id) assert_exception in
    let o := match core_fee with
             | Some f => mk_limit (lo_expiration o) (lo_seller o) (for_sale o) (sell_price o) (Some f)
             | None => o
             end in
    Ok (set_limit_orders (<[id := o]> (limit_orders d)) d).

Record limit_order_cancel_operation := mk_lcancel { lc_account : Z; lc_order : Z }.

Definition limit_cancel_do_evaluate (op : limit_order_cancel_operation) (d : database)
    : result unit :=
  let* o := get_or (limit_orders d !! lc_order op) assert_exception in
  fc_assert (lo_seller o =? lc_account op).

Definition limit_cancel_do_apply (op : limit_order_cancel_operation) (d : database)
    : result (asset * database) :=
  let* o := deref_limit (lc_order op) d in
  let base_asset := asset_id (base (sell_price o)) in
  let quote_asset := asset_id (quote (sell_price o)) in
  let refunded := amount_for_sale o in
  let* d := cancel_limit_order (lc_order op) false d in
  let* (_, d) := check_call_orders base_asset true false d in
  let* (_, d) := check_call_orders quote_asset true false d in
  Ok (refunded, d).

(** ** Margin positions *)

Record call_order_update_operation := mk_cou {
  cou_funding_account : Z; cou_delta_collateral : asset; cou_delta_debt : asset }.

Definition call_update_validate (op : call_order_update_operation) : result unit :=
  check negb (asset_id (cou_delta_collateral op) =? asset_id (cou_delta_debt op));
  fc_assert (negb (amount (cou_delta_collateral op) =? 0) || negb (amount (cou_delta_debt op) =? 0)).

Definition find_call (acc debt_asset : Z) (d : database) : option (Z * call_order_object) :=
  find (fun ic => (borrower ic.2 =? acc) && (debt_type ic.2 =? debt_asset))
    (map_to_list (call_orders d)).

Definition call_update_do_evaluate (op : call_order_update_operation) (d : database)
    : result unit :=
  let* _ := get_account (cou_funding_account op) d in
  let mia := asset_id (cou_delta_debt op) in
  let* a := get_asset mia d in
  check is_market_issued a;
  let* b := bitasset_data mia a d in
  check negb (has_settlement b);
  check asset_id (cou_delta_collateral op) =? short_backing_asset (options b);
  require negb (price_is_null (Asset.settlement_price (current_feed b))) else insufficient_feeds;
  let* _ := if amount (cou_delta_debt op) <? 0 then
              let* ok := asset_geb (get_balance (cou_funding_account op) mia d)
                           (cou_delta_debt op) in fc_assert ok
            else Ok tt in
  if amount (cou_delta_collateral op) >? 0 then
    let* ok := asset_geb (get_balance (cou_funding_account op) (short_backing_asset (options b)) d)
                 (cou_delta_collateral op) in fc_assert ok
  else Ok tt.

Definition call_update_do_apply (op : call_order_update_operation) (d : database)
    : result database :=
  let acc := cou_funding_account op in
  let dd := cou_delta_debt op in
  let dc := cou_delta_collateral op in
  let mia := asset_id dd in
  let* d :=
    if negb (amount dd =? 0) then
      let* d := adjust_balance acc dd false d in
      modify_dynamic_data mia
        (fun x => let* s := Share.add (current_supply x) (amount dd) in
                  Ok (mk_dyn s (accumulated_fees x))) d
    else Ok d in
  let* d :=
    if negb (amount dc =? 0) then
      let* neg := asset_neg dc in
      let* d := adjust_balance acc neg false d in
      if asset_id dc =? CORE
      then modify_statistics acc (fun s => Share.add s (amount dc)) d else Ok d
    else Ok d in
  let* b := get_bitasset mia d in
  let mcr := maintenance_collateral_ratio (current_feed b) in
  let* (id, c, d) :=
    match find_call acc mia d with
    | None =>
        check amount dc >? 0;
        check amount dd >? 0;
        let* cp := call_price dd dc mcr in
        let id := next_call_order d in
        let c := mk_call acc (amount dc) (amount dd) cp in
        Ok (id, c, set_next_call_order (id + 1) (set_call_orders (<[id := c]> (call_orders d)) d))
    | Some (id, c) =>
        let* coll := Share.add (collateral c) (amount dc) in
        let* dbt := Share.add (debt c) (amount dd) in
        let* cp := if dbt >? 0 then
                     call_price (mk_asset dbt (debt_type c))
                       (mk_asset coll (asset_id (base (co_call_price c)))) mcr
                   else Ok (co_call_price c) in
        let c := mk_call (borrower c) coll dbt cp in
        Ok (id, c, set_call_orders (<[id := c]> (call_orders d)) d)
    end in
  if debt c =? 0 then
    check collateral c =? 0;
    Ok (set_call_orders (delete id (call_orders d)) d)
  else
    check (collateral c >? 0) && (debt c >? 0);
    let* (called, d) := check_call_orders mia false false d in
    if called then
      require bool_decide (call_orders d !! id = None) else call_order_update_unfilled_margin_call;
      Ok d
    else
      let* c := get_or (call_orders d !! id) assert_exception in
      let* b := get_bitasset mia d in
      require price_ltb (price_invert (co_call_price c))
                (Asset.settlement_price (current_feed b))
        else call_order_update_unfilled_margin_call;
      Ok d.

(** ** Collateral bids after a global settlement *)

Record bid_collateral_operation := mk_bidop {
  bo_bidder : Z; bo_additional_collateral : asset; bo_debt_covered : asset }.

Definition bid_validate (op : bid_collateral_operation) : result unit :=
  fc_assert ((amount (bo_debt_covered op) =? 0)
             || (amount (bo_debt_covered op) >? 0) && (amount (bo_additional_collateral op) >? 0)).

Definition find_bid (mia acc : Z) (d : database) : option (Z * collateral_bid_object) :=
  find (fun ib => (asset_id (quote (inv_swan_price ib.2)) =? mia) && (bidder ib.2 =? acc))
    (map_to_list (collateral_bids d)).

(** [create<collateral_bid_object>]; the (debt asset, bidder) key is unique. *)
Definition create_bid (b : collateral_bid_object) (d : database) : result (Z * database) :=
  check bool_decide (find_bid (asset_id (quote (inv_swan_price b))) (bidder b) d = None);
  let id := next_bid d in
  Ok (id, set_next_bid (id + 1) (set_collateral_bids (<[id := b]> (collateral_bids d)) d)).

Definition bid_do_evaluate (op : bid_collateral_operation) (d : database)
    : result (option Z) :=
  let* _ := get_account (bo_bidder op) d in
  let mia := asset_id (bo_debt_covered op) in
  let* a := get_asset mia d in
  check is_market_issued a;
  let* b := bitasset_data mia a d in
  check has_settlement b;
  check asset_id (bo_additional_collateral op) =? short_backing_asset (options b);
  let* _ := if amount (bo_additional_collateral op) >? 0 then
              let* ok := asset_geb (get_balance (bo_bidder op) (short_backing_asset (options b)) d)
                           (bo_additional_collateral op) in fc_assert ok
            else Ok tt in
  match find_bid mia (bo_bidder op) d with
  | Some (id, _) => Ok (Some id)
  | None => check amount (bo_debt_covered op) >? 0; Ok None
  end.

Definition place_bid (op : bid_collateral_operation) (d : database) : result (Z * database) :=
  check negb (amount (bo_debt_covered op) =? 0);
  let* neg := asset_neg (bo_additional_collateral op) in
  let* d := adjust_balance (bo_bidder op) neg false d in
  let* p := asset_div (bo_additional_collateral op) (bo_debt_covered op) in
  create_bid (mk_bid (bo_bidder op) p) d.

(** After cancelling a bid with no new one the code returns the id it reads from
    the removed object; the model returns that id. *)
Definition bid_do_apply (op : bid_collateral_operation) (old : option Z) (d : database)
    : result (Z * database) :=
  match old with
  | Some id =>
      let* d := cancel_bid id false d in
      if amount (bo_debt_covered op) =? 0 then Ok (id, d) else place_bid op d
  | None => place_bid op d
  end.

Definition execute_bid (id : Z) (debt_covered collateral_from_fund : Z) (feed : price_feed)
    (d : database) : result database :=
  let* b := deref_bid id d in
  let coll_asset := asset_id (base (inv_swan_price b)) in
  let debt_asset := asset_id (quote (inv_swan_price b)) in
  let* coll := Share.add (amount (base (inv_swan_price b))) collateral_from_fund in
  let* cp := call_price (mk_asset debt_covered debt_asset) (mk_asset coll coll_asset)
               (maintenance_collateral_ratio feed) in
  check bool_decide (find_call (bidder b) debt_asset d = None);
  let cid := next_call_order d in
  let d := set_next_call_order (cid + 1)
             (set_call_orders (<[cid := mk_call (bidder b) coll debt_covered cp]>
                                (call_orders d)) d) in
  let* d := if coll_asset =? CORE
            then modify_statistics (bidder b) (fun s => Share.add s coll) d else Ok d in
  let d := push_op (vop_execute_bid (bidder b) (mk_asset coll coll_asset)
                      (mk_asset debt_covered debt_asset)) d in
  Ok (set_collateral_bids (delete id (collateral_bids d)) d).

(** [composite_key_compare< less<asset>, greater<price>, less<id> >] within one
    debt asset. *)
Definition bid_before (a b : Z * collateral_bid_object) : bool :=
  if price_gtb (inv_swan_price a.2) (inv_swan_price b.2) then true
  else if price_gtb (inv_swan_price b.2) (inv_swan_price a.2) then false
  else a.1 <? b.1.

(** From [lower_bound(mia, price::max(backing, mia))] to the last bid on [mia]. *)
Definition bid_range (mia : Z) (first : price) (d : database) : list Z :=
  map fst (sort_by bid_before
    (filter (fun b => (asset_id (quote (inv_swan_price b.2)) =? mia)
                      && negb (price_gtb (inv_swan_price b.2) first))
       (map_to_list (collateral_bids d)))).

Fixpoint cancel_bids (ids : list Z) (d : database) : result database :=
  match ids with
  | [] => Ok d
  | id :: ids' => let* d := cancel_bid id true d in cancel_bids ids' d
  end.

Definition cancel_bids_and_revive_mpa (mia : Z) (d : database) : result database :=
  let* a := get_asset mia d in
  check is_market_issued a;
  let* b := get_bitasset mia d in
  check has_settlement b;
  let* first := price_max (short_backing_asset (options b)) mia in
  let* d := cancel_bids (bid_range mia first d) d in
  let* b := get_bitasset mia d in
  Ok (set_bitassets
        (<[mia := mk_bitasset (options b) (feeds b) (current_feed b)
                    (current_feed_publication_time b) (force_settled_volume b) null_price 0]>
           (bitassets d)) d).

Definition revive_bitasset (mia : Z) (d : database) : result database :=
  let* a := get_asset mia d in
  check is_market_issued a;
  let* b := bitasset_data mia a d in
  check has_settlement b;
  let* dd := get_dynamic_data mia d in
  check negb (price_is_null (Asset.settlement_price (current_feed b)));
  let* d :=
    if current_supply dd >? 0 then
      let* p := asset_div (mk_asset 0 (short_backing_asset (options b)))
                  (mk_asset (current_supply dd) mia) in
      let* (id, d) := create_bid (mk_bid (issuer a) p) d in
      execute_bid id (current_supply dd) (settlement_fund b) (current_feed b) d
    else check settlement_fund b =? 0; Ok d in
  cancel_bids_and_revive_mpa mia d.

(** ** Price feeds *)

Definition max_force_settlement_volume (b : asset_bitasset_data) (supply_ : Z) : result Z :=
  let m := maximum_force_settlement_volume (options b) in
  if m =? 0 then Ok 0
  else if m =? GRAPHENE_100_PERCENT then Share.add supply_ (force_settled_volume b)
  else
    let volume := wrap128 (to_int64 (supply_ + force_settled_volume b)) in
    to_uint64 (wrap128 (volume * m) / GRAPHENE_100_PERCENT).

(** [std::nth_element] puts at position [n] the element a sort would put there. *)
Definition nth_sorted {A} (lt : A -> A -> bool) (n : nat) (l : list A) : option A :=
  sort_by (fun a b => negb (lt b a)) l !! n.

Definition feed_alive (now lifetime : Z) (f : Z * (Z * price_feed)) : bool :=
  (now - f.2.1 <? lifetime) && negb (f.2.1 =? 0).

Definition update_median_feeds (now : Z) (b : asset_bitasset_data) : asset_bitasset_data :=
  let alive := filter (fun f => feed_alive now (feed_lifetime_sec (options b)) f = true)
                 (feeds b) in
  let fs := map (fun f => f.2.2) alive in
  let pub := foldl Z.min now (map (fun f => f.2.1) alive) in
  let set feed time :=
    mk_bitasset (options b) (feeds b) feed time (force_settled_volume b)
      (settlement_price b) (settlement_fund b) in
  if Z.of_nat (length fs) <? minimum_feeds (options b) then set default_price_feed now
  else
    match fs with
    | [f] => set f pub
    | _ =>
        let n := (length fs / 2)%nat in
        let median {A} (get : price_feed -> A) (lt : A -> A -> bool) (dflt : A) :=
          default dflt (nth_sorted lt n (map get fs)) in
        set (mk_price_feed (median Asset.settlement_price price_ltb null_price)
               (median maintenance_collateral_ratio Z.ltb 0)
               (median maximum_short_squeeze_ratio Z.ltb 0)) pub
    end.
