(* ===== verification/MarketProofs.v ===== *)
(** * The market conserves value

    Accounting lemmas for the market of [Market], the invariant [market_ok] it
    keeps, and the theorems: what an order pays and receives, that no market
    operation creates or destroys value beyond the refund of deferred fees, and
    that the margin call loop ends. *)

From S2P Require Import Prelude SafeInt Asset Vesting State Ledger Market.

(** ** Parts of totals under updates of one index *)

Lemma total_set_limit x m d : total x (set_limit_orders m d)
  = total x d - in_limit_orders x (limit_orders d) + in_limit_orders x m.
Proof. unfold total. cbn. lia. Qed.
Lemma total_set_call x m d : total x (set_call_orders m d)
  = total x d - in_call_orders x (call_orders d) + in_call_orders x m.
Proof. unfold total. cbn. lia. Qed.
Lemma total_set_settle x m d : total x (set_force_settlements m d)
  = total x d - in_settlements x (force_settlements d) + in_settlements x m.
Proof. unfold total. cbn. lia. Qed.
Lemma total_set_bids x m d : total x (set_collateral_bids m d)
  = total x d - in_bids x (collateral_bids d) + in_bids x m.
Proof. unfold total. cbn. lia. Qed.
Lemma total_set_bitassets x m d : total x (set_bitassets m d)
  = total x d - in_funds x (bitassets d) + in_funds x m.
Proof. unfold total. cbn. lia. Qed.
Lemma total_set_dyn x m d : total x (set_dynamic_data m d)
  = total x d - in_fees x (dynamic_data d) + in_fees x m.
Proof. unfold total. cbn. lia. Qed.

(** The supply of an asset is the one its dynamic data records. *)
Lemma supply_at x d :
  supply x d = match dynamic_data d !! x with Some dd => current_supply dd | None => 0 end.
Proof.
  assert (Hz : forall m : gmap Z asset_dynamic_data, m !! x = None ->
    sum_map (fun k dd => in_asset x (mk_asset (current_supply dd) k)) m = 0).
  { intros m Hm. unfold sum_map. transitivity (sumZ (fun _ : Z * asset_dynamic_data => 0)
      (map_to_list m)); [|induction (map_to_list m); cbn; lia].
    apply sumZ_ext. intros [k dd] Hin. apply elem_of_map_to_list in Hin.
    unfold in_asset. cbn. destruct (Z.eqb_spec k x) as [->|]; [congruence|done]. }
  unfold supply. destruct (dynamic_data d !! x) as [dd|] eqn:E; [|by apply Hz].
  rewrite <- (insert_delete_id (dynamic_data d) x dd E).
  rewrite sum_map_insert_new by apply lookup_delete_eq.
  rewrite Hz by apply lookup_delete_eq. unfold in_asset. cbn. rewrite Z.eqb_refl. lia.
Qed.

Lemma in_fees_insert x m k dd dd' : m !! k = Some dd ->
  in_fees x (<[k := dd']> m)
  = in_fees x m + in_asset x (mk_asset (accumulated_fees dd' - accumulated_fees dd) k).
Proof. intros H. unfold in_fees. rewrite (sum_map_insert _ _ _ dd) by done. rewrite in_asset_sub. lia. Qed.

Lemma in_limit_insert x m id o o' : m !! id = Some o ->
  in_limit_orders x (<[id := o']> m)
  = in_limit_orders x m - in_asset x (amount_for_sale o) + in_asset x (amount_for_sale o').
Proof. intros H. unfold in_limit_orders. by rewrite (sum_map_insert _ _ _ o). Qed.
Lemma in_limit_delete x m id o : m !! id = Some o ->
  in_limit_orders x (delete id m) = in_limit_orders x m - in_asset x (amount_for_sale o).
Proof. intros H. unfold in_limit_orders. by rewrite (sum_map_delete _ _ _ o). Qed.
Lemma in_call_insert x m id o o' : m !! id = Some o ->
  in_call_orders x (<[id := o']> m)
  = in_call_orders x m - in_asset x (get_collateral o) + in_asset x (get_collateral o').
Proof. intros H. unfold in_call_orders. by rewrite (sum_map_insert _ _ _ o). Qed.
Lemma in_call_delete x m id o : m !! id = Some o ->
  in_call_orders x (delete id m) = in_call_orders x m - in_asset x (get_collateral o).
Proof. intros H. unfold in_call_orders. by rewrite (sum_map_delete _ _ _ o). Qed.
Lemma in_settle_insert x m id o o' : m !! id = Some o ->
  in_settlements x (<[id := o']> m)
  = in_settlements x m - in_asset x (fs_balance o) + in_asset x (fs_balance o').
Proof. intros H. unfold in_settlements. by rewrite (sum_map_insert _ _ _ o). Qed.
Lemma in_settle_delete x m id o : m !! id = Some o ->
  in_settlements x (delete id m) = in_settlements x m - in_asset x (fs_balance o).
Proof. intros H. unfold in_settlements. by rewrite (sum_map_delete _ _ _ o). Qed.
Lemma in_bids_delete x m id o : m !! id = Some o ->
  in_bids x (delete id m) = in_bids x m - in_asset x (base (inv_swan_price o)).
Proof. intros H. unfold in_bids. by rewrite (sum_map_delete _ _ _ o). Qed.
Lemma in_funds_insert x m id b b' : m !! id = Some b ->
  in_funds x (<[id := b']> m)
  = in_funds x m - in_asset x (mk_asset (settlement_fund b) (short_backing_asset (options b)))
    + in_asset x (mk_asset (settlement_fund b') (short_backing_asset (options b'))).
Proof. intros H. unfold in_funds. by rewrite (sum_map_insert _ _ _ b). Qed.

(** ** Deferred fees: amounts the cancellation of an order pays out *)

Definition promised (d : database) : Z :=
  sum_map (fun _ o => default 0 (deferred_fee o)) (limit_orders d).

(** Excess units plus, for the core asset, the deferred fees still promised. *)
Definition liability (x : Z) (d : database) : Z :=
  excess x d + (if x =? CORE then promised d else 0).

(** ** The invariant *)

Record limit_ok (o : limit_order_object) : Prop := {
  lok_for_sale : 0 <= for_sale o <= int64_max;
  lok_price : price_ok (sell_price o);
  lok_pair : asset_id (base (sell_price o)) <> asset_id (quote (sell_price o));
  lok_deferred : 0 <= default 0 (deferred_fee o) }.

Record market_ok (d : database) : Prop := {
  ok_assets : forall x a, assets d !! x = Some a ->
    0 <= market_fee_percent a <= GRAPHENE_100_PERCENT /\ 0 <= max_market_fee a;
  ok_funds : forall x b, bitassets d !! x = Some b -> has_settlement b = false ->
    settlement_fund b = 0;
  ok_settled : forall x b, bitassets d !! x = Some b -> has_settlement b = true ->
    asset_id (base (settlement_price b)) = x
    /\ asset_id (quote (settlement_price b)) = short_backing_asset (options b);
  ok_limits : forall id o, limit_orders d !! id = Some o -> limit_ok o /\ id < next_limit_order d;
  ok_calls : forall id c, call_orders d !! id = Some c -> 0 <= debt c /\ id < next_call_order d;
  ok_bid_ids : forall id b, collateral_bids d !! id = Some b -> id < next_bid d;
  ok_call_backing : forall id c b, call_orders d !! id = Some c ->
    bitassets d !! debt_type c = Some b ->
    asset_id (base (co_call_price c)) = short_backing_asset (options b);
  ok_bid_backing : forall id c b, collateral_bids d !! id = Some c ->
    bitassets d !! asset_id (quote (inv_swan_price c)) = Some b ->
    asset_id (base (inv_swan_price c)) = short_backing_asset (options b) }.

(** Parts of the state no market step touches; balances stay non-negative. *)
Record frame (d d' : database) : Prop := {
  fr_accounts : accounts d' = accounts d;
  fr_assets : assets d' = assets d;
  fr_next_asset : next_asset d' = next_asset d;
  fr_vesting : vesting_balances d' = vesting_balances d;
  fr_next_vesting : next_vesting_balance d' = next_vesting_balance d;
  fr_time : head_block_time d' = head_block_time d;
  fr_next_settlement : next_force_settlement d' = next_force_settlement d;
  fr_settlements : forall id s', force_settlements d' !! id = Some s' ->
    exists s, force_settlements d !! id = Some s
      /\ asset_id (fs_balance s') = asset_id (fs_balance s);
  fr_nonneg : balances_nonneg d -> balances_nonneg d' }.

#[global] Instance frame_preorder : PreOrder frame.
Proof.
  split; [intros d; split; eauto|]. intros d1 d2 d3 [] []. split; try congruence; [|auto].
  intros id s3 H3. destruct (fr_settlements1 _ _ H3) as (s2 & H2 & E2).
  destruct (fr_settlements0 _ _ H2) as (s1 & H1 & E1). exists s1. split; [done|congruence].
Qed.

Lemma adjust_balance_frame acc delta d d' :
  adjust_balance acc delta false d = Ok d' -> frame d d'.
Proof.
  intros H. assert (Hn : balances_nonneg d -> balances_nonneg d')
    by (intros Hd; by destruct (adjust_balance_guard _ _ _ _ H Hd)).
  apply adjust_balance_total in H as (m & -> & _). split; eauto.
Qed.

(** Parts of the state most steps leave alone. *)
Record same_books (d d' : database) : Prop := {
  sb_assets : assets d' = assets d;
  sb_bitassets : bitassets d' = bitassets d;
  sb_limits : limit_orders d' = limit_orders d;
  sb_next_limit : next_limit_order d' = next_limit_order d;
  sb_next_call : next_call_order d' = next_call_order d;
  sb_bids : collateral_bids d' = collateral_bids d;
  sb_next_bid : next_bid d' = next_bid d;
  sb_calls : forall id c', call_orders d' !! id = Some c' ->
    exists c, call_orders d !! id = Some c /\ co_call_price c' = co_call_price c
      /\ (0 <= debt c -> 0 <= debt c');
  sb_frame : frame d d' }.

(** A step that sets other fields than those of a [frame] keeps it. *)
Ltac frame_tac :=
  match goal with
  | |- frame _ _ => first [assumption | split; eauto; done | match goal with
      H : frame _ _ |- _ => destruct H; split; eauto; done end]
  end.
#[export] Hint Extern 0 (frame _ _) => frame_tac : core.

Lemma same_books_refl d : same_books d d.
Proof. split; eauto. Qed.

Lemma same_books_trans d1 d2 d3 : same_books d1 d2 -> same_books d2 d3 -> same_books d1 d3.
Proof.
  intros [] []. split; try congruence; [|by transitivity d2]. intros id c' H.
  destruct (sb_calls1 _ _ H) as (c & Hc & Hp & Hd). destruct (sb_calls0 _ _ Hc) as (c0 & Hc0 & Hp0 & Hd0).
  exists c0. split; [done|]. split; [congruence|auto].
Qed.

Lemma same_books_ok d d' : same_books d d' -> market_ok d -> market_ok d'.
Proof.
  intros [Ea Eb El En Enc Ebd Enb Hc _] []. split; rewrite ?Ea, ?Eb, ?El, ?En, ?Enc, ?Ebd, ?Enb; auto.
  - intros id c H. destruct (Hc _ _ H) as (c0 & H0 & _ & Hd).
    destruct (ok_calls0 _ _ H0). auto.
  - intros id c b H Hb. destruct (Hc _ _ H) as (c0 & H0 & Hp & _).
    unfold debt_type in Hb. rewrite Hp in Hb |- *. eauto.
Qed.

Lemma promised_same d d' : limit_orders d' = limit_orders d -> promised d' = promised d.
Proof. unfold promised. by intros ->. Qed.

Lemma adjust_balance_books acc delta d d' :
  adjust_balance acc delta false d = Ok d' -> same_books d d' /\ call_orders d' = call_orders d
    /\ force_settlements d' = force_settlements d /\ dynamic_data d' = dynamic_data d.
Proof.
  intros H. pose proof (adjust_balance_frame _ _ _ _ H) as F.
  apply adjust_balance_total in H as (m & -> & _). do 2 (split; [split; eauto|]). done.
Qed.

(** ** Market fees *)

Lemma market_fee_bounds aid a t fee :
  calculate_market_fee aid a t = Ok fee ->
  0 <= market_fee_percent a <= GRAPHENE_100_PERCENT -> 0 <= max_market_fee a ->
  0 <= amount t <= int64_max ->
  asset_id fee = aid /\ 0 <= amount fee <= amount t /\ amount fee <= Z.max 0 (max_market_fee a).
Proof.
  intros H Hp Hm Ht. unfold calculate_market_fee in H.
  case_if_in H; [injection H as <-; cbn; lia|].
  case_if_in H; [injection H as <-; cbn; lia|].
  rewrite (wrap128_small (amount t)) in H by lia. rewrite wrap128_small in H by nia.
  assert (Hq : 0 <= amount t * market_fee_percent a / GRAPHENE_100_PERCENT <= amount t)
    by (split; [apply Z.div_pos; nia|apply Z.div_le_upper_bound; nia]).
  rewrite to_uint64_ok in H by lia. cbn [rbind] in H.
  case_if_in H; injection H as <-; bool_to_prop; cbn; lia.
Qed.

Lemma pay_market_fees_spec aid receives d fee d' :
  pay_market_fees aid receives d = Ok (fee, d') -> market_ok d ->
  0 <= amount receives <= int64_max ->
  same_books d d' /\ call_orders d' = call_orders d /\ force_settlements d' = force_settlements d
  /\ asset_id fee = aid /\ 0 <= amount fee <= amount receives
  /\ forall x, total x d' = total x d + in_asset x fee /\ supply x d' = supply x d.
Proof.
  intros H Hok Hr. unfold pay_market_fees, get_asset in H.
  apply rbind_ok in H as (a & Ha & H). apply rbind_ok in H as (a0 & Hf0 & H).
  unfold get_or in Ha. destruct (assets d !! aid) as [a'|] eqn:Ea; [|done]. injection Ha as ->.
  destruct (ok_assets _ Hok _ _ Ea) as [Hpc Hmx].
  destruct (market_fee_bounds _ _ _ _ Hf0 Hpc Hmx Hr) as (Hid & Hb & _).
  case_if_in H; bool_to_prop.
  - apply rbind_ok in H as (d1 & H & [= <- <-]).
    apply modify_dynamic_data_inv in H as (dd & dd' & Hdd & Hf & ->).
    apply rbind_ok in Hf as (f & Hf & [= <-]). apply Share.add_value in Hf as ->.
    do 3 (split; [split; eauto|]). do 2 (split; [done|]). intros x. split.
    + rewrite total_set_dyn, (in_fees_insert _ _ _ dd) by done. cbn [accumulated_fees].
      rewrite (in_asset_eta x a0), Hid. replace (accumulated_fees dd + amount a0 - accumulated_fees dd)
        with (amount a0) by lia. lia.
    + rewrite !supply_at. cbn. destruct (decide (x = aid)) as [->|Hx].
      * rewrite lookup_insert_eq, Hdd. done.
      * by rewrite lookup_insert_ne.
  - injection H as <- <-. do 3 (split; [split; eauto|]). do 2 (split; [done|]).
    intros x. rewrite (in_asset_eta x a0). assert (amount a0 = 0) as -> by lia.
    rewrite in_asset_0. lia.
Qed.

(** ** Filling a margin position *)

Lemma supply_set_dyn x k dd dd' d : dynamic_data d !! k = Some dd ->
  supply x (set_dynamic_data (<[k := dd']> (dynamic_data d)) d)
  = supply x d + in_asset x (mk_asset (current_supply dd' - current_supply dd) k).
Proof.
  intros H. rewrite !supply_at. cbn. unfold in_asset. cbn.
  destruct (Z.eqb_spec k x) as [->|Hk].
  - rewrite lookup_insert_eq, H. lia.
  - rewrite lookup_insert_ne by done. lia.
Qed.

(** The tail of [fill_order] for a call order once the position is updated: the
    freed collateral goes to the borrower, the statistics are adjusted. *)
Lemma free_collateral_spec acc (freed : option asset) (pays : asset) d d' :
  (if bool_decide (is_Some freed) || (asset_id pays =? CORE) then
     let* d := match freed with Some f => adjust_balance acc f false d | None => Ok d end in
     modify_statistics acc
       (fun s => let* s := match freed with
                           | Some f => if amount f >? 0 then Share.sub s (amount f) else Ok s
                           | None => Ok s
                           end in
                 if asset_id pays =? CORE then Share.sub s (amount pays) else Ok s) d
   else Ok d) = Ok d' ->
  same_books d d' /\ call_orders d' = call_orders d /\ force_settlements d' = force_settlements d
  /\ dynamic_data d' = dynamic_data d
  /\ forall x, total x d' = total x d + match freed with Some f => in_asset x f | None => 0 end.
Proof.
  intros H. case_if_in H.
  - apply rbind_ok in H as (d1 & H1 & H).
    apply modify_statistics_inv in H as (s & s' & _ & _ & ->).
    destruct freed as [f|].
    + destruct (adjust_balance_books _ _ _ _ H1) as (Hsb & Hc & Hs & Hd).
      split; [destruct Hsb; by split|]. do 3 (split; [done|]). intros x.
      pose proof (adjust_balance_excess _ _ _ _ _ x H1) as [T _].
      change (total x d1 = total x d + in_asset x f). done.
    + injection H1 as <-. do 4 (split; [split; eauto|]). intros x.
      change (total x d = total x d + 0). lia.
  - injection H as <-. do 4 (split; [split; eauto|]). intros x.
    apply orb_false_iff in Hif as [Hif _]. apply bool_decide_eq_false in Hif.
    destruct freed; [|lia]. exfalso. apply Hif. eauto.
Qed.

Lemma fill_call_spec id pays receives fp mk d filled d' :
  fill_call_order id pays receives fp mk d = Ok (filled, d') ->
  (forall c, call_orders d !! id = Some c -> amount receives <= debt c) ->
  same_books d d' /\ force_settlements d' = force_settlements d
  /\ (forall k, k <> asset_id receives -> dynamic_data d' !! k = dynamic_data d !! k)
  /\ (forall k, is_Some (dynamic_data d !! k) -> is_Some (dynamic_data d' !! k))
  /\ (forall k, accumulated_fees <$> dynamic_data d' !! k = accumulated_fees <$> dynamic_data d !! k)
  /\ (forall i, i <> id -> call_orders d' !! i = call_orders d !! i)
  /\ forall x, total x d' = total x d - in_asset x pays
     /\ supply x d' = supply x d - in_asset x receives.
Proof.
  intros H Hle. unfold fill_call_order, deref_call in H.
  apply rbind_ok in H as (o & Ho & H). unfold get_or in Ho.
  destruct (call_orders d !! id) as [o'|] eqn:Eo; [|done]. injection Ho as ->.
  apply rbind_ok in H as (u1 & Hd & H). apply rbind_ok in H as (u2 & Hc & H).
  apply rbind_ok in H as (en & _ & H). apply rbind_ok in H as (u3 & _ & H).
  apply rbind_ok in H as (debt' & Hdebt & H). apply rbind_ok in H as (coll' & Hcoll & H).
  apply Share.sub_value in Hdebt, Hcoll.
  apply rbind_ok in H as (ra & _ & H). apply rbind_ok in H as (d2 & Hdyn & H).
  apply rbind_ok in H as (ac & _ & H). apply rbind_ok in H as (d3 & Hfree & H).
  apply modify_dynamic_data_inv in Hdyn as (dd & dd' & Hdd & Hs & E2).
  apply rbind_ok in Hs as (s' & Hs & [= <-]). apply Share.sub_value in Hs as ->.
  apply free_collateral_spec in Hfree as (Hsb & Hcalls & Hset & Hdy & Htot).
  unfold fc_assert in Hc. case_if_in Hc; [|done]. bool_to_prop.
  set (freed := if debt' =? 0
    then Some (mk_asset coll' (asset_id (base (co_call_price o)))) else None) in *.
  set (o1 := mk_call _ _ _ _) in *.
  assert (Hd3 : filled = bool_decide (is_Some freed) /\ exists m, d' = set_call_orders m
    (push_op (vop_fill_order id (borrower o) pays receives fp mk) d3)
    /\ m = match freed with Some _ => delete id (call_orders d3) | None => call_orders d3 end).
  { destruct freed; injection H as <- <-; (split; [done|]); eexists; (split; [|reflexivity]);
      by try destruct d3. }
  destruct Hd3 as (-> & m & -> & ->). clear H.
  assert (Ecalls : call_orders d3 = <[id := o1]> (call_orders d))
    by (rewrite Hcalls, E2; done).
  assert (Hb0 : same_books d d3).
  { eapply same_books_trans; [|exact Hsb]. rewrite E2. split; try done. cbn. intros i c Hi.
    destruct (decide (i = id)) as [->|Hne]; [|rewrite lookup_insert_ne in Hi by done; eauto].
    rewrite lookup_insert_eq in Hi. injection Hi as <-. exists o. split; [done|]. split; [done|].
    specialize (Hle _ eq_refl). subst o1. cbn [debt]. lia. }
  split; [|split; [|split; [|split; [|split; [|split]]]]].
  - destruct Hb0. split; try done. cbn. intros i c Hi. apply (sb_calls0 i c).
    destruct freed; [|done]. by apply lookup_delete_Some in Hi as [_ ?].
  - cbn. rewrite Hset, E2. done.
  - intros k Hk. cbn. rewrite Hdy, E2. cbn. by rewrite lookup_insert_ne.
  - intros k Hk. cbn. rewrite Hdy, E2. cbn. destruct (decide (k = asset_id receives)) as [->|];
      [rewrite lookup_insert_eq; eauto|by rewrite lookup_insert_ne].
  - intros k. cbn. rewrite Hdy, E2. cbn. destruct (decide (k = asset_id receives)) as [->|];
      [rewrite lookup_insert_eq; cbn in Hdd; by rewrite Hdd|by rewrite lookup_insert_ne].
  - intros i Hi. cbn. rewrite Ecalls. destruct freed.
    + rewrite lookup_delete_ne by done. by rewrite lookup_insert_ne.
    + by rewrite lookup_insert_ne.
  - intros x. split.
    + rewrite total_set_call. cbn [push_op set_applied_ops call_orders].
      change (total x (push_op _ d3)) with (total x d3).
      rewrite Htot, E2, total_set_dyn. cbn [dynamic_data set_call_orders] in Hdd |- *.
      rewrite (in_fees_insert _ _ _ dd) by done. cbn [accumulated_fees].
      rewrite Z.sub_diag, in_asset_0. change (dynamic_data (set_call_orders _ d)) with (dynamic_data d).
      rewrite total_set_call, Ecalls, (in_call_insert _ _ _ o) by done.
      assert (Hfin : match freed with Some f => in_asset x f | None => 0 end
        + in_call_orders x (match freed with Some _ => delete id (<[id := o1]> (call_orders d))
                            | None => <[id := o1]> (call_orders d) end)
        = in_call_orders x (call_orders d) - in_asset x pays).
      { subst freed. destruct (debt' =? 0) eqn:Ez.
        - rewrite (in_call_delete _ _ _ o1), (in_call_insert _ _ _ o)
            by (done || apply lookup_insert_eq).
          rewrite (in_asset_eta x pays), <- Hif. unfold get_collateral. subst o1 coll'.
          cbn [collateral co_call_price asset_id]. rewrite in_asset_sub. lia.
        - rewrite (in_call_insert _ _ _ o) by done. rewrite (in_asset_eta x pays), <- Hif.
          unfold get_collateral. subst o1 coll'. cbn [collateral co_call_price asset_id].
          rewrite in_asset_sub. lia. }
      lia.
    + transitivity (supply x d3); [done|]. rewrite (supply_at x d3), Hdy, <- (supply_at x d2), E2.
      rewrite (supply_set_dyn x _ dd) by done. cbn [current_supply].
      rewrite (in_asset_eta x receives).
      replace (current_supply dd - amount receives - current_supply dd) with (0 - amount receives) by lia.
      rewrite in_asset_sub, in_asset_0. change (supply x (set_call_orders _ d)) with (supply x d). lia.
Qed.

(** ** Steps that move value *)

(** From [d] to [d'] the units of every asset grow by [delta]; for the core asset
    they may also grow by deferred fees that were paid out. *)
Definition moves (delta : Z -> Z) (d d' : database) : Prop :=
  market_ok d' /\ frame d d' /\
  forall x, excess x d + delta x <= excess x d' /\ liability x d' <= liability x d + delta x.

Definition neutral : Z -> Z := fun _ => 0.

Lemma moves_refl d : market_ok d -> moves neutral d d.
Proof. intros H. split; [done|]. split; [done|]. unfold neutral. intros x. lia. Qed.

Lemma moves_trans a b c d1 d2 d3 : moves a d1 d2 -> moves b d2 d3 ->
  (forall x, a x + b x = c x) -> moves c d1 d3.
Proof.
  intros (_ & F1 & H1) (Hok & F2 & H2) Hc. split; [done|]. split; [by transitivity d2|]. intros x.
  specialize (H1 x). specialize (H2 x). specialize (Hc x). lia.
Qed.

Lemma moves_ext a b d d' : moves a d d' -> (forall x, a x = b x) -> moves b d d'.
Proof. intros (Hok & F & H) E. split; [done|]. split; [done|]. intros x. rewrite <- E. apply H. Qed.

Lemma exact_moves (a b : Z -> Z) d d' :
  same_books d d' -> market_ok d ->
  (forall x, total x d' = total x d + a x /\ supply x d' = supply x d + b x) ->
  moves (fun x => a x - b x) d d'.
Proof.
  intros Hsb Hok H. split; [by eapply same_books_ok|]. split; [apply Hsb|]. intros x. destruct (H x) as [T S].
  unfold liability, excess. rewrite (promised_same d d'), T, S by apply Hsb. lia.
Qed.

Lemma limit_orders_ok d d' m : same_books d d' -> market_ok d ->
  (forall id o, m !! id = Some o -> limit_ok o /\ id < next_limit_order d) ->
  market_ok (set_limit_orders m d').
Proof.
  intros Hsb Hok Hm. apply (same_books_ok _ _ Hsb) in Hok as [].
  pose proof (sb_next_limit _ _ Hsb) as En.
  split; cbn; auto. intros id o Hi. rewrite En. by apply Hm.
Qed.

Lemma promised_delete d id o : limit_orders d !! id = Some o ->
  promised (set_limit_orders (delete id (limit_orders d)) d)
  = promised d - default 0 (deferred_fee o).
Proof. intros H. unfold promised. cbn. by rewrite (sum_map_delete _ _ _ o). Qed.

Lemma promised_insert d id o o' : limit_orders d !! id = Some o ->
  deferred_fee o' = deferred_fee o ->
  promised (set_limit_orders (<[id := o']> (limit_orders d)) d) = promised d.
Proof. intros H E. unfold promised. cbn. rewrite (sum_map_insert _ _ _ o) by done. rewrite E. lia. Qed.

Lemma deref_limit_inv id d o : deref_limit id d = Ok o -> limit_orders d !! id = Some o.
Proof. unfold deref_limit, get_or. destruct (limit_orders d !! id); congruence. Qed.

Lemma core_in_asset x f : in_asset x (mk_asset f CORE) = if x =? CORE then f else 0.
Proof. unfold in_asset. cbn. rewrite Z.eqb_sym. by destruct (x =? CORE). Qed.

(** Cancelling returns the amount for sale and pays the deferred fee out. *)
Lemma cancel_limit_exact id vop d d' :
  cancel_limit_order id vop d = Ok d' ->
  exists o d1, limit_orders d !! id = Some o /\ same_books d d1
    /\ call_orders d1 = call_orders d /\ force_settlements d1 = force_settlements d
    /\ dynamic_data d1 = dynamic_data d
    /\ d' = set_limit_orders (delete id (limit_orders d1)) d1
    /\ forall x, total x d' = total x d + in_asset x (mk_asset (default 0 (deferred_fee o)) CORE)
       /\ supply x d' = supply x d.
Proof.
  intros H. unfold cancel_limit_order in H.
  apply rbind_ok in H as (o & Ho & H). apply deref_limit_inv in Ho.
  apply rbind_ok in H as (da & Ha & H). apply rbind_ok in H as (db & Hb & H).
  apply rbind_ok in H as (dc & Hc & H).
  apply modify_statistics_inv in Ha as (s & s' & _ & _ & Ea).
  pose proof (adjust_balance_books _ _ _ _ Hb) as (Sb & Cb & Fb & Db).
  assert (Hfee : same_books db dc /\ call_orders dc = call_orders db
    /\ force_settlements dc = force_settlements db /\ dynamic_data dc = dynamic_data db
    /\ forall x, total x dc = total x db + in_asset x (mk_asset (default 0 (deferred_fee o)) CORE)).
  { destruct (deferred_fee o) as [f|].
    - destruct (adjust_balance_books _ _ _ _ Hc) as (?&?&?&?). do 4 (split; [done|]). intros x.
      by pose proof (adjust_balance_excess _ _ _ _ _ x Hc) as [-> _].
    - injection Hc as <-. split; [apply same_books_refl|]. do 3 (split; [done|]). intros x.
      cbn. rewrite in_asset_0. lia. }
  destruct Hfee as (Sc & Cc & Fc & Dc & Tc).
  set (dv := if vop then _ else _) in H. injection H as <-.
  assert (Hs : same_books d dv).
  { apply (same_books_trans _ dc); [|subst dv; destruct vop; [split; eauto|apply same_books_refl]].
    apply (same_books_trans _ db); [|done]. apply (same_books_trans _ da); [|done].
    rewrite Ea. split; eauto. }
  exists o, dv. split; [done|]. split; [done|].
  assert (Hv : call_orders dv = call_orders dc /\ force_settlements dv = force_settlements dc
    /\ dynamic_data dv = dynamic_data dc) by (by subst dv; destruct vop).
  destruct Hv as (Cv & Fv & Dv). rewrite Cv, Cc, Cb, Fv, Fc, Fb, Dv, Dc, Db, Ea.
  do 4 (split; [done|]). intros x. split.
  - rewrite total_set_limit, (sb_limits _ _ Hs), (in_limit_delete _ _ _ o) by done.
    assert (Tv : total x dv = total x dc) by (by subst dv; destruct vop). rewrite Tv, Tc.
    pose proof (adjust_balance_excess _ _ _ _ _ x Hb) as [-> _]. rewrite Ea.
    change (total x (set_account_statistics _ d)) with (total x d). lia.
  - change (supply x (set_limit_orders _ dv)) with (supply x dv).
    rewrite !supply_at, Dv, Dc, Db, Ea. done.
Qed.

Lemma cancel_limit_moves id vop d d' :
  cancel_limit_order id vop d = Ok d' -> market_ok d -> moves neutral d d'.
Proof.
  intros H Hok. apply cancel_limit_exact in H as (o & d1 & Ho & Hs & _ & _ & _ & E & Hx).
  pose proof (sb_limits _ _ Hs) as El. split; [|split].
  - rewrite E. eapply limit_orders_ok; [done|done|]. rewrite El. intros i p Hp.
    apply lookup_delete_Some in Hp as [_ Hp]. by apply ok_limits.
  - rewrite E. by destruct (sb_frame _ _ Hs).
  - intros x. destruct (Hx x) as [T S]. unfold liability, excess, neutral.
    assert (P : promised d' = promised d - default 0 (deferred_fee o)).
    { rewrite E, promised_delete with (o := o) by (by rewrite El).
      by rewrite (promised_same d d1). }
    rewrite P, T, S, core_in_asset.
    pose proof (lok_deferred _ (proj1 (ok_limits _ Hok _ _ Ho))).
    destruct (x =? CORE); lia.
Qed.

Lemma cull_moves id d b d' :
  maybe_cull_small_order id d = Ok (b, d') -> market_ok d -> moves neutral d d'.
Proof.
  intros H Hok. unfold maybe_cull_small_order in H.
  apply rbind_ok in H as (o & _ & H). apply rbind_ok in H as (r & _ & H). case_if_in H.
  - apply rbind_ok in H as (d1 & H & [= <- <-]). by eapply cancel_limit_moves.
  - injection H as <- <-. by apply moves_refl.
Qed.

Lemma pay_order_spec acc receives pays d d' :
  pay_order acc receives pays d = Ok d' ->
  same_books d d' /\ call_orders d' = call_orders d /\ force_settlements d' = force_settlements d
  /\ dynamic_data d' = dynamic_data d
  /\ forall x, total x d' = total x d + in_asset x receives.
Proof.
  intros H. unfold pay_order in H. apply rbind_ok in H as (d1 & H1 & H).
  apply modify_statistics_inv in H1 as (s & s' & _ & _ & E).
  destruct (adjust_balance_books _ _ _ _ H) as (Hsb & Hc & Hf & Hd).
  split; [eapply same_books_trans; [|exact Hsb]; rewrite E; split; eauto|].
  rewrite Hc, Hf, Hd, E. do 3 (split; [done|]). intros x.
  pose proof (adjust_balance_excess _ _ _ _ _ x H) as [-> _]. by rewrite E.
Qed.

(** Filling a limit order takes what it pays off the book and gives out what it
    receives, fees included. *)
Lemma fill_limit_moves id pays receives cull fp mk d filled d' :
  fill_limit_order id pays receives cull fp mk d = Ok (filled, d') -> market_ok d ->
  0 <= amount receives <= int64_max ->
  (forall o, limit_orders d !! id = Some o -> 0 <= amount pays <= for_sale o) ->
  moves (fun x => in_asset x receives - in_asset x pays) d d'.
Proof.
  intros H Hok Hr Hle. unfold fill_limit_order in H.
  apply rbind_ok in H as (o & Ho & H). apply deref_limit_inv in Ho.
  apply rbind_ok in H as (u1 & Hp & H). apply rbind_ok in H as (u2 & _ & H).
  apply rbind_ok in H as (ac & _ & H). apply rbind_ok in H as ([fee d1] & Hfee & H).
  apply rbind_ok in H as (net & Hnet & H). apply rbind_ok in H as (d2 & Hpay & H).
  destruct (pay_market_fees_spec _ _ _ _ _ Hfee Hok Hr) as (S1 & _ & _ & Hid & Hfb & T1).
  destruct (pay_order_spec _ _ _ _ _ Hpay) as (S2 & _ & _ & D2 & T2).
  unfold asset_sub in Hnet. apply rbind_ok in Hnet as (u3 & _ & Hnet).
  apply rbind_ok in Hnet as (n & Hn & [= <-]). apply Share.sub_value in Hn as ->.
  unfold fc_assert in Hp. case_if_in Hp; [|done]. bool_to_prop.
  set (d3 := push_op _ d2) in H.
  assert (S3 : same_books d d3).
  { apply (same_books_trans _ d1); [done|]. apply (same_books_trans _ d2); [done|].
    subst d3. split; eauto. }
  assert (T3 : forall x, total x d3 = total x d + in_asset x receives
                         /\ supply x d3 = supply x d).
  { intros x. change (total x d3) with (total x d2). change (supply x d3) with (supply x d2).
    destruct (T1 x) as [T1x S1x]. rewrite T2, T1x, in_asset_sub, (supply_at x d2), D2, <- supply_at, S1x.
    rewrite (in_asset_eta x fee), (in_asset_eta x receives), Hid. lia. }
  pose proof (sb_limits _ _ S3) as E3.
  assert (Ho3 : limit_orders d3 !! id = Some o) by (rewrite E3; exact Ho).
  clearbody d3.
  case_if_in H.
  - apply asset_eqb_eq in Hif0. injection H as <- <-. split; [|split].
    + eapply limit_orders_ok; [done|done|]. rewrite E3. intros i p Hi.
      apply lookup_delete_Some in Hi as [_ Hi]. by apply ok_limits.
    + by destruct (sb_frame _ _ S3).
    + intros x. destruct (T3 x) as [T S]. unfold liability, excess.
      rewrite (promised_delete d3 id o) by done.
      change (supply x (set_limit_orders _ d3)) with (supply x d3).
      rewrite total_set_limit, E3, (in_limit_delete _ _ _ o), T, S, (promised_same d d3) by done.
      rewrite Hif0. pose proof (lok_deferred _ (proj1 (ok_limits _ Hok _ _ Ho))).
      destruct (x =? CORE); lia.
  - apply rbind_ok in H as (rest & Hrest & H). apply Share.sub_value in Hrest as ->.
    set (o1 := mk_limit _ _ _ _ _) in H. set (d4 := set_limit_orders _ d3) in H.
    assert (Hm : moves (fun x => in_asset x receives - in_asset x pays) d d4).
    { split; [|split].
      - eapply limit_orders_ok; [done|done|]. rewrite E3. intros i p Hi.
        destruct (decide (i = id)) as [->|Hne].
        + rewrite lookup_insert_eq in Hi. injection Hi as <-.
          destruct (ok_limits _ Hok _ _ Ho) as [[F P Q D] Hlt]. specialize (Hle _ Ho).
          split; [split; cbn; (lia || done)|done].
        + rewrite lookup_insert_ne in Hi by done. by apply ok_limits.
      - by destruct (sb_frame _ _ S3).
      - intros x. destruct (T3 x) as [T S]. unfold liability, excess. subst d4.
        rewrite (promised_insert d3 id o) by done.
        change (supply x (set_limit_orders _ d3)) with (supply x d3).
        rewrite total_set_limit, E3, (in_limit_insert _ _ _ o), T, S, (promised_same d d3) by done.
        unfold amount_for_sale at 2 4. subst o1. cbn [for_sale sell_price].
        rewrite in_asset_sub. fold (amount_for_sale o). rewrite (in_asset_eta x pays), <- Hif.
        cbn [amount_for_sale asset_id]. destruct (x =? CORE); lia. }
    case_if_in H.
    + eapply moves_trans; [exact Hm|eapply cull_moves; [exact H|apply Hm]|]. intros x. unfold neutral. lia.
    + injection H as <- <-. done.
Qed.

(** ** Converting between the two sides of a trade *)

Lemma asset_mul_price_amount a p r :
  asset_mul_price a p = Ok r -> 0 <= amount r <= GRAPHENE_MAX_SHARE_SUPPLY.
Proof.
  intros H. unfold asset_mul_price in H.
  assert (Hd : forall u v w, w > 0 -> mult128 u v / w <= GRAPHENE_MAX_SHARE_SUPPLY ->
    0 <= to_int64 (mult128 u v / w) <= GRAPHENE_MAX_SHARE_SUPPLY).
  { intros u v w Hw Hle. assert (0 <= mult128 u v / w)
      by (apply Z.div_pos; [apply Z.mod_pos_bound|]; lia).
    rewrite to_int64_small by lia. lia. }
  repeat case_if_in H; try done; res_inv; bool_to_prop; apply Hd; lia.
Qed.

Lemma asset_leb_inv a b r : asset_leb a b = Ok r ->
  asset_id a = asset_id b /\ r = (amount a <=? amount b).
Proof.
  intros H. assert (E : asset_id a = asset_id b).
  { unfold asset_leb in H. case_if_in H; [by apply asset_eqb_eq in Hif as ->|].
    unfold asset_ltb in H. res_inv. by bool_to_prop. }
  split; [done|]. rewrite asset_leb_same in H by done. by injection H.
Qed.

Lemma asset_ltb_inv a b r : asset_ltb a b = Ok r ->
  asset_id a = asset_id b /\ r = (amount a <? amount b).
Proof. unfold asset_ltb. intros H. res_inv. by bool_to_prop. Qed.

Lemma asset_geb_inv a b r : asset_geb a b = Ok r ->
  asset_id a = asset_id b /\ r = (amount b <=? amount a).
Proof.
  unfold asset_geb. intros H. apply rbind_ok in H as (q & H & [= <-]).
  apply asset_ltb_inv in H as [E ->]. split; [done|]. by rewrite Z.leb_antisym.
Qed.

Lemma asset_gtb_inv a b r : asset_gtb a b = Ok r ->
  asset_id a = asset_id b /\ r = (amount b <? amount a).
Proof.
  unfold asset_gtb. intros H. apply rbind_ok in H as (q & H & [= <-]).
  apply asset_leb_inv in H as [E ->]. split; [done|]. by rewrite Z.ltb_antisym.
Qed.

(** Floors of a price applied one way and back. *)
Lemma mul_price_back a b r s p :
  asset_mul_price b p = Ok r -> asset_mul_price a p = Ok s -> price_ok p ->
  asset_id (base p) <> asset_id (quote p) ->
  0 <= amount a <= int64_max -> 0 <= amount b <= int64_max ->
  asset_id a = asset_id r -> amount a <= amount r ->
  asset_id s = asset_id b /\ amount s <= amount b.
Proof.
  intros Hr Hs Hp Hne Ha Hb Hid Hle. pose proof Hp as [Pb Pq].
  destruct (asset_mul_price_inv _ _ _ Hr Hb Hp) as [(I1 & I2 & I3)|(I1 & I2 & I3 & I4)];
  destruct (asset_mul_price_inv _ _ _ Hs Ha Hp) as [(J1 & J2 & J3)|(J1 & J2 & J3 & J4)];
    try congruence; (split; [congruence|]).
  - rewrite J4. apply Z.div_le_upper_bound; [lia|].
    pose proof (Z.mul_div_le (amount b * amount (quote p)) (amount (base p))). nia.
  - rewrite J3. apply Z.div_le_upper_bound; [lia|].
    pose proof (Z.mul_div_le (amount b * amount (base p)) (amount (quote p))). nia.
Qed.

(** The amounts two orders exchange: neither side pays more than it sells and
    one of them sells out. *)
Lemma match_amounts_spec us cs p cr ur :
  match_amounts us cs p = Ok (cr, ur) -> price_ok p -> asset_id (base p) <> asset_id (quote p) ->
  0 <= amount us <= int64_max -> 0 <= amount cs <= int64_max ->
  asset_id cr = asset_id us /\ 0 <= amount cr <= amount us
  /\ asset_id ur = asset_id cs /\ 0 <= amount ur <= amount cs
  /\ (cr = us \/ ur = cs).
Proof.
  intros H Hp Hne Hu Hc. unfold match_amounts in H.
  apply rbind_ok in H as (cv & Hcv & H). apply rbind_ok in H as (fits & Hf & H).
  apply asset_leb_inv in Hf as [Hid ->]. pose proof (asset_mul_price_amount _ _ _ Hcv).
  case_if_in H; bool_to_prop; apply rbind_ok in H as (r & Hr & [= <- <-]).
  - pose proof (asset_mul_price_amount _ _ _ Hr).
    destruct (mul_price_back us cs cv r p) as [Ei Hle]; try done; try lia.
    do 2 (split; [done || lia|]). do 2 (split; [done || lia|]). by left.
  - rewrite Hcv in Hr. injection Hr as <-.
    do 2 (split; [done || lia|]). do 2 (split; [done || lia|]). by right.
Qed.

(** ** Matching *)

Lemma cancel_limit_others id vop d d' i : cancel_limit_order id vop d = Ok d' -> i <> id ->
  limit_orders d' !! i = limit_orders d !! i.
Proof.
  intros H Hi. apply cancel_limit_exact in H as (o & d1 & _ & Hs & _ & _ & _ & -> & _).
  cbn. rewrite lookup_delete_ne by done. by rewrite (sb_limits _ _ Hs).
Qed.

Lemma fill_limit_others id pays receives cull fp mk d filled d' i :
  fill_limit_order id pays receives cull fp mk d = Ok (filled, d') -> i <> id ->
  limit_orders d' !! i = limit_orders d !! i.
Proof.
  intros H Hi. unfold fill_limit_order, pay_market_fees in H.
  apply rbind_ok in H as (o & _ & H). do 2 apply rbind_ok in H as (? & _ & H).
  apply rbind_ok in H as (ac & _ & H). apply rbind_ok in H as ([fee d1] & Hfee & H).
  apply rbind_ok in H as (net & _ & H). apply rbind_ok in H as (d2 & Hpay & H).
  assert (E1 : limit_orders d1 = limit_orders d).
  { apply rbind_ok in Hfee as (a & _ & Hfee). apply rbind_ok in Hfee as (a0 & _ & Hfee).
    case_if_in Hfee; [|by injection Hfee as <- <-].
    apply rbind_ok in Hfee as (dx & Hfee & [= <- <-]).
    by apply modify_dynamic_data_inv in Hfee as (? & ? & _ & _ & ->). }
  apply pay_order_spec in Hpay as (S2 & _). pose proof (sb_limits _ _ S2) as E2.
  case_if_in H.
  - injection H as <- <-. cbn. rewrite lookup_delete_ne by done. congruence.
  - apply rbind_ok in H as (rest & _ & H). case_if_in H.
    + unfold maybe_cull_small_order in H. apply rbind_ok in H as (o2 & _ & H).
      apply rbind_ok in H as (r & _ & H). case_if_in H.
      * apply rbind_ok in H as (d3 & Hc & [= <- <-]).
        rewrite (cancel_limit_others _ _ _ _ i Hc Hi). cbn. rewrite lookup_insert_ne by done. congruence.
      * injection H as <- <-. cbn. rewrite lookup_insert_ne by done. congruence.
    + injection H as <- <-. cbn. rewrite lookup_insert_ne by done. congruence.
Qed.

(** At a price of two assets an order is never matched with itself. *)
Lemma match_orders_differ u c uo co p d cr ur :
  match_amounts (amount_for_sale uo) (amount_for_sale co) p = Ok (cr, ur) ->
  limit_orders d !! u = Some uo -> limit_orders d !! c = Some co -> price_ok p ->
  0 <= for_sale co <= int64_max -> asset_id (base p) <> asset_id (quote p) -> c <> u.
Proof.
  intros Ha Hu Hc Hp Fc Hne ->. rewrite Hu in Hc. injection Hc as ->. unfold match_amounts in Ha.
  apply rbind_ok in Ha as (cv & Hcv & Ha). apply rbind_ok in Ha as (ft & Hf & _).
  apply asset_leb_inv in Hf as [Hf _].
  destruct (asset_mul_price_inv _ _ _ Hcv Fc Hp) as [(?&?&_)|(?&?&?&_)]; congruence.
Qed.

Lemma match_limit_moves u c p d r d' :
  match_limit u c p d = Ok (r, d') -> market_ok d -> price_ok p ->
  asset_id (base p) <> asset_id (quote p) -> moves neutral d d'.
Proof.
  intros H Hok Hp Hne. unfold match_limit in H.
  apply rbind_ok in H as (uo & Hu & H). apply rbind_ok in H as (co & Hc & H).
  apply deref_limit_inv in Hu, Hc.
  apply rbind_ok in H as ([cr ur] & Ha & H).
  apply rbind_ok in H as ([f1 d1] & H1 & H). apply rbind_ok in H as ([f2 d2] & H2 & [= <- <-]).
  destruct (ok_limits _ Hok _ _ Hu) as [[Fu _ _ _] _]. destruct (ok_limits _ Hok _ _ Hc) as [[Fc _ _ _] _].
  destruct (match_amounts_spec _ _ _ _ _ Ha Hp Hne Fu Fc) as (I1 & B1 & I2 & B2 & _).
  cbn in B1, B2.
  pose proof (match_orders_differ _ _ _ _ _ _ _ _ Ha Hu Hc Hp Fc Hne) as Hd.
  assert (M1 : moves (fun x => in_asset x ur - in_asset x cr) d d1).
  { eapply fill_limit_moves; [done..|lia|]. intros o Ho. rewrite Hu in Ho. injection Ho as <-. done. }
  eapply moves_trans; [exact M1| |].
  - eapply fill_limit_moves; [done|apply M1|lia|]. intros o Ho.
    rewrite (fill_limit_others _ _ _ _ _ _ _ _ _ c H1 Hd), Hc in Ho. injection Ho as <-. done.
  - intros x. unfold neutral. lia.
Qed.

Lemma match_book_moves id ids : forall d d', match_book id ids d = Ok d' ->
  market_ok d -> moves neutral d d'.
Proof.
  induction ids as [|b ids IH]; cbn; intros d d' H Hok.
  - injection H as <-. by apply moves_refl.
  - apply rbind_ok in H as (o & Ho & H). apply deref_limit_inv in Ho.
    apply rbind_ok in H as ([r d1] & Hm & H).
    destruct (ok_limits _ Hok _ _ Ho) as [[_ P Q _] _].
    pose proof (match_limit_moves _ _ _ _ _ _ Hm Hok P Q) as M.
    case_if_in H.
    + eapply moves_trans; [exact M|apply (IH d1); [done|apply M]|]. by intros x.
    + by injection H as <-.
Qed.

(** ** Settlement orders *)

Lemma asset_sub_inv a b r : asset_sub a b = Ok r ->
  asset_id a = asset_id b /\ r = mk_asset (amount a - amount b) (asset_id a).
Proof.
  unfold asset_sub. intros H. res_inv. bool_to_prop. by apply Share.sub_value in Hm as ->.
Qed.

Lemma asset_add_inv a b r : asset_add a b = Ok r ->
  asset_id a = asset_id b /\ r = mk_asset (amount a + amount b) (asset_id a).
Proof.
  unfold asset_add. intros H. res_inv. bool_to_prop. by apply Share.add_value in Hm as ->.
Qed.

Lemma in_asset_same x a b : asset_id a = asset_id b ->
  in_asset x (mk_asset (amount a - amount b) (asset_id a)) = in_asset x a - in_asset x b.
Proof. intros E. rewrite in_asset_sub, (in_asset_eta x a), (in_asset_eta x b), E. done. Qed.

Lemma fill_settle_moves id pays receives fp mk d filled d' :
  fill_settle_order id pays receives fp mk d = Ok (filled, d') -> market_ok d ->
  0 <= amount receives <= int64_max ->
  (forall s, force_settlements d !! id = Some s -> amount pays <= amount (fs_balance s)) ->
  moves (fun x => in_asset x receives - in_asset x pays) d d'.
Proof.
  intros H Hok Hr Hle. unfold fill_settle_order, deref_settle in H.
  apply rbind_ok in H as (s & Hs & H). unfold get_or in Hs.
  destruct (force_settlements d !! id) as [s'|] eqn:Es; [|done]. injection Hs as ->.
  specialize (Hle _ eq_refl).
  apply rbind_ok in H as ([fee d1] & Hfee & H). apply rbind_ok in H as (partial & Hp & H).
  apply rbind_ok in H as (d2 & Hd2 & H). apply rbind_ok in H as (net & Hnet & H).
  apply rbind_ok in H as (d3 & H3 & H).
  apply asset_ltb_inv in Hp as [Hid ->]. apply asset_sub_inv in Hnet as [Hfid ->].
  destruct (pay_market_fees_spec _ _ _ _ _ Hfee Hok Hr) as (S1 & C1 & F1 & _ & _ & T1).
  destruct (adjust_balance_books _ _ _ _ H3) as (S3 & C3 & F3 & D3).
  assert (H2 : exists m, d2 = set_force_settlements m d1
    /\ (forall i w, m !! i = Some w -> exists v, force_settlements d !! i = Some v
          /\ asset_id (fs_balance w) = asset_id (fs_balance v)) /\ forall x,
    in_settlements x (if amount pays <? amount (fs_balance s) then m else delete id m)
    = in_settlements x (force_settlements d) - in_asset x pays).
  { case_if; bool_to_prop.
    - apply rbind_ok in Hd2 as (rest & Hrest & [= <-]). apply asset_sub_inv in Hrest as [_ ->].
      eexists. split; [done|]. rewrite F1. split.
      { intros i w Hw. destruct (decide (i = id)) as [->|Hi].
        - rewrite lookup_insert_eq in Hw. injection Hw as <-. eauto.
        - rewrite lookup_insert_ne in Hw by done. eauto. }
      intros x. rewrite (in_settle_insert _ _ _ s) by done. cbn [fs_balance].
      rewrite in_asset_same by done. lia.
    - injection Hd2 as <-. exists (force_settlements d1). split; [by destruct d1|].
      split; [rewrite F1; eauto|]. intros x.
      rewrite F1, (in_settle_delete _ _ _ s) by done. rewrite (in_asset_eta x pays), Hid.
      replace (amount pays) with (amount (fs_balance s)) by lia. by rewrite <- in_asset_eta. }
  destruct H2 as (m & E2 & Hdom & Hm).
  assert (Sd : same_books d d3).
  { eapply same_books_trans; [|exact S3]. rewrite E2. destruct S1 as [? ? ? ? ? ? ? ? F].
    by split. }
  assert (Hdom' : forall i w, (if amount pays <? amount (fs_balance s) then m else delete id m) !! i = Some w ->
    exists v, force_settlements d !! i = Some v /\ asset_id (fs_balance w) = asset_id (fs_balance v)).
  { intros i w Hw. apply Hdom. case_if_in Hw; [done|]. by apply lookup_delete_Some in Hw as [_ Hw]. }
  assert (Ed : d' = set_force_settlements
    (if amount pays <? amount (fs_balance s) then m else delete id m)
    (push_op (vop_fill_order id (fs_owner s) pays receives fp mk) d3)).
  { assert (Em : force_settlements d3 = m) by (rewrite F3, E2; done).
    case_if_in H; injection H as <- <-; cbn; rewrite <- Em; by destruct d3. }
  rewrite Ed. eapply moves_ext; [apply (exact_moves
    (fun x => in_asset x receives - in_asset x pays) neutral);
      [destruct Sd as [? ? ? ? ? ? ? ? F]; split; try done; destruct F; by split|done|]|
    intros x; unfold neutral; cbv beta; lia].
  intros x. cbv beta. destruct (T1 x) as [T1x S1x]. split.
  - rewrite total_set_settle, Hm. change (total x (push_op _ d3)) with (total x d3).
    cbn [force_settlements push_op set_applied_ops]. rewrite F3.
    pose proof (adjust_balance_excess _ _ _ _ _ x H3) as [-> _].
    rewrite E2, total_set_settle. cbn [force_settlements set_force_settlements].
    rewrite in_asset_same by done. rewrite F1, T1x. lia.
  - unfold neutral. rewrite Z.add_0_r, <- S1x, !supply_at. cbn. by rewrite D3, E2.
Qed.

Lemma asset_min_inv a b r : asset_min a b = Ok r ->
  asset_id a = asset_id b /\ asset_id r = asset_id a /\ amount r = Z.min (amount a) (amount b).
Proof.
  unfold asset_min. intros H. apply rbind_ok in H as (lt & H & [= <-]).
  apply asset_ltb_inv in H as [E ->]. split; [done|]. case_if; bool_to_prop; split; try done; lia.
Qed.

Lemma match_settle_moves call settle p mx d r d' :
  match_settle call settle p mx d = Ok (r, d') -> market_ok d -> moves neutral d d'.
Proof.
  intros H Hok. unfold match_settle in H.
  apply rbind_ok in H as (c & Hc & H). apply rbind_ok in H as (s & Hs & H).
  apply rbind_ok in H as (v1 & _ & H). apply rbind_ok in H as (v2 & _ & H).
  apply rbind_ok in H as (sf & Hsf & H).
  apply rbind_ok in H as (cr & Hcr & H). apply rbind_ok in H as (cp & Hcp & H).
  apply rbind_ok in H as (v3 & _ & H). apply rbind_ok in H as (v4 & _ & H).
  apply rbind_ok in H as ([f1 d1] & H1 & H). apply rbind_ok in H as ([f2 d2] & H2 & [= <- <-]).
  apply asset_min_inv in Hsf as (_ & _ & Hsf). apply asset_min_inv in Hcr as (_ & _ & Hcr).
  pose proof (asset_mul_price_amount _ _ _ Hcp) as Hb.
  unfold deref_call, deref_settle, get_or in Hc, Hs.
  apply fill_call_spec in H1 as (S1 & F1 & _ & _ & _ & _ & T1).
  - eapply moves_trans; [apply (exact_moves (fun x => 0 - in_asset x cp) (fun x => 0 - in_asset x cr) d d1);
      [done|done|]| |].
    + intros x. cbv beta. destruct (T1 x). lia.
    + eapply fill_settle_moves; [exact H2|by eapply same_books_ok|lia|].
      rewrite F1. intros s' Es. rewrite Es in Hs. injection Hs as ->. lia.
    + intros x. unfold neutral. lia.
  - intros c' Ec. rewrite Ec in Hc. injection Hc as ->. cbn [get_debt amount] in Hcr. lia.
Qed.

(** ** Ranges of the order books *)

(** Orders in a range between two prices of one market are of that market. *)
Lemma price_ltb_market p a b : price_ltb p a = false -> price_ltb b p = false ->
  asset_id (base a) = asset_id (base b) -> asset_id (quote a) = asset_id (quote b) ->
  asset_id (base p) = asset_id (base a) /\ asset_id (quote p) = asset_id (quote a).
Proof.
  unfold price_ltb. intros H1 H2 Eb Eq. repeat case_if_in H1; repeat case_if_in H2; try done;
    bool_to_prop; split; lia.
Qed.

Lemma call_range_market b q first last d id c :
  price_min b q = Ok first -> price_max b q = Ok last -> id ∈ call_range first last d ->
  call_orders d !! id = Some c ->
  asset_id (base (co_call_price c)) = b /\ debt_type c = q.
Proof.
  intros Hf Hl Hin Hc. unfold call_range in Hin.
  apply list_elem_of_fmap in Hin as ([i c'] & -> & Hin). cbn in Hc.
  apply sort_by_elem, list_elem_of_filter in Hin as [Hr Hin].
  apply elem_of_map_to_list in Hin. rewrite Hin in Hc. injection Hc as <-.
  apply Is_true_true, andb_true_iff in Hr as [H1 H2]. bool_to_prop. cbn in H1, H2.
  unfold price_min, price_max, asset_div in *. res_inv.
  by apply (price_ltb_market _ _ _ H1 H2).
Qed.

(** ** Global settlement *)

Lemma close_calls_spec mia ids : forall p g d g' d',
  close_calls ids p g d = Ok (g', d') ->
  (forall i c, i ∈ ids -> call_orders d !! i = Some c -> debt_type c = mia) ->
  same_books d d' /\ asset_id g' = asset_id g
  /\ (forall k, k <> mia -> dynamic_data d' !! k = dynamic_data d !! k)
  /\ (forall k, is_Some (dynamic_data d !! k) -> is_Some (dynamic_data d' !! k))
  /\ forall x, total x d' + in_asset x g' = total x d + in_asset x g.
Proof.
  induction ids as [|id ids IH]; cbn; intros p g d g' d' H Hin.
  - injection H as <- <-. split; [apply same_books_refl|]. eauto.
  - apply rbind_ok in H as (c & Hc & H). apply rbind_ok in H as (pays & _ & H).
    apply rbind_ok in H as (over & _ & H). set (pays' := if over then _ else _) in H.
    apply rbind_ok in H as (g1 & Hg & H). apply rbind_ok in H as ([fl d1] & H1 & H).
    apply rbind_ok in H as (u & _ & H). unfold deref_call, get_or in Hc.
    destruct (call_orders d !! id) as [c'|] eqn:Ec; [|done]. injection Hc as ->.
    apply asset_add_inv in Hg as [Eid ->].
    apply fill_call_spec in H1 as (S1 & _ & D1 & I1 & _ & _ & T1);
      [|intros c' Ec'; rewrite Ec in Ec'; injection Ec' as <-; done].
    apply IH in H as (S2 & Eg & D2 & I2 & T2).
    + split; [by eapply same_books_trans|]. split; [done|]. split; [|split].
      * intros k Hk. rewrite D2, D1; [done| |done].
        cbn. rewrite (Hin id c); [done|constructor|done].
      * eauto.
      * intros x. rewrite T2. destruct (T1 x) as [-> _]. rewrite in_asset_add, <- in_asset_eta.
        rewrite Eid, <- in_asset_eta. lia.
    + intros i c' Hi Hc'. destruct (sb_calls _ _ S1 _ _ Hc') as (c0 & Hc0 & Hp & _).
      unfold debt_type. rewrite Hp. apply (Hin i c0); [by constructor|done].
Qed.

Lemma div_not_null a b p : asset_div a b = Ok p -> price_is_null p = false.
Proof.
  unfold asset_div. intros H. res_inv. bool_to_prop. unfold price_is_null, price_eqb. cbn.
  destruct (Z.eqb_spec (asset_id a) 0), (Z.eqb_spec (asset_id b) 0); cbn; try done. congruence.
Qed.

Lemma supply_eq x d d' : dynamic_data d' !! x = dynamic_data d !! x -> supply x d' = supply x d.
Proof. intros E. by rewrite !supply_at, E. Qed.

Lemma bitasset_ok mia b b' m d :
  market_ok d -> bitassets d !! mia = Some b -> options b' = options b ->
  (has_settlement b' = false -> settlement_fund b' = 0) ->
  (has_settlement b' = true -> asset_id (base (settlement_price b')) = mia
     /\ asset_id (quote (settlement_price b')) = short_backing_asset (options b')) ->
  market_ok (set_dynamic_data m (set_bitassets (<[mia := b']> (bitassets d)) d)).
Proof.
  intros [] Hb Ho Hf Hsp. split; cbn; auto.
  - intros x b0 Hx Hb0. destruct (decide (mia = x)) as [->|Hn].
    + rewrite lookup_insert_eq in Hx. injection Hx as <-. auto.
    + rewrite lookup_insert_ne in Hx by done. eauto.
  - intros x b0 Hx Hb0. destruct (decide (mia = x)) as [->|Hn].
    + rewrite lookup_insert_eq in Hx. injection Hx as <-. auto.
    + rewrite lookup_insert_ne in Hx by done. eauto.
  - intros id c b0 Hc Hx. destruct (decide (mia = debt_type c)) as [->|Hn].
    + rewrite lookup_insert_eq in Hx. injection Hx as <-. rewrite Ho. eauto.
    + rewrite lookup_insert_ne in Hx by done. eauto.
  - intros id c b0 Hc Hx. destruct (decide (mia = asset_id (quote (inv_swan_price c)))) as [->|Hn].
    + rewrite lookup_insert_eq in Hx. injection Hx as <-. rewrite Ho. eauto.
    + rewrite lookup_insert_ne in Hx by done. eauto.
Qed.

Lemma globally_settle_moves mia p d d' :
  globally_settle_asset mia p d = Ok d' -> market_ok d -> moves neutral d d'.
Proof.
  intros H Hok. unfold globally_settle_asset, get_bitasset, get_dynamic_data in H.
  apply rbind_ok in H as (a & _ & H). apply rbind_ok in H as (b & Hb & H).
  unfold bitasset_data in Hb. apply rbind_ok in Hb as (u0 & _ & Hb).
  unfold get_bitasset, get_or in Hb. destruct (bitassets d !! mia) as [b'|] eqn:Eb; [|done].
  injection Hb as ->.
  apply rbind_ok in H as (u1 & Hs & H). unfold fc_assert in Hs.
  destruct (has_settlement b) eqn:Es; [done|]. clear Hs.
  apply rbind_ok in H as (ba & _ & H). apply rbind_ok in H as (dd & Hdd & H).
  unfold get_or in Hdd. destruct (dynamic_data d !! mia) as [dd'|] eqn:Ed; [|done]. injection Hdd as ->.
  apply rbind_ok in H as (first & Hf & H). apply rbind_ok in H as (last & Hl & H).
  apply rbind_ok in H as ([g d1] & Hg & H). apply rbind_ok in H as (b1 & Hb1 & H).
  apply rbind_ok in H as (sp & Hsp & H).
  apply modify_dynamic_data_inv in H as (dd1 & dd2 & Hd1 & [= <-] & ->). cbn in Hd1.
  apply (close_calls_spec mia) in Hg as (S1 & Eg & D1 & _ & T1);
    [|intros i c Hi Hc; by eapply call_range_market].
  unfold get_or in Hb1. rewrite (sb_bitassets _ _ S1), Eb in Hb1. injection Hb1 as <-.
  pose proof (ok_funds _ Hok _ _ Eb Es) as Hfund.
  set (b2 := mk_bitasset _ _ _ _ _ _ _). set (db := set_bitassets _ d1).
  assert (Eb1 : bitassets d1 !! mia = Some b) by (by rewrite (sb_bitassets _ _ S1)).
  assert (Hs2 : has_settlement b2 = true)
    by (unfold has_settlement; cbn; by rewrite (div_not_null _ _ _ Hsp)).
  split; [|split].
  - apply bitasset_ok with (b := b); [by eapply same_books_ok|done|done| |].
    + intros Hc. by rewrite Hs2 in Hc.
    + intros _. unfold asset_div in Hsp. apply rbind_ok in Hsp as (u2 & _ & [= <-]). cbn. by rewrite Eg.
  - by destruct (sb_frame _ _ S1).
  - intros x. unfold neutral, liability, excess.
    rewrite (promised_same d (set_dynamic_data _ db) (sb_limits _ _ S1)).
    assert (T : total x (set_dynamic_data (<[mia:=mk_dyn (current_supply dd) (accumulated_fees dd1)]>
      (dynamic_data db)) db) = total x d).
    { rewrite total_set_dyn, (in_fees_insert _ _ _ dd1) by done. cbn [accumulated_fees].
      rewrite Z.sub_diag, in_asset_0. subst db. rewrite total_set_bitassets, (in_funds_insert _ _ _ b) by done.
      specialize (T1 x). rewrite in_asset_0, in_asset_eta, Eg in T1.
      subst b2. cbn [settlement_fund options asset_id] in *. rewrite Hfund, in_asset_0. lia. }
    assert (S : supply x (set_dynamic_data (<[mia:=mk_dyn (current_supply dd) (accumulated_fees dd1)]>
      (dynamic_data db)) db) = supply x d).
    { rewrite !supply_at. cbn. destruct (decide (x = mia)) as [->|Hn].
      - by rewrite lookup_insert_eq, Ed.
      - rewrite lookup_insert_ne by done. by rewrite D1. }
    rewrite T, S. lia.
Qed.

(** ** Margin calls *)

Lemma blackswan_moves mia en d r d' :
  check_for_blackswan mia en d = Ok (r, d') -> market_ok d -> moves neutral d d'.
Proof.
  intros H Hok. unfold check_for_blackswan in H.
  pose proof (moves_refl d Hok) as Hr.
  apply rbind_ok in H as (a & _ & H). case_if_in H; [by injection H as <- <-|].
  apply rbind_ok in H as (b & _ & H). case_if_in H; [by injection H as <- <-|].
  case_if_in H; [by injection H as <- <-|].
  apply rbind_ok in H as (v1 & _ & H). apply rbind_ok in H as (v2 & _ & H).
  apply rbind_ok in H as (v3 & _ & H). apply rbind_ok in H as (v4 & _ & H).
  destruct (call_range v3 v4 d); [by injection H as <- <-|].
  apply rbind_ok in H as (hi & _ & H). apply rbind_ok in H as (c & _ & H).
  apply rbind_ok in H as (lc & _ & H). case_if_in H; [|by injection H as <- <-].
  apply rbind_ok in H as (u & _ & H). apply rbind_ok in H as (d1 & H & [= <- <-]).
  by eapply globally_settle_moves.
Qed.

Lemma call_loop_moves fuel : forall mia en fn limits calls fl mc d r d',
  call_loop fuel mia en fn limits calls fl mc d = Some (Ok (r, d')) ->
  market_ok d -> moves neutral d d'.
Proof.
  induction fuel as [|fuel IH]; cbn [call_loop]; intros mia en fn limits calls fl mc d r d' H Hok; [done|].
  destruct (check_for_blackswan mia en d) as [[swan d0]|] eqn:Eb; [|done].
  pose proof (blackswan_moves _ _ _ _ _ Eb Hok) as M0.
  assert (Hdone : Some (Ok (mc, d0)) = Some (Ok (r, d')) -> moves neutral d d')
    by (intros [= _ <-]; done).
  destruct swan; [auto|]. destruct calls as [|cid calls]; [auto|].
  destruct limits as [|lid limits]; [auto|]. clear Hdone.
  destruct (deref_limit lid d0) as [o|] eqn:Ho; cbn [rbind] in H; [|done].
  destruct (price_validate (sell_price o)); cbn [rbind] in H; [|done].
  destruct (deref_call cid d0) as [c|] eqn:Hc; cbn [rbind] in H; [|done].
  destruct (get_bitasset mia d0) as [b|]; cbn [rbind] in H; [|done].
  case_if_in H; [by injection H as _ <-|]. clear Hif.
  destruct (asset_mul_price (get_debt c) (sell_price o)) as [cost|]; cbn [rbind] in H; [|done].
  destruct (asset_gtb cost (get_collateral c)) as [[]|]; cbn [rbind] in H; [| |done].
  { destruct en; cbn [fc_assert rbind] in H; [|done].
    destruct (globally_settle_asset _ _ d0) as [d1|] eqn:Hg; cbn [rbind] in H; [|done].
    injection H as _ <-. eapply moves_trans; [exact M0|eapply globally_settle_moves; [exact Hg|apply M0]|].
    by intros x. }
  destruct (asset_geb (get_debt c) (amount_for_sale o)) as [first|] eqn:Hge; cbn [rbind] in H; [|done].
  apply asset_geb_inv in Hge as [Eid ->].
  set (traded := if amount (amount_for_sale o) <=? amount (get_debt c)
                 then amount_for_sale o else get_debt c) in H.
  destruct (asset_mul_price traded (sell_price o)) as [recv|] eqn:Hrecv; cbn [rbind] in H; [|done].
  match type of H with context [fc_assert ?b] => destruct (fc_assert b); cbn [rbind] in H; [|done] end.
  destruct (fill_call_order cid recv traded _ _ d0) as [[f1 d1]|] eqn:H1; cbn [rbind] in H; [|done].
  destruct (fill_limit_order lid traded recv _ _ _ d1) as [[f2 d2]|] eqn:H2; cbn [rbind] in H; [|done].
  unfold deref_call, get_or in Hc. destruct (call_orders d0 !! cid) as [c'|] eqn:Ec; [|done].
  injection Hc as ->. apply deref_limit_inv in Ho.
  destruct M0 as [Hok0 M0']. destruct (ok_calls _ Hok0 _ _ Ec) as [Hdebt _].
  destruct (ok_limits _ Hok0 _ _ Ho) as [[F _ _ _] _].
  pose proof (asset_mul_price_amount _ _ _ Hrecv) as Hb.
  assert (Ht : amount traded <= debt c /\ 0 <= amount traded <= for_sale o).
  { subst traded. cbn in *. case_if; bool_to_prop; cbn; lia. }
  apply fill_call_spec in H1 as (S1 & _ & _ & _ & _ & _ & T1);
    [|intros c' Ec'; rewrite Ec in Ec'; injection Ec' as <-; lia].
  assert (M1 : moves (fun x => in_asset x traded - in_asset x recv) d0 d1).
  { eapply moves_ext; [apply (exact_moves (fun x => 0 - in_asset x recv) (fun x => 0 - in_asset x traded) d0 d1);
      [done|done|intros x; cbv beta; destruct (T1 x); lia]|]. intros x. cbv beta. lia. }
  assert (M2 : moves (fun x => in_asset x recv - in_asset x traded) d1 d2).
  { eapply fill_limit_moves; [exact H2|apply M1|lia|]. rewrite (sb_limits _ _ S1).
    intros o' Ho'. rewrite Ho in Ho'. injection Ho' as <-. lia. }
  assert (M3 : moves neutral d d2).
  { eapply moves_trans; [split; [exact Hok0|exact M0']| |]; [eapply moves_trans; [exact M1|exact M2|]|];
      intros x; unfold neutral; [reflexivity|cbv beta; lia]. }
  eapply moves_trans; [exact M3|eapply IH; [exact H|apply M3]|]. by intros x.
Qed.

Lemma check_call_orders_moves mia en fn d r d' :
  check_call_orders mia en fn d = Ok (r, d') -> market_ok d -> moves neutral d d'.
Proof.
  intros H Hok. unfold check_call_orders in H.
  destruct (check_call_orders_fuel S mia en fn d) as [r0|] eqn:E; [|done]. subst r0.
  unfold check_call_orders_fuel in E. pose proof (moves_refl d Hok) as Hr.
  destruct (get_asset mia d) as [a|]; cbn [rbind] in E; [|done].
  case_if_in E; [by injection E as _ <-|].
  destruct (check_for_blackswan mia en d) as [[swan d0]|] eqn:Eb; cbn [rbind] in E; [|done].
  pose proof (blackswan_moves _ _ _ _ _ Eb Hok) as M0.
  destruct swan; [by injection E as _ <-|].
  destruct (bitasset_data mia a d0) as [b|]; cbn [rbind] in E; [|done].
  case_if_in E; [by injection E as _ <-|].
  destruct (price_max mia _); cbn [rbind] in E; [|done].
  destruct (max_short_squeeze_price _); cbn [rbind] in E; [|done].
  destruct (limit_range _ _ d0) as [|l ls]; [by injection E as _ <-|].
  destruct (price_min _ mia); cbn [rbind] in E; [|done].
  destruct (price_max _ mia); cbn [rbind] in E; [|done].
  eapply moves_trans; [exact M0|eapply call_loop_moves; [exact E|apply M0]|]. by intros x.
Qed.

(** ** The evaluators *)

(** Two neutral steps in a row. *)
Ltac then_neutral M :=
  eapply moves_trans; [exact M| |intros ?; unfold neutral; reflexivity].

Lemma apply_order_moves id en d r d' :
  apply_order id en d = Ok (r, d') -> market_ok d -> moves neutral d d'.
Proof.
  intros H Hok. unfold apply_order in H.
  apply rbind_ok in H as (o & _ & H). apply rbind_ok in H as (v1 & _ & H).
  apply rbind_ok in H as (v2 & _ & H). apply rbind_ok in H as (v3 & _ & H).
  apply rbind_ok in H as ([c1 d1] & H1 & H). apply rbind_ok in H as ([c2 d2] & H2 & H).
  pose proof (check_call_orders_moves _ _ _ _ _ _ H1 Hok) as M1. then_neutral M1.
  pose proof (check_call_orders_moves _ _ _ _ _ _ H2 (proj1 M1)) as M2. then_neutral M2.
  case_if_in H; [injection H as <- <-; apply moves_refl, M2|].
  apply rbind_ok in H as (o' & _ & H). apply rbind_ok in H as (best & _ & H).
  apply rbind_ok in H as (d3 & H3 & H).
  apply rbind_ok in H as ([c4 d4] & H4 & H). apply rbind_ok in H as ([c5 d5] & H5 & H).
  pose proof (match_book_moves _ _ _ _ H3 (proj1 M2)) as M3. then_neutral M3.
  pose proof (check_call_orders_moves _ _ _ _ _ _ H4 (proj1 M3)) as M4. then_neutral M4.
  pose proof (check_call_orders_moves _ _ _ _ _ _ H5 (proj1 M4)) as M5. then_neutral M5.
  destruct (limit_orders d5 !! id); [eapply cull_moves; [exact H|apply M5]|].
  injection H as <- <-. apply moves_refl, M5.
Qed.

Lemma market_ok_new_limit d id o : market_ok d -> id = next_limit_order d -> limit_ok o ->
  market_ok (set_next_limit_order (id + 1) (set_limit_orders (<[id := o]> (limit_orders d)) d)).
Proof.
  intros [] -> Ho. split; cbn; auto. intros i p Hi.
  destruct (decide (i = next_limit_order d)) as [->|Hn].
  - rewrite lookup_insert_eq in Hi. injection Hi as <-. split; [done|lia].
  - rewrite lookup_insert_ne in Hi by done. destruct (ok_limits0 _ _ Hi). split; [done|lia].
Qed.

Lemma fresh_limit d : market_ok d -> limit_orders d !! next_limit_order d = None.
Proof.
  intros Hok. destruct (limit_orders d !! next_limit_order d) eqn:E; [|done].
  apply (ok_limits _ Hok) in E as [_ ?]. lia.
Qed.
Lemma fresh_call d : market_ok d -> call_orders d !! next_call_order d = None.
Proof.
  intros Hok. destruct (call_orders d !! next_call_order d) eqn:E; [|done].
  apply (ok_calls _ Hok) in E as [_ ?]. lia.
Qed.
Lemma fresh_bid d : market_ok d -> collateral_bids d !! next_bid d = None.
Proof.
  intros Hok. destruct (collateral_bids d !! next_bid d) eqn:E; [|done].
  apply (ok_bid_ids _ Hok) in E. lia.
Qed.

Lemma adjust_neg_moves acc a neg d d' : asset_neg a = Ok neg ->
  adjust_balance acc neg false d = Ok d' -> market_ok d ->
  moves (fun x => 0 - in_asset x a) d d'.
Proof.
  intros Hn H Hok. destruct (adjust_balance_books _ _ _ _ H) as (S & _ & _ & D).
  eapply moves_ext; [apply (exact_moves (fun x => 0 - in_asset x a) neutral d d' S Hok)|].
  - intros x. pose proof (adjust_balance_excess _ _ _ _ _ x H) as [-> _].
    apply asset_neg_value in Hn as [Ei Ea]. unfold neutral.
    rewrite (supply_eq x d d') by (by rewrite D).
    rewrite (in_asset_eta x neg), (in_asset_eta x a), Ei, Ea.
    replace (- amount a) with (0 - amount a) by lia. rewrite in_asset_sub, in_asset_0. lia.
  - intros x. unfold neutral. lia.
Qed.

Lemma statistics_moves acc f d d' : modify_statistics acc f d = Ok d' ->
  market_ok d -> moves neutral d d'.
Proof.
  intros H Hok. apply modify_statistics_inv in H as (s & s' & _ & _ & ->).
  destruct Hok. split; [by split|]. split; [done|]. intros x. unfold neutral, liability, excess.
  change (promised (set_account_statistics _ d)) with (promised d).
  change (total x (set_account_statistics _ d)) with (total x d).
  change (supply x (set_account_statistics _ d)) with (supply x d). lia.
Qed.

Lemma limit_create_moves op d id filled d' :
  limit_create_do_apply op d = Ok (id, filled, d') -> market_ok d ->
  limit_create_validate op = Ok tt -> Share.ok (amount (loc_amount_to_sell op)) ->
  Share.ok (amount (loc_min_to_receive op)) -> moves neutral d d'.
Proof.
  intros H Hok Hv Ra Rm.
  unfold limit_create_validate in Hv. res_inv. bool_to_prop. unfold in_range in Ra, Rm.
  unfold limit_create_do_apply in H.
  apply rbind_ok in H as (d1 & H1 & H). apply rbind_ok in H as (neg & Hn & H).
  apply rbind_ok in H as (d2 & H2 & H). apply rbind_ok in H as (p & Hp & H).
  apply rbind_ok in H as ([f d4] & H4 & H). apply rbind_ok in H as (u & _ & [= <- <- <-]).
  pose proof (statistics_moves _ _ _ _ H1 Hok) as M1. then_neutral M1.
  pose proof (adjust_neg_moves _ _ _ _ _ Hn H2 (proj1 M1)) as M2.
  unfold asset_div in Hp. res_inv. set (o := mk_limit _ _ _ _ _) in H4.
  set (d3 := set_next_limit_order _ _) in H4.
  assert (M3 : moves (fun x => in_asset x (loc_amount_to_sell op)) d2 d3).
  { split; [|split; [done|]].
    - apply market_ok_new_limit; [apply M2|done|].
      split; [cbn; lia|split; cbn; lia|done|cbn; lia].
    - intros x. unfold liability, excess. pose proof (fresh_limit _ (proj1 M2)) as Hf.
      change (supply x d3) with (supply x d2).
      change (total x d3) with (total x (set_limit_orders (<[next_limit_order d2 := o]> (limit_orders d2)) d2)).
      assert (promised d3 = promised d2) as ->.
      { subst d3. unfold promised. cbn [limit_orders set_limit_orders set_next_limit_order].
        rewrite sum_map_insert_new by done. done. }
      rewrite total_set_limit. unfold in_limit_orders at 2 4. rewrite sum_map_insert_new by done.
      fold (in_limit_orders x (limit_orders d2)). unfold amount_for_sale. cbn.
      rewrite <- in_asset_eta. lia. }
  assert (M23 : moves neutral d1 d3)
    by (eapply moves_trans; [exact M2|exact M3|intros x; unfold neutral; lia]).
  then_neutral M23. eapply apply_order_moves; [exact H4|apply M3].
Qed.

Lemma limit_cancel_moves op d r d' :
  limit_cancel_do_apply op d = Ok (r, d') -> market_ok d -> moves neutral d d'.
Proof.
  intros H Hok. unfold limit_cancel_do_apply in H.
  apply rbind_ok in H as (o & _ & H). apply rbind_ok in H as (d1 & H1 & H).
  apply rbind_ok in H as ([c2 d2] & H2 & H). apply rbind_ok in H as ([c3 d3] & H3 & [= <- <-]).
  pose proof (cancel_limit_moves _ _ _ _ H1 Hok) as M1. then_neutral M1.
  pose proof (check_call_orders_moves _ _ _ _ _ _ H2 (proj1 M1)) as M2. then_neutral M2.
  eapply check_call_orders_moves; [exact H3|apply M2].
Qed.

Lemma find_call_some acc x d id c : find_call acc x d = Some (id, c) ->
  call_orders d !! id = Some c /\ borrower c = acc /\ debt_type c = x.
Proof.
  unfold find_call. intros H. apply find_some in H as [Hin H]. cbn in H. bool_to_prop.
  apply list_elem_of_In, elem_of_map_to_list in Hin. done.
Qed.

Lemma find_bid_some acc x d id b : find_bid x acc d = Some (id, b) ->
  collateral_bids d !! id = Some b.
Proof.
  unfold find_bid. intros H. apply find_some in H as [Hin _].
  by apply list_elem_of_In, elem_of_map_to_list in Hin.
Qed.

Lemma call_price_ids de co r p : call_price de co r = Ok p ->
  asset_id (base p) = asset_id co /\ asset_id (quote p) = asset_id de.
Proof. unfold call_price, asset_div. intros H. res_inv. done. Qed.

Lemma call_orders_ok d m n : market_ok d -> next_call_order d <= n ->
  (forall id c, m !! id = Some c -> 0 <= debt c /\ id < n /\
     forall b, bitassets d !! debt_type c = Some b ->
       asset_id (base (co_call_price c)) = short_backing_asset (options b)) ->
  market_ok (set_next_call_order n (set_call_orders m d)).
Proof.
  intros [] Hn Hm. split; cbn; auto.
  - intros id c Hc. destruct (Hm _ _ Hc) as (?&?&?). done.
  - intros id c b Hc. destruct (Hm _ _ Hc) as (_ & _ & Hb). apply Hb.
Qed.

(** Replacing the whole call order book changes the totals by the collateral. *)
Lemma set_calls_moves d m n (delta : Z -> Z) : market_ok d -> next_call_order d <= n ->
  (forall id c, m !! id = Some c -> 0 <= debt c /\ id < n /\
     forall b, bitassets d !! debt_type c = Some b ->
       asset_id (base (co_call_price c)) = short_backing_asset (options b)) ->
  (forall x, in_call_orders x m = in_call_orders x (call_orders d) + delta x) ->
  moves delta d (set_next_call_order n (set_call_orders m d)).
Proof.
  intros Hok Hn Hm Ht. split; [by apply call_orders_ok|]. split; [done|]. intros x. unfold liability, excess.
  change (promised (set_next_call_order n (set_call_orders m d))) with (promised d).
  change (supply x (set_next_call_order n (set_call_orders m d))) with (supply x d).
  change (total x (set_next_call_order n (set_call_orders m d))) with (total x (set_call_orders m d)).
  rewrite total_set_call, Ht. lia.
Qed.

(** What [call_order_update] does to the position it finds or opens. *)
Record position_step (mia : Z) (dc : asset) (d : database) (id : Z) (c : call_order_object)
    (d' : database) : Prop := {
  ps_state : exists n, next_call_order d <= n /\ id < n
    /\ d' = set_next_call_order n (set_call_orders (<[id := c]> (call_orders d)) d);
  ps_debt : debt_type c = mia;
  ps_coll : asset_id (base (co_call_price c)) = asset_id dc;
  ps_total : forall x, in_call_orders x (<[id := c]> (call_orders d))
    = in_call_orders x (call_orders d) + in_asset x dc }.

Lemma position_step_open mia acc dc dd mcr d cp : market_ok d -> asset_id dd = mia ->
  call_price dd dc mcr = Ok cp ->
  let c := mk_call acc (amount dc) (amount dd) cp in
  position_step mia dc d (next_call_order d) c
    (set_next_call_order (next_call_order d + 1)
       (set_call_orders (<[next_call_order d := c]> (call_orders d)) d)).
Proof.
  intros Hok Hm Hp c. apply call_price_ids in Hp as [Eb Eq]. split.
  - exists (next_call_order d + 1). split; [lia|]. split; [lia|done].
  - unfold debt_type. cbn. congruence.
  - done.
  - intros x. unfold in_call_orders. rewrite sum_map_insert_new by (by apply fresh_call).
    unfold get_collateral. cbn. rewrite Eb, <- in_asset_eta. lia.
Qed.

Lemma position_step_update mia dc d id c dbt cp : market_ok d ->
  call_orders d !! id = Some c -> debt_type c = mia ->
  asset_id (base (co_call_price c)) = asset_id dc ->
  asset_id (base cp) = asset_id (base (co_call_price c)) ->
  asset_id (quote cp) = debt_type c ->
  let c' := mk_call (borrower c) (collateral c + amount dc) dbt cp in
  position_step mia dc d id c' (set_call_orders (<[id := c']> (call_orders d)) d).
Proof.
  intros Hok Hc Hm Hdc Eb Eq c'. split.
  - exists (next_call_order d). destruct (ok_calls _ Hok _ _ Hc). done.
  - unfold debt_type. cbn. congruence.
  - cbn. congruence.
  - intros x. rewrite (in_call_insert _ _ _ c) by done. unfold get_collateral. cbn.
    rewrite Eb, in_asset_add, Hdc, <- (in_asset_eta x dc). lia.
Qed.

Lemma position_step_moves mia dc d id c d' b : position_step mia dc d id c d' ->
  market_ok d -> bitassets d !! mia = Some b -> asset_id dc = short_backing_asset (options b) ->
  (0 <= debt c -> moves (fun x => in_asset x dc) d d')
  /\ (collateral c = 0 -> moves (fun x => in_asset x dc) d (set_call_orders (delete id (call_orders d')) d')).
Proof.
  intros [(n & Hn & Hid & ->) Hm Hc Ht] Hok Hb Hbk. split; intros Hd.
  - apply set_calls_moves; [done|done| |done]. intros i p Hi.
    destruct (decide (i = id)) as [->|Hne].
    + rewrite lookup_insert_eq in Hi. injection Hi as <-. split; [done|]. split; [done|].
      rewrite Hm, Hb. intros b' [= <-]. congruence.
    + rewrite lookup_insert_ne in Hi by done. destruct (ok_calls _ Hok _ _ Hi). split; [done|].
      split; [lia|]. intros b' Hb'. by eapply ok_call_backing.
  - change (set_call_orders (delete id _) _) with (set_next_call_order n
      (set_call_orders (delete id (<[id := c]> (call_orders d))) d)).
    apply set_calls_moves; [done|done| |].
    + intros i p Hi. apply lookup_delete_Some in Hi as [Hne Hi]. rewrite lookup_insert_ne in Hi by done.
      destruct (ok_calls _ Hok _ _ Hi). split; [done|].
      split; [lia|]. intros b' Hb'. by eapply ok_call_backing.
    + intros x. rewrite (in_call_delete _ _ _ c) by apply lookup_insert_eq. rewrite Ht.
      unfold get_collateral. rewrite Hd, in_asset_0. lia.
Qed.

(** Issued or burnt units are recorded in the supply. *)
Lemma issue_debt_moves acc dd d d' :
  (if negb (amount dd =? 0) then
     let* d := adjust_balance acc dd false d in
     modify_dynamic_data (asset_id dd)
       (fun x => let* s := Share.add (current_supply x) (amount dd) in
                 Ok (mk_dyn s (accumulated_fees x))) d
   else Ok d) = Ok d' -> market_ok d -> moves neutral d d' /\ bitassets d' = bitassets d.
Proof.
  intros H Hok. case_if_in H; [|injection H as <-; split; [by apply moves_refl|done]].
  apply rbind_ok in H as (d1 & H1 & H).
  destruct (adjust_balance_books _ _ _ _ H1) as (S1 & _ & _ & D1).
  apply modify_dynamic_data_inv in H as (x & x' & Hx & Hf & ->).
  apply rbind_ok in Hf as (s & Hs & [= <-]). apply Share.add_value in Hs as ->.
  split; [|cbn; apply (sb_bitassets _ _ S1)].
  eapply moves_ext; [apply (exact_moves (fun x => in_asset x dd) (fun x => in_asset x dd) d)|].
  - destruct S1. by split.
  - done.
  - intros y. cbv beta. split.
    + rewrite total_set_dyn, (in_fees_insert _ _ _ x) by done. cbn [accumulated_fees].
      rewrite Z.sub_diag, in_asset_0. pose proof (adjust_balance_excess _ _ _ _ _ y H1) as [-> _]. lia.
    + rewrite (supply_set_dyn y _ x) by done. cbn [current_supply].
      pose proof (adjust_balance_excess _ _ _ _ _ y H1) as [_ ->].
      replace (current_supply x + amount dd - current_supply x) with (amount dd) by lia.
      by rewrite <- in_asset_eta.
  - intros y. unfold neutral. lia.
Qed.

Lemma pledge_moves acc dc d d' :
  (if negb (amount dc =? 0) then
     let* neg := asset_neg dc in
     let* d := adjust_balance acc neg false d in
     if asset_id dc =? CORE then modify_statistics acc (fun s => Share.add s (amount dc)) d else Ok d
   else Ok d) = Ok d' -> market_ok d ->
  moves (fun x => 0 - in_asset x dc) d d' /\ bitassets d' = bitassets d.
Proof.
  intros H Hok. case_if_in H; bool_to_prop.
  - apply rbind_ok in H as (neg & Hn & H). apply rbind_ok in H as (d1 & H1 & H).
    pose proof (adjust_neg_moves _ _ _ _ _ Hn H1 Hok) as M1.
    destruct (adjust_balance_books _ _ _ _ H1) as (S1 & _ & _ & _).
    case_if_in H.
    + pose proof (statistics_moves _ _ _ _ H (proj1 M1)) as M2. split.
      * eapply moves_trans; [exact M1|exact M2|]. intros x. unfold neutral. lia.
      * apply modify_statistics_inv in H as (s & s' & _ & _ & ->). cbn. apply (sb_bitassets _ _ S1).
    + injection H as <-. split; [done|apply (sb_bitassets _ _ S1)].
  - injection H as <-. split; [|done]. eapply moves_ext; [by apply moves_refl|].
    intros x. rewrite (in_asset_eta x dc), Hif, in_asset_0. done.
Qed.

Lemma call_update_moves op d d' :
  call_update_do_apply op d = Ok d' -> market_ok d ->
  (forall b, bitassets d !! asset_id (cou_delta_debt op) = Some b ->
     asset_id (cou_delta_collateral op) = short_backing_asset (options b)) ->
  moves neutral d d'.
Proof.
  intros H Hok Hbk. unfold call_update_do_apply in H.
  apply rbind_ok in H as (d1 & H1 & H). apply rbind_ok in H as (d2 & H2 & H).
  destruct (issue_debt_moves _ _ _ _ H1 Hok) as [M1 E1].
  destruct (pledge_moves _ _ _ _ H2 (proj1 M1)) as [M2 E2].
  apply rbind_ok in H as (b & Hb & H). unfold get_bitasset, get_or in Hb.
  destruct (bitassets d2 !! asset_id (cou_delta_debt op)) as [b'|] eqn:Eb; [|done]. injection Hb as ->.
  pose proof Eb as Eb0. rewrite E2, E1 in Eb0. apply Hbk in Eb0 as Edc.
  apply rbind_ok in H as ([[id c] d3] & H3 & H). pose proof (proj1 M2) as Hok2.
  assert (PS : position_step (asset_id (cou_delta_debt op)) (cou_delta_collateral op) d2 id c d3).
  { destruct (find_call _ _ d2) as [[i o]|] eqn:Ef.
    - apply find_call_some in Ef as (Ho & _ & Hdt).
      apply rbind_ok in H3 as (coll & Hcoll & H3). apply rbind_ok in H3 as (dbt & Hdbt & H3).
      apply rbind_ok in H3 as (cp & Hcp & [= <- <- <-]).
      apply Share.add_value in Hcoll as ->.
      assert (Hbo : asset_id (base (co_call_price o)) = asset_id (cou_delta_collateral op)).
      { rewrite Edc. eapply ok_call_backing; [exact Hok2|exact Ho|by rewrite Hdt]. }
      assert (Hcp' : asset_id (base cp) = asset_id (base (co_call_price o))
        /\ asset_id (quote cp) = debt_type o).
      { case_if_in Hcp; [|by injection Hcp as <-]. by apply call_price_ids in Hcp. }
      destruct Hcp'. by apply position_step_update.
    - apply rbind_ok in H3 as (u1 & _ & H3). apply rbind_ok in H3 as (u2 & _ & H3).
      apply rbind_ok in H3 as (cp & Hcp & [= <- <- <-]). by eapply position_step_open. }
  destruct (position_step_moves _ _ _ _ _ _ _ PS Hok2 Eb Edc) as [Mk Md].
  then_neutral M1.
  assert (Hjoin : forall d4, moves (fun x => in_asset x (cou_delta_collateral op)) d2 d4 ->
    moves neutral d1 d4)
    by (intros d4 M; eapply moves_trans; [exact M2|exact M|intros x; unfold neutral; lia]).
  case_if_in H; bool_to_prop.
  - apply rbind_ok in H as (u & Hu & [= <-]). unfold fc_assert in Hu. case_if_in Hu; [|done].
    bool_to_prop. by apply Hjoin, Md.
  - apply rbind_ok in H as (u & Hu & H). unfold fc_assert in Hu. case_if_in Hu; [|done]. bool_to_prop.
    apply rbind_ok in H as ([called d4] & Hcall & H).
    pose proof (Hjoin _ (Mk ltac:(lia))) as M3. then_neutral M3.
    pose proof (check_call_orders_moves _ _ _ _ _ _ Hcall (proj1 M3)) as M4.
    replace d' with d4; [done|]. case_if_in H.
    + apply rbind_ok in H as (u2 & _ & [= <-]). done.
    + apply rbind_ok in H as (c5 & _ & H). apply rbind_ok in H as (b5 & _ & H).
      apply rbind_ok in H as (u5 & _ & [= <-]). done.
Qed.

(** ** Collateral bids *)

Lemma bids_moves d m n (delta : Z -> Z) : market_ok d -> next_bid d <= n ->
  (forall id c, m !! id = Some c -> id < n /\
     forall b, bitassets d !! asset_id (quote (inv_swan_price c)) = Some b ->
       asset_id (base (inv_swan_price c)) = short_backing_asset (options b)) ->
  (forall x, in_bids x m = in_bids x (collateral_bids d) + delta x) ->
  moves delta d (set_next_bid n (set_collateral_bids m d)).
Proof.
  intros Hok Hn Hm Ht. split; [|split; [done|]].
  - destruct Hok. split; cbn; auto.
    + intros id c Hc. apply (Hm _ _ Hc).
    + intros id c b Hc. apply (Hm _ _ Hc).
  - intros x. unfold liability, excess.
    change (promised (set_next_bid n (set_collateral_bids m d))) with (promised d).
    change (supply x (set_next_bid n (set_collateral_bids m d))) with (supply x d).
    change (total x (set_next_bid n (set_collateral_bids m d))) with (total x (set_collateral_bids m d)).
    rewrite total_set_bids, Ht. lia.
Qed.

Lemma delete_bid_moves d id b : market_ok d -> collateral_bids d !! id = Some b ->
  moves (fun x => 0 - in_asset x (base (inv_swan_price b))) d
    (set_collateral_bids (delete id (collateral_bids d)) d).
Proof.
  intros Hok Hb. change (set_collateral_bids (delete id (collateral_bids d)) d)
    with (set_next_bid (next_bid d) (set_collateral_bids (delete id (collateral_bids d)) d)).
  apply bids_moves; [done|lia| |].
  - intros i c Hc. apply lookup_delete_Some in Hc as [_ Hc]. split; [by eapply ok_bid_ids|].
    intros b' Hb'. by eapply ok_bid_backing.
  - intros x. rewrite (in_bids_delete _ _ _ b) by done. lia.
Qed.

Lemma push_op_moves o d : market_ok d -> moves neutral d (push_op o d).
Proof.
  intros Hok. split; [by destruct Hok|]. split; [done|]. intros x. unfold neutral, liability, excess.
  change (promised (push_op o d)) with (promised d). change (total x (push_op o d)) with (total x d).
  change (supply x (push_op o d)) with (supply x d). lia.
Qed.

Lemma credit_moves acc a d d' : adjust_balance acc a false d = Ok d' -> market_ok d ->
  moves (fun x => in_asset x a) d d'.
Proof.
  intros H Hok. destruct (adjust_balance_books _ _ _ _ H) as (S & _ & _ & _).
  eapply moves_ext; [apply (exact_moves (fun x => in_asset x a) neutral d d' S Hok)|].
  - intros x. pose proof (adjust_balance_excess _ _ _ _ _ x H) as [-> ->]. unfold neutral. lia.
  - intros x. unfold neutral. lia.
Qed.

Lemma cancel_bid_moves id vop d d' : cancel_bid id vop d = Ok d' -> market_ok d ->
  moves neutral d d' /\ bitassets d' = bitassets d.
Proof.
  intros H Hok. unfold cancel_bid, deref_bid, get_or in H.
  destruct (collateral_bids d !! id) as [b|] eqn:Eb; cbn [rbind] in H; [|done].
  apply rbind_ok in H as (d1 & H1 & H). injection H as <-.
  destruct (adjust_balance_books _ _ _ _ H1) as (S1 & _ & _ & _).
  pose proof (credit_moves _ _ _ _ H1 Hok) as M1.
  set (d2 := if vop then _ else _).
  assert (M2 : moves neutral d1 d2)
    by (subst d2; destruct vop; [apply push_op_moves|apply moves_refl]; apply M1).
  assert (E2 : collateral_bids d2 = collateral_bids d /\ bitassets d2 = bitassets d).
  { rewrite <- (sb_bids _ _ S1), <- (sb_bitassets _ _ S1). by subst d2; destruct vop. }
  destruct E2 as [Ebd Ebt]. split; [|done].
  eapply moves_trans; [exact M1| |].
  - eapply moves_trans; [exact M2|apply (delete_bid_moves d2 id b); [apply M2|by rewrite Ebd]|].
    intros x. reflexivity.
  - intros x. unfold neutral. lia.
Qed.

Lemma create_bid_moves b d id d' : create_bid b d = Ok (id, d') -> market_ok d ->
  (forall bt, bitassets d !! asset_id (quote (inv_swan_price b)) = Some bt ->
     asset_id (base (inv_swan_price b)) = short_backing_asset (options bt)) ->
  moves (fun x => in_asset x (base (inv_swan_price b))) d d' /\ bitassets d' = bitassets d
  /\ collateral_bids d' !! id = Some b /\ call_orders d' = call_orders d.
Proof.
  unfold create_bid. intros H Hok Hb. apply rbind_ok in H as (u & _ & [= <- <-]).
  split; [|split; [done|split; [apply lookup_insert_eq|done]]]. apply bids_moves; [done|lia| |].
  - intros i c Hc. destruct (decide (i = next_bid d)) as [->|Hn].
    + rewrite lookup_insert_eq in Hc. injection Hc as <-. split; [lia|done].
    + rewrite lookup_insert_ne in Hc by done. split; [apply (ok_bid_ids _ Hok) in Hc; lia|].
      intros bt Hbt. by eapply ok_bid_backing.
  - intros x. unfold in_bids. rewrite sum_map_insert_new by (by apply fresh_bid). lia.
Qed.

Lemma bid_apply_moves op old d r d' :
  bid_do_apply op old d = Ok (r, d') -> market_ok d ->
  (forall b, bitassets d !! asset_id (bo_debt_covered op) = Some b ->
     asset_id (bo_additional_collateral op) = short_backing_asset (options b)) ->
  moves neutral d d'.
Proof.
  intros H Hok Hbk. unfold bid_do_apply in H.
  assert (Hpl : forall d0, place_bid op d0 = Ok (r, d') -> market_ok d0 -> bitassets d0 = bitassets d ->
    moves neutral d0 d').
  { intros d0 Hp Hok0 E0. unfold place_bid in Hp. apply rbind_ok in Hp as (u & _ & Hp).
    apply rbind_ok in Hp as (neg & Hn & Hp). apply rbind_ok in Hp as (d1 & H1 & Hp).
    apply rbind_ok in Hp as (p & Hdiv & Hp). unfold asset_div in Hdiv.
    apply rbind_ok in Hdiv as (u1 & _ & [= <-]).
    pose proof (adjust_neg_moves _ _ _ _ _ Hn H1 Hok0) as M1.
    destruct (adjust_balance_books _ _ _ _ H1) as (S1 & _ & _ & _).
    eapply create_bid_moves in Hp as (M2 & _);
      [|apply M1|cbn; rewrite (sb_bitassets _ _ S1), E0; done].
    eapply moves_trans; [exact M1|exact M2|]. intros x. cbn. unfold neutral. lia. }
  destruct old as [id|]; [|by apply Hpl].
  apply rbind_ok in H as (d1 & H1 & H).
  destruct (cancel_bid_moves _ _ _ _ H1 Hok) as [M1 E1]. then_neutral M1.
  case_if_in H; [injection H as <- <-; apply moves_refl, M1|]. apply Hpl; [done|apply M1|done].
Qed.

(** A successful bid becomes a margin position that also takes over collateral of
    the settlement fund. *)
Lemma execute_bid_moves id cov fund feed d d' b :
  execute_bid id cov fund feed d = Ok d' -> market_ok d -> 0 <= cov ->
  collateral_bids d !! id = Some b ->
  moves (fun x => in_asset x (mk_asset fund (asset_id (base (inv_swan_price b))))) d d'
  /\ bitassets d' = bitassets d.
Proof.
  intros H Hok Hcov Hb. unfold execute_bid, deref_bid, get_or in H. rewrite Hb in H. cbn [rbind] in H.
  apply rbind_ok in H as (coll & Hc & H). apply Share.add_value in Hc as ->.
  apply rbind_ok in H as (cp & Hcp & H). apply call_price_ids in Hcp as [Eb Eq]. cbn in Eb, Eq.
  apply rbind_ok in H as (u & _ & H). apply rbind_ok in H as (d2 & H2 & [= <-]).
  set (c := mk_call _ _ _ _) in H2. set (d1 := set_next_call_order _ _) in H2.
  assert (M1 : moves (fun x => in_asset x (get_collateral c)) d d1).
  { apply set_calls_moves; [done|lia| |].
    - intros i p Hi. destruct (decide (i = next_call_order d)) as [->|Hn].
      + rewrite lookup_insert_eq in Hi. injection Hi as <-. split; [done|]. split; [lia|].
        unfold debt_type. cbn. rewrite Eb, Eq. intros bt Hbt. by eapply ok_bid_backing.
      + rewrite lookup_insert_ne in Hi by done. destruct (ok_calls _ Hok _ _ Hi). split; [done|].
        split; [lia|]. intros bt Hbt. by eapply ok_call_backing.
    - intros x. unfold in_call_orders. rewrite sum_map_insert_new by (by apply fresh_call). lia. }
  assert (M2 : moves neutral d1 d2 /\ collateral_bids d2 = collateral_bids d
    /\ bitassets d2 = bitassets d).
  { case_if_in H2; [|injection H2 as <-; split; [apply moves_refl, M1|done]].
    split; [eapply statistics_moves; [exact H2|apply M1]|].
    by apply modify_statistics_inv in H2 as (s & s' & _ & _ & ->). }
  destruct M2 as (M2 & Ebd & Ebt). split; [|exact Ebt].
  eapply moves_trans; [exact M1| |].
  - eapply moves_trans; [exact M2| |intros x; reflexivity].
    set (d3 := push_op _ d2). pose proof (push_op_moves _ d2 (proj1 M2) : moves neutral d2 d3) as M3.
    eapply moves_trans; [exact M3| |intros x; reflexivity].
    apply (delete_bid_moves d3 id b); [apply M3|]. cbn. by rewrite Ebd.
  - intros x. unfold neutral. cbv beta. unfold get_collateral. cbn [collateral co_call_price c].
    rewrite Eb, in_asset_add, <- in_asset_eta. lia.
Qed.

Lemma cancel_bids_moves ids : forall d d', cancel_bids ids d = Ok d' -> market_ok d ->
  moves neutral d d' /\ bitassets d' = bitassets d.
Proof.
  induction ids as [|id ids IH]; cbn; intros d d' H Hok.
  - injection H as <-. split; [by apply moves_refl|done].
  - apply rbind_ok in H as (d1 & H1 & H). destruct (cancel_bid_moves _ _ _ _ H1 Hok) as [M1 E1].
    destruct (IH _ _ H (proj1 M1)) as [M2 E2]. split; [|congruence]. by then_neutral M1.
Qed.

(** Reviving a settled asset moves its fund: on its own it drops it. *)
Lemma cancel_bids_revive_moves mia d d' b :
  cancel_bids_and_revive_mpa mia d = Ok d' -> market_ok d -> bitassets d !! mia = Some b ->
  moves (fun x => 0 - in_asset x (mk_asset (settlement_fund b) (short_backing_asset (options b)))) d d'.
Proof.
  intros H Hok Hb. unfold cancel_bids_and_revive_mpa, get_bitasset, get_or in H.
  apply rbind_ok in H as (a & _ & H). apply rbind_ok in H as (u & _ & H).
  rewrite Hb in H. cbn [rbind] in H. apply rbind_ok in H as (u2 & _ & H).
  apply rbind_ok in H as (first & _ & H). apply rbind_ok in H as (d1 & H1 & H).
  destruct (cancel_bids_moves _ _ _ H1 Hok) as [M1 E1]. rewrite E1, Hb in H.
  cbn [rbind] in H. injection H as <-. eapply moves_trans; [exact M1| |intros x; reflexivity].
  set (b' := mk_bitasset _ _ _ _ _ _ _). rewrite <- E1. split; [|split; [done|]].
  - eapply (bitasset_ok mia b b' (dynamic_data d1) d1); [apply M1|by rewrite E1|done|done|done].
  - intros x. unfold liability, excess.
    change (promised (set_bitassets _ d1)) with (promised d1).
    change (supply x (set_bitassets _ d1)) with (supply x d1).
    rewrite total_set_bitassets, (in_funds_insert _ _ _ b) by (by rewrite E1).
    cbn [settlement_fund options b']. rewrite in_asset_0. lia.
Qed.

Lemma revive_moves mia d d' : revive_bitasset mia d = Ok d' -> market_ok d -> moves neutral d d'.
Proof.
  intros H Hok. unfold revive_bitasset, bitasset_data, get_bitasset, get_or in H.
  apply rbind_ok in H as (a & _ & H). apply rbind_ok in H as (u & _ & H).
  apply rbind_ok in H as (b & Hb & H). apply rbind_ok in Hb as (u2 & _ & Hb).
  destruct (bitassets d !! mia) as [b'|] eqn:Eb; [|done]. injection Hb as ->.
  apply rbind_ok in H as (u3 & _ & H). apply rbind_ok in H as (dd & _ & H).
  apply rbind_ok in H as (u4 & _ & H). apply rbind_ok in H as (d1 & H1 & H).
  set (fund := mk_asset (settlement_fund b) (short_backing_asset (options b))).
  assert (M1 : moves (fun x => in_asset x fund) d d1 /\ bitassets d1 = bitassets d).
  { case_if_in H1; bool_to_prop.
    - apply rbind_ok in H1 as (p & Hp & H1). unfold asset_div in Hp.
      apply rbind_ok in Hp as (u5 & _ & [= <-]).
      apply rbind_ok in H1 as ([id d2] & Hc & H1).
      apply create_bid_moves in Hc as (M0 & E0 & Hbid & _);
        [|done|cbn; intros bt Hbt; by rewrite Eb in Hbt; injection Hbt as <-].
      destruct (execute_bid_moves _ _ _ _ _ _ _ H1 (proj1 M0) ltac:(lia) Hbid) as [M2 E2].
      split; [|congruence]. eapply moves_trans; [exact M0|exact M2|].
      intros x. cbn. rewrite in_asset_0. done.
    - apply rbind_ok in H1 as (u5 & Hu & [= <-]). unfold fc_assert in Hu. case_if_in Hu; [|done].
      bool_to_prop. split; [|done]. eapply moves_ext; [by apply moves_refl|].
      intros x. unfold fund. rewrite Hif0, in_asset_0. done. }
  destruct M1 as [M1 E1]. eapply moves_trans; [exact M1|
    eapply cancel_bids_revive_moves; [exact H|apply M1|by rewrite E1]|].
  intros x. unfold fund, neutral. lia.
Qed.

(** ** Reporting of filled orders *)

Lemma fill_limit_reports id pays receives cull fp mk d filled d' :
  fill_limit_order id pays receives cull fp mk d = Ok (filled, d') ->
  (filled = true <-> limit_orders d' !! id = None)
  /\ forall o, limit_orders d !! id = Some o -> pays = amount_for_sale o -> filled = true.
Proof.
  intros H. unfold fill_limit_order in H.
  apply rbind_ok in H as (o & Ho & H). apply deref_limit_inv in Ho.
  apply rbind_ok in H as (u1 & _ & H). apply rbind_ok in H as (u2 & _ & H).
  apply rbind_ok in H as (ac & _ & H). apply rbind_ok in H as ([fee d1] & _ & H).
  apply rbind_ok in H as (net & _ & H). apply rbind_ok in H as (d2 & _ & H).
  case_if_in H.
  - injection H as <- <-. split; [|done]. cbn. by rewrite lookup_delete_eq.
  - split; [|intros o' Ho' ->; rewrite Ho in Ho'; injection Ho' as <-;
      exfalso; by rewrite (proj2 (asset_eqb_eq _ _) eq_refl) in Hif].
    apply rbind_ok in H as (rest & _ & H).
    set (d3 := set_limit_orders _ _) in H.
    assert (H3 : limit_orders d3 !! id <> None) by (subst d3; cbn; by rewrite lookup_insert_eq).
    case_if_in H; [|injection H as <- <-; split; done].
    unfold maybe_cull_small_order in H. apply rbind_ok in H as (o2 & _ & H).
    apply rbind_ok in H as (r & _ & H). case_if_in H.
    + apply rbind_ok in H as (d4 & Hc & [= <- <-]).
      apply cancel_limit_exact in Hc as (o4 & d5 & _ & _ & _ & _ & _ & -> & _). cbn.
      by rewrite lookup_delete_eq.
    + injection H as <- <-. split; done.
Qed.

(** ** The margin call loop ends *)

Lemma call_loop_fuel fuel : forall mia en fn limits calls fl mc d,
  (length limits + length calls < fuel)%nat ->
  exists r, forall fuel', (fuel <= fuel')%nat ->
    call_loop fuel' mia en fn limits calls fl mc d = Some r.
Proof.
  induction fuel as [|fuel IH]; intros mia en fn limits calls fl mc d Hl; [lia|].
  assert (Hstop : forall r, call_loop (S fuel) mia en fn limits calls fl mc d = Some r ->
    (forall f1, call_loop (S f1) mia en fn limits calls fl mc d = Some r) ->
    exists r, forall fuel', (S fuel <= fuel')%nat ->
      call_loop fuel' mia en fn limits calls fl mc d = Some r).
  { intros r _ Hall. exists r. intros [|f'] Hf; [lia|]. apply Hall. }
  cbn [call_loop] in Hstop |- *.
  destruct (check_for_blackswan mia en d) as [[swan d0]|] eqn:Eb; [|by eapply Hstop].
  destruct swan; [by eapply Hstop|]. destruct calls as [|cid calls]; [by eapply Hstop|].
  destruct limits as [|lid limits]; [by eapply Hstop|].
  match goal with H : forall r, match ?m with _ => _ end = Some r -> _ |- _ => destruct m as [[x|[[fl' fc] d2]]|] eqn:Es end;
    [by eapply Hstop| |by eapply Hstop].
  assert (Hp : fc || fl' = true).
  { clear Hstop. unfold rbind at 1 in Es. destruct (deref_limit lid d0); [|done].
    apply rbind_ok in Es as (v1 & _ & Es). apply rbind_ok in Es as (v2 & _ & Es).
    apply rbind_ok in Es as (v3 & _ & Es). case_if_in Es; [done|].
    apply rbind_ok in Es as (v4 & _ & Es). apply rbind_ok in Es as (v5 & _ & Es).
    case_if_in Es; [apply rbind_ok in Es as (v6 & _ & Es); by apply rbind_ok in Es as (v7 & _ & Es)|].
    apply rbind_ok in Es as (v6 & _ & Es). apply rbind_ok in Es as (v7 & _ & Es).
    apply rbind_ok in Es as (v8 & Hv & Es). unfold fc_assert in Hv. case_if_in Hv; [|done].
    apply rbind_ok in Es as ([f1 d1] & _ & Es). apply rbind_ok in Es as ([f2 d3] & _ & [= <- <- <-]).
    done. }
  destruct (IH mia en fn (if fl' then limits else lid :: limits)
    (if fc then calls else cid :: calls) fl' true d2) as [r Hr].
  { cbn in Hl. destruct fl', fc; cbn; try done; lia. }
  exists r. intros [|f'] Hf; [lia|]. cbn [call_loop]. rewrite Eb, Es. apply Hr. lia.
Qed.
