(* ===== verification/MarketSpec.v ===== *)
(** * What the market promises

    The market operations run as the evaluators run them (validation, evaluation,
    application), and the theorems about them: conservation of value, the bits the
    matcher reports, the market fee, termination of the margin call loop, and two
    ways the code departs from its intent. *)

From S2P Require Import Prelude SafeInt Asset Vesting State Ledger Market MarketProofs.

(** ** Sequences of market operations *)

Inductive market_op :=
| mo_limit_create (op : limit_order_create_operation)
| mo_limit_cancel (op : limit_order_cancel_operation)
| mo_call_update (op : call_order_update_operation)
| mo_bid (op : bid_collateral_operation)
| mo_match_settle (call settle : Z) (match_price : price) (max_settlement : asset)
| mo_check_calls (mia : Z)
| mo_global_settle (mia : Z) (settle_price : price)
| mo_revive (mia : Z).

Definition run_market_op (op : market_op) (d : database) : result database :=
  match op with
  | mo_limit_create op =>
      let* _ := limit_create_validate op in
      let* _ := limit_create_do_evaluate op d in
      let* (_, d) := limit_create_do_apply op d in Ok d
  | mo_limit_cancel op =>
      let* _ := limit_cancel_do_evaluate op d in
      let* (_, d) := limit_cancel_do_apply op d in Ok d
  | mo_call_update op =>
      let* _ := call_update_validate op in
      let* _ := call_update_do_evaluate op d in
      call_update_do_apply op d
  | mo_bid op =>
      let* _ := bid_validate op in
      let* old := bid_do_evaluate op d in
      let* (_, d) := bid_do_apply op old d in Ok d
  | mo_match_settle c s p mx => let* (_, d) := match_settle c s p mx d in Ok d
  | mo_check_calls mia => let* (_, d) := check_call_orders mia true false d in Ok d
  | mo_global_settle mia p => globally_settle_asset mia p d
  | mo_revive mia => revive_bitasset mia d
  end.

(** An operation that throws leaves the state as it was: its changes are undone.  An
    operation whose behaviour is undefined has no state after it; a run is then what the
    other operations do, and the theorems are of use up to there. *)
Definition try_market_op (op : market_op) (d : database) : database :=
  match run_market_op op d with
  | Ok d' => d'
  | Err _ => d
  end.

Definition run_market (ops : list market_op) (d : database) : database :=
  foldl (fun d op => try_market_op op d) d ops.

(** Amounts of an operation are [share_type] values. *)
Definition market_op_ok (op : market_op) : Prop :=
  match op with
  | mo_limit_create op =>
      Share.ok (amount (loc_amount_to_sell op)) /\ Share.ok (amount (loc_min_to_receive op))
  | _ => True
  end.

Lemma backing_of_evaluation mia a d b : bitasset_data mia a d = Ok b -> bitassets d !! mia = Some b.
Proof.
  unfold bitasset_data, get_bitasset. intros H. apply rbind_ok in H as (u & _ & H). by res_inv.
Qed.

Lemma call_update_backing op d : call_update_do_evaluate op d = Ok tt ->
  forall b, bitassets d !! asset_id (cou_delta_debt op) = Some b ->
  asset_id (cou_delta_collateral op) = short_backing_asset (options b).
Proof.
  intros H b Hb. unfold call_update_do_evaluate in H.
  apply rbind_ok in H as (ac & _ & H). apply rbind_ok in H as (a & _ & H).
  apply rbind_ok in H as (u & _ & H). apply rbind_ok in H as (b' & Hb' & H).
  apply backing_of_evaluation in Hb'. rewrite Hb in Hb'. injection Hb' as <-.
  apply rbind_ok in H as (u2 & _ & H). apply rbind_ok in H as (u3 & Hc & _).
  unfold fc_assert in Hc. case_if_in Hc; [|done]. by bool_to_prop.
Qed.

Lemma bid_backing op d old : bid_do_evaluate op d = Ok old ->
  forall b, bitassets d !! asset_id (bo_debt_covered op) = Some b ->
  asset_id (bo_additional_collateral op) = short_backing_asset (options b).
Proof.
  intros H b Hb. unfold bid_do_evaluate in H.
  apply rbind_ok in H as (ac & _ & H). apply rbind_ok in H as (a & _ & H).
  apply rbind_ok in H as (u & _ & H). apply rbind_ok in H as (b' & Hb' & H).
  apply backing_of_evaluation in Hb'. rewrite Hb in Hb'. injection Hb' as <-.
  apply rbind_ok in H as (u2 & _ & H). apply rbind_ok in H as (u3 & Hc & _).
  unfold fc_assert in Hc. case_if_in Hc; [|done]. by bool_to_prop.
Qed.

Lemma try_market_op_moves op d : market_ok d -> market_op_ok op -> moves neutral d (try_market_op op d).
Proof.
  intros Hok Hop. unfold try_market_op.
  destruct (run_market_op op d) as [d'|] eqn:H; [|by apply moves_refl].
  destruct op; cbn [run_market_op] in H.
  - apply rbind_ok in H as ([] & Hv & H). apply rbind_ok in H as (u & _ & H).
    apply rbind_ok in H as ([[id f] d1] & H & [= <-]). destruct Hop. by eapply limit_create_moves.
  - apply rbind_ok in H as (u & _ & H). apply rbind_ok in H as ([r d1] & H & [= <-]).
    by eapply limit_cancel_moves.
  - apply rbind_ok in H as (u & _ & H). apply rbind_ok in H as ([] & He & H).
    eapply call_update_moves; [done|done|by apply call_update_backing].
  - apply rbind_ok in H as (u & _ & H). apply rbind_ok in H as (old & He & H).
    apply rbind_ok in H as ([r d1] & H & [= <-]).
    eapply bid_apply_moves; [done|done|by eapply bid_backing].
  - apply rbind_ok in H as ([r d1] & H & [= <-]). by eapply match_settle_moves.
  - apply rbind_ok in H as ([r d1] & H & [= <-]). by eapply check_call_orders_moves.
  - by eapply globally_settle_moves.
  - by eapply revive_moves.
Qed.

(** ** Properties *)

(** C2: market operations keep the market invariant and conserve value: orders,
    fills, margin calls, settlements and bids move units between the books and the
    balances, and only the core asset can gain units, by no more than the deferred
    fees of the orders that left the book.  No balance becomes negative. *)
Theorem market_conservation (ops : list market_op) (d : database)
    (Hok : market_ok d) (Hops : Forall market_op_ok ops) :
  market_ok (run_market ops d) /\
  (forall x, x <> CORE -> excess x (run_market ops d) = excess x d) /\
  excess CORE d <= excess CORE (run_market ops d)
    <= excess CORE d + promised d - promised (run_market ops d) /\
  (balances_nonneg d -> balances_nonneg (run_market ops d)).
Proof.
  assert (M : moves neutral d (run_market ops d)).
  { revert d Hok. induction Hops as [|op ops Hop _ IH]; intros d Hok; cbn; [by apply moves_refl|].
    pose proof (try_market_op_moves op d Hok Hop) as M1. then_neutral M1. apply IH, M1. }
  destruct M as (Hok' & F & M). split; [done|]. split; [|split; [|apply F]].
  - intros x Hx. specialize (M x). unfold neutral, liability in M.
    rewrite (proj2 (Z.eqb_neq _ _) Hx) in M. lia.
  - specialize (M CORE). unfold neutral, liability in M. rewrite Z.eqb_refl in M. lia.
Qed.

(** A market with the core asset and one asset backed by it: account 1 and 2 owe
    100 units each, account 3 holds units to sell. *)
Definition demo_asset (mi : bool) : asset_object :=
  mk_asset_object (if mi then "USD" else "CORE") 5 9
    (mk_asset_options 1000000 100 50 1 1 None "a token") mi.
Definition demo_feed : price_feed :=
  mk_price_feed (mk_price (mk_asset 1 5) (mk_asset 1 0)) 1750 1500.
Definition demo_bitasset : asset_bitasset_data :=
  mk_bitasset (mk_bitasset_options 86400 1 3600 0 2000 0) [] demo_feed 0 0 null_price 0.
Definition demo_call (acc : Z) : call_order_object :=
  mk_call acc 150 100 (mk_price (mk_asset 6 0) (mk_asset 7 5)).
Definition demo_account : account_object := basic_account ∅ None.
Definition demo_market : database :=
  mk_db (list_to_map [(1, demo_account); (2, demo_account); (3, demo_account); (9, demo_account)])
    (list_to_map [((3, 5), 200); ((1, 0), 1000)])
    (list_to_map [(1, 150); (2, 150); (3, 0); (9, 0)])
    (list_to_map [(0, demo_asset false); (5, demo_asset true)]) 6
    (list_to_map [(0, mk_dyn 1300 0); (5, mk_dyn 200 0)])
    (list_to_map [(5, demo_bitasset)])
    ∅ ∅ 0 (list_to_map [(0, demo_call 1); (1, demo_call 2)]) 2 ∅ 0 ∅ 0 ∅ 0 ∅ 0 ∅ empty_governance empty_nh 100 [].

Lemma demo_market_ok : market_ok demo_market.
Proof.
  split; cbn [assets limit_orders bitassets call_orders collateral_bids demo_market next_call_order].
  - intros x a H. apply elem_of_list_to_map_2 in H.
    rewrite !elem_of_cons, elem_of_nil in H. destruct H as [H|[H|[]]]; injection H as -> ->; cbn; lia.
  - intros x b H. apply elem_of_list_to_map_2, list_elem_of_singleton in H. by injection H as -> ->.
  - intros x b H Hs. apply elem_of_list_to_map_2, list_elem_of_singleton in H. by injection H as -> ->.
  - intros id o H. by rewrite lookup_empty in H.
  - intros id o H. apply elem_of_list_to_map_2 in H.
    rewrite !elem_of_cons, elem_of_nil in H. destruct H as [H|[H|[]]]; injection H as -> ->; cbn; lia.
  - intros id o H. by rewrite lookup_empty in H.
  - intros id c b H Hb. apply elem_of_list_to_map_2 in H, Hb. apply list_elem_of_singleton in Hb.
    injection Hb as _ ->.
    rewrite !elem_of_cons, elem_of_nil in H. destruct H as [H|[H|[]]]; by injection H as -> ->.
  - intros id o b H. by rewrite lookup_empty in H.
Qed.

(** Selling 60 units fills against the first margin position; the next order rests;
    its cancellation and a new position follow. *)
Definition demo_ops : list market_op :=
  [mo_limit_create (mk_loc 3 (mk_asset 60 5) (mk_asset 55 0) 200 false);
   mo_limit_create (mk_loc 1 (mk_asset 40 0) (mk_asset 400 5) 200 false);
   mo_limit_cancel (mk_lcancel 1 1);
   mo_call_update (mk_cou 1 (mk_asset 500 0) (mk_asset 10 5))].

Lemma market_conservation_witness :
  excess 5 (run_market demo_ops demo_market) = 0
  /\ account_balances (run_market demo_ops demo_market) !! (3, 0) = Some 55.
Proof.
  destruct (market_conservation demo_ops demo_market) as (_ & H & _).
  - exact demo_market_ok.
  - repeat constructor; unfold in_range; cbn; lia.
  - split; [rewrite (H 5); [vm_compute; reflexivity|discriminate]|vm_compute; reflexivity].
Defined.

(** C19: the margin call loop ends: one round per order in the two ranges is
    enough, and more fuel does not change the outcome. *)
Theorem check_call_orders_terminates (mia : Z) (enable for_new : bool) (d : database)
    (fuel : nat -> nat) (Hf : forall n, (n < fuel n)%nat) :
  check_call_orders_fuel fuel mia enable for_new d = Some (check_call_orders mia enable for_new d).
Proof.
  unfold check_call_orders, check_call_orders_fuel.
  match goal with |- context [match ?m with Err _ => _ | Ok _ => _ end] =>
    destruct m as [[r|[[limits calls] d0]]|e]; [done| |done] end.
  destruct (call_loop_fuel (S (length limits + length calls)) mia enable for_new limits calls
    false false d0) as [r Hr]; [lia|].
  rewrite (Hr (fuel (length limits + length calls)%nat)) by apply Hf. by rewrite Hr by lia.
Qed.

Lemma check_call_orders_terminates_witness :
  check_call_orders_fuel (fun n => n + 5)%nat 5 true false demo_market = Some (Ok (false, demo_market)).
Proof.
  rewrite (check_call_orders_terminates 5 true false demo_market (fun n => n + 5)%nat
             ltac:(intros n; cbv beta; lia)).
  vm_compute. reflexivity.
Defined.

(** Matching two limit orders at a valid price always fills at least one of
    them: the result is 1, 2 or 3, bit 0 tells that the first order left the book
    and bit 1 that the second did. *)
Theorem match_limit_result (usd core : Z) (p : price) (d : database) (r : Z) (d' : database)
    (Hok : market_ok d) (Hp : price_ok p) (Hne : asset_id (base p) <> asset_id (quote p))
    (H : match_limit usd core p d = Ok (r, d')) :
  1 <= r <= 3 /\
  (Z.testbit r 0 = true <-> limit_orders d' !! usd = None) /\
  (Z.testbit r 1 = true <-> limit_orders d' !! core = None).
Proof.
  unfold match_limit in H.
  apply rbind_ok in H as (uo & Hu & H). apply rbind_ok in H as (co & Hc & H).
  apply deref_limit_inv in Hu, Hc. apply rbind_ok in H as ([cr ur] & Ha & H).
  apply rbind_ok in H as ([f1 d1] & H1 & H). apply rbind_ok in H as ([f2 d2] & H2 & [= <- <-]).
  destruct (ok_limits _ Hok _ _ Hu) as [[Fu _ _ _] _]. destruct (ok_limits _ Hok _ _ Hc) as [[Fc _ _ _] _].
  pose proof (match_orders_differ _ _ _ _ _ _ _ _ Ha Hu Hc Hp Fc Hne) as Hd.
  destruct (match_amounts_spec _ _ _ _ _ Ha Hp Hne Fu Fc) as (_ & _ & _ & _ & Hfull).
  destruct (fill_limit_reports _ _ _ _ _ _ _ _ _ H1) as [R1 F1].
  destruct (fill_limit_reports _ _ _ _ _ _ _ _ _ H2) as [R2 F2].
  rewrite (fill_limit_others _ _ _ _ _ _ _ _ _ usd H2) by congruence.
  assert (Hone : f1 = true \/ f2 = true).
  { destruct Hfull as [E|E]; [left; by eapply F1|right; eapply F2; [|exact E]].
    by rewrite (fill_limit_others _ _ _ _ _ _ _ _ _ core H1). }
  rewrite <- R1, <- R2. clear - Hone.
  destruct f1, f2; try (destruct Hone; discriminate); (split; [vm_compute; done|done]).
Qed.

Definition demo_book : database :=
  set_next_limit_order 2 (set_limit_orders
    (list_to_map [(0, mk_limit 200 3 60 (mk_price (mk_asset 60 5) (mk_asset 30 0)) None);
                  (1, mk_limit 200 1 20 (mk_price (mk_asset 20 0) (mk_asset 40 5)) None)])
    demo_market).

Lemma demo_book_ok : market_ok demo_book.
Proof.
  destruct demo_market_ok. split; auto. intros id o H. apply elem_of_list_to_map_2 in H.
  rewrite !elem_of_cons, elem_of_nil in H.
  destruct H as [H|[H|[]]]; injection H as -> ->;
    (split; [split; unfold price_ok; cbn; (done || lia)|cbn; lia]).
Qed.

Lemma match_limit_result_witness :
  match match_limit 0 1 (mk_price (mk_asset 20 0) (mk_asset 40 5)) demo_book with
  | Ok (r, d') => r = 2 /\ limit_orders d' !! 1 = None
  | Err _ => False
  end.
Proof.
  destruct (match_limit 0 1 (mk_price (mk_asset 20 0) (mk_asset 40 5)) demo_book)
    as [[r d']|] eqn:E; [|vm_compute in E; discriminate E].
  destruct (match_limit_result 0 1 (mk_price (mk_asset 20 0) (mk_asset 40 5)) demo_book r d' demo_book_ok
    ltac:(unfold price_ok; cbn; lia) ltac:(cbn; lia) E) as (_ & _ & H).
  assert (Er : r = 2).
  { transitivity (match match_limit 0 1 (mk_price (mk_asset 20 0) (mk_asset 40 5)) demo_book with
                  | Ok (r, _) => r | Err _ => 0 end); [by rewrite E|vm_compute; reflexivity]. }
  subst r. split; [reflexivity|]. apply H. reflexivity.
Defined.

(** The market fee of a charged trade is the issuer's percentage of the
    amount, rounded down and capped; it never exceeds the amount traded. *)
Theorem market_fee_exact (aid : Z) (a : asset_object) (t : asset)
    (Hp : 0 <= market_fee_percent a <= GRAPHENE_100_PERCENT)
    (Ht : 0 <= amount t <= int64_max) (Hm : 0 <= max_market_fee a) :
  calculate_market_fee aid a t
    = Ok (mk_asset (if charges_market_fees a
                    then Z.min (amount t * market_fee_percent a / GRAPHENE_100_PERCENT)
                               (max_market_fee a)
                    else 0) aid) /\
  0 <= amount t * market_fee_percent a / GRAPHENE_100_PERCENT <= amount t.
Proof.
  assert (Hq : 0 <= amount t * market_fee_percent a / GRAPHENE_100_PERCENT <= amount t)
    by (split; [apply Z.div_pos; nia|apply Z.div_le_upper_bound; nia]).
  split; [|done]. unfold calculate_market_fee.
  destruct (charges_market_fees a); [cbn [negb]|done].
  destruct (Z.eqb_spec (market_fee_percent a) 0) as [->|Hn].
  - rewrite Z.mul_0_r, Z.div_0_l by lia. by rewrite Z.min_l.
  - rewrite (wrap128_small (amount t)) by lia. rewrite wrap128_small by nia.
    rewrite to_uint64_ok by lia. cbn [rbind].
    destruct (Z.gtb_spec (amount t * market_fee_percent a / GRAPHENE_100_PERCENT) (max_market_fee a)).
    + by rewrite Z.min_r by lia.
    + by rewrite Z.min_l by lia.
Qed.

Lemma market_fee_exact_witness :
  calculate_market_fee 5 (demo_asset true) (mk_asset 4000 5) = Ok (mk_asset 40 5).
Proof.
  rewrite (proj1 (market_fee_exact 5 (demo_asset true) (mk_asset 4000 5)
    ltac:(cbn; lia) ltac:(cbn; lia) ltac:(cbn; lia))).
  vm_compute. reflexivity.
Defined.

(** Cancelling a limit order returns what is left for sale and pays the
    deferred fee on top: the core asset gains the fee although [pay_fee] already
    credited the same amount to the accumulated fees. *)
Theorem cancel_mints_deferred_fee (id : Z) (vop : bool) (o : limit_order_object)
    (d d' : database) (Ho : limit_orders d !! id = Some o)
    (H : cancel_limit_order id vop d = Ok d') :
  excess CORE d' = excess CORE d + default 0 (deferred_fee o) /\
  (forall x, x <> CORE -> excess x d' = excess x d) /\ limit_orders d' !! id = None.
Proof.
  apply cancel_limit_exact in H as (o' & d1 & Ho' & _ & _ & _ & _ & E & Hx).
  rewrite Ho in Ho'. injection Ho' as <-. unfold excess. split; [|split].
  - destruct (Hx CORE) as [-> ->]. rewrite core_in_asset, Z.eqb_refl. lia.
  - intros x Hn. destruct (Hx x) as [-> ->]. rewrite core_in_asset, (proj2 (Z.eqb_neq _ _) Hn). lia.
  - rewrite E. cbn. apply lookup_delete_eq.
Qed.

(** Account 1 pays 7 core units of fees for order 1 and cancels it. *)
Definition demo_fee_paid : result database :=
  let* d := adjust_balance 1 (mk_asset (-7) 0) false demo_book in
  let* d := pay_fee 1 (mk_asset 7 0) 86400 d in
  limit_create_set_deferred 1 false (Some 7) d.

Lemma cancel_mints_deferred_fee_witness :
  match demo_fee_paid with
  | Ok d =>
      match cancel_limit_order 1 false d with
      | Ok d' => excess CORE demo_book = 20 /\ excess CORE d = 20 /\ excess CORE d' = 27
      | Err _ => False
      end
  | Err _ => False
  end.
Proof.
  destruct demo_fee_paid as [d|] eqn:Ed; [|vm_compute in Ed; discriminate Ed].
  destruct (cancel_limit_order 1 false d) as [d'|] eqn:E.
  - assert (Hd : excess CORE d = 20).
    { transitivity (match demo_fee_paid with Ok d => excess CORE d | Err _ => 0 end);
        [by rewrite Ed|vm_compute; reflexivity]. }
    split; [vm_compute; reflexivity|]. split; [exact Hd|].
    destruct (limit_orders d !! 1) as [o|] eqn:Ho.
    + rewrite (proj1 (cancel_mints_deferred_fee 1 false o d d' Ho E)), Hd.
      assert (Hf : deferred_fee o = Some 7); [|by rewrite Hf].
      transitivity (match demo_fee_paid with
                    | Ok d => match limit_orders d !! 1 with Some o => deferred_fee o | None => None end
                    | Err _ => None end); [by rewrite Ed, Ho|vm_compute; reflexivity].
    + exfalso. assert (Hn : match demo_fee_paid with
        | Ok d => limit_orders d !! 1 | Err _ => None end = None) by (by rewrite Ed).
      vm_compute in Hn. discriminate Hn.
  - assert (Hn : match demo_fee_paid with
      | Ok d => is_ok (cancel_limit_order 1 false d) | Err _ => true end = false)
      by (by rewrite Ed, E).
    vm_compute in Hn. discriminate Hn.
Defined.

(** When the rest of a partly filled limit order is too small to receive
    anything, the order is removed, but the margin call loop keeps its iterator and
    dereferences it for the next margin position. *)
Theorem margin_call_dangling_order :
  check_call_orders 5 true true
    (set_next_limit_order 1 (set_limit_orders
       {[0 := mk_limit 200 3 101 (mk_price (mk_asset 11 5) (mk_asset 10 0)) None]} demo_market))
  = Err undefined_behaviour.
Proof. vm_compute. reflexivity. Qed.
