(* ===== verification/Double.v ===== *)
(** * Double-precision arithmetic

    The code converts amounts to [double] in a few places ([price::to_real], the
    fee conversion of [evaluator.cpp], the supply limits of the asset operations).
    A double is an IEEE 754 binary64 number of the Standard Library's [SpecFloat];
    an operation rounds to nearest, ties to even. *)

From S2P Require Import Prelude SafeInt Asset.
From Stdlib Require Import SpecFloat.

Abbreviation double := spec_float.

(** Conversion of an integer to [double]. *)
Definition double_of_int64 (z : Z) : double := binary_normalize 53 1024 z 0 false.

Definition double_mul (x y : double) : double := SFmul 53 1024 x y.
Definition double_div (x y : double) : double := SFdiv 53 1024 x y.

(** Conversion to [int64_t] drops the fraction; outside the range of [int64_t] the
    conversion is undefined. *)
Definition double_trunc (x : double) : option Z :=
  match x with
  | S754_zero _ => Some 0
  | S754_infinity _ | S754_nan => None
  | S754_finite s m e =>
      let v := if 0 <=? e then Zpos m * 2 ^ e else Zpos m / 2 ^ (- e) in
      Some (if s then - v else v)
  end.

Definition double_to_int64 (x : double) : result Z :=
  let* z := get_or (double_trunc x) undefined_behaviour in
  if in_int64 z then Ok z else Err undefined_behaviour.

(** [std::pow(10, n)]; exact up to 10^22. *)
Definition double_pow10 (n : Z) : double := double_of_int64 (10 ^ n).

(** [price::to_real]. *)
Definition to_real (p : price) : double :=
  double_div (double_of_int64 (amount (base p))) (double_of_int64 (amount (quote p))).

Lemma double_to_int64_range x z : double_to_int64 x = Ok z -> int64_min <= z <= int64_max.
Proof.
  unfold double_to_int64. intros H. apply rbind_ok in H as (y & _ & H). case_if_in H; [|done].
  injection H as <-. by apply in_int64_spec.
Qed.

(** Doubles at work: small products are exact, large ones are rounded. *)
Example double_exact :
  double_to_int64 (double_mul (double_of_int64 2000000) (double_of_int64 100000)) = Ok 200000000000.
Proof. vm_compute. reflexivity. Qed.
Example double_rounds : double_to_int64 (double_of_int64 9007199254740993) = Ok 9007199254740992.
Proof. vm_compute. reflexivity. Qed.
