(* ===== verification/Fees.v ===== *)
(** * Fees and the evaluation of an operation

    [fee_schedule::calculate_fee] (protocol/fee_schedule.cpp), the fee payment of
    [generic_evaluator] (evaluator.cpp) and the order in which
    [generic_evaluator::start_evaluate] and [database::apply_operation] run the
    steps of an operation.  The amount the fee schedule asks for an operation
    before scaling depends on its serialized size and is an argument. *)

From S2P Require Import Prelude SafeInt Asset Vesting State Ledger MarketProofs Double.

(** ** The fee schedule *)

(** The loop that rounds the converted fee up; [None] when the fuel runs out. *)
Fixpoint round_up (fuel : nat) (rate : price) (target fee : asset) : option (result asset) :=
  match fuel with
  | O => None
  | S f =>
      match (let* back := asset_mul_price fee rate in asset_ltb back target) with
      | Err e => Some (Err e)
      | Ok false => Some (Ok fee)
      | Ok true =>
          match Share.add (amount fee) 1 with
          | Err e => Some (Err e)
          | Ok n => round_up f rate target (mk_asset n (asset_id fee))
          end
      end
  end.

Definition scaled_fee (base_value scale : Z) : Z :=
  wrap128 (wrap128 base_value * scale) / GRAPHENE_100_PERCENT.

Definition calculate_fee_fuel (fuel : nat) (base_value scale : Z) (rate : price)
    : option (result asset) :=
  let scaled := scaled_fee base_value scale in
  match (check scaled <=? GRAPHENE_MAX_SHARE_SUPPLY;
         let* u := to_uint64 scaled in
         let* fee := asset_mul_price (mk_asset u CORE) rate in
         Ok (u, fee)) with
  | Err e => Some (Err e)
  | Ok (u, fee) =>
      match round_up fuel rate (mk_asset u CORE) fee with
      | None => None
      | Some r => Some (let* fee := r in
                        check amount fee <=? GRAPHENE_MAX_SHARE_SUPPLY; Ok fee)
      end
  end.

(** The loop turns at most once. *)
Definition calculate_fee (base_value scale : Z) (rate : price) : result asset :=
  match calculate_fee_fuel 2 base_value scale rate with
  | Some r => r
  | None => Err undefined_behaviour
  end.

(** ** Paying the fee *)

(** Gas for [core_fee] core units: the product of two doubles, truncated. *)
Definition gas_required (core_fee : Z) (rate : price) : result asset :=
  let* g := double_to_int64 (double_mul (double_of_int64 core_fee) (to_real rate)) in
  Ok (mk_asset g GRAPHENE_ASSET_GAS).

(** [fee_paying_account->pay_fee(d, fee); db_adjust_balance(payer, -fee)]. *)
Definition charge (payer : Z) (fee : asset) (period : Z) (d : database) : result database :=
  let* d := pay_fee payer fee period d in
  let* neg := asset_neg fee in
  adjust_balance payer neg false d.

(** [generic_evaluator::pay_fee]: gas first, core units for what gas does not
    cover.  Returns the fees recorded in the operation's result. *)
Definition evaluator_pay_fee (payer core_fee_paid period : Z) (d : database)
    : result (list asset * database) :=
  let* gas := get_asset GRAPHENE_ASSET_GAS d in
  let* rate := get_or (core_exchange_rate gas) assert_exception in
  if core_fee_paid >? 0 then
    let total_gas := get_balance payer GRAPHENE_ASSET_GAS d in
    let* require_gas := gas_required core_fee_paid rate in
    let* enough := asset_geb total_gas require_gas in
    if enough then
      let* d := charge payer require_gas period d in
      Ok ([require_gas], d)
    else
      let* (require_core, fees, d) :=
        if amount total_gas >? 0 then
          let* d := charge payer total_gas period d in
          let* rest := asset_sub require_gas total_gas in
          let* require_core := asset_mul_price rest rate in
          Ok (require_core, [total_gas], d)
        else Ok (mk_asset core_fee_paid CORE, [], d) in
      let* d := charge payer require_core period d in
      Ok (fees ++ [require_core], d)
  else Ok ([], d).

(** ** Evaluating an operation *)

(** The alternatives of [operation_result].  Of a contract's result only the
    flag the transaction looks at is kept. *)
Inductive operation_result :=
| error_result (e : exn)
| void_result
| object_id_result (id : Z)
| asset_result (a : asset)
| contract_result (existed_pv : bool)
| logger_result (message : string).

(** [static_variant::which]; [operator==] compares nothing else. *)
Definition which (r : operation_result) : Z :=
  match r with
  | error_result _ => 0
  | void_result => 1
  | object_id_result _ => 2
  | asset_result _ => 3
  | contract_result _ => 4
  | logger_result _ => 5
  end.

(** Every alternative also records the fees that were paid and the running time,
    which is not modelled. *)
Record op_result := mk_op_result { variant : operation_result; fees : list asset }.

(** What an operation and its evaluator provide: that its fields are values of their
    C++ types, the checks of the operation alone, and the two steps; [do_evaluate] hands what it looked
    up to [do_apply] in the evaluator's members, the [context].  [late_fee] is the base fee that
    replaces the scheduled one after the operation was applied
    ([vesting_balance_withdraw_evaluator::pay_fee_for_gas]); [after_fee] is what an
    overriding [pay_fee] does once the fees are paid. *)
Class Evaluator (Op : Type) := {
  context : Type;
  fee_payer : Op -> Z;
  well_typed : Op -> Prop;
  validate : Op -> result unit;
  do_evaluate : Op -> database -> result context;
  do_apply : Op -> context -> database -> result (operation_result * context * database);
  late_fee : Op -> database -> option Z;
  after_fee : context -> operation_result -> list asset -> database -> result database }.

(** Most evaluators do not override [pay_fee], and return [void_result]. *)
Definition no_after_fee {C : Type} (ctx : C) (r : operation_result) (fees : list asset) (d : database)
    : result database := Ok d.
Definition return_void {C : Type} (ctx : C) (r : result database)
    : result (operation_result * C * database) :=
  let* d := r in Ok (void_result, ctx, d).
Definition return_with {C A : Type} (ctx : C) (f : A -> operation_result) (r : result (A * database))
    : result (operation_result * C * database) :=
  let* (a, d) := r in Ok (f a, ctx, d).

Record fee_parameters := mk_fee_parameters {
  fee_scale : Z;
  cashback_gas_period_seconds : Z }.

(** [prepare_fee], [do_evaluate], [do_apply], [pay_fee], in this order;
    [base_value] is what the fee schedule asks for the operation. *)
Definition start_evaluate {Op} `{Evaluator Op} (fp : fee_parameters) (base_value : Z) (op : Op)
    (d : database) : result (op_result * database) :=
  let* _ := get_asset CORE d in
  let* _ := get_asset GRAPHENE_ASSET_GAS d in
  let* _ := get_account (fee_payer op) d in
  let* fee := calculate_fee base_value (fee_scale fp) (unit_price CORE) in
  let* ctx := do_evaluate op d in
  let* (r, ctx, d) := do_apply op ctx d in
  let* fee := match late_fee op d with
              | Some bv => calculate_fee bv GRAPHENE_100_PERCENT (unit_price CORE)
              | None => Ok fee
              end in
  let* (paid, d) := evaluator_pay_fee (fee_payer op) (amount fee)
                      (cashback_gas_period_seconds fp) d in
  let* d := after_fee ctx r paid d in
  Ok (mk_op_result r paid, d).

(** [apply_operation] runs the evaluator in an undo session: when it throws, the
    state is the one before; an agreed task records the exception in its result,
    any other operation throws a copy of the exception's base class.  The log of applied
    operations is a plain vector outside of the undo database: entries pushed before an
    exception stay in it, while here [applied_ops] goes back with the state; the entry of the
    operation itself ([push_applied_operation(op)], [set_applied_operation_result]) is not
    made here.  Only the observers of a block read the log, and no theorem is about it. *)
Definition apply_operation {Op} `{Evaluator Op} (fp : fee_parameters) (is_agreed_task : bool)
    (base_value : Z) (op : Op) : stM database op_result :=
  fun d => match start_evaluate fp base_value op d with
           | Ok (r, d') => (Ok r, d')
           | Err undefined_behaviour => (Err undefined_behaviour, d)
           | Err e => if is_agreed_task then (Ok (mk_op_result (error_result e) []), d) else (Err fc_exception, d)
           end.

(** ** Rounding up *)

Lemma asset_mul_price_back s r rate :
  asset_id (base rate) = CORE -> asset_id (quote rate) <> CORE -> price_ok rate ->
  0 <= s <= GRAPHENE_MAX_SHARE_SUPPLY ->
  0 <= r <= int64_max -> s * amount (quote rate) <= r * amount (base rate) ->
  forall back, asset_mul_price (mk_asset r (asset_id (quote rate))) rate = Ok back ->
  asset_id back = CORE /\ s <= amount back.
Proof.
  intros Hb Hq Hp Hs Hr Hle back H. pose proof Hp as [P1 P2].
  destruct (asset_mul_price_inv _ _ _ H Hr Hp) as [(E & _)|(_ & _ & E & ->)]; cbn in *; [congruence|].
  split; [congruence|]. apply Z.div_le_lower_bound; lia.
Qed.

(** The loop stops at the least amount whose value covers the target. *)
Lemma round_up_spec fuel rate s : (2 <= fuel)%nat ->
  asset_id (base rate) = CORE -> asset_id (quote rate) <> CORE -> price_ok rate ->
  0 <= s <= GRAPHENE_MAX_SHARE_SUPPLY ->
  let r := s * amount (quote rate) / amount (base rate) in
  r <= GRAPHENE_MAX_SHARE_SUPPLY ->
  exists res, round_up fuel rate (mk_asset s CORE) (mk_asset r (asset_id (quote rate))) = Some res
    /\ forall fee, res = Ok fee -> asset_id fee = asset_id (quote rate)
       /\ r <= amount fee <= r + 1 /\ s * amount (quote rate) <= amount fee * amount (base rate)
       /\ (amount fee - 1) * amount (base rate) < s * amount (quote rate).
Proof.
  intros Hf Hb Hq Hp Hs r Hr. destruct fuel as [|[|fuel]]; [lia|lia|]. pose proof Hp as [P1 P2].
  pose proof (Z.mul_div_le (s * amount (quote rate)) (amount (base rate)) ltac:(lia)) as D1.
  pose proof (Z.mul_succ_div_gt (s * amount (quote rate)) (amount (base rate)) ltac:(lia)) as D2.
  fold r in D1, D2. assert (Hr0 : 0 <= r) by (apply Z.div_pos; nia).
  cbn [round_up]. destruct (asset_mul_price (mk_asset r _) rate) as [back|] eqn:E1; cbn [rbind];
    [|eexists; split; [done|done]].
  assert (Eid : asset_id back = CORE).
  { destruct (asset_mul_price_inv _ _ _ E1 ltac:(cbn; lia) Hp) as [(E & _)|(_ & _ & E & _)]; cbn in *; congruence. }
  unfold asset_ltb at 1. cbn [asset_id amount]. rewrite Eid. cbn [fc_assert rbind Z.eqb].
  destruct (Z.ltb_spec (amount back) s) as [Hlt|Hge]; cbn [rbind].
  - rewrite Share.add_run by (unfold in_range; cbn; lia). cbn [amount asset_id round_up].
    destruct (asset_mul_price (mk_asset (r + 1) _) rate) as [back2|] eqn:E2; cbn [rbind];
      [|eexists; split; [done|done]].
    destruct (asset_mul_price_back s (r + 1) rate Hb Hq Hp Hs ltac:(lia) ltac:(nia) _ E2) as [Eid2 Hge2].
    unfold asset_ltb. cbn [asset_id amount]. rewrite Eid2. cbn [fc_assert rbind Z.eqb].
    destruct (Z.ltb_spec (amount back2) s); [lia|]. eexists. split; [done|]. intros fee [= <-]. cbn.
    assert (Hn : ~ s * amount (quote rate) <= r * amount (base rate)).
    { intros Hc. destruct (asset_mul_price_back s r rate Hb Hq Hp Hs ltac:(lia) Hc _ E1). lia. }
    split; [done|]. split; [lia|]. split; nia.
  - eexists. split; [done|]. intros fee [= <-]. cbn. split; [done|]. split; [lia|].
    destruct (asset_mul_price_inv _ _ _ E1 ltac:(cbn; lia) Hp) as [(E & _)|(_ & _ & _ & Eb)];
      [cbn in *; congruence|]. cbn in Eb.
    pose proof (Z.mul_div_le (r * amount (base rate)) (amount (quote rate)) ltac:(lia)). split; nia.
Qed.

Lemma round_up_mono f : forall f' rate t a r, (f <= f')%nat ->
  round_up f rate t a = Some r -> round_up f' rate t a = Some r.
Proof.
  induction f as [|f IH]; intros [|f'] rate t a r Hf H; [done|done|lia|]. cbn [round_up] in H |- *.
  destruct (let* back := asset_mul_price a rate in asset_ltb back t) as [[]|]; [|done|done].
  destruct (Share.add (amount a) 1); [|done]. apply (IH f'); [lia|done].
Qed.

Lemma scaled_fee_exact bv sc : 0 <= bv < uint64_mod -> 0 <= sc < uint32_mod ->
  scaled_fee bv sc = bv * sc / GRAPHENE_100_PERCENT /\ 0 <= bv * sc / GRAPHENE_100_PERCENT.
Proof.
  intros Hb Hs. unfold scaled_fee. rewrite (wrap128_small bv) by lia.
  rewrite wrap128_small by nia. split; [done|]. apply Z.div_pos; nia.
Qed.

(** ** Paying fees moves money *)

(** The order books and the assets are as before. *)
Record same_orders (d d' : database) : Prop := {
  so_assets : assets d' = assets d;
  so_bitassets : bitassets d' = bitassets d;
  so_limits : limit_orders d' = limit_orders d;
  so_next_limit : next_limit_order d' = next_limit_order d;
  so_calls : call_orders d' = call_orders d;
  so_next_call : next_call_order d' = next_call_order d;
  so_settlements : force_settlements d' = force_settlements d;
  so_next_settlement : next_force_settlement d' = next_force_settlement d;
  so_bids : collateral_bids d' = collateral_bids d;
  so_next_bid : next_bid d' = next_bid d;
  so_time : head_block_time d' = head_block_time d }.

#[global] Instance same_orders_preorder : PreOrder same_orders.
Proof. split; [by intros d; split|]. intros d1 d2 d3 [] []. split; congruence. Qed.

Lemma same_orders_market_ok d d' : same_orders d d' -> market_ok d -> market_ok d'.
Proof. intros [Ea Eb El En Ec Enc _ _ Ebd Enb _] []. split; rewrite ?Ea, ?Eb, ?El, ?En, ?Ec, ?Enc, ?Ebd, ?Enb; auto. Qed.

Lemma pay_fee_effect acct fee period d d' :
  pay_fee acct fee period d = Ok d' -> vesting_fresh d ->
  same_orders d d' /\ vesting_fresh d' /\ account_balances d' = account_balances d
  /\ forall x, total x d' = total x d + in_asset x fee /\ supply x d' = supply x d.
Proof.
  unfold pay_fee. intros H Hf. case_if_in H; bool_to_prop.
  - apply modify_dynamic_data_inv in H as (dd & dd' & Hdd & H & ->).
    apply rbind_ok in H as (f & Ha & [= <-]). apply Share.add_value in Ha as ->.
    split; [by split|]. split; [done|]. split; [done|]. intros x. split.
    + rewrite total_set_dyn, (in_fees_insert _ _ _ dd) by done. cbn [accumulated_fees].
      replace (accumulated_fees dd + amount fee - accumulated_fees dd) with (amount fee) by lia.
      rewrite (in_asset_eta x fee), Hif. lia.
    + rewrite (supply_set_dyn x _ dd) by done. cbn [current_supply]. rewrite Z.sub_diag, in_asset_0. lia.
  - unfold deposit_cashback in H. case_if_in H; bool_to_prop.
    { injection H as <-. split; [done|]. split; [done|]. split; [done|]. intros x.
      rewrite (in_asset_eta x fee), Hif0, in_asset_0. lia. }
    skip_bind H. apply rbind_ok in H as ([r d1] & Hd & H).
    destruct (deposit_lazy_frame _ _ _ _ _ _ _ _ _ Hd) as (m & n & E).
    assert (Hx : forall x, total x d1 = total x d + in_asset x fee /\ vesting_fresh d1
      /\ supply x d1 = supply x d) by (intros x; by eapply deposit_lazy_total).
    assert (Hd' : exists acs, d' = set_accounts acs d1).
    { destruct r; injection H as <-; [eauto|]. exists (accounts d1). by destruct d1. }
    destruct Hd' as (acs & ->). split; [rewrite E; by split|].
    split; [destruct (Hx 0) as (_ & Hv & _); exact Hv|]. split; [by rewrite E|].
    intros x. destruct (Hx x) as (T & _ & S). split; [exact T|exact S].
Qed.

Lemma charge_effect payer fee period d d' :
  charge payer fee period d = Ok d' -> ledger_ok d ->
  same_orders d d' /\ ledger_ok d'
  /\ (forall x, total x d' = total x d /\ supply x d' = supply x d)
  /\ forall o a, amount (get_balance o a d') = amount (get_balance o a d)
       - (if decide (o = payer) then in_asset a fee else 0).
Proof.
  intros H [Hn Hf]. unfold charge in H. apply rbind_ok in H as (d1 & H1 & H).
  apply rbind_ok in H as (neg & Hneg & H). apply asset_neg_value in Hneg as [Ei Ea].
  destruct (pay_fee_effect _ _ _ _ _ H1 Hf) as (S1 & Hf1 & B1 & T1).
  assert (Hn1 : balances_nonneg d1) by (unfold balances_nonneg; by rewrite B1).
  destruct (adjust_balance_guard _ _ _ _ H Hn1) as [Hn2 _].
  pose proof (adjust_balance_rest _ _ _ _ _ H) as (V1 & V2 & _ & _).
  split; [|split; [|split]].
  - transitivity d1; [done|]. apply adjust_balance_total in H as (m & -> & _). by split.
  - split; [done|]. unfold vesting_fresh. by rewrite V1, V2.
  - intros x. destruct (T1 x) as [T S]. destruct (adjust_balance_excess _ _ _ _ _ x H) as [-> ->].
    rewrite T, S. split; [|done]. unfold in_asset. rewrite Ei, Ea. case_if; lia.
  - intros o a. rewrite (adjust_balance_get _ _ _ _ _ o a H), !get_balance_default, B1, Ei, Ea.
    unfold in_asset. destruct (decide (o = payer)) as [->|Ho].
    + destruct (Z.eqb_spec (asset_id fee) a) as [<-|Hne];
        [rewrite decide_True by done|rewrite decide_False by congruence]; lia.
    + rewrite decide_False by congruence. lia.
Qed.

Lemma evaluator_pay_fee_effect payer fee period d fees d' :
  evaluator_pay_fee payer fee period d = Ok (fees, d') -> ledger_ok d ->
  same_orders d d' /\ ledger_ok d'
  /\ (forall x, total x d' = total x d /\ supply x d' = supply x d)
  /\ forall o a, amount (get_balance o a d') = amount (get_balance o a d)
       - (if decide (o = payer) then sumZ (in_asset a) fees else 0).
Proof.
  intros H Hok. unfold evaluator_pay_fee in H.
  assert (Hnone : fees = [] -> d' = d -> same_orders d d' /\ ledger_ok d'
    /\ (forall x, total x d' = total x d /\ supply x d' = supply x d)
    /\ forall o a, amount (get_balance o a d') = amount (get_balance o a d)
         - (if decide (o = payer) then sumZ (in_asset a) fees else 0)).
  { intros -> ->. split; [done|]. split; [done|]. split; [done|]. intros o a. cbn. case_decide; lia. }
  do 2 skip_bind H.
  case_if_in H; [|injection H as <- <-; by apply Hnone].
  skip_bind H. apply rbind_ok in H as (en & _ & H). destruct en.
  - apply rbind_ok in H as (d1 & H1 & [= <- <-]).
    destruct (charge_effect _ _ _ _ _ H1 Hok) as (S & L & T & B). do 3 (split; [done|]).
    intros o a. rewrite B. cbn. case_decide; lia.
  - apply rbind_ok in H as ([[rc fs] d1] & H1 & H). apply rbind_ok in H as (d2 & H2 & [= <- <-]).
    assert (Hfirst : same_orders d d1 /\ ledger_ok d1
      /\ (forall x, total x d1 = total x d /\ supply x d1 = supply x d)
      /\ forall o a, amount (get_balance o a d1) = amount (get_balance o a d)
           - (if decide (o = payer) then sumZ (in_asset a) fs else 0)).
    { case_if_in H1.
      - apply rbind_ok in H1 as (d0 & H1 & H0). skip_bind H0.
        apply rbind_ok in H0 as (rc' & _ & [= _ <- <-]).
        destruct (charge_effect _ _ _ _ _ H1 Hok) as (S & L & T & B). do 3 (split; [done|]).
        intros o a. rewrite B. cbn. case_decide; lia.
      - injection H1 as _ <- <-. split; [done|]. split; [done|]. split; [done|].
        intros o a. cbn. case_decide; lia. }
    destruct Hfirst as (S1 & L1 & T1 & B1).
    destruct (charge_effect _ _ _ _ _ H2 L1) as (S2 & L2 & T2 & B2).
    split; [by transitivity d1|]. split; [done|]. split.
    + intros x. destruct (T1 x) as [<- <-]. apply T2.
    + intros o a. rewrite B2, B1, sumZ_app. cbn. case_decide; lia.
Qed.

(** ** Operations that conserve value *)

Definition settle_fresh (d : database) : Prop :=
  forall id s, force_settlements d !! id = Some s -> id < next_force_settlement d.

Record chain_ok (d : database) : Prop := {
  co_market : market_ok d;
  co_ledger : ledger_ok d;
  co_settle : settle_fresh d }.

(** Nothing is created or destroyed but deferred fees that are paid out. *)
Definition conserves (d d' : database) : Prop :=
  chain_ok d' /\ head_block_time d' = head_block_time d /\
  forall x, excess x d <= excess x d' /\ liability x d' <= liability x d.

Lemma conserves_refl d : chain_ok d -> conserves d d.
Proof. intros H. split; [done|]. split; [done|]. intros x. lia. Qed.

Lemma conserves_trans d1 d2 d3 : conserves d1 d2 -> conserves d2 d3 -> conserves d1 d3.
Proof.
  intros (_ & T1 & H1) (Hok & T2 & H2). split; [done|]. split; [congruence|].
  intros x. specialize (H1 x). specialize (H2 x). lia.
Qed.

Lemma frame_ok d d' : frame d d' -> ledger_ok d -> settle_fresh d -> ledger_ok d' /\ settle_fresh d'.
Proof.
  intros F [Hn Hf] Hs. split; [split|].
  - by apply F.
  - unfold vesting_fresh. by rewrite (fr_vesting _ _ F), (fr_next_vesting _ _ F).
  - intros id s Hid. rewrite (fr_next_settlement _ _ F).
    destruct (fr_settlements _ _ F _ _ Hid) as (s0 & H0 & _). by eapply Hs.
Qed.

Lemma moves_conserves d d' : chain_ok d -> moves neutral d d' -> conserves d d'.
Proof.
  intros [_ Hl Hs] (Hok & F & M). destruct (frame_ok _ _ F Hl Hs) as [Hl' Hs']. split; [by split|].
  split; [apply F|]. intros x. specialize (M x). unfold neutral in M. lia.
Qed.

Lemma exact_conserves d d' : same_orders d d' -> chain_ok d -> ledger_ok d' ->
  (forall x, total x d' = total x d /\ supply x d' = supply x d) -> conserves d d'.
Proof.
  intros Hs [Hm _ Hst] Hl Hx. split; [|split; [apply Hs|]].
  - split; [by eapply same_orders_market_ok|done|]. unfold settle_fresh.
    by rewrite (so_settlements _ _ Hs), (so_next_settlement _ _ Hs).
  - intros x. destruct (Hx x) as [T S]. unfold liability, excess.
    rewrite (promised_same d d'), T, S by apply Hs. lia.
Qed.

(** An evaluator that conserves value: proved once per operation. *)
Class Conserving (Op : Type) `{Evaluator Op} : Prop := {
  apply_conserves : forall (op : Op) ctx d r ctx' d', chain_ok d -> well_typed op ->
    validate op = Ok tt -> do_evaluate op d = Ok ctx -> do_apply op ctx d = Ok (r, ctx', d') ->
    conserves d d';
  after_conserves : forall ctx r fees d d', chain_ok d -> after_fee ctx r fees d = Ok d' ->
    conserves d d' }.

(** The common case: nothing happens after the fees. *)
Lemma no_after_fee_conserves {C} (ctx : C) r fees d d' : chain_ok d -> no_after_fee ctx r fees d = Ok d' ->
  conserves d d'.
Proof. intros Hok [= <-]. by apply conserves_refl. Qed.

Lemma return_void_inv {C} (ctx : C) x r ctx' d' : return_void ctx x = Ok (r, ctx', d') ->
  x = Ok d' /\ r = void_result /\ ctx' = ctx.
Proof. intros H. apply rbind_ok in H as (d & -> & [= <- <- <-]). done. Qed.

Lemma return_with_inv {C A} (ctx : C) (f : A -> operation_result) x r ctx' d' :
  return_with ctx f x = Ok (r, ctx', d') -> exists a, x = Ok (a, d') /\ r = f a /\ ctx' = ctx.
Proof. intros H. apply rbind_ok in H as ([a d] & -> & [= <- <- <-]). eauto. Qed.

(** Start of a proof that an evaluator without an overriding [pay_fee] conserves value. *)
Ltac conserving :=
  split; [intros op m d res m' d' Hok Ht Hv He H;
          first [apply return_void_inv in H as (H & _ & _)
                |apply return_with_inv in H as (out & H & _ & _)]
         |intros *; apply no_after_fee_conserves].

(** What [prepare_fee], the operation's two steps and the fee payment do to the state. *)
Lemma start_evaluate_inv {Op} `{Evaluator Op} fp bv (op : Op) d r d' :
  start_evaluate fp bv op d = Ok (r, d') ->
  exists ctx ctx' fee d1 d2, do_evaluate op d = Ok ctx /\ do_apply op ctx d = Ok (variant r, ctx', d1)
    /\ evaluator_pay_fee (fee_payer op) fee (cashback_gas_period_seconds fp) d1 = Ok (fees r, d2)
    /\ after_fee ctx' (variant r) (fees r) d2 = Ok d'.
Proof.
  intros Hs. unfold start_evaluate in Hs. do 4 skip_bind Hs.
  apply rbind_ok in Hs as (ctx & He & Hs). apply rbind_ok in Hs as ([[r1 ctx'] d1] & Ha & Hs).
  apply rbind_ok in Hs as (fee & _ & Hs). apply rbind_ok in Hs as ([fs d2] & Hf & Hs).
  apply rbind_ok in Hs as (d3 & Hl & [= <- <-]). by exists ctx, ctx', (amount fee), d1, d2.
Qed.

(** The core units among some fees. *)
Definition core_fees (l : list asset) : Z := sumZ (in_asset CORE) l.

Lemma pay_fee_core_nonneg payer fee period d paid d' :
  evaluator_pay_fee payer fee period d = Ok (paid, d') ->
  forall f, f ∈ paid -> asset_id f = CORE -> 0 <= amount f.
Proof.
  intros H. unfold evaluator_pay_fee in H. do 2 skip_bind H.
  destruct (Z.gtb_spec fee 0) as [Hf|]; [|injection H as <- _; intros f Hin; by apply elem_of_nil in Hin].
  apply rbind_ok in H as (rg & Hg & H).
  assert (Hrg : asset_id rg <> CORE) by (unfold gas_required in Hg; skip_bind Hg; by injection Hg as <-).
  apply rbind_ok in H as (en & _ & H). destruct en.
  - apply rbind_ok in H as (d1 & _ & [= <- _]). intros f Hin E. by apply list_elem_of_singleton in Hin as ->.
  - apply rbind_ok in H as ([[rc fs] d1] & H1 & H). apply rbind_ok in H as (d2 & _ & [= <- _]).
    assert (Hrc : 0 <= amount rc /\ forall f, f ∈ fs -> asset_id f <> CORE).
    { case_if_in H1; [|injection H1 as <- <- _; split; [cbn; lia|]; intros f Hin; by apply elem_of_nil in Hin].
      skip_bind H1. apply rbind_ok in H1 as (rest & _ & H1). apply rbind_ok in H1 as (rc' & Hm & [= <- <- _]).
      split; [apply asset_mul_price_amount in Hm; lia|]. intros f Hin. apply list_elem_of_singleton in Hin as ->. unfold get_balance. by case_match. }
    intros f Hin E. apply elem_of_app in Hin as [Hin|Hin]; [by apply Hrc in Hin|].
    apply list_elem_of_singleton in Hin as ->. apply Hrc.
Qed.

Lemma core_fees_nonneg l : (forall f, f ∈ l -> asset_id f = CORE -> 0 <= amount f) -> 0 <= core_fees l.
Proof.
  unfold core_fees. induction l as [|f l IH]; cbn; intros H; [lia|].
  assert (0 <= in_asset CORE f).
  { unfold in_asset. destruct (Z.eqb_spec (asset_id f) CORE); [apply H; [by left|done]|lia]. }
  pose proof (IH (fun g Hg => H g (list_elem_of_further _ _ _ Hg))). lia.
Qed.

Lemma pay_fee_conserves payer fee period d fees d' : chain_ok d ->
  evaluator_pay_fee payer fee period d = Ok (fees, d') -> conserves d d'.
Proof.
  intros Hok Hf. destruct (evaluator_pay_fee_effect _ _ _ _ _ _ Hf (co_ledger _ Hok)) as (S & L & T & _).
  by apply exact_conserves.
Qed.

Lemma start_evaluate_conserves {Op} `{Conserving Op} fp bv (op : Op) d r d' :
  chain_ok d -> well_typed op -> validate op = Ok tt -> start_evaluate fp bv op d = Ok (r, d') ->
  conserves d d'.
Proof.
  intros Hok Ht Hv Hs. apply start_evaluate_inv in Hs as (ctx & ctx' & fee & d1 & d2 & He & Ha & Hf & Hl).
  pose proof (apply_conserves _ _ _ _ _ _ Hok Ht Hv He Ha) as C1.
  pose proof (pay_fee_conserves _ _ _ _ _ _ (proj1 C1) Hf) as C2.
  eapply conserves_trans; [exact C1|]. eapply conserves_trans; [exact C2|].
  eapply after_conserves; [apply C2|exact Hl].
Qed.

(** Nothing is created or destroyed but deferred fees that are paid out, and at most
    [extra] core units are newly promised. *)
Definition conserves_but (extra : Z) (d d' : database) : Prop :=
  chain_ok d' /\ head_block_time d' = head_block_time d /\
  forall x, excess x d <= excess x d' /\
    liability x d' <= liability x d + (if x =? CORE then extra else 0).

Lemma conserves_but_mono extra extra' d d' : extra <= extra' ->
  conserves_but extra d d' -> conserves_but extra' d d'.
Proof.
  intros Hle (Hok & T & C). split; [done|]. split; [done|]. intros x. specialize (C x).
  revert C. case_if; lia.
Qed.

Lemma conserves_but_trans e1 e2 d1 d2 d3 : conserves_but e1 d1 d2 -> conserves_but e2 d2 d3 ->
  conserves_but (e1 + e2) d1 d3.
Proof.
  intros (_ & T1 & C1) (Hok & T2 & C2). split; [done|]. split; [congruence|].
  intros x. specialize (C1 x). specialize (C2 x). revert C1 C2. case_if; lia.
Qed.

Lemma conserves_but_0 d d' : conserves d d' -> conserves_but 0 d d'.
Proof. intros (Hok & T & C). split; [done|]. split; [done|]. intros x. specialize (C x). case_if; lia. Qed.

(** An operation whose evaluator conserves value but for deferring its own fees. *)
Class Deferring (Op : Type) `{Evaluator Op} : Prop :=
  deferring : forall fp bv (op : Op) d r d', chain_ok d -> well_typed op -> validate op = Ok tt ->
    start_evaluate fp bv op d = Ok (r, d') -> 0 <= core_fees (fees r) /\ conserves_but (core_fees (fees r)) d d'.

#[global] Instance conserving_deferring {Op} `{Conserving Op} : Deferring Op.
Proof.
  intros fp bv op d r d' Hok Ht Hv Hs.
  pose proof (start_evaluate_conserves _ _ _ _ _ _ Hok Ht Hv Hs) as C.
  apply start_evaluate_inv in Hs as (ctx & ctx' & fee & d1 & d2 & _ & _ & Hf & _).
  pose proof (core_fees_nonneg _ (pay_fee_core_nonneg _ _ _ _ _ _ Hf)) as Hn. split; [done|].
  eapply conserves_but_mono; [exact Hn|by apply conserves_but_0].
Qed.

(** ** Properties *)

(** The fee schedule scales the fee and converts it rounding up: the loop turns
    at most once; at the unit rate the fee is the scaled amount itself, and at any
    valid rate it is the least amount whose value covers the scaled amount. *)
Theorem calculate_fee_rounds_up (bv sc : Z) (Hb : 0 <= bv < uint64_mod)
    (Hs : 0 <= sc < uint32_mod) :
  let s := bv * sc / GRAPHENE_100_PERCENT in
  calculate_fee bv sc (unit_price CORE)
    = (if s <=? GRAPHENE_MAX_SHARE_SUPPLY then Ok (mk_asset s CORE) else Err assert_exception) /\
  forall rate, asset_id (base rate) = CORE -> asset_id (quote rate) <> CORE -> price_ok rate ->
    (forall fuel, (2 <= fuel)%nat ->
       calculate_fee_fuel fuel bv sc rate = Some (calculate_fee bv sc rate)) /\
    forall fee, calculate_fee bv sc rate = Ok fee ->
      asset_id fee = asset_id (quote rate) /\
      s * amount (quote rate) <= amount fee * amount (base rate) /\
      (amount fee - 1) * amount (base rate) < s * amount (quote rate).
Proof.
  intros s. destruct (scaled_fee_exact bv sc Hb Hs) as [Es Hpos]. fold s in Es, Hpos.
  unfold calculate_fee, calculate_fee_fuel. rewrite Es.
  destruct (Z.leb_spec s GRAPHENE_MAX_SHARE_SUPPLY) as [Hle|Hgt]; cbn [fc_assert rbind];
    [|split; [done|]; intros rate _ _ _; split; [done|]; intros fee Hf; discriminate Hf].
  rewrite to_uint64_ok by lia. cbn [rbind]. split.
  - assert (Hm : asset_mul_price (mk_asset s CORE) (unit_price CORE) = Ok (mk_asset s CORE)).
    { rewrite asset_mul_price_base; [|done|cbn; lia|unfold price_ok; cbn; lia].
      cbn. rewrite Z.mul_1_r, Z.div_1_r. destruct (Z.leb_spec s GRAPHENE_MAX_SHARE_SUPPLY); [done|lia]. }
    rewrite Hm. cbn [rbind round_up]. rewrite Hm. cbn [rbind]. unfold asset_ltb. cbn [asset_id amount].
    rewrite Z.eqb_refl, Z.ltb_irrefl. cbn.
    destruct (Z.leb_spec s GRAPHENE_MAX_SHARE_SUPPLY); [done|lia].
  - intros rate Hba Hqu Hp. rewrite asset_mul_price_base by (done || (cbn; lia)). cbv zeta. cbn [amount].
    destruct (Z.leb_spec (s * amount (quote rate) / amount (base rate)) GRAPHENE_MAX_SHARE_SUPPLY)
      as [Hr|Hr]; cbn [rbind]; [|split; [done|done]].
    destruct (round_up_spec 2 rate s ltac:(lia) Hba Hqu Hp ltac:(lia) Hr) as (res & Hres & Hspec).
    rewrite Hres. split.
    + intros fuel Hf. by rewrite (round_up_mono 2 fuel _ _ _ _ Hf Hres).
    + intros fee Hfee. apply rbind_ok in Hfee as (f & Hf & Hfee).
      apply rbind_ok in Hfee as (u & _ & [= <-]). destruct (Hspec _ Hf) as (? & _ & ? & ?). done.
Qed.

(** 150% of 7 units at 3 core units per 2 gas units: ten units, converted to 7. *)
Lemma calculate_fee_rounds_up_witness :
  calculate_fee 7 15000 (mk_price (mk_asset 3 0) (mk_asset 2 1)) = Ok (mk_asset 7 1)
  /\ 10 * 2 <= 7 * 3 /\ calculate_fee 7 15000 (unit_price CORE) = Ok (mk_asset 10 CORE).
Proof.
  destruct (calculate_fee_rounds_up 7 15000 ltac:(lia) ltac:(lia)) as [Hu Hr].
  assert (E : calculate_fee 7 15000 (mk_price (mk_asset 3 0) (mk_asset 2 1)) = Ok (mk_asset 7 1))
    by (vm_compute; reflexivity).
  split; [exact E|]. split; [|rewrite Hu; vm_compute; reflexivity].
  destruct (Hr (mk_price (mk_asset 3 0) (mk_asset 2 1)) eq_refl ltac:(cbn; lia)
    ltac:(unfold price_ok; cbn; lia)) as [_ H]. apply (H _ E).
Defined.

(** C17: Paying a fee, in gas, in core units or partly in each, takes exactly the
    fees recorded in the result from the payer and from nobody else; they end up
    in the payer's vesting balance or the accumulated fees, so no asset's total or
    supply changes, and no balance becomes negative. *)
Theorem fee_payment_conserves (payer core_fee period : Z) (d d' : database) (fees : list asset)
    (Hok : ledger_ok d) (H : evaluator_pay_fee payer core_fee period d = Ok (fees, d')) :
  ledger_ok d' /\
  (forall x, total x d' = total x d /\ supply x d' = supply x d) /\
  (forall o a, amount (get_balance o a d') = amount (get_balance o a d)
     - (if decide (o = payer) then sumZ (in_asset a) fees else 0)) /\
  (core_fee <= 0 -> fees = [] /\ d' = d).
Proof.
  destruct (evaluator_pay_fee_effect _ _ _ _ _ _ H Hok) as (_ & L & T & B).
  split; [done|]. split; [done|]. split; [done|]. intros Hc. unfold evaluator_pay_fee in H.
  do 2 skip_bind H.
  destruct (Z.gtb_spec core_fee 0); [lia|]. by injection H as <- <-.
Qed.

(** Account 5 has 4 gas units and 100 core units; one gas unit is worth two core
    units.  A fee of 20 takes the gas and 12 core units. *)
Definition demo_gas_rate : price := mk_price (mk_asset 1 GRAPHENE_ASSET_GAS) (mk_asset 2 CORE).
Definition demo_fee_db : database :=
  set_assets {[ CORE := mk_asset_object "CORE" 5 9 (mk_asset_options 1000 0 0 0 0 None "core") false;
                GRAPHENE_ASSET_GAS :=
                  mk_asset_object "GAS" 5 9
                    (mk_asset_options 1000 0 0 0 0 (Some demo_gas_rate) "gas") false ]}
    (set_dynamic_data {[ CORE := mk_dyn 100 0; GRAPHENE_ASSET_GAS := mk_dyn 4 0 ]}
       (set_account_balances {[ (5, CORE) := 100; (5, GRAPHENE_ASSET_GAS) := 4 ]}
          (set_accounts {[ 5 := basic_account ∅ None ]} demo_ledger))).

Lemma demo_fee_db_ok : ledger_ok demo_fee_db.
Proof.
  split; [|by intros id v Hv; cbn in Hv; rewrite lookup_empty in Hv].
  intros k v Hk. cbn in Hk. apply lookup_insert_Some in Hk as [[_ <-]|[_ Hk]]; [lia|].
  apply lookup_singleton_Some in Hk as [_ <-]. lia.
Qed.

Lemma fee_payment_conserves_witness :
  match evaluator_pay_fee 5 20 86400 demo_fee_db with
  | Ok (fees, d') => fees = [mk_asset 4 GRAPHENE_ASSET_GAS; mk_asset 12 CORE]
      /\ total CORE d' = total CORE demo_fee_db /\ amount (get_balance 5 CORE d') = 88
  | Err _ => False
  end.
Proof.
  destruct (evaluator_pay_fee 5 20 86400 demo_fee_db) as [[fees d']|] eqn:E; [|vm_compute in E; discriminate E].
  destruct (fee_payment_conserves 5 20 86400 demo_fee_db d' fees demo_fee_db_ok E) as (_ & T & B & _).
  assert (Ef : fees = [mk_asset 4 GRAPHENE_ASSET_GAS; mk_asset 12 CORE]).
  { transitivity (match evaluator_pay_fee 5 20 86400 demo_fee_db with
                  | Ok (fs, _) => fs | Err _ => [] end); [by rewrite E|vm_compute; reflexivity]. }
  split; [exact Ef|]. split; [apply T|]. rewrite B, Ef. vm_compute. reflexivity.
Defined.
