(* ===== verification/Operations.v ===== *)
(** * The evaluators of the ledger and market operations

    Each operation is an instance of [Evaluator]: the account that pays, the
    [validate] of its operation struct, and the two steps of its evaluator; and
    each conserves value, an instance of [Conserving].  [limit_order_create], whose
    [pay_fee] also records a deferred fee, is treated in [MarketSpec]. *)

From S2P Require Import Prelude SafeInt Asset Vesting State Ledger Market MarketProofs.
From S2P Require Import MarketSpec Double Fees.

(** ** Stateless checks *)

Definition transfer_validate (op : transfer_operation) : result unit :=
  check negb (tr_from op =? tr_to op);
  fc_assert (amount (tr_amount op) >=? 0).

Definition override_validate (op : override_transfer_operation) : result unit :=
  check negb (ov_from op =? ov_to op);
  check amount (ov_amount op) >? 0;
  fc_assert (negb (ov_issuer op =? ov_from op)).

Definition vesting_create_validate (op : vesting_balance_create_operation) : result unit :=
  fc_assert (amount (vbc_amount op) >? 0).

Definition vesting_withdraw_validate (op : vesting_balance_withdraw_operation) : result unit :=
  fc_assert (amount (vbw_amount op) >? 0).

(** ** The instances *)

#[global] Instance transfer_evaluator : Evaluator transfer_operation := {
  context := unit;
  fee_payer := tr_from;
  well_typed := fun _ => True;
  validate := transfer_validate;
  do_evaluate := transfer_do_evaluate;
  do_apply := fun op ctx d => return_void ctx (transfer_do_apply op d);
  late_fee := fun _ _ => None;
  after_fee := no_after_fee }.

#[global] Instance override_evaluator : Evaluator override_transfer_operation := {
  context := unit;
  fee_payer := ov_issuer;
  well_typed := fun _ => True;
  validate := override_validate;
  do_evaluate := override_do_evaluate;
  do_apply := fun op ctx d => return_void ctx (override_do_apply op d);
  late_fee := fun _ _ => None;
  after_fee := no_after_fee }.

#[global] Instance vesting_create_evaluator : Evaluator vesting_balance_create_operation := {
  context := unit;
  fee_payer := vbc_creator;
  well_typed := fun _ => True;
  validate := vesting_create_validate;
  do_evaluate := vesting_create_do_evaluate;
  do_apply := fun op ctx d => return_with ctx object_id_result (vesting_create_do_apply op d);
  late_fee := fun _ _ => None;
  after_fee := no_after_fee }.

Abbreviation WITHDRAW_GAS_TIMEPOINT := 1585211357.

(** Withdrawing gas costs a fee of its own, set by the chain parameters. *)
#[global] Instance vesting_withdraw_evaluator (vesting_balance_withdraw_fee : Z)
    : Evaluator vesting_balance_withdraw_operation := {
  context := unit;
  fee_payer := vbw_owner;
  well_typed := fun _ => True;
  validate := vesting_withdraw_validate;
  do_evaluate := vesting_withdraw_do_evaluate;
  do_apply := fun op ctx d => return_void ctx (vesting_withdraw_do_apply op d);
  late_fee := fun op d =>
    if (head_block_time d >? WITHDRAW_GAS_TIMEPOINT)
       && (asset_id (vbw_amount op) =? GRAPHENE_ASSET_GAS)
    then Some vesting_balance_withdraw_fee else None;
  after_fee := no_after_fee }.

#[global] Instance limit_cancel_evaluator : Evaluator limit_order_cancel_operation := {
  context := unit;
  fee_payer := lc_account;
  well_typed := fun _ => True;
  validate := fun _ => Ok tt;
  do_evaluate := limit_cancel_do_evaluate;
  do_apply := fun op ctx d => return_with ctx asset_result (limit_cancel_do_apply op d);
  late_fee := fun _ _ => None;
  after_fee := no_after_fee }.

#[global] Instance call_update_evaluator : Evaluator call_order_update_operation := {
  context := unit;
  fee_payer := cou_funding_account;
  well_typed := fun _ => True;
  validate := call_update_validate;
  do_evaluate := call_update_do_evaluate;
  do_apply := fun op ctx d => return_void ctx (call_update_do_apply op d);
  late_fee := fun _ _ => None;
  after_fee := no_after_fee }.

#[global] Instance bid_evaluator : Evaluator bid_collateral_operation := {
  context := option Z;
  fee_payer := bo_bidder;
  well_typed := fun _ => True;
  validate := bid_validate;
  do_evaluate := bid_do_evaluate;
  do_apply := fun op old d => return_with old object_id_result (bid_do_apply op old d);
  late_fee := fun _ _ => None;
  after_fee := no_after_fee }.

(** The core fee among the fees paid; the last one counts. *)
Definition core_fee_of (paid : list asset) : option Z :=
  foldl (fun acc f => if asset_id f =? CORE then Some (amount f) else acc) None paid.

(** [limit_order_create_evaluator] keeps whether the order was filled; its [pay_fee]
    notes the core fees on an order that stays on the book. *)
#[global] Instance limit_create_evaluator : Evaluator limit_order_create_operation := {
  context := bool;
  fee_payer := loc_seller;
  well_typed := fun op => Share.ok (amount (loc_amount_to_sell op))
                          /\ Share.ok (amount (loc_min_to_receive op));
  validate := limit_create_validate;
  do_evaluate := fun op d => let* _ := limit_create_do_evaluate op d in Ok false;
  do_apply := fun op _ d => let* (id, filled, d) := limit_create_do_apply op d in
                            Ok (object_id_result id, filled, d);
  late_fee := fun _ _ => None;
  after_fee := fun filled r paid d =>
    match r with
    | object_id_result id => limit_create_set_deferred id filled (core_fee_of paid) d
    | _ => if filled then Ok d else Err assert_exception
    end }.

(** ** They conserve value *)

(** A debit and a credit of the same amount. *)
Lemma move_conserves from_ to_ a d d' : chain_ok d ->
  (let* neg := asset_neg a in
   let* d := adjust_balance from_ neg false d in adjust_balance to_ a false d) = Ok d' ->
  conserves d d'.
Proof.
  intros Hok H. pose proof (co_market _ Hok) as Hm. apply rbind_ok in H as (neg & Hn & H). apply rbind_ok in H as (d1 & H1 & H2).
  pose proof (adjust_neg_moves _ _ _ _ _ Hn H1 Hm) as M1.
  pose proof (credit_moves _ _ _ _ H2 (proj1 M1)) as M2. apply moves_conserves; [done|].
  eapply moves_trans; [exact M1|exact M2|]. intros x. unfold neutral. lia.
Qed.

#[global] Instance transfer_conserving : Conserving transfer_operation.
Proof.
  conserving. unfold transfer_do_apply in H. case_if_in H.
  - by eapply move_conserves.
  - injection H as <-. by apply conserves_refl.
Qed.

#[global] Instance override_conserving : Conserving override_transfer_operation.
Proof. conserving. exact (move_conserves (ov_from op) (ov_to op) (ov_amount op) d d' Hok H). Qed.

Lemma adjust_same_orders acc delta allow d d' : adjust_balance acc delta allow d = Ok d' -> same_orders d d'.
Proof. intros H. apply adjust_balance_total in H as (m & -> & _). by split. Qed.

#[global] Instance vesting_create_conserving : Conserving vesting_balance_create_operation.
Proof.
  conserving. rename d' into d1. rename out into id.
  assert (S : same_orders d d1).
  { unfold vesting_create_do_apply in H. do 3 skip_bind H.
    apply rbind_ok in H as (d0 & H & [= <- <-]). transitivity d0; [by eapply adjust_same_orders|by split]. }
  apply exact_conserves; [done|done| |].
  - by destruct (vesting_create_step _ _ _ _ 0 H (co_ledger _ Hok)) as (_ & _ & ?).
  - intros x. by destruct (vesting_create_step _ _ _ _ x H (co_ledger _ Hok)) as (? & ? & _).
Qed.

#[global] Instance vesting_withdraw_conserving fee :
  @Conserving vesting_balance_withdraw_operation (vesting_withdraw_evaluator fee).
Proof.
  conserving.
  assert (S : same_orders d d').
  { unfold vesting_withdraw_do_apply in H. skip_bind H.
    apply rbind_ok in H as (v' & _ & H). apply adjust_same_orders in H. etransitivity; [|exact H]. by split. }
  apply exact_conserves; [done|done| |].
  - destruct (vesting_withdraw_step _ _ _ 0 H) as (_ & _ & Hl). apply Hl, (co_ledger _ Hok).
  - intros x. by destruct (vesting_withdraw_step _ _ _ x H) as (? & ? & _).
Qed.

#[global] Instance limit_cancel_conserving : Conserving limit_order_cancel_operation.
Proof.
  conserving. pose proof (co_market _ Hok) as Hm. rename d' into d1. rename out into r.
  apply moves_conserves; [done|by eapply limit_cancel_moves].
Qed.

#[global] Instance call_update_conserving : Conserving call_order_update_operation.
Proof.
  conserving. destruct m. pose proof (co_market _ Hok) as Hm. apply moves_conserves; [done|].
  exact (call_update_moves op d d' H Hm (call_update_backing op d He)).
Qed.

#[global] Instance bid_conserving : Conserving bid_collateral_operation.
Proof.
  conserving. pose proof (co_market _ Hok) as Hm. rename d' into d1. rename out into r.
  apply moves_conserves; [done|]. eapply bid_apply_moves; [done|done|by eapply bid_backing].
Qed.

(** Noting a fee on an order promises at most that fee. *)
Lemma core_fee_of_bound paid acc :
  (forall f, f ∈ paid -> asset_id f = CORE -> 0 <= amount f) -> 0 <= default 0 acc ->
  0 <= default 0 (foldl (fun acc f => if asset_id f =? CORE then Some (amount f) else acc) acc paid)
    <= default 0 acc + core_fees paid.
Proof.
  revert acc. induction paid as [|f paid IH]; cbn [foldl core_fees sumZ]; intros acc H Ha.
  - unfold core_fees. cbn. lia.
  - assert (Hl : forall g, g ∈ paid -> asset_id g = CORE -> 0 <= amount g)
      by (intros g Hg; apply H; by right).
    pose proof (H f ltac:(by left)) as Hf. specialize (IH (if asset_id f =? CORE then Some (amount f) else acc) Hl).
    unfold core_fees in *. cbn [sumZ]. unfold in_asset at 1.
    destruct (Z.eqb_spec (asset_id f) CORE) as [E|E]; cbn in IH |- *; [specialize (Hf E)|]; lia.
Qed.

Lemma set_deferred_but id filled fee extra d d' : chain_ok d -> 0 <= default 0 fee <= extra ->
  limit_create_set_deferred id filled fee d = Ok d' -> conserves_but extra d d'.
Proof.
  intros Hok He H. unfold limit_create_set_deferred, get_or in H.
  assert (Hrefl : conserves_but extra d d).
  { eapply conserves_but_mono; [|by apply conserves_but_0, conserves_refl]. lia. }
  destruct filled; [by injection H as <-|].
  destruct (limit_orders d !! id) as [o|] eqn:Eo; cbn [rbind] in H; [|done]. injection H as <-.
  destruct Hok as [Hm Hl Hs]. destruct (ok_limits _ Hm _ _ Eo) as [Hlo Hid].
  set (o' := match fee with Some f => _ | None => o end).
  assert (Ho' : limit_ok o' /\ for_sale o' = for_sale o /\ sell_price o' = sell_price o
    /\ default 0 (deferred_fee o') <= default 0 (deferred_fee o) + extra).
  { destruct Hlo as [F1 F2 F3 F4]. subst o'. destruct fee as [f|]; cbn in *; (split; [split; cbn; (done || lia)|]); repeat split; lia. }
  destruct Ho' as (Hlo' & Hf & Hp & Hd). split; [|split; [done|]].
  - split; [|done|done]. destruct Hm. split; auto. intros i p Hi. cbn in Hi |- *.
    apply lookup_insert_Some in Hi as [[<- <-]|[_ Hi]]; eauto.
  - intros x. unfold liability, excess. rewrite total_set_limit, (in_limit_insert _ _ _ o) by done.
    assert (Hsame : in_asset x (amount_for_sale o') = in_asset x (amount_for_sale o))
      by (unfold amount_for_sale; by rewrite Hf, Hp).
    assert (Hpr : promised (set_limit_orders (<[id := o']> (limit_orders d)) d)
      = promised d + default 0 (deferred_fee o') - default 0 (deferred_fee o)).
    { unfold promised. cbn. rewrite (sum_map_insert _ _ _ o) by done. lia. }
    rewrite Hpr, Hsame. cbn [supply]. unfold supply. cbn. case_if; lia.
Qed.

#[global] Instance limit_create_deferring : Deferring limit_order_create_operation.
Proof.
  intros fp bv op d r d' Hok [Ht1 Ht2] Hv Hs.
  apply start_evaluate_inv in Hs as (ctx & filled & fee & d1 & d2 & _ & Ha & Hf & Hl).
  apply rbind_ok in Ha as ([[id fl] d0] & Ha & [= Hr <- <-]).
  pose proof (limit_create_moves _ _ _ _ _ Ha (co_market _ Hok) Hv Ht1 Ht2) as M1.
  pose proof (moves_conserves _ _ Hok M1) as C1. pose proof (pay_fee_conserves _ _ _ _ _ _ (proj1 C1) Hf) as C2.
  pose proof (pay_fee_core_nonneg _ _ _ _ _ _ Hf) as Hn. split; [by apply core_fees_nonneg|].
  cbn in Hl. rewrite <- Hr in Hl.
  pose proof (core_fee_of_bound (fees r) None Hn ltac:(cbn; lia)) as Hb. cbn [default] in Hb.
  apply (conserves_but_trans 0 (core_fees (fees r)) d d2).
  - apply conserves_but_0. by eapply conserves_trans.
  - eapply set_deferred_but; [apply C2| |exact Hl]. unfold core_fee_of. cbn in Hb |- *. lia.
Qed.

(** ** An example state *)

Lemma demo_fee_market_ok : market_ok demo_fee_db.
Proof.
  split; cbn; try (intros; by rewrite lookup_empty in *).
  - intros x a Ha. apply lookup_insert_Some in Ha as [[_ <-]|[_ Ha]]; [cbn; lia|].
    apply lookup_singleton_Some in Ha as [_ <-]. cbn. lia.
Qed.
