(* ===== verification/AssetEval.v ===== *)
(** * Asset operations (chain/asset_evaluator.cpp, protocol/asset_ops.cpp)

    Creating, issuing, reserving and updating assets, price feeds, settlements and
    fee claims.  What the evaluators read from the global properties and the
    committee and witness indexes is a [feed_context].  [asset_update_restricted]
    is left out. *)

From stdpp Require Import sorting.
From S2P Require Import Prelude SafeInt Asset Vesting State Ledger Market MarketProofs.
From S2P Require Import MarketSpec Double Fees Operations.
From Stdlib Require Import String Ascii.

Open Scope string_scope.

(** ** Symbols *)

Abbreviation GRAPHENE_MIN_ASSET_SYMBOL_LENGTH := 3%nat.
Abbreviation GRAPHENE_MAX_ASSET_SYMBOL_LENGTH := 16%nat.

(** [isupper], [isdigit] and [isalpha] of the C locale. *)
Definition in_chars (lo hi : ascii) (c : ascii) : bool :=
  (nat_of_ascii lo <=? nat_of_ascii c)%nat && (nat_of_ascii c <=? nat_of_ascii hi)%nat.
Definition isupper (c : ascii) : bool := in_chars "A" "Z" c.
Definition isdigit (c : ascii) : bool := in_chars "0" "9" c.
Definition isalpha (c : ascii) : bool := isupper c || in_chars "a" "z" c.

(** The loop over the characters. *)
Fixpoint symbol_chars (dot_already_present : bool) (s : string) : bool :=
  match s with
  | EmptyString => true
  | String c s' =>
      if isalpha c && isupper c || isdigit c then symbol_chars dot_already_present s'
      else if Ascii.eqb c "." then
        if dot_already_present then false else symbol_chars true s'
      else false
  end.

Definition front (s : string) : option ascii := String.get 0 s.
Definition back (s : string) : option ascii := String.get (String.length s - 1) s.

Definition is_valid_symbol (symbol : string) : bool :=
  if (String.length symbol <? GRAPHENE_MIN_ASSET_SYMBOL_LENGTH)%nat then false
  else if String.eqb (substring 0 3 symbol) "BIT" then false
  else if (GRAPHENE_MAX_ASSET_SYMBOL_LENGTH <? String.length symbol)%nat then false
  else if negb (default false (isalpha <$> front symbol)) then false
  else if negb (default false (isalpha <$> back symbol)) then false
  else symbol_chars false symbol.

(** [symbol.substr(0, symbol.rfind('.'))] when there is a dot. *)
Fixpoint prefix_before_last_dot (s : string) : option string :=
  match s with
  | EmptyString => None
  | String c s' =>
      match prefix_before_last_dot s' with
      | Some p => Some (String c p)
      | None => if Ascii.eqb c "." then Some EmptyString else None
      end
  end.

Close Scope string_scope.

(** The [by_symbol] index of the assets. *)
Definition find_symbol (s : string) (d : database) : option (Z * asset_object) :=
  find (fun ia => String.eqb (symbol ia.2) s) (map_to_list (assets d)).

(** ** Options *)

Definition ASSET_ISSUER_PERMISSION_MASK : Z :=
  Z.lor charge_market_fee (Z.lor white_list (Z.lor override_authority (Z.lor transfer_restricted
    (Z.lor disable_force_settle (Z.lor global_settle (Z.lor disable_issuer
      (Z.lor witness_fed_asset committee_fed_asset))))))).

Definition asset_options_validate (o : asset_options) : result unit :=
  check opt_max_supply o >? 0;
  check opt_max_supply o <=? GRAPHENE_MAX_SHARE_SUPPLY;
  check opt_market_fee_percent o <=? GRAPHENE_100_PERCENT;
  check (opt_max_market_fee o >=? 0) && (opt_max_market_fee o <=? GRAPHENE_MAX_SHARE_SUPPLY);
  check Z.ldiff (opt_issuer_permissions o) ASSET_ISSUER_PERMISSION_MASK =? 0;
  check negb (has_flag (opt_flags o) global_settle);
  let* _ := match opt_core_exchange_rate o with
            | Some r => fc_assert ((asset_id (quote r) =? CORE) && (amount (quote r) >? 0)
                                   && (amount (base r) >? 0))
            | None => Ok tt
            end in
  fc_assert (negb (Z.land (opt_flags o) (Z.lor witness_fed_asset committee_fed_asset)
                   =? Z.lor witness_fed_asset committee_fed_asset)).

Definition bitasset_options_validate (o : bitasset_options) : result unit :=
  check minimum_feeds o >? 0;
  check force_settlement_offset_percent o <=? GRAPHENE_100_PERCENT;
  fc_assert (maximum_force_settlement_volume o <=? GRAPHENE_100_PERCENT).

(** [asset_object::validate]. *)
Definition asset_object_validate (a : asset_object) : result unit :=
  if is_market_issued a then Ok tt
  else
    check negb (has_flag (flags a) disable_force_settle || has_flag (flags a) global_settle);
    fc_assert (negb (has_flag (issuer_permissions a) disable_force_settle
                     || has_flag (issuer_permissions a) global_settle)).

(** [max_supply.value * std::pow(10, precision) < share_type::max()]: the product is
    a double, converted to [share_type] for the comparison. *)
Definition supply_fits (supply_ precision_ : Z) : result bool :=
  let* v := double_to_int64 (double_mul (double_of_int64 supply_) (double_pow10 precision_)) in
  Ok (v <? int64_max).

(** ** Creating an asset *)

(** What the evaluators read of the rest of the chain. *)
Record feed_context := mk_feed_context {
  block_interval : Z;
  maximum_asset_feed_publishers : Z;
  committee_accounts : gset Z;
  witness_accounts : gset Z;
  committee_active_accounts : gset Z;
  witness_active_accounts : gset Z }.

Abbreviation GRAPHENE_COMMITTEE_ACCOUNT := 0.

Record asset_create_operation := mk_asset_create {
  ac_issuer : Z;
  ac_symbol : string;
  ac_precision : Z;
  ac_common_options : asset_options;
  ac_bitasset_opts : option bitasset_options }.

Definition asset_create_validate (op : asset_create_operation) : result unit :=
  check is_valid_symbol (ac_symbol op);
  let* _ := asset_options_validate (ac_common_options op) in
  let* _ := if has_flag (opt_issuer_permissions (ac_common_options op))
                 (Z.lor disable_force_settle global_settle)
            then fc_assert (bool_decide (is_Some (ac_bitasset_opts op))) else Ok tt in
  let* _ := match ac_bitasset_opts op with
            | Some b => bitasset_options_validate b
            | None => Ok tt
            end in
  let* fits := supply_fits (opt_max_supply (ac_common_options op)) (ac_precision op) in
  check fits;
  fc_assert (ac_precision op <=? 12).

(** The backing asset of a market issued asset ends in the core asset when the
    committee issues it. *)
Definition backed_by_core (backing : Z) (d : database) : result bool :=
  let* a := get_asset backing d in
  if is_market_issued a then
    let* b := bitasset_data backing a d in
    let* _ := get_asset (short_backing_asset (options b)) d in
    Ok (short_backing_asset (options b) =? CORE)
  else Ok (backing =? CORE).

Definition asset_create_do_evaluate (ctx : feed_context) (op : asset_create_operation)
    (d : database) : result unit :=
  check bool_decide (find_symbol (ac_symbol op) d = None);
  let* _ := match prefix_before_last_dot (ac_symbol op) with
            | Some prefix =>
                let* (_, parent) := get_or (find_symbol prefix d) assert_exception in
                fc_assert (issuer parent =? ac_issuer op)
            | None => Ok tt
            end in
  match ac_bitasset_opts op with
  | None => Ok tt
  | Some o =>
      let* backing := get_asset (short_backing_asset o) d in
      let* _ :=
        if is_market_issued backing then
          let* bb := bitasset_data (short_backing_asset o) backing d in
          let* backing_backing := get_asset (short_backing_asset (options bb)) d in
          check negb (is_market_issued backing_backing);
          fc_assert (negb (ac_issuer op =? GRAPHENE_COMMITTEE_ACCOUNT)
                     || (short_backing_asset (options bb) =? CORE))
        else
          fc_assert (negb (ac_issuer op =? GRAPHENE_COMMITTEE_ACCOUNT)
                     || (short_backing_asset o =? CORE)) in
      fc_assert ((feed_lifetime_sec o >? block_interval ctx)
                 && (force_settlement_delay_sec o >? block_interval ctx))
  end.

Definition new_bitasset (o : bitasset_options) : asset_bitasset_data :=
  mk_bitasset o [] default_price_feed 0 0 null_price 0.

(** The three objects of the asset; the id of the new asset overwrites the base of
    its exchange rate. *)
Definition asset_create_do_apply (op : asset_create_operation) (d : database)
    : result (Z * database) :=
  let id := next_asset d in
  let d := set_dynamic_data (<[id := mk_dyn 0 0]> (dynamic_data d)) d in
  let d := match ac_bitasset_opts op with
           | Some o => set_bitassets (<[id := new_bitasset o]> (bitassets d)) d
           | None => d
           end in
  let o := ac_common_options op in
  let* rate := match opt_core_exchange_rate o with
               | Some r =>
                   let* _ := price_validate r in
                   Ok (Some (mk_price (mk_asset (amount (base r)) id) (quote r)))
               | None => Ok None
               end in
  let o := mk_asset_options (opt_max_supply o) (opt_market_fee_percent o) (opt_max_market_fee o)
             (opt_issuer_permissions o) (opt_flags o) rate (description o) in
  let a := mk_asset_object (ac_symbol op) (ac_precision op) (ac_issuer op) o
             (bool_decide (is_Some (ac_bitasset_opts op))) in
  Ok (id, set_next_asset (id + 1) (set_assets (<[id := a]> (assets d)) d)).

(** ** Issuing and reserving *)

Record asset_issue_operation := mk_asset_issue {
  ai_issuer : Z; ai_asset_to_issue : asset; ai_issue_to_account : Z }.

Definition asset_issue_validate (op : asset_issue_operation) : result unit :=
  check amount (ai_asset_to_issue op) <=? GRAPHENE_MAX_SHARE_SUPPLY;
  fc_assert (amount (ai_asset_to_issue op) >? 0).

Definition asset_issue_do_evaluate (op : asset_issue_operation) (d : database) : result unit :=
  let aid := asset_id (ai_asset_to_issue op) in
  let* a := get_asset aid d in
  check ai_issuer op =? issuer a;
  check negb (is_market_issued a);
  check negb (has_flag (issuer_permissions a) disable_issuer)
        && negb (has_flag (flags a) disable_issuer);
  let* _ := get_account (ai_issue_to_account op) d in
  check is_authorized_asset d (ai_issue_to_account op) aid a;
  let* dd := get_dynamic_data aid d in
  let* s := Share.add (current_supply dd) (amount (ai_asset_to_issue op)) in
  fc_assert (s <=? max_supply a).

Definition asset_issue_do_apply (op : asset_issue_operation) (d : database) : result database :=
  let* d := adjust_balance (ai_issue_to_account op) (ai_asset_to_issue op) false d in
  modify_dynamic_data (asset_id (ai_asset_to_issue op))
    (fun dd => let* s := Share.add (current_supply dd) (amount (ai_asset_to_issue op)) in
               Ok (mk_dyn s (accumulated_fees dd))) d.

Record asset_reserve_operation := mk_asset_reserve { ar_payer : Z; ar_amount_to_reserve : asset }.

Definition asset_reserve_validate (op : asset_reserve_operation) : result unit :=
  check amount (ar_amount_to_reserve op) <=? GRAPHENE_MAX_SHARE_SUPPLY;
  fc_assert (amount (ar_amount_to_reserve op) >? 0).

Definition asset_reserve_do_evaluate (op : asset_reserve_operation) (d : database) : result unit :=
  let aid := asset_id (ar_amount_to_reserve op) in
  let* a := get_asset aid d in
  require negb (is_market_issued a) else asset_reserve_invalid_on_mia;
  let* _ := get_account (ar_payer op) d in
  check is_authorized_asset d (ar_payer op) aid a;
  let* dd := get_dynamic_data aid d in
  let* s := Share.sub (current_supply dd) (amount (ar_amount_to_reserve op)) in
  fc_assert (s >=? 0).

Definition asset_reserve_do_apply (op : asset_reserve_operation) (d : database)
    : result database :=
  let* neg := asset_neg (ar_amount_to_reserve op) in
  let* d := adjust_balance (ar_payer op) neg false d in
  modify_dynamic_data (asset_id (ar_amount_to_reserve op))
    (fun dd => let* s := Share.sub (current_supply dd) (amount (ar_amount_to_reserve op)) in
               Ok (mk_dyn s (accumulated_fees dd))) d.

(** ** Settlement orders by expiration *)

(** [composite_key< settlement_asset_id, settlement_date, id >]. *)
Definition settle_before (a b : Z * force_settlement_object) : bool :=
  let x := asset_id (fs_balance a.2) in
  let y := asset_id (fs_balance b.2) in
  if x <? y then true else if y <? x then false
  else if settlement_date a.2 <? settlement_date b.2 then true
  else if settlement_date b.2 <? settlement_date a.2 then false
  else a.1 <? b.1.

(** [settlement_index.lower_bound(aid)] and [upper_bound(aid)]. *)
Definition settle_lower_bound (aid : Z) (d : database) : option (Z * force_settlement_object) :=
  head (sort_by settle_before
    (filter (fun s => aid <=? asset_id (fs_balance s.2)) (map_to_list (force_settlements d)))).
Definition settle_upper_bound (aid : Z) (d : database) : option (Z * force_settlement_object) :=
  head (sort_by settle_before
    (filter (fun s => aid <? asset_id (fs_balance s.2)) (map_to_list (force_settlements d)))).

(** Cancel the settlement orders of an asset one by one. *)
Fixpoint cancel_settlements (fuel : nat) (aid : Z) (d : database) : option (result database) :=
  match settle_lower_bound aid d with
  | Some (id, s) =>
      if asset_id (fs_balance s) =? aid then
        match fuel with
        | O => None
        | S f =>
            match cancel_settle_order id true d with
            | Err e => Some (Err e)
            | Ok d => cancel_settlements f aid d
            end
        end
      else Some (Ok d)
  | None => Some (Ok d)
  end.

Definition cancel_all_settlements (aid : Z) (d : database) : result database :=
  match cancel_settlements (size (force_settlements d)) aid d with
  | Some r => r
  | None => Err undefined_behaviour
  end.

(** ** Updating the options *)

Record asset_update_operation := mk_asset_update {
  au_issuer : Z; au_asset_to_update : Z; au_new_issuer : option Z; au_new_options : asset_options }.

Definition asset_update_validate (op : asset_update_operation) : result unit :=
  let* _ := match au_new_issuer op with
            | Some n => fc_assert (negb (au_issuer op =? n))
            | None => Ok tt
            end in
  asset_options_validate (au_new_options op).

Definition with_options (o : asset_options) (a : asset_object) : asset_object :=
  mk_asset_object (symbol a) (precision a) (issuer a) o (is_market_issued a).

Definition asset_update_do_evaluate (op : asset_update_operation) (d : database) : result unit :=
  let aid := au_asset_to_update op in
  let o := au_new_options op in
  let* a := get_asset aid d in
  let* fits := supply_fits (opt_max_supply o) (precision a) in
  check fits;
  let* _ := asset_object_validate (with_options o a) in
  let* _ := match opt_core_exchange_rate o with
            | Some r => fc_assert (asset_id (base r) =? aid)
            | None => Ok tt
            end in
  let* _ := match au_new_issuer op with
            | Some n =>
                let* _ := get_account n d in
                if is_market_issued a && (n =? GRAPHENE_COMMITTEE_ACCOUNT) then
                  let* b := bitasset_data aid a d in
                  let* ok := backed_by_core (short_backing_asset (options b)) d in
                  fc_assert ok
                else Ok tt
            | None => Ok tt
            end in
  let* dd := get_dynamic_data aid d in
  let* _ := if negb (current_supply dd =? 0)
            then fc_assert (Z.ldiff (opt_issuer_permissions o) (issuer_permissions a) =? 0)
            else Ok tt in
  check Z.ldiff (Z.lxor (opt_flags o) (flags a)) (issuer_permissions a) =? 0;
  fc_assert (au_issuer op =? issuer a).

Definition asset_update_do_apply (op : asset_update_operation) (d : database) : result database :=
  let aid := au_asset_to_update op in
  let o := au_new_options op in
  let* a := get_asset aid d in
  let* d := if has_flag (opt_flags o) disable_force_settle && can_force_settle a
            then cancel_all_settlements aid d else Ok d in
  let* a := get_asset aid d in
  let a := mk_asset_object (symbol a) (precision a) (default (issuer a) (au_new_issuer op)) o
             (is_market_issued a) in
  Ok (set_assets (<[aid := a]> (assets d)) d).

Definition set_bitasset_options (o : bitasset_options) (b : asset_bitasset_data)
    : asset_bitasset_data :=
  mk_bitasset o (feeds b) (current_feed b) (current_feed_publication_time b)
    (force_settled_volume b) (settlement_price b) (settlement_fund b).

Record asset_update_bitasset_operation := mk_asset_update_bitasset {
  aub_issuer : Z; aub_asset_to_update : Z; aub_new_options : bitasset_options }.

(** The check on the backing asset of a committee asset reads the options that are
    about to be replaced. *)
Definition asset_update_bitasset_do_evaluate (op : asset_update_bitasset_operation)
    (d : database) : result unit :=
  let aid := aub_asset_to_update op in
  let* a := get_asset aid d in
  check is_market_issued a;
  let* b := bitasset_data aid a d in
  check negb (has_settlement b);
  let* _ :=
    if negb (short_backing_asset (aub_new_options op) =? short_backing_asset (options b)) then
      let* dd := get_dynamic_data aid d in
      check current_supply dd =? 0;
      let* _ := get_asset (short_backing_asset (aub_new_options op)) d in
      if issuer a =? GRAPHENE_COMMITTEE_ACCOUNT then
        let* ok := backed_by_core (short_backing_asset (options b)) d in
        fc_assert ok
      else Ok tt
    else Ok tt in
  fc_assert (aub_issuer op =? issuer a).

Definition asset_update_bitasset_do_apply (op : asset_update_bitasset_operation) (d : database)
    : result database :=
  let aid := aub_asset_to_update op in
  let* b := get_bitasset aid d in
  let should_update_feeds := negb (minimum_feeds (aub_new_options op) =? minimum_feeds (options b)) in
  let b := set_bitasset_options (aub_new_options op) b in
  let b := if should_update_feeds then update_median_feeds (head_block_time d) b else b in
  Ok (set_bitassets (<[aid := b]> (bitassets d)) d).

(** ** Price feeds *)

Abbreviation feed_map := (list (Z * (Z * price_feed))).

(** [feeds[k] = v] on a [flat_map]. *)
Fixpoint feed_set (k : Z) (v : Z * price_feed) (m : feed_map) : feed_map :=
  match m with
  | [] => [(k, v)]
  | (k', v') :: m' =>
      if k <? k' then (k, v) :: m
      else if k =? k' then (k, v) :: m'
      else (k', v') :: feed_set k v m'
  end.

Definition feed_count (k : Z) (m : feed_map) : bool := existsb (fun kv => kv.1 =? k) m.

Definition set_feeds (m : feed_map) (b : asset_bitasset_data) : asset_bitasset_data :=
  mk_bitasset (options b) m (current_feed b) (current_feed_publication_time b)
    (force_settled_volume b) (settlement_price b) (settlement_fund b).

(** Drop the producers that are not in the new set, then add empty entries for the
    new ones. *)
Definition replace_producers (new : gset Z) (m : feed_map) : feed_map :=
  let kept := filter (fun kv => kv.1 ∈ new) m in
  foldl (fun m p => if feed_count p m then m else feed_set p (0, default_price_feed) m)
    kept (elements new).

Record asset_update_feed_producers_operation := mk_update_producers {
  afp_issuer : Z; afp_asset_to_update : Z; afp_new_feed_producers : gset Z }.

Definition update_producers_do_evaluate (ctx : feed_context)
    (op : asset_update_feed_producers_operation) (d : database) : result unit :=
  let aid := afp_asset_to_update op in
  let* a := get_asset aid d in
  check is_market_issued a;
  check Z.of_nat (size (afp_new_feed_producers op)) <=? maximum_asset_feed_publishers ctx;
  let* _ := foldr (fun id k =>
              let* _ := get_account id d in
              check negb (bool_decide (id ∈ committee_accounts ctx)
                          && has_flag (flags a) committee_fed_asset);
              check negb (bool_decide (id ∈ witness_accounts ctx)
                          && has_flag (flags a) witness_fed_asset);
              k) (Ok tt) (elements (afp_new_feed_producers op)) in
  let* _ := bitasset_data aid a d in
  fc_assert (issuer a =? afp_issuer op).

Definition update_producers_do_apply (op : asset_update_feed_producers_operation) (d : database)
    : result database :=
  let aid := afp_asset_to_update op in
  let* b := get_bitasset aid d in
  let b := update_median_feeds (head_block_time d)
             (set_feeds (replace_producers (afp_new_feed_producers op) (feeds b)) b) in
  let d := set_bitassets (<[aid := b]> (bitassets d)) d in
  let* (_, d) := check_call_orders aid true false d in
  Ok d.

Record asset_publish_feed_operation := mk_publish_feed {
  apf_publisher : Z; apf_asset_id : Z; apf_feed : price_feed }.

Definition publish_feed_validate (op : asset_publish_feed_operation) : result unit :=
  let* _ := price_feed_validate (apf_feed op) in
  let* _ := if negb (price_is_null (Asset.settlement_price (apf_feed op)))
            then price_validate (Asset.settlement_price (apf_feed op)) else Ok tt in
  check negb (price_is_null (Asset.settlement_price (apf_feed op)));
  fc_assert (price_feed_is_for (apf_feed op) (apf_asset_id op)).

Definition publish_feed_do_evaluate (ctx : feed_context) (op : asset_publish_feed_operation)
    (d : database) : result unit :=
  let* a := get_asset (apf_asset_id op) d in
  check is_market_issued a;
  let* b := bitasset_data (apf_asset_id op) a d in
  check asset_id (quote (Asset.settlement_price (apf_feed op))) =? short_backing_asset (options b);
  if has_flag (flags a) witness_fed_asset then
    fc_assert (bool_decide (apf_publisher op ∈ witness_active_accounts ctx))
  else if has_flag (flags a) committee_fed_asset then
    fc_assert (bool_decide (apf_publisher op ∈ committee_active_accounts ctx))
  else fc_assert (feed_count (apf_publisher op) (feeds b)).

Definition publish_feed_do_apply (op : asset_publish_feed_operation) (d : database)
    : result database :=
  let aid := apf_asset_id op in
  let now := head_block_time d in
  let* a := get_asset aid d in
  let* b := bitasset_data aid a d in
  let old_feed := current_feed b in
  let b := update_median_feeds now (set_feeds (feed_set (apf_publisher op) (now, apf_feed op) (feeds b)) b) in
  let d := set_bitassets (<[aid := b]> (bitassets d)) d in
  if negb (price_feed_eqb old_feed (current_feed b)) then
    let* d :=
      if has_settlement b then
        let* dd := get_dynamic_data aid d in
        let* higher :=
          if negb (current_supply dd =? 0) then
            let* cp := call_price (mk_asset (current_supply dd) aid)
                         (mk_asset (settlement_fund b) (short_backing_asset (options b)))
                         (maintenance_collateral_ratio (current_feed b)) in
            Ok (price_ltb (price_invert cp) (Asset.settlement_price (current_feed b)))
          else Ok false in
        if negb (price_is_null (Asset.settlement_price (current_feed b)))
           && ((current_supply dd =? 0) || higher)
        then revive_bitasset aid d else Ok d
      else Ok d in
    let* (_, d) := check_call_orders aid true false d in
    Ok d
  else Ok d.

(** ** Settlements *)

(** The by_collateral order of the call orders: lowest collateralization first. *)
Definition coll_price (c : call_order_object) : price := mk_price (get_collateral c) (get_debt c).
Definition coll_before (a b : Z * call_order_object) : bool :=
  if price_ltb (coll_price a.2) (coll_price b.2) then true
  else if price_ltb (coll_price b.2) (coll_price a.2) then false
  else a.1 <? b.1.

(** [call_index.lower_bound(first)]; the end iterator is [None]. *)
Definition least_collateralized (first : price) (d : database) : option (Z * call_order_object) :=
  head (sort_by coll_before
    (filter (fun c => negb (price_ltb (coll_price c.2) first)) (map_to_list (call_orders d)))).

Record asset_global_settle_operation := mk_global_settle {
  ags_issuer : Z; ags_asset_to_settle : Z; ags_settle_price : price }.

Definition global_settle_validate (op : asset_global_settle_operation) : result unit :=
  fc_assert (ags_asset_to_settle op =? asset_id (base (ags_settle_price op))).

Definition global_settle_do_evaluate (op : asset_global_settle_operation) (d : database)
    : result unit :=
  let aid := ags_asset_to_settle op in
  let* a := get_asset aid d in
  check is_market_issued a;
  check can_global_settle a;
  check issuer a =? ags_issuer op;
  let* dd := get_dynamic_data aid d in
  check current_supply dd >? 0;
  let* b := bitasset_data aid a d in
  let* first := price_min (short_backing_asset (options b)) aid in
  let* (_, c) := get_or (least_collateralized first d) undefined_behaviour in
  let* cost := asset_mul_price (get_debt c) (ags_settle_price op) in
  let* ok := asset_leb cost (get_collateral c) in
  fc_assert ok.

Definition global_settle_do_apply (op : asset_global_settle_operation) (d : database)
    : result database :=
  globally_settle_asset (ags_asset_to_settle op) (ags_settle_price op) d.

Record asset_settle_operation := mk_settle_op { as_account : Z; as_amount : asset }.

Definition settle_validate (op : asset_settle_operation) : result unit :=
  fc_assert (amount (as_amount op) >=? 0).

Definition settle_do_evaluate (op : asset_settle_operation) (d : database) : result unit :=
  let aid := asset_id (as_amount op) in
  let* a := get_asset aid d in
  check is_market_issued a;
  let* b := bitasset_data aid a d in
  check can_force_settle a || has_settlement b;
  require negb (price_is_null (Asset.settlement_price (current_feed b)) && negb (has_settlement b))
    else insufficient_feeds;
  let* _ := get_account (as_account op) d in
  let* enough := asset_geb (get_balance (as_account op) aid d) (as_amount op) in
  fc_assert enough.

Definition set_settlement_fund (f : Z) (b : asset_bitasset_data) : asset_bitasset_data :=
  mk_bitasset (options b) (feeds b) (current_feed b) (current_feed_publication_time b)
    (force_settled_volume b) (settlement_price b) f.

(** After a global settlement the holder is paid from the fund at once; otherwise a
    settlement order waits for its delay. *)
Definition settle_do_apply (op : asset_settle_operation) (d : database)
    : result ((asset + Z) * database) :=
  let aid := asset_id (as_amount op) in
  let* neg := asset_neg (as_amount op) in
  let* d := adjust_balance (as_account op) neg false d in
  let* b := get_bitasset aid d in
  if has_settlement b then
    let* dd := get_dynamic_data aid d in
    let* settled := asset_mul_price (as_amount op) (settlement_price b) in
    let* settled :=
      if amount (as_amount op) =? current_supply dd
      then Ok (mk_asset (settlement_fund b) (asset_id settled))
      else check amount settled <=? settlement_fund b; Ok settled in
    let* fund := Share.sub (settlement_fund b) (amount settled) in
    let d := set_bitassets (<[aid := set_settlement_fund fund b]> (bitassets d)) d in
    let* d := adjust_balance (as_account op) settled false d in
    let* d := modify_dynamic_data aid
                (fun dd => let* s := Share.sub (current_supply dd) (amount (as_amount op)) in
                           Ok (mk_dyn s (accumulated_fees dd))) d in
    Ok (inl settled, d)
  else
    let id := next_force_settlement d in
    let s := mk_settle (as_account op) (as_amount op)
               (wrap32 (head_block_time d + force_settlement_delay_sec (options b))) in
    Ok (inr id, set_next_force_settlement (id + 1)
                  (set_force_settlements (<[id := s]> (force_settlements d)) d)).

(** ** Claiming the market fees *)

Record asset_claim_fees_operation := mk_claim_fees { acf_issuer : Z; acf_amount_to_claim : asset }.

Definition claim_fees_validate (op : asset_claim_fees_operation) : result unit :=
  fc_assert (amount (acf_amount_to_claim op) >? 0).

Definition claim_fees_do_evaluate (op : asset_claim_fees_operation) (d : database) : result unit :=
  let* a := get_asset (asset_id (acf_amount_to_claim op)) d in
  fc_assert (issuer a =? acf_issuer op).

Definition claim_fees_do_apply (op : asset_claim_fees_operation) (d : database)
    : result database :=
  let aid := asset_id (acf_amount_to_claim op) in
  let* _ := get_asset aid d in
  let* dd := get_dynamic_data aid d in
  check amount (acf_amount_to_claim op) <=? accumulated_fees dd;
  let* d := modify_dynamic_data aid
              (fun dd => let* f := Share.sub (accumulated_fees dd) (amount (acf_amount_to_claim op)) in
                         Ok (mk_dyn (current_supply dd) f)) d in
  adjust_balance (acf_issuer op) (acf_amount_to_claim op) false d.

(** ** Single steps *)

(** Dynamic data: fees and supply move together with the totals. *)
Lemma dyn_moves aid f d d' : modify_dynamic_data aid f d = Ok d' -> market_ok d ->
  exists dd dd', dynamic_data d !! aid = Some dd /\ f dd = Ok dd' /\ dynamic_data d' !! aid = Some dd'
    /\ bitassets d' = bitassets d
    /\ moves (fun x => in_asset x (mk_asset (accumulated_fees dd' - accumulated_fees dd
                                        - (current_supply dd' - current_supply dd)) aid)) d d'.
Proof.
  intros H Hok. apply modify_dynamic_data_inv in H as (dd & dd' & Hdd & Hf & ->).
  exists dd, dd'. split; [done|]. split; [done|]. split; [cbn; by rewrite lookup_insert_eq|]. split; [done|].
  eapply moves_ext; [apply (exact_moves
    (fun x => in_asset x (mk_asset (accumulated_fees dd' - accumulated_fees dd) aid))
    (fun x => in_asset x (mk_asset (current_supply dd' - current_supply dd) aid)) d)|].
  - split; eauto.
  - done.
  - intros x. cbv beta. split; [by rewrite total_set_dyn, (in_fees_insert _ _ _ dd) by done; lia|].
    by rewrite (supply_set_dyn x _ dd).
  - intros x. cbv beta. rewrite !in_asset_sub. lia.
Qed.

(** Bitasset data: only the settlement fund holds units. *)
Lemma bitasset_moves aid b b' d : market_ok d -> bitassets d !! aid = Some b ->
  options b' = options b -> settlement_price b' = settlement_price b ->
  (has_settlement b = false -> settlement_fund b' = 0) ->
  moves (fun x => in_asset x (mk_asset (settlement_fund b' - settlement_fund b)
                               (short_backing_asset (options b)))) d
    (set_bitassets (<[aid := b']> (bitassets d)) d).
Proof.
  intros Hok Hb Ho Hp Hf. split; [|split; [done|]].
  - apply (bitasset_ok aid b b' (dynamic_data d) d Hok Hb Ho);
      unfold has_settlement in *; rewrite Hp; [done|]. intros Hs. rewrite Ho.
    by apply (ok_settled _ Hok aid b Hb).
  - intros x. unfold liability, excess.
    change (promised (set_bitassets _ d)) with (promised d).
    change (supply x (set_bitassets _ d)) with (supply x d).
    rewrite total_set_bitassets, (in_funds_insert _ _ _ b) by done. rewrite Ho, in_asset_sub. lia.
Qed.

Lemma median_keeps now b : options (update_median_feeds now b) = options b
  /\ settlement_price (update_median_feeds now b) = settlement_price b
  /\ settlement_fund (update_median_feeds now b) = settlement_fund b
  /\ force_settled_volume (update_median_feeds now b) = force_settled_volume b
  /\ feeds (update_median_feeds now b) = feeds b.
Proof.
  unfold update_median_feeds. cbv zeta.
  match goal with |- context [if ?c then _ else _] => destruct c end; [done|].
  match goal with |- context [match ?l with [] => _ | _ => _ end] => destruct l as [|f [|]] end; done.
Qed.

(** Changing feeds and the derived feed moves nothing. *)
Lemma feed_change_moves aid b b' d : market_ok d -> bitassets d !! aid = Some b ->
  options b' = options b -> settlement_price b' = settlement_price b ->
  settlement_fund b' = settlement_fund b ->
  moves neutral d (set_bitassets (<[aid := b']> (bitassets d)) d).
Proof.
  intros Hok Hb Ho Hp Hf. eapply moves_ext; [by apply (bitasset_moves aid b b');
    [..|rewrite Hf; intros Hs; by apply (ok_funds _ Hok _ _ Hb)]|].
  intros x. cbv beta. by rewrite Hf, Z.sub_diag, in_asset_0.
Qed.

(** The settlement orders: replacing the book moves what it held. *)
Lemma settlements_moves d m (delta : Z -> Z) : market_ok d ->
  (forall id s', m !! id = Some s' -> exists s, force_settlements d !! id = Some s
     /\ asset_id (fs_balance s') = asset_id (fs_balance s)) ->
  (forall x, in_settlements x m = in_settlements x (force_settlements d) + delta x) ->
  moves delta d (set_force_settlements m d).
Proof.
  intros Hok Hd Hx. split; [by destruct Hok|]. split; [by split|]. intros x. unfold liability, excess.
  change (promised (set_force_settlements m d)) with (promised d).
  change (supply x (set_force_settlements m d)) with (supply x d).
  rewrite total_set_settle, Hx. lia.
Qed.

Lemma cancel_settle_moves id vop d d' : cancel_settle_order id vop d = Ok d' -> market_ok d ->
  moves neutral d d' /\ force_settlements d' = delete id (force_settlements d)
  /\ bitassets d' = bitassets d.
Proof.
  intros H Hok. unfold cancel_settle_order, deref_settle, get_or in H.
  destruct (force_settlements d !! id) as [s|] eqn:Es; cbn [rbind] in H; [|done].
  apply rbind_ok in H as (d1 & H1 & [= <-]).
  pose proof (credit_moves _ _ _ _ H1 Hok) as M1.
  destruct (adjust_balance_books _ _ _ _ H1) as (S1 & _ & F1 & _).
  set (d2 := if vop then _ else d1).
  assert (M2 : moves neutral d1 d2)
    by (subst d2; destruct vop; [apply push_op_moves|apply moves_refl]; apply M1).
  assert (F2 : force_settlements d2 = force_settlements d) by (rewrite <- F1; by subst d2; destruct vop).
  assert (B2 : bitassets d2 = bitassets d) by (rewrite <- (sb_bitassets _ _ S1); by subst d2; destruct vop).
  split; [|split; [cbn; by rewrite F2|done]].
  eapply moves_trans; [exact M1|eapply moves_trans; [exact M2| |intros x; reflexivity]|].
  - apply (settlements_moves d2 _ (fun x => 0 - in_asset x (fs_balance s))); [apply M2| |].
    + intros i w Hw. apply lookup_delete_Some in Hw as [_ Hw]. eauto.
    + intros x. rewrite (in_settle_delete _ _ _ s) by (by rewrite F2). lia.
  - intros x. unfold neutral. lia.
Qed.

(** ** Cancelling the settlement orders of an asset *)

Lemma settle_lower_bound_in aid d id s : settle_lower_bound aid d = Some (id, s) ->
  force_settlements d !! id = Some s /\ aid <= asset_id (fs_balance s).
Proof.
  unfold settle_lower_bound. intros H. apply head_Some_elem_of in H.
  apply sort_by_elem, list_elem_of_filter in H as [Hc H].
  apply elem_of_map_to_list in H. split; [done|]. apply Is_true_true in Hc. cbn in Hc. by bool_to_prop.
Qed.

Lemma settle_lower_bound_none aid d : settle_lower_bound aid d = None ->
  forall id s, force_settlements d !! id = Some s -> asset_id (fs_balance s) < aid.
Proof.
  unfold settle_lower_bound. intros H id s Hs. destruct (Z.lt_ge_cases (asset_id (fs_balance s)) aid); [done|].
  assert (Hin : (id, s) ∈ sort_by settle_before
    (filter (fun s => aid <=? asset_id (fs_balance s.2)) (map_to_list (force_settlements d)))).
  { apply sort_by_elem, list_elem_of_filter. split; [|by apply elem_of_map_to_list].
    apply Is_true_true. cbn. by apply Z.leb_le. }
  destruct (sort_by _ _); [by apply elem_of_nil in Hin|done].
Qed.

Lemma cancel_settlements_spec fuel : forall aid d, (size (force_settlements d) <= fuel)%nat ->
  market_ok d ->
  exists r, cancel_settlements fuel aid d = Some r /\ forall d', r = Ok d' ->
    moves neutral d d' /\ bitassets d' = bitassets d.
Proof.
  induction fuel as [|fuel IH]; intros aid d Hf Hok; cbn [cancel_settlements];
    (destruct (settle_lower_bound aid d) as [[id s]|] eqn:E;
      [|eexists; split; [done|]; intros d' [= <-]; split; [by apply moves_refl|done]]);
    apply settle_lower_bound_in in E as [E _];
    (case_if; [|eexists; split; [done|]; intros d' [= <-]; split; [by apply moves_refl|done]]).
  - exfalso. assert (Hz : size (force_settlements d) = 0%nat) by lia.
    apply map_size_empty_inv in Hz. by rewrite Hz, lookup_empty in E.
  - destruct (cancel_settle_order id true d) as [d1|] eqn:Hc; [|eexists; split; [done|done]].
    destruct (cancel_settle_moves _ _ _ _ Hc Hok) as (M1 & F1 & B1).
    destruct (IH aid d1) as (r & Hr & Hspec).
    + rewrite F1, map_size_delete_Some by eauto. lia.
    + apply M1.
    + exists r. split; [done|]. intros d' Hd'. destruct (Hspec _ Hd') as [M2 B2].
      split; [|congruence]. eapply moves_trans; [exact M1|exact M2|]. done.
Qed.

Lemma cancel_all_settlements_moves aid d d' : cancel_all_settlements aid d = Ok d' -> market_ok d ->
  moves neutral d d' /\ bitassets d' = bitassets d.
Proof.
  intros H Hok. unfold cancel_all_settlements in H.
  destruct (cancel_settlements_spec (size (force_settlements d)) aid d ltac:(lia) Hok) as (r & Hr & Hs).
  rewrite Hr in H. by apply Hs.
Qed.

(** ** The evaluators *)

#[global] Instance asset_issue_evaluator : Evaluator asset_issue_operation := {
  context := unit;
  fee_payer := ai_issuer;
  well_typed := fun _ => True;
  validate := asset_issue_validate;
  do_evaluate := asset_issue_do_evaluate;
  do_apply := fun op ctx d => return_void ctx (asset_issue_do_apply op d);
  late_fee := fun _ _ => None;
  after_fee := no_after_fee }.

#[global] Instance asset_reserve_evaluator : Evaluator asset_reserve_operation := {
  context := unit;
  fee_payer := ar_payer;
  well_typed := fun _ => True;
  validate := asset_reserve_validate;
  do_evaluate := asset_reserve_do_evaluate;
  do_apply := fun op ctx d => return_void ctx (asset_reserve_do_apply op d);
  late_fee := fun _ _ => None;
  after_fee := no_after_fee }.

#[global] Instance asset_update_evaluator : Evaluator asset_update_operation := {
  context := unit;
  fee_payer := au_issuer;
  well_typed := fun op => 0 <= opt_market_fee_percent (au_new_options op);
  validate := asset_update_validate;
  do_evaluate := asset_update_do_evaluate;
  do_apply := fun op ctx d => return_void ctx (asset_update_do_apply op d);
  late_fee := fun _ _ => None;
  after_fee := no_after_fee }.

#[global] Instance update_producers_evaluator (ctx : feed_context)
    : Evaluator asset_update_feed_producers_operation := {
  context := unit;
  fee_payer := afp_issuer;
  well_typed := fun _ => True;
  validate := fun _ => Ok tt;
  do_evaluate := update_producers_do_evaluate ctx;
  do_apply := fun op ctx d => return_void ctx (update_producers_do_apply op d);
  late_fee := fun _ _ => None;
  after_fee := no_after_fee }.

#[global] Instance publish_feed_evaluator (ctx : feed_context)
    : Evaluator asset_publish_feed_operation := {
  context := unit;
  fee_payer := apf_publisher;
  well_typed := fun _ => True;
  validate := publish_feed_validate;
  do_evaluate := publish_feed_do_evaluate ctx;
  do_apply := fun op ctx d => return_void ctx (publish_feed_do_apply op d);
  late_fee := fun _ _ => None;
  after_fee := no_after_fee }.

#[global] Instance global_settle_evaluator : Evaluator asset_global_settle_operation := {
  context := unit;
  fee_payer := ags_issuer;
  well_typed := fun _ => True;
  validate := global_settle_validate;
  do_evaluate := global_settle_do_evaluate;
  do_apply := fun op ctx d => return_void ctx (global_settle_do_apply op d);
  late_fee := fun _ _ => None;
  after_fee := no_after_fee }.

(** What [do_apply] returns: the amount paid at once or the id of the new order. *)
Definition settle_result (r : asset + Z) : operation_result :=
  match r with inl a => asset_result a | inr id => object_id_result id end.

#[global] Instance settle_evaluator : Evaluator asset_settle_operation := {
  context := unit;
  fee_payer := as_account;
  well_typed := fun _ => True;
  validate := settle_validate;
  do_evaluate := settle_do_evaluate;
  do_apply := fun op ctx d => return_with ctx settle_result (settle_do_apply op d);
  late_fee := fun _ _ => None;
  after_fee := no_after_fee }.

#[global] Instance claim_fees_evaluator : Evaluator asset_claim_fees_operation := {
  context := unit;
  fee_payer := acf_issuer;
  well_typed := fun _ => True;
  validate := claim_fees_validate;
  do_evaluate := claim_fees_do_evaluate;
  do_apply := fun op ctx d => return_void ctx (claim_fees_do_apply op d);
  late_fee := fun _ _ => None;
  after_fee := no_after_fee }.

(** ** They conserve value *)

#[global] Instance asset_issue_conserving : Conserving asset_issue_operation.
Proof.
  conserving. unfold asset_issue_do_apply in H.
  apply rbind_ok in H as (d1 & H1 & H). pose proof (credit_moves _ _ _ _ H1 (co_market _ Hok)) as M1.
  apply dyn_moves in H as (dd & dd' & _ & Hf & _ & _ & M2); [|apply M1].
  apply rbind_ok in Hf as (s & Hs & [= <-]). apply Share.add_value in Hs as ->.
  apply moves_conserves; [done|]. eapply moves_trans; [exact M1|exact M2|].
  intros x. cbn [accumulated_fees current_supply]. rewrite in_asset_eta, <- in_asset_add.
  unfold neutral. rewrite <- (in_asset_0 x (asset_id (ai_asset_to_issue op))). f_equal. f_equal. lia.
Qed.

#[global] Instance asset_reserve_conserving : Conserving asset_reserve_operation.
Proof.
  conserving. unfold asset_reserve_do_apply in H.
  apply rbind_ok in H as (neg & Hn & H). apply rbind_ok in H as (d1 & H1 & H).
  pose proof (adjust_neg_moves _ _ _ _ _ Hn H1 (co_market _ Hok)) as M1.
  apply dyn_moves in H as (dd & dd' & _ & Hf & _ & _ & M2); [|apply M1].
  apply rbind_ok in Hf as (s & Hs & [= <-]). apply Share.sub_value in Hs as ->.
  apply moves_conserves; [done|]. eapply moves_trans; [exact M1|exact M2|].
  intros x. cbn [accumulated_fees current_supply]. rewrite (in_asset_eta x (ar_amount_to_reserve op)).
  unfold neutral, in_asset. cbn. case_if; lia.
Qed.

Lemma set_asset_conserves aid a d : chain_ok d ->
  0 <= market_fee_percent a <= GRAPHENE_100_PERCENT -> 0 <= max_market_fee a ->
  conserves d (set_assets (<[aid := a]> (assets d)) d).
Proof.
  intros [[] Hl Hs] Hp Hm. split; [|split; [done|]].
  - split; [|done|done]. split; cbn; auto. intros x a' Ha. destruct (decide (x = aid)) as [->|Hx].
    + rewrite lookup_insert_eq in Ha. by injection Ha as <-.
    + rewrite lookup_insert_ne in Ha by done. eauto.
  - intros x. change (excess x (set_assets _ d)) with (excess x d).
    change (liability x (set_assets _ d)) with (liability x d). lia.
Qed.

Lemma options_valid o : asset_options_validate o = Ok tt ->
  0 < opt_max_supply o <= GRAPHENE_MAX_SHARE_SUPPLY
  /\ opt_market_fee_percent o <= GRAPHENE_100_PERCENT /\ 0 <= opt_max_market_fee o.
Proof.
  unfold asset_options_validate. intros H.
  apply rbind_ok in H as (u1 & H1 & H). apply rbind_ok in H as (u2 & H2 & H).
  apply rbind_ok in H as (u3 & H3 & H). apply rbind_ok in H as (u4 & H4 & _).
  unfold fc_assert in *. case_if_in H1; [|done]. case_if_in H2; [|done]. case_if_in H3; [|done].
  case_if_in H4; [|done]. bool_to_prop. lia.
Qed.

#[global] Instance asset_update_conserving : Conserving asset_update_operation.
Proof.
  conserving. cbn in Ht, Hv. unfold asset_update_do_apply in H.
  unfold asset_update_validate in Hv. skip_bind Hv.
  apply options_valid in Hv as (_ & Hp & Hm).
  skip_bind H. apply rbind_ok in H as (d1 & H1 & H).
  apply rbind_ok in H as (a1 & _ & [= <-]).
  assert (C1 : conserves d d1).
  { case_if_in H1; [|injection H1 as <-; by apply conserves_refl].
    apply moves_conserves; [done|]. by apply (cancel_all_settlements_moves _ _ _ H1 (co_market _ Hok)). }
  eapply conserves_trans; [exact C1|]. apply set_asset_conserves; [apply C1|by split|done].
Qed.

#[global] Instance update_producers_conserving ctx :
  @Conserving asset_update_feed_producers_operation (update_producers_evaluator ctx).
Proof.
  conserving. unfold update_producers_do_apply, get_bitasset, get_or in H.
  destruct (bitassets d !! afp_asset_to_update op) as [b|] eqn:Eb; cbn [rbind] in H; [|done].
  apply rbind_ok in H as ([r d1] & H & [= <-]).
  set (b1 := set_feeds _ b) in H. destruct (median_keeps (head_block_time d) b1) as (Ho & Hp & Hf & _).
  pose proof (feed_change_moves _ b _ d (co_market _ Hok) Eb Ho Hp Hf) as M1.
  pose proof (check_call_orders_moves _ _ _ _ _ _ H (proj1 M1)) as M2.
  apply moves_conserves; [done|]. by then_neutral M1.
Qed.

#[global] Instance publish_feed_conserving ctx :
  @Conserving asset_publish_feed_operation (publish_feed_evaluator ctx).
Proof.
  conserving. unfold publish_feed_do_apply, bitasset_data, get_bitasset, get_or in H.
  skip_bind H. apply rbind_ok in H as (b & Hb & H).
  skip_bind Hb.
  destruct (bitassets d !! apf_asset_id op) as [b'|] eqn:Eb; [|done]. injection Hb as ->.
  set (b0 := set_feeds _ b) in H. destruct (median_keeps (head_block_time d) b0) as (Ho & Hp & Hf & _).
  pose proof (feed_change_moves _ b _ d (co_market _ Hok) Eb Ho Hp Hf) as M1.
  apply moves_conserves; [done|]. set (d1 := set_bitassets _ d) in *.
  case_if_in H; [|by injection H as <-]. then_neutral M1.
  apply rbind_ok in H as (d2 & H2 & H). apply rbind_ok in H as ([r d3] & H & [= <-]).
  assert (M2 : moves neutral d1 d2).
  { case_if_in H2; [|injection H2 as <-; by apply moves_refl, M1].
    do 2 skip_bind H2.
    case_if_in H2; [eapply revive_moves; [exact H2|apply M1]|injection H2 as <-; by apply moves_refl, M1]. }
  then_neutral M2. eapply check_call_orders_moves; [exact H|apply M2].
Qed.

#[global] Instance global_settle_conserving : Conserving asset_global_settle_operation.
Proof.
  conserving. apply moves_conserves; [done|].
  exact (globally_settle_moves _ _ _ _ H (co_market _ Hok)).
Qed.

#[global] Instance claim_fees_conserving : Conserving asset_claim_fees_operation.
Proof.
  conserving. unfold claim_fees_do_apply in H.
  do 3 skip_bind H. apply rbind_ok in H as (d1 & H1 & H).
  apply dyn_moves in H1 as (dd & dd' & _ & Hf & _ & _ & M1); [|apply Hok].
  apply rbind_ok in Hf as (f & Hs & [= <-]). apply Share.sub_value in Hs as ->.
  pose proof (credit_moves _ _ _ _ H (proj1 M1)) as M2.
  apply moves_conserves; [done|]. eapply moves_trans; [exact M1|exact M2|].
  intros x. cbn [accumulated_fees current_supply]. rewrite (in_asset_eta x (acf_amount_to_claim op)).
  unfold neutral, in_asset. cbn. case_if; lia.
Qed.

(** A settlement order that waits holds what the account gave up. *)
Lemma new_settlement_conserves acc a neg d d1 date : chain_ok d -> asset_neg a = Ok neg ->
  adjust_balance acc neg false d = Ok d1 ->
  conserves d (set_next_force_settlement (next_force_settlement d1 + 1)
    (set_force_settlements (<[next_force_settlement d1 := mk_settle acc a date]> (force_settlements d1)) d1)).
Proof.
  intros Hok Hn H1. pose proof (adjust_neg_moves _ _ _ _ _ Hn H1 (co_market _ Hok)) as (Hm & F & M).
  destruct (frame_ok _ _ F (co_ledger _ Hok) (co_settle _ Hok)) as [Hl Hs]. split; [|split; [apply F|]].
  - split; [by destruct Hm|done|]. intros id w Hid. cbn in Hid |- *.
    destruct (decide (id = next_force_settlement d1)) as [->|Hne]; [lia|].
    rewrite lookup_insert_ne in Hid by done. apply Hs in Hid. lia.
  - intros x. specialize (M x). revert M. unfold liability, excess.
    set (d2 := set_next_force_settlement _ _).
    change (promised d2) with (promised d1). change (supply x d2) with (supply x d1).
    assert (T : total x d2 = total x d1 + in_asset x a).
    { subst d2. transitivity (total x (set_force_settlements
        (<[next_force_settlement d1 := mk_settle acc a date]> (force_settlements d1)) d1)); [done|].
      rewrite total_set_settle. unfold in_settlements at 2. rewrite sum_map_insert_new.
      - fold (in_settlements x (force_settlements d1)). cbn [fs_balance]. lia.
      - destruct (force_settlements d1 !! next_force_settlement d1) as [s|] eqn:E; [|done].
        apply Hs in E. lia. }
    rewrite T. lia.
Qed.

#[global] Instance settle_conserving : Conserving asset_settle_operation.
Proof.
  conserving. rename d' into d0. rename out into r.
  unfold settle_do_apply, get_bitasset, get_or in H.
  apply rbind_ok in H as (neg & Hn & H). apply rbind_ok in H as (d1 & H1 & H).
  pose proof (adjust_neg_moves _ _ _ _ _ Hn H1 (co_market _ Hok)) as M1.
  destruct (bitassets d1 !! asset_id (as_amount op)) as [b|] eqn:Eb; cbn [rbind] in H; [|done].
  destruct (has_settlement b) eqn:Es; [|injection H as _ <-; by eapply new_settlement_conserves].
  skip_bind H. apply rbind_ok in H as (st & Hst & H).
  apply rbind_ok in H as (st' & Hst' & H). apply rbind_ok in H as (fund & Hfund & H).
  apply Share.sub_value in Hfund as ->.
  apply rbind_ok in H as (d3 & H3 & H). apply rbind_ok in H as (d4 & H4 & [= _ <-]).
  destruct (ok_settled _ (proj1 M1) _ _ Eb Es) as [Ebase Equote].
  assert (Eid : asset_id st' = short_backing_asset (options b)).
  { assert (Es0 : asset_id st = short_backing_asset (options b)).
    { unfold asset_mul_price in Hst. rewrite Ebase, Z.eqb_refl in Hst.
      skip_bind Hst. by apply rbind_ok in Hst as (v2 & _ & [= <-]). }
    case_if_in Hst'; [by injection Hst' as <-|]. by apply rbind_ok in Hst' as (v & _ & [= <-]). }
  pose proof (bitasset_moves _ b (set_settlement_fund (settlement_fund b - amount st') b) d1 (proj1 M1) Eb
    eq_refl eq_refl ltac:(intros Hc; congruence)) as M2. cbn [settlement_fund set_settlement_fund] in M2.
  pose proof (credit_moves _ _ _ _ H3 (proj1 M2)) as M3.
  apply dyn_moves in H4 as (dd4 & dd4' & _ & Hf & _ & _ & M4); [|apply M3].
  apply rbind_ok in Hf as (s & Hs & [= <-]). apply Share.sub_value in Hs as ->.
  apply moves_conserves; [done|].
  eapply moves_trans; [exact M1|eapply moves_trans; [exact M2|eapply moves_trans; [exact M3|exact M4|]|]|];
    intros x; [reflexivity|reflexivity|]. cbv beta. cbn [accumulated_fees current_supply].
  rewrite (in_asset_eta x st'), Eid, (in_asset_eta x (as_amount op)).
  unfold neutral, in_asset. cbn. repeat case_if; lia.
Qed.

(** ** Feed producers *)

Fixpoint feed_find (k : Z) (m : feed_map) : option (Z * price_feed) :=
  match m with
  | [] => None
  | (k', v) :: m' => if k =? k' then Some v else feed_find k m'
  end.

(** The keys of a [flat_map] are sorted and unique. *)
Definition feed_sorted (m : feed_map) : Prop := StronglySorted Z.lt (map fst m).

Lemma feed_count_spec k m : feed_count k m = true <-> is_Some (feed_find k m).
Proof.
  unfold feed_count. induction m as [|[k' v] m IH]; cbn; [split; [done|by intros [? ?]]|].
  rewrite (Z.eqb_sym k' k). destruct (k =? k'); cbn; [split; eauto|done].
Qed.

Lemma feed_find_below k m : Forall (Z.lt k) (map fst m) -> feed_find k m = None.
Proof.
  induction m as [|[k' v] m IH]; cbn; [done|]. inversion_clear 1.
  destruct (Z.eqb_spec k k'); [lia|]. by apply IH.
Qed.

Lemma feed_set_keys k v m : forall x, x ∈ map fst (feed_set k v m) <-> x = k \/ x ∈ map fst m.
Proof.
  induction m as [|[k' v'] m IH]; intros x; cbn [feed_set map fst].
  - rewrite elem_of_cons. done.
  - case_if; [cbn; by rewrite !elem_of_cons|]. case_if; bool_to_prop; cbn; rewrite !elem_of_cons.
    + subst. tauto.
    + rewrite IH. tauto.
Qed.

Lemma feed_set_sorted k v m : feed_sorted m -> feed_sorted (feed_set k v m).
Proof.
  unfold feed_sorted. induction m as [|[k' v'] m IH]; intros Hs; cbn [feed_set].
  - repeat constructor.
  - cbn in Hs. inversion_clear Hs as [|? ? Hs' Hall]. case_if; bool_to_prop; cbn.
    + constructor; [by constructor|]. constructor; [done|]. eapply Forall_impl; [exact Hall|]. cbn. lia.
    + case_if; bool_to_prop; cbn; [subst; by constructor|]. constructor; [by apply IH|].
      apply Forall_forall. intros x Hx. apply feed_set_keys in Hx as [->|Hx]; [lia|].
      by eapply Forall_forall in Hall.
Qed.

Lemma feed_set_find k v m x : feed_sorted m ->
  feed_find x (feed_set k v m) = if x =? k then Some v else feed_find x m.
Proof.
  unfold feed_sorted. induction m as [|[k' v'] m IH]; intros Hs; cbn [feed_set feed_find]; [done|].
  cbn in Hs. inversion_clear Hs as [|? ? Hs' Hall]. case_if; bool_to_prop; [done|].
  case_if; bool_to_prop; cbn [feed_find].
  - subst. by destruct (x =? k').
  - rewrite IH by done. destruct (Z.eqb_spec x k'), (Z.eqb_spec x k); try done. lia.
Qed.

Lemma feed_filter_find (new : gset Z) m x :
  feed_find x (filter (fun kv => kv.1 ∈ new) m) = if bool_decide (x ∈ new) then feed_find x m else None.
Proof.
  induction m as [|[k v] m IH]; [cbn; by case_if|]. rewrite filter_cons. cbn [fst].
  destruct (decide (k ∈ new)) as [Hk|Hk]; cbn [feed_find]; rewrite IH; destruct (Z.eqb_spec x k) as [->|Hx].
  - by rewrite bool_decide_eq_true_2.
  - done.
  - by rewrite bool_decide_eq_false_2.
  - done.
Qed.

Lemma feed_filter_sorted (new : gset Z) m : feed_sorted m ->
  feed_sorted (filter (fun kv => kv.1 ∈ new) m).
Proof.
  unfold feed_sorted. induction m as [|[k v] m IH]; [done|]. rewrite filter_cons. cbn.
  inversion_clear 1 as [|? ? Hs Hall]. case_decide; [|by apply IH]. cbn. constructor; [by apply IH|].
  apply Forall_forall. intros x Hx. apply list_elem_of_fmap in Hx as (kv & -> & Hkv).
  apply list_elem_of_filter in Hkv as [_ Hkv]. eapply Forall_forall in Hall; [exact Hall|].
  by apply list_elem_of_fmap_2.
Qed.

(** Adding empty entries for the producers that have none. *)
Lemma feed_add_missing l : forall m, feed_sorted m ->
  let m' := foldl (fun m p => if feed_count p m then m else feed_set p (0, default_price_feed) m) m l in
  feed_sorted m' /\ forall x, feed_find x m' =
    match feed_find x m with
    | Some v => Some v
    | None => if bool_decide (x ∈ l) then Some (0, default_price_feed) else None
    end.
Proof.
  induction l as [|p l IH]; intros m Hm; cbn [foldl].
  - split; [done|]. intros x. rewrite bool_decide_eq_false_2 by apply not_elem_of_nil. by destruct (feed_find x m).
  - destruct (feed_count p m) eqn:Ec.
    + destruct (IH m Hm) as [Hs Hf]. split; [done|]. intros x. rewrite Hf.
      destruct (feed_find x m) as [v|] eqn:Ex; [done|]. apply feed_count_spec in Ec as [w Hw].
      destruct (decide (x = p)) as [->|Hne]; [congruence|].
      destruct (decide (x ∈ l)) as [Hl|Hl].
      * rewrite !bool_decide_eq_true_2; [done|by constructor|done].
      * rewrite !bool_decide_eq_false_2; [done|by rewrite elem_of_cons; intros [|]|done].
    + destruct (IH (feed_set p (0, default_price_feed) m)) as [Hs Hf]; [by apply feed_set_sorted|].
      split; [done|]. intros x. rewrite Hf, feed_set_find by done.
      destruct (Z.eqb_spec x p) as [->|Hne].
      * destruct (feed_find p m) as [v|] eqn:Ex;
          [assert (feed_count p m = true) by (apply feed_count_spec; eauto); congruence|].
        rewrite bool_decide_eq_true_2 by constructor. done.
      * destruct (feed_find x m) as [v|]; [done|]. destruct (decide (x ∈ l)) as [Hl|Hl].
        -- rewrite !bool_decide_eq_true_2; [done|by constructor|done].
        -- rewrite !bool_decide_eq_false_2; [done|by rewrite elem_of_cons; intros [|]|done].
Qed.

(** ** Properties *)

(** Updating the feed producers makes the keys of the feeds exactly the new
    producers: a producer that stays keeps its feed and publication time, one that
    leaves loses its entry, a new one gets an empty feed; the map stays sorted. *)
Theorem replace_producers_exact (new : gset Z) (m : feed_map) (Hm : feed_sorted m) :
  feed_sorted (replace_producers new m) /\
  forall p, feed_find p (replace_producers new m) =
    if bool_decide (p ∈ new) then Some (default (0, default_price_feed) (feed_find p m)) else None.
Proof.
  destruct (feed_add_missing (elements new) _ (feed_filter_sorted new m Hm)) as [Hs Hf].
  split; [exact Hs|]. intros p. unfold replace_producers. rewrite Hf, feed_filter_find.
  destruct (decide (p ∈ new)) as [Hp|Hp].
  - rewrite !(bool_decide_eq_true_2 (p ∈ new)) by done. rewrite bool_decide_eq_true_2 by (by apply elem_of_elements).
    by destruct (feed_find p m).
  - rewrite !(bool_decide_eq_false_2 (p ∈ new)) by done.
    by rewrite bool_decide_eq_false_2 by (by rewrite elem_of_elements).
Qed.

Lemma replace_producers_exact_witness :
  feed_find 7 (replace_producers {[ 7; 9 ]} [(3, (10, demo_feed)); (7, (20, demo_feed))])
    = Some (20, demo_feed)
  /\ feed_find 3 (replace_producers {[ 7; 9 ]} [(3, (10, demo_feed)); (7, (20, demo_feed))]) = None.
Proof.
  destruct (replace_producers_exact {[ 7; 9 ]} [(3, (10, demo_feed)); (7, (20, demo_feed))])
    as [_ H]; [repeat constructor; lia|].
  split; [rewrite (H 7)|rewrite (H 3)]; vm_compute; reflexivity.
Defined.

Lemma get_dynamic_data_inv x d dd : get_dynamic_data x d = Ok dd -> dynamic_data d !! x = Some dd.
Proof. unfold get_dynamic_data, get_or. destruct (dynamic_data d !! x); congruence. Qed.

Lemma get_asset_inv x d a : get_asset x d = Ok a -> assets d !! x = Some a.
Proof. unfold get_asset, get_or. destruct (assets d !! x); congruence. Qed.

Lemma adjust_balance_dynamic acc delta allow d d' : adjust_balance acc delta allow d = Ok d' ->
  dynamic_data d' = dynamic_data d /\ assets d' = assets d /\ bitassets d' = bitassets d.
Proof. intros H. by apply adjust_balance_total in H as (m & -> & _). Qed.

(** Only the issuer of a user issued asset whose issuing is not disabled can issue
    it, the supply grows by exactly the amount the receiver gets and never passes
    the maximum supply. *)
Theorem issue_within_max_supply (op : asset_issue_operation) (d d' : database)
    (He : asset_issue_do_evaluate op d = Ok tt) (H : asset_issue_do_apply op d = Ok d') :
  let aid := asset_id (ai_asset_to_issue op) in
  let n := amount (ai_asset_to_issue op) in
  exists a dd, assets d !! aid = Some a /\ dynamic_data d !! aid = Some dd /\
    issuer a = ai_issuer op /\ is_market_issued a = false /\ has_flag (flags a) disable_issuer = false /\
    dynamic_data d' !! aid = Some (mk_dyn (current_supply dd + n) (accumulated_fees dd)) /\
    current_supply dd + n <= max_supply a /\ assets d' = assets d /\
    forall o x, amount (get_balance o x d') = amount (get_balance o x d)
      + (if decide ((o, x) = (ai_issue_to_account op, aid)) then n else 0).
Proof.
  intros aid n. unfold asset_issue_do_evaluate in He. fold aid in He. fold n in He.
  apply rbind_ok in He as (a & Ha & He). apply get_asset_inv in Ha.
  apply rbind_ok in He as (u1 & H1 & He). apply rbind_ok in He as (u2 & H2 & He).
  apply rbind_ok in He as (u3 & H3 & He). do 2 skip_bind He. apply rbind_ok in He as (dd & Hdd & He).
  apply get_dynamic_data_inv in Hdd. apply rbind_ok in He as (s & Hs & He).
  apply Share.add_value in Hs as ->. unfold fc_assert in *.
  case_if_in H1; [|done]. case_if_in H2; [|done]. case_if_in H3; [|done]. case_if_in He; [|done].
  bool_to_prop. exists a, dd. do 2 (split; [done|]). split; [congruence|]. split; [done|]. split; [done|].
  unfold asset_issue_do_apply in H. apply rbind_ok in H as (d1 & Hadj & H).
  pose proof (fun o x => adjust_balance_get _ _ _ _ _ o x Hadj) as Hb.
  destruct (adjust_balance_dynamic _ _ _ _ _ Hadj) as (D1 & A1 & _).
  apply modify_dynamic_data_inv in H as (dd1 & dd2 & Hd1 & Hf & ->). rewrite D1 in Hd1.
  fold aid in Hd1. rewrite Hdd in Hd1. injection Hd1 as <-.
  apply rbind_ok in Hf as (s & Hs & [= <-]). apply Share.add_value in Hs as ->.
  split; [cbn; by rewrite lookup_insert_eq|]. split; [done|]. split; [exact A1|exact Hb].
Qed.

Definition demo_issue_db : database :=
  set_assets {[ 3 := mk_asset_object "TOKEN" 5 9 (mk_asset_options 150 0 0 0 0 None "a token") false ]}
    demo_ledger.

Lemma issue_within_max_supply_witness :
  asset_issue_do_evaluate (mk_asset_issue 9 (mk_asset 51 3) 6) demo_issue_db = Err assert_exception /\
  match asset_issue_do_apply (mk_asset_issue 9 (mk_asset 50 3) 6) demo_issue_db with
  | Ok d' => amount (get_balance 6 3 d') = 50
  | Err _ => False
  end.
Proof.
  split; [vm_compute; reflexivity|].
  destruct (asset_issue_do_apply (mk_asset_issue 9 (mk_asset 50 3) 6) demo_issue_db) as [d'|] eqn:E;
    [|vm_compute in E; discriminate E].
  destruct (issue_within_max_supply (mk_asset_issue 9 (mk_asset 50 3) 6) demo_issue_db d'
    ltac:(vm_compute; reflexivity) E) as (a & dd & _ & _ & _ & _ & _ & _ & _ & _ & Hb).
  rewrite Hb. vm_compute. reflexivity.
Defined.

(** After a global settlement a holder is paid at once: the amount times the
    settlement price, rounded down and never more than the fund, or the whole fund
    when the amount is the whole supply; fund and supply shrink by what was paid
    and burnt. *)
Theorem settle_from_fund (op : asset_settle_operation) (b : asset_bitasset_data)
    (dd : asset_dynamic_data) (d d' : database) (r : asset + Z)
    (Hb : bitassets d !! asset_id (as_amount op) = Some b) (Hs : has_settlement b = true)
    (Hd : dynamic_data d !! asset_id (as_amount op) = Some dd)
    (Hp : price_ok (settlement_price b))
    (Hbase : asset_id (base (settlement_price b)) = asset_id (as_amount op))
    (Ha : 0 <= amount (as_amount op) <= int64_max)
    (H : settle_do_apply op d = Ok (r, d')) :
  let n := amount (as_amount op) in
  let paid := if n =? current_supply dd then settlement_fund b
              else n * amount (quote (settlement_price b)) / amount (base (settlement_price b)) in
  r = inl (mk_asset paid (asset_id (quote (settlement_price b)))) /\
  paid <= settlement_fund b /\
  (settlement_fund <$> bitassets d' !! asset_id (as_amount op)) = Some (settlement_fund b - paid) /\
  dynamic_data d' !! asset_id (as_amount op)
    = Some (mk_dyn (current_supply dd - n) (accumulated_fees dd)).
Proof.
  intros n paid. unfold settle_do_apply, get_bitasset, get_or in H.
  skip_bind H. apply rbind_ok in H as (d1 & H1 & H).
  destruct (adjust_balance_dynamic _ _ _ _ _ H1) as (D1 & _ & B1). rewrite B1, Hb in H.
  cbn [rbind] in H. rewrite Hs in H. apply rbind_ok in H as (dd1 & Hdd1 & H).
  apply get_dynamic_data_inv in Hdd1. rewrite D1, Hd in Hdd1. injection Hdd1 as <-.
  apply rbind_ok in H as (st & Hst & H). apply rbind_ok in H as (st' & Hst' & H).
  rewrite asset_mul_price_base in Hst by done. cbv zeta in Hst. case_if_in Hst; [|done]. injection Hst as <-.
  assert (E : st' = mk_asset paid (asset_id (quote (settlement_price b))) /\ paid <= settlement_fund b).
  { unfold paid, n. case_if_in Hst'; [by injection Hst' as <-|].
    apply rbind_ok in Hst' as (v & Hv & [= <-]). unfold fc_assert in Hv. cbn [amount] in Hv.
    case_if_in Hv; [|done]. by bool_to_prop. }
  destruct E as [-> Hle]. apply rbind_ok in H as (fund & Hfund & H). apply Share.sub_value in Hfund as ->.
  apply rbind_ok in H as (d3 & H3 & H). apply rbind_ok in H as (d4 & H4 & [= <- <-]).
  destruct (adjust_balance_dynamic _ _ _ _ _ H3) as (D3 & _ & B3).
  apply modify_dynamic_data_inv in H4 as (dd2 & dd3 & Hd2 & Hf & ->).
  rewrite D3 in Hd2. cbn in Hd2. rewrite D1, Hd in Hd2. injection Hd2 as <-.
  apply rbind_ok in Hf as (s & Hsub & [= <-]). apply Share.sub_value in Hsub as ->.
  split; [done|]. split; [done|]. split.
  - cbn. rewrite B3. cbn. by rewrite lookup_insert_eq.
  - cbn. by rewrite lookup_insert_eq.
Qed.

(** 300 core units for 200 units of asset 5; account 3 settles 50 of its 200. *)
Definition demo_settled : asset_bitasset_data :=
  mk_bitasset (mk_bitasset_options 86400 1 3600 0 2000 0) [] demo_feed 0 0
    (mk_price (mk_asset 200 5) (mk_asset 300 0)) 300.
Definition demo_settled_market : database :=
  set_call_orders ∅ (set_bitassets {[ 5 := demo_settled ]} demo_market).

Lemma settle_from_fund_witness :
  match settle_do_apply (mk_settle_op 3 (mk_asset 50 5)) demo_settled_market with
  | Ok (r, d') => r = inl (mk_asset 75 0)
      /\ (settlement_fund <$> bitassets d' !! 5) = Some 225
  | Err _ => False
  end.
Proof.
  destruct (settle_do_apply (mk_settle_op 3 (mk_asset 50 5)) demo_settled_market) as [[r d']|] eqn:E;
    [|vm_compute in E; discriminate E].
  destruct (settle_from_fund (mk_settle_op 3 (mk_asset 50 5)) demo_settled (mk_dyn 200 0)
    demo_settled_market d' r ltac:(vm_compute; reflexivity) eq_refl ltac:(vm_compute; reflexivity)
    ltac:(unfold price_ok; cbn; lia) eq_refl ltac:(cbn; lia) E) as (Hr & _ & Hf & _).
  split; [exact Hr|exact Hf].
Defined.

(** The committee's asset 5 is backed by the core asset; the update to asset 4, which
    nothing ties to the core asset, is accepted, although asset 5 could not have been
    created with it: the check reads the backing asset that is being replaced. *)
Theorem committee_backing_escapes :
  let o := mk_bitasset_options 86400 1 3600 0 2000 4 in
  let d := set_assets (<[5 := mk_asset_object "USD" 5 GRAPHENE_COMMITTEE_ACCOUNT
                                (mk_asset_options 1000 0 0 0 0 None "dollars") true]>
                         (<[4 := demo_asset false]> (assets demo_market)))
             (set_dynamic_data (<[5 := mk_dyn 0 0]> (dynamic_data demo_market)) demo_market) in
  asset_update_bitasset_do_evaluate
    (mk_asset_update_bitasset GRAPHENE_COMMITTEE_ACCOUNT 5 o) d = Ok tt /\
  asset_create_do_evaluate (mk_feed_context 3 10 ∅ ∅ ∅ ∅)
    (mk_asset_create GRAPHENE_COMMITTEE_ACCOUNT "EUR" 5
       (mk_asset_options 1000 0 0 0 0 None "euros") (Some o)) d = Err assert_exception.
Proof. split; vm_compute; reflexivity. Qed.

(** The limit on the supply is checked after a conversion of a double to a 64-bit
    integer that is undefined for exactly the values the check is to refuse. *)
Theorem supply_check_is_undefined (supply_ precision_ v : Z)
    (H : double_to_int64 (double_mul (double_of_int64 supply_) (double_pow10 precision_)) = Ok v) :
  supply_fits supply_ precision_ = Ok (v <? int64_max) /\ v <= int64_max /\
  supply_fits 1000000000000000 5 = Err undefined_behaviour.
Proof.
  split; [unfold supply_fits; by rewrite H|]. split; [apply (double_to_int64_range _ _ H)|].
  vm_compute. reflexivity.
Qed.
