(* ===== verification/ExpiredOrders.v ===== *)
(** * Expired orders and feeds (chain/db_update.cpp)

    What every block does to the market: cancel the limit orders whose time is over,
    carry out the force settlements that are due, and renew the feeds that expired.
    The loops take fuel and return [None] without it; the fuel the definitions give
    them is shown to be enough. *)

From S2P Require Import Prelude SafeInt Asset Vesting State Ledger Market MarketProofs.
From S2P Require Import MarketSpec Double Fees Operations AssetEval.

(** ** Expired limit orders *)

(** [composite_key< expiration, id >]. *)
Definition expires_before (a b : Z * limit_order_object) : bool :=
  if lo_expiration a.2 <? lo_expiration b.2 then true
  else if lo_expiration b.2 <? lo_expiration a.2 then false
  else a.1 <? b.1.

Definition first_to_expire (d : database) : option (Z * limit_order_object) :=
  head (sort_by expires_before (map_to_list (limit_orders d))).

(** Each expired order is cancelled by an operation the chain makes up for its
    seller, with the fee of that operation. *)
Fixpoint cancel_expired (fuel : nat) (fp : fee_parameters) (cancel_fee : Z) (d : database)
    : option (result database) :=
  match first_to_expire d with
  | Some (id, order) =>
      if lo_expiration order <=? head_block_time d then
        match fuel with
        | O => None
        | S f =>
            match apply_operation fp false cancel_fee (mk_lcancel (lo_seller order) id) d with
            | (Ok _, d) => cancel_expired f fp cancel_fee d
            | (Err e, _) => Some (Err e)
            end
        end
      else Some (Ok d)
  | None => Some (Ok d)
  end.

(** ** Force settlements that are due *)

(** Match one settlement order against the least collateralized positions until it
    is filled or the volume of the asset is used up. *)
Fixpoint settle_one (fuel : nat) (id aid : Z) (settlement_price_ : price)
    (max_settlement_volume settled : asset) (d : database)
    : option (result (asset * database)) :=
  match asset_ltb settled max_settlement_volume with
  | Err e => Some (Err e)
  | Ok false => Some (Ok (settled, d))
  | Ok true =>
      match force_settlements d !! id with
      | None => Some (Ok (settled, d))
      | Some order =>
          match fuel with
          | O => None
          | S f =>
              match (let* a := get_asset aid d in
                     let* mia := bitasset_data aid a d in
                     let* first := price_min (short_backing_asset (options mia)) aid in
                     let* max_settlement := asset_sub max_settlement_volume settled in
                     if amount (fs_balance order) =? 0 then
                       let* d := cancel_settle_order id true d in
                       Ok (inl (settled, d))
                     else
                       let* (call, _) := get_or (least_collateralized first d) undefined_behaviour in
                       match match_settle call id settlement_price_ max_settlement d with
                       | Ok (n, d) => let* settled := asset_add settled n in Ok (inr (settled, d))
                       | Err black_swan_exception =>
                           let* d := cancel_settle_order id true d in
                           Ok (inl (settled, d))
                       | Err e => Err e
                       end) with
              | Err e => Some (Err e)
              | Ok (inl r) => Some (Ok r)
              | Ok (inr (settled, d)) =>
                  settle_one f id aid settlement_price_ max_settlement_volume settled d
              end
          end
      end
  end.

Definition set_force_settled_volume (v : Z) (b : asset_bitasset_data) : asset_bitasset_data :=
  mk_bitasset (options b) (feeds b) (current_feed b) (current_feed_publication_time b) v
    (settlement_price b) (settlement_fund b).

(** The price of a settlement: the feed price less the offset of the asset. *)
Definition offset_price (mia : asset_bitasset_data) (pays : asset) : result price :=
  let* receives := asset_mul_price pays (Asset.settlement_price (current_feed mia)) in
  let* r := to_uint64 (wrap128 (wrap128 (amount receives)
              * wrap128 (GRAPHENE_100_PERCENT - force_settlement_offset_percent (options mia)))
              / GRAPHENE_100_PERCENT) in
  asset_div pays (mk_asset r (asset_id receives)).

(** The volume of an asset that counts in this turn. *)
Definition volume_limit (maxv : asset) (current_asset : Z) (mia : asset_bitasset_data) (d : database)
    : result asset :=
  if negb (asset_id maxv =? current_asset) then
    let* dd := get_dynamic_data current_asset d in
    let* v := max_force_settlement_volume mia (current_supply dd) in
    Ok (mk_asset v current_asset)
  else Ok maxv.

(** How one turn of the loop over the settlement orders goes on. *)
Inductive settle_turn :=
| turn_again (max_settlement_volume : asset) (d : database)
| turn_next_asset (max_settlement_volume : asset).

(** One turn: consume the first order of the current asset or give the asset up. *)
Definition settle_step (id : Z) (order : force_settlement_object) (max_settlement_volume : asset)
    (d : database) : option (result settle_turn) :=
  let current_asset := asset_id (fs_balance order) in
  match (let* a := get_asset current_asset d in
         let* mia := bitasset_data current_asset a d in
         Ok mia) with
  | Err e => Some (Err e)
  | Ok mia =>
      let cancel := Some (let* d := cancel_settle_order id true d in
                          Ok (turn_again max_settlement_volume d)) in
      if has_settlement mia then cancel
      else if settlement_date order >? head_block_time d then
        Some (Ok (turn_next_asset max_settlement_volume))
      else if price_is_null (Asset.settlement_price (current_feed mia)) then cancel
      else
        match volume_limit max_settlement_volume current_asset mia d with
        | Err e => Some (Err e)
        | Ok maxv =>
            if force_settled_volume mia >=? amount maxv then Some (Ok (turn_next_asset maxv))
            else
              match offset_price mia (fs_balance order) with
              | Err e => Some (Err e)
              | Ok p =>
                  match settle_one (S (size (call_orders d))) id current_asset p maxv
                          (mk_asset (force_settled_volume mia) current_asset) d with
                  | None => None
                  | Some (Err e) => Some (Err e)
                  | Some (Ok (settled, d)) =>
                      Some (let* mia := get_bitasset current_asset d in
                            Ok (turn_again maxv
                              (if negb (force_settled_volume mia =? amount settled)
                               then set_bitassets
                                      (<[current_asset := set_force_settled_volume (amount settled) mia]>
                                         (bitassets d)) d
                               else d)))
                  end
              end
        end
  end.

Fixpoint settle_loop (fuel : nat) (current_asset : Z) (max_settlement_volume : asset)
    (d : database) : option (result database) :=
  match settle_lower_bound current_asset d with
  | None => Some (Ok d)
  | Some (id, order) =>
      match fuel with
      | O => None
      | S f =>
          match settle_step id order max_settlement_volume d with
          | None => None
          | Some (Err e) => Some (Err e)
          | Some (Ok (turn_again maxv d)) => settle_loop f (asset_id (fs_balance order)) maxv d
          | Some (Ok (turn_next_asset maxv)) =>
              match settle_upper_bound (asset_id (fs_balance order)) d with
              | None => Some (Ok d)
              | Some (_, next) => settle_loop f (asset_id (fs_balance next)) maxv d
              end
          end
      end
  end.

(** The first settlement order of all. *)
Definition first_settlement (d : database) : option (Z * force_settlement_object) :=
  head (sort_by settle_before (map_to_list (force_settlements d))).

Definition settle_due (d : database) : option (result database) :=
  match first_settlement d with
  | None => Some (Ok d)
  | Some (_, order) =>
      settle_loop (2 * size (force_settlements d) + 2) (asset_id (fs_balance order))
        (mk_asset 0 CORE) d
  end.

Definition clear_expired_orders (fp : fee_parameters) (cancel_fee : Z) (d : database)
    : option (result database) :=
  match cancel_expired (size (limit_orders d)) fp cancel_fee d with
  | Some (Ok d) => settle_due d
  | r => r
  end.

(** ** Expired feeds *)

Definition feed_is_expired (b : asset_bitasset_data) (now : Z) : bool :=
  wrap32 (current_feed_publication_time b + feed_lifetime_sec (options b)) <=? now.

(** The market issued assets by id. *)
Definition market_issued_assets (d : database) : list Z :=
  sort_by Z.leb (map fst (filter (fun ia => is_market_issued ia.2 = true) (map_to_list (assets d)))).

(** One asset of the loop. *)
Definition renew_feed (aid : Z) (b : asset_bitasset_data) (d : database) : result database :=
  if feed_is_expired b (head_block_time d) then
    let b := update_median_feeds (head_block_time d) b in
    let d := set_bitassets (<[aid := b]> (bitassets d)) d in
    let* (_, d) := check_call_orders
                     (asset_id (base (Asset.settlement_price (current_feed b)))) true false d in
    Ok d
  else Ok d.

Fixpoint renew_feeds (ids : list Z) (d : database) : result database :=
  match ids with
  | [] => Ok d
  | aid :: ids' =>
      let* a := get_asset aid d in
      let* b := bitasset_data aid a d in
      let* d := renew_feed aid b d in
      renew_feeds ids' d
  end.

Definition update_expired_feeds (d : database) : result database :=
  renew_feeds (market_issued_assets d) d.

(** ** Margin calls add no limit orders and touch no feeds *)

(** A black swan changes the settlement price and fund of an asset, not its feeds. *)
Definition feeds_kept (d d' : database) : Prop :=
  forall aid b', bitassets d' !! aid = Some b' -> exists b, bitassets d !! aid = Some b
    /\ options b' = options b
    /\ current_feed_publication_time b' = current_feed_publication_time b.

#[global] Instance feeds_kept_preorder : PreOrder feeds_kept.
Proof.
  split; [intros d aid b Hb; eauto|]. intros d1 d2 d3 H1 H2 aid b3 Hb.
  destruct (H2 _ _ Hb) as (b2 & Hb2 & -> & ->). by apply H1.
Qed.

(** The limit orders of [d'] were there in [d], and the feeds are those of [d]. *)
Definition limits_shrink (d d' : database) : Prop :=
  dom (limit_orders d') ⊆ dom (limit_orders d) /\ feeds_kept d d'.

#[global] Instance limits_shrink_preorder : PreOrder limits_shrink.
Proof.
  split; [by intros d; split|]. intros d1 d2 d3 [H1 F1] [H2 F2]. split; [set_solver|by transitivity d2].
Qed.

(** No limit order is touched at all. *)
Definition limits_same (d d' : database) : Prop :=
  limit_orders d' = limit_orders d /\ feeds_kept d d'.

#[global] Instance limits_same_preorder : PreOrder limits_same.
Proof. split; [by intros d; split|]. intros d1 d2 d3 [H1 F1] [H2 F2]. split; [congruence|by transitivity d2]. Qed.

#[global] Instance limits_same_shrink : subrelation limits_same limits_shrink.
Proof. intros d d' [H F]. split; [by rewrite H|done]. Qed.

Lemma feeds_kept_eq d d' : bitassets d' = bitassets d -> feeds_kept d d'.
Proof. intros B aid b Hb. rewrite B in Hb. eauto. Qed.

Lemma limits_same_eq d d' : limit_orders d' = limit_orders d -> bitassets d' = bitassets d ->
  limits_same d d'.
Proof. intros L B. split; [done|by apply feeds_kept_eq]. Qed.

Lemma same_books_limits d d' : same_books d d' -> limits_same d d'.
Proof. intros S. apply limits_same_eq; apply S. Qed.

Lemma modify_dynamic_limits aid f d d' : modify_dynamic_data aid f d = Ok d' -> limits_same d d'.
Proof. intros H. apply modify_dynamic_data_inv in H as (dd & dd' & _ & _ & ->). by apply limits_same_eq. Qed.

Lemma fill_limit_feeds id pays receives cull fp mk d filled d' :
  fill_limit_order id pays receives cull fp mk d = Ok (filled, d') -> feeds_kept d d'.
Proof.
  intros H. unfold fill_limit_order, pay_market_fees in H. do 4 skip_bind H.
  apply rbind_ok in H as ([fee d1] & Hfee & H). skip_bind H. apply rbind_ok in H as (d2 & Hpay & H).
  assert (E1 : limits_same d d1).
  { do 2 skip_bind Hfee. case_if_in Hfee; [|by injection Hfee as <- <-].
    apply rbind_ok in Hfee as (dx & Hfee & [= <- <-]). by apply modify_dynamic_limits in Hfee. }
  apply pay_order_spec in Hpay as (S2 & _). apply same_books_limits in S2.
  transitivity d1; [apply E1|]. transitivity d2; [apply S2|]. case_if_in H; [injection H as <- <-; by apply feeds_kept_eq|].
  skip_bind H. case_if_in H; [|injection H as <- <-; by apply feeds_kept_eq].
  unfold maybe_cull_small_order in H. do 2 skip_bind H. case_if_in H; [|injection H as <- <-; by apply feeds_kept_eq].
  apply rbind_ok in H as (d3 & Hc & [= <- <-]). apply cancel_limit_exact in Hc as (o & d4 & _ & S4 & _ & _ & _ & -> & _).
  apply feeds_kept_eq. exact (sb_bitassets _ _ S4).
Qed.

Lemma fill_limit_shrinks id pays receives cull fp mk d filled d' :
  fill_limit_order id pays receives cull fp mk d = Ok (filled, d') -> limits_shrink d d'.
Proof.
  intros H. split; [|by eapply fill_limit_feeds].
  intros i Hi. destruct (decide (i = id)) as [->|Hne].
  - unfold fill_limit_order in H. apply rbind_ok in H as (o & Ho & _). apply deref_limit_inv in Ho.
    by apply elem_of_dom_2 in Ho.
  - rewrite elem_of_dom in Hi |- *. by rewrite (fill_limit_others _ _ _ _ _ _ _ _ _ i H Hne) in Hi.
Qed.

Lemma fill_call_limits id pays receives fp mk d filled d' :
  fill_call_order id pays receives fp mk d = Ok (filled, d') -> limits_same d d'.
Proof.
  intros H. unfold fill_call_order in H. do 5 skip_bind H.
  apply rbind_ok in H as (debt' & _ & H). apply rbind_ok in H as (coll' & _ & H).
  skip_bind H. apply rbind_ok in H as (d2 & H2 & H).
  skip_bind H. apply rbind_ok in H as (d3 & H3 & H).
  apply modify_dynamic_limits in H2. apply free_collateral_spec in H3 as (S3 & _).
  transitivity d2; [done|]. transitivity d3; [by apply same_books_limits|].
  set (fr := if debt' =? 0 then _ else _) in H. destruct fr; injection H as <- <-; by apply limits_same_eq.
Qed.

Lemma close_calls_limits ids : forall p g d g' d',
  close_calls ids p g d = Ok (g', d') -> limits_same d d'.
Proof.
  induction ids as [|id ids IH]; cbn; intros p g d g' d' H; [by injection H as <- <-|].
  do 4 skip_bind H.
  apply rbind_ok in H as ([fl d1] & H1 & H). skip_bind H.
  apply fill_call_limits in H1. apply IH in H. by transitivity d1.
Qed.

Lemma globally_settle_limits mia p d d' :
  globally_settle_asset mia p d = Ok d' -> limits_same d d'.
Proof.
  intros H. unfold globally_settle_asset in H. do 7 skip_bind H.
  apply rbind_ok in H as ([g d1] & Hc & H). apply close_calls_limits in Hc.
  apply rbind_ok in H as (b & Hb & H). skip_bind H. apply modify_dynamic_limits in H.
  transitivity d1; [done|]. etransitivity; [|exact H]. split; [done|].
  intros aid b' Hb'. cbn in Hb'. unfold get_bitasset, get_or in Hb. case_match; [|done]. injection Hb as ->.
  apply lookup_insert_Some in Hb' as [[<- <-]|[_ Hb']]; eauto.
Qed.

Lemma blackswan_limits mia en d r d' :
  check_for_blackswan mia en d = Ok (r, d') -> limits_same d d'.
Proof.
  intros H. unfold check_for_blackswan in H.
  skip_bind H. case_if_in H; [by injection H as <- <-|].
  skip_bind H. case_if_in H; [by injection H as <- <-|].
  case_if_in H; [by injection H as <- <-|].
  do 2 skip_bind H.
  apply rbind_ok in H as (v3 & _ & H). apply rbind_ok in H as (v4 & _ & H).
  destruct (call_range v3 v4 d); [by injection H as <- <-|].
  do 3 skip_bind H. case_if_in H; [|by injection H as <- <-].
  skip_bind H. apply rbind_ok in H as (d1 & H & [= <- <-]).
  by eapply globally_settle_limits.
Qed.

Lemma call_loop_limits fuel : forall mia en fn limits calls fl mc d r d',
  call_loop fuel mia en fn limits calls fl mc d = Some (Ok (r, d')) -> limits_shrink d d'.
Proof.
  induction fuel as [|fuel IH]; cbn [call_loop]; intros mia en fn limits calls fl mc d r d' H; [done|].
  destruct (check_for_blackswan mia en d) as [[swan d0]|] eqn:Eb; [|done].
  apply blackswan_limits in Eb. apply limits_same_shrink in Eb.
  transitivity d0; [done|].
  destruct swan; [by injection H as _ <-|]. destruct calls as [|cid calls]; [by injection H as _ <-|].
  destruct limits as [|lid limits]; [by injection H as _ <-|].
  match type of H with match ?m with _ => _ end = _ => destruct m as [[x|[[fl' fc] d2]]|] eqn:Es end; [| |done].
  - injection H as ->. do 4 skip_bind Es.
    case_if_in Es; [by injection Es as _ <-|].
    skip_bind Es. apply rbind_ok in Es as (sw & _ & Es). destruct sw.
    + skip_bind Es. apply rbind_ok in Es as (d1 & Hg & [= _ <-]).
      by apply globally_settle_limits, limits_same_shrink in Hg.
    + do 3 skip_bind Es. apply rbind_ok in Es as ([f1 d1] & _ & Es).
      by apply rbind_ok in Es as ([f2 d2] & _ & Es).
  - transitivity d2; [|by eapply IH].
    do 4 skip_bind Es.
    case_if_in Es; [done|].
    skip_bind Es. apply rbind_ok in Es as (sw & _ & Es). destruct sw.
    { skip_bind Es. by apply rbind_ok in Es as (d1 & _ & Es). }
    do 3 skip_bind Es. apply rbind_ok in Es as ([f1 d1] & H1 & Es).
    apply rbind_ok in Es as ([f2 d3] & H2 & [= _ _ <-]).
    apply fill_call_limits in H1. apply fill_limit_shrinks in H2.
    transitivity d1; [by apply limits_same_shrink|done].
Qed.

Lemma check_call_orders_limits mia en fn d r d' :
  check_call_orders mia en fn d = Ok (r, d') -> limits_shrink d d'.
Proof.
  intros H. unfold check_call_orders in H.
  destruct (check_call_orders_fuel S mia en fn d) as [r0|] eqn:E; [|done]. subst r0.
  unfold check_call_orders_fuel in E.
  match type of E with match ?m with _ => _ end = _ => destruct m as [[x|[[limits calls] d0]]|] eqn:Es end; [| |done].
  - injection E as ->. skip_bind Es. case_if_in Es; [by injection Es as _ <-|].
    apply rbind_ok in Es as ([sw d1] & Hb & Es). apply blackswan_limits in Hb.
    apply limits_same_shrink in Hb.
    destruct sw; [by injection Es as _ <-|]. skip_bind Es.
    case_if_in Es; [by injection Es as _ <-|]. apply rbind_ok in Es as (v1 & _ & Es).
    apply rbind_ok in Es as (v2 & _ & Es). destruct (limit_range v1 v2 d1); [by injection Es as _ <-|].
    skip_bind Es. by apply rbind_ok in Es as (v4 & _ & Es).
  - apply call_loop_limits in E. transitivity d0; [|done].
    skip_bind Es. case_if_in Es; [done|].
    apply rbind_ok in Es as ([sw d1] & Hb & Es). apply blackswan_limits in Hb.
    apply limits_same_shrink in Hb.
    destruct sw; [done|]. skip_bind Es.
    case_if_in Es; [done|]. apply rbind_ok in Es as (v1 & _ & Es).
    apply rbind_ok in Es as (v2 & _ & Es). destruct (limit_range v1 v2 d1); [done|].
    skip_bind Es. apply rbind_ok in Es as (v4 & _ & [= _ _ <-]). done.
Qed.

(** ** The first element of a sorted index *)

Lemma expires_before_key a b :
  (expires_before a b = true -> lo_expiration a.2 <= lo_expiration b.2)
  /\ (expires_before a b = false -> lo_expiration b.2 <= lo_expiration a.2).
Proof. unfold expires_before. repeat case_if; bool_to_prop; split; intros; (done || lia). Qed.

Lemma settle_before_key a b :
  (settle_before a b = true -> asset_id (fs_balance a.2) <= asset_id (fs_balance b.2))
  /\ (settle_before a b = false -> asset_id (fs_balance b.2) <= asset_id (fs_balance a.2)).
Proof. unfold settle_before. repeat case_if; bool_to_prop; split; intros; (done || lia). Qed.

Lemma first_to_expire_spec d : match first_to_expire d with
  | Some (id, o) => limit_orders d !! id = Some o
      /\ forall i p, limit_orders d !! i = Some p -> lo_expiration o <= lo_expiration p
  | None => limit_orders d = ∅
  end.
Proof.
  unfold first_to_expire. destruct (head _) as [[id o]|] eqn:E.
  - split.
    + apply head_Some_elem_of, sort_by_elem, elem_of_map_to_list in E. done.
    + intros i p Hp. apply elem_of_map_to_list in Hp.
      apply (sort_by_min expires_before (fun a => lo_expiration a.2) _ (id, o) (i, p)
        ltac:(apply expires_before_key) ltac:(apply expires_before_key) E Hp).
  - apply map_empty. intros i. destruct (limit_orders d !! i) as [p|] eqn:Hp; [|done].
    apply elem_of_map_to_list, (sort_by_elem expires_before) in Hp.
    destruct (sort_by _ _); [by apply elem_of_nil in Hp|done].
Qed.

(** ** Cancelling expired limit orders *)

Lemma cancel_op_limits fp bv acc id d r d' : chain_ok d ->
  start_evaluate fp bv (mk_lcancel acc id) d = Ok (r, d') ->
  is_Some (limit_orders d !! id) /\ dom (limit_orders d') ⊆ dom (limit_orders d) ∖ {[id]}.
Proof.
  intros Hok H. apply start_evaluate_inv in H as (ctx & ctx' & fee & d1 & d2 & _ & Ha & Hf & [= <-]).
  apply return_with_inv in Ha as (a & Ha & _ & _).
  pose proof (limit_cancel_moves _ _ _ _ Ha (co_market _ Hok)) as M.
  destruct (moves_conserves _ _ Hok M) as [Hok1 _].
  destruct (evaluator_pay_fee_effect _ _ _ _ _ _ Hf (co_ledger _ Hok1)) as (S & _).
  rewrite (so_limits _ _ S). unfold limit_cancel_do_apply in Ha. cbn [lc_order] in Ha.
  skip_bind Ha. apply rbind_ok in Ha as (d4 & H4 & Ha).
  apply rbind_ok in Ha as ([c5 d5] & H5 & Ha). apply rbind_ok in Ha as ([c6 d6] & H6 & [= _ <-]).
  apply cancel_limit_exact in H4 as (o & d7 & Ho & S7 & _ & _ & _ & E4 & _).
  split; [eauto|]. apply check_call_orders_limits in H5 as [H5 _], H6 as [H6 _].
  rewrite E4 in H5. cbn in H5. rewrite (sb_limits _ _ S7), dom_delete_L in H5. set_solver.
Qed.

Lemma apply_operation_ok {Op} `{Evaluator Op} fp bv (op : Op) d r d' :
  apply_operation fp false bv op d = (Ok r, d') -> start_evaluate fp bv op d = Ok (r, d').
Proof.
  unfold apply_operation. destruct (start_evaluate fp bv op d) as [[r1 d1]|e]; [by intros [= -> ->]|].
  destruct e; done.
Qed.

Lemma cancel_expired_spec fuel : forall fp fee d, (size (limit_orders d) <= fuel)%nat -> chain_ok d ->
  exists r, cancel_expired fuel fp fee d = Some r /\ forall d', r = Ok d' ->
    conserves d d' /\ dom (limit_orders d') ⊆ dom (limit_orders d)
    /\ forall id o, limit_orders d' !! id = Some o -> head_block_time d < lo_expiration o.
Proof.
  induction fuel as [|fuel IH]; intros fp fee d Hf Hok; cbn [cancel_expired];
    pose proof (first_to_expire_spec d) as Hfirst;
    (destruct (first_to_expire d) as [[id o]|];
      [|eexists; split; [done|]; intros d' [= <-]; split; [by apply conserves_refl|];
        split; [done|]; rewrite Hfirst; intros i p Hp; by rewrite lookup_empty in Hp]);
    destruct Hfirst as [Ho Hmin];
    (destruct (Z.leb_spec (lo_expiration o) (head_block_time d)) as [Hle|Hgt];
      [|eexists; split; [done|]; intros d' [= <-]; split; [by apply conserves_refl|];
        split; [done|]; intros i p Hp; apply Hmin in Hp; lia]).
  - exfalso. assert (Hz : size (limit_orders d) = 0%nat) by lia.
    apply map_size_empty_inv in Hz. by rewrite Hz, lookup_empty in Ho.
  - destruct (apply_operation fp false fee (mk_lcancel (lo_seller o) id) d) as [[r|e] d1] eqn:Ea;
      [|eexists; split; [done|done]].
    apply apply_operation_ok in Ea. destruct (cancel_op_limits _ _ _ _ _ _ _ Hok Ea) as [_ Hd].
    pose proof (start_evaluate_conserves _ _ (mk_lcancel (lo_seller o) id) _ _ _ Hok I eq_refl Ea) as C1.
    destruct (IH fp fee d1) as (r1 & Hr & Hspec); [|apply C1|].
    + rewrite <- !size_dom in *. apply subseteq_size in Hd.
      rewrite size_difference, size_singleton in Hd by (apply singleton_subseteq_l; by apply elem_of_dom_2 in Ho).
      lia.
    + exists r1. split; [done|]. intros d' Hd'. destruct (Hspec _ Hd') as (C2 & Hsub & Hlive).
      split; [by eapply conserves_trans|]. split; [set_solver|].
      intros i p Hp. apply Hlive in Hp. destruct C1 as (_ & <- & _). done.
Qed.

(** ** Progress of a settlement *)

Lemma fill_call_closes id pays receives fp mk d f d' c :
  fill_call_order id pays receives fp mk d = Ok (f, d') -> call_orders d !! id = Some c ->
  (size (call_orders d') <= size (call_orders d))%nat /\
  (amount receives = debt c -> (size (call_orders d') < size (call_orders d))%nat).
Proof.
  intros H Hc. unfold fill_call_order, deref_call in H. rewrite Hc in H. cbn [get_or rbind] in H.
  do 4 skip_bind H. apply rbind_ok in H as (debt' & Hd & H). apply rbind_ok in H as (coll' & _ & H).
  apply Share.sub_value in Hd. skip_bind H. apply rbind_ok in H as (d2 & H2 & H).
  skip_bind H. apply rbind_ok in H as (d3 & H3 & H).
  apply modify_dynamic_data_inv in H2 as (dd & dd' & _ & _ & E2).
  apply free_collateral_spec in H3 as (_ & Hcalls & _). rewrite E2 in Hcalls. cbn in Hcalls.
  assert (Hsize : size (call_orders d3) = size (call_orders d))
    by (rewrite Hcalls; apply map_size_insert_Some; eauto).
  assert (Hin : is_Some (call_orders d3 !! id)) by (rewrite Hcalls, lookup_insert_eq; eauto).
  pose proof (map_size_delete_Some _ _ Hin) as Hdel.
  assert (Hpos : size (call_orders d3) <> 0%nat).
  { intros Hz. apply map_size_empty_inv in Hz. rewrite Hz, lookup_empty in Hin. by destruct Hin. }
  destruct (Z.eqb_spec debt' 0) as [Ez|Ez]; injection H as <- <-; cbn.
  - rewrite Hdel. lia.
  - split; [lia|]. intros E. lia.
Qed.

Lemma fill_settle_effect id pays receives fp mk d f d' s : market_ok d ->
  0 <= amount receives <= int64_max ->
  fill_settle_order id pays receives fp mk d = Ok (f, d') -> force_settlements d !! id = Some s ->
  call_orders d' = call_orders d /\ limit_orders d' = limit_orders d /\
  (amount (fs_balance s) <= amount pays -> force_settlements d' !! id = None).
Proof.
  intros Hok Hr H Hs. unfold fill_settle_order, deref_settle in H. rewrite Hs in H. cbn [get_or rbind] in H.
  apply rbind_ok in H as ([fee d1] & Hfee & H). apply rbind_ok in H as (partial & Hp & H).
  apply rbind_ok in H as (d2 & H2 & H). skip_bind H. apply rbind_ok in H as (d3 & H3 & H).
  apply asset_ltb_inv in Hp as [_ ->].
  destruct (pay_market_fees_spec _ _ _ _ _ Hfee Hok Hr) as (S1 & C1 & _). apply sb_limits in S1.
  destruct (adjust_balance_books _ _ _ _ H3) as (S3 & C3 & _). apply sb_limits in S3.
  assert (C2 : call_orders d2 = call_orders d1 /\ limit_orders d2 = limit_orders d1).
  { case_if_in H2; [|by injection H2 as <-]. by apply rbind_ok in H2 as (rest & _ & [= <-]). }
  destruct C2 as [C2 L2].
  case_if_in H; injection H as <- <-; cbn; (split; [congruence|]); (split; [congruence|]); intros Hle; bool_to_prop; [lia|].
  by rewrite lookup_delete_eq.
Qed.

Lemma match_settle_progress call id p mx d n d' s : market_ok d ->
  match_settle call id p mx d = Ok (n, d') -> force_settlements d !! id = Some s ->
  limit_orders d' = limit_orders d /\
  (force_settlements d' !! id = None \/ amount n = amount mx
   \/ (size (call_orders d') < size (call_orders d))%nat).
Proof.
  intros Hok H Hs. unfold match_settle, deref_call, deref_settle in H.
  apply rbind_ok in H as (c & Hc & H). unfold get_or in Hc.
  destruct (call_orders d !! call) as [c'|] eqn:Ec; [|done]. injection Hc as ->.
  rewrite Hs in H. cbn [get_or rbind] in H. do 2 skip_bind H.
  apply rbind_ok in H as (sf & Hsf & H). apply rbind_ok in H as (cr & Hcr & H).
  apply rbind_ok in H as (cp & Hcp & H). do 2 skip_bind H.
  apply rbind_ok in H as ([f1 d1] & H1 & H). apply rbind_ok in H as ([f2 d2] & H2 & [= <- <-]).
  apply asset_min_inv in Hsf as (I1 & I2 & Hsf), Hcr as (I3 & I4 & Hcr).
  pose proof (asset_mul_price_amount _ _ _ Hcp) as Hb. destruct (fill_call_limits _ _ _ _ _ _ _ _ H1) as [L1 _].
  destruct (fill_call_closes _ _ _ _ _ _ _ _ _ H1 Ec) as [_ Hclose].
  apply fill_call_spec in H1 as (S1 & F1 & _); [|intros c' Ec'; rewrite Ec in Ec'; injection Ec' as <-; cbn in Hcr; lia].
  assert (Hs1 : force_settlements d1 !! id = Some s) by (by rewrite F1).
  assert (Hr : 0 <= amount cp <= int64_max) by lia.
  destruct (fill_settle_effect _ _ _ _ _ _ _ _ _ (same_books_ok _ _ S1 Hok) Hr H2 Hs1) as (C2 & L2 & Hgone).
  split; [congruence|]. cbn [get_debt amount] in Hcr.
  destruct (Z.le_gt_cases (amount (fs_balance s)) (amount cr)); [left; by apply Hgone|].
  destruct (Z.le_gt_cases (amount mx) (amount cr)); [right; left; lia|].
  right. right. rewrite C2. apply Hclose. lia.
Qed.

Lemma settle_one_stop fuel id aid p maxv settled d :
  (force_settlements d !! id = None \/ asset_ltb settled maxv = Ok false) ->
  settle_one fuel id aid p maxv settled d
  = Some (let* _ := asset_ltb settled maxv in Ok (settled, d)).
Proof.
  intros H. destruct fuel; cbn; (destruct (asset_ltb settled maxv) as [[]|] eqn:E; cbn; [|done|done]);
    (destruct H as [->|H]; [done|discriminate H]).
Qed.

Lemma cancel_settle_limits id vop d d' :
  cancel_settle_order id vop d = Ok d' -> limit_orders d' = limit_orders d.
Proof.
  intros H. unfold cancel_settle_order in H. skip_bind H. apply rbind_ok in H as (d1 & H1 & [= <-]).
  destruct (adjust_balance_books _ _ _ _ H1) as (S1 & _). apply sb_limits in S1. by destruct vop.
Qed.

(** What settling orders does: nothing is created or destroyed, the limit orders stay. *)
Definition settles (d d' : database) : Prop :=
  moves neutral d d' /\ limit_orders d' = limit_orders d.

Lemma settles_refl d : market_ok d -> settles d d.
Proof. intros H. split; [by apply moves_refl|done]. Qed.

Lemma settles_trans d1 d2 d3 : settles d1 d2 -> settles d2 d3 -> settles d1 d3.
Proof. intros [M1 L1] [M2 L2]. split; [by then_neutral M1|congruence]. Qed.

Lemma cancel_settle_settles id vop d d' : cancel_settle_order id vop d = Ok d' -> market_ok d ->
  settles d d' /\ force_settlements d' !! id = None.
Proof.
  intros H Hok. destruct (cancel_settle_moves _ _ _ _ H Hok) as (M & F & _).
  split; [split; [done|by eapply cancel_settle_limits]|]. rewrite F. apply lookup_delete_eq.
Qed.

(** A settlement ends: the order is gone or the volume is used up. *)
Lemma settle_one_spec fuel : forall id aid p maxv settled d,
  (size (call_orders d) < fuel)%nat -> market_ok d ->
  exists r, settle_one fuel id aid p maxv settled d = Some r /\ forall settled' d',
    r = Ok (settled', d') -> settles d d' /\
    (force_settlements d' !! id = None \/ amount maxv <= amount settled').
Proof.
  induction fuel as [|fuel IH]; intros id aid p maxv settled d Hf Hok; [lia|]. cbn [settle_one].
  destruct (asset_ltb settled maxv) as [[]|] eqn:El; [| |eexists; split; [done|done]].
  2: { eexists. split; [done|]. intros s' d' [= <- <-]. split; [by apply settles_refl|right].
       apply asset_ltb_inv in El as [_ El]. symmetry in El. by bool_to_prop. }
  destruct (force_settlements d !! id) as [order|] eqn:Eo;
    [|eexists; split; [done|]; intros s' d' [= <- <-]; split; [by apply settles_refl|by left]].
  match goal with |- context [match ?m with Err _ => _ | Ok _ => _ end] =>
    destruct m as [[[s1 d1]|[s1 d1]]|e] eqn:Es end; [| |eexists; split; [done|done]].
  - eexists. split; [done|]. intros s' d' [= <- <-].
    do 3 skip_bind Es. apply rbind_ok in Es as (mx & Hmx & Es).
    assert (Hc : exists v, cancel_settle_order id true d = Ok v /\ v = d1).
    { case_if_in Es; [apply rbind_ok in Es as (d2 & Hc & [= _ <-]); eauto|].
      apply rbind_ok in Es as ([call c] & _ & Es).
      destruct (match_settle call id p mx d) as [[n d2]|e]; [by apply rbind_ok in Es as (s2 & _ & Es)|].
      destruct e; try done. apply rbind_ok in Es as (d2 & Hc & [= _ <-]). eauto. }
    destruct Hc as (v & Hc & ->). destruct (cancel_settle_settles _ _ _ _ Hc Hok). eauto.
  - do 3 skip_bind Es. apply rbind_ok in Es as (mx & Hmx & Es).
    case_if_in Es; [by apply rbind_ok in Es as (d2 & _ & Es)|].
    apply rbind_ok in Es as ([call c] & _ & Es).
    destruct (match_settle call id p mx d) as [[n d2]|e] eqn:Em; [|destruct e; try done;
      by apply rbind_ok in Es as (d2 & _ & Es)].
    apply rbind_ok in Es as (s2 & Hs2 & [= <- <-]). apply asset_add_inv in Hs2 as [Hid ->].
    apply asset_sub_inv in Hmx as [Hmid ->].
    pose proof (match_settle_moves _ _ _ _ _ _ _ Em Hok) as M1.
    destruct (match_settle_progress _ _ _ _ _ _ _ _ Hok Em Eo) as [L1 [Hg|[Hn|Hlt]]];
      assert (S1 : settles d d2) by done.
    + rewrite settle_one_stop by (by left). eexists. split; [done|]. intros s' d' Hr.
      apply rbind_ok in Hr as (u & _ & [= <- <-]). split; [done|by left].
    + cbn in Hn. rewrite settle_one_stop.
      * eexists. split; [done|]. intros s' d' Hr. apply rbind_ok in Hr as (u & _ & [= <- <-]).
        split; [done|right]. cbn. lia.
      * right. unfold asset_ltb. cbn [asset_id amount]. rewrite Hmid, Z.eqb_refl. cbn. f_equal.
        apply Z.ltb_ge. lia.
    + destruct (IH id aid p maxv (mk_asset (amount settled + amount n) (asset_id settled)) d2
        ltac:(lia) (proj1 M1)) as (r & Hr & Hspec).
      exists r. split; [done|]. intros s' d' Hd. destruct (Hspec _ _ Hd) as [M2 Hend].
      split; [|done]. by eapply settles_trans.
Qed.

(** ** The loop over the settlement orders *)

(** The settlement orders in assets from [c] on. *)
Definition due_from (c : Z) (d : database) : gset Z :=
  dom (filter (fun p => c <= asset_id (fs_balance p.2)) (force_settlements d)).

Lemma elem_of_due_from c d id : id ∈ due_from c d <->
  exists s, force_settlements d !! id = Some s /\ c <= asset_id (fs_balance s).
Proof.
  unfold due_from. rewrite elem_of_dom. split.
  - intros [s Hs]. apply map_lookup_filter_Some in Hs as [Hs Hc]. eauto.
  - intros (s & Hs & Hc). exists s. by apply map_lookup_filter_Some.
Qed.

Lemma due_from_frame c d d' : frame d d' -> due_from c d' ⊆ due_from c d.
Proof.
  intros F id Hid. apply elem_of_due_from in Hid as (s' & Hs' & Hc).
  destruct (fr_settlements _ _ F _ _ Hs') as (s & Hs & E). apply elem_of_due_from. exists s. by rewrite <- E.
Qed.

Lemma due_from_anti c c' d : c <= c' -> due_from c' d ⊆ due_from c d.
Proof. intros Hc id. rewrite !elem_of_due_from. intros (s & Hs & Hle). exists s. split; [done|lia]. Qed.

(** Removing one of the orders is progress. *)
Lemma due_from_drop c id (X : gset Z) d : id ∈ due_from c d -> X ⊆ due_from c d -> id ∉ X ->
  (size X < size (due_from c d))%nat.
Proof. intros Hin Hsub Hnot. apply subset_size. set_solver. Qed.

Lemma settle_bound_spec (P : Z -> bool) d :
  match head (sort_by settle_before
          (filter (fun p => P (asset_id (fs_balance p.2))) (map_to_list (force_settlements d)))) with
  | Some (id, s) => force_settlements d !! id = Some s /\ P (asset_id (fs_balance s))
      /\ forall i t, force_settlements d !! i = Some t -> P (asset_id (fs_balance t)) ->
           asset_id (fs_balance s) <= asset_id (fs_balance t)
  | None => forall i t, force_settlements d !! i = Some t -> ~ P (asset_id (fs_balance t))
  end.
Proof.
  set (l := filter _ (map_to_list _)).
  assert (Hl : forall i t, (i, t) ∈ l <-> force_settlements d !! i = Some t /\ P (asset_id (fs_balance t))).
  { intros i t. unfold l. rewrite list_elem_of_filter, elem_of_map_to_list. cbn. tauto. }
  destruct (head (sort_by settle_before l)) as [[id s]|] eqn:E.
  - pose proof E as Hin. apply head_Some_elem_of, sort_by_elem, Hl in Hin as [Hs Hp].
    split; [done|]. split; [done|]. intros i t Ht Hpt.
    apply (sort_by_min settle_before (fun a => asset_id (fs_balance a.2)) l (id, s) (i, t)
      ltac:(apply settle_before_key) ltac:(apply settle_before_key) E). by apply Hl.
  - intros i t Ht Hpt. assert (Hin : (i, t) ∈ sort_by settle_before l) by (by apply sort_by_elem, Hl).
    destruct (sort_by settle_before l); [by apply elem_of_nil in Hin|done].
Qed.

(** Whether the volume of asset [c] is not used up yet. *)
Definition room (c : Z) (maxv : asset) (d : database) : nat :=
  match bitassets d !! c with
  | Some b => if (asset_id maxv =? c) && (force_settled_volume b >=? amount maxv) then 0 else 1
  | None => 1
  end.

Lemma room_le c maxv d : (room c maxv d <= 1)%nat.
Proof. unfold room. repeat case_match; lia. Qed.

Lemma volume_limit_asset maxv c mia d v : volume_limit maxv c mia d = Ok v ->
  asset_id v = c /\ (asset_id maxv = c -> v = maxv).
Proof.
  unfold volume_limit. destruct (Z.eqb_spec (asset_id maxv) c) as [E|E]; cbn [negb]; intros H.
  - injection H as <-. done.
  - do 2 skip_bind H. by injection H as <-.
Qed.

(** A turn consumes the order, uses up the volume of its asset or gives the asset up. *)
Lemma settle_step_spec id order maxv d : market_ok d -> force_settlements d !! id = Some order ->
  exists r, settle_step id order maxv d = Some r /\ forall maxv' d', r = Ok (turn_again maxv' d') ->
    settles d d' /\
    (force_settlements d' !! id = None
     \/ room (asset_id (fs_balance order)) maxv d = 1%nat
        /\ room (asset_id (fs_balance order)) maxv' d' = 0%nat).
Proof.
  intros Hok Ho. unfold settle_step. set (c := asset_id (fs_balance order)).
  assert (Hcancel : forall maxv' d', (let* d := cancel_settle_order id true d in Ok (turn_again maxv d))
      = Ok (turn_again maxv' d') -> settles d d' /\ force_settlements d' !! id = None).
  { intros maxv' d' H. apply rbind_ok in H as (d1 & Hc & [= <- <-]).
    by apply (cancel_settle_settles _ _ _ _ Hc). }
  destruct (let* a := get_asset c d in let* mia := bitasset_data c a d in Ok mia) as [mia|e] eqn:Em;
    [|eexists; split; [done|done]].
  assert (Hb : bitassets d !! c = Some mia).
  { skip_bind Em. apply rbind_ok in Em as (m & Hm & [= ->]). unfold bitasset_data, get_bitasset, get_or in Hm.
    skip_bind Hm. by case_match; [injection Hm as ->|]. }
  case_if; [eexists; split; [done|]; intros; edestruct Hcancel; eauto|].
  case_if; [eexists; split; [done|done]|].
  case_if; [eexists; split; [done|]; intros; edestruct Hcancel; eauto|].
  destruct (volume_limit maxv c mia d) as [v|e] eqn:Ev;
    [|eexists; split; [done|done]].
  destruct (volume_limit_asset _ _ _ _ _ Ev) as [Hv Hsame].
  destruct (force_settled_volume mia >=? amount v) eqn:Efull; [eexists; split; [done|done]|].
  destruct (offset_price mia (fs_balance order)) as [p|e]; [|eexists; split; [done|done]].
  destruct (settle_one_spec (S (size (call_orders d))) id c p v
    (mk_asset (force_settled_volume mia) c) d ltac:(lia) Hok) as (r & -> & Hspec).
  destruct r as [[settled d1]|e]; [|eexists; split; [done|done]].
  eexists. split; [done|]. intros maxv' d' H. apply rbind_ok in H as (m1 & Hm1 & [= <- <-]).
  destruct (Hspec _ _ eq_refl) as [M1 Hend].
  unfold get_bitasset, get_or in Hm1. destruct (bitassets d1 !! c) as [m2|] eqn:Eb1; [|done].
  injection Hm1 as ->.
  assert (Hr0 : room c maxv d = 1%nat).
  { unfold room. rewrite Hb. destruct (Z.eqb_spec (asset_id maxv) c) as [E|E]; [|done].
    rewrite Hsame in Efull by done. by rewrite Efull. }
  assert (Hfull : forall b, amount v <= force_settled_volume b ->
    (if (asset_id v =? c) && (force_settled_volume b >=? amount v) then 0%nat else 1%nat) = 0%nat).
  { intros b Hle. rewrite Hv, Z.eqb_refl. replace (_ >=? _) with true; [done|]. symmetry. apply Z.geb_le. lia. }
  destruct (Z.eqb_spec (force_settled_volume m1) (amount settled)) as [E|E]; cbn [negb].
  - split; [done|]. destruct Hend as [Hg|Hle]; [by left|right]. split; [done|].
    unfold room. rewrite Eb1. apply Hfull. lia.
  - split; [eapply settles_trans; [exact M1|]; split; [apply (feed_change_moves _ m1); try done; apply M1|done]|].
    destruct Hend as [Hg|Hle]; [by left|right]. split; [done|].
    unfold room. cbn. rewrite lookup_insert_eq. by apply Hfull.
Qed.

(** The asset of the next turn. *)
Definition turn_asset (c : Z) (d : database) : Z :=
  match settle_lower_bound c d with Some (_, s) => asset_id (fs_balance s) | None => c end.

(** What is left to do: two turns for each order, one less where the volume is used up. *)
Definition turns_left (c : Z) (maxv : asset) (d : database) : nat :=
  2 * size (due_from c d) + room (turn_asset c d) maxv d.

Lemma lower_bound_due c d id s : settle_lower_bound c d = Some (id, s) ->
  force_settlements d !! id = Some s /\ id ∈ due_from (asset_id (fs_balance s)) d
  /\ due_from (asset_id (fs_balance s)) d ⊆ due_from c d.
Proof.
  intros H. pose proof (settle_bound_spec (Z.leb c) d) as Hs.
  unfold settle_lower_bound in H. rewrite H in Hs. destruct Hs as (Hs & Hc & _).
  split; [done|]. split; [by apply elem_of_due_from; exists s|].
  apply due_from_anti. apply Is_true_true in Hc. lia.
Qed.

(** An order of asset [c] is left: the next turn is for [c]. *)
Lemma turn_asset_same c d id s : force_settlements d !! id = Some s -> asset_id (fs_balance s) = c ->
  turn_asset c d = c.
Proof.
  intros Hs E. unfold turn_asset, settle_lower_bound.
  pose proof (settle_bound_spec (Z.leb c) d) as Hb.
  destruct (head _) as [[i t]|]; [|done]. destruct Hb as (_ & Hc & Hmin). apply Is_true_true in Hc.
  specialize (Hmin _ _ Hs). rewrite E in Hmin. specialize (Hmin ltac:(apply Is_true_true; lia)). lia.
Qed.

Lemma upper_bound_due c d i t : settle_upper_bound c d = Some (i, t) -> c < asset_id (fs_balance t).
Proof.
  intros H. pose proof (settle_bound_spec (Z.ltb c) d) as Hs.
  unfold settle_upper_bound in H. rewrite H in Hs. destruct Hs as (_ & Hc & _).
  apply Is_true_true in Hc. lia.
Qed.

Lemma turns_left_le c maxv d : (turns_left c maxv d <= 2 * size (force_settlements d) + 2)%nat.
Proof.
  unfold turns_left. pose proof (room_le (turn_asset c d) maxv d).
  assert (Hsz : (size (due_from c d) <= size (force_settlements d))%nat); [|lia].
  rewrite <- size_dom. apply subseteq_size, dom_filter_subseteq.
Qed.

Lemma settle_loop_spec fuel : forall c maxv d, (turns_left c maxv d <= fuel)%nat -> market_ok d ->
  exists r, settle_loop fuel c maxv d = Some r /\ forall d', r = Ok d' -> settles d d'.
Proof.
  induction fuel as [|fuel IH]; intros c maxv d Hf Hok; cbn [settle_loop];
    (destruct (settle_lower_bound c d) as [[id order]|] eqn:Eb;
      [|eexists; split; [done|]; intros d' [= <-]; by apply settles_refl]);
    destruct (lower_bound_due _ _ _ _ Eb) as (Ho & Hin & Hsub);
    assert (Hpos : (size (due_from c d) <> 0)%nat) by (intros Hz; apply size_empty_inv in Hz; set_solver);
    unfold turns_left, turn_asset in Hf; rewrite Eb in Hf; [lia|].
  set (a := asset_id (fs_balance order)) in *. apply subseteq_size in Hsub as Hle.
  destruct (settle_step_spec id order maxv d Hok Ho) as (r & -> & Hstep).
  destruct r as [[maxv' d1|maxv']|e]; [| |eexists; split; [done|done]].
  - destruct (Hstep _ _ eq_refl) as [M1 Hp]. pose proof (due_from_frame a _ _ (proj1 (proj2 (proj1 M1)))) as Hfr.
    destruct (IH a maxv' d1) as (r & Hr & Hspec); [|apply M1|exists r; split; [done|]; intros d' Hd;
      eapply settles_trans; [exact M1|by apply Hspec]].
    unfold turns_left. pose proof (room_le (turn_asset a d1) maxv' d1).
    destruct (force_settlements d1 !! id) as [s|] eqn:Es.
    + destruct Hp as [Hp|[Hp1 Hp2]]; [done|]. fold a in Hp1, Hp2. destruct (fr_settlements _ _ (proj1 (proj2 (proj1 M1))) _ _ Es) as (s0 & E0 & Ea).
      rewrite Ho in E0. injection E0 as <-. fold a in Ea. rewrite (turn_asset_same _ _ _ _ Es Ea), Hp2.
      rewrite Hp1 in Hf. apply subseteq_size in Hfr. lia.
    + pose proof (due_from_drop a id _ d Hin Hfr) as Hlt.
      specialize (Hlt ltac:(rewrite elem_of_due_from; intros (s & Hs & _); by rewrite Es in Hs)). lia.
  - destruct (settle_upper_bound a d) as [[i next]|] eqn:Eu;
      [|eexists; split; [done|]; intros d' [= <-]; by apply settles_refl].
    apply upper_bound_due in Eu. apply IH; [|done]. unfold turns_left.
    pose proof (room_le (turn_asset (asset_id (fs_balance next)) d) maxv' d).
    pose proof (due_from_drop a id _ d Hin (due_from_anti a _ d (Z.lt_le_incl _ _ Eu))) as Hlt.
    specialize (Hlt ltac:(rewrite elem_of_due_from; intros (s & Hs & Hge); rewrite Ho in Hs;
      injection Hs as <-; unfold a in *; lia)). lia.
Qed.

Lemma clear_expired_orders_ends fp cancel_fee d : chain_ok d ->
  exists r, clear_expired_orders fp cancel_fee d = Some r /\ forall d', r = Ok d' ->
    conserves d d' /\
    forall id o, limit_orders d' !! id = Some o -> head_block_time d' < lo_expiration o.
Proof.
  intros Hok. unfold clear_expired_orders.
  destruct (cancel_expired_spec (size (limit_orders d)) fp cancel_fee d (Nat.le_refl _) Hok)
    as (r & -> & H). destruct r as [d1|e]; [|eexists; split; [done|done]].
  destruct (H _ eq_refl) as (C1 & _ & Hlive).
  assert (Hdue : exists r, settle_due d1 = Some r /\ forall d', r = Ok d' -> settles d1 d').
  { unfold settle_due. destruct (first_settlement d1) as [[i order]|];
      [|eexists; split; [done|]; intros d' [= <-]; apply settles_refl, C1].
    apply settle_loop_spec; [|apply C1]. apply turns_left_le. }
  destruct Hdue as (r & Hr & Hspec). exists r. split; [done|]. intros d' Hd.
  destruct (Hspec _ Hd) as [M L]. destruct (moves_conserves _ _ (proj1 C1) M) as (Hok' & Ht & Hx).
  split; [eapply conserves_trans; [exact C1|done]|].
  intros id o Ho. rewrite L in Ho. apply Hlive in Ho. rewrite Ht. destruct C1 as (_ & -> & _). done.
Qed.

(** C12: Clearing the expired orders of a block ends: whatever limit orders have expired and
    whatever settlements are due, the loops of [clear_expired_orders] reach a result.  When it
    is not an error, every limit order that is left expires after the head block, and
    nothing was created or destroyed on the way. *)
Theorem clear_expired_orders_total fp cancel_fee d : chain_ok d ->
  exists r, clear_expired_orders fp cancel_fee d = Some r /\ forall d', r = Ok d' ->
    conserves d d' /\
    forall id o, limit_orders d' !! id = Some o -> head_block_time d' < lo_expiration o.
Proof. apply clear_expired_orders_ends. Qed.

(** The market of [demo_book] with a gas asset; order 0 has expired and account 3 has
    a settlement order that is due. *)
Definition demo_due : database :=
  set_next_force_settlement 1 (set_force_settlements {[0 := mk_settle 3 (mk_asset 30 5) 90]}
    (set_limit_orders
       (list_to_map [(0, mk_limit 50 3 60 (mk_price (mk_asset 60 5) (mk_asset 30 0)) None);
                     (1, mk_limit 200 1 20 (mk_price (mk_asset 20 0) (mk_asset 40 5)) None)])
       (set_assets (<[GRAPHENE_ASSET_GAS := mk_asset_object "GAS" 5 9
                       (mk_asset_options 1000 0 0 0 0 (Some demo_gas_rate) "gas") false]>
                      (assets demo_book)) demo_book))).

Lemma demo_due_ok : chain_ok demo_due.
Proof.
  destruct demo_book_ok. split.
  - split; auto.
    + intros x a H. cbn in H. apply lookup_insert_Some in H as [[_ <-]|[_ H]]; [cbn; lia|by eapply ok_assets].
    + intros id o H. apply elem_of_list_to_map_2 in H. rewrite !elem_of_cons, elem_of_nil in H.
      destruct H as [H|[H|[]]]; injection H as -> ->;
        (split; [split; unfold price_ok; cbn; (done || lia)|cbn; lia]).
  - split; [|by intros id v Hv; cbn in Hv; rewrite lookup_empty in Hv].
    intros k v Hk. cbn in Hk. apply lookup_insert_Some in Hk as [[_ <-]|[_ Hk]]; [lia|].
    apply lookup_singleton_Some in Hk as [_ <-]. lia.
  - intros id s H. cbn in H. apply lookup_singleton_Some in H as [<- _]. cbn. lia.
Qed.

(** Order 0 is cancelled and the settlement takes 30 units of collateral. *)
Lemma clear_expired_orders_total_witness :
  match clear_expired_orders (mk_fee_parameters 10000 86400) 0 demo_due with
  | Some (Ok d') => excess 5 d' = excess 5 demo_due /\ limit_orders d' !! 0 = None
      /\ amount (get_balance 3 5 d') = 260 /\ amount (get_balance 3 0 d') = 30
  | _ => False
  end.
Proof.
  destruct (clear_expired_orders_total (mk_fee_parameters 10000 86400) 0 demo_due demo_due_ok)
    as (r & E & H).
  assert (Hv : match clear_expired_orders (mk_fee_parameters 10000 86400) 0 demo_due with
    | Some (Ok d) => Some (limit_orders d !! 0, amount (get_balance 3 5 d), amount (get_balance 3 0 d))
    | _ => None end = Some (None, 260, 30)) by (vm_compute; reflexivity).
  rewrite E in Hv |- *. destruct r as [d'|e]; [|discriminate Hv]. injection Hv as -> -> ->.
  destruct (H d' eq_refl) as [(_ & _ & C) _]. specialize (C 5). unfold liability in C. cbn in C.
  split; [lia|done].
Defined.

(** The chain hangs on an expired order whose cancellation fails: the exception leaves
    the loop, so the block that meets the order is refused, and so is every later one. *)
Lemma expired_cancellation_throws fp fee d id o e :
  first_to_expire d = Some (id, o) -> lo_expiration o <= head_block_time d ->
  start_evaluate fp fee (mk_lcancel (lo_seller o) id) d = Err e ->
  exists e', clear_expired_orders fp fee d = Some (Err e').
Proof.
  intros Hf Ht He. unfold clear_expired_orders.
  assert (Hs : exists n, size (limit_orders d) = S n).
  { pose proof (first_to_expire_spec d) as H. rewrite Hf in H. destruct H as [H _].
    destruct (size (limit_orders d)) eqn:E; [|eauto]. apply map_size_empty_inv in E.
    by rewrite E, lookup_empty in H. }
  destruct Hs as [n ->]. cbn [cancel_expired]. rewrite Hf, (proj2 (Z.leb_le _ _) Ht).
  unfold apply_operation. rewrite He. destruct e; eauto.
Qed.

(** A cancellation fee of 5 core units is enough: the seller has only the asset it sells. *)
Theorem expired_order_hangs_chain :
  clear_expired_orders (mk_fee_parameters 10000 86400) 5 demo_due = Some (Err fc_exception).
Proof. vm_compute. reflexivity. Qed.

(** ** Renewing feeds *)

Lemma bitasset_data_inv aid a d b : bitasset_data aid a d = Ok b -> bitassets d !! aid = Some b.
Proof.
  intros H. unfold bitasset_data, get_bitasset, get_or in H. skip_bind H.
  destruct (bitassets d !! aid) as [b'|]; [by injection H as ->|done].
Qed.

Lemma renew_feed_conserves aid b d d' : chain_ok d -> bitassets d !! aid = Some b ->
  renew_feed aid b d = Ok d' -> conserves d d'.
Proof.
  intros Hok Hb H. unfold renew_feed in H. case_if_in H; [|injection H as <-; by apply conserves_refl].
  apply rbind_ok in H as ([r d2] & Hc & [= <-]).
  destruct (median_keeps (head_block_time d) b) as (Ho & Hp & Hs & _).
  pose proof (feed_change_moves _ b _ d (co_market _ Hok) Hb Ho Hp Hs) as M1.
  apply moves_conserves; [done|]. then_neutral M1. eapply check_call_orders_moves; [exact Hc|apply M1].
Qed.

(** A lifetime that neither is empty nor passes the end of the 32-bit clock. *)
Definition lifetimes_ok (now : Z) (d : database) : Prop :=
  forall aid b, bitassets d !! aid = Some b ->
    0 < feed_lifetime_sec (options b) /\ now + feed_lifetime_sec (options b) < 2 ^ 32.

Lemma oldest_bounds now lifetime : forall (l : list Z) acc,
  (forall t, t ∈ l -> now - t < lifetime) -> now - acc < lifetime -> acc <= now ->
  now - foldl Z.min acc l < lifetime /\ foldl Z.min acc l <= now.
Proof.
  induction l as [|t l IH]; cbn; intros acc Hl Ha Hn; [lia|].
  apply IH; [intros u Hu; apply Hl; by right| |lia].
  pose proof (Hl t ltac:(by left)). lia.
Qed.

(** The median is as young as the feeds it is taken from. *)
Lemma median_fresh now b : 0 <= now -> 0 < feed_lifetime_sec (options b) ->
  now + feed_lifetime_sec (options b) < 2 ^ 32 -> feed_is_expired (update_median_feeds now b) now = false.
Proof.
  intros Hn Hl Hw. unfold feed_is_expired. destruct (median_keeps now b) as (-> & _).
  assert (Hp : now - current_feed_publication_time (update_median_feeds now b) < feed_lifetime_sec (options b)
    /\ current_feed_publication_time (update_median_feeds now b) <= now).
  { unfold update_median_feeds. cbv zeta. set (alive := filter _ (feeds b)).
    pose proof (oldest_bounds now (feed_lifetime_sec (options b)) (map (fun f => f.2.1) alive) now) as Hb.
    assert (Ho : now - foldl Z.min now (map (fun f => f.2.1) alive) < feed_lifetime_sec (options b)
      /\ foldl Z.min now (map (fun f => f.2.1) alive) <= now).
    { apply Hb; [|lia|lia]. intros t Ht. apply list_elem_of_fmap in Ht as (f & -> & Hf).
      apply list_elem_of_filter in Hf as [Hf _]. unfold feed_alive in Hf. bool_to_prop. lia. }
    repeat case_match; cbn; lia. }
  unfold wrap32. rewrite Z.mod_small by lia. apply Z.leb_gt. lia.
Qed.

(** From [d] to [d'] a feed keeps its time or is fresh. *)
Definition feeds_renew (now : Z) (d d' : database) : Prop :=
  forall aid b', bitassets d' !! aid = Some b' -> exists b, bitassets d !! aid = Some b
    /\ options b' = options b
    /\ (current_feed_publication_time b' = current_feed_publication_time b
        \/ feed_is_expired b' now = false).

Lemma feeds_renew_keep now d d' aid b b' : feeds_renew now d d' -> bitassets d !! aid = Some b ->
  feed_is_expired b now = false -> bitassets d' !! aid = Some b' -> feed_is_expired b' now = false.
Proof.
  intros R Hb He Hb'. destruct (R _ _ Hb') as (b0 & Hb0 & Ho & [Hp|Hp]); [|done].
  rewrite Hb in Hb0. injection Hb0 as <-. unfold feed_is_expired in *. by rewrite Hp, Ho.
Qed.

#[global] Instance feeds_renew_preorder now : PreOrder (feeds_renew now).
Proof.
  split; [intros d aid b Hb; eauto|]. intros d1 d2 d3 R1 R2 aid b3 Hb3.
  destruct (R2 _ _ Hb3) as (b2 & Hb2 & O2 & P2). destruct (R1 _ _ Hb2) as (b1 & Hb1 & O1 & P1).
  exists b1. split; [done|]. split; [congruence|]. destruct P2 as [P2|P2]; [|by right].
  destruct P1 as [P1|P1]; [left; congruence|right]. unfold feed_is_expired in *. by rewrite P2, O2.
Qed.

Lemma feeds_kept_renew now d d' : feeds_kept d d' -> feeds_renew now d d'.
Proof. intros K aid b' Hb'. destruct (K _ _ Hb') as (b & ? & ? & ?). eauto. Qed.

Lemma lifetimes_renew now d d' : feeds_renew now d d' -> lifetimes_ok now d -> lifetimes_ok now d'.
Proof. intros R L aid b' Hb'. destruct (R _ _ Hb') as (b & Hb & -> & _). by apply (L aid). Qed.

Lemma renew_feed_fresh aid b d d' : bitassets d !! aid = Some b -> 0 <= head_block_time d ->
  lifetimes_ok (head_block_time d) d -> renew_feed aid b d = Ok d' ->
  feeds_renew (head_block_time d) d d' /\
  forall b', bitassets d' !! aid = Some b' -> feed_is_expired b' (head_block_time d) = false.
Proof.
  intros Hb Hn L H. unfold renew_feed in H. destruct (feed_is_expired b (head_block_time d)) eqn:Ee.
  - cbv zeta in H. apply rbind_ok in H as ([r d1] & Hc & [= <-]).
    apply check_call_orders_limits in Hc as [_ K]. apply (feeds_kept_renew (head_block_time d)) in K.
    destruct (L _ _ Hb) as [Hl Hw]. pose proof (median_fresh _ _ Hn Hl Hw) as Hf.
    set (d0 := set_bitassets _ d) in *.
    assert (Hb0 : bitassets d0 !! aid = Some (update_median_feeds (head_block_time d) b))
      by apply lookup_insert_eq.
    split; [|intros b' Hb'; by eapply (feeds_renew_keep _ d0)].
    transitivity d0; [|done]. intros i b' Hi. cbn in Hi.
    apply lookup_insert_Some in Hi as [[<- <-]|[_ Hi]]; [|eauto].
    exists b. split; [done|]. split; [apply median_keeps|by right].
  - injection H as <-. split; [done|]. intros b' Hb'. rewrite Hb in Hb'. by injection Hb' as <-.
Qed.

Lemma renew_feeds_fresh ids : forall d d', chain_ok d -> 0 <= head_block_time d ->
  lifetimes_ok (head_block_time d) d -> renew_feeds ids d = Ok d' ->
  conserves d d' /\ feeds_renew (head_block_time d) d d' /\
  forall aid b', aid ∈ ids -> bitassets d' !! aid = Some b' ->
    feed_is_expired b' (head_block_time d) = false.
Proof.
  induction ids as [|aid ids IH]; cbn [renew_feeds]; intros d d' Hok Hn L H.
  - injection H as <-. split; [by apply conserves_refl|]. split; [done|]. intros aid b' Ha. by apply elem_of_nil in Ha.
  - skip_bind H. apply rbind_ok in H as (b & Hb & H). apply rbind_ok in H as (d1 & H1 & H).
    apply bitasset_data_inv in Hb. pose proof (renew_feed_conserves _ _ _ _ Hok Hb H1) as C1.
    destruct (renew_feed_fresh aid b d d1 Hb Hn L H1) as [R1 F1].
    pose proof C1 as (Hok1 & T1 & _). pose proof (lifetimes_renew _ _ _ R1 L) as L1. rewrite <- T1 in L1.
    destruct (IH d1 d' Hok1 ltac:(lia) L1 H) as (C2 & R2 & F2). rewrite T1 in R2, F2.
    split; [by eapply conserves_trans|]. split; [by transitivity d1|]. intros i b' Hi Hb'.
    apply elem_of_cons in Hi as [->|Hi]; [|by eapply F2].
    destruct (R2 _ _ Hb') as (b1 & Hb1 & _). eapply feeds_renew_keep; [exact R2|exact Hb1|by apply F1|done].
Qed.

Lemma renew_feeds_conserves ids : forall d d', chain_ok d -> renew_feeds ids d = Ok d' -> conserves d d'.
Proof.
  induction ids as [|aid ids IH]; cbn [renew_feeds]; intros d d' Hok H.
  - injection H as <-. by apply conserves_refl.
  - skip_bind H. apply rbind_ok in H as (b & Hb & H). apply rbind_ok in H as (d1 & H1 & H).
    apply bitasset_data_inv in Hb. pose proof (renew_feed_conserves _ _ _ _ Hok Hb H1) as C1.
    eapply conserves_trans; [exact C1|]. by apply IH; [apply C1|].
Qed.

(** After [update_expired_feeds] no market issued asset has an expired feed: each
    feed that had run out was replaced by the median of the producers' feeds that are
    still alive, or by the empty feed dated now; margin calls made on the way
    create and destroy nothing. *)
Theorem update_expired_feeds_fresh (d d' : database) (Hok : chain_ok d)
    (Hn : 0 <= head_block_time d) (Hl : lifetimes_ok (head_block_time d) d)
    (H : update_expired_feeds d = Ok d') :
  conserves d d' /\
  forall aid a b', assets d !! aid = Some a -> is_market_issued a = true ->
    bitassets d' !! aid = Some b' -> feed_is_expired b' (head_block_time d') = false.
Proof.
  destruct (renew_feeds_fresh _ _ _ Hok Hn Hl H) as (C & _ & F). split; [done|].
  intros aid a b' Ha Hm Hb'. destruct C as (_ & -> & _). eapply F; [|done].
  unfold market_issued_assets. apply sort_by_elem, list_elem_of_fmap. exists (aid, a). split; [done|].
  apply list_elem_of_filter. split; [done|by apply elem_of_map_to_list].
Qed.

(** The feed of asset 5 has run out and nobody feeds it. *)
Definition demo_stale : database :=
  set_bitassets {[5 := set_feeds [(7, (30, demo_feed))]
                         (mk_bitasset (mk_bitasset_options 60 1 3600 0 2000 0) [] demo_feed 20 0 null_price 0)]}
    demo_due.

Lemma update_expired_feeds_fresh_witness :
  match update_expired_feeds demo_stale with
  | Ok d' => excess 5 d' = excess 5 demo_stale /\
      option_map (fun b => feed_is_expired b 100) (bitassets d' !! 5) = Some false
  | Err _ => False
  end.
Proof.
  assert (Hok : chain_ok demo_stale).
  { destruct demo_due_ok as [Hm Hledger Hsettle]. split; [|done|done]. pose proof Hm as [].
    split; auto; cbn; intros *.
    - intros Hb; by apply lookup_singleton_Some in Hb as [_ <-].
    - intros Hb; by apply lookup_singleton_Some in Hb as [_ <-].
    - intros Hc Hb; apply lookup_singleton_Some in Hb as [Hb <-].
      apply (ok_call_backing _ _ demo_bitasset Hc). by rewrite <- Hb.
    - intros Hc Hb; by apply lookup_singleton_Some in Hb as [Hb <-]. }
  destruct (update_expired_feeds demo_stale) as [d'|e] eqn:E; [|vm_compute in E; discriminate E].
  destruct (update_expired_feeds_fresh demo_stale d' Hok ltac:(cbn; lia)
    ltac:(intros aid b Hb; cbn in Hb; apply lookup_singleton_Some in Hb as [<- <-]; cbn; lia) E) as [(_ & T & C) F].
  split; [specialize (C 5); unfold liability in C; cbn in C; lia|].
  assert (Hs : match update_expired_feeds demo_stale with Ok d => is_ok (get_bitasset 5 d) | _ => false end = true)
    by (vm_compute; reflexivity).
  rewrite E in Hs. unfold get_bitasset, get_or in Hs.
  destruct (bitassets d' !! 5) as [b'|] eqn:Hb'; [|discriminate Hs]. cbn. f_equal.
  pose proof (F 5 (demo_asset true) b' eq_refl eq_refl Hb') as Hf. rewrite T in Hf. exact Hf.
Defined.
