(* ===== verification/Transaction.v ===== *)
(** * Applying transactions (chain/db_block.cpp, chain/db_update.cpp)

    [_apply_transaction] with its guards, the agreed tasks (proposals and crontabs),
    the operations with the automatic gas withdrawal between them, the pending list
    of [_push_transaction] and the expiration of what transactions leave behind.
    The set of operations is an interface; [AllOperations] implements it.  Hashes,
    sizes, recovered keys and measured running times are arguments.  An exception
    leaves the undo session of the caller, so a function that throws has no state. *)

From S2P Require Import Prelude SafeInt Asset Vesting State Ledger Market MarketProofs Double.
From S2P Require Import Fees Operations Authority ExpiredOrders.

(** ** The interface of the operations *)

(** What a transaction needs of its operations: [operation_validate], the operations
    only the chain may make, [apply_operation] with the fee schedule, and whose gas
    is withdrawn after an operation with this result ([None]: nobody's). *)
Class OperationSet (Op : Type) := {
  op_validate : Op -> result unit;
  is_virtual : Op -> bool;
  is_contract_share_fee : Op -> bool;
  op_apply : bool -> Op -> stM database op_result;
  gas_account : Op -> op_result -> option Z }.

(** ** State *)

(** [object_id_type] of an agreed task, by its type. *)
Inductive task_id := task_proposal (id : Z) | task_crontab (id : Z) | task_unexpected.

Inductive transaction_apply_mode :=
| push_mode | production_block_mode | apply_block_mode | validate_transaction_mode
| invoke_mode | just_try.

#[global] Instance apply_mode_eq_dec : EqDecision transaction_apply_mode.
Proof. solve_decision. Defined.

(** [processed_transaction]. *)
Record transaction (Op : Type) := mk_trx {
  ref_block_num : Z;
  ref_block_prefix : Z;
  expiration : Z;
  operations : list Op;
  agreed_task : option task_id;
  operation_results : list op_result }.
Arguments mk_trx {Op} _ _ _ _ _ _.
Arguments ref_block_num {Op} _.
Arguments ref_block_prefix {Op} _.
Arguments expiration {Op} _.
Arguments operations {Op} _.
Arguments agreed_task {Op} _.
Arguments operation_results {Op} _.

Record proposal_object (Op : Type) := mk_proposal {
  proposed_transaction : transaction Op;
  proposal_expiration : Z;
  proposal_allow : bool }.
Arguments mk_proposal {Op} _ _ _.
Arguments proposed_transaction {Op} _.
Arguments proposal_expiration {Op} _.
Arguments proposal_allow {Op} _.

Record crontab_object (Op : Type) := mk_crontab {
  task_owner : Z;
  crontab_trx_hash : Z;
  timed_transaction : transaction Op;
  execute_interval : Z;
  scheduled_execute_times : Z;
  already_execute_times : Z;
  last_execte_time : Z;
  next_execte_time : Z;
  continuous_failure_times : Z;
  is_suspended : bool;
  crontab_allow : bool;
  crontab_expiration : Z }.
Arguments mk_crontab {Op} _ _ _ _ _ _ _ _ _ _ _ _.
Arguments task_owner {Op} _.
Arguments crontab_trx_hash {Op} _.
Arguments timed_transaction {Op} _.
Arguments execute_interval {Op} _.
Arguments scheduled_execute_times {Op} _.
Arguments already_execute_times {Op} _.
Arguments last_execte_time {Op} _.
Arguments next_execte_time {Op} _.
Arguments continuous_failure_times {Op} _.
Arguments is_suspended {Op} _.
Arguments crontab_allow {Op} _.
Arguments crontab_expiration {Op} _.

(** [temporary_active_object], by its owner: the index is unique in the owner. *)
Record temporary_active_object := mk_temporary {
  temporary_describe : string;
  temporary_keys : list (Z * Z);
  temporary_expiration : Z }.

(** The parts of the database a transaction touches.  [transactions] holds the
    expiration of each known transaction by its id; the index is also unique in the
    hash, of which the id is a part. *)
Record tx_state (Op : Type) := mk_tx_state {
  ledger : database;
  transactions : gmap Z Z;
  blocks_info : gmap Z (Z * Z);
  proposals : gmap Z (proposal_object Op);
  crontabs : gmap Z (crontab_object Op);
  next_crontab : Z;
  temporary_active : gmap Z temporary_active_object;
  block_summaries : gmap Z Z;
  head_block_num : Z;
  pending_tx : list (transaction Op) }.
Arguments mk_tx_state {Op} _ _ _ _ _ _ _ _ _ _.
Arguments ledger {Op} _.
Arguments transactions {Op} _.
Arguments blocks_info {Op} _.
Arguments proposals {Op} _.
Arguments crontabs {Op} _.
Arguments next_crontab {Op} _.
Arguments temporary_active {Op} _.
Arguments block_summaries {Op} _.
Arguments head_block_num {Op} _.
Arguments pending_tx {Op} _.

(** The chain parameters and node options the code reads. *)
Record tx_parameters := mk_tx_parameters {
  maximum_block_size : Z;
  op_maxsize_proportion_percent : Z;
  block_interval : Z;
  max_authority_depth : nat;
  maximum_time_until_expiration : Z;
  assigned_task_life_cycle : Z;
  crontab_suspend_threshold : Z;
  crontab_suspend_expiration : Z;
  withdraw_base_fee : Z;
  vesting_balance_withdraw_fee : Z;
  fee_schedule_parameters : fee_parameters }.

(** The skip flags a transaction looks at. *)
Record tx_skip := mk_tx_skip {
  skip_validate : bool;
  skip_transaction_dupe_check : bool;
  skip_transaction_signatures : bool;
  skip_authority_check : bool;
  skip_tapos_check : bool }.

Definition no_tx_skip : tx_skip := mk_tx_skip false false false false false.
(** [skip_transaction_signatures|skip_tapos_check]. *)
Definition share_flag : tx_skip := mk_tx_skip false false true false true.

Section Setters.
Context {Op : Type}.
Implicit Types s : tx_state Op.

Definition set_ledger (x : database) s : tx_state Op :=
  mk_tx_state x (transactions s) (blocks_info s) (proposals s) (crontabs s) (next_crontab s) (temporary_active s) (block_summaries s) (head_block_num s) (pending_tx s).
Definition set_transactions (x : gmap Z Z) s : tx_state Op :=
  mk_tx_state (ledger s) x (blocks_info s) (proposals s) (crontabs s) (next_crontab s) (temporary_active s) (block_summaries s) (head_block_num s) (pending_tx s).
Definition set_blocks_info (x : gmap Z (Z * Z)) s : tx_state Op :=
  mk_tx_state (ledger s) (transactions s) x (proposals s) (crontabs s) (next_crontab s) (temporary_active s) (block_summaries s) (head_block_num s) (pending_tx s).
Definition set_proposals (x : gmap Z (proposal_object Op)) s : tx_state Op :=
  mk_tx_state (ledger s) (transactions s) (blocks_info s) x (crontabs s) (next_crontab s) (temporary_active s) (block_summaries s) (head_block_num s) (pending_tx s).
Definition set_crontabs (x : gmap Z (crontab_object Op)) s : tx_state Op :=
  mk_tx_state (ledger s) (transactions s) (blocks_info s) (proposals s) x (next_crontab s) (temporary_active s) (block_summaries s) (head_block_num s) (pending_tx s).
Definition set_next_crontab (x : Z) s : tx_state Op :=
  mk_tx_state (ledger s) (transactions s) (blocks_info s) (proposals s) (crontabs s) x (temporary_active s) (block_summaries s) (head_block_num s) (pending_tx s).
Definition set_temporary_active (x : gmap Z temporary_active_object) s : tx_state Op :=
  mk_tx_state (ledger s) (transactions s) (blocks_info s) (proposals s) (crontabs s) (next_crontab s)
    x (block_summaries s) (head_block_num s) (pending_tx s).
Definition set_pending_tx (x : list (transaction Op)) s : tx_state Op :=
  mk_tx_state (ledger s) (transactions s) (blocks_info s) (proposals s) (crontabs s) (next_crontab s)
    (temporary_active s) (block_summaries s)
    (head_block_num s) x.

Definition with_results (r : list op_result) (t : transaction Op) : transaction Op :=
  mk_trx (ref_block_num t) (ref_block_prefix t) (expiration t) (operations t) (agreed_task t) r.
Definition with_expiration (e : Z) (t : transaction Op) : transaction Op :=
  mk_trx (ref_block_num t) (ref_block_prefix t) e (operations t) (agreed_task t) (operation_results t).

End Setters.

Abbreviation AUTO_GAS_TIMEPOINT := 1585826672.
Abbreviation time_point_sec_maximum := 4294967295.

(** ** Automatic gas withdrawal *)

(** The first vesting balance of an account. *)
Definition first_vesting (from : Z) (d : database) : option (Z * vesting_balance_object) :=
  head (sort_by (fun a b => a.1 <=? b.1)
    (filter (fun kv => owner kv.2 =? from) (map_to_list (vesting_balances d)))).

(** Withdraw what is vested when it is more than 100000 units of gas; a failure is
    logged and forgotten.  Returns the result that is recorded. *)
Definition auto_gas (p : tx_parameters) (from : Z) : stM database (list op_result) :=
  fun d =>
    match first_vesting from d with
    | None => (Ok [], d)
    | Some (id, v) =>
        match get_allowed_withdraw v (head_block_time d) with
        | Err e => (Err e, d)
        | Ok a =>
            if (asset_id a =? GRAPHENE_ASSET_GAS) && (amount a >? 100000) then
              match @apply_operation _ (vesting_withdraw_evaluator (vesting_balance_withdraw_fee p))
                      (fee_schedule_parameters p) false (withdraw_base_fee p)
                      (mk_vb_withdraw id (owner v) a) d with
              | (Ok r, d') => if which (variant r) =? 0 then (Ok [], d') else (Ok [r], d')
              | (Err undefined_behaviour, d') => (Err undefined_behaviour, d')
              | (Err _, d') => (Ok [], d')
              end
            else (Ok [], d)
        end
    end.

Section Transactions.
Context {Op : Type} `{OperationSet Op}.

(** Serialization and cryptography: the hash and size of a transaction, the id made
    of the leading bytes of a hash, the keys its signatures recover to, what its
    operations require, and the addresses of a key. *)
Variable tx_hash : transaction Op -> Z.
Variable id_of_hash : Z -> Z.
Variable pack_size : transaction Op -> Z.
Variable recovered_keys : transaction Op -> list Z.
Variable required : transaction Op -> requirements.
Variable key_addresses : Z -> list Z.
(** The measured running time of each operation. *)
Variable op_time : nat -> Z.
Variable p : tx_parameters.

Implicit Types (s : tx_state Op) (trx : transaction Op).

Definition trx_id trx : Z := id_of_hash (tx_hash trx).

(** ** Checks *)

Fixpoint validate_ops (l : list Op) : result unit :=
  match l with
  | [] => Ok tt
  | op :: l' => check negb (is_virtual op); let* _ := op_validate op in validate_ops l'
  end.

Definition trx_validate trx : result unit :=
  check (0 <? Z.of_nat (length (operations trx))) && (Z.of_nat (length (operations trx)) <=? 1000);
  validate_ops (operations trx).

(** The active authority of an account with its temporary keys; a key it has already
    keeps its weight. *)
Definition get_active s (id : Z) : result (option authority) :=
  let* acc := get_account id (ledger s) in
  let a := active_auth acc in
  let temporary := match temporary_active s !! id with Some t => temporary_keys t | None => [] end in
  let new := filter (fun kw => negb (existsb (fun old => old.1 =? kw.1) (key_auths a))) temporary in
  Ok (Some (mk_authority (weight_threshold a) (account_auths a) (key_auths a ++ new)
              (address_auths a))).

Definition get_owner s (id : Z) : result (option authority) :=
  let* acc := get_account id (ledger s) in Ok (Some (owner_auth acc)).

(** [signed_transaction::verify_authority]. *)
Definition trx_verify_authority s trx : result unit :=
  let* sigkeys := get_signature_keys (recovered_keys trx) ∅ in
  verify_authority key_addresses (get_active s) true (get_owner s) (required trx) sigkeys
    (max_authority_depth p) false ∅ ∅.

(** What an agreed task must satisfy, and the mark that it was started.  Returns the
    crontab the transaction belongs to. *)
Definition start_crontab (now : Z) (c : crontab_object Op) : crontab_object Op :=
  let next := wrap32 (now + execute_interval c) in
  mk_crontab (task_owner c) (crontab_trx_hash c)
    (with_expiration (wrap32 (next + Z.min (assigned_task_life_cycle p) 7200)) (timed_transaction c))
    (execute_interval c) (scheduled_execute_times c)
    ((already_execute_times c + 1) mod uint64_mod) now next
    (continuous_failure_times c) (is_suspended c) (crontab_allow c)
    (wrap32 (now + (scheduled_execute_times c - already_execute_times c) * execute_interval c)).

Definition start_task (task : task_id) trx s : result (tx_state Op * option Z) :=
  let now := head_block_time (ledger s) in
  match task with
  | task_proposal id =>
      let* pr := get_or (proposals s !! id) assert_exception in
      check (tx_hash trx =? tx_hash (proposed_transaction pr))
            && (proposal_expiration pr <=? now) && proposal_allow pr;
      Ok (set_proposals
            (<[id := mk_proposal (proposed_transaction pr) (proposal_expiration pr) false]>
               (proposals s)) s, None)
  | task_crontab id =>
      let* c := get_or (crontabs s !! id) assert_exception in
      check (tx_hash trx =? tx_hash (timed_transaction c))
            && (next_execte_time c <=? now) && crontab_allow c;
      Ok (set_crontabs (<[id := start_crontab now c]> (crontabs s)) s, Some id)
  | task_unexpected => Err fc_exception
  end.

(** The reference block and the expiration. *)
Definition check_expiration (skip_tapos : bool) trx s : result unit :=
  let now := head_block_time (ledger s) in
  let* _ :=
    if negb skip_tapos then
      let* prefix := get_or (block_summaries s !! ref_block_num trx) assert_exception in
      fc_assert (ref_block_prefix trx =? prefix)
    else Ok tt in
  check expiration trx <=? wrap32 (now + maximum_time_until_expiration p);
  fc_assert (now <=? expiration trx).

(** ** Running the operations *)

Fixpoint apply_operations (ops : list Op) (i : nat) (run_mode : transaction_apply_mode)
    (is_agreed : bool) (recorded : list op_result) (real_run_time : Z) (results : list op_result)
    (last_from : Z) (d : database)
    : result (list op_result * bool * transaction_apply_mode * database) :=
  match ops with
  | [] => Ok (results, false, run_mode, d)
  | op :: ops' =>
      match op_apply is_agreed op d with
      | (Err e, _) => Err e
      | (Ok r, d) =>
          let real_run_time := (real_run_time + op_time i) mod uint64_mod in
          let* _ := if bool_decide (run_mode <> apply_block_mode)
                    then fc_assert (real_run_time <? block_interval p * 75000) else Ok tt in
          let* _ := if bool_decide (run_mode = apply_block_mode) && is_agreed
                    then let* old := get_or (recorded !! i) undefined_behaviour in
                         fc_assert (which (variant r) =? which (variant old))
                    else Ok tt in
          let results := results ++ [r] in
          let run_mode := match variant r with contract_result true => invoke_mode | _ => run_mode end in
          let* (gas, last_from, d) :=
            if head_block_time d >? AUTO_GAS_TIMEPOINT then
              match gas_account op r with
              | Some from =>
                  if negb (last_from =? from) then
                    match auto_gas p from d with
                    | (Ok gas, d) => Ok (gas, from, d)
                    | (Err e, _) => Err e
                    end
                  else Ok ([], last_from, d)
              | None => Ok ([], last_from, d)
              end
            else Ok ([], last_from, d) in
          let* (rest, failed, run_mode, d) :=
            apply_operations ops' (S i) run_mode is_agreed recorded real_run_time
              (results ++ gas) last_from d in
          Ok (rest, (which (variant r) =? 0) || failed, run_mode, d)
      end
  end.

(** A crontab that is not at its last run counts its failures in a row. *)
Definition finish_crontab (now : Z) (failed : bool) (c : crontab_object Op) : crontab_object Op :=
  if already_execute_times c <? scheduled_execute_times c then
    let set_failures n susp next exp :=
      mk_crontab (task_owner c) (crontab_trx_hash c) (timed_transaction c) (execute_interval c) (scheduled_execute_times c)
        (already_execute_times c) (last_execte_time c) next n susp (crontab_allow c) exp in
    if failed then
      let n := wrap32 (continuous_failure_times c + 1) in
      if crontab_suspend_threshold p =? n
      then set_failures n true time_point_sec_maximum (wrap32 (now + crontab_suspend_expiration p))
      else set_failures n (is_suspended c) (next_execte_time c) (crontab_expiration c)
    else if negb (continuous_failure_times c =? 0)
    then set_failures 0 (is_suspended c) (next_execte_time c) (crontab_expiration c)
    else c
  else c.

Definition finish_task (cron : option Z) (failed : bool) s : result (tx_state Op) :=
  match cron with
  | None => Ok s
  | Some id =>
      let* c := get_or (crontabs s !! id) undefined_behaviour in
      Ok (set_crontabs (<[id := finish_crontab (head_block_time (ledger s)) failed c]> (crontabs s)) s)
  end.

(** ** The transaction *)

Definition effective_skip (skip : tx_skip) (op0 : Op) : tx_skip :=
  if is_contract_share_fee op0 then share_flag else skip.

(** [create<transaction_object>] throws on a known id; here the exception is logged. *)
Definition note_transaction trx s : tx_state Op :=
  match transactions s !! trx_id trx with
  | Some _ => s
  | None => set_transactions (<[trx_id trx := expiration trx]> (transactions s)) s
  end.

(** Everything up to the first operation. *)
Definition admit_transaction (skip0 : tx_skip) (run_mode : transaction_apply_mode)
    (current_block : Z * Z) trx s : result (tx_state Op * option Z) :=
  let* op0 := get_or (head (operations trx)) undefined_behaviour in
  let skip := effective_skip skip0 op0 in
  check pack_size trx <? wrap32 (maximum_block_size p * op_maxsize_proportion_percent p) / 100;
  let* _ := if negb (skip_validate skip) then trx_validate trx else Ok tt in
  let* _ := if negb (is_contract_share_fee op0)
            then fc_assert (skip_transaction_dupe_check skip
                            || bool_decide (transactions s !! trx_id trx = None))
            else Ok tt in
  let is_agreed := bool_decide (is_Some (agreed_task trx)) in
  let* (s, cron) :=
    if negb (skip_transaction_signatures skip || skip_authority_check skip) || is_agreed then
      match agreed_task trx with
      | Some task => start_task task trx s
      | None => let* _ := trx_verify_authority s trx in Ok (s, None)
      end
    else Ok (s, None) in
  let* _ := if (head_block_num s >? 0) && negb is_agreed
            then check_expiration (skip_tapos_check skip) trx s else Ok tt in
  let* s :=
    if bool_decide (run_mode = apply_block_mode) || bool_decide (run_mode = production_block_mode) then
      check bool_decide (blocks_info s !! tx_hash trx = None);
      Ok (set_blocks_info (<[tx_hash trx := current_block]> (blocks_info s)) s)
    else Ok s in
  Ok (if negb (skip_transaction_dupe_check skip) || is_contract_share_fee op0
      then note_transaction trx s else s, cron).

Definition _apply_transaction (skip : tx_skip) (run_mode : transaction_apply_mode)
    (only_try_permissions : bool) (current_block : Z * Z) trx s
    : result (transaction Op * transaction_apply_mode * tx_state Op) :=
  let* (s, cron) := admit_transaction skip run_mode current_block trx s in
  if only_try_permissions then Ok (trx, run_mode, s)
  else
    let is_agreed := bool_decide (is_Some (agreed_task trx)) in
    let* (results, failed, run_mode, d) :=
      apply_operations (operations trx) 0 run_mode is_agreed (operation_results trx) 0 [] 0
        (ledger s) in
    let* s := finish_task cron failed (set_ledger d s) in
    Ok (with_results results trx, run_mode, s).

(** ** Pending transactions *)

(** [pop_block] is called [from_popped_block] here. *)
Inductive transaction_push_state := from_me | from_net | re_push | from_popped_block.

#[global] Instance push_state_eq_dec : EqDecision transaction_push_state.
Proof. solve_decision. Defined.

(** What a pushed transaction is checked by; returns it with its results. *)
Definition push_checks (deduce_in_verification_mode : bool) (pending_size cache_limit : Z)
    (skip0 : tx_skip) (current_block : Z * Z) (push_state : transaction_push_state) trx s
    : result (transaction Op * transaction_apply_mode * tx_state Op) :=
  match push_state with
  | from_me =>
      let* _ := if negb (cache_limit =? 0)
                then fc_assert (Z.max pending_size (Z.of_nat (length (pending_tx s))) <=? cache_limit)
                else Ok tt in
      _apply_transaction skip0 push_mode false current_block trx s
  | from_net | from_popped_block =>
      _apply_transaction skip0 validate_transaction_mode (negb deduce_in_verification_mode)
        current_block trx s
  | re_push =>
      let* op0 := get_or (head (operations trx)) undefined_behaviour in
      let skip := effective_skip skip0 op0 in
      let* _ := if head_block_num s >? 0
                then check_expiration
                       (skip_tapos_check skip || bool_decide (is_Some (agreed_task trx))) trx s
                else Ok tt in
      Ok (trx, push_mode, s)
  end.

(** [_push_transaction] with its temporary session: a pushed transaction joins the
    pending list, which no session covers; one that is pushed again or calls an
    unpredictable contract leaves only its id in the state.  [pending_size] is the
    largest length of the pending list so far. *)
Definition _push_transaction (deduce_in_verification_mode : bool) (pending_size cache_limit : Z)
    (skip : tx_skip) (current_block : Z * Z) (push_state : transaction_push_state) trx
    : stM (tx_state Op) (transaction Op) :=
  fun s =>
    match push_checks deduce_in_verification_mode pending_size cache_limit skip current_block
            push_state trx s with
    | Err e => (Err e, s)
    | Ok (processed, mode, s') =>
        let pending := pending_tx s' ++ [processed] in
        if bool_decide (push_state = re_push) || bool_decide (mode = invoke_mode) then
          let s := set_pending_tx pending s in
          match transactions s !! trx_id processed with
          | Some _ => (Err assert_exception, s)
          | None => (Ok processed,
                     set_transactions (<[trx_id processed := expiration processed]> (transactions s)) s)
          end
        else (Ok processed, set_pending_tx pending s')
    end.

End Transactions.

(** ** Expiration *)

(** While the first object of an index ordered by expiration has expired, remove it. *)
Section ClearExpired.
Context {A : Type}.
Variable expires : A -> Z.
Variable expired : A -> bool.

Definition first_by_expiration (m : gmap Z A) : option (Z * A) :=
  head (sort_by (fun a b => expires a.2 <=? expires b.2) (map_to_list m)).

Fixpoint clear_loop (fuel : nat) (m : gmap Z A) : option (gmap Z A) :=
  match first_by_expiration m with
  | Some (k, a) =>
      if expired a then
        match fuel with
        | O => None
        | S f => clear_loop f (delete k m)
        end
      else Some m
  | None => Some m
  end.

End ClearExpired.

Section Clear.
Context {Op : Type}.
Implicit Types s : tx_state Op.

Definition clear_expired_transactions s : option (tx_state Op) :=
  let now := head_block_time (ledger s) in
  m ← clear_loop (fun e : Z => e) (fun e => now >? e) (size (transactions s)) (transactions s);
  Some (set_transactions m s).

Definition clear_expired_active s : option (tx_state Op) :=
  let now := head_block_time (ledger s) in
  m ← clear_loop temporary_expiration (fun t => now >? temporary_expiration t) (size (temporary_active s)) (temporary_active s);
  Some (set_temporary_active m s).

Definition clear_expired_timed_task s : option (tx_state Op) :=
  let now := head_block_time (ledger s) in
  m ← clear_loop crontab_expiration (fun c => crontab_expiration c <=? now)
        (size (crontabs s)) (crontabs s);
  Some (set_crontabs m s).

(** Proposals that were not approved; those that may run are kept. *)
Definition clear_expired_proposals s : option (tx_state Op) :=
  let now := head_block_time (ledger s) in
  let waiting := filter (fun kv => proposal_allow kv.2 = false) (proposals s) in
  m ← clear_loop proposal_expiration (fun pr => proposal_expiration pr <=? now) (size waiting) waiting;
  Some (set_proposals (m ∪ filter (fun kv => proposal_allow kv.2 = true) (proposals s)) s).

End Clear.

(** ** Clearing an index *)

Section ClearProofs.
Context {A : Type}.
Variable expires : A -> Z.
Variable expired : A -> bool.
(** The index order agrees with what has expired. *)
Hypothesis expired_first : forall a b, expires a <= expires b -> expired b = true -> expired a = true.

Lemma first_by_expiration_spec (m : gmap Z A) : match first_by_expiration expires m with
  | Some (k, a) => m !! k = Some a /\ forall i b, m !! i = Some b -> expires a <= expires b
  | None => m = ∅
  end.
Proof.
  unfold first_by_expiration. set (before := fun a b : Z * A => _).
  destruct (head _) as [[k a]|] eqn:E.
  - split; [by apply head_Some_elem_of, sort_by_elem, elem_of_map_to_list in E|].
    intros i b Hb. apply elem_of_map_to_list in Hb.
    refine (sort_by_min before (fun x => expires x.2) (map_to_list m) (k, a) (i, b) _ _ E Hb);
      intros x y; unfold before; intros Hxy; bool_to_prop; lia.
  - apply map_empty. intros i. destruct (m !! i) as [b|] eqn:Hb; [|done].
    apply elem_of_map_to_list, (sort_by_elem before) in Hb.
    destruct (sort_by before _); [by apply elem_of_nil in Hb|done].
Qed.

(** The loop leaves exactly what has not expired. *)
Lemma clear_loop_filter fuel : forall m, (size m <= fuel)%nat ->
  clear_loop expires expired fuel m = Some (filter (fun kv => expired kv.2 = false) m).
Proof.
  induction fuel as [|fuel IH]; intros m Hf; cbn [clear_loop];
    pose proof (first_by_expiration_spec m) as Hs;
    (destruct (first_by_expiration expires m) as [[k a]|]; [|by rewrite Hs, map_filter_empty]);
    destruct Hs as [Hk Hmin];
    (destruct (expired a) eqn:Ea;
      [|f_equal; symmetry; apply map_filter_id; intros i b Hb; cbn;
        destruct (expired b) eqn:Eb; [|done]; by rewrite (expired_first a b) in Ea by eauto]).
  - exfalso. assert (Hz : size m = 0%nat) by lia. apply map_size_empty_inv in Hz.
    by rewrite Hz, lookup_empty in Hk.
  - rewrite IH.
    + f_equal. rewrite map_filter_delete. apply delete_id. apply map_lookup_filter_None. right.
      intros b Hb. rewrite Hk in Hb. injection Hb as <-. cbn. congruence.
    + rewrite map_size_delete_Some by eauto. lia.
Qed.

End ClearProofs.

(** ** Running the operations *)

(** What the operations promise: on valid input an operation that does not throw keeps
    the invariants and the clock and conserves value but for the fees it defers. *)
Class OperationLaws (Op : Type) `{OperationSet Op} := {
  op_well_typed : Op -> Prop;
  op_apply_keeps : forall agreed (op : Op) d r d', chain_ok d -> op_well_typed op ->
    op_validate op = Ok tt -> op_apply agreed op d = (Ok r, d') ->
    0 <= core_fees (fees r) /\ conserves_but (core_fees (fees r)) d d' }.

Definition results_fees (l : list op_result) : Z := sumZ (fun r => core_fees (fees r)) l.

Lemma results_fees_app l1 l2 : results_fees (l1 ++ l2) = results_fees l1 + results_fees l2.
Proof. apply sumZ_app. Qed.

Lemma conserves_but_refl d : chain_ok d -> conserves_but 0 d d.
Proof. intros H. by apply conserves_but_0, conserves_refl. Qed.

Lemma auto_gas_keeps p from d gas d' : chain_ok d -> auto_gas p from d = (Ok gas, d') ->
  0 <= results_fees gas /\ conserves_but (results_fees gas) d d'.
Proof.
  intros Hok. unfold auto_gas.
  assert (Hid : (@Ok (list op_result) [], d) = (Ok gas, d') -> 0 <= results_fees gas /\ conserves_but (results_fees gas) d d')
    by (intros [= <- <-]; split; [done|by apply conserves_but_refl]).
  destruct (first_vesting from d) as [[id v]|]; [|exact Hid].
  destruct (get_allowed_withdraw v (head_block_time d)) as [a|e]; [|done].
  destruct ((asset_id a =? GRAPHENE_ASSET_GAS) && (amount a >? 100000)) eqn:Ec; [|exact Hid].
  set (ev := vesting_withdraw_evaluator _). set (op := mk_vb_withdraw _ _ _).
  destruct (apply_operation _ false _ op d) as [[r|e] d1] eqn:Ea.
  - apply apply_operation_ok in Ea. bool_to_prop.
    assert (Hv : @validate _ ev op = Ok tt).
    { cbn. unfold vesting_withdraw_validate. cbn. by rewrite (proj2 (Z.gtb_lt _ _)) by lia. }
    pose proof (start_evaluate_conserves _ _ _ _ _ _ Hok I Hv Ea) as C. apply conserves_but_0 in C.
    destruct (@deferring _ ev _ _ _ op _ _ _ Hok I Hv Ea) as [Hn _].
    case_if; intros [= <- <-]; unfold results_fees; cbn [sumZ]; (split; [lia|]);
      (eapply conserves_but_mono; [|exact C]); lia.
  - assert (Hd : d1 = d); [|subst d1; destruct e; (exact Hid || done)].
    unfold apply_operation in Ea. destruct (start_evaluate _ _ op d) as [[r1 d2]|e1]; [done|].
    destruct e1; by injection Ea as _ <-.
Qed.

Section TransactionProofs.
Context {Op : Type} `{OperationLaws Op}.
Variable tx_hash : transaction Op -> Z.
Variable id_of_hash : Z -> Z.
Variable pack_size : transaction Op -> Z.
Variable recovered_keys : transaction Op -> list Z.
Variable required : transaction Op -> requirements.
Variable key_addresses : Z -> list Z.
Variable op_time : nat -> Z.
Variable p : tx_parameters.

Lemma apply_operations_keeps ops : forall i mode agreed recorded time results last_from d rs failed mode' d',
  chain_ok d -> (forall op, op ∈ ops -> op_well_typed op /\ op_validate op = Ok tt) ->
  apply_operations op_time p ops i mode agreed recorded time results last_from d
  = Ok (rs, failed, mode', d') ->
  exists new, rs = results ++ new /\ 0 <= results_fees new /\ conserves_but (results_fees new) d d'.
Proof.
  induction ops as [|op ops IH]; cbn [apply_operations]; intros i mode agreed recorded time results last_from d
    rs failed mode' d' Hok Hops Hr.
  - injection Hr as <- _ _ <-. exists []. rewrite app_nil_r. split; [done|].
    split; [done|by apply conserves_but_refl].
  - destruct (op_apply agreed op d) as [[r|e] d1] eqn:Ea; [|done]. do 2 skip_bind Hr.
    apply rbind_ok in Hr as ([[gas from] d2] & Hg & Hr).
    apply rbind_ok in Hr as ([[[rest fl] md] d3] & Hrest & [= <- _ _ <-]).
    destruct (Hops op ltac:(by left)) as [Ht Hv].
    destruct (op_apply_keeps _ _ _ _ _ Hok Ht Hv Ea) as [N1 C1].
    assert (Hgas : 0 <= results_fees gas /\ conserves_but (results_fees gas) d1 d2).
    { assert (Hid : Ok ([], last_from, d1) = Ok (gas, from, d2) ->
        0 <= results_fees gas /\ conserves_but (results_fees gas) d1 d2)
        by (intros [= <- _ <-]; split; [done|apply conserves_but_refl, C1]).
      case_if_in Hg; [|by apply Hid]. destruct (gas_account op r) as [acc|]; [|by apply Hid].
      case_if_in Hg; [|by apply Hid]. destruct (auto_gas p acc d1) as [[g|e] d4] eqn:Eg; [|done].
      injection Hg as <- _ <-. eapply auto_gas_keeps; [apply C1|exact Eg]. }
    destruct Hgas as [N2 C2].
    apply IH in Hrest as (new & -> & N3 & C3); [|apply C2|intros o Ho; apply Hops; by right].
    exists (r :: gas ++ new). split; [by rewrite <- !app_assoc|].
    assert (E : results_fees (r :: gas ++ new) = core_fees (fees r) + (results_fees gas + results_fees new))
      by (rewrite <- results_fees_app; done).
    rewrite E. split; [lia|]. eapply conserves_but_trans; [exact C1|]. by eapply conserves_but_trans.
Qed.

Abbreviation apply_tx := (_apply_transaction tx_hash id_of_hash pack_size recovered_keys required
  key_addresses op_time p).
Abbreviation admit_tx := (admit_transaction tx_hash id_of_hash pack_size recovered_keys required
  key_addresses p).
Abbreviation id_of := (trx_id tx_hash id_of_hash).
Abbreviation verified := (trx_verify_authority recovered_keys required key_addresses p).

(** What stays the same up to the first operation. *)
Definition admitted (s s' : tx_state Op) : Prop :=
  ledger s' = ledger s /\ head_block_num s' = head_block_num s /\ pending_tx s' = pending_tx s /\
  forall k e, transactions s !! k = Some e -> transactions s' !! k = Some e.

Lemma note_transaction_spec trx s :
  admitted s (note_transaction tx_hash id_of_hash trx s) /\
  is_Some (transactions (note_transaction tx_hash id_of_hash trx s) !! id_of trx) /\
  (transactions s !! id_of trx = None ->
   transactions (note_transaction tx_hash id_of_hash trx s) !! id_of trx = Some (expiration trx)).
Proof.
  unfold note_transaction. destruct (transactions s !! id_of trx) as [e|] eqn:E.
  - split; [by split|]. split; [eauto|done].
  - cbn. rewrite lookup_insert_eq. split; [|eauto]. split; [done|]. split; [done|]. split; [done|].
    intros k e Hk. cbn. destruct (decide (k = id_of trx)) as [->|Hne]; [by rewrite E in Hk|].
    by rewrite lookup_insert_ne.
Qed.

Lemma start_task_admitted task trx s s' cron : start_task tx_hash p task trx s = Ok (s', cron) ->
  admitted s s' /\ transactions s' = transactions s.
Proof.
  intros Hs. unfold start_task in Hs. destruct task; [..|done];
    do 2 skip_bind Hs; injection Hs as <- _; by repeat split.
Qed.

(** The guards of a transaction, as they hold when it is admitted. *)
Lemma admit_spec skip mode blk trx s s' cron : admit_tx skip mode blk trx s = Ok (s', cron) ->
  exists op0, head (operations trx) = Some op0 /\ admitted s s' /\
    let sk := effective_skip skip op0 in
    (skip_validate sk = false -> trx_validate trx = Ok tt) /\
    (is_contract_share_fee op0 = false -> skip_transaction_dupe_check skip = false ->
       transactions s !! id_of trx = None /\ transactions s' !! id_of trx = Some (expiration trx)) /\
    (agreed_task trx = None ->
       skip_transaction_signatures sk = false -> skip_authority_check sk = false -> verified s trx = Ok tt) /\
    (agreed_task trx = None -> 0 < head_block_num s ->
       check_expiration p (skip_tapos_check sk) trx s = Ok tt).
Proof.
  intros Ha. unfold admit_transaction in Ha. apply rbind_ok in Ha as (op0 & Hop & Ha).
  unfold get_or in Hop. destruct (head (operations trx)) as [o|] eqn:Eh; [|done]. injection Hop as ->.
  exists op0. split; [done|]. set (sk := effective_skip skip op0) in *. skip_bind Ha.
  apply rbind_ok in Ha as ([] & Hv & Ha). apply rbind_ok in Ha as ([] & Hd & Ha).
  apply rbind_ok in Ha as ([s1 c1] & Ht & Ha). apply rbind_ok in Ha as ([] & He & Ha).
  apply rbind_ok in Ha as (s2 & Hb & [= <- _]).
  assert (A1 : admitted s s1 /\ transactions s1 = transactions s /\
    (agreed_task trx = None -> s1 = s /\ (skip_transaction_signatures sk = false ->
       skip_authority_check sk = false -> verified s trx = Ok tt))).
  { destruct (negb (skip_transaction_signatures sk || skip_authority_check sk) || _) eqn:Ec.
    - destruct (agreed_task trx) as [task|] eqn:Et.
      + apply start_task_admitted in Ht as [? ?]. done.
      + apply rbind_ok in Ht as ([] & Hv' & [= <- _]). by repeat split.
    - injection Ht as <- _. split; [by repeat split|]. split; [done|]. intros _. split; [done|].
      intros E1 E2. by rewrite E1, E2 in Ec. }
  destruct A1 as (A1 & T1 & Hnone).
  assert (A2 : admitted s1 s2 /\ transactions s2 = transactions s1).
  { case_if_in Hb; [skip_bind Hb|]; injection Hb as <-; by repeat split. }
  destruct A2 as [A2 T2]. destruct (note_transaction_spec trx s2) as (A3 & _ & Hnew).
  assert (A4 : admitted s2 (if negb (skip_transaction_dupe_check sk) || is_contract_share_fee op0
    then note_transaction tx_hash id_of_hash trx s2 else s2)) by (case_if; [done|by repeat split]).
  split; [|split; [|split; [|split]]].
  - destruct A1 as (L1 & N1 & P1 & K1), A2 as (L2 & N2 & P2 & K2), A4 as (L4 & N4 & P4 & K4).
    split; [congruence|]. split; [congruence|]. split; [congruence|]. eauto.
  - intros Hsk. by rewrite Hsk in Hv.
  - intros Hns Hdup. unfold sk, effective_skip in Hd. rewrite Hns in Hd. cbn [negb] in Hd.
    rewrite Hdup in Hd. cbn [orb] in Hd. unfold fc_assert in Hd. case_if_in Hd; [|done]. bool_to_prop.
    assert (Hn : transactions s !! id_of trx = None) by done.
    split; [done|]. unfold sk, effective_skip. rewrite Hns, Hdup. cbn [negb orb].
    apply Hnew. by rewrite T2, T1.
  - intros Hag. apply Hnone, Hag.
  - intros Hag Hn. destruct (Hnone Hag) as [-> _].
    rewrite Hag, bool_decide_eq_false_2 in He by (by intros [? ?]).
    destruct (Z.gtb_spec (head_block_num s) 0); [done|lia].
Qed.

Lemma apply_tx_inv skip mode only blk trx s t' m' s' :
  apply_tx skip mode only blk trx s = Ok (t', m', s') ->
  exists s1 cron, admit_tx skip mode blk trx s = Ok (s1, cron) /\
    transactions s' = transactions s1 /\ head_block_num s' = head_block_num s1 /\
    pending_tx s' = pending_tx s1 /\
    if only then ledger s' = ledger s1 /\ t' = trx
    else exists failed, apply_operations op_time p (operations trx) 0 mode
           (bool_decide (is_Some (agreed_task trx))) (operation_results trx) 0 [] 0 (ledger s1)
           = Ok (operation_results t', failed, m', ledger s').
Proof.
  intros Hr. unfold _apply_transaction in Hr. apply rbind_ok in Hr as ([s1 cron] & Ha & Hr).
  exists s1, cron. split; [done|]. destruct only; [by injection Hr as <- _ <-|].
  apply rbind_ok in Hr as ([[[rs fl] md] d] & Ho & Hr). apply rbind_ok in Hr as (s2 & Hf & [= <- <- <-]).
  assert (E : ledger s2 = d /\ transactions s2 = transactions s1 /\ head_block_num s2 = head_block_num s1
    /\ pending_tx s2 = pending_tx s1).
  { unfold finish_task in Hf. destruct cron as [id|]; [skip_bind Hf|]; by injection Hf as <-. }
  destruct E as (<- & ? & ? & ?). do 3 (split; [done|]). by exists fl.
Qed.

(** The operations of a transaction are valid when it was validated. *)
Lemma validate_ops_all ops : validate_ops ops = Ok tt -> forall op, op ∈ ops -> op_validate op = Ok tt.
Proof.
  induction ops as [|o ops IH]; cbn; intros Hv op Hin; [by apply elem_of_nil in Hin|].
  skip_bind Hv. apply rbind_ok in Hv as ([] & Ho & Hv). apply elem_of_cons in Hin as [->|Hin]; auto.
Qed.

Definition well_typed_trx (trx : transaction Op) : Prop := forall op, op ∈ operations trx -> op_well_typed op.

Lemma apply_tx_keeps skip mode only blk trx s t' m' s' : chain_ok (ledger s) ->
  skip_validate skip = false -> well_typed_trx trx ->
  apply_tx skip mode only blk trx s = Ok (t', m', s') ->
  conserves_but (if only then 0 else results_fees (operation_results t')) (ledger s) (ledger s').
Proof.
  intros Hok Hsk Ht Hr. apply apply_tx_inv in Hr as (s1 & cron & Ha & _ & _ & _ & Hr).
  apply admit_spec in Ha as (op0 & _ & (L & _) & Hv & _). rewrite L in Hr. destruct only.
  - destruct Hr as [-> _]. by apply conserves_but_refl.
  - destruct Hr as [fl Hr]. apply apply_operations_keeps in Hr as (new & -> & _ & C); [done|done|].
    assert (Hval : trx_validate trx = Ok tt).
    { apply Hv. unfold effective_skip. by destruct (is_contract_share_fee op0). }
    unfold trx_validate in Hval. skip_bind Hval. intros op Hin. split; [by apply Ht|].
    by eapply validate_ops_all.
Qed.

(** ** Sequences of transactions and blocks *)

Inductive event :=
| ev_apply (skip : tx_skip) (mode : transaction_apply_mode) (only_try : bool) (blk : Z * Z)
    (trx : transaction Op)
| ev_block (time : Z) (summaries : gmap Z Z).

(** What a block does to the parts a transaction is admitted by: the head and the clock
    move on, there are new block summaries, and the expired transactions, proposals, tasks
    and temporary keys are cleared.  The rest of [_apply_block] (expired orders and feeds,
    the witness's pay, maintenance) changes none of these and is modelled in
    [ExpiredOrders], [Schedule] and [Maintenance]. *)
Definition next_head (time : Z) (summaries : gmap Z Z) (s : tx_state Op) : tx_state Op :=
  mk_tx_state (set_head_block_time time (ledger s)) (transactions s) (blocks_info s) (proposals s)
    (crontabs s) (next_crontab s) (temporary_active s) summaries
    (head_block_num s + 1) (pending_tx s).

Definition run_event (e : event) (s : tx_state Op) : result (tx_state Op) :=
  match e with
  | ev_apply skip mode only blk trx => let* (_, _, s) := apply_tx skip mode only blk trx s in Ok s
  | ev_block time summaries =>
      check head_block_time (ledger s) <=? time;
      get_or (s ← clear_expired_transactions (next_head time summaries s);
              s ← clear_expired_proposals s; s ← clear_expired_timed_task s;
              clear_expired_active s) undefined_behaviour
  end.

Fixpoint run_events (l : list event) (s : tx_state Op) : result (tx_state Op) :=
  match l with
  | [] => Ok s
  | e :: l' => let* s := run_event e s in run_events l' s
  end.

Definition event_ok (e : event) : Prop :=
  match e with
  | ev_apply skip _ _ _ trx => skip_validate skip = false /\ well_typed_trx trx
  | ev_block _ _ => True
  end.

(** A transaction that was applied is remembered until it has expired. *)
Definition remembered (id expiration_ : Z) (s : tx_state Op) : Prop :=
  chain_ok (ledger s) /\ 0 < head_block_num s /\
  (transactions s !! id = Some expiration_ \/ expiration_ < head_block_time (ledger s)).

Lemma clear_transactions_exact (s : tx_state Op) : clear_expired_transactions s
  = Some (set_transactions (filter (fun kv => (head_block_time (ledger s) >? kv.2) = false)
      (transactions s)) s).
Proof.
  unfold clear_expired_transactions. rewrite clear_loop_filter; [done| |lia].
  intros a b Hab Hb. bool_to_prop. apply Z.gtb_lt. lia.
Qed.

Lemma clear_proposals_exact (s : tx_state Op) : exists m, clear_expired_proposals s = Some (set_proposals m s)
  /\ forall id, m !! id = match proposals s !! id with
       | Some pr => if negb (proposal_allow pr) && (proposal_expiration pr <=? head_block_time (ledger s))
                    then None else Some pr
       | None => None
       end.
Proof.
  unfold clear_expired_proposals. rewrite clear_loop_filter; [|intros a b Hab Hb; bool_to_prop; apply Z.leb_le; lia|lia].
  eexists. split; [done|]. intros id. rewrite lookup_union, !map_lookup_filter.
  destruct (proposals s !! id) as [pr|]; cbn; [|done].
  destruct (proposal_allow pr) eqn:Ea, (proposal_expiration pr <=? head_block_time (ledger s)) eqn:E; cbn;
    repeat (case_guard; cbn); try done; congruence.
Qed.

Lemma clear_active_exact (s : tx_state Op) : clear_expired_active s
  = Some (set_temporary_active (filter (fun kv => (head_block_time (ledger s) >? temporary_expiration kv.2) = false)
      (temporary_active s)) s).
Proof.
  unfold clear_expired_active. rewrite clear_loop_filter; [done| |lia].
  intros a b Hab Hb. bool_to_prop. apply Z.gtb_lt. lia.
Qed.

Lemma clear_crontabs_exact (s : tx_state Op) : clear_expired_timed_task s
  = Some (set_crontabs (filter (fun kv => (crontab_expiration kv.2 <=? head_block_time (ledger s)) = false)
      (crontabs s)) s).
Proof.
  unfold clear_expired_timed_task. rewrite clear_loop_filter; [done| |lia].
  intros a b Hab Hb. bool_to_prop. apply Z.leb_le. lia.
Qed.

Lemma run_event_remembers id e ev s s' : remembered id e s -> event_ok ev ->
  run_event ev s = Ok s' -> remembered id e s'.
Proof.
  intros (Hok & Hn & Hr) Hev He. destruct ev as [skip mode only blk trx|time summaries]; cbn [run_event] in He.
  - apply rbind_ok in He as ([[t m] s1] & Ha & [= <-]). destruct Hev as [Hsk Ht].
    pose proof (apply_tx_keeps _ _ _ _ _ _ _ _ _ Hok Hsk Ht Ha) as (Hok' & Htime & _).
    apply apply_tx_inv in Ha as (s2 & cron & Ha & T & N & _).
    apply admit_spec in Ha as (op0 & _ & (_ & N2 & _ & K) & _).
    split; [done|]. split; [congruence|]. rewrite Htime, T. destruct Hr as [Hr|Hr]; [left; by apply K|by right].
  - apply rbind_ok in He as ([] & Hle & He). unfold fc_assert in Hle.
    destruct (Z.leb_spec (head_block_time (ledger s)) time) as [Hle'|]; [|done].
    rewrite clear_transactions_exact in He. cbn [mbind option_bind] in He.
    destruct (clear_proposals_exact (set_transactions (filter
      (fun kv => (head_block_time (ledger (next_head time summaries s)) >? kv.2) = false)
      (transactions (next_head time summaries s))) (next_head time summaries s))) as (pm & Hpm & _).
    rewrite Hpm in He. cbn [mbind option_bind] in He.
    rewrite clear_crontabs_exact in He. cbn [mbind option_bind] in He.
    rewrite clear_active_exact in He. injection He as <-.
    unfold remembered. cbn [ledger set_ledger set_transactions set_temporary_active set_crontabs set_proposals next_head
      head_block_num transactions head_block_time set_head_block_time].
    split; [destruct Hok as [[] Hl Hs]; split; [split; auto|done|done]|]. split; [lia|].
    destruct Hr as [Hr|Hr]; [|right; lia]. destruct (Z.lt_ge_cases e time); [by right|left].
    apply map_lookup_filter_Some. split; [done|]. cbn. rewrite Z.gtb_ltb. apply Z.ltb_ge. lia.
Qed.

Lemma run_events_remember id e l : forall s s', remembered id e s -> Forall event_ok l ->
  run_events l s = Ok s' -> remembered id e s'.
Proof.
  induction l as [|ev l IH]; cbn; intros s s' Hr Hall He; [by injection He as <-|].
  apply Forall_cons in Hall as [Hev Hall]. apply rbind_ok in He as (s1 & H1 & He).
  eapply IH; [|done|exact He]. by eapply run_event_remembers.
Qed.

(** Not an operation that bypasses the list of known transactions. *)
Definition ordinary (trx : transaction Op) : Prop :=
  agreed_task trx = None /\ forall op, head (operations trx) = Some op -> is_contract_share_fee op = false.

Lemma remembered_rejects skip mode only blk trx s t m s' : remembered (id_of trx) (expiration trx) s ->
  ordinary trx -> skip_transaction_dupe_check skip = false ->
  apply_tx skip mode only blk trx s = Ok (t, m, s') -> False.
Proof.
  intros (_ & Hn & Hr) [Hag Hns] Hdup Ha. apply apply_tx_inv in Ha as (s1 & cron & Ha & _).
  apply admit_spec in Ha as (op0 & Hop & _ & _ & Hd & _ & He).
  destruct (Hd (Hns _ Hop) Hdup) as [Hnone _]. specialize (He Hag Hn).
  destruct Hr as [Hr|Hr]; [by rewrite Hr in Hnone|].
  unfold check_expiration in He. do 2 skip_bind He. unfold fc_assert in He.
  destruct (Z.leb_spec (head_block_time (ledger s)) (expiration trx)); [lia|done].
Qed.

Lemma applied_remembered skip mode only blk trx s t m s' : chain_ok (ledger s) -> 0 < head_block_num s ->
  skip_validate skip = false -> well_typed_trx trx -> ordinary trx ->
  skip_transaction_dupe_check skip = false -> apply_tx skip mode only blk trx s = Ok (t, m, s') ->
  remembered (id_of trx) (expiration trx) s'.
Proof.
  intros Hok Hn Hsk Ht [Hag Hns] Hdup Ha.
  pose proof (apply_tx_keeps _ _ _ _ _ _ _ _ _ Hok Hsk Ht Ha) as (Hok' & _).
  apply apply_tx_inv in Ha as (s1 & cron & Ha & T & N & _).
  apply admit_spec in Ha as (op0 & Hop & (_ & N1 & _) & _ & Hd & _).
  destruct (Hd (Hns _ Hop) Hdup) as [_ Hin]. split; [done|]. split; [congruence|]. left. by rewrite T.
Qed.

End TransactionProofs.

(** ** Properties *)

(** C18: An ordinary transaction (it is no agreed task, and its first operation does not
    share contract fees: the code lets those two pass without some of the checks) that is
    applied without skip flags after the first block passed every guard: it was
    validated, was not known before and is known afterwards, its signatures satisfy
    the authorities its operations require, it names a block of this chain, and it
    had not expired and does not expire too far ahead. *)
Theorem apply_transaction_guards {Op} `{OperationSet Op} (tx_hash : transaction Op -> Z)
    (id_of_hash : Z -> Z) (pack_size : transaction Op -> Z) (recovered_keys : transaction Op -> list Z)
    (required : transaction Op -> requirements) (key_addresses : Z -> list Z) (op_time : nat -> Z)
    (p : tx_parameters) (mode : transaction_apply_mode) (only : bool) (blk : Z * Z)
    (trx trx' : transaction Op) (mode' : transaction_apply_mode) (s s' : tx_state Op)
    (Ho : ordinary trx) (Hn : 0 < head_block_num s)
    (Ha : _apply_transaction tx_hash id_of_hash pack_size recovered_keys required key_addresses op_time p
            no_tx_skip mode only blk trx s = Ok (trx', mode', s')) :
  let now := head_block_time (ledger s) in
  trx_validate trx = Ok tt /\
  transactions s !! trx_id tx_hash id_of_hash trx = None /\
  transactions s' !! trx_id tx_hash id_of_hash trx = Some (expiration trx) /\
  trx_verify_authority recovered_keys required key_addresses p s trx = Ok tt /\
  block_summaries s !! ref_block_num trx = Some (ref_block_prefix trx) /\
  now <= expiration trx <= wrap32 (now + maximum_time_until_expiration p).
Proof.
  destruct Ho as [Hag Hns]. apply apply_tx_inv in Ha as (s1 & cron & Ha & T & _).
  apply admit_spec in Ha as (op0 & Hop & _ & Hv & Hd & Hauth & He).
  unfold effective_skip in Hv, Hauth, He. rewrite (Hns _ Hop) in Hv, Hauth, He.
  destruct (Hd (Hns _ Hop) eq_refl) as [Hnone Hin]. specialize (He Hag Hn).
  unfold check_expiration in He. cbn [skip_tapos_check no_tx_skip negb] in He.
  apply rbind_ok in He as ([] & Hp & He). apply rbind_ok in Hp as (pre & Hp & Heq).
  apply rbind_ok in He as ([] & H1 & H2). unfold get_or in Hp.
  destruct (block_summaries s !! ref_block_num trx) as [pre'|] eqn:Eb; [|done]. injection Hp as ->.
  unfold fc_assert in *. case_if_in Heq; [|done]. case_if_in H1; [|done]. case_if_in H2; [|done]. bool_to_prop.
  split; [by apply Hv|]. split; [done|]. split; [by rewrite T|]. split; [by apply Hauth|]. split; [|lia]. congruence.
Qed.

(** C3: No transaction is applied twice.  After a transaction was applied, whatever
    transactions and blocks follow, applying it again fails: its id is remembered
    until the chain's clock has passed its expiration, and from then on the expiration
    itself stands against it.  (Agreed tasks and the operation that shares contract
    fees are exempt, as in the code.) *)
Theorem no_replay {Op} `{OperationLaws Op} (tx_hash : transaction Op -> Z)
    (id_of_hash : Z -> Z) (pack_size : transaction Op -> Z) (recovered_keys : transaction Op -> list Z)
    (required : transaction Op -> requirements) (key_addresses : Z -> list Z) (op_time : nat -> Z)
    (p : tx_parameters) (skip skip' : tx_skip) (mode mode' : transaction_apply_mode) (only only' : bool)
    (blk blk' : Z * Z) (trx trx1 : transaction Op) (mode1 : transaction_apply_mode)
    (s s1 s2 : tx_state Op) (l : list event)
    (Hok : chain_ok (ledger s)) (Hn : 0 < head_block_num s) (Ho : ordinary trx)
    (Ht : well_typed_trx trx) (Hskip : skip_validate skip = false)
    (Hdup : skip_transaction_dupe_check skip = false) (Hdup' : skip_transaction_dupe_check skip' = false)
    (Hfirst : _apply_transaction tx_hash id_of_hash pack_size recovered_keys required key_addresses op_time p
                skip mode only blk trx s = Ok (trx1, mode1, s1))
    (Hl : Forall event_ok l)
    (Hrun : run_events tx_hash id_of_hash pack_size recovered_keys required key_addresses op_time p l s1
            = Ok s2) :
  is_ok (_apply_transaction tx_hash id_of_hash pack_size recovered_keys required key_addresses op_time p
           skip' mode' only' blk' trx s2) = false.
Proof.
  pose proof (applied_remembered _ _ _ _ _ _ _ _ _ _ _ _ _ _ _ _ _ Hok Hn Hskip Ht Ho Hdup Hfirst) as Hr.
  pose proof (run_events_remember _ _ _ _ _ _ _ _ _ _ _ _ _ Hr Hl Hrun) as Hr2.
  destruct (_apply_transaction _ _ _ _ _ _ _ _ skip' _ _ _ trx s2) as [[[t m] s3]|e] eqn:E; [|done].
  exfalso. by eapply remembered_rejects.
Qed.


(** ** Crontabs *)

Section Crontab.
Context {Op : Type}.
Variable p : tx_parameters.

(** One execution of a task at [now]: [start_task], the operations, [finish_task]. *)
Definition run_crontab (c : crontab_object Op) (run : Z * bool) : crontab_object Op :=
  finish_crontab p run.1 run.2 (start_crontab p run.1 c).

Definition run_crontabs (c : crontab_object Op) (l : list (Z * bool)) : crontab_object Op :=
  foldl run_crontab c l.

(** Failures in a row at the end of some executions. *)
Definition failures (l : list (Z * bool)) : Z :=
  foldl (fun (n : Z) (run : Z * bool) => if run.2 then n + 1 else 0) 0 l.

Lemma failures_bounds l : 0 <= failures l <= Z.of_nat (length l).
Proof.
  induction l as [|run l IH] using rev_ind; [done|]. unfold failures in *.
  rewrite foldl_app, length_app. cbn. case_if; lia.
Qed.

Lemma run_crontab_spec c run :
  0 <= already_execute_times c -> already_execute_times c + 1 < scheduled_execute_times c < uint64_mod ->
  0 <= continuous_failure_times c < uint32_mod - 1 ->
  let c' := run_crontab c run in
  already_execute_times c' = already_execute_times c + 1 /\
  scheduled_execute_times c' = scheduled_execute_times c /\
  continuous_failure_times c' = (if run.2 then continuous_failure_times c + 1 else 0) /\
  is_suspended c'
    = (if run.2 && (crontab_suspend_threshold p =? continuous_failure_times c + 1)
       then true else is_suspended c) /\
  (run.2 && (crontab_suspend_threshold p =? continuous_failure_times c + 1) = true ->
   next_execte_time c' = time_point_sec_maximum).
Proof.
  intros H0 Hs Hc. destruct run as [now failed]. unfold run_crontab, finish_crontab, start_crontab.
  cbn [fst snd already_execute_times scheduled_execute_times continuous_failure_times is_suspended].
  rewrite (Z.mod_small (already_execute_times c + 1)) by lia.
  rewrite (proj2 (Z.ltb_lt _ _)) by lia.
  assert (Hw : wrap32 (continuous_failure_times c + 1) = continuous_failure_times c + 1)
    by (unfold wrap32; rewrite Z.mod_small by lia; done).
  rewrite Hw.
  destruct failed; cbn [andb].
  - case_if; cbn; done.
  - destruct (Z.eqb_spec (continuous_failure_times c) 0) as [E|E]; cbn; done.
Qed.

End Crontab.

(** A timed task is suspended exactly when it has failed as many times in a row as
    the chain allows: as long as the task has runs left, each execution counts the
    failures at its end, a success sets the count back, and when the count reaches the
    threshold the task is suspended and not run again. *)
Theorem crontab_suspends {Op} (p : tx_parameters) (c : crontab_object Op) (l : list (Z * bool))
    (Hp : 0 < crontab_suspend_threshold p < uint32_mod - 1)
    (Hc : continuous_failure_times c = 0 /\ is_suspended c = false)
    (Hn : 0 <= already_execute_times c)
    (Hs : already_execute_times c + Z.of_nat (length l) < scheduled_execute_times c < uint64_mod)
    (Hl : forall k, (k < length l)%nat -> failures (take k l) < crontab_suspend_threshold p) :
  let c' := run_crontabs p c l in
  already_execute_times c' = already_execute_times c + Z.of_nat (length l) /\
  continuous_failure_times c' = failures l /\
  (is_suspended c' = true <-> failures l = crontab_suspend_threshold p) /\
  (is_suspended c' = true -> next_execte_time c' = time_point_sec_maximum).
Proof.
  destruct Hc as [Hc0 Hsusp].
  assert (Hgen : let c' := run_crontabs p c l in
    already_execute_times c' = already_execute_times c + Z.of_nat (length l) /\
    scheduled_execute_times c' = scheduled_execute_times c /\
    continuous_failure_times c' = failures l /\
    (is_suspended c' = true <-> failures l = crontab_suspend_threshold p) /\
    (is_suspended c' = true -> next_execte_time c' = time_point_sec_maximum)).
  { induction l as [|run l IH] using rev_ind.
    - cbn. rewrite Hsusp, Hc0. unfold failures. cbn. repeat split; (lia || done).
    - rewrite length_app in *. cbn [length] in *. specialize (IH ltac:(lia)).
      assert (Hpre : forall k, (k < length l)%nat -> failures (take k l) < crontab_suspend_threshold p).
      { intros k Hk. specialize (Hl k ltac:(lia)). by rewrite take_app_le in Hl by lia. }
      specialize (IH Hpre). cbv zeta in IH |- *. unfold run_crontabs in *. rewrite foldl_app. cbn [foldl].
      set (c1 := foldl (run_crontab p) c l) in *. destruct IH as (A1 & S1 & F1 & U1 & _).
      pose proof (Hl (length l) ltac:(lia)) as Hlast. rewrite take_app_length in Hlast.
      pose proof (failures_bounds l) as Hb.
      assert (Hns : is_suspended c1 = false).
      { destruct (is_suspended c1); [|done]. specialize (proj1 U1 eq_refl). lia. }
      destruct (run_crontab_spec p c1 run ltac:(lia) ltac:(lia) ltac:(lia)) as (A2 & S2 & F2 & U2 & N2).
      assert (Hf : failures (l ++ [run]) = if run.2 then failures l + 1 else 0)
        by (unfold failures; rewrite foldl_app; done).
      rewrite A2, S2, F2, U2, Hf, Hns, F1. split; [lia|]. split; [done|]. split; [done|].
      rewrite F1 in N2. destruct (run.2); cbn [andb] in N2 |- *.
      + destruct (Z.eqb_spec (crontab_suspend_threshold p) (failures l + 1)).
        * split; [split; [lia|done]|]. intros _. by apply N2.
        * split; [split; [done|lia]|done].
      + split; [split; [done|lia]|done]. }
  destruct Hgen as (A & _ & F & U & N). exact (conj A (conj F (conj U N))).
Qed.

(** A task that fails, succeeds and then fails three times. *)
Lemma crontab_suspends_witness :
  let p := mk_tx_parameters 2000000 1 3 2 86400 7200 3 259200 0 0 (mk_fee_parameters 10000 86400) in
  let c := mk_crontab 5 0 (mk_trx 0 0 0 [tt] None []) 60 10 0 0 0 0 false true 1000 in
  let runs := [(100, true); (160, false); (220, true); (280, true); (340, true)] in
  failures runs = 3 /\ is_suspended (run_crontabs p c runs) = true.
Proof.
  set (p := mk_tx_parameters _ _ _ _ _ _ _ _ _ _ _). set (c := mk_crontab _ _ _ _ _ _ _ _ _ _ _ _).
  set (runs := [(100, true); (160, false); (220, true); (280, true); (340, true)]).
  destruct (crontab_suspends p c runs ltac:(cbn; lia) ltac:(done) ltac:(cbn; lia) ltac:(cbn; lia)) as (_ & _ & Hs & _).
  - intros k Hk. cbn in Hk. do 5 (destruct k as [|k]; [vm_compute; done|]). lia.
  - split; [done|]. by apply Hs.
Defined.
