(* ===== verification/Candidates.v ===== *)
(** * Witness and committee candidates

    [witness_evaluator.cpp] and [committee_member_evaluator.cpp]: registering a
    candidate, which freezes core units of its account, and changing its status.  The two
    offices have the same evaluators but for the signing key of a witness and one check
    of a committee member; [office] tells them apart. *)

From S2P Require Import Prelude SafeInt Asset Vesting Authority State Ledger.

(** ** The two offices *)

Inductive office := Witness | Committee.

#[global] Instance office_eq_dec : EqDecision office.
Proof. solve_decision. Defined.

(** The type of the vote ids of an office. *)
Definition office_type (o : office) : Z := match o with Witness => witness | Committee => committee end.

Definition candidates (o : office) (g : governance_state) : gmap Z candidate :=
  match o with Witness => witness_candidates g | Committee => committee_members g end.
Definition set_candidates (o : office) (m : gmap Z candidate) (g : governance_state) : governance_state :=
  match o with Witness => set_witness_candidates m g | Committee => set_committee_members m g end.
Definition next_candidate (o : office) (g : governance_state) : Z :=
  match o with Witness => next_witness g | Committee => next_committee_member g end.
Definition set_next_candidate (o : office) (n : Z) (g : governance_state) : governance_state :=
  match o with Witness => set_next_witness n g | Committee => set_next_committee_member n g end.
Definition candidate_freeze (o : office) (p : chain_parameters) : Z :=
  match o with Witness => witness_candidate_freeze p | Committee => committee_candidate_freeze p end.
Definition freeze_of (o : office) (a : account_object) : option asset :=
  match o with Witness => witness_freeze a | Committee => committee_freeze a end.
Definition set_freeze (o : office) (x : option asset) (a : account_object) : account_object :=
  match o with Witness => set_witness_freeze x a | Committee => set_committee_freeze x a end.
Definition status_of (o : office) (a : account_object) : option (Z * bool) :=
  match o with Witness => witness_status a | Committee => committee_status a end.
Definition set_status (o : office) (x : option (Z * bool)) (a : account_object) : account_object :=
  match o with Witness => set_witness_status x a | Committee => set_committee_status x a end.

Definition get_candidate (o : office) (id : Z) (d : database) : result candidate :=
  get_or (candidates o (governance d) !! id) assert_exception.
Definition put_candidate (o : office) (id : Z) (c : candidate) (d : database) : database :=
  let g := governance d in
  set_governance (set_candidates o (<[id := c]> (candidates o g)) g) d.
Definition put_account (id : Z) (a : account_object) (d : database) : database :=
  set_accounts (<[id := a]> (accounts d)) d.

(** [locked_total[aid] += delta]. *)
Definition add_locked (aid delta : Z) (a : account_object) : result account_object :=
  let* l := Share.add (locked_of a aid) delta in
  Ok (set_locked_total (<[aid := l]> (locked_total a)) a).

(** [locked_total[aid] -= delta]. *)
Definition sub_locked (aid delta : Z) (a : account_object) : result account_object :=
  let* l := Share.sub (locked_of a aid) delta in
  Ok (set_locked_total (<[aid := l]> (locked_total a)) a).

Abbreviation time_point_sec_maximum := 4294967295.

Definition is_lifetime_member (a : account_object) : bool :=
  membership_expiration_date a =? time_point_sec_maximum.

(** [get_next_vote_id]: an instance has the 24 upper bits of a vote id. *)
Definition get_next_vote_id (g : governance_state) : Z * governance_state :=
  let n := next_available_vote_id g in
  (n mod 2 ^ 24, set_next_available_vote_id (wrap32 (n + 1)) g).

(** How many candidates of an office are on the job. *)
Definition on_the_job (o : office) (g : governance_state) : Z :=
  Z.of_nat (length (filter (fun kv => work_status kv.2 = true) (map_to_list (candidates o g)))).

(** ** Registering *)

Abbreviation GRAPHENE_MAX_URL_LENGTH := 127.
Definition url_ok (url : string) : bool := Z.of_nat (String.length url) <? GRAPHENE_MAX_URL_LENGTH.

(** [witness_create_operation]; a committee member has no signing key. *)
Record candidate_create_operation := mk_candidate_create {
  cc_account : Z;
  cc_url : string;
  cc_signing_key : option Z }.

Definition candidate_create_do_evaluate (o : office) (op : candidate_create_operation) (d : database)
    : result unit :=
  let* a := get_account (cc_account op) d in
  check is_lifetime_member a;
  fc_assert (amount (get_balance (cc_account op) CORE d)
               >=? candidate_freeze o (parameters (governance d))).

(** The index of candidates is unique in the account and in the vote id. *)
Definition candidate_is_new (c : candidate) (m : gmap Z candidate) : bool :=
  forallb (fun kv => negb (cand_account kv.2 =? cand_account c)
                     && negb (cand_vote_id kv.2 =? cand_vote_id c)) (map_to_list m).

Definition candidate_create_do_apply (o : office) (next_maintenance_time : Z)
    (op : candidate_create_operation) (d : database) : result (Z * database) :=
  let freeze := candidate_freeze o (parameters (governance d)) in
  let (vote_id, g) := get_next_vote_id (governance d) in
  let d := set_governance g d in
  let id := next_candidate o g in
  let c := mk_candidate (cc_account op) vote_id (wrap64 freeze) (cc_url op) true next_maintenance_time ∅
             (cc_signing_key op) in
  check candidate_is_new c (candidates o g);
  let d := put_candidate o id c (set_governance (set_next_candidate o (id + 1) g) d) in
  let* a := get_account (cc_account op) d in
  let a := set_freeze o (Some (mk_asset freeze CORE)) (set_status o (Some (id, true)) a) in
  let* a := add_locked CORE freeze a in
  check freeze >=? 0;
  let d := put_account (cc_account op) a d in
  let* _ := assert_balance (cc_account op) (mk_asset freeze CORE) d in
  Ok (id, d).

(** [committee_member_create_evaluator]. *)
Definition committee_member_create_do_evaluate := candidate_create_do_evaluate Committee.
Definition committee_member_create_do_apply := candidate_create_do_apply Committee.

(** ** Changing the status *)

Record candidate_update_operation := mk_candidate_update {
  cu_candidate : Z;
  cu_account : Z;
  cu_new_url : option string;
  cu_new_signing_key : option Z;
  cu_work_status : bool }.

(** [min_count] is the immutable minimum of candidates on the job. *)
Definition candidate_update_do_evaluate (o : office) (min_count : Z) (op : candidate_update_operation)
    (d : database) : result unit :=
  let* c := get_candidate o (cu_candidate op) d in
  check cand_account c =? cu_account op;
  let* _ :=
    match o with
    | Witness => Ok tt
    | Committee => fc_assert (amount (get_balance (cu_account op) CORE d)
                                >=? committee_candidate_freeze (parameters (governance d)))
    end in
  if negb (cu_work_status op) then fc_assert (min_count <? on_the_job o (governance d)) else Ok tt.

(** The frozen units count as votes while the candidate is on the job.  Reading an empty
    optional is undefined. *)
Definition change_votes (freeze : Z) (on_job : bool) (frozen : option asset) (votes : Z) : result Z :=
  if on_job then Ok (wrap64 (votes + freeze))
  else let* f := get_or frozen undefined_behaviour in Ok (wrap64 (votes - amount f)).

Definition change_lock (o : office) (freeze : Z) (on_job : bool) (a : account_object)
    : result account_object :=
  let* st := get_or (status_of o a) undefined_behaviour in
  let a := set_status o (Some (st.1, on_job)) a in
  if negb on_job then
    match freeze_of o a with
    | Some f =>
        let* pos := asset_geb f (mk_asset 0 CORE) in
        check pos && (locked_of a CORE >=? amount f);
        let* a := sub_locked CORE (amount f) a in
        Ok (set_freeze o None a)
    | None => Ok a
    end
  else
    match freeze_of o a with
    | Some _ => Ok a
    | None =>
        check freeze >=? 0;
        add_locked CORE freeze (set_freeze o (Some (mk_asset freeze CORE)) a)
    end.

Definition candidate_update_do_apply (o : office) (next_maintenance_time : Z)
    (op : candidate_update_operation) (d : database) : result database :=
  let* c := get_candidate o (cu_candidate op) d in
  let freeze := candidate_freeze o (parameters (governance d)) in
  let* a := get_account (cu_account op) d in
  check negb (cand_next_maintenance c =? next_maintenance_time);
  let on_job := cu_work_status op in
  let change_status := negb (eqb (work_status c) on_job) in
  let* votes := if change_status then change_votes freeze on_job (freeze_of o a) (total_votes c)
                else Ok (total_votes c) in
  let c := mk_candidate (cand_account c) (cand_vote_id c) votes
             (default (cand_url c) (cu_new_url op)) (if change_status then on_job else work_status c)
             (if change_status then next_maintenance_time else cand_next_maintenance c) (supporters c)
             (match cu_new_signing_key op with Some k => Some k | None => signing_key c end) in
  let d := put_candidate o (cu_candidate op) c d in
  let* a := if change_status then change_lock o freeze on_job a else Ok a in
  let d := put_account (cu_account op) a d in
  let* _ := assert_balance (cu_account op) (mk_asset freeze CORE) d in
  Ok d.

(** [committee_member_update_evaluator]. *)
Definition committee_member_update_do_evaluate := candidate_update_do_evaluate Committee.
Definition committee_member_update_do_apply := candidate_update_do_apply Committee.

(** [validate] of the operations of both offices. *)
Definition candidate_create_validate (op : candidate_create_operation) : result unit :=
  fc_assert (url_ok (cc_url op)).
Definition candidate_update_validate (op : candidate_update_operation) : result unit :=
  match cu_new_url op with Some url => fc_assert (url_ok url) | None => Ok tt end.

(** ** The parameters the committee sets *)

(** [chain_parameters::validate], without the fee schedule. *)
Definition parameters_validate (max_block_size max_expiration : Z) (p : chain_parameters) : result unit :=
  check (1 <=? block_interval_ p) && (block_interval_ p <=? 30) && (0 <? block_interval_ p);
  check Z.odd (witness_number_of_election p);
  check Z.odd (committee_number_of_election p);
  check block_interval_ p <? maintenance_interval p;
  check maintenance_interval p mod block_interval_ p =? 0;
  check 5120 <=? max_block_size;
  check block_interval_ p <? max_expiration;
  fc_assert (block_interval_ p <? wrap32 (maximum_proposal_lifetime p - committee_proposal_review_period p)).

(** [committee_member_update_global_parameters]: only an agreed task may run it; the new
    parameters wait for the next maintenance. *)
Definition update_parameters_do_evaluate (is_agreed_task : bool) : result unit := fc_assert is_agreed_task.

Definition update_parameters_do_apply (min_witness_count min_committee_member_count : Z)
    (new_parameters : chain_parameters) (d : database) : result database :=
  let g := governance d in
  check maintenance_interval new_parameters =? maintenance_interval (parameters g);
  check (min_witness_count <=? witness_number_of_election new_parameters)
        && (witness_number_of_election new_parameters <=? Z.of_nat (size (witness_candidates g)));
  check (min_committee_member_count <=? committee_number_of_election new_parameters)
        && (committee_number_of_election new_parameters <=? Z.of_nat (size (committee_members g)));
  Ok (set_governance (set_pending_parameters (Some new_parameters) g) d).

(** [update_global_property_extensions]. *)
Definition update_extensions_do_apply (e : global_property_extensions) (d : database) : result database :=
  let g := governance d in
  check (0 <? witness_max_votes e) && (witness_max_votes e <=? Z.of_nat (size (witness_candidates g)));
  check (0 <? committee_max_votes e) && (committee_max_votes e <=? Z.of_nat (size (committee_members g)));
  let* _ := get_or (property_extensions g) assert_exception in
  Ok (set_governance (set_property_extensions (Some e) g) d).
