(* ===== verification/Names.v ===== *)
(** * Account names

    [is_valid_name] and [is_cheap_name] of [protocol/account.cpp].  The validator walks the
    name by indexes, label by label; it is shown to accept exactly the names of the grammar
    its comment gives (RFC 1035, lower case), with the length of a label the code asks for. *)

From Stdlib Require Import String Ascii.
From S2P Require Import Prelude.

#[local] Open Scope nat_scope.

Abbreviation GRAPHENE_MIN_ACCOUNT_NAME_LENGTH := 5.
Abbreviation GRAPHENE_MAX_ACCOUNT_NAME_LENGTH := 63.

(** ** The character classes of the [switch]es *)

Definition char_in (lo hi : ascii) (c : ascii) : bool :=
  (nat_of_ascii lo <=? nat_of_ascii c) && (nat_of_ascii c <=? nat_of_ascii hi).
Definition is_letter (c : ascii) : bool := char_in "a" "z" c.
Definition is_let_dig (c : ascii) : bool := is_letter c || char_in "0" "9" c.
Definition is_let_dig_hyp (c : ascii) : bool := is_let_dig c || Ascii.eqb c "-".

(** ** The validator *)

(** [name[i]]; a C++ string has a null character at its size. *)
Definition char_at (name : list ascii) (i : nat) : ascii := default Ascii.zero (name !! i).

(** [name.find_first_of(c, begin)]; [None] is [npos]. *)
Fixpoint find_char (c : ascii) (l : list ascii) : option nat :=
  match l with
  | [] => None
  | x :: l' => if Ascii.eqb x c then Some 0 else S <$> find_char c l'
  end.
Definition find_first_of (c : ascii) (begin : nat) (name : list ascii) : option nat :=
  (fun i => begin + i) <$> find_char c (drop begin name).

(** What is asked of the characters from [begin] up to [end_]. *)
Definition label_checks (name : list ascii) (begin end_ : nat) : bool :=
  negb (end_ - begin <? GRAPHENE_MIN_ACCOUNT_NAME_LENGTH)
  && is_letter (char_at name begin)
  && is_let_dig (char_at name (end_ - 1))
  && forallb (fun i => is_let_dig_hyp (char_at name i)) (seq (begin + 1) (end_ - 1 - (begin + 1))).

(** [while( true )]: a label a round. *)
Fixpoint labels_loop (fuel : nat) (name : list ascii) (begin : nat) : option bool :=
  match fuel with
  | O => None
  | S fuel =>
      let end_ := default (length name) (find_first_of "." begin name) in
      if negb (label_checks name begin end_) then Some false
      else if end_ =? length name then Some true
      else labels_loop fuel name (end_ + 1)
  end.

Definition is_valid_name (s : string) : option bool :=
  let name := list_ascii_of_string s in
  if length name <? GRAPHENE_MIN_ACCOUNT_NAME_LENGTH then Some false
  else if GRAPHENE_MAX_ACCOUNT_NAME_LENGTH <? length name then Some false
  else labels_loop (S (length name)) name 0.

(** ** Cheap names *)

Definition is_vowel (c : ascii) : bool :=
  bool_decide (c ∈ ["a"; "e"; "i"; "o"; "u"; "y"]%char).
Definition is_separator (c : ascii) : bool := bool_decide (c ∈ ["."; "-"; "/"]%char).

Fixpoint cheap_loop (v : bool) (l : list ascii) : bool :=
  match l with
  | [] => negb v
  | c :: l' =>
      if char_in "0" "9" c then true
      else if is_separator c then true
      else cheap_loop (v || is_vowel c) l'
  end.
Definition is_cheap_name (n : string) : bool := cheap_loop false (list_ascii_of_string n).

(** ** The grammar of the comment *)

(** A label: a letter, letters, digits and hyphens, and a letter or digit at the end. *)
Inductive label : list ascii -> Prop :=
| Label a m z :
    is_letter a -> Forall (fun c => is_let_dig_hyp c) m -> is_let_dig z ->
    GRAPHENE_MIN_ACCOUNT_NAME_LENGTH <= length m + 2 -> label (a :: m ++ [z]).

(** Labels with dots between them. *)
Inductive subdomain : list ascii -> Prop :=
| One_label l : label l -> subdomain l
| More_labels l s : label l -> subdomain s -> subdomain (l ++ "."%char :: s).

Definition valid_name (s : string) : Prop :=
  let name := list_ascii_of_string s in
  subdomain name /\ length name <= GRAPHENE_MAX_ACCOUNT_NAME_LENGTH.

(** ** Positions in a name *)

Lemma char_at_mid pre l post i :
  i < length l -> char_at (pre ++ l ++ post) (length pre + i) = char_at l i.
Proof.
  intros Hi. unfold char_at. rewrite lookup_app_r by lia.
  replace (length pre + i - length pre) with i by lia. by rewrite lookup_app_l.
Qed.

Lemma chars_of_mid pre m post :
  map (char_at (pre ++ m ++ post)) (seq (length pre) (length m)) = m.
Proof.
  revert pre. induction m as [|c m IH]; intros pre; [done|]. cbn [length seq map]. f_equal.
  - replace (length pre) with (length pre + 0) by lia. by rewrite char_at_mid by (cbn; lia).
  - specialize (IH (pre ++ [c])). rewrite length_app in IH. cbn [length] in IH.
    rewrite <-app_assoc in IH. cbn in IH. by replace (S (length pre)) with (length pre + 1) by lia.
Qed.

Lemma forallb_Forall {A} (p : A -> bool) l : forallb p l = true <-> Forall (fun x => p x) l.
Proof. rewrite forallb_forall, List.Forall_forall. split; intros H x Hx; apply Is_true_true, H, Hx. Qed.

Lemma forallb_at (p : ascii -> bool) pre m post :
  forallb (fun i => p (char_at (pre ++ m ++ post) i)) (seq (length pre) (length m)) = forallb p m.
Proof.
  rewrite <-(chars_of_mid pre m post) at 2. induction (seq (length pre) (length m)) as [|i l IH]; [done|].
  cbn. by rewrite IH.
Qed.

(** The checks on a stretch of two characters or more. *)
Lemma label_checks_at pre a m z post :
  label_checks (pre ++ (a :: m ++ [z]) ++ post) (length pre) (length pre + S (length m + 1))
  = negb (length m + 2 <? GRAPHENE_MIN_ACCOUNT_NAME_LENGTH)
    && is_letter a && is_let_dig z && forallb is_let_dig_hyp m.
Proof.
  unfold label_checks.
  replace (length pre + S (length m + 1) - length pre) with (length m + 2) by lia.
  replace (length pre + S (length m + 1) - 1 - (length pre + 1)) with (length m) by lia.
  replace (length pre + S (length m + 1) - 1) with (length pre + S (length m)) by lia.
  rewrite (char_at_mid pre (a :: m ++ [z]) post (S (length m))) by (cbn; rewrite length_app; cbn; lia).
  replace (char_at (pre ++ (a :: m ++ [z]) ++ post) (length pre)) with a
    by (rewrite <-(Nat.add_0_r (length pre)), char_at_mid by (cbn; lia); done).
  replace (char_at (a :: m ++ [z]) (S (length m))) with z
    by (unfold char_at; cbn; by rewrite (list_lookup_middle m [] z)).
  pose proof (forallb_at is_let_dig_hyp (pre ++ [a]) m ([z] ++ post)) as F.
  rewrite length_app in F. cbn [length] in F.
  replace ((pre ++ [a]) ++ m ++ [z] ++ post) with (pre ++ (a :: m ++ [z]) ++ post) in F
    by (cbn; by rewrite <-!app_assoc).
  by rewrite F.
Qed.

Lemma label_checks_short pre l post :
  length l < 2 -> label_checks (pre ++ l ++ post) (length pre) (length pre + length l) = false.
Proof.
  intros Hl. unfold label_checks. replace (length pre + length l - length pre) with (length l) by lia.
  by destruct (Nat.ltb_spec (length l) 5); [|lia].
Qed.

(** The checks of the code on a stretch of the name are those of the grammar. *)
Lemma label_checks_spec pre l post :
  label_checks (pre ++ l ++ post) (length pre) (length pre + length l) = true <-> label l.
Proof.
  destruct l as [|a l]; [rewrite label_checks_short by (cbn; lia); split; [done|by inversion 1]|].
  destruct l as [|z m _] using rev_ind.
  { rewrite label_checks_short by (cbn; lia). split; [done|]. inversion 1. by destruct m. }
  cbn [length]. rewrite length_app. cbn [length]. rewrite label_checks_at.
  rewrite !andb_true_iff, negb_true_iff, Nat.ltb_ge, forallb_Forall, <-!Is_true_true.
  split; [intros [[[? ?] ?] ?]; by constructor|].
  inversion 1 as [a' m' z' Ha Hm Hz Hlen [Heq1 Heq2]].
  apply app_inj_tail in Heq2 as [-> ->]. by subst.
Qed.

(** ** Dots *)

Lemma find_char_none c l : find_char c l = None <-> c ∉ l.
Proof.
  induction l as [|x l IH]; cbn; [set_solver|]. rewrite not_elem_of_cons.
  destruct (Ascii.eqb_spec x c) as [->|n]; [naive_solver|].
  rewrite fmap_None, IH. naive_solver.
Qed.

Lemma find_char_first c l r : c ∉ l -> find_char c (l ++ c :: r) = Some (length l).
Proof.
  induction l as [|x l IH]; intros Hc; cbn; [by rewrite Ascii.eqb_refl|].
  apply not_elem_of_cons in Hc as [n Hc]. destruct (Ascii.eqb_spec x c) as [->|_]; [done|].
  by rewrite IH.
Qed.

Lemma find_char_some c l n :
  find_char c l = Some n -> exists a b, l = a ++ c :: b /\ length a = n /\ c ∉ a.
Proof.
  revert n. induction l as [|x l IH]; intros n H; cbn in H; [done|].
  destruct (Ascii.eqb_spec x c) as [->|ne].
  - injection H as <-. exists [], l. set_solver.
  - apply fmap_Some in H as (k & Hk & ->). destruct (IH _ Hk) as (a & b & -> & <- & Ha).
    exists (x :: a), b. set_solver.
Qed.

Lemma label_no_dot l : label l -> "."%char ∉ l.
Proof.
  intros [a m z Ha Hm Hz _] Hin. apply elem_of_cons in Hin as [<-|Hin]; [by cbn in Ha|].
  apply elem_of_app in Hin as [Hin|Hin%list_elem_of_singleton].
  - by apply (proj1 (Forall_forall _ _) Hm) in Hin.
  - subst z. by cbn in Hz.
Qed.

(** ** The loop *)

(** The loop decides the rest of the name from [begin] on, whatever came before. *)
Lemma labels_loop_total fuel pre rest :
  length rest < fuel -> is_Some (labels_loop fuel (pre ++ rest) (length pre)).
Proof.
  revert pre rest. induction fuel as [|fuel IH]; intros pre rest Hf; [lia|]. cbn [labels_loop].
  unfold find_first_of. rewrite drop_app_length.
  destruct (find_char "." rest) as [n|] eqn:E; cbn [fmap option_fmap option_map from_option id].
  - apply find_char_some in E as (a & b & -> & <- & _).
    destruct (negb _); [eauto|]. destruct (_ =? _); [eauto|].
    replace (pre ++ a ++ "."%char :: b) with ((pre ++ a ++ ["."%char]) ++ b) by (by rewrite <-!app_assoc).
    replace (length pre + length a + 1) with (length (pre ++ a ++ ["."%char]))
      by (rewrite !length_app; cbn; lia).
    apply IH. rewrite length_app in Hf. cbn in Hf. lia.
  - destruct (negb _); [eauto|]. rewrite Nat.eqb_refl. eauto.
Qed.

Lemma labels_loop_sound fuel pre rest :
  labels_loop fuel (pre ++ rest) (length pre) = Some true -> subdomain rest.
Proof.
  revert pre rest. induction fuel as [|fuel IH]; intros pre rest; [done|]. cbn [labels_loop].
  unfold find_first_of. rewrite drop_app_length.
  destruct (find_char "." rest) as [n|] eqn:E; cbn [fmap option_fmap option_map from_option id].
  - apply find_char_some in E as (a & b & -> & <- & _).
    destruct (label_checks _ _ _) eqn:L; cbn [negb]; [|done].
    apply label_checks_spec in L.
    destruct (_ =? _) eqn:El; [apply Nat.eqb_eq in El; rewrite !length_app in El; cbn in El; lia|].
    intros H. constructor; [done|]. apply (IH (pre ++ a ++ ["."%char])).
    rewrite <-!app_assoc. cbn. rewrite !length_app. cbn. by rewrite Nat.add_assoc.
  - destruct (label_checks _ _ _) eqn:L; cbn [negb]; [|done]. intros _.
    constructor. apply (label_checks_spec pre rest []). by rewrite app_nil_r, <-length_app.
Qed.

Lemma labels_loop_complete rest :
  subdomain rest -> forall fuel pre, length rest < fuel ->
  labels_loop fuel (pre ++ rest) (length pre) = Some true.
Proof.
  induction 1 as [l Hl|l s Hl Hs IH]; intros fuel pre Hf; (destruct fuel as [|fuel]; [lia|]);
    cbn [labels_loop]; unfold find_first_of; rewrite drop_app_length.
  - rewrite (proj2 (find_char_none _ _) (label_no_dot l Hl)). cbn [fmap option_fmap option_map from_option id].
    pose proof (proj2 (label_checks_spec pre l []) Hl) as L. rewrite app_nil_r in L.
    by rewrite length_app, L, Nat.eqb_refl.
  - rewrite find_char_first by (by apply label_no_dot). cbn [fmap option_fmap option_map from_option id].
    rewrite (proj2 (label_checks_spec pre l _) Hl). cbn [negb].
    destruct (_ =? _) eqn:El; [apply Nat.eqb_eq in El; rewrite !length_app in El; cbn in El; lia|].
    replace (pre ++ l ++ "."%char :: s) with ((pre ++ l ++ ["."%char]) ++ s) by (by rewrite <-!app_assoc).
    replace (length pre + length l + 1) with (length (pre ++ l ++ ["."%char]))
      by (rewrite !length_app; cbn; lia).
    apply IH. rewrite length_app in Hf. cbn in Hf. lia.
Qed.

Lemma subdomain_length l : subdomain l -> GRAPHENE_MIN_ACCOUNT_NAME_LENGTH <= length l.
Proof.
  induction 1 as [l Hl|l s Hl Hs IH]; [|rewrite length_app; cbn; lia].
  destruct Hl. cbn. rewrite length_app. cbn. lia.
Qed.

(** C32: the validator of account names always answers, and it answers yes for exactly the
    names of the grammar: dot-separated labels that begin with a lower-case letter, end
    with a letter or digit, have only letters, digits and hyphens between, are of at least
    five characters, and are together no longer than 63 characters. *)
Theorem is_valid_name_grammar s :
  exists b, is_valid_name s = Some b /\ (b = true <-> valid_name s).
Proof.
  unfold is_valid_name, valid_name. set (name := list_ascii_of_string s).
  destruct (Nat.ltb_spec (length name) 5) as [Hs|Hs].
  { exists false. split; [done|]. split; [done|]. intros [H _]. apply subdomain_length in H. lia. }
  destruct (Nat.ltb_spec 63 (length name)) as [Hl|Hl]; [exists false; split; [done|]; split; [done|lia]|].
  destruct (labels_loop_total (S (length name)) [] name) as [b Hb]; [lia|].
  exists b. split; [done|]. split.
  - intros ->. split; [|done]. by apply (labels_loop_sound (S (length name)) []).
  - intros [H _]. pose proof (labels_loop_complete _ H (S (length name)) [] ltac:(lia)) as C.
    cbn [app length] in C, Hb. congruence.
Qed.

(** A name is cheap when it has a digit or a separator, or no vowel. *)
Lemma is_cheap_name_spec n :
  is_cheap_name n = true <->
  Exists (fun c => char_in "0" "9" c \/ is_separator c) (list_ascii_of_string n)
  \/ Forall (fun c => ~ is_vowel c) (list_ascii_of_string n).
Proof.
  unfold is_cheap_name.
  enough (forall l v, cheap_loop v l = true <->
            Exists (fun c => char_in "0" "9" c \/ is_separator c) l
            \/ (v = false /\ Forall (fun c => ~ is_vowel c) l)) as H by (rewrite H; naive_solver).
  induction l as [|c l IH]; intros v; cbn.
  - rewrite negb_true_iff, Exists_nil. naive_solver.
  - rewrite Exists_cons, Forall_cons. destruct (char_in "0" "9" c); [naive_solver|].
    destruct (is_separator c); [naive_solver|]. rewrite IH, orb_false_iff.
    destruct (is_vowel c); naive_solver.
Qed.

Example names_demo :
  map is_valid_name ["alice1"; "alice.bob-2"; "bob"; "alice.bob"; "Alice"; "alice-"; "alice."]%string
  = map Some [true; true; false; false; false; false; false]%bool.
Proof. vm_compute. reflexivity. Qed.
