(* ===== verification/Text.v ===== *)
(** * Amounts and object ids as text

    [asset_object::amount_to_string] and [amount_from_string] (chain/asset_object.cpp), and
    the text of object ids (db/object_id.hpp).  Strings are lists of characters; the
    functions of the C++ library they use ([to_string], [stoll], [find], [substr]) are
    written out. *)

From Stdlib Require Import Ascii.
From S2P Require Import Prelude SafeInt Asset Names ObjectDb.

Abbreviation chars := (list ascii).

Definition isdigit (c : ascii) : bool := char_in "0" "9" c.
Definition digit_value (c : ascii) : Z := Z.of_nat (nat_of_ascii c) - 48.
Definition digit (n : Z) : ascii := ascii_of_nat (Z.to_nat (n + 48)).

(** Decimal text of a number that is not negative; a 64-bit number has at most twenty
    digits. *)
Fixpoint print (fuel : nat) (n : Z) (acc : chars) : chars :=
  match fuel with
  | O => acc
  | S f => let acc := digit (n mod 10) :: acc in if n <? 10 then acc else print f (n / 10) acc
  end.
Definition to_string (n : Z) : chars := print 20 n [].

Fixpoint value (acc : Z) (l : chars) : Z :=
  match l with
  | [] => acc
  | c :: l' => value (acc * 10 + digit_value c) l'
  end.

Fixpoint leading_digits (l : chars) : chars :=
  match l with
  | c :: l' => if isdigit c then c :: leading_digits l' else []
  | [] => []
  end.

(** [std::stoll]: an optional sign and digits; the rest of the text is not looked at. *)
Definition stoll (l : chars) : result Z :=
  let (sign, l) := match l with
                   | "-"%char :: l' => (-1, l')
                   | "+"%char :: l' => (1, l')
                   | _ => (1, l)
                   end in
  let ds := leading_digits l in
  if bool_decide (ds = []) then Err fc_exception
  else let v := sign * value 0 ds in if in_int64 v then Ok v else Err fc_exception.

(** The characters are checked one by one; the flags say what was seen. *)
Fixpoint scan (negative_found decimal_found : bool) (l : chars) : result (bool * bool) :=
  match l with
  | [] => Ok (negative_found, decimal_found)
  | c :: l' =>
      if isdigit c then scan negative_found decimal_found l'
      else if Ascii.eqb c "-" && negb negative_found then scan true decimal_found l'
      else if Ascii.eqb c "." && negb decimal_found then scan negative_found true l'
      else Err fc_exception
  end.

Fixpoint pad_zeros (n : nat) (l : chars) : chars :=
  match n with
  | O => l
  | S n' => pad_zeros n' (l ++ ["0"%char])
  end.

Definition amount_from_string (precision : Z) (amount_string : chars) : result Z :=
  let* (negative_found, decimal_found) := scan false false amount_string in
  let* scaled := scaled_precision precision in
  let decimal_pos := find_char "." amount_string in
  let lhs := drop (if negative_found then 1 else 0)%nat amount_string in
  let lhs := match decimal_pos with Some p => take p lhs | None => lhs end in
  let* satoshis :=
    if bool_decide (lhs = []) then Ok 0
    else let* n := stoll lhs in let* m := Share.mul n scaled in Share.add 0 m in
  let* satoshis :=
    match decimal_pos with
    | Some p =>
        let max_rhs_size := (length (to_string scaled) - 1)%nat in
        let rhs := drop (S p) amount_string in
        check bool_decide (length rhs <= max_rhs_size)%nat;
        let rhs := pad_zeros (max_rhs_size - length rhs) rhs in
        if bool_decide (rhs = []) then Ok satoshis
        else let* n := stoll rhs in Share.add satoshis n
    | None => Ok satoshis
    end in
  check satoshis <=? GRAPHENE_MAX_SHARE_SUPPLY;
  if (negative_found : bool) then Share.mul satoshis (-1) else Ok satoshis.

Fixpoint power_of_ten (n : nat) (acc : Z) : result Z :=
  match n with
  | O => Ok acc
  | S n' => let* acc := Share.mul acc 10 in power_of_ten n' acc
  end.

Definition amount_to_string (precision amount : Z) : result chars :=
  let is_negative := amount <? 0 in
  let* amount := if is_negative then Share.neg amount else Ok amount in
  let* scaled := power_of_ten (Z.to_nat precision) 1 in
  let text := to_string (amount / scaled) in
  let decimals := amount mod scaled in
  let text := if negb (decimals =? 0) then text ++ "."%char :: tail (to_string (scaled + decimals)) else text in
  Ok (if is_negative then "-"%char :: text else text).

Example text_ex1 : (let* s := amount_to_string 5 (-1234005) in Ok (String.string_of_list_ascii s)) = Ok "-12.34005".
Proof. reflexivity. Qed.
Example text_ex2 : amount_from_string 5 (String.list_ascii_of_string "-12.34") = Ok (-1234000).
Proof. reflexivity. Qed.

(** ** Printing and reading numbers *)

Definition all_digits (l : chars) : Prop := Forall (fun c => isdigit c = true) l.

Lemma digit_ok n : 0 <= n < 10 -> isdigit (digit n) = true /\ digit_value (digit n) = n.
Proof.
  intros Hn. assert (In n [0; 1; 2; 3; 4; 5; 6; 7; 8; 9]) as Hin by (cbn; lia).
  assert (Hb : forallb (fun n => isdigit (digit n) && (digit_value (digit n) =? n)) [0; 1; 2; 3; 4; 5; 6; 7; 8; 9] = true)
    by reflexivity.
  rewrite forallb_forall in Hb. specialize (Hb n Hin). apply andb_true_iff in Hb as [H1 H2]. by apply Z.eqb_eq in H2.
Qed.

Lemma digit_value_bound c : isdigit c = true -> 0 <= digit_value c < 10.
Proof.
  unfold isdigit, char_in, digit_value. rewrite andb_true_iff, !Nat.leb_le.
  change (nat_of_ascii "0") with 48%nat. change (nat_of_ascii "9") with 57%nat. lia.
Qed.

Lemma value_acc l : forall acc, value acc l = acc * 10 ^ Z.of_nat (length l) + value 0 l.
Proof.
  induction l as [|c l IH]; intros acc; cbn [value length]; [lia|]. rewrite (IH (acc * 10 + _)), (IH (0 * 10 + _)).
  rewrite Nat2Z.inj_succ, Z.pow_succ_r by lia. lia.
Qed.

Lemma value_cons c l : value 0 (c :: l) = digit_value c * 10 ^ Z.of_nat (length l) + value 0 l.
Proof. cbn [value]. rewrite value_acc. lia. Qed.

Lemma value_bound l : all_digits l -> 0 <= value 0 l < 10 ^ Z.of_nat (length l).
Proof.
  induction 1 as [|c l Hc Hl IH]; [cbn; lia|]. rewrite value_cons. cbn [length].
  rewrite Nat2Z.inj_succ, Z.pow_succ_r by lia. pose proof (digit_value_bound c Hc). nia.
Qed.

Lemma print_value f : forall n acc, 0 <= n < 10 ^ Z.of_nat f -> (0 < f)%nat -> all_digits acc ->
  all_digits (print f n acc) /\ print f n acc <> []
  /\ value 0 (print f n acc) = n * 10 ^ Z.of_nat (length acc) + value 0 acc
  /\ exists ds, print f n acc = ds ++ acc /\ 10 ^ (Z.of_nat (length ds) - 1) <= Z.max 1 n < 10 ^ Z.of_nat (length ds).
Proof.
  induction f as [|f IH]; intros n acc Hn Hf Hacc; [lia|]. cbn [print].
  pose proof (Z.mod_pos_bound n 10 ltac:(lia)) as Hm. destruct (digit_ok (n mod 10) Hm) as [Hd Hv].
  assert (Hall : all_digits (digit (n mod 10) :: acc)) by (by constructor).
  pose proof (Z.div_mod n 10 ltac:(lia)) as Hdm.
  destruct (Z.ltb_spec n 10) as [Hlt|Hge].
  - rewrite Z.mod_small in * by lia. split; [done|]. split; [done|]. rewrite value_cons, Hv. split; [done|].
    exists [digit n]. split; [done|]. cbn. lia.
  - assert (Hq : 0 <= n / 10 < 10 ^ Z.of_nat f).
    { split; [apply Z.div_pos; lia|]. apply Z.div_lt_upper_bound; [lia|].
      rewrite Nat2Z.inj_succ, Z.pow_succ_r in Hn by lia. lia. }
    destruct (IH (n / 10) _ Hq ltac:(destruct f; [cbn in Hq; lia|lia]) Hall) as (H1 & H2 & H3 & ds & H4 & H5).
    split; [done|]. split; [done|]. split.
    + rewrite H3, value_cons, Hv. cbn [length]. rewrite Nat2Z.inj_succ, Z.pow_succ_r by lia. nia.
    + exists (ds ++ [digit (n mod 10)]). split; [by rewrite H4, <- app_assoc|]. rewrite length_app. cbn [length].
      replace (Z.of_nat (length ds + 1) - 1) with (Z.of_nat (length ds)) by lia. rewrite Nat2Z.inj_add.
      rewrite (Z.pow_add_r 10 _ (Z.of_nat 1)) by lia. cbn. assert (Hl : (0 < length ds)%nat).
      { destruct ds; [cbn in H5; lia|cbn; lia]. }
      assert (10 ^ Z.of_nat (length ds) = 10 * 10 ^ (Z.of_nat (length ds) - 1)) as E
        by (rewrite <- Z.pow_succ_r by lia; f_equal; lia).
      lia.
Qed.

Lemma to_string_spec n : 0 <= n < 10 ^ 20 ->
  all_digits (to_string n) /\ to_string n <> [] /\ value 0 (to_string n) = n
  /\ 10 ^ (Z.of_nat (length (to_string n)) - 1) <= Z.max 1 n < 10 ^ Z.of_nat (length (to_string n)).
Proof.
  intros Hn. destruct (print_value 20 n [] Hn ltac:(lia) (Forall_nil_2 _)) as (H1 & H2 & H3 & ds & H4 & H5).
  unfold to_string. split; [done|]. split; [done|]. rewrite H3. cbn [length value]. split; [lia|].
  rewrite app_nil_r in H4. by rewrite H4.
Qed.

(** A number of [k + 1] digits that begins with one: its other digits. *)
Lemma digits_after_one k d : 0 <= d < 10 ^ Z.of_nat k -> (k <= 18)%nat ->
  let l := tail (to_string (10 ^ Z.of_nat k + d)) in all_digits l /\ length l = k /\ value 0 l = d.
Proof.
  intros Hd Hk. set (n := 10 ^ Z.of_nat k + d). assert (H1 : 1 <= 10 ^ Z.of_nat k) by (apply (Z.pow_le_mono_r 10 0); lia).
  assert (H18 : 10 ^ Z.of_nat k <= 10 ^ 18) by (apply Z.pow_le_mono_r; lia).
  destruct (to_string_spec n) as (Ha & Hne & Hv & Hlen); [unfold n; lia|].
  destruct (to_string n) as [|c l]; [done|]. cbn [tail length] in *. apply Forall_cons in Ha as [Hc Ha].
  assert (E : length l = k).
  { rewrite Z.max_r in Hlen by lia. rewrite Nat2Z.inj_succ in Hlen.
    replace (Z.succ (Z.of_nat (length l)) - 1) with (Z.of_nat (length l)) in Hlen by lia.
    assert (n < 10 ^ Z.succ (Z.of_nat k)) by (rewrite Z.pow_succ_r by lia; lia).
    assert (Z.of_nat (length l) < Z.succ (Z.of_nat k)) by (apply (Z.pow_lt_mono_r_iff 10); lia).
    assert (Z.of_nat k < Z.succ (Z.of_nat (length l))) by (apply (Z.pow_lt_mono_r_iff 10); lia). lia. }
  split; [done|]. split; [done|]. rewrite value_cons, E in Hv. pose proof (value_bound l Ha) as Hb. rewrite E in Hb.
  pose proof (digit_value_bound c Hc) as Hdv. unfold n in Hv. set (P := 10 ^ Z.of_nat k) in *.
  assert (digit_value c = 1) as E1; [|rewrite E1 in Hv; lia].
  destruct (Z.ltb_spec (digit_value c) 1); [assert (digit_value c = 0) as E0 by lia; rewrite E0 in Hv; lia|].
  destruct (Z.ltb_spec 1 (digit_value c)); [|lia]. assert (2 * P <= digit_value c * P) by (apply Z.mul_le_mono_nonneg_r; lia). lia.
Qed.

(** ** Reading back *)

Lemma leading_digits_all l rest : all_digits l -> match rest with [] => True | c :: _ => isdigit c = false end ->
  leading_digits (l ++ rest) = l.
Proof.
  intros Hl Hr. induction Hl as [|c l Hc Hl IH]; [|cbn; by rewrite Hc, IH].
  destruct rest as [|c r]; [done|]. cbn. by rewrite Hr.
Qed.

Lemma digit_not c d : isdigit c = true -> isdigit d = false -> Ascii.eqb c d = false.
Proof. intros Hc Hd. apply Ascii.eqb_neq. intros ->. congruence. Qed.

(** Digits that are read to the end or up to a point. *)
Lemma stoll_digits l rest : all_digits l -> l <> [] -> value 0 l <= int64_max ->
  match rest with [] => True | c :: _ => isdigit c = false end -> stoll (l ++ rest) = Ok (value 0 l).
Proof.
  intros Hl Hne Hv Hr. pose proof (value_bound l Hl) as Hb. unfold stoll.
  assert (E : match l ++ rest with "-"%char :: l' => (-1, l') | "+"%char :: l' => (1, l') | _ => (1, l ++ rest) end = (1, l ++ rest)).
  { destruct l as [|c l]; [done|]. cbn [app]. apply Forall_cons in Hl as [Hc _].
    destruct c as [[] [] [] [] [] [] [] []]; try reflexivity; discriminate Hc. }
  rewrite E, leading_digits_all by done. rewrite bool_decide_eq_false_2 by done. rewrite Z.mul_1_l.
  assert (in_int64 (value 0 l) = true) as -> by (apply in_int64_spec; lia). done.
Qed.

Lemma scan_digits l neg dec rest : all_digits l -> scan neg dec (l ++ rest) = scan neg dec rest.
Proof. induction 1 as [|c l Hc Hl IH]; [done|]. cbn. by rewrite Hc. Qed.

Lemma find_char_digits l rest : all_digits l -> find_char "." (l ++ rest) = Nat.add (length l) <$> find_char "." rest.
Proof.
  induction 1 as [|c l Hc Hl IH]; cbn; [by destruct (find_char "." rest)|]. rewrite (digit_not c ".") by done. rewrite IH.
  by destruct (find_char "." rest).
Qed.

Lemma pow10_bound (k : nat) : (k <= 18)%nat -> 1 <= 10 ^ Z.of_nat k <= 10 ^ 18.
Proof. intros Hk. split; [apply (Z.pow_le_mono_r 10 0)|apply Z.pow_le_mono_r]; lia. Qed.

Lemma p10_value k : p10 k = 10 ^ Z.of_nat k.
Proof. induction k as [|k IH]; [done|]. rewrite Nat2Z.inj_succ, Z.pow_succ_r by lia. cbn [p10]. lia. Qed.

Lemma scaled_precision_value k : (k <= 18)%nat -> scaled_precision (Z.of_nat k) = Ok (10 ^ Z.of_nat k).
Proof.
  intros Hk. unfold scaled_precision, fc_assert. rewrite (proj2 (Z.ltb_lt _ _)) by lia. cbn [rbind].
  unfold scaled_precision_lut. rewrite Nat2Z.id, list_lookup_fmap, lookup_seq_lt by lia. cbn. by rewrite p10_value.
Qed.

Lemma share_mul_run a b : Share.ok a -> Share.ok b -> Share.ok (a * b) -> Share.mul a b = Ok (a * b).
Proof.
  intros Ha Hb Hab. unfold Share.mul.
  destruct (safe_mul_spec int64_min int64_max ltac:(lia) ltac:(lia) a b Ha Hb) as [[_ H]|[[H _]|[H _]]];
    [done|unfold in_range in Hab; lia..].
Qed.

Lemma power_of_ten_run n : forall k, (k + n <= 18)%nat ->
  power_of_ten n (10 ^ Z.of_nat k) = Ok (10 ^ Z.of_nat (k + n)).
Proof.
  induction n as [|n IH]; intros k Hk; cbn [power_of_ten]; [by rewrite Nat.add_0_r|].
  pose proof (pow10_bound (S k) ltac:(lia)) as Hb. rewrite Nat2Z.inj_succ, Z.pow_succ_r in Hb by lia.
  assert (Share.mul (10 ^ Z.of_nat k) 10 = Ok (10 ^ Z.of_nat (S k))) as ->.
  { rewrite Nat2Z.inj_succ, Z.pow_succ_r by lia. rewrite share_mul_run by (unfold in_range; lia). f_equal. lia. }
  cbn [rbind]. rewrite IH by lia. do 3 f_equal. lia.
Qed.

(** The two parts of an amount, as they are read. *)
Lemma parse_parts k (q d : Z) (neg : bool) (ds : chars) :
  (k <= 18)%nat -> 0 <= q -> 0 <= d < 10 ^ Z.of_nat k -> q * 10 ^ Z.of_nat k + d <= GRAPHENE_MAX_SHARE_SUPPLY ->
  (ds = [] /\ d = 0) \/ (exists l, ds = "."%char :: l /\ all_digits l /\ length l = k /\ value 0 l = d) ->
  let text := to_string q ++ ds in
  amount_from_string (Z.of_nat k) (if neg then "-"%char :: text else text)
    = Ok (let a := q * 10 ^ Z.of_nat k + d in if neg then - a else a).
Proof.
  intros Hk Hq Hd Hmax Hds text. pose proof (pow10_bound k Hk) as HP. set (P := 10 ^ Z.of_nat k) in *.
  assert (Hqm : q <= GRAPHENE_MAX_SHARE_SUPPLY) by nia.
  destruct (to_string_spec q) as (Ha & Hne & Hv & _); [lia|]. set (Q := to_string q) in *.
  assert (Hscaled : scaled_precision (Z.of_nat k) = Ok P).
  { by apply scaled_precision_value. }
  assert (Hscan : forall n, scan n false text = Ok (n, bool_decide (ds <> []))).
  { intros n. unfold text. rewrite scan_digits by done. destruct Hds as [[-> _]|(l & -> & Hl & _)]; [done|].
    rewrite bool_decide_eq_true_2 by done. cbn.
    change (isdigit ".") with false. cbn iota. by rewrite <- (app_nil_r l), scan_digits. }
  assert (Hmul : Share.mul q P = Ok (q * P)) by (apply share_mul_run; unfold in_range; nia).
  assert (Hadd : forall x y, 0 <= x -> 0 <= y -> x + y <= GRAPHENE_MAX_SHARE_SUPPLY -> Share.add x y = Ok (x + y))
    by (intros; apply Share.add_run; unfold in_range; lia).
  assert (Hend : forall (n : bool) a, a = q * P + d -> (check a <=? GRAPHENE_MAX_SHARE_SUPPLY;
     if n then Share.mul a (-1) else Ok a) = Ok (if n then - (q * P + d) else q * P + d)).
  { intros n a ->. unfold fc_assert. rewrite (proj2 (Z.leb_le _ _)) by done. cbn [rbind]. destruct n; [|done].
    rewrite share_mul_run by (unfold in_range; nia). f_equal. lia. }
  unfold amount_from_string.
  assert (Hs : scan false false (if neg then "-"%char :: text else text) = Ok (neg, bool_decide (ds <> [])))
    by (destruct neg; [cbn; change (isdigit "-") with false; cbn iota|]; apply Hscan).
  rewrite Hs. cbn [rbind]. rewrite Hscaled. cbn [rbind].
  assert (Hdrop : drop (if neg then 1 else 0)%nat (if neg then "-"%char :: text else text) = text) by (by destruct neg).
  rewrite Hdrop.
  assert (Hfind : find_char "." (if neg then "-"%char :: text else text)
    = (if neg then S else id) <$> (match ds with [] => None | _ => Some (length Q) end)).
  { assert (find_char "." text = match ds with [] => None | _ => Some (length Q) end) as E.
    { unfold text. rewrite find_char_digits by done. destruct Hds as [[-> _]|(l & -> & _)]; [done|]. cbn. by rewrite Nat.add_0_r. }
    destruct neg; [change (S <$> find_char "." text = S <$> match ds with [] => None | _ => Some (length Q) end)|]; rewrite E; by destruct ds. }
  rewrite Hfind. destruct Hds as [[-> ->]|(l & -> & Hl & Hlen & Hvl)]; cbn [fmap option_fmap option_map].
  - unfold text in *. rewrite app_nil_r in *. rewrite (bool_decide_eq_false_2 (Q = [])) by done.
    rewrite <- (app_nil_r Q), stoll_digits by (done || lia). cbn [rbind]. rewrite Hv, Hmul. cbn [rbind].
    rewrite Hadd by nia. cbn [rbind]. apply Hend. lia.
  - set (pos := (if neg then S else id) (length Q)).
    assert (Htake : exists r, take pos text = Q ++ r /\ match r with [] => True | c :: _ => isdigit c = false end).
    { unfold pos, text. destruct neg; [exists ["."%char]|exists []; unfold id]; (split; [|done]).
      - rewrite take_app_ge by lia. replace (S (length Q) - length Q)%nat with 1%nat by lia. done.
      - rewrite take_app_length. by rewrite app_nil_r. }
    destruct Htake as (r & -> & Hr). rewrite bool_decide_eq_false_2 by (by destruct Q).
    rewrite stoll_digits by (done || lia). cbn [rbind]. rewrite Hv, Hmul. cbn [rbind]. rewrite Hadd by nia. cbn [rbind].
    assert (Hrhs : drop (S pos) (if neg then "-"%char :: text else text) = l).
    { unfold pos, text. destruct neg; cbn [drop]; unfold id.
      - rewrite drop_app_ge by lia. by replace (S (length Q) - length Q)%nat with 1%nat by lia.
      - rewrite drop_app_ge by lia. by replace (S (length Q) - length Q)%nat with 1%nat by lia. }
    rewrite Hrhs. assert (HlenP : (length (to_string P) - 1)%nat = k).
    { destruct (digits_after_one k 0 ltac:(lia) Hk) as (_ & E & _). fold P in E. rewrite Z.add_0_r in E.
      rewrite <- E. destruct (to_string P); [done|]. cbn. lia. }
    rewrite HlenP, Hlen. unfold fc_assert. rewrite bool_decide_eq_true_2 by lia. cbn [rbind]. rewrite Nat.sub_diag. cbn [pad_zeros].
    destruct (decide (l = [])) as [->|Hln].
    + rewrite (bool_decide_eq_true_2 ([] = [])) by done. cbn [rbind]. cbn in Hvl. apply Hend. lia.
    + rewrite (bool_decide_eq_false_2 (l = [])) by done. rewrite <- (app_nil_r l), stoll_digits by (done || lia).
      cbn [rbind]. rewrite Hvl. rewrite Hadd by nia. cbn [rbind]. apply Hend. lia.
Qed.

(** ** Object ids *)

Section ObjectIds.
(** [fc::to_uint64], which is [boost::lexical_cast]. *)
Variable to_uint64 : chars -> result Z.

Definition object_id_text (o : object_id) : chars :=
  to_string (space o) ++ "."%char :: to_string (type_id o) ++ "."%char :: to_string (instance o).

(** [substr] from past the end of the text starts over: [npos + 1] is zero. *)
Definition object_id_from_text (s : chars) : result object_id :=
  let first_dot := find_char "." s in
  let second_dot := match first_dot with Some p => find_first_of "." (S p) s | None => find_char "." s end in
  check negb (bool_decide (first_dot = second_dot));
  check negb (bool_decide (first_dot = Some 0%nat)) && bool_decide (is_Some first_dot);
  let* p := get_or first_dot assert_exception in
  let* i := to_uint64 (match second_dot with Some q => drop (S q) s | None => s end) in
  let* space_id := to_uint64 (take p s) in
  check space_id <=? 255;
  let* type := to_uint64 (match second_dot with Some q => take (q - p - 1) (drop (S p) s) | None => drop (S p) s end) in
  check type <=? 255;
  Ok (mk_oid space_id type i).

Hypothesis to_uint64_to_string : forall n, 0 <= n < uint64_mod -> to_uint64 (to_string n) = Ok n.

(** The text of an object id is read as that id. *)
Lemma object_id_text_back o : 0 <= space o < 256 -> 0 <= type_id o < 256 -> 0 <= instance o < uint64_mod ->
  object_id_from_text (object_id_text o) = Ok o.
Proof.
  destruct o as [sp ty i]. cbn [space type_id instance]. intros Hs Ht Hi. unfold object_id_from_text, object_id_text.
  cbn [space type_id instance].
  destruct (to_string_spec sp ltac:(lia)) as (Ds & Ns & _). destruct (to_string_spec ty ltac:(lia)) as (Dt & Nt & _).
  pose proof (to_uint64_to_string sp ltac:(lia)) as Es. pose proof (to_uint64_to_string ty ltac:(lia)) as Et.
  pose proof (to_uint64_to_string i Hi) as Ei. set (S_ := to_string sp) in *. set (T := to_string ty) in *. set (I_ := to_string i) in *.
  set (text := S_ ++ "."%char :: T ++ "."%char :: I_).
  assert (F1 : find_char "." text = Some (length S_)) by (unfold text; rewrite find_char_digits by done; cbn; f_equal; lia).
  assert (D1 : drop (S (length S_)) text = T ++ "."%char :: I_).
  { unfold text. rewrite drop_app_ge by lia. by replace (S (length S_) - length S_)%nat with 1%nat by lia. }
  assert (F2 : find_first_of "." (S (length S_)) text = Some (S (length S_) + length T)%nat).
  { unfold find_first_of. rewrite D1, find_char_digits by done. cbn. f_equal. lia. }
  rewrite F1, F2. unfold fc_assert. rewrite bool_decide_eq_false_2 by (intros [= ?]; lia). cbn [negb rbind].
  rewrite bool_decide_eq_false_2 by (destruct S_; [done|by intros [= ?]]). rewrite bool_decide_eq_true_2 by eauto. cbn [negb andb rbind get_or].
  assert (D2 : drop (S (S (length S_) + length T)) text = I_).
  { replace (S (S (length S_) + length T)) with (S (length S_) + S (length T))%nat by lia. rewrite <- drop_drop, D1.
    rewrite drop_app_ge by lia. by replace (S (length T) - length T)%nat with 1%nat by lia. }
  rewrite D2, Ei. cbn [rbind]. assert (take (length S_) text = S_) as -> by apply take_app_length. rewrite Es. cbn [rbind].
  rewrite (proj2 (Z.leb_le _ _)) by lia. cbn [rbind]. rewrite D1.
  assert (take (S (length S_) + length T - length S_ - 1) (T ++ "."%char :: I_) = T) as ->.
  { replace (S (length S_) + length T - length S_ - 1)%nat with (length T) by lia. apply take_app_length. }
  rewrite Et. cbn [rbind]. by rewrite (proj2 (Z.leb_le _ _)) by lia.
Qed.
End ObjectIds.

(** ** Properties *)

(** C26: an amount within the maximum supply is read back from the text it is printed as,
    at every precision an asset can have, negative amounts included. *)
Theorem amount_text_roundtrip (precision a : Z) (Hp : 0 <= precision <= 18) (Ha : Z.abs a <= GRAPHENE_MAX_SHARE_SUPPLY) :
  exists s, amount_to_string precision a = Ok s /\ amount_from_string precision s = Ok a.
Proof.
  set (k := Z.to_nat precision). assert (Hk : precision = Z.of_nat k) by lia. unfold amount_to_string. fold k.
  change 1 with (10 ^ Z.of_nat 0). rewrite power_of_ten_run by lia. cbn [Nat.add]. pose proof (pow10_bound k ltac:(lia)) as HP.
  set (P := 10 ^ Z.of_nat k) in *.
  assert (Hn : (if a <? 0 then Share.neg a else Ok a) = Ok (Z.abs a)).
  { destruct (Z.ltb_spec a 0); [|f_equal; lia]. rewrite Share.neg_run by (unfold in_range; lia). f_equal. lia. }
  rewrite Hn. cbn [rbind]. pose proof (Z.mod_pos_bound (Z.abs a) P ltac:(lia)) as Hd.
  pose proof (Z.div_mod (Z.abs a) P ltac:(lia)) as Hdm. pose proof (Z.div_pos (Z.abs a) P ltac:(lia) ltac:(lia)) as Hq.
  set (q := Z.abs a / P) in *. set (d := Z.abs a mod P) in *. eexists. split; [reflexivity|].
  assert (E : (if negb (d =? 0) then to_string q ++ "."%char :: tail (to_string (P + d)) else to_string q)
    = to_string q ++ if negb (d =? 0) then "."%char :: tail (to_string (P + d)) else [])
    by (destruct (d =? 0); [by rewrite app_nil_r|done]).
  rewrite E, Hk. rewrite (parse_parts k q d (a <? 0)); [|lia|lia|fold P; lia|fold P; lia|].
  - fold P. cbv zeta. f_equal. destruct (Z.ltb_spec a 0); lia.
  - destruct (Z.eqb_spec d 0) as [Hz|Hz]; [by left|right]. eexists. split; [done|].
    apply digits_after_one; [fold P; lia|lia].
Qed.

Lemma amount_text_roundtrip_witness :
  amount_to_string 5 (-1234005) = Ok (String.list_ascii_of_string "-12.34005")
  /\ amount_from_string 5 (String.list_ascii_of_string "-12.34005") = Ok (-1234005).
Proof.
  destruct (amount_text_roundtrip 5 (-1234005) ltac:(lia) ltac:(lia)) as (s & H1 & H2).
  assert (E : amount_to_string 5 (-1234005) = Ok (String.list_ascii_of_string "-12.34005")) by (vm_compute; reflexivity).
  split; [exact E|]. rewrite E in H1. injection H1 as <-. exact H2.
Defined.

(** A minus sign is accepted anywhere, and the characters before it are dropped: one less
    five is five. *)
Theorem misplaced_minus_accepted : amount_from_string 0 (String.list_ascii_of_string "1-5") = Ok 5.
Proof. vm_compute. reflexivity. Qed.
