(* ===== verification/Raw.v ===== *)
(** * Binary serialization (fc/io/raw.hpp, varint.hpp, datastream.hpp, container/flat.hpp)

    A stream that is read is the list of bytes left in it; reading past its end throws.  The
    overloads of [pack] and [unpack] for a type are a [codec]; [fits] says which values the
    type holds.  [Faithful] is what the other parts rely on: a value that fits is read back,
    and what follows it is left in the stream.  Instances follow the type, as the templates
    do.

    [unpack] of an enclosing type reads exactly what [pack] wrote, so the serialization of a
    value that fits determines it, also among the beginnings of longer ones
    ([pack_injective]). *)

From S2P Require Import Prelude.

Definition is_byte (b : Z) : Prop := 0 <= b < 256.

Record codec (A : Type) := mk_codec {
  pack : A -> list Z;
  unpack : list Z -> result (A * list Z);
  fits : A -> Prop;
  (** [sizeof(T)], which bounds what a length in the stream may allocate. *)
  sizeof : Z }.
Arguments mk_codec {A}.
Arguments pack {A}.
Arguments unpack {A}.
Arguments fits {A}.
Arguments sizeof {A}.

Class Faithful {A} (c : codec A) : Prop := {
  unpack_pack : forall a rest, fits c a -> unpack c (pack c a ++ rest) = Ok (a, rest);
  pack_bytes : forall a, fits c a -> Forall is_byte (pack c a) }.

(** [datastream::read]. *)
Definition read (n : nat) (s : list Z) : result (list Z * list Z) :=
  if bool_decide (n <= length s)%nat then Ok (take n s, drop n s) else Err out_of_range_exception.

Lemma read_app l rest : read (length l) (l ++ rest) = Ok (l, rest).
Proof.
  unfold read. rewrite bool_decide_eq_true_2 by (rewrite length_app; lia).
  by rewrite take_app_length, drop_app_length.
Qed.

(** ** Integers

    Fundamental types are copied from memory, least significant byte first. *)

Fixpoint le_bytes (n : nat) (x : Z) : list Z :=
  match n with
  | O => []
  | S n' => Z.land x 255 :: le_bytes n' (Z.shiftr x 8)
  end.
Fixpoint le_value (l : list Z) : Z :=
  match l with
  | [] => 0
  | b :: l' => b + 256 * le_value l'
  end.

Definition uint_codec (n : nat) : codec Z :=
  mk_codec (le_bytes n) (fun s => let* (l, s) := read n s in Ok (le_value l, s))
    (fun x => 0 <= x < 2 ^ (8 * Z.of_nat n)) (Z.of_nat n).
Definition int_codec (n : nat) : codec Z :=
  let half := 2 ^ (8 * Z.of_nat n - 1) in
  mk_codec (fun x => le_bytes n (x mod (2 * half)))
    (fun s => let* (l, s) := read n s in
              let x := le_value l in Ok (if x <? half then x else x - 2 * half, s))
    (fun x => - half <= x < half) (Z.of_nat n).

Abbreviation uint8_codec := (uint_codec 1).
Abbreviation uint16_codec := (uint_codec 2).
Abbreviation uint32_codec := (uint_codec 4).
Abbreviation uint64_codec := (uint_codec 8).
Abbreviation int64_codec := (int_codec 8).

Lemma le_bytes_length n x : length (le_bytes n x) = n.
Proof. revert x. induction n as [|n IH]; intros x; [done|]. cbn. by rewrite IH. Qed.

Lemma le_bytes_byte n x : Forall is_byte (le_bytes n x).
Proof.
  revert x. induction n as [|n IH]; intros x; [constructor|]. cbn. constructor; [|apply IH].
  change 255 with (Z.ones 8). rewrite Z.land_ones by lia. apply Z.mod_pos_bound. lia.
Qed.

Lemma le_value_bytes n x : 0 <= x < 2 ^ (8 * Z.of_nat n) -> le_value (le_bytes n x) = x.
Proof.
  revert x. induction n as [|n IH]; intros x Hx; cbn [le_bytes le_value]; [cbn in Hx; lia|].
  change 255 with (Z.ones 8). rewrite Z.land_ones, Z.shiftr_div_pow2 by lia. change (2 ^ 8) with 256.
  rewrite IH; [pose proof (Z.div_mod x 256); lia|]. replace (8 * Z.of_nat (S n)) with (8 + 8 * Z.of_nat n) in Hx by lia.
  rewrite Z.pow_add_r in Hx by lia. change (2 ^ 8) with 256 in Hx. split; [apply Z.div_pos; lia|]. apply Z.div_lt_upper_bound; lia.
Qed.

Lemma read_le n x rest : read n (le_bytes n x ++ rest) = Ok (le_bytes n x, rest).
Proof. rewrite <- (le_bytes_length n x) at 1. apply read_app. Qed.

#[global] Instance uint_faithful n : Faithful (uint_codec n).
Proof.
  split; [|intros; apply le_bytes_byte]. intros x rest Hx. cbn. rewrite read_le. cbn. by rewrite le_value_bytes.
Qed.

#[global] Instance int_faithful n : (0 < n)%nat -> Faithful (int_codec n).
Proof.
  intros Hn. split; [|intros; apply le_bytes_byte]. intros x rest Hx. cbn [pack unpack fits int_codec] in *.
  set (half := 2 ^ (8 * Z.of_nat n - 1)) in *. assert (0 < half) by (apply Z.pow_pos_nonneg; lia).
  assert (E : 2 ^ (8 * Z.of_nat n) = 2 * half).
  { unfold half. rewrite <- Z.pow_succ_r by lia. f_equal. lia. }
  rewrite read_le. cbn [rbind]. rewrite le_value_bytes by (rewrite E; apply Z.mod_pos_bound; lia).
  destruct (Z.ltb_spec x 0) as [Hneg|Hpos].
  - assert (x mod (2 * half) = x + 2 * half) as -> by (symmetry; apply (Z.mod_unique _ _ (-1)); lia).
    rewrite (proj2 (Z.ltb_ge _ _)) by lia. f_equal. f_equal. lia.
  - rewrite Z.mod_small by lia. by rewrite (proj2 (Z.ltb_lt _ _)) by lia.
Qed.

(** ** Integers of variable length *)

(** Seven bits a byte, the highest bit says whether more follow; ten bytes hold 64 bits. *)
Fixpoint write_varint (fuel : nat) (val : Z) : list Z :=
  match fuel with
  | O => []
  | S n =>
      let b := Z.land val 127 in
      let val := Z.shiftr val 7 in
      let b := if val >? 0 then Z.lor b 128 else b in
      b :: (if val =? 0 then [] else write_varint n val)
  end.

(** The shift is done in 32 bits; shifting by more is undefined. *)
Fixpoint read_varint (by_ v : Z) (s : list Z) : result (Z * list Z) :=
  match s with
  | [] => Err out_of_range_exception
  | b :: s' =>
      if by_ >=? 32 then Err undefined_behaviour
      else
        let v := Z.lor v (wrap32 (Z.shiftl (Z.land b 127) by_)) in
        if Z.land b 128 =? 0 then Ok (v, s') else read_varint (by_ + 7) v s'
  end.

(** [unsigned_int] holds 64 bits and is read into 32. *)
Definition unsigned_int_codec : codec Z :=
  mk_codec (write_varint 10) (fun s => let* (v, s) := read_varint 0 0 s in Ok (wrap32 v, s))
    (fun x => 0 <= x < uint32_mod) 8.

Definition int32_of (x : Z) : Z := let x := wrap32 x in if x <? 2147483648 then x else x - uint32_mod.

(** [signed_int]: the sign in the lowest bit. *)
Definition zigzag (value : Z) : Z := wrap32 (Z.lxor (wrap32 (Z.shiftl value 1)) (wrap32 (Z.shiftr value 31))).
Definition unzigzag (v : Z) : Z :=
  let value := int32_of (Z.lxor (Z.shiftr v 1) (Z.shiftr v 31) + Z.land v 1) in
  let value := if negb (Z.land v 1 =? 0) then value else int32_of (- value) in
  int32_of (- value).
Definition signed_int_codec : codec Z :=
  mk_codec (fun x => write_varint 10 (zigzag x)) (fun s => let* (v, s) := read_varint 0 0 s in Ok (unzigzag v, s))
    (fun x => - 1073741824 <= x < 1073741824) 4.

Lemma low7 val : Z.lor (Z.land val 127) (Z.shiftl (Z.shiftr val 7) 7) = val.
Proof.
  apply Z.bits_inj'. intros i Hi. rewrite Z.lor_spec, Z.land_spec, Z.shiftl_spec by done.
  change 127 with (Z.ones 7). destruct (Z.ltb_spec i 7) as [Hl|Hl].
  - rewrite Z.ones_spec_low, (Z.testbit_neg_r _ (i - 7)), andb_true_r, orb_false_r by lia. done.
  - rewrite Z.ones_spec_high, Z.shiftr_spec, andb_false_r by lia. cbn. f_equal. lia.
Qed.

Lemma flag_bits val (more : bool) :
  let b := if more then Z.lor (Z.land val 127) 128 else Z.land val 127 in
  is_byte b /\ Z.land b 127 = Z.land val 127 /\ (Z.land b 128 =? 0) = negb more.
Proof.
  intros b. assert (Hb : 0 <= Z.land val 127 < 128)
    by (change 127 with (Z.ones 7); rewrite Z.land_ones by lia; apply Z.mod_pos_bound; lia).
  set (x := Z.land val 127) in *. clearbody x. unfold b, is_byte. clear b.
  assert (E : forall x, 0 <= x < 128 -> let b := if more then Z.lor x 128 else x in
    (0 <=? b) && (b <? 256) && (Z.land b 127 =? x) && eqb (Z.land b 128 =? 0) (negb more) = true).
  { clear x Hb. intros x Hx. assert (In x (map Z.of_nat (seq 0 128))) as Hin.
    { apply in_map_iff. exists (Z.to_nat x). split; [lia|]. apply in_seq. lia. }
    revert Hin. apply (proj1 (forallb_forall (fun x => let b := if more then Z.lor x 128 else x in
      (0 <=? b) && (b <? 256) && (Z.land b 127 =? x) && eqb (Z.land b 128 =? 0) (negb more)) _)).
    destruct more; vm_compute; reflexivity. }
  specialize (E x Hb). cbv zeta in E. rewrite !andb_true_iff in E. destruct E as [[[E1 E2] E3] E4].
  apply eqb_prop in E4. split; [lia|]. split; [lia|done].
Qed.

Lemma shiftr7_bound val n : 0 <= val < 2 ^ (7 * Z.of_nat (S n)) -> 0 <= Z.shiftr val 7 < 2 ^ (7 * Z.of_nat n).
Proof.
  intros H. rewrite Z.shiftr_div_pow2 by lia. replace (7 * Z.of_nat (S n)) with (7 + 7 * Z.of_nat n) in H by lia.
  rewrite Z.pow_add_r in H by lia. split; [apply Z.div_pos; lia|]. apply Z.div_lt_upper_bound; lia.
Qed.

Lemma write_varint_byte n : forall val, Forall is_byte (write_varint n val).
Proof.
  induction n as [|n IH]; intros val; cbn [write_varint]; [constructor|]. constructor.
  - rewrite Z.gtb_ltb. pose proof (flag_bits val (0 <? Z.shiftr val 7)) as [H _]. by destruct (0 <? Z.shiftr val 7).
  - case_match; [constructor|apply IH].
Qed.

(** More fuel makes no difference: ten bytes are enough for 64 bits. *)
Lemma write_varint_fuel n : forall val k, 0 <= val < 2 ^ (7 * Z.of_nat n) ->
  (0 < n)%nat -> write_varint (n + k) val = write_varint n val.
Proof.
  induction n as [|n IH]; intros val k Hv Hn; [lia|]. cbn [write_varint Nat.add]. f_equal.
  pose proof (shiftr7_bound _ _ Hv) as Hs. destruct (Z.eqb_spec (Z.shiftr val 7) 0) as [|Hne]; [done|].
  apply IH; [done|]. destruct n; [cbn in Hs; lia|lia].
Qed.

Lemma read_written n : forall val by_ v rest, 0 <= val < 2 ^ (7 * Z.of_nat n) -> (0 < n)%nat ->
  0 <= by_ < 32 -> val * 2 ^ by_ < uint32_mod ->
  read_varint by_ v (write_varint n val ++ rest) = Ok (Z.lor v (Z.shiftl val by_), rest).
Proof.
  induction n as [|n IH]; intros val by_ v rest Hv Hn Hby Hfit; [lia|].
  cbn [write_varint app read_varint]. rewrite Z.geb_leb, (proj2 (Z.leb_gt _ _)) by lia.
  pose proof (shiftr7_bound _ _ Hv) as Hs. rewrite Z.gtb_ltb.
  pose proof (flag_bits val (0 <? Z.shiftr val 7)) as (_ & E1 & E2). cbv zeta in E1, E2. rewrite E1, E2.
  assert (Hp : 0 < 2 ^ by_) by (apply Z.pow_pos_nonneg; lia).
  assert (Hlow : 0 <= Z.land val 127 <= val).
  { change 127 with (Z.ones 7). rewrite Z.land_ones by lia. split; [apply Z.mod_pos_bound; lia|apply Z.mod_le; lia]. }
  rewrite wrap32_small by (rewrite Z.shiftl_mul_pow2 by lia; nia).
  destruct (Z.ltb_spec 0 (Z.shiftr val 7)) as [Hpos|Hzero]; cbn [negb].
  - rewrite (proj2 (Z.eqb_neq _ _)) by lia.
    assert (Hge : 128 * Z.shiftr val 7 <= val)
      by (rewrite Z.shiftr_div_pow2 by lia; change (2 ^ 7) with 128; apply Z.mul_div_le; lia).
    assert (Hby7 : by_ + 7 < 32).
    { apply (Z.pow_lt_mono_r_iff 2); [lia|lia|]. rewrite Z.pow_add_r by lia. change (2 ^ 32) with uint32_mod.
      change (2 ^ 7) with 128. nia. }
    rewrite IH; [|done|destruct n; [cbn in Hs; lia|lia]|lia|rewrite Z.pow_add_r by lia; change (2 ^ 7) with 128; nia].
    f_equal. f_equal. rewrite <- Z.lor_assoc. f_equal. rewrite <- (low7 val) at 3.
    rewrite Z.shiftl_lor, Z.shiftl_shiftl by lia. do 2 f_equal. lia.
  - assert (Z.shiftr val 7 = 0) as E0 by lia. rewrite E0, Z.eqb_refl. cbn [app]. f_equal. f_equal. f_equal.
    rewrite <- (low7 val) at 2. by rewrite E0, Z.shiftl_0_l, Z.lor_0_r.
Qed.

#[global] Instance unsigned_int_faithful : Faithful unsigned_int_codec.
Proof.
  split; [|intros; apply write_varint_byte]. intros x rest Hx. cbn [pack unpack fits unsigned_int_codec] in *.
  rewrite read_written by (cbn; lia). cbn [rbind]. rewrite Z.lor_0_l, Z.shiftl_0_r, wrap32_small by lia. done.
Qed.

Lemma lxor_ones32 a : 0 <= a < uint32_mod -> Z.lxor a (uint32_mod - 1) = uint32_mod - 1 - a.
Proof.
  intros Ha. change (uint32_mod - 1) with (Z.ones 32). rewrite Z.sub_nocarry_ldiff.
  - apply Z.bits_inj'. intros i Hi. rewrite Z.lxor_spec, Z.ldiff_spec.
    destruct (Z.ltb_spec i 32); [rewrite Z.ones_spec_low by lia; by destruct (Z.testbit a i)|].
    rewrite Z.ones_spec_high by lia. rewrite <- (Z.mod_small a (2 ^ 32)) by (cbn; lia).
    by rewrite Z.mod_pow2_bits_high by lia.
  - rewrite Z.ldiff_ones_r by lia. rewrite Z.shiftr_div_pow2 by lia. rewrite Z.div_small by (cbn; lia). apply Z.shiftl_0_l.
Qed.

Lemma zigzag_value x : - 1073741824 <= x < 1073741824 -> zigzag x = if x <? 0 then - 2 * x - 1 else 2 * x.
Proof.
  intros Hx. unfold zigzag. rewrite Z.shiftl_mul_pow2, Z.shiftr_div_pow2 by lia. change (2 ^ 1) with 2.
  change (2 ^ 31) with 2147483648. destruct (Z.ltb_spec x 0).
  - assert (x / 2147483648 = -1) as -> by (symmetry; apply (Z.div_unique _ _ _ (x + 2147483648)); lia).
    assert (wrap32 (x * 2) = x * 2 + uint32_mod) as -> by (symmetry; apply (Z.mod_unique _ _ (-1)); lia).
    change (wrap32 (-1)) with (uint32_mod - 1). rewrite lxor_ones32 by lia. rewrite wrap32_small by lia. lia.
  - rewrite Z.div_small by lia. rewrite (wrap32_small (x * 2)) by lia. change (wrap32 0) with 0.
    rewrite Z.lxor_0_r, wrap32_small by lia. lia.
Qed.

Lemma int32_of_small x : - 2147483648 <= x < 2147483648 -> int32_of x = x.
Proof.
  intros Hx. unfold int32_of. destruct (Z.ltb_spec x 0).
  - assert (wrap32 x = x + uint32_mod) as -> by (symmetry; apply (Z.mod_unique _ _ (-1)); lia).
    rewrite (proj2 (Z.ltb_ge _ _)) by lia. lia.
  - rewrite wrap32_small by lia. by rewrite (proj2 (Z.ltb_lt _ _)) by lia.
Qed.

Lemma unzigzag_zigzag x : - 1073741824 <= x < 1073741824 -> unzigzag (zigzag x) = x.
Proof.
  intros Hx. rewrite zigzag_value by done. unfold unzigzag.
  assert (L : forall v, Z.land v 1 = v mod 2) by (intros v; apply (Z.land_ones v 1); lia).
  rewrite !L, !Z.shiftr_div_pow2 by lia. change (2 ^ 1) with 2. change (2 ^ 31) with 2147483648.
  destruct (Z.ltb_spec x 0).
  - assert ((-2 * x - 1) mod 2 = 1) as -> by (symmetry; apply (Z.mod_unique _ _ (- x - 1)); lia).
    assert ((-2 * x - 1) / 2 = - x - 1) as -> by (symmetry; apply (Z.div_unique _ _ _ 1); lia).
    rewrite Z.div_small by lia. cbn [negb Z.eqb]. rewrite Z.lxor_0_r.
    rewrite (int32_of_small (- x - 1 + 1)), int32_of_small; lia.
  - assert ((2 * x) mod 2 = 0) as -> by (symmetry; apply (Z.mod_unique _ _ x); lia).
    assert (2 * x / 2 = x) as -> by (symmetry; apply (Z.div_unique _ _ _ 0); lia).
    rewrite Z.div_small by lia. cbn [negb Z.eqb]. rewrite Z.lxor_0_r.
    rewrite (int32_of_small (x + 0)), (int32_of_small (- (x + 0))), int32_of_small; lia.
Qed.

#[global] Instance signed_int_faithful : Faithful signed_int_codec.
Proof.
  split; [|intros; apply write_varint_byte]. intros x rest Hx. cbn [pack unpack fits signed_int_codec] in *.
  assert (Hz : 0 <= zigzag x < uint32_mod) by (rewrite zigzag_value by done; destruct (x <? 0) eqn:?; lia).
  rewrite read_written by (cbn; lia). cbn [rbind]. rewrite Z.lor_0_l, Z.shiftl_0_r, unzigzag_zigzag by done. done.
Qed.

(** ** Composed types *)

Abbreviation MAX_ARRAY_ALLOC_SIZE := 10485760.

Definition bool_codec : codec bool :=
  mk_codec (fun b : bool => pack uint8_codec (if b then 1 else 0))
    (fun s => let* (b, s) := unpack uint8_codec s in
              check Z.land b (Z.lnot 1) =? 0; Ok (negb (b =? 0), s))
    (fun _ => True) 1.

(** [std::vector<char>]; the size is cut to 32 bits. *)
Definition bytes_codec : codec (list Z) :=
  mk_codec (fun l => pack unsigned_int_codec (wrap32 (Z.of_nat (length l))) ++ l)
    (fun s => let* (n, s) := unpack unsigned_int_codec s in
              check n <? MAX_ARRAY_ALLOC_SIZE; read (Z.to_nat n) s)
    (fun l => Z.of_nat (length l) < MAX_ARRAY_ALLOC_SIZE /\ Forall is_byte l) 24.

Definition char_of (b : Z) : Ascii.ascii := Ascii.ascii_of_N (Z.to_N b).
Definition byte_of (c : Ascii.ascii) : Z := Z.of_N (Ascii.N_of_ascii c).
Definition bytes_of_string (v : string) : list Z := map byte_of (String.list_ascii_of_string v).
Definition string_of_bytes (l : list Z) : string := String.string_of_list_ascii (map char_of l).
Definition string_codec : codec string :=
  mk_codec (fun v => pack bytes_codec (bytes_of_string v))
    (fun s => let* (l, s) := unpack bytes_codec s in Ok (string_of_bytes l, s))
    (fun v => Z.of_nat (length (bytes_of_string v)) < MAX_ARRAY_ALLOC_SIZE) 32.

(** [fc::array] of bytes and what is written as one. *)
Definition array_codec (n : nat) : codec (list Z) :=
  mk_codec id (read n) (fun l => length l = n /\ Forall is_byte l) (Z.of_nat n).

(** Types without content. *)
Definition void_codec : codec unit := mk_codec (fun _ => []) (fun s => Ok (tt, s)) (fun _ => True) 1.

(** The fields of a structure, in the order they are reflected; [std::pair]. *)
Definition pair_codec {A B} (a : codec A) (b : codec B) : codec (A * B) :=
  mk_codec (fun x => pack a x.1 ++ pack b x.2)
    (fun s => let* (x, s) := unpack a s in let* (y, s) := unpack b s in Ok ((x, y), s))
    (fun x => fits a x.1 /\ fits b x.2) (sizeof a + sizeof b).

(** A reflected structure is its fields; [size] is its [sizeof]. *)
Definition struct_codec {A F} (size : Z) (fields : A -> F) (make : F -> A) (c : codec F) : codec A :=
  mk_codec (fun a => pack c (fields a)) (fun s => let* (f, s) := unpack c s in Ok (make f, s))
    (fun a => fits c (fields a)) size.

Definition optional_codec {A} (size : Z) (c : codec A) : codec (option A) :=
  mk_codec (fun v => pack bool_codec (bool_decide (is_Some v)) ++ match v with Some a => pack c a | None => [] end)
    (fun s => let* (b, s) := unpack bool_codec s in
              if (b : bool) then let* (a, s) := unpack c s in Ok (Some a, s) else Ok (None, s))
    (fun v => match v with Some a => fits c a | None => True end) size.

Fixpoint unpack_n {A} (c : codec A) (n : nat) (s : list Z) : result (list A * list Z) :=
  match n with
  | O => Ok ([], s)
  | S n' => let* (a, s) := unpack c s in let* (l, s) := unpack_n c n' s in Ok (a :: l, s)
  end.

(** [std::vector], [std::deque]. *)
Definition vector_codec {A} (c : codec A) : codec (list A) :=
  mk_codec (fun l => pack unsigned_int_codec (wrap32 (Z.of_nat (length l))) ++ concat (map (pack c) l))
    (fun s => let* (n, s) := unpack unsigned_int_codec s in
              check n * sizeof c <? MAX_ARRAY_ALLOC_SIZE; unpack_n c (Z.to_nat n) s)
    (fun l => Z.of_nat (length l) * sizeof c < MAX_ARRAY_ALLOC_SIZE /\ Z.of_nat (length l) < uint32_mod
              /\ Forall (fits c) l) 24.

(** Sets keep their elements in order; inserting an equivalent element changes nothing. *)
Fixpoint set_insert {A} (lt : A -> A -> bool) (x : A) (l : list A) : list A :=
  match l with
  | [] => [x]
  | y :: l' => if lt x y then x :: l else if lt y x then y :: set_insert lt x l' else l
  end.

Fixpoint unpack_set {A} (lt : A -> A -> bool) (c : codec A) (n : nat) (l : list A) (s : list Z)
    : result (list A * list Z) :=
  match n with
  | O => Ok (l, s)
  | S n' => let* (a, s) := unpack c s in unpack_set lt c n' (set_insert lt a l) s
  end.

Class OrderBy {A} (lt : A -> A -> bool) : Prop := order_asym : forall x y, lt x y = true -> lt y x = true -> False.
#[global] Instance Zltb_order : OrderBy Z.ltb.
Proof. intros x y. lia. Qed.
#[global] Instance fst_order {K V} (lt : K -> K -> bool) : OrderBy lt -> OrderBy (fun a b : K * V => lt a.1 b.1).
Proof. intros H x y. apply H. Qed.

Definition ascending {A} (lt : A -> A -> bool) : list A -> Prop := StronglySorted (fun a b => lt a b = true).

(** [flat_set] and, with [lt] on the keys of pairs, the maps; [bounded] is not set for
    [std::set], which reads any number of elements. *)
Definition set_codec {A} (bounded : bool) (lt : A -> A -> bool) (c : codec A) : codec (list A) :=
  mk_codec (pack (vector_codec c))
    (fun s => let* (n, s) := unpack unsigned_int_codec s in
              check negb bounded || (n * sizeof c <? MAX_ARRAY_ALLOC_SIZE); unpack_set lt c (Z.to_nat n) [] s)
    (fun l => (bounded = true -> Z.of_nat (length l) * sizeof c < MAX_ARRAY_ALLOC_SIZE)
              /\ Z.of_nat (length l) < uint32_mod /\ Forall (fits c) l /\ ascending lt l) 24.
Definition map_codec {K V} (lt : K -> K -> bool) (k : codec K) (v : codec V) : codec (list (K * V)) :=
  set_codec true (fun a b => lt a.1 b.1) (pair_codec k v).

(** [static_variant]: the alternatives, each with its place in the variant type. *)
Record alternative (V : Type) := mk_alt {
  alt_type : Type;
  alt_codec : codec alt_type;
  inject : alt_type -> V;
  project : V -> option alt_type }.
Arguments mk_alt {V} _ _ _ _.
Arguments alt_type {V}.
Arguments alt_codec {V}.
Arguments inject {V}.
Arguments project {V}.

Fixpoint pack_variant {V} (which : Z) (alts : list (alternative V)) (v : V) : list Z :=
  match alts with
  | [] => []
  | a :: alts' =>
      match project a v with
      | Some x => pack unsigned_int_codec which ++ pack (alt_codec a) x
      | None => pack_variant (which + 1) alts' v
      end
  end.

Fixpoint fits_variant {V} (alts : list (alternative V)) (v : V) : Prop :=
  match alts with
  | [] => False
  | a :: alts' => match project a v with Some x => fits (alt_codec a) x | None => fits_variant alts' v end
  end.

(** [set_which] takes an [int]: a tag above its range is negative, passes the check and
    leaves an invalid variant, whose destructor ends the program. *)
Definition unpack_variant {V} (alts : list (alternative V)) (s : list Z) : result (V * list Z) :=
  let* (w, s) := unpack unsigned_int_codec s in
  let w := int32_of w in
  check w <? Z.of_nat (length alts);
  if w <? 0 then Err undefined_behaviour
  else
    let* a := get_or (alts !! Z.to_nat w) assert_exception in
    let* (x, s) := unpack (alt_codec a) s in
    Ok (inject a x, s).

Definition variant_codec {V} (size : Z) (alts : list (alternative V)) : codec V :=
  mk_codec (pack_variant 0 alts) (unpack_variant alts) (fits_variant alts) size.

(** The functions on whole buffers.  An empty buffer is not read at all. *)
Definition to_bytes {A} (c : codec A) (a : A) : list Z := pack c a.
Definition pack_size {A} (c : codec A) (a : A) : Z := Z.of_nat (length (pack c a)).
Definition from_bytes {A} (c : codec A) (default : A) (l : list Z) : result A :=
  match l with
  | [] => Ok default
  | _ => let* (a, _) := unpack c l in Ok a
  end.

(** ** The compositions are faithful *)

#[global] Instance bool_faithful : Faithful bool_codec.
Proof.
  split; [intros [] rest _; reflexivity|]. intros b _. apply le_bytes_byte.
Qed.

Lemma unpack_length n rest : Z.of_nat n < uint32_mod ->
  unpack unsigned_int_codec (pack unsigned_int_codec (wrap32 (Z.of_nat n)) ++ rest) = Ok (Z.of_nat n, rest).
Proof. intros H. rewrite wrap32_small by lia. apply unpack_pack. cbn. lia. Qed.

#[global] Instance bytes_faithful : Faithful bytes_codec.
Proof.
  split.
  - intros l rest [Hl _]. cbn [pack unpack bytes_codec]. rewrite <- app_assoc, unpack_length by lia. cbn [rbind].
    unfold fc_assert. rewrite (proj2 (Z.ltb_lt _ _)) by lia. cbn [rbind]. rewrite Nat2Z.id. apply read_app.
  - intros l [_ Hl]. cbn [pack bytes_codec]. apply Forall_app. split; [apply write_varint_byte|done].
Qed.

Lemma char_of_byte_of c : char_of (byte_of c) = c.
Proof. unfold char_of, byte_of. rewrite N2Z.id. apply Ascii.ascii_N_embedding. Qed.

Lemma string_of_bytes_of v : string_of_bytes (bytes_of_string v) = v.
Proof.
  unfold string_of_bytes, bytes_of_string. rewrite map_map.
  rewrite (map_ext _ id) by apply char_of_byte_of. rewrite map_id. apply String.string_of_list_ascii_of_string.
Qed.

#[global] Instance string_faithful : Faithful string_codec.
Proof.
  assert (Hb : forall v, Forall is_byte (bytes_of_string v)).
  { intros v. apply Forall_forall. intros b Hb. apply list_elem_of_In, in_map_iff in Hb as (c & <- & _).
    unfold is_byte, byte_of. pose proof (Ascii.N_ascii_bounded c). lia. }
  split.
  - intros v rest Hv. cbn [pack unpack fits string_codec] in *. rewrite (unpack_pack (c := bytes_codec)) by (by split).
    cbn. by rewrite string_of_bytes_of.
  - intros v Hv. cbn [pack fits string_codec] in *. apply (pack_bytes (c := bytes_codec)). by split.
Qed.

#[global] Instance array_faithful n : Faithful (array_codec n).
Proof. split; [|by intros l [_ ?]]. intros l rest [Hl _]. cbn. rewrite <- Hl. apply read_app. Qed.

#[global] Instance void_faithful : Faithful void_codec.
Proof. split; [by intros [] rest _|constructor]. Qed.

Section Compose.
Context {A B : Type} (a : codec A) (b : codec B) `{!Faithful a} `{!Faithful b}.

#[global] Instance pair_faithful : Faithful (pair_codec a b).
Proof.
  split.
  - intros [x y] rest [Hx Hy]. cbn [pack unpack pair_codec fst snd] in *. rewrite <- app_assoc, unpack_pack by done.
    cbn [rbind]. by rewrite unpack_pack.
  - intros [x y] [Hx Hy]. cbn [pack pair_codec fst snd] in *. apply Forall_app. split; by apply pack_bytes.
Qed.

#[global] Instance optional_faithful size : Faithful (optional_codec size a).
Proof.
  split.
  - intros v rest Hv. cbn [pack unpack optional_codec]. rewrite <- app_assoc, (unpack_pack (c := bool_codec)) by done.
    cbn [rbind]. destruct v as [x|]; [|done]. rewrite bool_decide_eq_true_2 by eauto. by rewrite unpack_pack.
  - intros v Hv. cbn [pack optional_codec]. apply Forall_app. split; [by apply (pack_bytes (c := bool_codec))|].
    destruct v; [by apply pack_bytes|constructor].
Qed.

Lemma unpack_n_pack l rest : Forall (fits a) l ->
  unpack_n a (length l) (concat (map (pack a) l) ++ rest) = Ok (l, rest).
Proof.
  induction 1 as [|x l Hx Hl IH]; [done|]. cbn [length map concat unpack_n]. rewrite <- app_assoc, unpack_pack by done.
  cbn [rbind]. by rewrite IH.
Qed.

Lemma elements_bytes l : Forall (fits a) l -> Forall is_byte (concat (map (pack a) l)).
Proof.
  induction 1 as [|x l Hx Hl IH]; [constructor|]. cbn. apply Forall_app. split; [by apply pack_bytes|done].
Qed.

#[global] Instance vector_faithful : Faithful (vector_codec a).
Proof.
  split.
  - intros l rest (H1 & H2 & H3). cbn [pack unpack vector_codec]. rewrite <- app_assoc, unpack_length by done.
    cbn [rbind]. unfold fc_assert. rewrite (proj2 (Z.ltb_lt _ _)) by done. cbn [rbind]. rewrite Nat2Z.id.
    by apply unpack_n_pack.
  - intros l (_ & _ & H3). cbn [pack vector_codec]. apply Forall_app. split; [apply write_varint_byte|].
    by apply elements_bytes.
Qed.

(** The smallest elements come first, so each is inserted at the end. *)
Lemma set_insert_last (lt : A -> A -> bool) x l : Forall (fun y => lt y x = true) l ->
  (forall y, lt x y = true -> lt y x = true -> False) -> set_insert lt x l = l ++ [x].
Proof.
  intros Hl Hlt. induction Hl as [|y l Hy Hl IH]; [done|]. cbn. rewrite Hy, IH.
  destruct (lt x y) eqn:E; [|done]. by destruct (Hlt y).
Qed.

Lemma unpack_set_pack (lt : A -> A -> bool) l : OrderBy lt ->
  forall done_ rest, Forall (fits a) l -> ascending lt (done_ ++ l) ->
  unpack_set lt a (length l) done_ (concat (map (pack a) l) ++ rest) = Ok (done_ ++ l, rest).
Proof.
  intros Hlt. induction l as [|x l IH]; intros done_ rest Hf Hs; [by rewrite app_nil_r|].
  apply Forall_cons in Hf as [Hx Hf]. cbn [length map concat unpack_set]. rewrite <- app_assoc, unpack_pack by done.
  cbn [rbind]. rewrite set_insert_last; [rewrite IH; rewrite <- ?app_assoc; done| |by apply Hlt].
  apply Forall_forall. intros y Hy. clear -Hs Hy. induction done_ as [|z d IH]; [by apply elem_of_nil in Hy|].
  apply StronglySorted_inv in Hs as [Hs Hz]. apply elem_of_cons in Hy as [->|Hy]; [|by apply IH].
  eapply Forall_forall in Hz; [done|]. apply elem_of_app. right. by left.
Qed.

#[global] Instance set_faithful bounded (lt : A -> A -> bool) :
  OrderBy lt -> Faithful (set_codec bounded lt a).
Proof.
  intros Hlt. split.
  - intros l rest (H1 & H2 & H3 & H4). cbn [pack unpack set_codec vector_codec]. rewrite <- app_assoc, unpack_length by done.
    cbn [rbind]. unfold fc_assert. assert (negb bounded || (Z.of_nat (length l) * sizeof a <? MAX_ARRAY_ALLOC_SIZE) = true) as ->.
    { destruct bounded; [|done]. cbn. apply Z.ltb_lt. by apply H1. }
    cbn [rbind]. rewrite Nat2Z.id. by apply unpack_set_pack.
  - intros l (_ & _ & H3 & _). cbn [pack set_codec vector_codec]. apply Forall_app. split; [apply write_varint_byte|].
    by apply elements_bytes.
Qed.
End Compose.

#[global] Instance map_faithful {K V} (lt : K -> K -> bool) (k : codec K) (v : codec V) :
  OrderBy lt -> Faithful k -> Faithful v -> Faithful (map_codec lt k v).
Proof. intros. apply set_faithful; apply _. Qed.

(** A structure with all its fields. *)
Lemma struct_faithful {A F} size (fields : A -> F) (make : F -> A) (c : codec F) :
  Faithful c -> (forall a, make (fields a) = a) -> Faithful (struct_codec size fields make c).
Proof.
  intros Hc Hm. split.
  - intros a rest Ha. cbn [pack unpack struct_codec]. rewrite unpack_pack by done. cbn [rbind]. by rewrite Hm.
  - intros a Ha. by apply (pack_bytes (c := c)).
Qed.

(** An alternative is read back into its place. *)
Class Alternative {V} (a : alternative V) : Prop := {
  alt_faithful :: Faithful (alt_codec a);
  inject_project : forall v x, project a v = Some x -> inject a x = v }.

Lemma int32_of_tag w : 0 <= w < 2147483648 -> int32_of w = w.
Proof. intros H. apply int32_of_small. lia. Qed.

Lemma pack_variant_first {V} (alts : list (alternative V)) v : forall which, fits_variant alts v ->
  exists i a x, alts !! i = Some a /\ project a v = Some x /\ fits (alt_codec a) x
    /\ pack_variant which alts v = pack unsigned_int_codec (which + Z.of_nat i) ++ pack (alt_codec a) x.
Proof.
  induction alts as [|a alts IH]; intros which Hv; [done|]. cbn [fits_variant pack_variant] in *.
  destruct (project a v) as [x|] eqn:E.
  - exists 0%nat, a, x. split; [done|]. rewrite Z.add_0_r. done.
  - destruct (IH (which + 1) Hv) as (i & a' & x & H1 & H2 & H3 & H4). exists (S i), a', x. split; [done|].
    split; [done|]. split; [done|]. rewrite H4. do 2 f_equal. lia.
Qed.

Lemma variant_faithful {V} size (alts : list (alternative V)) :
  Forall Alternative alts -> Z.of_nat (length alts) < 2147483648 -> Faithful (variant_codec size alts).
Proof.
  intros Ha Hlen.
  assert (Hw : forall v, fits_variant alts v -> exists i a x, alts !! i = Some a /\ project a v = Some x
    /\ fits (alt_codec a) x /\ pack_variant 0 alts v = pack unsigned_int_codec (Z.of_nat i) ++ pack (alt_codec a) x
    /\ Alternative a /\ (i < length alts)%nat).
  { intros v Hv. destruct (pack_variant_first alts v 0 Hv) as (i & a & x & H1 & H2 & H3 & H4).
    exists i, a, x. split; [done|]. split; [done|]. split; [done|]. split; [done|].
    split; [by eapply Forall_lookup_1|by eapply lookup_lt_Some]. }
  split.
  - intros v rest Hv. cbn [pack unpack variant_codec]. destruct (Hw v Hv) as (i & a & x & H1 & H2 & H3 & -> & Hal & Hi).
    unfold unpack_variant. rewrite <- app_assoc, (unpack_pack (c := unsigned_int_codec)) by (cbn; lia). cbn [rbind].
    rewrite int32_of_tag by lia. unfold fc_assert. rewrite (proj2 (Z.ltb_lt _ _)) by lia. cbn [rbind].
    rewrite (proj2 (Z.ltb_ge _ _)) by lia. rewrite Nat2Z.id, H1. cbn [get_or rbind]. rewrite unpack_pack by done. cbn [rbind].
    by rewrite (inject_project v x).
  - intros v Hv. cbn [pack variant_codec]. destruct (Hw v Hv) as (i & a & x & H1 & H2 & H3 & -> & Hal & Hi).
    apply Forall_app. split; [apply write_varint_byte|by apply pack_bytes].
Qed.

(** What is written can be told apart, also from the beginning of something longer. *)
Lemma pack_injective {A} (c : codec A) `{!Faithful c} x y r r' :
  fits c x -> fits c y -> pack c x ++ r = pack c y ++ r' -> x = y /\ r = r'.
Proof.
  intros Hx Hy E. pose proof (unpack_pack x r Hx) as H. rewrite E, unpack_pack in H by done. by injection H as -> ->.
Qed.

Lemma from_to_bytes {A} (c : codec A) `{!Faithful c} d x : fits c x -> pack c x <> [] ->
  from_bytes c d (to_bytes c x) = Ok x.
Proof.
  intros Hx Hne. unfold from_bytes, to_bytes. pose proof (unpack_pack x [] Hx) as H. rewrite app_nil_r in H.
  destruct (pack c x); [done|]. by rewrite H.
Qed.
