(* ===== verification/Votes.v ===== *)
(** * Account evaluators and voting

    [account_evaluator.cpp]: creating, updating and upgrading accounts.  An account votes
    by naming candidates and locking core units; each named candidate's [total_votes]
    changes by the amount locked.  [concerned] are the candidates the node was configured
    to record supporters of. *)

From S2P Require Import Prelude SafeInt Asset Vesting Authority State Ledger Market Candidates Names.

(** ** Authorities *)

Fixpoint all_accounts_exist (l : list (Z * Z)) (d : database) : result unit :=
  match l with
  | [] => Ok tt
  | (a, _) :: l' =>
      require bool_decide (is_Some (accounts d !! a)) else internal_verify_auth_account_not_found;
      all_accounts_exist l' d
  end.

Definition verify_authority_accounts (d : database) (a : authority) : result unit :=
  require Z.of_nat (num_auths a) <=? maximum_authority_membership (parameters (governance d))
    else internal_verify_auth_max_auth_exceeded;
  all_accounts_exist (account_auths a) d.

(** [GRAPHENE_RECODE_EXC]: two exceptions are thrown as others. *)
Definition recode {A} (max_exceeded not_found : exn) (m : result A) : result A :=
  match m with
  | Err internal_verify_auth_max_auth_exceeded => Err max_exceeded
  | Err internal_verify_auth_account_not_found => Err not_found
  | r => r
  end.

Definition evaluate_special_authority (d : database) (s : option special_authority) : result unit :=
  match s with
  | Some (top_holders_special_authority x _) => let* _ := get_asset x d in Ok tt
  | _ => Ok tt
  end.

Definition validate_special_authority (s : option special_authority) : result unit :=
  match s with
  | Some (top_holders_special_authority _ n) => fc_assert (n >? 0)
  | _ => Ok tt
  end.

(** ** Votes *)

Definition lock_of (o : office) (a : account_object) : option asset :=
  match o with Witness => vote_for_witness a | Committee => vote_for_committee a end.
Definition set_lock (o : office) (x : option asset) (a : account_object) : account_object :=
  match o with Witness => set_vote_for_witness x a | Committee => set_vote_for_committee x a end.

(** What an account update changes for the candidates it names. *)
Record vote_change := mk_vote_change {
  voter : Z;
  vote_lock : asset;
  old_vote_lock : asset;
  vote_temp : Z;
  new_support : gmap Z Z;
  changed_support : gmap Z Z;
  cancellation_support : gmap Z Z }.

Definition set_votes_and_supporters (v : Z) (s : gmap Z asset) (c : candidate) : candidate :=
  mk_candidate (cand_account c) (cand_vote_id c) v (cand_url c) (work_status c)
    (cand_next_maintenance c) s (signing_key c).

Definition modify_candidate (is_concerned : bool) (ch : vote_change) (c : candidate) : candidate :=
  let i := cand_vote_id c in
  let c :=
    if bool_decide (is_Some (new_support ch !! i)) then
      set_votes_and_supporters (wrap64 (total_votes c + amount (vote_lock ch)))
        (if is_concerned
         then match supporters c !! voter ch with
              | Some _ => supporters c
              | None => <[voter ch := vote_lock ch]> (supporters c)
              end
         else supporters c) c
    else c in
  let c :=
    if bool_decide (is_Some (changed_support ch !! i)) then
      set_votes_and_supporters (wrap64 (total_votes c + vote_temp ch))
        (if is_concerned then <[voter ch := vote_lock ch]> (supporters c) else supporters c) c
    else c in
  if bool_decide (is_Some (cancellation_support ch !! i)) then
    set_votes_and_supporters (wrap64 (total_votes c - amount (old_vote_lock ch)))
      (if is_concerned then delete (voter ch) (supporters c) else supporters c) c
  else c.

(** Find a candidate by its vote id. *)
Definition find_vote_id (i : Z) (m : gmap Z candidate) : option (Z * candidate) :=
  head (filter (fun kv => cand_vote_id kv.2 = i) (map_to_list m)).

Definition office_of_type (t : Z) : result office :=
  if t =? committee then Ok Committee else if t =? witness then Ok Witness else Err fc_exception.

Definition is_concerned (concerned : gmap Z Z) (i : Z) : bool :=
  bool_decide (concerned !! 0 = Some 0) || bool_decide (is_Some (concerned !! i)).

Fixpoint modify_candidates (concerned : gmap Z Z) (ch : vote_change) (l : list (Z * Z)) (d : database)
    : result database :=
  match l with
  | [] => Ok d
  | (i, t) :: l' =>
      let* o := office_of_type t in
      let* (id, c) := get_or (find_vote_id i (candidates o (governance d))) assert_exception in
      modify_candidates concerned ch l'
        (put_candidate o id (modify_candidate (is_concerned concerned i) ch c) d)
  end.

(** Compares the new votes with the old ones and adjusts every candidate concerned;
    returns the votes the account has afterwards: those of the other office stay. *)
Definition verify_account_votes (concerned : gmap Z Z) (acnt : Z) (vote_type : Z) (lock old : asset)
    (temp : Z) (new_votes old_votes : gmap Z Z) (d : database) : result (gmap Z Z * database) :=
  let ch := mk_vote_change acnt lock old temp
    (filter (fun it => old_votes !! it.1 = None) new_votes)
    (if temp =? 0 then ∅ else filter (fun it => is_Some (old_votes !! it.1)) new_votes)
    (filter (fun it => it.2 = vote_type /\ new_votes !! it.1 = None) old_votes) in
  let affected := new_votes ∪ filter (fun it => it.2 = vote_type) old_votes in
  let final_vote := new_votes ∪ filter (fun it => it.2 <> vote_type) old_votes in
  let* d := modify_candidates concerned ch
              (sort_by (fun a b => a.1 <=? b.1) (map_to_list affected)) d in
  Ok (final_vote, d).

(** ** Creating accounts *)

Record account_options := mk_account_options { opt_memo_key : Z; opt_votes : gmap Z Z }.

Record account_create_operation := mk_account_create {
  ac_registrar : Z;
  ac_name : string;
  ac_owner : authority;
  ac_active : authority;
  ac_options : account_options;
  ac_owner_special : option special_authority;
  ac_active_special : option special_authority }.

Definition authority_validate (a : authority) : result unit :=
  check negb (num_auths a =? 0)%nat;
  check (length (address_auths a) =? 0)%nat;
  fc_assert (negb (is_impossible a)).

Definition account_create_validate (op : account_create_operation) : result unit :=
  check default false (is_valid_name (ac_name op));
  check negb (num_auths (ac_owner op) =? 0)%nat;
  check (length (address_auths (ac_owner op)) =? 0)%nat;
  check negb (num_auths (ac_active op) =? 0)%nat;
  check (length (address_auths (ac_active op)) =? 0)%nat;
  check negb (is_impossible (ac_owner op));
  check negb (is_impossible (ac_active op));
  let* _ := validate_special_authority (ac_owner_special op) in
  validate_special_authority (ac_active_special op).

Definition name_taken (name : string) (d : database) : bool :=
  existsb (fun kv => String.eqb (account_name kv.2) name) (map_to_list (accounts d)).

Definition account_create_do_evaluate (op : account_create_operation) (d : database) : result unit :=
  let* payer := get_account (ac_registrar op) d in
  check is_lifetime_member payer;
  let* _ := recode account_create_max_auth_exceeded account_create_auth_account_not_found
              (let* _ := verify_authority_accounts d (ac_owner op) in
               verify_authority_accounts d (ac_active op)) in
  let* _ := evaluate_special_authority d (ac_owner_special op) in
  let* _ := evaluate_special_authority d (ac_active_special op) in
  fc_assert ((String.length (ac_name op) =? 0)%nat || negb (name_taken (ac_name op) d)).

(** Every [accounts_per_fee_scale] accounts the fee of creating one is shifted; a division
    by zero and a shift by the width or more are undefined. *)
Definition scale_account_fee (g : governance_state) : result governance_state :=
  let p := parameters g in
  let n := accounts_registered_this_interval g in
  if accounts_per_fee_scale p =? 0 then Err undefined_behaviour
  else if n mod accounts_per_fee_scale p =? 0 then
    if account_fee_scale_bitshifts p >=? 64 then Err undefined_behaviour
    else Ok (set_parameters
               (set_account_create_basic_fee
                  (wrap64 (Z.shiftl (account_create_basic_fee p) (account_fee_scale_bitshifts p))) p) g)
  else Ok g.

Definition create_special_authority (acc : Z) (g : governance_state) : governance_state :=
  let id := next_special_authority g in
  set_special_authorities (<[id := acc]> (special_authorities g)) (set_next_special_authority (id + 1) g).

Definition account_create_do_apply (op : account_create_operation) (d : database) : result (Z * database) :=
  let g := governance d in
  let id := next_account g in
  check negb (name_taken (ac_name op) d);
  let a := mk_account (ac_name op) (ac_registrar op) 0 (ac_owner op) (ac_active op)
             (opt_memo_key (ac_options op)) (opt_votes (ac_options op)) ∅ None None None None [] None None
             None None None (ac_owner_special op) (ac_active_special op) None in
  let d := put_account id a (set_account_statistics (<[id := 0]> (account_statistics d)) d) in
  let g := set_next_account (id + 1) g in
  let* g := scale_account_fee
              (set_accounts_registered_this_interval
                 (wrap32 (accounts_registered_this_interval g + 1)) g) in
  let g := match ac_owner_special op, ac_active_special op with
           | None, None => g
           | _, _ => create_special_authority id g
           end in
  Ok (id, set_governance g d).

(** ** Updating accounts *)

Record account_update_operation := mk_account_update {
  au_lock_with_vote : option (Z * asset);
  au_account : Z;
  au_owner : option authority;
  au_active : option authority;
  au_new_options : option account_options;
  au_owner_special : option special_authority;
  au_active_special : option special_authority }.

Definition optional_check {A} (f : A -> result unit) (x : option A) : result unit :=
  match x with Some a => f a | None => Ok tt end.

Definition account_update_validate (op : account_update_operation) : result unit :=
  check negb (au_account op =? GRAPHENE_TEMP_ACCOUNT);
  check negb (au_account op =? 0);
  check bool_decide (is_Some (au_owner op)) || bool_decide (is_Some (au_active op))
        || bool_decide (is_Some (au_new_options op)) || bool_decide (is_Some (au_owner_special op))
        || bool_decide (is_Some (au_active_special op));
  let* _ := optional_check authority_validate (au_owner op) in
  let* _ := optional_check authority_validate (au_active op) in
  let* _ := validate_special_authority (au_owner_special op) in
  validate_special_authority (au_active_special op).

Abbreviation GRAPHENE_DEFAULT_WITNESSE_NUMBER := 11.
Abbreviation GRAPHENE_DEFAULT_COMMITTEE_NUMBER := 11.

Definition count_type (t : Z) (votes : gmap Z Z) : Z :=
  Z.of_nat (length (filter (fun it => it.2 = t) (map_to_list votes))).

(** The locked amount is zero if and only if no candidate is named, and all candidates
    named are of the office voted for. *)
Definition check_votes (lock : Z * asset) (new_votes : gmap Z Z) (d : database) : result unit :=
  let vote_amount := negb (amount lock.2 =? 0) in
  let vote_size := negb (size new_votes =? 0)%nat in
  check (asset_id lock.2 =? CORE) && xorb vote_amount (eqb vote_size false);
  check lock.1 <=? vote_noone;
  let num_witness := count_type witness new_votes in
  let num_committee := count_type committee new_votes in
  check (num_committee =? 0) || (lock.1 =? committee);
  check (num_witness =? 0) || (lock.1 =? witness);
  let (max_witness, max_committee) :=
    match property_extensions (governance d) with
    | Some e => (witness_max_votes e, committee_max_votes e)
    | None => (GRAPHENE_DEFAULT_WITNESSE_NUMBER, GRAPHENE_DEFAULT_COMMITTEE_NUMBER)
    end in
  check num_witness <=? max_witness;
  fc_assert (num_committee <=? max_committee).

Definition account_update_do_evaluate (op : account_update_operation) (d : database) : result unit :=
  let* _ := recode account_update_max_auth_exceeded account_update_auth_account_not_found
              (let* _ := optional_check (verify_authority_accounts d) (au_owner op) in
               optional_check (verify_authority_accounts d) (au_active op)) in
  let* _ :=
    match au_new_options op, au_lock_with_vote op with
    | Some opts, Some lock => check_votes lock (opt_votes opts) d
    | _, _ => Ok tt
    end in
  let* _ := evaluate_special_authority d (au_owner_special op) in
  let* _ := evaluate_special_authority d (au_active_special op) in
  let* _ := get_account (au_account op) d in
  Ok tt.

(** Units that are no longer locked go to a vesting balance. *)
Definition release_votes (acc : Z) (temp : Z) (a : account_object) (d : database)
    : result (account_object * database) :=
  let* neg := Share.neg temp in
  let* (new_vbid, d) :=
    deposit_lazy_vesting (cashback_vote a) (mk_asset neg CORE)
      (cashback_vote_period_seconds (parameters (governance d))) acc "cashback_vote" true d in
  let a := match new_vbid with Some _ => set_cashback_vote new_vbid a | None => a end in
  let* d := adjust_balance acc (mk_asset temp CORE) false (put_account acc a d) in
  Ok (a, d).

(** The locked total follows the new lock; returns the old lock and the difference. *)
Definition relock (acc : Z) (o : office) (lock : asset) (a : account_object) (d : database)
    : result (asset * Z * account_object * database) :=
  match lock_of o a with
  | Some old =>
      let* temp := Share.sub (amount lock) (amount old) in
      let* a := add_locked (asset_id old) temp a in
      if temp <? 0 then
        let* (a, d) := release_votes acc temp a d in Ok (old, temp, a, d)
      else Ok (old, temp, a, d)
  | None =>
      let* a := add_locked (asset_id lock) (amount lock) a in
      Ok (mk_asset 0 CORE, 0, a, d)
  end.

(** The new lock replaces the old one; returns the votes the account has afterwards. *)
Definition lock_votes (concerned : gmap Z Z) (acc : Z) (lock : Z * asset) (new_votes : gmap Z Z)
    (a : account_object) (d : database) : result (gmap Z Z * account_object * database) :=
  check (asset_id lock.2 =? CORE) && (amount lock.2 >=? 0);
  let* (final_vote, a, d) :=
    if negb (lock.1 =? vote_noone) then
      let o := if lock.1 =? witness then Witness else Committee in
      let* (old, temp, a, d) := relock acc o lock.2 a d in
      let* (final_vote, d) :=
        verify_account_votes concerned acc lock.1 lock.2 old temp new_votes (votes a) d in
      Ok (final_vote, set_lock o (if amount lock.2 =? 0 then None else Some lock.2) a, d)
    else Ok (∅, a, d) in
  let d := put_account acc a d in
  let* _ := assert_balance acc lock.2 d in
  Ok (final_vote, a, d).

Definition has_special_authority (a : account_object) : bool :=
  match owner_special_authority a, active_special_authority a with
  | Some no_special_authority, Some no_special_authority => false
  | Some _, Some _ => true
  | _, _ => false
  end.

Definition apply_opt {A} (f : A -> account_object -> account_object) (x : option A) (a : account_object)
    : account_object := match x with Some v => f v a | None => a end.

(** The account leaves or enters the index of special authorities. *)
Definition update_special_index (acc : Z) (before after : bool) (d : database) : result database :=
  let g := governance d in
  if before && negb after then
    let* (id, _) := get_or (head (filter (fun kv => kv.2 = acc) (map_to_list (special_authorities g))))
                      undefined_behaviour in
    Ok (set_governance (set_special_authorities (delete id (special_authorities g)) g) d)
  else if negb before && after then Ok (set_governance (create_special_authority acc g) d)
  else Ok d.

Definition account_update_do_apply (concerned : gmap Z Z) (op : account_update_operation) (d : database)
    : result database :=
  let acc := au_account op in
  let* a := get_account acc d in
  let reset := set_top_n_control_flags (Some 0) in
  let a := apply_opt (fun x a => reset (set_owner_auth x a)) (au_owner op) a in
  let a := apply_opt (fun x a => reset (set_active_auth x a)) (au_active op) a in
  let* (a, d) :=
    match au_new_options op with
    | None => Ok (a, d)
    | Some opts =>
        match au_lock_with_vote op with
        | None => Ok (set_votes (opt_votes opts) (set_memo_key (opt_memo_key opts) a), d)
        | Some lock =>
            let* (final_vote, a, d) := lock_votes concerned acc lock (opt_votes opts) a d in
            Ok (set_votes final_vote (set_memo_key (opt_memo_key opts) a), d)
        end
    end in
  let sa_before := has_special_authority a in
  let a := apply_opt (fun x a => reset (set_owner_special_authority (Some x) a)) (au_owner_special op) a in
  let a := apply_opt (fun x a => reset (set_active_special_authority (Some x) a)) (au_active_special op) a in
  update_special_index acc sa_before (has_special_authority a) (put_account acc a d).

(** ** Upgrading accounts *)

Record account_upgrade_operation := mk_account_upgrade { ag_account : Z; ag_lifetime : bool }.

Definition account_upgrade_do_evaluate (op : account_upgrade_operation) (d : database) : result unit :=
  let* a := get_account (ag_account op) d in fc_assert (negb (is_lifetime_member a)).

Definition account_upgrade_do_apply (op : account_upgrade_operation) (d : database) : result database :=
  let* a := get_account (ag_account op) d in
  Ok (if ag_lifetime op
      then put_account (ag_account op) (set_membership_expiration_date time_point_sec_maximum a) d else d).
