(* ===== verification/VotesSpec.v ===== *)
(** * What the vote totals mean

    The total of a candidate is the amount its own account has frozen and the sum of what
    the accounts that name it have locked; every locked unit is covered by a balance.
    Account updates that come with a lock keep this, and updates without one break it. *)

From S2P Require Import Prelude SafeInt Asset Vesting Authority State Ledger Market MarketProofs.
From S2P Require Import Candidates Votes.

(** ** The invariant *)

Definition opt_amount (x : option asset) : Z := match x with Some a => amount a | None => 0 end.

(** What an account contributes to the candidate with vote id [i]. *)
Definition support (o : office) (i : Z) (a : account_object) : Z :=
  if decide (votes a !! i = Some (office_type o)) then opt_amount (lock_of o a) else 0.

Definition tally (o : office) (i : Z) (own : option asset) (m : gmap Z account_object) : Z :=
  opt_amount own + sum_map (fun _ a => support o i a) m.

(** Everything an account has locked for elections. *)
Definition lock_sum (a : account_object) : Z :=
  opt_amount (witness_freeze a) + opt_amount (committee_freeze a)
  + opt_amount (vote_for_witness a) + opt_amount (vote_for_committee a).

Definition core_only (x : option asset) : Prop := forall a, x = Some a -> asset_id a = CORE.

(** An account's own locks are in core units, add up to its locked total and are covered. *)
Record account_ok (k : Z) (d : database) (a : account_object) : Prop := {
  ao_core : core_only (witness_freeze a) /\ core_only (committee_freeze a)
            /\ core_only (vote_for_witness a) /\ core_only (vote_for_committee a);
  ao_sum : locked_of a CORE = lock_sum a;
  ao_covered : 0 <= locked_of a CORE <= amount (get_balance k CORE d);
  ao_named : forall o i, lock_of o a = None -> votes a !! i <> Some (office_type o) }.

Record candidate_ok (o : office) (id : Z) (c : candidate) (d : database) (a : account_object) : Prop := {
  ca_status : status_of o a = Some (id, work_status c);
  ca_idle : work_status c = false -> freeze_of o a = None;
  ca_total : total_votes c = wrap64 (tally o (cand_vote_id c) (freeze_of o a) (accounts d)) }.

Record gov_ok (d : database) : Prop := {
  go_account : forall k a, accounts d !! k = Some a -> account_ok k d a /\ k < next_account (governance d);
  go_candidate : forall o id c, candidates o (governance d) !! id = Some c ->
    exists a, accounts d !! cand_account c = Some a /\ candidate_ok o id c d a;
  go_vote : forall k a i t, accounts d !! k = Some a -> votes a !! i = Some t ->
    exists o id c, t = office_type o /\ candidates o (governance d) !! id = Some c /\ cand_vote_id c = i;
  go_freeze : forall k a o, accounts d !! k = Some a -> is_Some (freeze_of o a) ->
    exists id c, candidates o (governance d) !! id = Some c /\ cand_account c = k;
  go_unique : forall o1 o2 id1 id2 c1 c2,
    candidates o1 (governance d) !! id1 = Some c1 -> candidates o2 (governance d) !! id2 = Some c2 ->
    cand_vote_id c1 = cand_vote_id c2 -> o1 = o2 /\ id1 = id2;
  go_fresh : forall o id c, candidates o (governance d) !! id = Some c ->
    id < next_candidate o (governance d) /\ cand_vote_id c < next_available_vote_id (governance d);
  go_nobody : forall k, accounts d !! k = None -> 0 <= amount (get_balance k CORE d) }.

(** ** Reading what was written *)

Lemma office_type_inj o1 o2 : office_type o1 = office_type o2 -> o1 = o2.
Proof. by destruct o1, o2. Qed.

Lemma candidates_put o o' id c d :
  candidates o (governance (put_candidate o' id c d))
  = if decide (o = o') then <[id := c]> (candidates o (governance d)) else candidates o (governance d).
Proof. by destruct o, o'. Qed.

Lemma freeze_status o o' x a : freeze_of o (set_status o' x a) = freeze_of o a.
Proof. by destruct o, o'. Qed.
Lemma freeze_set o o' x a : freeze_of o (set_freeze o' x a) = if decide (o = o') then x else freeze_of o a.
Proof. by destruct o, o'. Qed.
Lemma status_set o o' x a : status_of o (set_status o' x a) = if decide (o = o') then x else status_of o a.
Proof. by destruct o, o'. Qed.
Lemma status_freeze o o' x a : status_of o (set_freeze o' x a) = status_of o a.
Proof. by destruct o, o'. Qed.
Lemma lock_set o o' x a : lock_of o (set_lock o' x a) = if decide (o = o') then x else lock_of o a.
Proof. by destruct o, o'. Qed.

Lemma add_locked_inv aid x a a' : add_locked aid x a = Ok a' ->
  a' = set_locked_total (<[aid := locked_of a aid + x]> (locked_total a)) a.
Proof. unfold add_locked. intros H. apply rbind_ok in H as (l & Hl & [= <-]). by apply Share.add_value in Hl as ->. Qed.

Lemma sub_locked_inv aid x a a' : sub_locked aid x a = Ok a' ->
  a' = set_locked_total (<[aid := locked_of a aid - x]> (locked_total a)) a.
Proof. unfold sub_locked. intros H. apply rbind_ok in H as (l & Hl & [= <-]). by apply Share.sub_value in Hl as ->. Qed.

Lemma locked_of_set aid aid' x a :
  locked_of (set_locked_total (<[aid := x]> (locked_total a)) a) aid'
  = if decide (aid = aid') then x else locked_of a aid'.
Proof.
  unfold locked_of. cbn [locked_total set_locked_total]. destruct (decide (aid = aid')) as [->|].
  - by rewrite lookup_insert_eq.
  - by rewrite lookup_insert_ne.
Qed.

(** The contribution of the other accounts to a tally stays. *)
Lemma tally_insert o i own k a a' m : m !! k = Some a ->
  tally o i own (<[k := a']> m) = tally o i own m - support o i a + support o i a'.
Proof. intros Hk. unfold tally. rewrite (sum_map_insert _ _ _ a) by done. lia. Qed.

(** ** The candidates an update names *)

Lemma find_vote_id_inv i m id c : find_vote_id i m = Some (id, c) -> m !! id = Some c /\ cand_vote_id c = i.
Proof.
  unfold find_vote_id. intros H.
  assert (Hin : (id, c) ∈ filter (fun kv : Z * candidate => cand_vote_id kv.2 = i) (map_to_list m))
    by (destruct (filter _ _); [done|]; injection H as ->; by left).
  apply list_elem_of_filter in Hin as [E Hin]. apply elem_of_map_to_list in Hin. done.
Qed.

Definition unique_ids (d : database) : Prop := forall o1 o2 id1 id2 c1 c2,
  candidates o1 (governance d) !! id1 = Some c1 -> candidates o2 (governance d) !! id2 = Some c2 ->
  cand_vote_id c1 = cand_vote_id c2 -> o1 = o2 /\ id1 = id2.

Lemma modify_candidate_same b ch c : let c' := modify_candidate b ch c in
  cand_account c' = cand_account c /\ cand_vote_id c' = cand_vote_id c /\ work_status c' = work_status c.
Proof. unfold modify_candidate. cbv zeta. repeat case_if; done. Qed.

Lemma put_candidate_unique o id c c' d : unique_ids d -> candidates o (governance d) !! id = Some c ->
  cand_vote_id c' = cand_vote_id c -> unique_ids (put_candidate o id c' d).
Proof.
  intros U Hc E o1 o2 id1 id2 c1 c2 H1 H2 He. rewrite candidates_put in H1, H2.
  assert (Hpre : forall o' id' c0, (if decide (o' = o) then <[id := c']> (candidates o' (governance d))
      else candidates o' (governance d)) !! id' = Some c0 ->
    exists c1, candidates o' (governance d) !! id' = Some c1 /\ cand_vote_id c1 = cand_vote_id c0).
  { intros o' id' c0 H. case_decide as Ho; [subst o'|by exists c0].
    apply lookup_insert_Some in H as [[<- <-]|[_ H]]; [by exists c|by exists c0]. }
  apply Hpre in H1 as (e1 & H1 & E1), H2 as (e2 & H2 & E2). apply (U o1 o2 id1 id2 e1 e2); congruence.
Qed.

(** What every other part of the state keeps. *)
Definition only_candidates (d d' : database) : Prop :=
  accounts d' = accounts d /\ account_balances d' = account_balances d
  /\ next_account (governance d') = next_account (governance d)
  /\ next_available_vote_id (governance d') = next_available_vote_id (governance d)
  /\ forall o, next_candidate o (governance d') = next_candidate o (governance d).

Lemma put_candidate_only o id c d : only_candidates d (put_candidate o id c d).
Proof. destruct o; do 4 (split; [done|]); by intros []. Qed.

#[global] Instance only_candidates_preorder : PreOrder only_candidates.
Proof.
  split; [by intros d; repeat split|]. intros d1 d2 d3 (A1 & B1 & N1 & V1 & C1) (A2 & B2 & N2 & V2 & C2).
  do 4 (split; [congruence|]). intros o. by rewrite C2, C1.
Qed.

(** Every candidate named changes once, the others stay. *)
Lemma modify_candidates_spec con ch l : forall d d', modify_candidates con ch l d = Ok d' ->
  unique_ids d -> NoDup l.*1 ->
  only_candidates d d'
  /\ (forall i t, (i, t) ∈ l -> exists o id c, t = office_type o
        /\ candidates o (governance d) !! id = Some c /\ cand_vote_id c = i)
  /\ forall o id, candidates o (governance d') !! id
     = (fun c => if decide (cand_vote_id c ∈ l.*1)
                 then modify_candidate (is_concerned con (cand_vote_id c)) ch c else c)
       <$> candidates o (governance d) !! id.
Proof.
  induction l as [|[i t] l IH]; intros d d' H U Hnd; cbn [modify_candidates] in H.
  { injection H as <-. split; [done|]. split; [intros i t Hin; by apply elem_of_nil in Hin|].
    intros o id. destruct (candidates o (governance d) !! id) as [c|]; [|done]. cbn.
    rewrite decide_False by (by intros Hin; apply elem_of_nil in Hin). done. }
  apply rbind_ok in H as (o & Ho & H). apply rbind_ok in H as ([id c] & Hc & H).
  destruct (find_vote_id i _) as [p|] eqn:Hf; [|done]. injection Hc as ->.
  apply find_vote_id_inv in Hf as [Hc Hi].
  assert (Et : t = office_type o).
  { unfold office_of_type in Ho. destruct (Z.eqb_spec t committee); [by injection Ho as <-|].
    destruct (Z.eqb_spec t witness); [by injection Ho as <-|done]. }
  cbn [fmap list_fmap fst] in Hnd. apply NoDup_cons in Hnd as [Hni Hnd].
  destruct (modify_candidate_same (is_concerned con i) ch c) as (_ & Ev & _).
  pose proof (put_candidate_unique o id c _ d U Hc Ev) as U1.
  destruct (IH _ _ H U1 Hnd) as (F & Hl & Hm). split; [etransitivity; [apply put_candidate_only|exact F]|]. split.
  - intros i' t' Hin. apply elem_of_cons in Hin as [[= -> ->]|Hin]; [by exists o, id, c|].
    destruct (Hl _ _ Hin) as (o' & id' & c' & -> & Hc' & E'). rewrite candidates_put in Hc'.
    case_decide as Ho'; [subst o'|by exists o', id', c'].
    apply lookup_insert_Some in Hc' as [[<- <-]|[_ Hc']]; [|by exists o, id', c'].
    exists o, id, c. split; [done|]. split; [done|]. congruence.
  - intros o' id'. rewrite Hm, candidates_put. case_decide as Ho'.
    + subst o'. destruct (decide (id' = id)) as [->|Hne].
      * rewrite lookup_insert_eq, Hc. cbn [fmap option_fmap option_map]. rewrite Ev, Hi.
        rewrite decide_False by done. rewrite decide_True by (cbn; by left). done.
      * rewrite lookup_insert_ne by done. destruct (candidates o (governance d) !! id') as [c'|] eqn:Hc'; [|done].
        cbn. f_equal. assert (cand_vote_id c' <> i).
        { intros E. destruct (U o o id' id c' c Hc' Hc) as [_ ->]; congruence. }
        destruct (decide (cand_vote_id c' ∈ l.*1)) as [Hin|Hin].
        { rewrite decide_True by (by right). done. }
        rewrite decide_False; [done|]. intros Hin'. apply elem_of_cons in Hin' as [?|?]; congruence.
    + destruct (candidates o' (governance d) !! id') as [c'|] eqn:Hc'; [|done]. cbn. f_equal.
      assert (cand_vote_id c' <> i).
      { intros E. destruct (U o' o id' id c' c Hc' Hc) as [? _]; congruence. }
      destruct (decide (cand_vote_id c' ∈ l.*1)) as [Hin|Hin].
      { rewrite decide_True by (by right). done. }
      rewrite decide_False; [done|]. intros Hin'. apply elem_of_cons in Hin' as [?|?]; congruence.
Qed.

(** ** Locking *)

(** The fields of an account elections look at, but for the locked total. *)
Definition election_view (a : account_object) :=
  (votes a, (witness_freeze a, committee_freeze a), (vote_for_witness a, vote_for_committee a),
   (witness_status a, committee_status a)).

Lemma view_fields a b : election_view a = election_view b ->
  votes a = votes b /\ (forall o, freeze_of o a = freeze_of o b) /\ (forall o, lock_of o a = lock_of o b)
  /\ (forall o, status_of o a = status_of o b) /\ lock_sum a = lock_sum b.
Proof.
  unfold election_view, lock_sum. intros [= Ev Ew Ec Evw Evc Esw Esc].
  split; [done|]. split; [by intros []|]. split; [by intros []|]. split; [by intros []|]. congruence.
Qed.

Definition balance_of (k : Z) (d : database) : Z := amount (get_balance k CORE d).

Lemma relock_spec acc o lock a d old temp a1 d1 : relock acc o lock a d = Ok (old, temp, a1, d1) ->
  core_only (lock_of o a) -> asset_id lock = CORE ->
  election_view a1 = election_view a
  /\ locked_of a1 CORE = locked_of a CORE + (amount lock - opt_amount (lock_of o a))
  /\ amount old = opt_amount (lock_of o a)
  /\ (forall x, lock_of o a = Some x -> temp = amount lock - amount x)
  /\ governance d1 = governance d
  /\ (forall k, k <> acc -> accounts d1 !! k = accounts d !! k /\ balance_of k d1 = balance_of k d).
Proof.
  unfold relock. intros H Hc Hl. destruct (lock_of o a) as [x|] eqn:El; cbn [opt_amount].
  2:{ apply rbind_ok in H as (a2 & Ha & [= <- <- <- <-]). apply add_locked_inv in Ha as ->.
      rewrite locked_of_set, Hl, decide_True by done. repeat split; try done. lia. }
  apply rbind_ok in H as (t & Ht & H). apply Share.sub_value in Ht as ->.
  apply rbind_ok in H as (a2 & Ha & H). apply add_locked_inv in Ha as ->. rewrite (Hc x eq_refl) in H.
  assert (Hlk : forall cb, locked_of (set_cashback_vote cb (set_locked_total
      (<[CORE := locked_of a CORE + (amount lock - amount x)]> (locked_total a)) a)) CORE
    = locked_of a CORE + (amount lock - amount x)).
  { intros cb. unfold locked_of at 1. cbn [locked_total set_cashback_vote set_locked_total].
    by rewrite lookup_insert_eq. }
  case_if_in H.
  2:{ injection H as <- <- <- <-. rewrite locked_of_set, decide_True by done.
      repeat split; try done. by intros ? [= ->]. }
  apply rbind_ok in H as ([a3 d3] & H & [= <- <- <- <-]). unfold release_votes in H. skip_bind H.
  apply rbind_ok in H as ([nv d2] & Hd & H). apply deposit_lazy_frame in Hd as (m & n & ->).
  apply rbind_ok in H as (d4 & Hadj & [= <- <-]).
  pose proof (fun k => adjust_balance_get _ _ _ _ _ k CORE Hadj) as Hb.
  apply adjust_balance_total in Hadj as (bm & -> & _).
  split; [destruct nv; reflexivity|]. split; [destruct nv; [apply Hlk|by rewrite locked_of_set, decide_True]|].
  split; [done|]. split; [by intros ? [= ->]|]. split; [done|]. intros k Hk. split.
  - cbn. by rewrite lookup_insert_ne.
  - unfold balance_of. rewrite Hb. rewrite decide_False by congruence. cbn. unfold get_balance. cbn. lia.
Qed.

(** ** Voting keeps the totals *)

Lemma bool_decide_is_Some {A} (x : option A) :
  bool_decide (is_Some x) = match x with Some _ => true | None => false end.
Proof. destruct x; [by apply bool_decide_eq_true_2|]. apply bool_decide_eq_false_2. by intros []. Qed.

Lemma modify_candidate_total b ch c : let i := cand_vote_id c in
  (forall x, new_support ch !! i = Some x -> changed_support ch !! i = None
     /\ cancellation_support ch !! i = None) ->
  (forall x, changed_support ch !! i = Some x -> cancellation_support ch !! i = None) ->
  total_votes (modify_candidate b ch c) =
    match new_support ch !! i, changed_support ch !! i, cancellation_support ch !! i with
    | Some _, _, _ => wrap64 (total_votes c + amount (vote_lock ch))
    | _, Some _, _ => wrap64 (total_votes c + vote_temp ch)
    | _, _, Some _ => wrap64 (total_votes c - amount (old_vote_lock ch))
    | _, _, _ => total_votes c
    end.
Proof.
  intros i H1 H2. unfold modify_candidate. fold i. cbv zeta. rewrite !bool_decide_is_Some.
  destruct (new_support ch !! i) eqn:E1; [by destruct (H1 _ eq_refl) as [-> ->]|].
  destruct (changed_support ch !! i) eqn:E2; [by rewrite (H2 _ eq_refl)|]. by destruct (cancellation_support ch !! i).
Qed.

(** The change [verify_account_votes] works with. *)
Definition change_of (acc t : Z) (lk old : asset) (temp : Z) (V W : gmap Z Z) : vote_change :=
  mk_vote_change acc lk old temp
    (filter (fun it => W !! it.1 = None) V)
    (if temp =? 0 then ∅ else filter (fun it => is_Some (W !! it.1)) V)
    (filter (fun it => it.2 = t /\ V !! it.1 = None) W).
Definition affected_by (t : Z) (V W : gmap Z Z) : gmap Z Z := V ∪ filter (fun it => it.2 = t) W.
Definition final_votes (t : Z) (V W : gmap Z Z) : gmap Z Z := V ∪ filter (fun it => it.2 <> t) W.

Lemma filter_lookup (P : Z * Z -> Prop) `{!forall x, Decision (P x)} (m : gmap Z Z) i :
  filter P m !! i = match m !! i with
                    | Some t => if decide (P (i, t)) then Some t else None
                    | None => None
                    end.
Proof.
  rewrite map_lookup_filter. destruct (m !! i) as [t|]; [|done]. cbn.
  destruct (decide (P (i, t))); [by rewrite option_guard_True|by rewrite option_guard_False].
Qed.

Lemma affected_lookup t V W i : affected_by t V W !! i =
  match V !! i with
  | Some x => Some x
  | None => match W !! i with Some x => if decide (x = t) then Some x else None | None => None end
  end.
Proof.
  unfold affected_by. rewrite lookup_union, filter_lookup. destruct (V !! i) as [x|]; cbn.
  - by destruct (W !! i) as [y|]; [case_decide|].
  - by destruct (W !! i) as [y|]; [case_decide|].
Qed.

Lemma final_lookup t V W i : final_votes t V W !! i =
  match V !! i with
  | Some x => Some x
  | None => match W !! i with Some x => if decide (x = t) then None else Some x | None => None end
  end.
Proof.
  unfold final_votes. rewrite lookup_union, filter_lookup. cbn [snd].
  destruct (V !! i) as [x|], (W !! i) as [y|]; cbn; try done;
    destruct (decide (y = t)), (decide (y <> t)); done.
Qed.

(** A candidate's total changes by what the account contributes more than before, when
    every vote for its id is one for its office. *)
Lemma vote_counted o oc acc lk old temp V W b c T (lock lock' : option asset) :
  let i := cand_vote_id c in let t := office_type o in let ch := change_of acc t lk old temp V W in
  (forall x, V !! i = Some x -> x = office_type oc /\ x = t) -> (forall x, W !! i = Some x -> x = office_type oc) ->
  (oc <> o -> lock' = lock) ->
  (oc = o -> opt_amount lock' = amount lk /\ amount old = opt_amount lock
     /\ (W !! i = Some t -> temp = amount lk - opt_amount lock)) ->
  total_votes c = wrap64 T ->
  (if decide (is_Some (affected_by t V W !! i)) then total_votes (modify_candidate b ch c) else total_votes c)
  = wrap64 (T - (if decide (W !! i = Some (office_type oc)) then opt_amount lock else 0)
            + (if decide (final_votes t V W !! i = Some (office_type oc)) then opt_amount lock' else 0)).
Proof.
  intros i t ch HV HW Hne He HT.
  assert (Hm : total_votes (modify_candidate b ch c) =
    match V !! i, W !! i with
    | Some _, None => wrap64 (T + amount lk)
    | Some _, Some _ => wrap64 (T + (if temp =? 0 then 0 else temp))
    | None, Some y => if decide (y = t) then wrap64 (T - amount old) else wrap64 T
    | None, None => wrap64 T
    end).
  { rewrite modify_candidate_total; fold i; cbn [new_support changed_support cancellation_support ch change_of
      vote_lock vote_temp old_vote_lock]; rewrite ?filter_lookup; cbn [fst snd].
    - destruct (V !! i) as [x|] eqn:EV, (W !! i) as [y|] eqn:EW; cbn.
      + rewrite (decide_False (P := Some y = None)) by done. destruct (Z.eqb_spec temp 0) as [->|].
        * rewrite lookup_empty, decide_False by (by intros [_ ?]). by rewrite HT, Z.add_0_r.
        * rewrite filter_lookup, EV. cbn [fst]. rewrite EW, decide_True by (by eexists). by rewrite HT, wrap64_add_wrap.
      + rewrite decide_True by done. by rewrite HT, wrap64_add_wrap.
      + destruct (Z.eqb_spec temp 0) as [->|]; [rewrite lookup_empty|rewrite filter_lookup, EV];
          (case_decide; [rewrite decide_True by tauto; by rewrite HT, wrap64_sub_wrap|rewrite decide_False by tauto; done]).
      + destruct (Z.eqb_spec temp 0) as [->|]; [by rewrite lookup_empty|by rewrite filter_lookup, EV].
    - intros x. destruct (V !! i) as [v|] eqn:EV; [|done]. case_decide as Hd; [|done]. intros _. split.
      + destruct (temp =? 0); [apply lookup_empty|]. rewrite filter_lookup, EV. cbn [fst].
        rewrite decide_False; [done|]. rewrite Hd. by intros [].
      + rewrite Hd. done.
    - intros x Hx. destruct (temp =? 0); [by rewrite lookup_empty in Hx|]. rewrite filter_lookup in Hx.
      destruct (V !! i) as [v|] eqn:EV; [|done]. destruct (W !! i); [|done]. by rewrite decide_False by (by intros [_ ?]). }
  rewrite Hm, affected_lookup, final_lookup, HT. clear Hm.
  destruct (V !! i) as [x|] eqn:EV.
  - destruct (HV _ eq_refl) as [-> Et]. apply office_type_inj in Et as ->. destruct (He eq_refl) as (E1 & E2 & E3).
    rewrite decide_True by (by eexists). rewrite (decide_True (P := Some _ = Some _)) by done.
    destruct (W !! i) as [y|] eqn:EW.
    + rewrite (HW _ eq_refl) in *. rewrite decide_True by done. f_equal. specialize (E3 eq_refl).
      destruct (Z.eqb_spec temp 0); lia.
    + rewrite decide_False by done. f_equal. lia.
  - destruct (W !! i) as [y|] eqn:EW.
    + rewrite (HW _ eq_refl) in *. destruct (decide (office_type oc = t)) as [Et|Hnt].
      * apply office_type_inj in Et as ->. destruct (He eq_refl) as (_ & E2 & _).
        rewrite decide_True by (by eexists). rewrite decide_True by done. rewrite decide_False by done. f_equal. lia.
      * rewrite decide_False by (by intros []). rewrite decide_True by done. rewrite Hne by (intros ->; done).
        rewrite decide_True by done. f_equal. lia.
    + rewrite decide_False by (by intros []). rewrite !decide_False by done. f_equal. lia.
Qed.

(** ** The updates of a voting account *)

(** What the evaluation has checked about the votes. *)
Lemma check_votes_spec lock V d : check_votes lock V d = Ok tt -> 0 <= lock.1 -> lock.1 <> vote_noone ->
  exists o, lock.1 = office_type o /\ (if lock.1 =? witness then Witness else Committee) = o
  /\ asset_id lock.2 = CORE /\ (amount lock.2 = 0 -> V = ∅)
  /\ forall i oc, V !! i = Some (office_type oc) -> oc = o.
Proof.
  intros H H0 Hn. unfold check_votes in H. res_inv. bool_to_prop.
  assert (Ho : lock.1 = office_type Witness \/ lock.1 = office_type Committee) by (cbn; lia).
  assert (Hc : forall i oc, V !! i = Some (office_type oc) -> count_type (office_type oc) V <> 0).
  { intros i oc Hi. unfold count_type.
    assert (Hin : (i, office_type oc) ∈ filter (fun it : Z * Z => it.2 = office_type oc) (map_to_list V))
      by (apply list_elem_of_filter; split; [done|by apply elem_of_map_to_list]).
    destruct (filter _ _); [by apply elem_of_nil in Hin|]. cbn. lia. }
  assert (He : amount lock.2 = 0 -> V = ∅).
  { intros Ez. match goal with Hx : xorb _ _ = true |- _ => rewrite Ez in Hx end.
    cbn in *. apply map_size_empty_inv. destruct (size V =? 0)%nat eqn:Es; [by apply Nat.eqb_eq in Es|done]. }
  destruct Ho as [Ho|Ho]; [exists Witness|exists Committee]; rewrite Ho in *; (do 4 (split; [done|]));
    intros i [] Hi; try done; specialize (Hc i _ Hi); cbn [office_type] in Hc;
    match goal with
    | Hx : (count_type ?t V =? 0) || _ = true, Hy : count_type ?t V <> 0 |- _ =>
        apply Z.eqb_neq in Hy; rewrite Hy in Hx; done
    end.
Qed.

Lemma assert_balance_inv acc target d u a : assert_balance acc target d = Ok u -> asset_id target = CORE ->
  accounts d !! acc = Some a -> 0 <= locked_of a CORE <= balance_of acc d.
Proof.
  unfold assert_balance, get_account. intros H Ht Ha. rewrite Ha, Ht in H. cbn [get_or rbind] in H.
  res_inv. bool_to_prop. done.
Qed.

(** The invariant of an account after its locks and votes were replaced. *)
Lemma voting_account_ok k d D a a1 o t V lk bal : account_ok k D a -> t = office_type o ->
  election_view a1 = election_view a -> asset_id lk = CORE ->
  locked_of a1 CORE = locked_of a CORE + (amount lk - opt_amount (lock_of o a)) ->
  0 <= locked_of a1 CORE <= bal -> bal = balance_of k d -> (amount lk = 0 -> V = ∅) ->
  (forall i oc, V !! i = Some (office_type oc) -> oc = o) ->
  account_ok k d (set_votes (final_votes t V (votes a))
                    (set_lock o (if amount lk =? 0 then None else Some lk) a1)).
Proof.
  intros [Hc Hs _ Hn] -> Ev Hl Hlk Hcov -> HV0 HV. apply view_fields in Ev as (Evo & Ef & El & Est & Esum).
  assert (Elk : opt_amount (if amount lk =? 0 then None else Some lk) = amount lk)
    by (destruct (Z.eqb_spec (amount lk) 0); cbn; lia).
  assert (Hcl : core_only (if amount lk =? 0 then None else Some lk))
    by (intros x; case_if; [done|]; by intros [= <-]).
  destruct Hc as (C1 & C2 & C3 & C4).
  pose proof (Ef Witness) as F1. pose proof (Ef Committee) as F2. pose proof (El Witness) as L1.
  pose proof (El Committee) as L2. cbn in F1, F2, L1, L2.
  split.
  - destruct o; cbn [set_lock witness_freeze committee_freeze vote_for_witness vote_for_committee set_votes
      set_vote_for_witness set_vote_for_committee]; rewrite ?F1, ?F2, ?L1, ?L2; done.
  - unfold lock_sum in *. transitivity (locked_of a1 CORE); [by destruct o|]. rewrite Hlk, Hs.
    destruct o; cbn [set_lock witness_freeze committee_freeze vote_for_witness vote_for_committee set_votes
      set_vote_for_witness set_vote_for_committee lock_of]; rewrite ?F1, ?F2, ?L1, ?L2, Elk; lia.
  - assert (E : forall b, locked_of (set_votes b (set_lock o (if amount lk =? 0 then None else Some lk) a1)) CORE
      = locked_of a1 CORE) by (intros b; by destruct o). rewrite E. exact Hcov.
  - intros oc i Hno. cbn [votes set_votes]. rewrite final_lookup.
    assert (Hlo : lock_of oc (set_lock o (if amount lk =? 0 then None else Some lk) a1) = None) by (by destruct oc).
    rewrite lock_set in Hlo. destruct (V !! i) as [x|] eqn:EV.
    + intros [= ->]. pose proof (HV _ _ EV) as ->. rewrite decide_True in Hlo by done.
      destruct (Z.eqb_spec (amount lk) 0) as [Hz|]; [|done]. by rewrite (HV0 Hz), lookup_empty in EV.
    + destruct (votes a !! i) as [y|] eqn:EW; [|done]. destruct (decide (y = office_type o)) as [|Hy]; [done|]. intros [= ->].
      rewrite decide_False in Hlo by congruence. rewrite El in Hlo. by apply (Hn _ _ Hlo) in EW.
Qed.

Lemma affected_keys t V W i :
  i ∈ (sort_by (fun a b : Z * Z => a.1 <=? b.1) (map_to_list (affected_by t V W))).*1
  <-> is_Some (affected_by t V W !! i).
Proof.
  rewrite list_elem_of_fmap. split.
  - intros ([j x] & -> & H). apply sort_by_elem, elem_of_map_to_list in H. by exists x.
  - intros [x Hx]. exists (i, x). split; [done|]. by apply sort_by_elem, elem_of_map_to_list.
Qed.

Lemma affected_nodup t V W :
  NoDup (sort_by (fun a b : Z * Z => a.1 <=? b.1) (map_to_list (affected_by t V W))).*1.
Proof. rewrite sort_by_perm. apply NoDup_fst_map_to_list. Qed.

Lemma app_decide {A B} P `{Decision P} (f : A -> B) x y :
  f (if decide P then x else y) = if decide P then f x else f y.
Proof. by case_decide. Qed.

Lemma account_ok_balance k d d' a : balance_of k d' = balance_of k d -> account_ok k d a -> account_ok k d' a.
Proof. unfold balance_of. intros E [? ? Hc ?]. split; [done|done|by rewrite E|done]. Qed.

(** One account changes its votes and locks, the totals of the candidates follow. *)
Lemma gov_ok_update D R acc a A (f : office -> candidate -> candidate) :
  gov_ok D -> accounts D !! acc = Some a -> accounts R = <[acc := A]> (accounts D) ->
  (forall k, k <> acc -> balance_of k R = balance_of k D) -> account_ok acc R A ->
  (forall o, freeze_of o A = freeze_of o a) -> (forall o, status_of o A = status_of o a) ->
  next_account (governance R) = next_account (governance D) ->
  next_available_vote_id (governance R) = next_available_vote_id (governance D) ->
  (forall o, next_candidate o (governance R) = next_candidate o (governance D)) ->
  (forall o id, candidates o (governance R) !! id = f o <$> candidates o (governance D) !! id) ->
  (forall o c, cand_account (f o c) = cand_account c /\ cand_vote_id (f o c) = cand_vote_id c
     /\ work_status (f o c) = work_status c) ->
  (forall i t, votes A !! i = Some t -> exists o id c, t = office_type o
     /\ candidates o (governance D) !! id = Some c /\ cand_vote_id c = i) ->
  (forall o id c T, candidates o (governance D) !! id = Some c -> total_votes c = wrap64 T ->
     total_votes (f o c) = wrap64 (T - support o (cand_vote_id c) a + support o (cand_vote_id c) A)) ->
  gov_ok R.
Proof.
  intros G Ha EA Hbal HA Hfr Hst En Ev Enc Hc Hf Hvt Htot.
  assert (Hpre : forall o id c', candidates o (governance R) !! id = Some c' ->
    exists c, candidates o (governance D) !! id = Some c /\ c' = f o c).
  { intros o id c' H. rewrite Hc in H. apply fmap_Some in H as (c & H & ->). eauto. }
  assert (Hpost : forall o id c, candidates o (governance D) !! id = Some c ->
    candidates o (governance R) !! id = Some (f o c)) by (intros o id c H; by rewrite Hc, H).
  assert (Hacc : forall k b, accounts R !! k = Some b ->
    (k = acc /\ b = A) \/ (k <> acc /\ accounts D !! k = Some b)).
  { intros k b H. rewrite EA in H. apply lookup_insert_Some in H as [[<- <-]|[? H]]; [by left|by right]. }
  split.
  - intros k b H. rewrite En. apply Hacc in H as [[-> ->]|[Hk H]].
    + split; [done|]. apply (go_account _ G _ _ Ha).
    + destruct (go_account _ G _ _ H) as [Hok ?]. split; [|done]. eapply account_ok_balance; [by apply Hbal|done].
  - intros o id c' H. apply Hpre in H as (c & H & ->). destruct (Hf o c) as (-> & Evi & Ews).
    destruct (go_candidate _ G _ _ _ H) as (b & Hb & [S1 S2 S3]).
    assert (Et : forall own, tally o (cand_vote_id c) own (accounts R) = tally o (cand_vote_id c) own (accounts D)
      - support o (cand_vote_id c) a + support o (cand_vote_id c) A)
      by (intros own; rewrite EA; by apply tally_insert).
    destruct (decide (cand_account c = acc)) as [E|Hne].
    + exists A. rewrite E in Hb |- *. assert (b = a) as -> by congruence.
      split; [by rewrite EA, lookup_insert_eq|]. split; rewrite ?Hst, ?Hfr, ?Ews, ?Evi; [done|done|].
      rewrite (Htot o id c _ H S3), Et. done.
    + exists b. split; [by rewrite EA, lookup_insert_ne|]. split; rewrite ?Ews, ?Evi; [done|done|].
      rewrite (Htot o id c _ H S3), Et. done.
  - intros k b i t H Hv.
    assert (Hex : exists o id c, t = office_type o /\ candidates o (governance D) !! id = Some c /\ cand_vote_id c = i)
      by (apply Hacc in H as [[-> ->]|[_ H]]; [by apply Hvt|by apply (go_vote _ G k b i t)]).
    destruct Hex as (o & id & c & Et & H1 & E1). exists o, id, (f o c). split; [done|].
    split; [by apply Hpost|]. by destruct (Hf o c) as (_ & -> & _).
  - intros k b o H Hfz.
    assert (Hex : exists id c, candidates o (governance D) !! id = Some c /\ cand_account c = k).
    { apply Hacc in H as [[-> ->]|[_ H]]; [|by apply (go_freeze _ G k b o)]. rewrite Hfr in Hfz. by apply (go_freeze _ G acc a o). }
    destruct Hex as (id & c & H1 & E1). exists id, (f o c). split; [by apply Hpost|]. by destruct (Hf o c) as (-> & _).
  - intros o1 o2 id1 id2 c1 c2 H1 H2 E. apply Hpre in H1 as (e1 & H1 & ->), H2 as (e2 & H2 & ->).
    destruct (Hf o1 e1) as (_ & E1 & _), (Hf o2 e2) as (_ & E2 & _). apply (go_unique _ G _ _ _ _ _ _ H1 H2). congruence.
  - intros o id c' H. apply Hpre in H as (c & H & ->). destruct (Hf o c) as (_ & -> & _). rewrite Enc, Ev.
    by apply (go_fresh _ G o id c).
  - intros k Hk. rewrite EA in Hk. apply lookup_insert_None in Hk as [Hk Hne].
    fold (balance_of k R). rewrite Hbal by done. by apply (go_nobody _ G).
Qed.

Lemma lock_votes_ok con acc lock V a d d0 fv a' d' :
  gov_ok (put_account acc a d) -> check_votes lock V d0 = Ok tt -> 0 <= lock.1 -> lock.1 <> vote_noone ->
  lock_votes con acc lock V a d = Ok (fv, a', d') -> gov_ok (put_account acc (set_votes fv a') d').
Proof.
  intros G Hck H0 Hn H. destruct (check_votes_spec _ _ _ Hck H0 Hn) as (o & Et & Eo & Hcore & HV0 & HV).
  unfold lock_votes in H. apply rbind_ok in H as (u0 & _ & H). apply rbind_ok in H as ([[fv1 a2] d2] & Hin & H).
  apply rbind_ok in H as (u & Hbal & [= <- <- <-]).
  destruct (Z.eqb_spec lock.1 vote_noone) as [|_]; [done|]. cbn [negb] in Hin. rewrite Eo in Hin.
  apply rbind_ok in Hin as ([[[old temp] a1] d1] & Hr & Hin). apply rbind_ok in Hin as ([fv2 d3] & Hv & [= <- <- <-]).
  unfold verify_account_votes in Hv. apply rbind_ok in Hv as (d4 & Hm & [= <- <-]).
  assert (HD : accounts (put_account acc a d) !! acc = Some a) by apply lookup_insert_eq.
  destruct (go_account _ G _ _ HD) as [Hao _].
  assert (Hco : core_only (lock_of o a)) by (destruct (ao_core _ _ _ Hao) as (? & ? & ? & ?); by destruct o).
  destruct (relock_spec _ _ _ _ _ _ _ _ _ Hr Hco Hcore) as (Ev & Elk & Eold & Etemp & Eg & Hoth).
  destruct (view_fields _ _ Ev) as (Evo & Efr & Elo & Est & _). rewrite Evo in Hm |- *.
  change (modify_candidates con (change_of acc lock.1 lock.2 old temp V (votes a))
    (sort_by (fun a b => a.1 <=? b.1) (map_to_list (affected_by lock.1 V (votes a)))) d1 = Ok d4) in Hm.
  change (V ∪ _) with (final_votes lock.1 V (votes a)).
  set (lk := if amount lock.2 =? 0 then None else Some lock.2) in *. rewrite Et in *.
  assert (U : unique_ids d1) by (unfold unique_ids; rewrite Eg; exact (go_unique _ G)).
  destruct (modify_candidates_spec _ _ _ _ _ Hm U (affected_nodup _ _ _)) as ((Ac & Bc & Nc & Vc & Cc) & Hnm & Hcm).
  assert (Hbb : forall k, balance_of k d4 = balance_of k d1) by (intros k; unfold balance_of, get_balance; by rewrite Bc).
  set (A := set_votes (final_votes (office_type o) V (votes a)) (set_lock o lk a1)).
  set (R := put_account acc A (put_account acc (set_lock o lk a1) d4)).
  assert (HAok : account_ok acc R A).
  { eapply voting_account_ok with (D := put_account acc a d) (bal := balance_of acc R);
      [exact Hao|done|exact Ev|done|exact Elk| |done|done|exact HV].
    pose proof (assert_balance_inv _ _ _ _ _ Hbal Hcore (lookup_insert_eq _ _ _)) as Hc. by destruct o. }
  assert (Hone : forall i x oc id c, affected_by (office_type o) V (votes a) !! i = Some x ->
    candidates oc (governance d) !! id = Some c -> cand_vote_id c = i -> x = office_type oc).
  { intros i x oc id c Hx Hc Ei. destruct (Hnm i x) as (o' & id' & c' & -> & Hc' & E').
    { apply sort_by_elem, elem_of_map_to_list. done. }
    rewrite Eg in Hc'. destruct (go_unique _ G oc o' id id' c c' Hc Hc') as [-> _]; [congruence|done]. }
  eapply (gov_ok_update (put_account acc a d) R acc a A
    (fun o' c => if decide (is_Some (affected_by (office_type o) V (votes a) !! cand_vote_id c))
       then modify_candidate (is_concerned con (cand_vote_id c))
              (change_of acc (office_type o) lock.2 old temp V (votes a)) c else c) G HD).
  - apply map_eq. intros k. unfold R. cbn [accounts put_account set_accounts].
    destruct (decide (k = acc)) as [->|Hk]; [by rewrite !lookup_insert_eq|].
    rewrite !lookup_insert_ne by done. rewrite Ac. by apply Hoth.
  - intros k Hk. transitivity (balance_of k d4); [done|]. rewrite Hbb. by apply Hoth.
  - exact HAok.
  - intros o'. rewrite <- Efr. by destruct o, o'.
  - intros o'. rewrite <- Est. by destruct o, o'.
  - cbn. by rewrite Nc, Eg.
  - cbn. by rewrite Vc, Eg.
  - intros o'. cbn. by rewrite Cc, Eg.
  - intros o' id. cbn [R put_account set_accounts governance]. rewrite Hcm, Eg.
    destruct (candidates o' (governance d) !! id) as [c|]; [|done]. cbn. f_equal.
    apply decide_ext. apply affected_keys.
  - intros o' c. case_decide; [apply modify_candidate_same|done].
  - intros i t Hi. cbn [A votes set_votes] in Hi. rewrite final_lookup in Hi.
    destruct (V !! i) as [x|] eqn:EV.
    + injection Hi as ->. destruct (Hnm i t) as (o' & id' & c' & -> & Hc' & E');
        [|rewrite Eg in Hc'; by exists o', id', c'].
      apply sort_by_elem, elem_of_map_to_list. by rewrite affected_lookup, EV.
    + destruct (votes a !! i) as [y|] eqn:EW; [|done]. destruct (decide (y = office_type o)); [done|].
      injection Hi as ->. by apply (go_vote _ G acc a i t HD).
  - intros o' id c T Hc HT. unfold support. rewrite app_decide. change (votes A) with (final_votes (office_type o) V (votes a)).
    apply (vote_counted o o' acc lock.2 old temp V (votes a) (is_concerned con (cand_vote_id c)) c T).
    + intros x Hx.
      assert (Hax : affected_by (office_type o) V (votes a) !! cand_vote_id c = Some x) by (by rewrite affected_lookup, Hx).
      pose proof (Hone _ _ _ _ _ Hax Hc eq_refl) as ->. split; [done|]. by rewrite (HV _ _ Hx).
    + intros x Hx. destruct (go_vote _ G acc a _ _ HD Hx) as (o2 & id2 & c2 & -> & Hc2 & E2).
      by destruct (go_unique _ G o2 o' id2 id c2 c Hc2 Hc E2) as [-> _].
    + intros Hne. cbn [A]. transitivity (lock_of o' a1); [|apply Elo]. unfold A. by destruct o, o'.
    + intros ->. split; [|split].
      * transitivity (opt_amount lk); [by unfold A; destruct o|]. unfold lk. destruct (Z.eqb_spec (amount lock.2) 0); cbn; lia.
      * done.
      * intros Hw. destruct (lock_of o a) as [x|] eqn:El; [by apply Etemp|]. by apply (ao_named _ _ _ Hao o _ El) in Hw.
    + done.
Qed.

(** ** The other operations *)

(** Fields elections do not look at may change. *)
Lemma gov_ok_view k a b d : gov_ok (put_account k a d) -> election_view b = election_view a ->
  locked_total b = locked_total a -> gov_ok (put_account k b d).
Proof.
  intros G Ev El. destruct (view_fields _ _ Ev) as (Evo & Efr & Elo & Est & Esum).
  assert (HD : accounts (put_account k a d) !! k = Some a) by apply lookup_insert_eq.
  destruct (go_account _ G _ _ HD) as [[Hc Hs Hv Hn] _].
  assert (Elk : locked_of b CORE = locked_of a CORE) by (unfold locked_of; by rewrite El).
  eapply (gov_ok_update _ (put_account k b d) k a b (fun _ c => c) G HD); try done.
  - cbn [put_account set_accounts accounts]. by rewrite insert_insert_eq.
  - split.
    + unfold election_view in Ev. injection Ev as E1 E2 E3 E4 E5 _ _. by rewrite E2, E3, E4, E5.
    + by rewrite Elk, Esum.
    + rewrite Elk. exact Hv.
    + intros o i. rewrite Elo, Evo. apply Hn.
  - intros o id. cbn. by rewrite option_fmap_id.
  - intros i t. rewrite Evo. by apply (go_vote _ G k a).
  - intros o id c T Hc' HT. rewrite HT. f_equal. unfold support. rewrite Evo, Elo. lia.
Qed.

Lemma gov_ok_frame d d' : gov_ok d -> accounts d' = accounts d -> account_balances d' = account_balances d ->
  next_account (governance d') = next_account (governance d) ->
  next_available_vote_id (governance d') = next_available_vote_id (governance d) ->
  (forall o, next_candidate o (governance d') = next_candidate o (governance d)
     /\ candidates o (governance d') = candidates o (governance d)) -> gov_ok d'.
Proof.
  intros G EA EB EN EV EC.
  assert (Hc : forall o, candidates o (governance d') = candidates o (governance d)) by apply EC.
  split; intros *; rewrite ?Hc, ?EA.
  - intros H. destruct (go_account _ G _ _ H) as [Hok ?]. rewrite EN. split; [|done].
    eapply account_ok_balance; [|exact Hok]. unfold balance_of, get_balance. by rewrite EB.
  - intros H. destruct (go_candidate _ G _ _ _ H) as (a & Ha & [? ? Ht]). exists a. split; [done|].
    split; [done|done|by rewrite EA].
  - intros H Hv. destruct (go_vote _ G _ _ _ _ H Hv) as (o & id & c & H1). exists o, id, c. by rewrite Hc.
  - intros H Hf. by apply (go_freeze _ G _ _ _ H Hf).
  - apply (go_unique _ G).
  - intros H. destruct (EC o) as [-> _]. rewrite EV. by apply (go_fresh _ G).
  - unfold get_balance. rewrite EB. apply (go_nobody _ G).
Qed.

(** A candidate is registered or changes its status, and its account's frozen units follow. *)
Lemma gov_ok_office D R o id c' acc a A :
  gov_ok D -> accounts D !! acc = Some a -> accounts R = <[acc := A]> (accounts D) ->
  account_balances R = account_balances D -> account_ok acc R A ->
  votes A = votes a -> (forall o', lock_of o' A = lock_of o' a) ->
  (forall o', o' <> o -> freeze_of o' A = freeze_of o' a /\ status_of o' A = status_of o' a) ->
  (forall o', candidates o' (governance R)
     = if decide (o' = o) then <[id := c']> (candidates o' (governance D)) else candidates o' (governance D)) ->
  cand_account c' = acc -> status_of o A = Some (id, work_status c') ->
  (work_status c' = false -> freeze_of o A = None) ->
  total_votes c' = wrap64 (tally o (cand_vote_id c') (freeze_of o A) (accounts D)) ->
  (forall c, candidates o (governance D) !! id = Some c -> cand_vote_id c = cand_vote_id c' /\ cand_account c = acc) ->
  (forall id2 c2, candidates o (governance D) !! id2 = Some c2 -> id2 <> id -> cand_account c2 <> acc) ->
  (forall o2 id2 c2, candidates o2 (governance D) !! id2 = Some c2 -> (o2, id2) <> (o, id) ->
     cand_vote_id c2 <> cand_vote_id c') ->
  next_account (governance R) = next_account (governance D) ->
  (forall o', next_candidate o' (governance D) <= next_candidate o' (governance R)) ->
  next_available_vote_id (governance D) <= next_available_vote_id (governance R) ->
  id < next_candidate o (governance R) -> cand_vote_id c' < next_available_vote_id (governance R) ->
  gov_ok R.
Proof.
  intros G Ha EA EB HA Evo Elo Hoth EC Eac Est Hid Htot Hold Hac Hvi En Enc Env Hlt Hltv.
  assert (Hsup : forall o' i, support o' i A = support o' i a) by (intros o' i; unfold support; by rewrite Evo, Elo).
  assert (Htal : forall o' i own, tally o' i own (accounts R) = tally o' i own (accounts D))
    by (intros o' i own; rewrite EA, (tally_insert _ _ _ _ a) by done; rewrite Hsup; lia).
  assert (Hpre : forall o' id2 c2, candidates o' (governance R) !! id2 = Some c2 ->
    ((o', id2) = (o, id) /\ c2 = c') \/ ((o', id2) <> (o, id) /\ candidates o' (governance D) !! id2 = Some c2)).
  { intros o' id2 c2 H. rewrite EC in H. destruct (decide (o' = o)) as [->|Hne]; [|right; split; [congruence|done]].
    apply lookup_insert_Some in H as [[<- <-]|[Hne H]]; [by left|right; split; [congruence|done]]. }
  assert (Hpost : forall o' id2 c2, candidates o' (governance D) !! id2 = Some c2 -> exists c3,
    candidates o' (governance R) !! id2 = Some c3 /\ cand_vote_id c3 = cand_vote_id c2 /\ cand_account c3 = cand_account c2).
  { intros o' id2 c2 H. rewrite EC. destruct (decide (o' = o)) as [->|]; [|by exists c2].
    destruct (decide (id2 = id)) as [->|]; [|exists c2; by rewrite lookup_insert_ne].
    exists c'. rewrite lookup_insert_eq. destruct (Hold _ H) as [-> ->]. done. }
  assert (Hacc : forall k b, accounts R !! k = Some b ->
    (k = acc /\ b = A) \/ (k <> acc /\ accounts D !! k = Some b)).
  { intros k b H. rewrite EA in H. apply lookup_insert_Some in H as [[<- <-]|[? H]]; [by left|by right]. }
  split.
  - intros k b H. rewrite En. apply Hacc in H as [[-> ->]|[Hk H]]; [split; [done|apply (go_account _ G _ _ Ha)]|].
    destruct (go_account _ G _ _ H) as [Hok ?]. split; [|done]. eapply account_ok_balance; [|exact Hok].
    unfold balance_of, get_balance. by rewrite EB.
  - intros o' id2 c2 H. apply Hpre in H as [[[= -> ->] ->]|[Hne H]].
    + exists A. rewrite Eac, EA, lookup_insert_eq. split; [done|]. split; [done|done|]. by rewrite Htal.
    + destruct (go_candidate _ G _ _ _ H) as (b & Hb & [S1 S2 S3]). destruct (decide (cand_account c2 = acc)) as [E|Hn].
      * exists A. rewrite E in Hb. assert (b = a) as -> by congruence. rewrite E, EA, lookup_insert_eq.
        split; [done|]. destruct (decide (o' = o)) as [->|Ho]; [|].
        { exfalso. apply (Hac _ _ H); [congruence|done]. }
        destruct (Hoth o' Ho) as [E1 E2]. split; rewrite ?E1, ?E2, ?Htal; done.
      * exists b. rewrite EA, lookup_insert_ne by done. split; [done|]. split; [done|done|by rewrite Htal].
  - intros k b i t H Hv.
    assert (Hex : exists o2 id2 c2, t = office_type o2 /\ candidates o2 (governance D) !! id2 = Some c2 /\ cand_vote_id c2 = i).
    { apply Hacc in H as [[-> ->]|[_ H]]; [rewrite Evo in Hv; by apply (go_vote _ G acc a)|by apply (go_vote _ G k b)]. }
    destruct Hex as (o2 & id2 & c2 & -> & H2 & <-). destruct (Hpost _ _ _ H2) as (c3 & H3 & E3 & _). by exists o2, id2, c3.
  - intros k b o' H Hf.
    destruct (decide ((k, o') = (acc, o))) as [[= -> ->]|Hne].
    { exists id, c'. split; [by rewrite EC, decide_True, lookup_insert_eq|done]. }
    assert (Hex : exists id2 c2, candidates o' (governance D) !! id2 = Some c2 /\ cand_account c2 = k).
    { apply Hacc in H as [[-> ->]|[_ H]]; [|by apply (go_freeze _ G k b o')].
      destruct (Hoth o' ltac:(congruence)) as [E _]. rewrite E in Hf. by apply (go_freeze _ G acc a o'). }
    destruct Hex as (id2 & c2 & H2 & <-). destruct (Hpost _ _ _ H2) as (c3 & H3 & _ & E3). by exists id2, c3.
  - intros o1 o2 id1 id2 c1 c2 H1 H2 E. apply Hpre in H1 as [[[= -> ->] ->]|[N1 H1]], H2 as [[[= -> ->] ->]|[N2 H2]].
    + done.
    + exfalso. by apply (Hvi _ _ _ H2 N2).
    + exfalso. by apply (Hvi _ _ _ H1 N1).
    + by apply (go_unique _ G _ _ _ _ _ _ H1 H2).
  - intros o' id2 c2 H. apply Hpre in H as [[[= -> ->] ->]|[_ H]]; [done|].
    destruct (go_fresh _ G _ _ _ H). specialize (Enc o'). lia.
  - intros k Hk. rewrite EA in Hk. apply lookup_insert_None in Hk as [Hk _].
    unfold get_balance. rewrite EB. by apply (go_nobody _ G).
Qed.

(** No account votes for an id that was not given out. *)
Lemma fresh_tally o i own d : gov_ok d -> next_available_vote_id (governance d) <= i ->
  tally o i own (accounts d) = opt_amount own.
Proof.
  intros G Hi. unfold tally. enough (E : sum_map (fun _ a => support o i a) (accounts d) = 0) by lia.
  unfold sum_map. transitivity (sumZ (fun _ : Z * account_object => 0) (map_to_list (accounts d))).
  - apply sumZ_ext. intros [k a] Hin. apply elem_of_map_to_list in Hin. unfold support. cbn.
    case_decide as Hv; [|done]. destruct (go_vote _ G _ _ _ _ Hin Hv) as (o' & id & c & _ & Hc & E).
    apply (go_fresh _ G) in Hc. lia.
  - induction (map_to_list _); cbn; lia.
Qed.

Lemma candidate_is_new_spec c m id c2 : candidate_is_new c m = true -> m !! id = Some c2 ->
  cand_account c2 <> cand_account c /\ cand_vote_id c2 <> cand_vote_id c.
Proof.
  unfold candidate_is_new. intros H Hc. rewrite forallb_forall in H.
  specialize (H (id, c2)). rewrite <- list_elem_of_In, elem_of_map_to_list in H. specialize (H Hc).
  cbn in H. bool_to_prop. done.
Qed.

(** The frozen units of one office change. *)
Lemma office_account_ok k d R a A o x : account_ok k d a -> votes A = votes a ->
  (forall o', lock_of o' A = lock_of o' a) ->
  (forall o', freeze_of o' A = if decide (o' = o) then x else freeze_of o' a) -> core_only x ->
  locked_of A CORE = locked_of a CORE + opt_amount x - opt_amount (freeze_of o a) ->
  0 <= locked_of A CORE <= balance_of k R -> account_ok k R A.
Proof.
  intros [(C1 & C2 & C3 & C4) Hs _ Hn] Hvo Hlo Hfr Hx Hlk Hcov.
  pose proof (Hfr Witness) as F1. pose proof (Hfr Committee) as F2. pose proof (Hlo Witness) as L1.
  pose proof (Hlo Committee) as L2. cbn [freeze_of lock_of] in F1, F2, L1, L2. split.
  - rewrite F1, F2, L1, L2. destruct o; done.
  - rewrite Hlk, Hs. unfold lock_sum. rewrite F1, F2, L1, L2. destruct o; cbn [freeze_of]; [rewrite decide_True, decide_False by done|rewrite decide_False, decide_True by done]; lia.
  - exact Hcov.
  - intros o' i. rewrite Hlo, Hvo. apply Hn.
Qed.

Lemma candidate_create_ok o nmt op d id d' : gov_ok d ->
  candidate_create_do_apply o nmt op d = Ok (id, d') -> 0 <= next_available_vote_id (governance d) < 2 ^ 24 ->
  gov_ok d' /\ next_available_vote_id (governance d') = next_available_vote_id (governance d) + 1.
Proof.
  intros G H Hv. unfold candidate_create_do_apply, get_next_vote_id in H. cbv zeta in H.
  set (n := next_available_vote_id (governance d)) in *. set (freeze := candidate_freeze o _) in *.
  rewrite Z.mod_small, wrap32_small in H by lia.
  set (g := set_next_available_vote_id (n + 1) (governance d)) in *.
  assert (Hcg : forall o', candidates o' g = candidates o' (governance d)) by (by intros []).
  assert (Hng : forall o', next_candidate o' g = next_candidate o' (governance d)) by (by intros []).
  set (c := mk_candidate _ _ _ _ _ _ _ _) in *. rewrite Hcg, Hng in H. set (nid := next_candidate o (governance d)) in *.
  apply rbind_ok in H as (u & Hnew & H). destruct (candidate_is_new c (candidates o (governance d))) eqn:En; [|done].
  apply rbind_ok in H as (a & Ha & H). unfold get_account in Ha.
  set (d1 := put_candidate o nid c _) in *. assert (EA : accounts d1 = accounts d) by (unfold d1; by destruct o).
  rewrite EA in Ha. destruct (accounts d !! cc_account op) as [a0|] eqn:Hacc; [|done]. injection Ha as ->.
  apply rbind_ok in H as (a1 & Hl & H). apply add_locked_inv in Hl. cbn [locked_of] in Hl.
  apply rbind_ok in H as (u1 & _ & H). apply rbind_ok in H as (u2 & Hb & [= <- <-]).
  pose proof (assert_balance_inv _ _ _ _ _ Hb eq_refl (lookup_insert_eq _ _ _)) as Hcov.
  assert (Hno : freeze_of o a = None).
  { destruct (freeze_of o a) eqn:Ef; [|done]. exfalso.
    destruct (go_freeze _ G _ _ o Hacc) as (id2 & c2 & H2 & E2); [by rewrite Ef|].
    by destruct (candidate_is_new_spec _ _ _ _ En H2). }
  destruct (go_account _ G _ _ Hacc) as [Hao _].
  assert (Hview : forall o', lock_of o' a1 = lock_of o' a
    /\ freeze_of o' a1 = (if decide (o' = o) then Some (mk_asset freeze CORE) else freeze_of o' a)
    /\ status_of o' a1 = (if decide (o' = o) then Some (nid, true) else status_of o' a)) by (intros o'; subst a1; by destruct o, o').
  assert (Hlk : locked_of a1 CORE = locked_of a CORE + freeze) by (subst a1; rewrite locked_of_set, decide_True by done; by destruct o).
  assert (Hvo : votes a1 = votes a) by (subst a1; by destruct o).
  split; [|unfold d1; by destruct o].
  eapply (gov_ok_office d _ o nid c (cc_account op) a a1 G Hacc).
  - cbn [put_account set_accounts accounts]. by rewrite EA.
  - unfold d1. by destruct o.
  - eapply (office_account_ok _ d _ a a1 o); [exact Hao|done|apply Hview|apply Hview|by intros ? [= <-]| |exact Hcov].
    rewrite Hlk, Hno. cbn. lia.
  - done.
  - intros o'. apply Hview.
  - intros o' Ho. destruct (Hview o') as (_ & -> & ->). by rewrite !decide_False by done.
  - intros o'. unfold d1, put_account. cbn [governance set_accounts]. rewrite candidates_put.
    cbn [governance set_governance]. destruct o, o'; done.
  - done.
  - destruct (Hview o) as (_ & _ & ->). by rewrite decide_True by done.
  - done.
  - cbn [cand_vote_id c total_votes]. destruct (Hview o) as (_ & -> & _). rewrite decide_True by done.
    rewrite fresh_tally by (done || (unfold n; lia)). done.
  - intros c2 H2. apply (go_fresh _ G) in H2. lia.
  - intros id2 c2 H2 _. by destruct (candidate_is_new_spec _ _ _ _ En H2).
  - intros o2 id2 c2 H2 _. apply (go_fresh _ G) in H2. cbn. fold n in H2. lia.
  - unfold d1. by destruct o.
  - intros o'. unfold d1, nid. destruct o, o'; cbn; lia.
  - unfold d1. destruct o; cbn; fold n; lia.
  - unfold d1. destruct o; cbn; lia.
  - unfold d1. destruct o; cbn; lia.
Qed.

(** The lock follows the status of the candidate. *)
Lemma change_lock_spec o freeze on a A : change_lock o freeze on a = Ok A ->
  core_only (freeze_of o a) -> (on = true -> freeze_of o a = None) ->
  exists x, core_only x /\ votes A = votes a /\ (forall o', lock_of o' A = lock_of o' a)
  /\ (forall o', freeze_of o' A = if decide (o' = o) then x else freeze_of o' a)
  /\ (forall o', o' <> o -> status_of o' A = status_of o' a)
  /\ (forall st, status_of o a = Some st -> status_of o A = Some (st.1, on))
  /\ locked_of A CORE = locked_of a CORE + opt_amount x - opt_amount (freeze_of o a)
  /\ x = (if on then Some (mk_asset freeze CORE) else None).
Proof.
  unfold change_lock. intros H Hc Hn. apply rbind_ok in H as (st & Hst & H). unfold get_or in Hst.
  destruct (status_of o a) as [st'|] eqn:Est; [|done]. injection Hst as ->.
  exists (if on then Some (mk_asset freeze CORE) else None). rewrite freeze_status in H.
  destruct on; cbn [negb] in H; [rewrite Hn in H by done|destruct (freeze_of o a) as [f|] eqn:Ef].
  - apply rbind_ok in H as (u & _ & H). apply add_locked_inv in H as ->.
    split; [by intros ? [= <-]|]. split; [by destruct o|]. split; [intros []; by destruct o|].
    split; [intros []; by destruct o|]. split; [intros [] ?; by destruct o|].
    split; [intros ? [= <-]; by destruct o|]. split; [|done].
    rewrite locked_of_set, decide_True, Hn by done. destruct o; unfold locked_of; cbn; lia.
  - apply rbind_ok in H as (pos & _ & H). apply rbind_ok in H as (u & _ & H). apply rbind_ok in H as (a1 & Hs & [= <-]).
    apply sub_locked_inv in Hs as ->.
    split; [done|]. split; [by destruct o|]. split; [intros []; by destruct o|].
    split; [intros []; by destruct o|]. split; [intros [] ?; by destruct o|].
    split; [intros ? [= <-]; by destruct o|]. split; [|done].
    transitivity (locked_of a CORE - amount f); [|cbn; lia].
    destruct o; unfold locked_of; cbn; by rewrite lookup_insert_eq.
  - injection H as <-. split; [done|]. split; [by destruct o|]. split; [intros []; by destruct o|].
    split; [intros []; destruct o; by rewrite ?Ef|]. split; [intros [] ?; by destruct o|].
    split; [intros ? [= <-]; by destruct o|]. split; [|done]. destruct o; unfold locked_of; cbn; lia.
Qed.

Lemma candidate_update_ok o m nmt op d d' : gov_ok d -> candidate_update_do_evaluate o m op d = Ok tt ->
  candidate_update_do_apply o nmt op d = Ok d' -> gov_ok d'.
Proof.
  intros G He H. unfold candidate_update_do_apply, candidate_update_do_evaluate, get_candidate in *.
  destruct (candidates o (governance d) !! cu_candidate op) as [c|] eqn:Hc; [|done]. cbn [get_or rbind] in H, He.
  destruct (Z.eqb_spec (cand_account c) (cu_account op)) as [Eac|]; [|done]. clear He.
  destruct (go_candidate _ G _ _ _ Hc) as (a & Ha & [S1 S2 S3]). rewrite Eac in Ha.
  unfold get_account in H. rewrite Ha in H. cbn [get_or rbind] in H. apply rbind_ok in H as (u & _ & H).
  set (freeze := candidate_freeze o _) in *. apply rbind_ok in H as (v & Hv & H). set (c' := mk_candidate _ _ _ _ _ _ _ _) in *.
  apply rbind_ok in H as (A & HA & H). apply rbind_ok in H as (u1 & Hb & [= <-]).
  destruct (go_account _ G _ _ Ha) as [Hao _].
  assert (Hcore : core_only (freeze_of o a)) by (destruct (ao_core _ _ _ Hao) as (? & ? & ? & ?); by destruct o).
  pose proof (assert_balance_inv _ _ _ _ _ Hb eq_refl (lookup_insert_eq _ _ _)) as Hcov.
  assert (Hx : exists x, core_only x /\ votes A = votes a /\ (forall o', lock_of o' A = lock_of o' a)
    /\ (forall o', freeze_of o' A = if decide (o' = o) then x else freeze_of o' a)
    /\ (forall o', o' <> o -> status_of o' A = status_of o' a)
    /\ status_of o A = Some (cu_candidate op, work_status c')
    /\ locked_of A CORE = locked_of a CORE + opt_amount x - opt_amount (freeze_of o a)
    /\ (work_status c' = false -> x = None)
    /\ v = wrap64 (opt_amount x + sum_map (fun _ a => support o (cand_vote_id c) a) (accounts d))).
  { cbn [c' work_status]. unfold tally in S3.
    destruct (eqb (work_status c) (cu_work_status op)) eqn:Ew; cbn [negb] in *.
    - injection Hv as <-. injection HA as <-. exists (freeze_of o a). repeat (split; [done|]).
      split; [intros o'; by destruct (decide (o' = o)) as [->|]|]. repeat (split; [done|]). split; [lia|done].
    - apply eqb_false_iff in Ew. destruct (change_lock_spec _ _ _ _ _ HA Hcore) as (x & H1 & H2 & H3 & H4 & H5 & H6 & H7 & Ex).
      { intros Eo. apply S2. destruct (work_status c); congruence. }
      exists x. repeat (split; [done|]). split; [exact (H6 _ S1)|]. split; [done|].
      split; [intros E; by rewrite Ex, E|]. unfold change_votes in Hv. destruct (cu_work_status op).
      + injection Hv as <-. rewrite S3, wrap64_add_wrap, Ex, S2 by (by destruct (work_status c)). f_equal. cbn. lia.
      + apply rbind_ok in Hv as (f & Hf & [= <-]). unfold get_or in Hf. destruct (freeze_of o a) as [f'|]; [|done].
        injection Hf as ->. rewrite S3, wrap64_sub_wrap, Ex. f_equal. cbn. lia. }
  destruct Hx as (x & X1 & X2 & X3 & X4 & X5 & X6 & X7 & X8 & X9).
  assert (Hfo : freeze_of o A = x) by (by rewrite X4, decide_True).
  eapply (gov_ok_office d _ o (cu_candidate op) c' (cu_account op) a A G Ha).
  - cbn [put_account set_accounts accounts]. by destruct o.
  - by destruct o.
  - eapply (office_account_ok _ d _ a A o x); [exact Hao|done|done|done|done|done|exact Hcov].
  - done.
  - done.
  - intros o' Ho. rewrite X4, decide_False by done. split; [done|by apply X5].
  - intros o'. cbn [put_account set_accounts governance]. apply candidates_put.
  - done.
  - done.
  - intros E. rewrite Hfo. by apply X8.
  - cbn [c' total_votes cand_vote_id]. unfold tally. by rewrite Hfo.
  - intros c2 H2. rewrite Hc in H2. by injection H2 as <-.
  - intros id2 c2 H2 Hne E. destruct (go_candidate _ G _ _ _ H2) as (a2 & Ha2 & [T1 _ _]). rewrite E in Ha2.
    assert (a2 = a) as -> by congruence. rewrite S1 in T1. injection T1; congruence.
  - intros o2 id2 c2 H2 Hne E. destruct (go_unique _ G _ _ _ _ _ _ H2 Hc E). congruence.
  - by destruct o.
  - intros o'. by destruct o, o'.
  - by destruct o.
  - destruct (go_fresh _ G _ _ _ Hc) as [L _]. by destruct o.
  - destruct (go_fresh _ G _ _ _ Hc) as [_ L]. by destruct o.
Qed.

(** A new account without votes. *)
Lemma new_account_ok d R a : gov_ok d -> let k := next_account (governance d) in
  accounts R = <[k := a]> (accounts d) -> account_balances R = account_balances d ->
  votes a = ∅ -> lock_sum a = 0 -> locked_total a = ∅ -> (forall o, freeze_of o a = None) ->
  (forall o, lock_of o a = None) ->
  next_account (governance R) = k + 1 ->
  next_available_vote_id (governance R) = next_available_vote_id (governance d) ->
  (forall o, next_candidate o (governance R) = next_candidate o (governance d)
     /\ candidates o (governance R) = candidates o (governance d)) -> gov_ok R.
Proof.
  intros G k EA EB Hv Hs Hl Hf Hlo EN EV EC.
  assert (Hk : accounts d !! k = None).
  { destruct (accounts d !! k) as [b|] eqn:E; [|done]. apply (go_account _ G) in E as [_ ?]. unfold k in *. lia. }
  assert (Hc : forall o, candidates o (governance R) = candidates o (governance d)) by apply EC.
  assert (Htal : forall o i own, tally o i own (accounts R) = tally o i own (accounts d)).
  { intros o i own. rewrite EA. unfold tally. rewrite sum_map_insert_new by done. unfold support at 1.
    rewrite Hv, lookup_empty, decide_False by done. lia. }
  assert (Hbal : forall j, balance_of j R = balance_of j d) by (intros j; unfold balance_of, get_balance; by rewrite EB).
  assert (Hlk : locked_of a CORE = 0) by (unfold locked_of; by rewrite Hl, lookup_empty).
  assert (Hb : 0 <= balance_of k d) by (by apply (go_nobody _ G)).
  split; intros *; rewrite ?Hc, ?EA.
  - intros H. rewrite EN. apply lookup_insert_Some in H as [[<- <-]|[Hne H]].
    + split; [|lia]. split; [|by rewrite Hlk|rewrite Hlk; fold (balance_of k R); rewrite Hbal; lia|].
      * pose proof (Hf Witness) as F1. pose proof (Hf Committee) as F2. pose proof (Hlo Witness) as L1.
        pose proof (Hlo Committee) as L2. cbn in F1, F2, L1, L2. by rewrite F1, F2, L1, L2.
      * intros o i _. by rewrite Hv, lookup_empty.
    + destruct (go_account _ G _ _ H) as [Hok ?]. split; [eapply account_ok_balance; [apply Hbal|done]|]. unfold k. lia.
  - intros H. destruct (go_candidate _ G _ _ _ H) as (b & Hb' & [? ? ?]). exists b. split.
    + rewrite lookup_insert_ne; [done|]. intros E. rewrite <- E in Hb'. congruence.
    + split; [done|done|by rewrite Htal].
  - intros H Hi. apply lookup_insert_Some in H as [[<- <-]|[_ H]]; [by rewrite Hv, lookup_empty in Hi|].
    destruct (go_vote _ G _ _ _ _ H Hi) as (o & id & c & H1). exists o, id, c. by rewrite Hc.
  - intros H [x Hx]. apply lookup_insert_Some in H as [[<- <-]|[_ H]]; [by rewrite Hf in Hx|].
    by apply (go_freeze _ G _ _ _ H).
  - apply (go_unique _ G).
  - intros H. destruct (EC o) as [-> _]. rewrite EV. by apply (go_fresh _ G).
  - intros H. apply lookup_insert_None in H as [H _]. fold (balance_of k0 R). rewrite Hbal. by apply (go_nobody _ G).
Qed.

Lemma scale_account_fee_frame g g' : scale_account_fee g = Ok g' ->
  next_account g' = next_account g /\ next_available_vote_id g' = next_available_vote_id g
  /\ forall o, next_candidate o g' = next_candidate o g /\ candidates o g' = candidates o g.
Proof.
  unfold scale_account_fee. intros H. case_if_in H; [done|]. case_if_in H; [case_if_in H; [done|]|];
    injection H as <-; (split; [done|]; split; [done|]; by intros []).
Qed.

Lemma account_create_ok op d id d' : gov_ok d -> account_create_do_apply op d = Ok (id, d') ->
  opt_votes (ac_options op) = ∅ ->
  gov_ok d' /\ next_available_vote_id (governance d') = next_available_vote_id (governance d).
Proof.
  intros G H Hv. unfold account_create_do_apply in H. apply rbind_ok in H as (u & _ & H).
  apply rbind_ok in H as (g & Hg & [= <- <-]).
  destruct (scale_account_fee_frame _ _ Hg) as (N1 & N2 & N3). rewrite Hv.
  set (g' := match ac_owner_special op, ac_active_special op with None, None => g | _, _ => _ end).
  assert (Hg' : next_account g' = next_account g /\ next_available_vote_id g' = next_available_vote_id g
    /\ forall o, next_candidate o g' = next_candidate o g /\ candidates o g' = candidates o g)
    by (unfold g'; destruct (ac_owner_special op), (ac_active_special op);
        (split; [done|]; split; [done|]; by intros [])).
  destruct Hg' as (M1 & M2 & M3). split; [|cbn; by rewrite M2, N2].
  eapply (new_account_ok d _ _ G); try done; cbn [governance set_governance].
  - by intros [].
  - by intros [].
  - by rewrite M1, N1.
  - by rewrite M2, N2.
  - intros o. destruct (M3 o) as [-> ->], (N3 o) as [-> ->]. by destruct o.
Qed.

(** An update that comes with a lock whenever it replaces the votes. *)
Definition counted_update (op : account_update_operation) : Prop :=
  match au_new_options op with
  | None => True
  | Some _ => exists lock, au_lock_with_vote op = Some lock /\ 0 <= lock.1 /\ lock.1 <> vote_noone
  end.

Lemma update_special_frame acc b b' d d' : update_special_index acc b b' d = Ok d' -> gov_ok d ->
  gov_ok d' /\ next_available_vote_id (governance d') = next_available_vote_id (governance d).
Proof.
  unfold update_special_index. intros H G. case_if_in H; [|case_if_in H].
  - apply rbind_ok in H as ([id x] & _ & [= <-]). split; [|done]. eapply (gov_ok_frame d); done.
  - injection H as <-. split; [|done]. eapply (gov_ok_frame d); done.
  - by injection H as <-.
Qed.

Lemma put_account_same k a d : accounts d !! k = Some a -> put_account k a d = d.
Proof. intros H. unfold put_account. rewrite insert_id by done. by destruct d. Qed.

Lemma lock_votes_next con acc lock V a d fv a' d' : lock_votes con acc lock V a d = Ok (fv, a', d') ->
  lock.1 <> vote_noone -> unique_ids d -> core_only (lock_of (if lock.1 =? witness then Witness else Committee) a) ->
  asset_id lock.2 = CORE ->
  next_available_vote_id (governance d') = next_available_vote_id (governance d).
Proof.
  unfold lock_votes. intros H Hn U Hc Hl. apply rbind_ok in H as (u0 & _ & H).
  apply rbind_ok in H as ([[fv1 a2] d2] & Hin & H). apply rbind_ok in H as (u & _ & [= <- <- <-]).
  destruct (Z.eqb_spec lock.1 vote_noone) as [|_]; [done|]. cbn [negb] in Hin.
  apply rbind_ok in Hin as ([[[old temp] a1] d1] & Hr & Hin). apply rbind_ok in Hin as ([fv2 d3] & Hv & [= <- <- <-]).
  unfold verify_account_votes in Hv. apply rbind_ok in Hv as (d4 & Hm & [= <- <-]).
  destruct (relock_spec _ _ _ _ _ _ _ _ _ Hr Hc Hl) as (_ & _ & _ & _ & Eg & _).
  destruct (modify_candidates_spec _ _ _ _ _ Hm) as ((_ & _ & _ & E & _) & _).
  - unfold unique_ids. by rewrite Eg.
  - apply affected_nodup.
  - cbn. by rewrite E, Eg.
Qed.

Lemma account_update_ok con op d d' : gov_ok d -> account_update_do_evaluate op d = Ok tt ->
  account_update_do_apply con op d = Ok d' -> counted_update op ->
  gov_ok d' /\ next_available_vote_id (governance d') = next_available_vote_id (governance d).
Proof.
  intros G He H Hcu. unfold account_update_do_apply in H. set (acc := au_account op) in *.
  unfold get_account in H. destruct (accounts d !! acc) as [a|] eqn:Ha; [|done]. cbn [get_or rbind] in H.
  set (a1 := apply_opt _ (au_active op) _) in H.
  assert (V1 : election_view a1 = election_view a /\ locked_total a1 = locked_total a)
    by (unfold a1; destruct (au_owner op), (au_active op); done).
  assert (G1 : gov_ok (put_account acc a1 d)).
  { eapply (gov_ok_view acc a a1 d); [by rewrite put_account_same|apply V1|apply V1]. }
  apply rbind_ok in H as ([a2 d2] & Hopt & H).
  assert (G2 : gov_ok (put_account acc a2 d2)
    /\ next_available_vote_id (governance d2) = next_available_vote_id (governance d)).
  { unfold counted_update in Hcu. destruct (au_new_options op) as [opts|] eqn:Eo; [|by injection Hopt as <- <-].
    destruct Hcu as (lock & El & L0 & Ln). rewrite El in Hopt.
    assert (Hck : check_votes lock (opt_votes opts) d = Ok tt).
    { unfold account_update_do_evaluate in He. rewrite Eo, El in He. skip_bind He.
      apply rbind_ok in He as ([] & Hck & _). exact Hck. }
    apply rbind_ok in Hopt as ([[fv a3] d3] & Hlv & [= <- <-]).
    destruct (check_votes_spec _ _ _ Hck L0 Ln) as (o & _ & Eof & Hcore & _).
    split.
    - eapply (gov_ok_view acc (set_votes fv a3)); [by eapply lock_votes_ok|done|done].
    - eapply lock_votes_next; [exact Hlv|done|exact (go_unique _ G)| |done]. rewrite Eof.
      destruct (go_account _ G1 _ _ (lookup_insert_eq _ _ _)) as [[Hc _ _ _] _].
      destruct Hc as (? & ? & ? & ?). by destruct o. }
  destruct G2 as [G2 E2]. set (a4 := apply_opt _ (au_active_special op) _) in H.
  assert (V4 : election_view a4 = election_view a2 /\ locked_total a4 = locked_total a2)
    by (unfold a4; destruct (au_owner_special op), (au_active_special op); done).
  destruct (update_special_frame _ _ _ _ _ H) as [G3 E3].
  - eapply (gov_ok_view acc a2); [exact G2|apply V4|apply V4].
  - split; [done|]. by rewrite E3.
Qed.

(** ** Sequences of election operations *)

Inductive election_op :=
| el_register (o : office) (op : candidate_create_operation)
| el_status (o : office) (op : candidate_update_operation)
| el_account_create (op : account_create_operation)
| el_account_update (op : account_update_operation).

(** The evaluators, for a node that records the supporters of [concerned]. *)
Definition run_election_op (concerned : gmap Z Z) (min_count next_maintenance_time : Z) (op : election_op)
    (d : database) : result database :=
  match op with
  | el_register o op =>
      let* _ := candidate_create_do_evaluate o op d in
      let* (_, d) := candidate_create_do_apply o next_maintenance_time op d in Ok d
  | el_status o op =>
      let* _ := candidate_update_do_evaluate o min_count op d in
      candidate_update_do_apply o next_maintenance_time op d
  | el_account_create op =>
      let* _ := account_create_do_evaluate op d in
      let* (_, d) := account_create_do_apply op d in Ok d
  | el_account_update op =>
      let* _ := account_update_do_evaluate op d in account_update_do_apply concerned op d
  end.

(** Operations with the maintenance time they see; one that fails changes nothing. *)
Definition apply_election_op (concerned : gmap Z Z) (min_count : Z) (d : database) (op : Z * election_op)
    : database :=
  match run_election_op concerned min_count op.1 op.2 d with Ok d' => d' | Err _ => d end.

(** Votes come with a lock. *)
Definition counted (op : election_op) : Prop :=
  match op with
  | el_account_create op => opt_votes (ac_options op) = ∅
  | el_account_update op => counted_update op
  | _ => True
  end.

Lemma run_election_op_ok con m nmt op d d' : gov_ok d -> counted op ->
  0 <= next_available_vote_id (governance d) < 2 ^ 24 -> run_election_op con m nmt op d = Ok d' ->
  gov_ok d' /\ next_available_vote_id (governance d) <= next_available_vote_id (governance d')
     <= next_available_vote_id (governance d) + 1.
Proof.
  intros G Hc Hn H. destruct op as [o op|o op|op|op]; cbn [run_election_op counted] in *.
  - apply rbind_ok in H as (u & _ & H). apply rbind_ok in H as ([id d1] & H & [= <-]).
    destruct (candidate_create_ok _ _ _ _ _ _ G H Hn). split; [done|lia].
  - apply rbind_ok in H as ([] & He & H). split; [by eapply candidate_update_ok|].
    unfold candidate_update_do_apply in H. res_inv. destruct o; cbn; lia.
  - apply rbind_ok in H as (u & _ & H). apply rbind_ok in H as ([id d1] & H & [= <-]).
    destruct (account_create_ok _ _ _ _ G H Hc). split; [done|lia].
  - apply rbind_ok in H as ([] & He & H). destruct (account_update_ok _ _ _ _ G He H Hc). split; [done|lia].
Qed.

Lemma apply_election_ops_ok con m ops : forall d, gov_ok d -> Forall (fun op => counted op.2) ops ->
  0 <= next_available_vote_id (governance d) ->
  next_available_vote_id (governance d) + Z.of_nat (length ops) <= 2 ^ 24 ->
  gov_ok (foldl (apply_election_op con m) d ops).
Proof.
  induction ops as [|[nmt op] ops IH]; intros d G Hc H0 Hn; [done|]. cbn [foldl].
  apply Forall_cons in Hc as [Hc Hcs]. cbn [length] in Hn. unfold apply_election_op at 2. cbn [fst snd] in *.
  destruct (run_election_op con m nmt op d) as [d'|e] eqn:E; [|apply IH; (done || lia)].
  destruct (run_election_op_ok _ _ _ _ _ _ G Hc ltac:(lia) E) as [G' Hn']. apply IH; (done || lia).
Qed.

(** The invariant holds before there are candidates and votes. *)
Lemma gov_ok_start d : (forall o, candidates o (governance d) = ∅) ->
  (forall k a, accounts d !! k = Some a -> k < next_account (governance d) /\ votes a = ∅
     /\ locked_of a CORE = 0 /\ (forall o, freeze_of o a = None /\ lock_of o a = None)) ->
  (forall k, 0 <= amount (get_balance k CORE d)) -> gov_ok d.
Proof.
  intros Hc Ha Hb. split; intros *; rewrite ?Hc, ?lookup_empty; try done.
  - intros H. destruct (Ha _ _ H) as (Hk & Hv & Hl & Hf). split; [|done].
    destruct (Hf Witness) as [F1 L1], (Hf Committee) as [F2 L2]. cbn in F1, F2, L1, L2. split.
    + by rewrite F1, F2, L1, L2.
    + rewrite Hl. unfold lock_sum. by rewrite F1, F2, L1, L2.
    + rewrite Hl. split; [done|apply Hb].
    + intros o i _. by rewrite Hv, lookup_empty.
  - intros H Hi. destruct (Ha _ _ H) as (_ & Hv & _). by rewrite Hv, lookup_empty in Hi.
  - intros H [x Hx]. destruct (Ha _ _ H) as (_ & _ & _ & Hf). by rewrite (proj1 (Hf o)) in Hx.
Qed.

(** ** Properties *)

(** C8: As long as every account update that replaces votes comes with a lock and accounts
    are created without votes, any sequence of registrations, status changes and account
    operations, failing ones included, keeps the vote totals right: the total of a
    candidate is what its account has frozen for the office plus what the accounts naming
    it have locked (modulo 2^64), and what an account has locked is the sum of its
    freezes and votes and is covered by its balance. *)
Theorem votes_counted (concerned : gmap Z Z) (min_count : Z) (ops : list (Z * election_op)) (d : database)
    (Hok : gov_ok d) (Hc : Forall (fun op => counted op.2) ops)
    (H0 : 0 <= next_available_vote_id (governance d))
    (Hn : next_available_vote_id (governance d) + Z.of_nat (length ops) <= 2 ^ 24) :
  let d' := foldl (apply_election_op concerned min_count) d ops in
  gov_ok d' /\
  (forall o id c, candidates o (governance d') !! id = Some c ->
     exists a, accounts d' !! cand_account c = Some a /\
       total_votes c = wrap64 (opt_amount (freeze_of o a)
         + sum_map (fun _ b => support o (cand_vote_id c) b) (accounts d'))) /\
  (forall k a, accounts d' !! k = Some a ->
     locked_of a CORE = lock_sum a /\ 0 <= locked_of a CORE <= amount (get_balance k CORE d')).
Proof.
  intros d'. pose proof (apply_election_ops_ok concerned min_count ops d Hok Hc H0 Hn) as G. fold d' in G.
  split; [done|]. split.
  - intros o id c H. destruct (go_candidate _ G _ _ _ H) as (a & Ha & [_ _ Ht]). by exists a.
  - intros k a H. destruct (go_account _ G _ _ H) as [[_ Hs Hcov _] _]. done.
Qed.

(** Accounts 7 and 8 are lifetime members with 1000 and 500 core units. *)
Definition demo_member (name : string) : account_object :=
  mk_account name 7 time_point_sec_maximum null_authority null_authority 0 ∅ ∅ None None None None [] None None
    None None None None None None.
Definition demo_parameters : chain_parameters :=
  mk_parameters 3 86400 3 1209600 2419200 11 11 10 86400 86400 1000 86400 50000 1000 4 7776000 100 200 3000 1000
    2000 500.
Definition demo_election : database :=
  set_governance (set_parameters demo_parameters (set_next_account 9 empty_governance))
    (set_account_balances {[ (7, CORE) := 1000; (8, CORE) := 500 ]}
       (set_accounts {[ 7 := demo_member "candidate"; 8 := demo_member "voter" ]} demo_ledger)).

Definition demo_vote (n : Z) (l : list Z) : account_update_operation :=
  mk_account_update (Some (witness, mk_asset n CORE)) 8 None None
    (Some (mk_account_options 0 (list_to_map ((fun i => (i, witness)) <$> l)))) None None.
Definition demo_election_ops : list (Z * election_op) :=
  [(1, el_register Witness (mk_candidate_create 7 "url" (Some 77)));
   (1, el_account_update (demo_vote 50 [0]));
   (1, el_account_update (demo_vote 20 [0]))].

Lemma demo_election_ok : gov_ok demo_election.
Proof.
  apply gov_ok_start; [by intros []| |].
  - intros k a H. cbn in H. apply lookup_insert_Some in H as [[<- <-]|[_ H]];
      [|apply lookup_singleton_Some in H as [<- <-]]; (split; [cbn; lia|]; split; [done|]; split; [done|]; by intros []).
  - intros k. rewrite get_balance_default. cbn. destruct (decide (k = 7)) as [->|]; [by rewrite lookup_insert_eq|].
    rewrite lookup_insert_ne by congruence. destruct (decide (k = 8)) as [->|]; [by rewrite lookup_singleton_eq|].
    by rewrite lookup_singleton_ne by congruence.
Qed.

(** The candidate froze 100 units and the voter locks 20 of them in the end. *)
Lemma votes_counted_witness :
  let d' := foldl (apply_election_op ∅ 1) demo_election demo_election_ops in
  exists c, witness_candidates (governance d') !! 0 = Some c /\ total_votes c = 120
  /\ forall a, accounts d' !! 8 = Some a -> locked_of a CORE = 20 /\ 20 <= amount (get_balance 8 CORE d').
Proof.
  intros d'.
  destruct (votes_counted ∅ 1 demo_election_ops demo_election demo_election_ok) as (_ & Hc & Ha).
  - repeat constructor; eexists; (split; [reflexivity|]); cbn; lia.
  - vm_compute. discriminate.
  - vm_compute. discriminate.
  - assert (E : witness_candidates (governance d') !! 0 <> None) by (vm_compute; discriminate).
    destruct (witness_candidates (governance d') !! 0) as [c|] eqn:Ec; [|done]. exists c. split; [done|].
    fold d' in Hc, Ha. split.
    + destruct (Hc Witness 0 c Ec) as (a & Haa & ->).
      assert (Hv : cand_vote_id c = 0 /\ cand_account c = 7).
      { assert (X : Some c = Some c) by done. rewrite <- Ec in X at 1. vm_compute in X. by injection X as <-. }
      destruct Hv as [-> Eac]. rewrite Eac in Haa.
      assert (X : Some a = Some a) by done. rewrite <- Haa in X at 1. vm_compute in X. injection X as <-.
      vm_compute. reflexivity.
    + intros a Haa. destruct (Ha 8 a Haa) as [E1 E2].
      assert (X : Some a = Some a) by done. rewrite <- Haa in X at 1. vm_compute in X. injection X as <-.
      split; [vm_compute; reflexivity|]. vm_compute in E2. vm_compute. exact (proj2 E2).
Defined.

(** ** Votes without a lock *)

(** Dropping the votes by an update without a lock leaves them counted. *)
Definition demo_clear : account_update_operation :=
  mk_account_update None 8 None None (Some (mk_account_options 0 ∅)) None None.

Definition revote (d : database) : database :=
  foldl (apply_election_op ∅ 1) d [(1, el_account_update demo_clear); (1, el_account_update (demo_vote 50 [0]))].

(** What the candidate has, what it should have, and what the voter has locked. *)
Definition vote_report (d : database) : option (Z * Z * Z) :=
  match witness_candidates (governance d) !! 0, accounts d !! 7, accounts d !! 8 with
  | Some c, Some a, Some b =>
      Some (total_votes c, tally Witness (cand_vote_id c) (witness_freeze a) (accounts d), locked_of b CORE)
  | _, _, _ => None
  end.

(** An account update without a lock replaces the votes of an account but leaves them
    counted, so an account can vote again and again with the same units: after ten rounds
    a candidate has 650 votes where 150 units are frozen and locked. *)
Theorem uncounted_update_inflates :
  let d := foldl (apply_election_op ∅ 1) demo_election (take 2 demo_election_ops) in
  vote_report d = Some (150, 150, 50) /\ vote_report (Nat.iter 10 revote d) = Some (650, 150, 50).
Proof. vm_compute. split; reflexivity. Qed.

(** An account may be created with votes; withdrawing them takes units nobody ever counted,
    and the total wraps around below zero. *)
Definition demo_created : list (Z * election_op) :=
  [(1, el_register Witness (mk_candidate_create 7 "url" (Some 77)));
   (1, el_account_update (mk_account_update None 8 None None
         (Some (mk_account_options 0 {[0 := witness]})) None None));
   (1, el_account_update (demo_vote 300 [0]));
   (1, el_account_update (demo_vote 0 []))].

Theorem uncounted_votes_wrap :
  vote_report (foldl (apply_election_op ∅ 1) demo_election demo_created)
  = Some (wrap64 (-200), 100, 0).
Proof. vm_compute. reflexivity. Qed.
