(* ===== verification/Elections.v ===== *)
(** * Elections

    [vote_count.hpp] and the first half of [db_maint.cpp]: ranking the candidates of an
    office, turning votes into the weighted authorities of the committee and witness
    accounts, and the authorities of accounts controlled by the top holders of an
    asset.  The [assert]s of the code (on the order and the size of vote
    counts) are left out: where one fails the process ends, and nothing is said of it. *)

From Stdlib Require Import SpecFloat.
From S2P Require Import Prelude SafeInt Asset Vesting Authority State Ledger Market Double Candidates.

(** ** Counting votes into an authority *)

Record vote_counter := mk_vote_counter {
  last_votes : Z;
  vc_total : Z;
  bitshift : Z;
  vc_auth : authority }.

Definition new_vote_counter : vote_counter :=
  mk_vote_counter (uint64_mod - 1) 0 (-1) (mk_authority 0 [] [] []).

(** [account_auths[k] = w] on a flat map ordered by account. *)
Fixpoint set_weight (k w : Z) (l : list (Z * Z)) : list (Z * Z) :=
  match l with
  | [] => [(k, w)]
  | (k', w') :: l' =>
      if k <? k' then (k, w) :: l
      else if k =? k' then (k, w) :: l'
      else (k', w') :: set_weight k w l'
  end.

Definition add_authority (k w : Z) (a : authority) : authority :=
  mk_authority (weight_threshold a) (set_weight k w (account_auths a)) (key_auths a) (address_auths a).

(** The first votes fix the shift that brings them down to 16 bits. *)
Definition vc_add (who votes : Z) (vc : vote_counter) : vote_counter :=
  if votes =? 0 then vc
  else
    let shift := if bitshift vc =? -1 then Z.max (Z.log2 votes - 15) 0 else bitshift vc in
    let scaled := Z.max (Z.shiftr votes shift) 1 in
    mk_vote_counter votes (wrap64 (vc_total vc + scaled)) shift
      (add_authority who (scaled mod uint16_mod) (vc_auth vc)).

Definition with_threshold (w : Z) (a : authority) : authority :=
  mk_authority w (account_auths a) (key_auths a) (address_auths a).

(** More than half of the weights; without a member the authority stays. *)
Definition vc_finish (vc : vote_counter) (out : authority) : authority :=
  if vc_total vc =? 0 then out
  else with_threshold (wrap32 (Z.shiftr (wrap32 (vc_total vc)) 1 + 1)) (vc_auth vc).

(** [ceil] of a double. *)
Definition double_ceil (x : double) : option Z :=
  match x with
  | S754_zero _ => Some 0
  | S754_infinity _ | S754_nan => None
  | S754_finite s m e =>
      let v := if s then Z.neg m else Z.pos m in
      Some (if 0 <=? e then v * 2 ^ e else - ((- v) / 2 ^ (- e)))
  end.

(** [ceil(weight/3.0*2)] converted to [uint32_t]. *)
Definition two_thirds (weight : Z) : result Z :=
  let* w := get_or (double_ceil (double_mul (double_div (double_of_int64 weight) (double_of_int64 3))
                                   (double_of_int64 2))) undefined_behaviour in
  if (0 <=? w) && (w <? uint32_mod) then Ok w else Err undefined_behaviour.

Definition vc_finish_two_thirds (vc : vote_counter) (out : authority) : result authority :=
  if vc_total vc =? 0 then Ok out
  else let* w := two_thirds (wrap32 (vc_total vc)) in Ok (with_threshold w (vc_auth vc)).

(** ** Ranking the candidates *)

(** The comparison of [sort_votable_objects]. *)
Definition votes_before (a b : Z * candidate) : bool :=
  if negb (total_votes a.2 =? total_votes b.2) then total_votes a.2 >? total_votes b.2
  else cand_vote_id a.2 <? cand_vote_id b.2.

(** [std::partial_sort] and the first [count]: the order of the rest is not specified and
    nothing depends on it. *)
Definition sort_votable_objects (refs : list (Z * candidate)) (count : Z)
    : list (Z * candidate) * list (Z * candidate) :=
  let sorted := sort_by votes_before refs in
  (sorted, take (Z.to_nat (Z.min count (Z.of_nat (length refs)))) sorted).

(** The candidates on the job, in the order of [by_work_status]. *)
Definition working (m : gmap Z candidate) : list (Z * candidate) :=
  sort_by (fun a b => a.1 <=? b.1) (filter (fun kv => work_status kv.2 = true) (map_to_list m)).

(** [if (wits.size() / 2 == 0) wits.pop_back();] *)
Definition pop_if_small (l : list (Z * candidate)) : result (list (Z * candidate)) :=
  if Z.of_nat (length l) / 2 =? 0 then
    match l with
    | [] => Err undefined_behaviour
    | _ => Ok (removelast l)
    end
  else Ok l.

(** [vote_result]: every candidate gets an entry, which is true once it was elected to
    one of the offices. *)
Fixpoint record_results (index : nat) (elected : nat) (refs : list (Z * candidate)) (r : gmap Z bool)
    : gmap Z bool :=
  match refs with
  | [] => r
  | (_, c) :: refs' =>
      let old := default false (r !! cand_account c) in
      record_results (S index) elected refs'
        (<[cand_account c := if (elected <? S index)%nat then old else true]> r)
  end.

Definition count_all (weight : candidate -> Z) (l : list (Z * candidate)) : vote_counter :=
  foldl (fun vc ic => vc_add (cand_account ic.2) (weight ic.2) vc) new_vote_counter l.

Definition modify_active (acc : Z) (f : authority -> result authority) (d : database) : result database :=
  let* a := get_account acc d in
  let* auth := f (active_auth a) in
  Ok (put_account acc (set_active_auth auth a) d).

Abbreviation GRAPHENE_RELAXED_COMMITTEE_ACCOUNT := 1.
Abbreviation GRAPHENE_WITNESS_ACCOUNT := 2.

(** The members of [database] elections use: the references gathered so far and the
    results by account. *)
Record election_state := mk_election {
  witness_refs : list (Z * candidate);
  committee_refs : list (Z * candidate);
  vote_result : gmap Z bool }.

Definition no_election : election_state := mk_election [] [] ∅.

(** Returns the elected witnesses. *)
Definition update_active_witnesses (e : election_state) (d : database)
    : result (list (Z * candidate) * election_state * database) :=
  let g := governance d in
  let (refs, wits) := sort_votable_objects (witness_refs e ++ working (witness_candidates g))
                        (witness_number_of_election (parameters g)) in
  let* wits := pop_if_small wits in
  let r := record_results 0 (length wits) refs (vote_result e) in
  let* d := modify_active GRAPHENE_WITNESS_ACCOUNT
              (fun out => Ok (vc_finish (count_all total_votes wits) out)) d in
  Ok (wits, mk_election refs (committee_refs e) r, d).

(** Returns the elected committee members; their common account needs two thirds of them,
    the relaxed one a majority of their votes. *)
Definition update_active_committee_members (e : election_state) (d : database)
    : result (list (Z * candidate) * election_state * database) :=
  let g := governance d in
  let (refs, members) := sort_votable_objects (committee_refs e ++ working (committee_members g))
                           (committee_number_of_election (parameters g)) in
  let* members := pop_if_small members in
  let r := record_results 0 (length members) refs (vote_result e) in
  let* d :=
    if negb (length members =? 0)%nat then
      let* d := modify_active GRAPHENE_COMMITTEE_ACCOUNT
                  (vc_finish_two_thirds (count_all (fun _ => 1) members)) d in
      modify_active GRAPHENE_RELAXED_COMMITTEE_ACCOUNT
        (fun out => Ok (vc_finish (count_all total_votes members) out)) d
    else Ok d in
  Ok (members, mk_election (witness_refs e) refs r, d).

(** ** Accounts of top holders *)

(** [by_asset_balance]: larger balances first, then by owner. *)
Definition holder_before (a b : Z * Z) : bool :=
  if negb (a.2 =? b.2) then a.2 >? b.2 else a.1 <? b.1.

Definition holders (x : Z) (d : database) : list (Z * Z) :=
  sort_by holder_before
    (map (fun kv => (kv.1.1, kv.2)) (filter (fun kv => kv.1.2 = x) (map_to_list (account_balances d)))).

(** The first [n] holders but the account itself. *)
Definition count_holders (self : Z) (n : nat) (l : list (Z * Z)) : vote_counter :=
  foldl (fun vc ob => vc_add ob.1 (wrap64 ob.2) vc) new_vote_counter
    (take n (filter (fun ob => ob.1 <> self) l)).

Definition update_top_holders (acc : Z) (is_owner : bool) (s : special_authority) (d : database)
    : result database :=
  match s with
  | no_special_authority => Ok d
  | top_holders_special_authority x n =>
      if n =? 0 then Ok d
      else
        let vc := count_holders acc (Z.to_nat n) (holders x d) in
        let* a := get_account acc d in
        let a := if is_owner then set_owner_auth (vc_finish vc (owner_auth a)) a
                 else set_active_auth (vc_finish vc (active_auth a)) a in
        let* a :=
          if negb (vc_total vc =? 0) then
            let* f := get_or (top_n_control_flags a) undefined_behaviour in
            Ok (set_top_n_control_flags (Some (Z.lor f (if is_owner then 1 else 2))) a)
          else Ok a in
        Ok (put_account acc a d)
  end.

(** [visit_special_authorities]: the walk ends at the first account that is controlled but
    lacks one of the two special authorities; reading a missing one is undefined. *)
Fixpoint visit_special_authorities (l : list (Z * Z)) (d : database) : result database :=
  match l with
  | [] => Ok d
  | (_, acc) :: l' =>
      let* a := get_account acc d in
      if negb (bool_decide (is_Some (owner_special_authority a))
               && bool_decide (is_Some (active_special_authority a)))
         && bool_decide (is_Some (top_n_control_flags a))
      then Ok d
      else
        let* s := get_or (owner_special_authority a) undefined_behaviour in
        let* d := update_top_holders acc true s d in
        let* a := get_account acc d in
        let* s := get_or (active_special_authority a) undefined_behaviour in
        let* d := update_top_holders acc false s d in
        visit_special_authorities l' d
  end.

Definition update_top_n_authorities (d : database) : result database :=
  visit_special_authorities
    (sort_by (fun a b => a.1 <=? b.1) (map_to_list (special_authorities (governance d)))) d.
