(* ===== verification/ElectionsSpec.v ===== *)
(** * What an election decides

    The elected candidates are the ones with the most votes, and the authorities made of
    the votes need more than half, or two thirds, of what was counted. *)

From S2P Require Import Prelude SafeInt Asset Vesting Authority State Ledger Market Double Candidates Votes.
From S2P Require Import Elections.

(** ** The ranking *)

Lemma votes_before_trans a b c :
  votes_before a b = true -> votes_before b c = true -> votes_before a c = true.
Proof.
  unfold votes_before. intros H1 H2.
  destruct (Z.eqb_spec (total_votes a.2) (total_votes b.2)), (Z.eqb_spec (total_votes b.2) (total_votes c.2)),
    (Z.eqb_spec (total_votes a.2) (total_votes c.2)); cbn [negb] in *; rewrite ?Z.gtb_ltb in *; bool_to_prop;
    (apply Z.ltb_lt; lia) || lia.
Qed.

Lemma votes_before_asym a b : votes_before a b = true -> votes_before b a = false.
Proof.
  unfold votes_before. intros H.
  destruct (Z.eqb_spec (total_votes a.2) (total_votes b.2)), (Z.eqb_spec (total_votes b.2) (total_votes a.2));
    cbn [negb] in *; rewrite ?Z.gtb_ltb in *; bool_to_prop; (apply Z.ltb_ge; lia) || lia.
Qed.

Lemma votes_before_other a b : votes_before a b = false -> cand_vote_id a.2 <> cand_vote_id b.2 ->
  votes_before b a = true.
Proof.
  unfold votes_before. intros H Hne.
  destruct (Z.eqb_spec (total_votes a.2) (total_votes b.2)), (Z.eqb_spec (total_votes b.2) (total_votes a.2));
    cbn [negb] in *; rewrite ?Z.gtb_ltb in *; bool_to_prop; (apply Z.ltb_lt; lia) || lia.
Qed.

Lemma elem_of_working m ic : ic ∈ working m <-> m !! ic.1 = Some ic.2 /\ work_status ic.2 = true.
Proof.
  unfold working. rewrite sort_by_elem, list_elem_of_filter. destruct ic as [id c]. rewrite elem_of_map_to_list. tauto.
Qed.

Lemma working_nodup m : NoDup (working m).
Proof. unfold working. rewrite sort_by_perm. apply NoDup_filter, NoDup_map_to_list. Qed.

(** The candidates of a table have different vote ids. *)
Definition distinct_votes (m : gmap Z candidate) : Prop := forall i1 i2 c1 c2,
  m !! i1 = Some c1 -> m !! i2 = Some c2 -> cand_vote_id c1 = cand_vote_id c2 -> i1 = i2.

(** [elected] are the first of the candidates on the job, by votes and then by vote id. *)
Definition top_of (m : gmap Z candidate) (elected : list (Z * candidate)) : Prop :=
  NoDup elected /\ (forall e, e ∈ elected -> m !! e.1 = Some e.2 /\ work_status e.2 = true) /\
  forall e c, e ∈ elected -> m !! c.1 = Some c.2 -> work_status c.2 = true -> c ∉ elected ->
    total_votes c.2 < total_votes e.2
    \/ total_votes c.2 = total_votes e.2 /\ cand_vote_id e.2 < cand_vote_id c.2.

Lemma votes_before_spec a b : votes_before a b = true ->
  total_votes b.2 < total_votes a.2 \/ total_votes b.2 = total_votes a.2 /\ cand_vote_id a.2 < cand_vote_id b.2.
Proof.
  unfold votes_before. intros H. destruct (Z.eqb_spec (total_votes a.2) (total_votes b.2)); cbn [negb] in H;
    rewrite ?Z.gtb_ltb in H; bool_to_prop; lia.
Qed.

Lemma take_top m n : distinct_votes m -> top_of m (take n (sort_by votes_before (working m))).
Proof.
  intros Hd. set (l := sort_by votes_before (working m)).
  assert (Hl : forall x, x ∈ l <-> x ∈ working m) by (intros x; apply sort_by_elem).
  assert (Hnd : NoDup l) by (unfold l; rewrite sort_by_perm; apply working_nodup).
  assert (Hs : StronglySorted (fun a b => votes_before b a = false) l)
    by (apply sort_by_strict; [apply votes_before_trans|apply votes_before_asym]).
  rewrite <- (take_drop n l) in Hs, Hnd. split; [by apply NoDup_app in Hnd as [? _]|]. split.
  - intros e He. apply elem_of_working, Hl. rewrite <- (take_drop n l). apply elem_of_app. by left.
  - intros e c He Hc Hw Hn. apply votes_before_spec, votes_before_other.
    + assert (Hc' : c ∈ l) by (apply Hl, elem_of_working; done). rewrite <- (take_drop n l) in Hc'.
      apply elem_of_app in Hc' as [?|Hc']; [done|]. exact (StronglySorted_app_le _ _ _ _ _ Hs He Hc').
    + intros E. assert (He' : e ∈ working m) by (apply Hl; rewrite <- (take_drop n l); apply elem_of_app; by left).
      apply elem_of_working in He' as [He' _]. apply Hn. pose proof (Hd _ _ _ _ Hc He' E) as Ei.
      destruct e as [i e], c as [j c]; cbn in *. subst j. congruence.
Qed.

Lemma pop_if_small_spec l l' : pop_if_small l = Ok l' ->
  (length l = 1%nat /\ l' = []) \/ ((2 <= length l)%nat /\ l' = l).
Proof.
  unfold pop_if_small. intros H. destruct l as [|x [|y l]].
  - cbn in H. discriminate H.
  - cbn in H. injection H as <-. by left.
  - rewrite (proj2 (Z.eqb_neq _ _)) in H; [injection H as <-; right; split; [cbn; lia|done]|].
    cbn [length]. intros E. apply Z.div_small_iff in E; lia.
Qed.

(** ** Results by account *)

Lemma record_results_lookup elected refs : forall index r k,
  record_results index elected refs r !! k =
    if decide (k ∈ (fun ic => cand_account ic.2) <$> refs)
    then Some (default false (r !! k) || bool_decide (k ∈ (fun ic => cand_account ic.2) <$> take (elected - index) refs))
    else r !! k.
Proof.
  induction refs as [|[id c] refs IH]; intros index r k; cbn [record_results fmap list_fmap snd].
  { rewrite decide_False; [done|]. intros H. by apply elem_of_nil in H. }
  rewrite IH. set (acc := cand_account c). destruct (Nat.ltb_spec elected (S index)) as [Hlt|Hge].
  - replace (elected - index)%nat with 0%nat by lia. replace (elected - S index)%nat with 0%nat by lia.
    cbn [take fmap list_fmap]. destruct (decide (k = acc)) as [->|Hne].
    + rewrite lookup_insert_eq. rewrite (decide_True (P := acc ∈ acc :: _)) by (by left).
      case_decide; [done|]. rewrite bool_decide_eq_false_2 by (intros H0; by apply elem_of_nil in H0).
      by rewrite orb_false_r.
    + rewrite lookup_insert_ne by done. case_decide as H1; case_decide as H2; try done.
      * exfalso. apply H2. by right.
      * apply elem_of_cons in H2 as [?|?]; done.
  - replace (elected - index)%nat with (S (elected - S index)) by lia. cbn [take fmap list_fmap snd]. fold acc.
    destruct (decide (k = acc)) as [->|Hne].
    + rewrite lookup_insert_eq. rewrite (decide_True (P := acc ∈ acc :: _)) by (by left).
      rewrite (bool_decide_eq_true_2 (acc ∈ acc :: _)) by (by left). rewrite orb_true_r. by case_decide.
    + rewrite lookup_insert_ne by done.
      rewrite (bool_decide_ext (k ∈ acc :: _) (k ∈ (fun ic => cand_account ic.2) <$> take (elected - S index) refs))
        by (rewrite elem_of_cons; tauto).
      case_decide as H1; case_decide as H2; try done.
      * exfalso. apply H2. by right.
      * apply elem_of_cons in H2 as [?|?]; done.
Qed.

(** ** Weights *)

Lemma set_weight_new k w l : k ∉ l.*1 -> set_weight k w l ≡ₚ (k, w) :: l.
Proof.
  induction l as [|[k' w'] l IH]; cbn; intros Hk; [done|]. rewrite not_elem_of_cons in Hk. destruct Hk as [Hne Hk].
  case_if; [done|]. case_if; [bool_to_prop; done|]. rewrite IH by done. apply Permutation_swap.
Qed.

(** The shift the largest number of votes fixes, and the weight it gives. *)
Definition shift_for (v : Z) : Z := Z.max (Z.log2 v - 15) 0.
Definition scaled (s v : Z) : Z := Z.max (Z.shiftr v s) 1.

Lemma scaled_bound v0 v : 0 < v <= v0 -> 1 <= scaled (shift_for v0) v < uint16_mod.
Proof.
  intros Hv. unfold scaled, shift_for. rewrite Z.shiftr_div_pow2 by lia.
  pose proof (Z.log2_spec v0 ltac:(lia)) as [_ Hl].
  assert (v / 2 ^ Z.max (Z.log2 v0 - 15) 0 < 2 ^ 16); [|lia].
  apply Z.div_lt_upper_bound; [apply Z.pow_pos_nonneg; lia|]. rewrite <- Z.pow_add_r by lia.
  eapply Z.le_lt_trans; [apply Hv|]. eapply Z.lt_le_trans; [exact Hl|]. apply Z.pow_le_mono_r; lia.
Qed.

Section Counting.
Variable weight : candidate -> Z.

(** The members an authority gets: those with votes. *)
Definition members (s : Z) (l : list (Z * candidate)) : list (Z * Z) :=
  (fun ic => (cand_account ic.2, scaled s (weight ic.2))) <$> filter (fun ic => weight ic.2 <> 0) l.

Lemma members_keys s l k : k ∈ (members s l).*1 -> k ∈ (fun ic => cand_account ic.2) <$> l.
Proof.
  unfold members. rewrite <- list_fmap_compose. rewrite !list_elem_of_fmap.
  intros (ic & -> & H). apply list_elem_of_filter in H as [_ H]. by exists ic.
Qed.

Lemma count_from s v0 l : s = shift_for v0 -> forall vc,
  bitshift vc = s -> NoDup ((fun ic => cand_account ic.2) <$> l) ->
  (forall k, k ∈ (account_auths (vc_auth vc)).*1 -> k ∉ (fun ic => cand_account ic.2) <$> l) ->
  (forall ic, ic ∈ l -> 0 <= weight ic.2 <= v0) ->
  0 <= vc_total vc -> vc_total vc + Z.of_nat (length l) * uint16_mod < uint64_mod ->
  let vc' := foldl (fun vc ic => vc_add (cand_account ic.2) (weight ic.2) vc) vc l in
  account_auths (vc_auth vc') ≡ₚ account_auths (vc_auth vc) ++ members s l
  /\ key_auths (vc_auth vc') = key_auths (vc_auth vc) /\ address_auths (vc_auth vc') = address_auths (vc_auth vc)
  /\ vc_total vc' = vc_total vc + sumZ snd (members s l).
Proof.
  intros Hs. induction l as [|[id c] l IH]; intros vc Eb Hnd Hdis Hw H0 Hlt; cbn [foldl snd].
  { cbn. rewrite app_nil_r. repeat split; try done. lia. }
  cbn [fmap list_fmap snd] in Hnd, Hdis. apply NoDup_cons in Hnd as [Hni Hnd]. cbn [length] in Hlt.
  assert (Hw' : forall ic, ic ∈ l -> 0 <= weight ic.2 <= v0) by (intros ic Hic; apply Hw; by right).
  unfold members. cbn [snd]. rewrite filter_cons. cbn [snd].
  pose proof (Hw (id, c) ltac:(by left)) as Hc. cbn [snd] in Hc.
  destruct (Z.eqb_spec (weight c) 0) as [E|Hne].
  { rewrite decide_False by (intros F; done).
    assert (Ea : vc_add (cand_account c) (weight c) vc = vc) by (unfold vc_add; by rewrite (proj2 (Z.eqb_eq _ _) E)).
    rewrite Ea.
    apply IH; try done; [|lia]. intros k Hk. specialize (Hdis k Hk). rewrite not_elem_of_cons in Hdis. tauto. }
  rewrite decide_True by done. cbn [fmap list_fmap snd sumZ].
  assert (Hsp : 0 <= s) by (subst s; unfold shift_for; lia).
  assert (Eadd : vc_add (cand_account c) (weight c) vc
    = mk_vote_counter (weight c) (vc_total vc + scaled s (weight c)) s
        (add_authority (cand_account c) (scaled s (weight c)) (vc_auth vc))).
  { unfold vc_add. rewrite (proj2 (Z.eqb_neq _ _) Hne), Eb, (proj2 (Z.eqb_neq s (-1))) by lia.
    pose proof (scaled_bound v0 (weight c) ltac:(lia)) as Hsb. rewrite <- Hs in Hsb. fold (scaled s (weight c)).
    rewrite wrap64_small, Z.mod_small by lia. done. }
  pose proof (scaled_bound v0 (weight c) ltac:(lia)) as Hsb. rewrite <- Hs in Hsb.
  assert (Hk : cand_account c ∉ (account_auths (vc_auth vc)).*1) by (intros Hin; apply (Hdis _ Hin); by left).
  assert (Hperm : account_auths (vc_auth (vc_add (cand_account c) (weight c) vc))
    ≡ₚ (cand_account c, scaled s (weight c)) :: account_auths (vc_auth vc))
    by (rewrite Eadd; by apply set_weight_new).
  destruct (IH (vc_add (cand_account c) (weight c) vc)) as (P1 & P2 & P3 & P4); rewrite ?Eadd; try done.
  - intros k Hin. rewrite <- Eadd, Hperm in Hin. cbn [fmap list_fmap fst] in Hin. apply elem_of_cons in Hin as [->|Hin]; [done|].
    specialize (Hdis k Hin). rewrite not_elem_of_cons in Hdis. tauto.
  - cbn. lia.
  - cbn. lia.
  - rewrite Eadd in P1, P2, P3, P4. cbn [vc_total vc_auth] in P1, P2, P3, P4. split; [|split; [done|split; [done|]]].
    + etransitivity; [exact P1|]. rewrite Eadd in Hperm. cbn [vc_auth] in Hperm. rewrite Hperm. apply Permutation_middle.
    + rewrite P4. fold (members s l). lia.
Qed.

(** Counting votes in decreasing order: the weights of the members fit their 16 bits and
    are in proportion to the votes. *)
Lemma count_all_spec id0 c0 l : let l' := (id0, c0) :: l in let s := shift_for (weight c0) in
  NoDup ((fun ic => cand_account ic.2) <$> l') -> 0 < weight c0 ->
  (forall ic, ic ∈ l' -> 0 <= weight ic.2 <= weight c0) -> Z.of_nat (length l') < 65536 ->
  account_auths (vc_auth (count_all weight l')) ≡ₚ members s l'
  /\ key_auths (vc_auth (count_all weight l')) = [] /\ address_auths (vc_auth (count_all weight l')) = []
  /\ vc_total (count_all weight l') = sumZ snd (members s l')
  /\ 0 < vc_total (count_all weight l') < uint32_mod.
Proof.
  intros l' s Hnd Hc Hw Hlen. pose proof (scaled_bound (weight c0) (weight c0) ltac:(lia)) as Hsb. fold s in Hsb.
  set (vc1 := mk_vote_counter (weight c0) (scaled s (weight c0)) s
                (mk_authority 0 [(cand_account c0, scaled s (weight c0))] [] [])).
  assert (E1 : vc_add (cand_account c0) (weight c0) new_vote_counter = vc1).
  { unfold vc_add, new_vote_counter. cbn [bitshift vc_total vc_auth]. rewrite (proj2 (Z.eqb_neq _ _)) by lia.
    rewrite Z.eqb_refl. fold (shift_for (weight c0)). fold s. fold (scaled s (weight c0)).
    rewrite wrap64_small, Z.mod_small by lia. done. }
  unfold l' in *. cbn [fmap list_fmap snd] in Hnd. apply NoDup_cons in Hnd as [Hni Hnd]. cbn [length] in Hlen.
  assert (Em : members s ((id0, c0) :: l) = (cand_account c0, scaled s (weight c0)) :: members s l)
    by (unfold members; rewrite filter_cons; cbn [snd]; rewrite decide_True by lia; done).
  destruct (count_from s (weight c0) l eq_refl vc1) as (P1 & P2 & P3 & P4); try done.
  - intros k Hk. cbn in Hk. apply list_elem_of_singleton in Hk as ->. done.
  - intros ic Hic. apply Hw. by right.
  - cbn. lia.
  - cbn [vc_total vc1]. lia.
  - unfold count_all. cbn [foldl snd]. rewrite E1, Em. split; [exact P1|]. split; [done|]. split; [done|].
    cbn [vc_total vc1] in P4. split; [cbn; lia|]. rewrite P4.
    assert (Hsum : 0 <= sumZ snd (members s l) <= Z.of_nat (length l) * 65535); [|lia].
    clear -Hw. unfold members.
    assert (Hw' : forall ic, ic ∈ l -> 0 <= weight ic.2 <= weight c0) by (intros ic Hic; apply Hw; by right). clear Hw.
    induction l as [|[i c] l IH]; [done|]. rewrite filter_cons. cbn [snd].
    specialize (IH (fun ic Hic => Hw' ic (list_elem_of_further _ _ _ Hic))).
    pose proof (Hw' (i, c) ltac:(by left)) as Hi. cbn [snd] in Hi. cbn [length].
    case_decide as Hz; cbn [fmap list_fmap sumZ snd]; [|lia].
    pose proof (scaled_bound (weight c0) (weight c) ltac:(lia)) as Hb. fold s in Hb. lia.
Qed.

End Counting.

(** ** Two thirds in doubles *)

(** [ceil(n/3.0*2)] for numbers from [n]. *)
Fixpoint two_thirds_check (k : nat) (n : Z) : bool :=
  match k with
  | O => true
  | S k' =>
      match two_thirds n with
      | Ok w => (w =? (2 * n + 2) / 3) && two_thirds_check k' (n + 1)
      | Err _ => false
      end
  end.

Lemma two_thirds_check_sound k : forall n x, two_thirds_check k n = true -> n <= x < n + Z.of_nat k ->
  two_thirds x = Ok ((2 * x + 2) / 3).
Proof.
  induction k as [|k IH]; intros n x H Hx; [lia|]. cbn [two_thirds_check] in H.
  destruct (two_thirds n) as [w|] eqn:E; [|done]. apply andb_true_iff in H as [Hw H].
  apply Z.eqb_eq in Hw. destruct (decide (x = n)) as [->|]; [by rewrite E, Hw|]. apply (IH (n + 1)); [done|lia].
Qed.

Lemma two_thirds_exact n : 1 <= n <= 255 -> two_thirds n = Ok ((2 * n + 2) / 3).
Proof.
  intros Hn. apply (two_thirds_check_sound 255 1); [|lia]. vm_compute. reflexivity.
Qed.

(** ** Properties *)

Lemma update_active_witnesses_inv d wits e' d' :
  update_active_witnesses no_election d = Ok (wits, e', d') ->
  let sorted := sort_by votes_before (working (witness_candidates (governance d))) in
  let top := take (Z.to_nat (Z.min (witness_number_of_election (parameters (governance d)))
                               (Z.of_nat (length (working (witness_candidates (governance d))))))) sorted in
  pop_if_small top = Ok wits /\ vote_result e' = record_results 0 (length wits) sorted ∅
  /\ exists a, accounts d !! GRAPHENE_WITNESS_ACCOUNT = Some a
     /\ d' = put_account GRAPHENE_WITNESS_ACCOUNT
               (set_active_auth (vc_finish (count_all total_votes wits) (active_auth a)) a) d.
Proof.
  unfold update_active_witnesses, sort_votable_objects. cbn [witness_refs no_election app vote_result]. intros H.
  apply rbind_ok in H as (w & Hp & H). apply rbind_ok in H as (d1 & Hm & [= <- <- <-]).
  split; [done|]. split; [done|]. unfold modify_active, get_account in Hm.
  destruct (accounts d !! _) as [a|]; [|done]. cbn in Hm. injection Hm as <-. by exists a.
Qed.

(** C10: The witnesses elected at maintenance are the candidates on the job with the most
    votes, ties broken by the vote id, as many as the parameters ask for and there are
    candidates; when only one could be elected nobody is.  The results record every
    candidate's account, as elected exactly when it is among the elected. *)
Theorem election_elects_top (d d' : database) (wits : list (Z * candidate)) (e' : election_state)
    (Hd : distinct_votes (witness_candidates (governance d)))
    (H : update_active_witnesses no_election d = Ok (wits, e', d')) :
  let m := witness_candidates (governance d) in
  let n := Z.to_nat (Z.min (witness_number_of_election (parameters (governance d)))
                       (Z.of_nat (length (working m)))) in
  (1 <= n)%nat /\ top_of m wits /\ length wits = (if (n =? 1)%nat then 0%nat else n) /\
  (forall k, vote_result e' !! k = Some true <-> exists ic, ic ∈ wits /\ cand_account ic.2 = k) /\
  (forall k, is_Some (vote_result e' !! k) <-> exists ic, ic ∈ working m /\ cand_account ic.2 = k).
Proof.
  apply update_active_witnesses_inv in H as (Hp & Hr & _). intros m n. fold m in Hp, Hr. fold n in Hp.
  set (sorted := sort_by votes_before (working m)) in *.
  assert (Hlen : length (take n sorted) = n).
  { rewrite length_take. unfold sorted. rewrite (Permutation_length (sort_by_perm _ _)). unfold n. lia. }
  assert (Hw : wits = take (length wits) sorted /\ (1 <= n)%nat
    /\ length wits = (if (n =? 1)%nat then 0%nat else n) /\ top_of m wits).
  { apply pop_if_small_spec in Hp. rewrite Hlen in Hp. destruct Hp as [[E ->]|[E ->]].
    - rewrite E. split; [done|]. split; [lia|]. split; [done|]. split; [constructor|].
      split; [intros e He; by apply elem_of_nil in He|intros e c He; by apply elem_of_nil in He].
    - rewrite Hlen. split; [done|]. split; [lia|]. split; [|by apply take_top].
      destruct (Nat.eqb_spec n 1); [lia|done]. }
  destruct Hw as (Ew & Hn & Hl & Htop). split; [done|]. split; [done|]. split; [done|].
  assert (Hacc : forall (l : list (Z * candidate)) k,
    k ∈ (fun ic => cand_account ic.2) <$> l <-> exists ic, ic ∈ l /\ cand_account ic.2 = k).
  { intros l k. rewrite list_elem_of_fmap. split; intros (ic & ? & ?); by exists ic. }
  assert (Hsw : forall ic, ic ∈ sorted <-> ic ∈ working m) by (intros ic; apply sort_by_elem).
  split; intros k; rewrite Hr, record_results_lookup, lookup_empty, Nat.sub_0_r, <- Ew; cbn [default orb].
  - rewrite <- Hacc. case_decide as Hk.
    + split; [intros [= E]; by apply bool_decide_eq_true in E|intros E; by rewrite bool_decide_eq_true_2].
    + split; [done|]. intros E. exfalso. apply Hk. apply Hacc in E as (ic & Hin & Ek). apply Hacc. exists ic.
      split; [|done]. rewrite Ew in Hin. by eapply elem_of_take in Hin as (j & Hj & _); apply list_elem_of_lookup; exists j.
  - case_decide as Hk; [|].
    + split; [|by eexists]. intros _. apply Hacc in Hk as (ic & Hin & Ek). exists ic. by rewrite <- Hsw.
    + split; [by intros []|]. intros (ic & Hin & Ek). exfalso. apply Hk, Hacc. exists ic. by rewrite Hsw.
Qed.

(** A small election: three candidates, two to be elected. *)
Definition demo_cand (acc vote_id votes : Z) : candidate :=
  mk_candidate acc vote_id votes "" true 0 ∅ (Some acc).
Definition demo_vote_db : database :=
  set_governance
    (set_witness_candidates {[ 0 := demo_cand 10 0 700; 1 := demo_cand 11 1 900; 2 := demo_cand 12 2 700 ]}
       (set_parameters (mk_parameters 3 86400 3 0 0 2 2 10 0 0 0 0 0 0 0 0 0 0 0 0 0 0) empty_governance))
    (set_accounts {[ GRAPHENE_WITNESS_ACCOUNT := basic_account ∅ None ]} demo_ledger).

Lemma election_elects_top_witness :
  match update_active_witnesses no_election demo_vote_db with
  | Ok (wits, e', _) => length wits = 2%nat /\ vote_result e' !! 10 = Some true
      /\ is_Some (vote_result e' !! 12) /\ top_of (witness_candidates (governance demo_vote_db)) wits
  | Err _ => False
  end.
Proof.
  destruct (update_active_witnesses no_election demo_vote_db) as [[[wits e'] d']|] eqn:E; [|vm_compute in E; discriminate E].
  assert (Hd : distinct_votes (witness_candidates (governance demo_vote_db))).
  { intros i1 i2 c1 c2 H1 H2. cbn in H1, H2.
    apply lookup_insert_Some in H1 as [[<- <-]|[_ H1]]; [|apply lookup_insert_Some in H1 as [[<- <-]|[_ H1]];
      [|apply lookup_singleton_Some in H1 as [<- <-]]];
    (apply lookup_insert_Some in H2 as [[<- <-]|[_ H2]]; [|apply lookup_insert_Some in H2 as [[<- <-]|[_ H2]];
      [|apply lookup_singleton_Some in H2 as [<- <-]]]); cbn; done. }
  destruct (election_elects_top demo_vote_db d' wits e' Hd E) as (_ & Ht & Hl & Hr & Hs).
  split; [rewrite Hl; vm_compute; reflexivity|].
  assert (Ew : wits = match update_active_witnesses no_election demo_vote_db with Ok (w, _, _) => w | Err _ => [] end)
    by (by rewrite E).
  vm_compute in Ew. split; [|split; [|exact Ht]].
  - apply Hr. exists (0, demo_cand 10 0 700). subst wits. split; [by right; left|done].
  - apply Hs. exists (2, demo_cand 12 2 700). split; [|done]. apply elem_of_working. vm_compute. done.
Defined.

(** Counting votes in decreasing order makes an authority of the accounts with votes,
    each with a weight that fits its 16 bits and is its votes shifted to the scale of the
    largest, at least one; its threshold is more than half of all weights, and all of
    them together reach it. *)
Theorem majority_authority (id0 : Z) (c0 : candidate) (l : list (Z * candidate)) (out : authority)
    (Hn : NoDup ((fun ic => cand_account ic.2) <$> (id0, c0) :: l)) (H0 : 0 < total_votes c0)
    (Hs : forall ic, ic ∈ (id0, c0) :: l -> 0 <= total_votes ic.2 <= total_votes c0)
    (Hl : Z.of_nat (length ((id0, c0) :: l)) < 65536) :
  let a := vc_finish (count_all total_votes ((id0, c0) :: l)) out in
  let s := Z.max (Z.log2 (total_votes c0) - 15) 0 in
  (forall acc w, (acc, w) ∈ account_auths a <-> exists ic, ic ∈ (id0, c0) :: l /\ total_votes ic.2 <> 0
     /\ acc = cand_account ic.2 /\ w = Z.max (Z.shiftr (total_votes ic.2) s) 1) /\
  (forall acc w, (acc, w) ∈ account_auths a -> 1 <= w < uint16_mod) /\
  key_auths a = [] /\ address_auths a = [] /\
  weights (account_auths a) < 2 * weight_threshold a /\ is_impossible a = false.
Proof.
  intros a s. pose proof (count_all_spec total_votes id0 c0 l Hn H0 Hs Hl) as (P1 & P2 & P3 & P4 & P5).
  change (shift_for (total_votes c0)) with s in *. set (vc := count_all total_votes ((id0, c0) :: l)) in *.
  assert (Ea : a = with_threshold (vc_total vc / 2 + 1) (vc_auth vc)).
  { unfold a, vc_finish. rewrite (proj2 (Z.eqb_neq _ _)) by lia. rewrite (wrap32_small (vc_total vc)) by lia.
    rewrite Z.shiftr_div_pow2 by lia. rewrite wrap32_small; [done|]. change (2 ^ 1) with 2.
    pose proof (Z.div_pos (vc_total vc) 2). pose proof (Z.div_lt (vc_total vc) 2). lia. }
  rewrite Ea. cbn [account_auths key_auths address_auths weight_threshold with_threshold].
  assert (Hmem : forall acc w, (acc, w) ∈ account_auths (vc_auth vc) <-> exists ic, ic ∈ (id0, c0) :: l
    /\ total_votes ic.2 <> 0 /\ acc = cand_account ic.2 /\ w = Z.max (Z.shiftr (total_votes ic.2) s) 1).
  { intros acc w. rewrite P1. unfold members. rewrite list_elem_of_fmap. split.
    - intros (ic & [= -> ->] & Hin). apply list_elem_of_filter in Hin as [Hv Hin]. by exists ic.
    - intros (ic & Hin & Hv & -> & ->). exists ic. split; [done|]. by apply list_elem_of_filter. }
  split; [exact Hmem|]. split.
  { intros acc w Hin. apply Hmem in Hin as (ic & Hin & Hv & _ & ->). apply (scaled_bound (total_votes c0)).
    specialize (Hs _ Hin). lia. }
  split; [done|]. split; [done|].
  assert (Ew : weights (account_auths (vc_auth vc)) = vc_total vc) by (unfold weights; by rewrite P1, P4).
  pose proof (Z.div_mod (vc_total vc) 2 ltac:(lia)). pose proof (Z.mod_pos_bound (vc_total vc) 2 ltac:(lia)).
  split; [lia|]. unfold is_impossible. cbn [account_auths key_auths address_auths weight_threshold with_threshold].
  rewrite P2, P3, Ew. unfold weights. cbn [sumZ]. rewrite !Z.add_0_r, wrap64_small by lia. apply Z.ltb_ge. lia.
Qed.

Lemma majority_authority_witness :
  let l := [(1, demo_cand 11 1 900); (0, demo_cand 10 0 700)] in
  let a := vc_finish (count_all total_votes l) null_authority in
  account_auths a = [(10, 700); (11, 900)] /\ weight_threshold a = 801 /\ is_impossible a = false.
Proof.
  intros l a. split; [vm_compute; reflexivity|]. split; [vm_compute; reflexivity|].
  apply (majority_authority 1 (demo_cand 11 1 900) [(0, demo_cand 10 0 700)] null_authority).
  - by apply (bool_decide_eq_true_1 (NoDup (A:=Z) _)).
  - reflexivity.
  - intros ic Hin. apply elem_of_cons in Hin as [->|Hin]; [cbn; lia|]. apply list_elem_of_singleton in Hin as ->. cbn. lia.
  - cbn. lia.
Defined.

(** The common account of up to 255 committee members gets one vote per member, and a
    threshold of exactly two thirds of them, rounded up, although it is computed in
    double precision. *)
Theorem committee_needs_two_thirds (l : list (Z * candidate)) (out : authority)
    (Hn : NoDup ((fun ic => cand_account ic.2) <$> l)) (Hl : (1 <= length l <= 255)%nat) :
  exists a, vc_finish_two_thirds (count_all (fun _ => 1) l) out = Ok a /\
    account_auths a ≡ₚ ((fun ic => (cand_account ic.2, 1)) <$> l) /\
    weight_threshold a = (2 * Z.of_nat (length l) + 2) / 3.
Proof.
  destruct l as [|[id0 c0] l]; [cbn in Hl; lia|].
  destruct (count_all_spec (fun _ => 1) id0 c0 l Hn) as (P1 & _ & _ & P4 & P5); [lia|intros; lia|lia|].
  assert (Em : forall l', members (fun _ => 1) (shift_for 1) l' = (fun ic => (cand_account ic.2, 1)) <$> l').
  { intros l'. unfold members. f_equal. induction l' as [|x l' IH]; [done|]. rewrite filter_cons, decide_True by lia. by rewrite IH. }
  rewrite Em in P1, P4.
  assert (Et : vc_total (count_all (fun _ => 1) ((id0, c0) :: l)) = Z.of_nat (length ((id0, c0) :: l))).
  { rewrite P4. clear. induction ((id0, c0) :: l) as [|x l' IH]; [done|]. cbn [fmap list_fmap sumZ snd length]. rewrite IH. lia. }
  unfold vc_finish_two_thirds. rewrite (proj2 (Z.eqb_neq _ _)) by lia. rewrite wrap32_small by lia.
  rewrite two_thirds_exact by lia. cbn [rbind]. eexists. split; [done|]. split; [exact P1|]. cbn [weight_threshold with_threshold].
  by rewrite Et.
Qed.

Lemma committee_needs_two_thirds_witness :
  match vc_finish_two_thirds (count_all (fun _ => 1) [(0, demo_cand 10 0 5); (1, demo_cand 11 1 5); (2, demo_cand 12 2 4);
      (3, demo_cand 13 3 4); (4, demo_cand 14 4 3)]) null_authority with
  | Ok a => weight_threshold a = 4
  | Err _ => False
  end.
Proof.
  destruct (committee_needs_two_thirds [(0, demo_cand 10 0 5); (1, demo_cand 11 1 5); (2, demo_cand 12 2 4);
      (3, demo_cand 13 3 4); (4, demo_cand 14 4 3)] null_authority) as (a & -> & _ & E).
  - by apply (bool_decide_eq_true_1 (NoDup (A:=Z) _)).
  - cbn. lia.
  - rewrite E. reflexivity.
Defined.

(** An account created with a special owner authority alone: the guard of the walk does not
    stop it, and the missing active authority is read. *)
Definition demo_special_db : database :=
  set_governance (set_special_authorities {[0 := 20]} (set_next_special_authority 1 empty_governance))
    (set_accounts {[20 := set_owner_special_authority (Some no_special_authority) (basic_account ∅ None)]} demo_ledger).
Theorem special_authority_undefined : update_top_n_authorities demo_special_db = Err undefined_behaviour.
Proof. vm_compute. reflexivity. Qed.
