(* ===== verification/Bids.v ===== *)
(** * Collateral bids at maintenance

    [database::process_bids] of [db_maint.cpp]: when the bids on a globally settled asset
    cover its whole supply at a price the feed allows, they become margin positions that
    share out the settlement fund, and the asset comes back to life. *)

From S2P Require Import Prelude SafeInt Asset Vesting State Ledger Market MarketProofs.

(** The bids that would be executed, best price first, and the debt they cover. *)
Fixpoint select_bids (ids : list Z) (b : asset_bitasset_data) (supply_ covered : Z) (d : database)
    : result (list Z * Z) :=
  match ids with
  | [] => Ok ([], covered)
  | id :: ids' =>
      if covered <? supply_ then
        let* bid := deref_bid id d in
        let p := inv_swan_price bid in
        let* total_collateral := asset_mul_price (quote p) (settlement_price b) in
        let* total_collateral := asset_add total_collateral (base p) in
        let* cp := call_price (quote p) total_collateral (maintenance_collateral_ratio (current_feed b)) in
        if price_geb (price_invert cp) (Asset.settlement_price (current_feed b)) then Ok ([], covered)
        else
          let* covered := Share.add covered (amount (quote p)) in
          let* (l, c) := select_bids ids' b supply_ covered d in
          Ok (id :: l, c)
      else Ok ([], covered)
  end.

(** Each bid takes its debt with its part of the fund, the last one what is left. *)
Fixpoint execute_bids (ids : list Z) (b : asset_bitasset_data) (to_cover remaining_fund : Z) (d : database)
    : result (Z * Z * database) :=
  match ids with
  | [] => Ok (to_cover, remaining_fund, d)
  | id :: ids' =>
      let* bid := deref_bid id d in
      let debt := amount (quote (inv_swan_price bid)) in
      let* part := asset_mul_price (quote (inv_swan_price bid)) (settlement_price b) in
      let last_one := debt >=? to_cover in
      let debt := if last_one then to_cover else debt in
      let coll := if last_one then remaining_fund else amount part in
      let* to_cover := Share.sub to_cover debt in
      let* remaining_fund := Share.sub remaining_fund coll in
      let* d := execute_bid id debt coll (current_feed b) d in
      execute_bids ids' b to_cover remaining_fund d
  end.

Definition process_bids (b : asset_bitasset_data) (d : database) : result database :=
  if price_is_null (Asset.settlement_price (current_feed b)) then Ok d
  else
    let backing := short_backing_asset (options b) in
    let* zero := asset_mul_price (mk_asset 0 backing) (settlement_price b) in
    let to_revive := asset_id zero in
    let* _ := get_asset to_revive d in
    let* bdd := get_dynamic_data to_revive d in
    let* first := price_max backing to_revive in
    let* (ids, covered) := select_bids (bid_range to_revive first d) b (current_supply bdd) 0 d in
    if covered <? current_supply bdd then Ok d
    else
      let* (to_cover, remaining_fund, d) := execute_bids ids b (current_supply bdd) (settlement_fund b) d in
      check remaining_fund =? 0;
      check to_cover =? 0;
      cancel_bids_and_revive_mpa to_revive d.

(** ** The fund goes to the bidders *)

(** Bids cover a non-negative amount of debt. *)
Definition bids_nonneg (d : database) : Prop :=
  forall id b, collateral_bids d !! id = Some b -> 0 <= amount (quote (inv_swan_price b)).

Lemma execute_bid_bids id cov fund feed d d' :
  execute_bid id cov fund feed d = Ok d' -> collateral_bids d' = delete id (collateral_bids d).
Proof.
  unfold execute_bid. intros H. do 4 skip_bind H. apply rbind_ok in H as (d1 & H1 & [= <-]).
  case_if_in H1; [|by injection H1 as <-]. by apply modify_statistics_inv in H1 as (s & s' & _ & _ & ->).
Qed.

Lemma bids_nonneg_delete id d d' : bids_nonneg d -> collateral_bids d' = delete id (collateral_bids d) -> bids_nonneg d'.
Proof. intros Hn E i b Hb. rewrite E in Hb. apply lookup_delete_Some in Hb as [_ Hb]. by eapply Hn. Qed.

(** All of these bids are on the settled asset. *)
Definition bids_on (mia : Z) (ids : list Z) (d : database) : Prop :=
  forall id b, id ∈ ids -> collateral_bids d !! id = Some b -> asset_id (quote (inv_swan_price b)) = mia.

Lemma execute_bids_moves mia bt b ids : forall to_cover fund d tc rf d',
  execute_bids ids b to_cover fund d = Ok (tc, rf, d') -> market_ok d -> bids_nonneg d -> bids_on mia ids d ->
  bitassets d !! mia = Some bt -> 0 <= to_cover ->
  moves (fun x => in_asset x (mk_asset (fund - rf) (short_backing_asset (options bt)))) d d'
  /\ bitassets d' = bitassets d.
Proof.
  induction ids as [|id ids IH]; intros to_cover fund d tc rf d' H Hok Hn Hon Hbt Htc; cbn [execute_bids] in H.
  { injection H as _ -> ->. split; [|done]. eapply moves_ext; [by apply moves_refl|].
    intros x. rewrite Z.sub_diag, in_asset_0. done. }
  unfold deref_bid in H. apply rbind_ok in H as (bid & Hb & H). unfold get_or in Hb.
  destruct (collateral_bids d !! id) as [bid'|] eqn:Eb; [|done]. injection Hb as ->.
  apply rbind_ok in H as (part & _ & H). cbv zeta in H.
  set (debt := if amount (quote (inv_swan_price bid)) >=? to_cover then to_cover else amount (quote (inv_swan_price bid))) in H.
  set (coll := if amount (quote (inv_swan_price bid)) >=? to_cover then fund else amount part) in H.
  apply rbind_ok in H as (tc1 & E1 & H). apply Share.sub_value in E1 as ->.
  apply rbind_ok in H as (rf1 & E2 & H). apply Share.sub_value in E2 as ->.
  apply rbind_ok in H as (d1 & H1 & H). pose proof (execute_bid_bids _ _ _ _ _ _ H1) as Ed.
  assert (Hdebt : 0 <= debt <= to_cover).
  { pose proof (Hn _ _ Eb). unfold debt. case_if; bool_to_prop; lia. }
  destruct (execute_bid_moves _ _ _ _ _ _ _ H1 Hok (proj1 Hdebt) Eb) as [M1 Ebt].
  assert (Hback : asset_id (base (inv_swan_price bid)) = short_backing_asset (options bt)).
  { eapply ok_bid_backing; [exact Hok|exact Eb|]. rewrite (Hon _ _ (list_elem_of_here _ _) Eb). exact Hbt. }
  destruct (IH _ _ _ _ _ _ H (proj1 M1)) as [M2 Ebt2]; [by eapply bids_nonneg_delete| | by rewrite Ebt|lia|].
  { intros i c Hi Hc. rewrite Ed in Hc. apply lookup_delete_Some in Hc as [_ Hc].
    by apply (Hon i c); [apply list_elem_of_further|]. }
  split; [|congruence]. eapply moves_trans; [exact M1|exact M2|]. intros x. cbv beta. rewrite Hback, <- in_asset_add.
  f_equal. f_equal. lia.
Qed.

Lemma select_bids_sub b supply_ d ids : forall covered l c,
  select_bids ids b supply_ covered d = Ok (l, c) -> forall id, id ∈ l -> id ∈ ids.
Proof.
  induction ids as [|i ids IH]; intros covered l c H id Hin; cbn [select_bids] in H.
  { injection H as <- _. done. }
  case_if_in H; [|injection H as <- _; by apply not_elem_of_nil in Hin].
  do 4 skip_bind H. case_if_in H; [injection H as <- _; by apply not_elem_of_nil in Hin|].
  apply rbind_ok in H as (cv & _ & H). apply rbind_ok in H as ([l' c'] & Hs & [= <- _]).
  apply elem_of_cons in Hin as [->|Hin]; [apply list_elem_of_here|apply list_elem_of_further; by eapply IH].
Qed.

Lemma bid_range_on mia first d : bids_on mia (bid_range mia first d) d.
Proof.
  intros id b Hin Hb. unfold bid_range in Hin. apply list_elem_of_fmap in Hin as ([i c] & -> & Hin).
  apply sort_by_elem, list_elem_of_filter in Hin as [Hf Hin]. apply elem_of_map_to_list in Hin. cbn in *.
  rewrite Hb in Hin. injection Hin as ->. apply andb_prop_elim in Hf as [Hf _].
  apply Is_true_true, Z.eqb_eq in Hf. exact Hf.
Qed.

(** The price of a global settlement leads from the backing asset to the asset itself. *)
Lemma revived_asset mia b d z : market_ok d -> bitassets d !! mia = Some b -> has_settlement b = true ->
  mia <> short_backing_asset (options b) ->
  asset_mul_price (mk_asset 0 (short_backing_asset (options b))) (settlement_price b) = Ok z -> asset_id z = mia.
Proof.
  intros Hok Hb Hs Hne H. destruct (ok_settled _ Hok _ _ Hb Hs) as [E1 E2].
  unfold asset_mul_price in H. rewrite E1, E2 in H. cbn [asset_id] in H.
  rewrite (proj2 (Z.eqb_neq _ _)), Z.eqb_refl in H by congruence. res_inv. done.
Qed.

Lemma process_bids_moves mia b d d' : process_bids b d = Ok d' -> market_ok d -> bids_nonneg d ->
  bitassets d !! mia = Some b -> has_settlement b = true -> mia <> short_backing_asset (options b) ->
  (forall dd, dynamic_data d !! mia = Some dd -> 0 <= current_supply dd) ->
  moves neutral d d'.
Proof.
  intros H Hok Hn Hb Hs Hne Hsup. unfold process_bids in H. case_if_in H; [injection H as <-; by apply moves_refl|].
  apply rbind_ok in H as (z & Hz & H). rewrite (revived_asset mia b d z Hok Hb Hs Hne Hz) in H. skip_bind H.
  apply rbind_ok in H as (dd & Hdd & H). unfold get_dynamic_data, get_or in Hdd.
  destruct (dynamic_data d !! mia) as [dd'|] eqn:Edd; [|done]. injection Hdd as ->. skip_bind H.
  apply rbind_ok in H as ([ids cov] & Hsel & H). case_if_in H; [injection H as <-; by apply moves_refl|].
  apply rbind_ok in H as ([[tc rf] d1] & Hx & H).
  assert (Hon : bids_on mia ids d).
  { intros id c Hin Hc. eapply (bid_range_on mia skipped0); [by eapply select_bids_sub|exact Hc]. }
  destruct (execute_bids_moves mia b b ids _ _ _ _ _ _ Hx Hok Hn Hon Hb (Hsup _ eq_refl)) as [M1 E1].
  apply rbind_ok in H as (u & Hrf & H). unfold fc_assert in Hrf. case_if_in Hrf; [|done]. apply Z.eqb_eq in Hif1. subst rf.
  skip_bind H. eapply moves_trans; [exact M1|eapply cancel_bids_revive_moves; [exact H|apply M1|by rewrite E1]|].
  intros x. cbv beta. unfold neutral. rewrite Z.sub_0_r. lia.
Qed.

(** ** The bidders owe the supply *)

(** What margin positions owe of an asset. *)
Definition owed (x : Z) (d : database) : Z := sum_map (fun _ c => in_asset x (get_debt c)) (call_orders d).

Lemma execute_bid_owed id cov fund feed d d' b x : execute_bid id cov fund feed d = Ok d' -> market_ok d ->
  collateral_bids d !! id = Some b ->
  owed x d' = owed x d + in_asset x (mk_asset cov (asset_id (quote (inv_swan_price b)))).
Proof.
  intros H Hok Hb. unfold execute_bid, deref_bid in H. rewrite Hb in H. cbn [get_or rbind] in H. skip_bind H.
  apply rbind_ok in H as (cp & Hcp & H). apply call_price_ids in Hcp as [_ Eq]. skip_bind H.
  apply rbind_ok in H as (d1 & H1 & [= <-]).
  assert (E : call_orders d1 = <[next_call_order d := mk_call (bidder b) skipped cov cp]> (call_orders d)).
  { case_if_in H1; [|by injection H1 as <-]. by apply modify_statistics_inv in H1 as (s & s' & _ & _ & ->). }
  unfold owed. cbn [call_orders set_collateral_bids push_op set_applied_ops]. rewrite E.
  rewrite sum_map_insert_new by (by apply fresh_call). unfold get_debt, debt_type. cbn [debt co_call_price].
  rewrite Eq. cbn. lia.
Qed.

Lemma execute_bids_owed mia bt b ids : forall to_cover fund d tc rf d',
  execute_bids ids b to_cover fund d = Ok (tc, rf, d') -> market_ok d -> bids_nonneg d -> bids_on mia ids d ->
  bitassets d !! mia = Some bt -> 0 <= to_cover -> owed mia d' = owed mia d + (to_cover - tc).
Proof.
  induction ids as [|id ids IH]; intros to_cover fund d tc rf d' H Hok Hn Hon Hbt Htc; cbn [execute_bids] in H.
  { injection H as -> _ ->. lia. }
  unfold deref_bid in H. apply rbind_ok in H as (bid & Hb & H). unfold get_or in Hb.
  destruct (collateral_bids d !! id) as [bid'|] eqn:Eb; [|done]. injection Hb as ->.
  apply rbind_ok in H as (part & _ & H). cbv zeta in H.
  set (debt := if amount (quote (inv_swan_price bid)) >=? to_cover then to_cover else amount (quote (inv_swan_price bid))) in H.
  apply rbind_ok in H as (tc1 & E1 & H). apply Share.sub_value in E1 as ->. skip_bind H.
  apply rbind_ok in H as (d1 & H1 & H). pose proof (execute_bid_bids _ _ _ _ _ _ H1) as Ed.
  assert (Hdebt : 0 <= debt <= to_cover).
  { pose proof (Hn _ _ Eb). unfold debt. case_if; bool_to_prop; lia. }
  destruct (execute_bid_moves _ _ _ _ _ _ _ H1 Hok (proj1 Hdebt) Eb) as [M1 Ebt].
  pose proof (execute_bid_owed _ _ _ _ _ _ _ mia H1 Hok Eb) as Eo.
  rewrite (Hon _ _ (list_elem_of_here _ _) Eb) in Eo. unfold in_asset in Eo. cbn [asset_id amount] in Eo.
  rewrite Z.eqb_refl in Eo.
  rewrite (IH _ _ _ _ _ _ H (proj1 M1)); [lia|by eapply bids_nonneg_delete| |by rewrite Ebt|lia].
  intros i c Hi Hc. rewrite Ed in Hc. apply lookup_delete_Some in Hc as [_ Hc].
  by apply (Hon i c); [apply list_elem_of_further|].
Qed.

Lemma cancel_bid_calls id vop d d' : cancel_bid id vop d = Ok d' -> call_orders d' = call_orders d.
Proof.
  unfold cancel_bid. intros H. skip_bind H. apply rbind_ok in H as (d1 & H1 & [= <-]).
  apply adjust_balance_total in H1 as (m & -> & _). by destruct vop.
Qed.

Lemma cancel_bids_calls ids : forall d d', cancel_bids ids d = Ok d' -> call_orders d' = call_orders d.
Proof.
  induction ids as [|id ids IH]; intros d d' H; cbn in H; [by injection H as <-|].
  apply rbind_ok in H as (d1 & H1 & H). rewrite (IH _ _ H). by eapply cancel_bid_calls.
Qed.

(** ** Properties *)

(** C23: Bids revive an asset fairly.  Processing the bids on a globally settled asset
    creates no units and keeps the invariant of the market; and either nothing happens, or
    the asset is no longer settled, its fund is empty and margin positions owe exactly
    its supply more than before. *)
Theorem process_bids_revives (mia : Z) (b : asset_bitasset_data) (d d' : database) (dd : asset_dynamic_data)
    (H : process_bids b d = Ok d') (Hok : market_ok d) (Hn : bids_nonneg d)
    (Hb : bitassets d !! mia = Some b) (Hs : has_settlement b = true) (Hne : mia <> short_backing_asset (options b))
    (Hdd : dynamic_data d !! mia = Some dd) (Hsup : 0 <= current_supply dd) :
  moves neutral d d' /\
  (d' = d \/ (exists b', bitassets d' !! mia = Some b' /\ has_settlement b' = false /\ settlement_fund b' = 0)
             /\ owed mia d' = owed mia d + current_supply dd).
Proof.
  split; [eapply process_bids_moves; try done; intros ? E; rewrite Hdd in E; by injection E as <-|].
  unfold process_bids in H. case_if_in H; [injection H as <-; by left|].
  apply rbind_ok in H as (z & Hz & H). rewrite (revived_asset mia b d z Hok Hb Hs Hne Hz) in H. skip_bind H.
  unfold get_dynamic_data in H. rewrite Hdd in H. cbn [get_or rbind] in H. skip_bind H.
  apply rbind_ok in H as ([ids cov] & Hsel & H). case_if_in H; [injection H as <-; by left|].
  apply rbind_ok in H as ([[tc rf] d1] & Hx & H). right.
  assert (Hon : bids_on mia ids d).
  { intros id c Hin Hc. eapply (bid_range_on mia skipped0); [by eapply select_bids_sub|exact Hc]. }
  pose proof (execute_bids_owed mia b b ids _ _ _ _ _ _ Hx Hok Hn Hon Hb Hsup) as Eo.
  skip_bind H. apply rbind_ok in H as (u & Htc & H). unfold fc_assert in Htc. case_if_in Htc; [|done].
  apply Z.eqb_eq in Hif1. subst tc. unfold cancel_bids_and_revive_mpa in H. do 5 skip_bind H.
  apply rbind_ok in H as (d2 & Hc & H). apply cancel_bids_calls in Hc. apply rbind_ok in H as (b' & _ & [= <-]).
  split; [eexists; split; [apply lookup_insert_eq|done]|]. unfold owed in *. cbn [call_orders set_bitassets].
  rewrite Hc, Eo. lia.
Qed.

(** Asset 7, backed by asset 3, was settled at 2 units of the fund for one; two bids cover
    its supply of 100. *)
Definition demo_settled_asset : asset_bitasset_data :=
  mk_bitasset (mk_bitasset_options 86400 1 0 0 0 3) []
    (mk_price_feed (mk_price (mk_asset 1 7) (mk_asset 2 3)) 1750 1100) 1000 0
    (mk_price (mk_asset 1 7) (mk_asset 2 3)) 200.

Definition demo_bid_db : database :=
  set_collateral_bids {[ 0 := mk_bid 5 (mk_price (mk_asset 150 3) (mk_asset 60 7));
                         1 := mk_bid 6 (mk_price (mk_asset 160 3) (mk_asset 60 7)) ]}
    (set_next_bid 2 (set_bitassets {[ 7 := demo_settled_asset ]}
      (set_assets {[ 7 := mk_asset_object "MPA" 5 9 (mk_asset_options 1000000 0 0 0 0 None "") true ]}
        (set_dynamic_data {[ 7 := mk_dyn 100 0 ]} demo_ledger)))).

Lemma demo_bid_ok : market_ok demo_bid_db /\ bids_nonneg demo_bid_db.
Proof.
  unfold demo_bid_db, bids_nonneg.
  split.
  - split; cbn [assets bitassets collateral_bids next_bid limit_orders call_orders set_collateral_bids
      set_next_bid set_bitassets set_assets set_dynamic_data demo_ledger].
    + intros x a H. apply lookup_singleton_Some in H as [_ <-]. cbn. lia.
    + intros x b H Hs. apply lookup_singleton_Some in H as [_ <-]. discriminate Hs.
    + intros x b H _. apply lookup_singleton_Some in H as [<- <-]. done.
    + done.
    + done.
    + intros id b H. apply lookup_insert_Some in H as [[<- _]|[_ H]]; [done|]. apply lookup_singleton_Some in H as [<- _]. done.
    + done.
    + intros id c b H Hb. apply lookup_singleton_Some in Hb as [_ <-].
      apply lookup_insert_Some in H as [[_ <-]|[_ H]]; [done|]. apply lookup_singleton_Some in H as [_ <-]. done.
  - cbn [collateral_bids set_collateral_bids]. intros id b H.
    apply lookup_insert_Some in H as [[_ <-]|[_ H]]; [cbn; lia|]. apply lookup_singleton_Some in H as [_ <-]. cbn. lia.
Qed.

Lemma process_bids_revives_witness :
  match process_bids demo_settled_asset demo_bid_db with
  | Ok d' => owed 7 d' = 100
  | Err _ => False
  end.
Proof.
  assert (Hok : is_ok (process_bids demo_settled_asset demo_bid_db) = true) by (vm_compute; reflexivity).
  assert (Hch : match process_bids demo_settled_asset demo_bid_db with
                | Ok d' => size (call_orders d') = 2%nat | Err _ => True end) by (vm_compute; reflexivity).
  destruct (process_bids demo_settled_asset demo_bid_db) as [d'|] eqn:E; [|discriminate Hok].
  destruct (process_bids_revives 7 demo_settled_asset demo_bid_db d' (mk_dyn 100 0) E (proj1 demo_bid_ok)
    (proj2 demo_bid_ok) eq_refl eq_refl ltac:(done) eq_refl ltac:(cbn; lia)) as [_ [->|[_ Eo]]].
  - discriminate Hch.
  - etransitivity; [exact Eo|]. vm_compute. reflexivity.
Defined.
