(* ===== verification/Budget.v ===== *)
(** * The budget of a maintenance interval

    The second part of [db_maint.cpp] and [worker_evaluator.cpp]: how much of the core
    reserve an interval may spend, the shares of witnesses, workers and candidates, and
    what happens to the shares of the interval before.  The [assert]s on the time to the
    next maintenance and on the block interval are [c_assert]s; the one on the supply is an
    identity of the terms it was computed from.  The products of signed 64-bit integers wrap. *)

From Stdlib Require Import SpecFloat.
From S2P Require Import Prelude SafeInt Asset Vesting Authority State Ledger Market Double Fees Operations AssetEval Candidates Elections.

(** ** Creating workers *)

Inductive worker_initializer :=
| destroy_worker_initializer
| vesting_balance_worker_initializer (pay_vesting_period_days : Z) (describe : option string)
| burn_worker_initializer
| issuance_worker_initializer.

Record worker_create_operation := mk_worker_create {
  wc_beneficiary : option Z;
  wc_work_begin_date : Z;
  wc_work_end_date : Z;
  wc_daily_pay : Z;
  wc_name : string;
  wc_describe : string;
  wc_initializer : worker_initializer }.

Abbreviation GRAPHENE_MAX_WORKER_NAME_LENGTH := 63.
Abbreviation GRAPHENE_DESCRIBE_LENGTH := 1024.

Definition worker_create_validate (op : worker_create_operation) : result unit :=
  check wc_work_end_date op >? wc_work_begin_date op;
  check wc_daily_pay op >? 0;
  check wc_daily_pay op <? GRAPHENE_MAX_SHARE_SUPPLY;
  check Z.of_nat (String.length (wc_name op)) <? GRAPHENE_MAX_WORKER_NAME_LENGTH;
  fc_assert (Z.of_nat (String.length (wc_describe op)) <? GRAPHENE_DESCRIBE_LENGTH).

Definition worker_create_do_evaluate (op : worker_create_operation) (d : database) : result unit :=
  fc_assert (wc_work_begin_date op >=? head_block_time d).

(** [worker_init_visitor]: only a worker paid into a vesting balance needs one. *)
Definition init_worker (beneficiary : option Z) (i : worker_initializer) (d : database)
    : result (worker_type * database) :=
  match i with
  | destroy_worker_initializer => Ok (destroy_worker 0, d)
  | vesting_balance_worker_initializer days descr =>
      let* b := get_or beneficiary assert_exception in
      let id := next_vesting_balance d in
      let p := mk_cdd (wrap32 (days * 86400)) 0 0 (head_block_time d) in
      let v := mk_vbo b (mk_asset 0 CORE) (head_block_time d) 0 (Cdd p) descr in
      Ok (vesting_balance_worker id, set_next_vesting_balance (id + 1)
            (set_vesting_balances (<[id := v]> (vesting_balances d)) d))
  | burn_worker_initializer => Ok (burn_worker 0, d)
  | issuance_worker_initializer => Ok (issuance_worker 0, d)
  end.

(** A new worker goes behind the others that are not completed. *)
Definition worker_create_do_apply (op : worker_create_operation) (d : database) : result (Z * database) :=
  let* (w, d) := init_worker (wc_beneficiary op) (wc_initializer op) d in
  let g := governance d in
  let id := next_worker g in
  let o := mk_worker (wc_beneficiary op) (wc_work_begin_date op) (wc_work_end_date op) (wc_daily_pay op) w
             (wc_name op) (wc_describe op) false in
  Ok (id, set_governance (set_uncompleted_workers (uncompleted_workers g ++ [id])
            (set_next_worker (id + 1) (set_workers (<[id := o]> (workers g)) g))) d).

(** ** Paying workers *)

Definition issuance_or_destroy (w : worker_object) : bool :=
  match worker w with
  | issuance_worker _ | destroy_worker _ => true
  | _ => false
  end.

Definition worker_is_active (now : Z) (w : worker_object) : bool :=
  (now >=? work_begin_date w) && (now <=? work_end_date w).

(** [asset_object::reserved]. *)
Definition reserved (x : Z) (d : database) : result Z :=
  let* a := get_asset x d in
  let* dd := get_dynamic_data x d in
  Share.sub (max_supply a) (current_supply dd).

Definition with_max_supply (ms mf : Z) (a : asset_object) : asset_object :=
  let o := common_options a in
  mk_asset_object (symbol a) (precision a) (issuer a)
    (mk_asset_options ms (opt_market_fee_percent o) mf (opt_issuer_permissions o) (opt_flags o)
       (opt_core_exchange_rate o) (description o)) (is_market_issued a).

Definition modify_core (f : asset_object -> result asset_object) (d : database) : result database :=
  let* a := get_asset CORE d in
  let* a := f a in
  Ok (set_assets (<[CORE := a]> (assets d)) d).

(** [pay_worker] of the four kinds; the null account is what burns. *)
Definition pay_worker (pay : Z) (w : worker_type) (d : database) : result (worker_type * database) :=
  match w with
  | destroy_worker t =>
      let* t := Share.add t pay in
      let* d := modify_core (fun a =>
        let* r := reserved CORE d in
        check r >=? pay;
        let* ms := Share.sub (max_supply a) pay in
        Ok (with_max_supply ms (if max_market_fee a <=? ms then max_market_fee a else ms) a)) d in
      Ok (destroy_worker t, d)
  | vesting_balance_worker id =>
      let* v := get_or (vesting_balances d !! id) assert_exception in
      let* v := deposit v (head_block_time d) (mk_asset pay CORE) in
      Ok (vesting_balance_worker id, set_vesting_balances (<[id := v]> (vesting_balances d)) d)
  | burn_worker t =>
      let* t := Share.add t pay in
      let* d := adjust_balance GRAPHENE_NULL_ACCOUNT (mk_asset pay CORE) false d in
      Ok (burn_worker t, d)
  | issuance_worker t =>
      let* t := Share.add t pay in
      let* d := modify_core (fun a =>
        let* ms := Share.add (max_supply a) pay in
        Ok (with_max_supply ms (max_market_fee a) a)) d in
      Ok (issuance_worker t, d)
  end.

Definition with_worker (t : worker_type) (w : worker_object) : worker_object :=
  mk_worker (beneficiary w) (work_begin_date w) (work_end_date w) (daily_pay w) t (worker_name w)
    (worker_describe w) (completed w).
Definition as_completed (w : worker_object) : worker_object :=
  mk_worker (beneficiary w) (work_begin_date w) (work_end_date w) (daily_pay w) (worker w) (worker_name w)
    (worker_describe w) true.

Definition get_worker (id : Z) (d : database) : result worker_object :=
  get_or (workers (governance d) !! id) assert_exception.
Definition put_worker (id : Z) (w : worker_object) (d : database) : database :=
  let g := governance d in set_governance (set_workers (<[id := w]> (workers g)) g) d.

(** The walk over the uncompleted workers.  Marking one completed changes the key the
    walk goes by: unless it is the last one, it moves behind everything, and the step
    after it leads to the end of the index.  That is the end of the walk if there were no
    completed workers; otherwise the walk runs past its end.  Returns the active workers
    in order and the time of settlement. *)
Fixpoint walk_workers (l : list Z) (had_completed : bool) (settle : Z) (d : database)
    : result (list Z * Z * database) :=
  match l with
  | [] => Ok ([], settle, d)
  | id :: l' =>
      let* w := get_worker id d in
      if work_end_date w <=? settle then
        let g := governance d in
        let d := put_worker id (as_completed w)
                   (set_governance (set_uncompleted_workers
                      (filter (fun i => i <> id) (uncompleted_workers g)) g) d) in
        match l' with
        | [] => Ok ([], work_end_date w, d)
        | _ => if had_completed then Err undefined_behaviour else Ok ([], work_end_date w, d)
        end
      else
        let* (act, settle', d) := walk_workers l' had_completed settle d in
        Ok (if worker_is_active settle w then id :: act else act, settle', d)
  end.

(** What a worker asks for: its daily pay, or its part of a day. *)
Definition requested_pay (settle last_budget : Z) (w : worker_object) : result Z :=
  if negb (settle - last_budget =? 86400) then
    to_uint64 (wrap128 (wrap128 (daily_pay w) * wrap128 ((settle - last_budget) * 1000000)) / 86400000000)
  else Ok (daily_pay w).

Fixpoint pay_active (l : list Z) (settle last_budget budget : Z) (d : database) : result (Z * database) :=
  match l with
  | [] => Ok (budget, d)
  | id :: l' =>
      let* w := get_worker id d in
      if negb (issuance_or_destroy w) && (budget <=? 0) then pay_active l' settle last_budget budget d
      else
        let* requested := requested_pay settle last_budget w in
        let pay := Z.min budget requested in
        let* (t, d) := pay_worker pay (worker w) d in
        let d := put_worker id (with_worker t w) d in
        let* budget := if negb (issuance_or_destroy w) then Share.sub budget pay else Ok budget in
        pay_active l' settle last_budget budget d
  end.

Definition has_completed (g : governance_state) : bool :=
  existsb (fun kv => completed kv.2) (map_to_list (workers g)).

(** Returns what is left of the budget. *)
Definition pay_workers (last_budget budget : Z) (d : database) : result (Z * database) :=
  let g := governance d in
  let* (act, settle, d) := walk_workers (uncompleted_workers g) (has_completed g) (head_block_time d) d in
  pay_active act settle last_budget budget d.

(** ** Paying the candidates *)

Abbreviation UNSUCCESSFUL_CANDIDATE_DIFFPOINT := 1765771.
Abbreviation ALL_PERCENT := 10000.

(** A member of an authority gets the part of its weight in twice the threshold. *)
Definition weight_share (weight threshold ratio : Z) : result Z :=
  double_to_int64 (double_mul (double_div (double_div (double_of_int64 weight) (double_of_int64 2))
                                 (double_of_int64 threshold)) (double_of_int64 ratio)).

(** Returns the amount paid in all. *)
Fixpoint pay_members (l : list (Z * Z)) (threshold ratio cumulative : Z) (d : database) : result (Z * database) :=
  match l with
  | [] => Ok (cumulative, d)
  | (acc, weight) :: l' =>
      let* proportion := weight_share weight threshold ratio in
      check (proportion <=? ratio) && (cumulative <=? ratio);
      let* d := adjust_balance acc (mk_asset proportion CORE) false d in
      let* cumulative := Share.add cumulative proportion in
      pay_members l' threshold ratio cumulative d
  end.

Fixpoint pay_each (l : list Z) (proportion : Z) (d : database) : result database :=
  match l with
  | [] => Ok d
  | acc :: l' =>
      let* d := adjust_balance acc (mk_asset proportion CORE) false d in
      pay_each l' proportion d
  end.

(** The votes of a candidate beyond its frozen units; the last reference counts. *)
Definition votes_beyond (acc freeze : Z) (refs : list (Z * candidate)) : Z :=
  foldl (fun v ic => if cand_account ic.2 =? acc then wrap64 (total_votes ic.2 - freeze) else v) 0 refs.

Definition unsuccessful_votes (e : election_state) (p : chain_parameters) (acc : Z) : Z :=
  let v := votes_beyond acc (witness_candidate_freeze p) (witness_refs e) in
  if v >? 0 then v else votes_beyond acc (committee_candidate_freeze p) (committee_refs e).

Definition votes_share (ratio votes total : Z) : result Z :=
  double_to_int64 (double_div (double_mul (double_of_int64 ratio) (double_of_int64 votes))
                     (double_of_int64 total)).

Fixpoint pay_by_votes (l : list (Z * Z)) (ratio total cumulative : Z) (d : database) : result (Z * database) :=
  match l with
  | [] => Ok (cumulative, d)
  | (acc, votes) :: l' =>
      let* proportion := votes_share ratio votes total in
      let* d := adjust_balance acc (mk_asset proportion CORE) false d in
      let* cumulative := Share.add cumulative proportion in
      pay_by_votes l' ratio total cumulative d
  end.

(** Up to a block number in equal parts, after it by votes; [l] is sorted. *)
Definition pay_unsuccessful (l : list Z) (e : election_state) (ratio block_num : Z) (d : database)
    : result (Z * database) :=
  match l with
  | [] => Ok (0, d)
  | _ =>
      if block_num <=? UNSUCCESSFUL_CANDIDATE_DIFFPOINT then
        let n := Z.of_nat (length l) in
        let* proportion := double_to_int64 (double_div (double_of_int64 ratio) (double_of_int64 n)) in
        let* cumulative := Share.mul proportion n in
        check cumulative <=? ratio;
        let* d := pay_each l proportion d in
        Ok (cumulative, d)
      else
        let votes := map (fun acc => (acc, unsuccessful_votes e (parameters (governance d)) acc)) l in
        let total := wrap64 (sumZ snd votes) in
        pay_by_votes votes ratio total 0 d
  end.

(** A percentage of an amount: the product is a signed 64-bit one. *)
Definition percent_of (amt percent : Z) : result Z :=
  to_uint64 (wrap128 (to_int64 (amt * percent)) / ALL_PERCENT).

(** Returns what is left of the budget. *)
Definition pay_candidates (budget committee_percent unsuccessful_percent block_num : Z)
    (unsuccessful : list Z) (e : election_state) (d : database) : result (Z * database) :=
  let* committee_ratio := percent_of budget committee_percent in
  let* rest := Share.sub budget committee_ratio in
  let* unsuccessful_ratio := percent_of rest unsuccessful_percent in
  let* rest := Share.sub budget committee_ratio in
  let* witness_ratio := Share.sub rest unsuccessful_ratio in
  let* relaxed := get_account GRAPHENE_RELAXED_COMMITTEE_ACCOUNT d in
  let* (committee_cumulative, d) := pay_members (account_auths (active_auth relaxed))
                                      (weight_threshold (active_auth relaxed)) committee_ratio 0 d in
  let* wits := get_account GRAPHENE_WITNESS_ACCOUNT d in
  let* (witness_cumulative, d) := pay_members (account_auths (active_auth wits))
                                    (weight_threshold (active_auth wits)) witness_ratio 0 d in
  let* (unsuccessful_cumulative, d) := pay_unsuccessful unsuccessful e unsuccessful_ratio block_num d in
  let* paid := Share.add committee_cumulative witness_cumulative in
  let* paid := Share.add paid unsuccessful_cumulative in
  let* remains := Share.sub budget paid in
  Ok (remains, d).

(** ** The budget *)

Record budget_record := mk_budget {
  time_since_last_budget : Z;
  from_initial_reserve : Z;
  from_accumulated_fees : Z;
  from_unused_witness_budget : Z;
  requested_witness_budget : Z;
  total_budget : Z;
  rec_witness_budget : Z;
  worker_budget : Z;
  leftover_worker_funds : Z;
  candidates_budget : Z;
  leftover_candidates_budget : Z;
  supply_delta : Z }.

(** What the budget keeps between two intervals: the time of the last one, the unspent
    budget of the witnesses and the records. *)
Record budget_state := mk_budget_state {
  last_budget_time : Z;
  unspent_witness_budget : Z;
  budget_records : list (Z * budget_record) }.

Abbreviation GRAPHENE_CORE_ASSET_CYCLE_RATE := 17.
Abbreviation GRAPHENE_CORE_ASSET_CYCLE_RATE_BITS := 32.

(** The part of a reserve that may flow in [dt] seconds, rounded up. *)
Definition flow (reserve dt : Z) : Z :=
  let b := wrap128 (wrap128 reserve * wrap64 dt) in
  let b := wrap128 (b * GRAPHENE_CORE_ASSET_CYCLE_RATE) in
  let b := wrap128 (b + (wrap64 (Z.shiftl 1 GRAPHENE_CORE_ASSET_CYCLE_RATE_BITS) - 1)) in
  Z.shiftr b GRAPHENE_CORE_ASSET_CYCLE_RATE_BITS.

Definition initialize_budget_record (now : Z) (s : budget_state) (d : database) : result budget_record :=
  let* r := reserved CORE d in
  let* dd := get_dynamic_data CORE d in
  let fees := accumulated_fees dd in
  let rec total dt := mk_budget dt r fees (unspent_witness_budget s) 0 total 0 0 0 0 0 0 in
  if (last_budget_time s =? 0) || (now <=? last_budget_time s) then
    let* total := Share.add r fees in
    Ok (rec total 0)
  else
    let dt := now - last_budget_time s in
    let* reserve := Share.add r fees in
    let* reserve := Share.add reserve (unspent_witness_budget s) in
    let b := flow reserve dt in
    let* total := if b <? wrap128 reserve then to_uint64 b else Ok reserve in
    Ok (rec total (wrap64 dt)).

(** The witnesses ask for their pay of the blocks to come. *)
Definition requested_for_witnesses (time_to_maint interval pay_per_block : Z) : result Z :=
  if interval =? 0 then Err undefined_behaviour
  else
    let blocks_to_maint := wrap64 (wrap64 time_to_maint + interval - 1) / interval in
    Ok (to_int64 (pay_per_block * blocks_to_maint)).

(** The workers ask for their part of a day's budget. *)
Definition budget_for_workers (per_day time_to_maint available : Z) : result Z :=
  let b := wrap128 (wrap128 per_day * wrap64 time_to_maint) / 86400 in
  if b >=? wrap128 available then Ok available else to_uint64 b.

(** The budgets of the last record are paid out; what is left of them returns. *)
Definition pay_last_record (old_committee_percent old_unsuccessful_percent block_num : Z) (unsuccessful : list Z)
    (e : election_state) (s : budget_state) (d : database) : result (Z * Z * database) :=
  match last (budget_records s) with
  | None => Ok (0, 0, d)
  | Some (_, r) =>
      let* (lw, d) := pay_workers (last_budget_time s) (worker_budget r) d in
      let* (lc, d) := pay_candidates (candidates_budget r) old_committee_percent old_unsuccessful_percent
                        block_num unsuccessful e d in
      Ok (lw, lc, d)
  end.

(** [process_budget]: [next_maintenance] is the time of the next maintenance. *)
Definition process_budget (next_maintenance old_committee_percent old_unsuccessful_percent block_num : Z)
    (unsuccessful : list Z) (e : election_state) (s : budget_state) (d : database)
    : result (budget_state * database) :=
  let p := parameters (governance d) in
  let now := head_block_time d in
  let time_to_maint := next_maintenance - now in
  let* _ := c_assert (time_to_maint >? 0) in
  let* _ := c_assert (block_interval_ p >? 0) in
  let* requested := requested_for_witnesses time_to_maint (block_interval_ p) (witness_pay_per_block_ p) in
  let* rec := initialize_budget_record now s d in
  let wb := Z.min requested (total_budget rec) in
  let* available := Share.sub (total_budget rec) wb in
  let* wkb := budget_for_workers (worker_budget_per_day p) time_to_maint available in
  let* available := Share.sub available wkb in
  let cb := Z.min (candidate_award_budget p) available in
  let* (lw, lc, d) := pay_last_record old_committee_percent old_unsuccessful_percent block_num unsuccessful
                        e s d in
  let* unused := Share.add lw lc in
  let* _ := Share.add available unused in
  let* out := Share.add wb wkb in
  let* out := Share.add out cb in
  let* back := Share.add lw (from_accumulated_fees rec) in
  let* back := Share.add back (from_unused_witness_budget rec) in
  let* back := Share.add back lc in
  let* delta := Share.sub out back in
  let* d := modify_dynamic_data CORE
              (fun dd => let* s := Share.add (current_supply dd) delta in Ok (mk_dyn s 0)) d in
  let rec := mk_budget (time_since_last_budget rec) (from_initial_reserve rec) (from_accumulated_fees rec)
               (from_unused_witness_budget rec) requested (total_budget rec) wb wkb lw cb lc delta in
  Ok (mk_budget_state now wb (budget_records s ++ [(now, rec)]), d).

(** ** What maintenance keeps *)

(** The time of the last budget, the budget records, the references and results of the
    running election, the accounts that were not elected, in their order, and the active
    committee members. *)
Record maintenance_state := mk_maintenance {
  ms_last_budget_time : Z;
  ms_budget_records : list (Z * budget_record);
  election : election_state;
  unsuccessful_candidates : list Z;
  active_committee_members : list Z }.

Definition no_maintenance : maintenance_state := mk_maintenance 0 [] no_election [] [].
