(* ===== verification/BudgetSpec.v ===== *)
(** * What the budget guarantees

    Paying workers and candidates brings exactly the amount into the state that leaves
    the budget ([pays]); over a whole maintenance interval the core units that exist, with
    the budgets that wait, move with the recorded supply, and no interval spends more
    than the reserve lets flow. *)

From S2P Require Import Prelude SafeInt Asset Vesting Authority State Ledger Market MarketProofs Double Fees Operations AssetEval Candidates Elections Budget.

(** ** Payments *)

(** [amt] core units came into the state from outside of it; the recorded supplies and
    fees did not move. *)
Definition pays (amt : Z) (d d' : database) : Prop :=
  (forall x, total x d' = total x d + in_asset x (mk_asset amt CORE)) /\ dynamic_data d' = dynamic_data d.

Lemma pays_refl d : pays 0 d d.
Proof. split; [|done]. intros x. rewrite in_asset_0. lia. Qed.

Lemma pays_trans a b d1 d2 d3 : pays a d1 d2 -> pays b d2 d3 -> pays (a + b) d1 d3.
Proof. intros [T1 D1] [T2 D2]. split; [|congruence]. intros x. rewrite T2, T1, in_asset_add. lia. Qed.

Lemma pays_eq a b d d' : pays a d d' -> a = b -> pays b d d'.
Proof. by intros H <-. Qed.

Lemma adjust_balance_pays acc amt d d' : adjust_balance acc (mk_asset amt CORE) false d = Ok d' -> pays amt d d'.
Proof.
  intros H. split; [intros x; by destruct (adjust_balance_excess _ _ _ _ _ x H) as [-> _]|].
  by apply adjust_balance_total in H as (m & -> & _).
Qed.

Lemma deposit_pays id v v' now amt d : vesting_balances d !! id = Some v ->
  deposit v now (mk_asset amt CORE) = Ok v' -> pays amt d (set_vesting_balances (<[id := v']> (vesting_balances d)) d).
Proof.
  intros Hv Hd. split; [|done]. intros x. rewrite total_set_vesting, in_vesting_insert, Hv.
  rewrite (deposit_policy_balance _ _ _ _ x Hd). lia.
Qed.

(** Governance and asset objects hold no units. *)
Lemma pays_frame amt d d' f : pays amt d d' -> (forall x, total x (f d') = total x d') ->
  dynamic_data (f d') = dynamic_data d' -> pays amt d (f d').
Proof. intros [T D] Ht Hd. split; [|congruence]. intros x. by rewrite Ht. Qed.

Lemma put_worker_pays amt id w d d' : pays amt d d' -> pays amt d (put_worker id w d').
Proof. intros H. by apply (pays_frame _ _ _ (put_worker id w)). Qed.

Lemma modify_core_pays f d d' : modify_core f d = Ok d' -> pays 0 d d'.
Proof.
  unfold modify_core. intros H. res_inv. split; [|done]. intros x. rewrite in_asset_0, Z.add_0_r. done.
Qed.

Lemma pay_worker_pays pay w t d d' : pay_worker pay w d = Ok (t, d') ->
  pays (match w with destroy_worker _ | issuance_worker _ => 0 | _ => pay end) d d'.
Proof.
  unfold pay_worker. intros H. destruct w as [b|id|b|b].
  - apply rbind_ok in H as (b' & _ & H). apply rbind_ok in H as (d1 & H1 & [= _ <-]). by eapply modify_core_pays.
  - apply rbind_ok in H as (v & Hv & H). apply rbind_ok in H as (v' & Hd & [= _ <-]).
    unfold get_or in Hv. destruct (vesting_balances d !! id) eqn:E; [|done]. injection Hv as ->.
    by eapply deposit_pays.
  - apply rbind_ok in H as (b' & _ & H). apply rbind_ok in H as (d1 & H1 & [= _ <-]). by eapply adjust_balance_pays.
  - apply rbind_ok in H as (b' & _ & H). apply rbind_ok in H as (d1 & H1 & [= _ <-]). by eapply modify_core_pays.
Qed.

Lemma pay_active_pays l settle lb : forall budget d budget' d',
  pay_active l settle lb budget d = Ok (budget', d') -> pays (budget - budget') d d'.
Proof.
  induction l as [|id l IH]; intros budget d budget' d' H; cbn [pay_active] in H.
  { injection H as -> ->. eapply pays_eq; [apply pays_refl|lia]. }
  apply rbind_ok in H as (w & _ & H). case_if_in H; [by apply IH|].
  apply rbind_ok in H as (rq & _ & H). apply rbind_ok in H as ([t d1] & Hp & H).
  apply rbind_ok in H as (bud & Hb & H). apply IH in H. apply pay_worker_pays in Hp.
  eapply pays_eq; [eapply pays_trans; [eapply put_worker_pays, Hp|exact H]|].
  unfold issuance_or_destroy in Hb. destruct (worker w); cbn [negb] in Hb;
    first [injection Hb as <-; lia|apply Share.sub_value in Hb; lia].
Qed.

Lemma walk_workers_pays l had : forall settle d r settle' d',
  walk_workers l had settle d = Ok (r, settle', d') -> pays 0 d d'.
Proof.
  induction l as [|id l IH]; intros settle d r settle' d' H; cbn [walk_workers] in H.
  { injection H as _ _ ->. apply pays_refl. }
  apply rbind_ok in H as (w & _ & H). case_if_in H.
  - set (d1 := put_worker _ _ _) in H.
    assert (E : d' = d1) by (destruct l; [by injection H|destruct had; [done|by injection H]]).
    subst d'. apply put_worker_pays. split; [|done]. intros x. rewrite in_asset_0. unfold total. cbn. lia.
  - apply rbind_ok in H as ([[act s1] d1] & Hw & [= _ _ <-]). by eapply IH.
Qed.

Lemma pay_workers_pays lb budget d budget' d' :
  pay_workers lb budget d = Ok (budget', d') -> pays (budget - budget') d d'.
Proof.
  unfold pay_workers. intros H. apply rbind_ok in H as ([[act s1] d1] & Hw & H).
  eapply pays_eq; [eapply pays_trans; [eapply walk_workers_pays, Hw|eapply pay_active_pays, H]|lia].
Qed.

Lemma pay_members_pays l thr ratio : forall cum d cum' d',
  pay_members l thr ratio cum d = Ok (cum', d') -> pays (cum' - cum) d d'.
Proof.
  induction l as [|[acc w] l IH]; intros cum d cum' d' H; cbn [pay_members] in H.
  { injection H as -> ->. eapply pays_eq; [apply pays_refl|lia]. }
  apply rbind_ok in H as (p & _ & H). apply rbind_ok in H as (_ & _ & H).
  apply rbind_ok in H as (d1 & Ha & H). apply rbind_ok in H as (c1 & Hc & H). apply Share.add_value in Hc.
  eapply pays_eq; [eapply pays_trans; [eapply adjust_balance_pays, Ha|eapply IH, H]|lia].
Qed.

Lemma pay_by_votes_pays l ratio tot : forall cum d cum' d',
  pay_by_votes l ratio tot cum d = Ok (cum', d') -> pays (cum' - cum) d d'.
Proof.
  induction l as [|[acc w] l IH]; intros cum d cum' d' H; cbn [pay_by_votes] in H.
  { injection H as -> ->. eapply pays_eq; [apply pays_refl|lia]. }
  apply rbind_ok in H as (p & _ & H). apply rbind_ok in H as (d1 & Ha & H).
  apply rbind_ok in H as (c1 & Hc & H). apply Share.add_value in Hc.
  eapply pays_eq; [eapply pays_trans; [eapply adjust_balance_pays, Ha|eapply IH, H]|lia].
Qed.

Lemma pay_each_pays l p : forall d d', pay_each l p d = Ok d' -> pays (p * Z.of_nat (length l)) d d'.
Proof.
  induction l as [|acc l IH]; intros d d' H; cbn [pay_each length] in H |- *.
  { injection H as ->. eapply pays_eq; [apply pays_refl|lia]. }
  apply rbind_ok in H as (d1 & Ha & H).
  eapply pays_eq; [eapply pays_trans; [eapply adjust_balance_pays, Ha|eapply IH, H]|lia].
Qed.

Lemma pay_unsuccessful_pays l e ratio n d cum d' : pay_unsuccessful l e ratio n d = Ok (cum, d') -> pays cum d d'.
Proof.
  unfold pay_unsuccessful. intros H. destruct l as [|acc l]; [injection H as <- <-; apply pays_refl|].
  case_if_in H.
  - apply rbind_ok in H as (p & _ & H). apply rbind_ok in H as (c & Hc & H). apply Share.mul_value in Hc.
    apply rbind_ok in H as (_ & _ & H). apply rbind_ok in H as (d1 & Hd & [= <- <-]).
    apply pay_each_pays in Hd. by eapply pays_eq.
  - apply pay_by_votes_pays in H. eapply pays_eq; [exact H|lia].
Qed.

Lemma pay_candidates_pays budget cp up n l e d budget' d' :
  pay_candidates budget cp up n l e d = Ok (budget', d') -> pays (budget - budget') d d'.
Proof.
  unfold pay_candidates. intros H. do 6 skip_bind H.
  apply rbind_ok in H as ([c1 d1] & H1 & H). skip_bind H. apply rbind_ok in H as ([c2 d2] & H2 & H).
  apply rbind_ok in H as ([c3 d3] & H3 & H). apply rbind_ok in H as (p1 & E1 & H).
  apply rbind_ok in H as (p2 & E2 & H). apply rbind_ok in H as (b & E3 & [= <- <-]).
  apply Share.add_value in E1, E2. apply Share.sub_value in E3.
  apply pay_members_pays in H1, H2. apply pay_unsuccessful_pays in H3.
  eapply pays_eq; [eapply pays_trans; [eapply pays_trans; [exact H1|exact H2]|exact H3]|lia].
Qed.

(** ** The books of an interval *)

(** The budgets the records hold back: what the witnesses have not been paid yet, and the
    shares of workers and candidates that the next maintenance pays out. *)
Definition waiting_budget (s : budget_state) : Z :=
  unspent_witness_budget s
  + match last (budget_records s) with
    | Some (_, r) => worker_budget r + candidates_budget r
    | None => 0
    end.

Lemma pay_last_record_pays cp up n l e s d lw lc d' :
  pay_last_record cp up n l e s d = Ok (lw, lc, d') ->
  pays (waiting_budget s - unspent_witness_budget s - lw - lc) d d'.
Proof.
  unfold pay_last_record, waiting_budget. intros H. destruct (last (budget_records s)) as [[t r]|].
  - apply rbind_ok in H as ([b1 d1] & H1 & H). apply rbind_ok in H as ([b2 d2] & H2 & [= <- <- <-]).
    apply pay_workers_pays in H1. apply pay_candidates_pays in H2.
    eapply pays_eq; [eapply pays_trans; [exact H1|exact H2]|lia].
  - injection H as <- <- <-. eapply pays_eq; [apply pays_refl|lia].
Qed.

Lemma initialize_record now s d rec : initialize_budget_record now s d = Ok rec ->
  exists a dd, assets d !! CORE = Some a /\ dynamic_data d !! CORE = Some dd
    /\ from_initial_reserve rec = max_supply a - current_supply dd
    /\ from_accumulated_fees rec = accumulated_fees dd /\ from_unused_witness_budget rec = unspent_witness_budget s.
Proof.
  unfold initialize_budget_record, reserved, get_asset, get_dynamic_data. intros H.
  apply rbind_ok in H as (r & Hr & H). apply rbind_ok in Hr as (a & Ha & Hr). apply rbind_ok in Hr as (dd & Hd & Hr).
  apply Share.sub_value in Hr as ->. apply rbind_ok in H as (dd' & Hd' & H).
  unfold get_or in *. destruct (assets d !! CORE); [|done]. destruct (dynamic_data d !! CORE); [|done].
  injection Ha as ->. injection Hd as ->. injection Hd' as ->. exists a, dd'. split; [done|]. split; [done|].
  case_if_in H; res_inv; done.
Qed.

(** The steps of [process_budget] up to the books. *)
Lemma process_budget_inv nm cp up n l e s d s' d' :
  process_budget nm cp up n l e s d = Ok (s', d') ->
  exists requested rec wkb lw lc d1 dd1,
    let p := parameters (governance d) in
    let wb := Z.min requested (total_budget rec) in
    let cb := Z.min (candidate_award_budget p) (total_budget rec - wb - wkb) in
    let delta := wb + wkb + cb - (lw + from_accumulated_fees rec + from_unused_witness_budget rec + lc) in
    let r := mk_budget (time_since_last_budget rec) (from_initial_reserve rec) (from_accumulated_fees rec)
               (from_unused_witness_budget rec) requested (total_budget rec) wb wkb lw cb lc delta in
    requested_for_witnesses (nm - head_block_time d) (block_interval_ p) (witness_pay_per_block_ p) = Ok requested /\
    initialize_budget_record (head_block_time d) s d = Ok rec /\
    budget_for_workers (worker_budget_per_day p) (nm - head_block_time d) (total_budget rec - wb) = Ok wkb /\
    pay_last_record cp up n l e s d = Ok (lw, lc, d1) /\ dynamic_data d1 !! CORE = Some dd1 /\
    d' = set_dynamic_data (<[CORE := mk_dyn (current_supply dd1 + delta) 0]> (dynamic_data d1)) d1 /\
    s' = mk_budget_state (head_block_time d) wb (budget_records s ++ [(head_block_time d, r)]).
Proof.
  unfold process_budget. intros H. do 2 skip_bind H. apply rbind_ok in H as (requested & Hrq & H).
  apply rbind_ok in H as (rec & Hrec & H). apply rbind_ok in H as (av & Hav & H). apply Share.sub_value in Hav as ->.
  apply rbind_ok in H as (wkb & Hwkb & H). apply rbind_ok in H as (av & Hav & H). apply Share.sub_value in Hav as ->.
  apply rbind_ok in H as ([[lw lc] d1] & Hl & H). do 2 skip_bind H.
  apply rbind_ok in H as (o1 & E1 & H). apply Share.add_value in E1 as ->.
  apply rbind_ok in H as (o2 & E2 & H). apply Share.add_value in E2 as ->.
  apply rbind_ok in H as (b1 & E3 & H). apply Share.add_value in E3 as ->.
  apply rbind_ok in H as (b2 & E4 & H). apply Share.add_value in E4 as ->.
  apply rbind_ok in H as (b3 & E5 & H). apply Share.add_value in E5 as ->.
  apply rbind_ok in H as (delta & E6 & H). apply Share.sub_value in E6 as ->.
  apply rbind_ok in H as (d2 & Hm & [= <- <-]).
  apply modify_dynamic_data_inv in Hm as (dd & dd' & Hdd & Hf & ->).
  apply rbind_ok in Hf as (cs & Hcs & [= <-]). apply Share.add_value in Hcs as ->.
  by exists requested, rec, wkb, lw, lc, d1, dd.
Qed.

(** The books of the budget balance: over a maintenance, the core units in the state
    together with the budgets that wait for their payment change exactly as the recorded
    supply does, and no other asset moves. *)
Lemma budget_books nm cp up n l e s d s' d' : process_budget nm cp up n l e s d = Ok (s', d') ->
  excess CORE d' + waiting_budget s' = excess CORE d + waiting_budget s /\
  (forall x, x <> CORE -> total x d' = total x d /\ supply x d' = supply x d).
Proof.
  intros H. apply process_budget_inv in H as (rq & rec & wkb & lw & lc & d1 & dd1 & _ & Hrec & _ & Hl & Hdd & -> & ->).
  apply initialize_record in Hrec as (a & dd & _ & Hd & _ & Ef & Ew).
  apply pay_last_record_pays in Hl as [Ht Hdyn]. rewrite Hdyn in Hdd |- *. rewrite Hd in Hdd. injection Hdd as <-.
  assert (Hs : forall x, supply x d1 = supply x d) by (intros x; unfold supply; by rewrite Hdyn).
  split.
  - unfold excess. rewrite total_set_dyn, Hdyn. rewrite (in_fees_insert CORE _ CORE dd) by done.
    rewrite !supply_at. cbn [dynamic_data set_dynamic_data]. rewrite lookup_insert_eq, Hd, Ht, Ef, Ew.
    unfold waiting_budget. cbn [unspent_witness_budget budget_records]. rewrite last_snoc.
    cbn [worker_budget candidates_budget accumulated_fees current_supply]. unfold in_asset. cbn [asset_id amount].
    rewrite Z.eqb_refl. lia.
  - intros x Hx. rewrite total_set_dyn, Hdyn. rewrite (in_fees_insert x _ CORE dd) by done. rewrite Ht.
    rewrite !supply_at. cbn [dynamic_data set_dynamic_data]. rewrite lookup_insert_ne by congruence.
    unfold in_asset. cbn [asset_id amount]. rewrite (proj2 (Z.eqb_neq CORE x)) by congruence. split; [lia|done].
Qed.

(** ** How much an interval may spend *)

Definition up_div (a b : Z) : Z := (a + b - 1) / b.

Lemma flow_value R dt : 0 <= R <= int64_max -> 0 <= dt < uint32_mod ->
  flow R dt = up_div (R * dt * GRAPHENE_CORE_ASSET_CYCLE_RATE) (2 ^ GRAPHENE_CORE_ASSET_CYCLE_RATE_BITS).
Proof.
  intros HR Hdt. unfold flow, up_div. rewrite (wrap128_small R) by lia. rewrite (wrap64_small dt) by lia.
  assert (Hm : 0 <= R * dt <= int64_max * uint32_mod) by nia.
  change (wrap64 (Z.shiftl 1 32)) with 4294967296. rewrite (wrap128_small (R * dt)) by lia.
  rewrite (wrap128_small (R * dt * 17)) by lia. rewrite wrap128_small by lia.
  rewrite Z.shiftr_div_pow2 by lia. f_equal. lia.
Qed.

(** What may be spent: everything at the first maintenance, else a rate per second. *)
Definition spendable (R dt : Z) : Z :=
  Z.min R (up_div (R * dt * GRAPHENE_CORE_ASSET_CYCLE_RATE) (2 ^ GRAPHENE_CORE_ASSET_CYCLE_RATE_BITS)).

Lemma spendable_bounds R dt : 0 <= R -> 0 <= dt -> 0 <= spendable R dt <= R.
Proof. intros. unfold spendable, up_div. split; [|lia]. apply Z.min_glb; [done|]. apply Z.div_pos; lia. Qed.

Section Spending.
Context (s : budget_state) (d : database) (a : asset_object) (dd : asset_dynamic_data).
Context (Ha : assets d !! CORE = Some a) (Hd : dynamic_data d !! CORE = Some dd).
Context (Hs : 0 <= current_supply dd <= max_supply a) (Hf : 0 <= accumulated_fees dd)
  (Hw : 0 <= unspent_witness_budget s)
  (Hm : max_supply a + accumulated_fees dd + unspent_witness_budget s <= int64_max).

Definition reserve_now : Z := max_supply a - current_supply dd + accumulated_fees dd.
Definition budget_now : Z :=
  let now := head_block_time d in
  if (last_budget_time s =? 0) || (now <=? last_budget_time s) then reserve_now
  else spendable (reserve_now + unspent_witness_budget s) (now - last_budget_time s).

Lemma initialize_total rec : 0 <= last_budget_time s -> 0 <= head_block_time d < uint32_mod ->
  initialize_budget_record (head_block_time d) s d = Ok rec -> total_budget rec = budget_now.
Proof using Ha Hd Hs Hf Hw Hm.
  intros Hl Ht H. unfold initialize_budget_record, reserved, get_asset, get_dynamic_data in H.
  rewrite Ha, Hd in H. cbn [get_or rbind] in H. apply rbind_ok in H as (r & Hr & H). apply Share.sub_value in Hr as ->.
  unfold budget_now, reserve_now. case_if_in H.
  - apply rbind_ok in H as (t & Ht' & [= <-]). by apply Share.add_value in Ht'.
  - bool_to_prop. apply rbind_ok in H as (r1 & E1 & H). apply Share.add_value in E1 as ->.
    apply rbind_ok in H as (r2 & E2 & H). apply Share.add_value in E2 as ->.
    apply rbind_ok in H as (t & Ht' & [= <-]). cbn [total_budget].
    rewrite flow_value in Ht' by lia. rewrite wrap128_small in Ht' by lia. unfold spendable.
    assert (0 <= up_div ((max_supply a - current_supply dd + accumulated_fees dd + unspent_witness_budget s)
      * (head_block_time d - last_budget_time s) * 17) (2 ^ 32)) by (apply Z.div_pos; nia).
    case_if_in Ht'; bool_to_prop.
    + rewrite to_uint64_ok in Ht' by lia. injection Ht' as <-. lia.
    + injection Ht' as <-. lia.
Qed.

Lemma budget_now_bounds : 0 <= last_budget_time s -> 0 <= head_block_time d ->
  0 <= budget_now <= reserve_now + unspent_witness_budget s.
Proof using Hs Hf Hw.
  intros Hl Ht. unfold budget_now. case_if; [unfold reserve_now; lia|]. bool_to_prop.
  apply spendable_bounds; [unfold reserve_now; lia|lia].
Qed.
End Spending.

Lemma workers_part_bounds per_day t av b : 0 <= per_day -> 0 <= t < uint32_mod -> 0 <= av <= int64_max ->
  per_day <= int64_max -> budget_for_workers per_day t av = Ok b ->
  b = Z.min av (per_day * t / 86400) /\ 0 <= b <= av.
Proof.
  intros Hp Ht Hav Hpm H. unfold budget_for_workers in H. rewrite (wrap64_small t) in H by lia.
  rewrite (wrap128_small per_day), (wrap128_small av), wrap128_small in H by nia.
  assert (0 <= per_day * t / 86400) by (apply Z.div_pos; nia).
  case_if_in H; bool_to_prop; [injection H as <-; lia|].
  rewrite to_uint64_ok in H by lia. injection H as <-. lia.
Qed.

Lemma witnesses_part_value t i pay b : 0 < t < uint32_mod -> 0 < i < 256 -> 0 <= pay -> pay * t <= int64_max ->
  requested_for_witnesses t i pay = Ok b -> b = pay * up_div t i.
Proof.
  intros Ht Hi Hp Hm H. unfold requested_for_witnesses in H. rewrite (proj2 (Z.eqb_neq i 0)) in H by lia.
  injection H as <-. rewrite (wrap64_small t), wrap64_small by lia. unfold up_div.
  assert (0 <= (t + i - 1) / i <= t).
  { split; [apply Z.div_pos; lia|]. apply Z.div_le_upper_bound; [lia|]. nia. }
  apply to_int64_small. nia.
Qed.

(** C13: An interval spends within its means: a maintenance
    divides at most what the reserve lets flow between witnesses, workers and candidates,
    in this order, and none of them gets more than was asked; after it the recorded supply
    and the funds that came back are within the maximum supply there was when the call began
    (a destroy worker that is paid in the call lowers it, see [destroy_worker_overshoots]).
    Assumed are a supply within the maximum, non-negative fees, budgets and parameters, a
    block interval below 256 seconds, a next maintenance that is ahead, and sums and witness
    pay that fit 64 bits. *)
Theorem budget_within_reserve nm cp up n l e s d s' d' a dd
    (p := parameters (governance d)) (t := nm - head_block_time d)
    (H : process_budget nm cp up n l e s d = Ok (s', d'))
    (Ha : assets d !! CORE = Some a) (Hd : dynamic_data d !! CORE = Some dd)
    (Hs : 0 <= current_supply dd <= max_supply a) (Hf : 0 <= accumulated_fees dd)
    (Hw : 0 <= unspent_witness_budget s)
    (Hm : max_supply a + accumulated_fees dd + unspent_witness_budget s <= int64_max)
    (Hl : 0 <= last_budget_time s) (Hn : 0 <= head_block_time d < uint32_mod) (Ht : 0 < t < uint32_mod)
    (Hi : 0 < block_interval_ p < 256) (Hp : 0 <= witness_pay_per_block_ p) (Hpm : witness_pay_per_block_ p * t <= int64_max)
    (Hk : 0 <= worker_budget_per_day p <= int64_max) (Hc : 0 <= candidate_award_budget p) :
  exists r, last (budget_records s') = Some (head_block_time d, r) /\
    total_budget r = budget_now s d a dd /\
    rec_witness_budget r = Z.min (witness_pay_per_block_ p * up_div t (block_interval_ p)) (total_budget r) /\
    worker_budget r = Z.min (total_budget r - rec_witness_budget r) (worker_budget_per_day p * t / 86400) /\
    candidates_budget r = Z.min (candidate_award_budget p) (total_budget r - rec_witness_budget r - worker_budget r) /\
    0 <= rec_witness_budget r /\ 0 <= worker_budget r /\ 0 <= candidates_budget r /\
    unspent_witness_budget s' = rec_witness_budget r /\
    supply CORE d' + leftover_worker_funds r + leftover_candidates_budget r <= max_supply a.
Proof.
  apply process_budget_inv in H as (rq & rec & wkb & lw & lc & d1 & dd1 & Hrq & Hrec & Hwk & Hlr & Hdd & -> & ->).
  pose proof (initialize_total s d a dd Ha Hd Hs Hf Hw Hm rec Hl Hn Hrec) as Et.
  pose proof (budget_now_bounds s d a dd Hs Hf Hw Hl ltac:(lia)) as Hb.
  apply initialize_record in Hrec as (a' & dd' & Ha' & Hd' & _ & Ef & Ew).
  rewrite Ha in Ha'. rewrite Hd in Hd'. injection Ha' as <-. injection Hd' as <-.
  apply pay_last_record_pays in Hlr as [_ Hdyn]. rewrite Hdyn, Hd in Hdd. injection Hdd as <-.
  fold p in Hwk, Hrq |- *. fold t in Hwk, Hrq. clearbody p t. apply witnesses_part_value in Hrq; [|done..].
  assert (0 <= rq).
  { subst rq. unfold up_div. apply Z.mul_nonneg_nonneg; [done|]. apply Z.div_pos; lia. }
  unfold reserve_now in Hb. apply workers_part_bounds in Hwk as [Ewk Hwk]; [|lia..].
  eexists. split; [cbn [budget_records]; by rewrite last_snoc|].
  cbn [total_budget rec_witness_budget worker_budget candidates_budget unspent_witness_budget
    leftover_worker_funds leftover_candidates_budget].
  split; [done|]. split; [by rewrite Hrq|]. split; [done|]. split; [done|].
  split; [lia|]. split; [lia|]. split; [lia|]. split; [done|].
  rewrite supply_at. cbn [dynamic_data set_dynamic_data]. rewrite lookup_insert_eq. cbn [current_supply].
  rewrite Ef, Ew. lia.
Qed.

(** ** An interval at work *)

Definition demo_worker (from_ to_ pay : Z) (t : worker_type) (c : bool) : worker_object :=
  mk_worker (Some 5) from_ to_ pay t "w" "" c.

Definition demo_budget_parameters : chain_parameters :=
  mk_parameters 3 86400 0 0 0 3 3 10 0 0 2 0 5000 1000 4 0 100 100 3000 2000 5000 0.

Definition demo_budget_governance (ws : gmap Z worker_object) (unc : list Z) : governance_state :=
  set_uncompleted_workers unc (set_workers ws (set_parameters demo_budget_parameters empty_governance)).

(** Account 10 serves on the committee, accounts 11 and 12 are witnesses; an interval lasts a
    day. *)
Definition demo_budget_db (ws : gmap Z worker_object) (unc : list Z) : database :=
  set_vesting_balances {[ 0 := mk_vbo 5 (mk_asset 0 CORE) 0 0 (Cdd (mk_cdd 86400 0 0 0)) None ]}
    (set_governance (demo_budget_governance ws unc)
       (set_accounts {[ 1 := set_active_auth (mk_authority 51 [(10, 100)] [] []) (basic_account ∅ None);
                        2 := set_active_auth (mk_authority 201 [(11, 300); (12, 100)] [] []) (basic_account ∅ None) ]}
          (set_assets {[ CORE := mk_asset_object "COCOS" 5 3
                           (mk_asset_options 100000000000 0 0 0 0 None "core") false ]}
             (set_dynamic_data {[ CORE := mk_dyn 60000000 4000 ]}
                (set_account_balances {[ (5, CORE) := 59988000 ]}
                   (set_head_block_time 1000000 demo_ledger)))))).

Definition demo_record : budget_record := mk_budget 0 0 0 0 0 0 1000 4000 0 3000 0 0.
Definition demo_budget_state : budget_state := mk_budget_state 913600 1000 [(913600, demo_record)].

Definition demo_budget_input : database :=
  demo_budget_db {[ 0 := demo_worker 0 2000000 1500 (vesting_balance_worker 0) false;
                    1 := demo_worker 0 2000000 1000 (burn_worker 0) false ]} [0; 1].
Definition demo_budget_run : result (budget_state * database) :=
  process_budget 1086400 2000 5000 1 [13] no_election demo_budget_state demo_budget_input.

Lemma demo_budget_balances :
  match demo_budget_run with
  | Ok (s', d') => excess CORE d' + waiting_budget s' = 0
  | Err _ => False
  end.
Proof.
  assert (Hok : is_ok demo_budget_run = true) by (vm_compute; reflexivity).
  destruct demo_budget_run as [[s' d']|] eqn:E; [|discriminate Hok].
  destruct (budget_books _ _ _ _ _ _ _ _ _ _ E) as [H _]. etransitivity; [exact H|]. vm_compute. reflexivity.
Defined.

Lemma budget_within_reserve_witness :
  match demo_budget_run with
  | Ok (s', d') => exists r, last (budget_records s') = Some (1000000, r) /\ rec_witness_budget r = 57600
                     /\ supply CORE d' + leftover_worker_funds r + leftover_candidates_budget r <= 100000000000
  | Err _ => False
  end.
Proof.
  assert (Hok : is_ok demo_budget_run = true) by (vm_compute; reflexivity).
  destruct demo_budget_run as [[s' d']|] eqn:E; [|discriminate Hok].
  destruct (budget_within_reserve _ _ _ _ _ _ _ _ _ _
    (mk_asset_object "COCOS" 5 3 (mk_asset_options 100000000000 0 0 0 0 None "core") false) (mk_dyn 60000000 4000) E)
    as (r & Hr & Et & Ew & _ & _ & _ & _ & _ & _ & Hs);
    [vm_compute; reflexivity|vm_compute; reflexivity|cbn; lia..|].
  exists r. split; [exact Hr|]. split; [|exact Hs]. rewrite Et in Ew.
  etransitivity; [exact Ew|]. vm_compute. reflexivity.
Defined.

(** What a destroy worker takes from the maximum supply is not taken from the workers'
    budget, and the budget of the new interval was drawn from the reserve before: with a
    reserve of one unit, that unit is destroyed, paid to the next worker and budgeted
    again, and the supply ends above the maximum. *)
Definition demo_destroy_db : database :=
  let d := demo_budget_db {[ 0 := demo_worker 0 2000000 1 (destroy_worker 0) false;
                             1 := demo_worker 0 2000000 1 (burn_worker 0) false ]} [0; 1] in
  set_assets {[ CORE := mk_asset_object "COCOS" 5 3 (mk_asset_options 60000001 0 0 0 0 None "core") false ]}
    (set_dynamic_data {[ CORE := mk_dyn 60000000 0 ]} d).
Theorem destroy_worker_overshoots :
  match process_budget 1086400 0 0 1 [] no_election
          (mk_budget_state 913600 0 [(913600, mk_budget 0 0 0 0 0 0 0 1 0 0 0 0)]) demo_destroy_db with
  | Ok (_, d') => option_map max_supply (assets d' !! CORE) = Some 60000000 /\ supply CORE d' = 60000001
  | Err _ => False
  end.
Proof. vm_compute. done. Qed.

(** Workers 1 and 2 have ended, worker 3 has not.  Marking worker 1 moves it behind all
    others; when an earlier maintenance completed worker 0, the walk then leaves the
    index. *)
Definition demo_ended (c : bool) : database :=
  demo_budget_db {[ 0 := demo_worker 0 900000 1500 (burn_worker 0) c; 1 := demo_worker 0 950000 1500 (burn_worker 0) false;
                    2 := demo_worker 0 960000 1500 (burn_worker 0) false;
                    3 := demo_worker 0 2000000 1500 (burn_worker 0) false ]} [1; 2; 3].
Theorem second_completion_undefined : pay_workers 913600 4000 (demo_ended true) = Err undefined_behaviour.
Proof. vm_compute. reflexivity. Qed.

(** Without an earlier completed worker the walk ends early: worker 3 is active but gets
    nothing, and worker 2 stays uncompleted. *)
Theorem completion_ends_walk :
  match pay_workers 913600 4000 (demo_ended false) with
  | Ok (b, d') => b = 4000 /\ uncompleted_workers (governance d') = [2; 3]
  | Err _ => False
  end.
Proof. vm_compute. done. Qed.

(** After the change to shares by votes, a lone unsuccessful candidate whom nobody else
    voted for makes the share zero over zero, which has no integer value. *)
Definition demo_lone_election : election_state :=
  mk_election [(7, mk_candidate 13 7 100 "" true 0 ∅ None)] [] ∅.
Theorem lone_candidate_undefined :
  pay_candidates 3000 2000 5000 2000000 [13] demo_lone_election (demo_budget_db ∅ []) = Err undefined_behaviour.
Proof. vm_compute. reflexivity. Qed.
