(* ===== verification/NhAssets.v ===== *)
(** * Non-homogeneous assets

    [nh_asset_creator_evaluator.cpp], [world_view_evaluator.cpp], [nh_asset_evaluator.cpp],
    [nh_asset_order_evaluator.cpp] and [clear_expired_nh_asset_orders] of [db_update.cpp]:
    creators and world views, the items they make, and the orders that sell them.  An item
    on sale is in the custody of the null account.  The hash of an item is a parameter but
    for its first word, which is the instance number; whether a contract exists is another. *)

From Stdlib Require Import Ascii.
From S2P Require Import Prelude SafeInt Asset Vesting Authority State Ledger.

(** ** Creators and world views *)

Definition find_creator (acc : Z) (n : nh_state) : option (Z * nh_asset_creator_object) :=
  find (fun kc => creator_account kc.2 =? acc) (map_to_list (nh_creators n)).
Definition find_view (name : string) (n : nh_state) : option (Z * world_view_object) :=
  find (fun kv => String.eqb (view_name kv.2) name) (map_to_list (world_views n)).

Definition modify_nh (f : nh_state -> nh_state) (d : database) : database := set_nh (f (nh d)) d.

(** [register_nh_asset_creator]: an account registers once. *)
Definition register_creator_do_evaluate (acc : Z) (d : database) : result unit :=
  fc_assert (bool_decide (find_creator acc (nh d) = None)).

Definition register_creator_do_apply (acc : Z) (d : database) : result (Z * database) :=
  let n := nh d in
  check bool_decide (find_creator acc n = None);
  let id := next_nh_creator n in
  Ok (id, set_nh (set_next_nh_creator (id + 1)
                    (set_nh_creators (<[id := mk_nh_creator [] acc]> (nh_creators n)) n)) d).

Definition starts_with_digit (s : string) : bool :=
  match String.get 0 s with
  | Some c => let k := Z.of_nat (nat_of_ascii c) in (48 <=? k) && (k <=? 57)
  | None => false
  end.

Definition create_view_validate (name : string) : result unit := fc_assert (negb (String.eqb name "")).

Definition create_view_do_evaluate (acc : Z) (name : string) (d : database) : result unit :=
  check bool_decide (is_Some (find_creator acc (nh d)));
  fc_assert (negb (starts_with_digit name)).

(** Reading the missing creator is undefined; the name of a view is unique. *)
Definition create_view_do_apply (acc : Z) (name : string) (d : database) : result (Z * database) :=
  let n := nh d in
  let* (cid, c) := get_or (find_creator acc n) undefined_behaviour in
  let id := next_world_view n in
  check bool_decide (find_view name n = None);
  let n := set_next_world_view (id + 1)
             (set_world_views (<[id := mk_world_view name cid [cid]]> (world_views n)) n) in
  let c := mk_nh_creator (creator_views c ++ [name]) (creator_account c) in
  Ok (id, set_nh (set_nh_creators (<[cid := c]> (nh_creators n)) n) d).

(** [relate_world_view]: the owner named need not be a creator, and reading it then is
    undefined. *)
Definition relate_view_do_evaluate (related : Z) (name : string) (view_owner : Z) (d : database) : result unit :=
  let n := nh d in
  let* (pid, _) := get_or (find_creator related n) assert_exception in
  let* (_, v) := get_or (find_view name n) assert_exception in
  let* (oid, _) := get_or (find_creator view_owner n) undefined_behaviour in
  check view_creator v =? oid;
  fc_assert (negb (existsb (Z.eqb pid) (related_nht_creator v))).

Definition relate_view_do_apply (related : Z) (name : string) (d : database) : result database :=
  let n := nh d in
  let* (cid, c) := get_or (find_creator related n) undefined_behaviour in
  let* (vid, v) := get_or (find_view name n) undefined_behaviour in
  let v := mk_world_view (view_name v) (view_creator v) (related_nht_creator v ++ [cid]) in
  let c := mk_nh_creator (creator_views c ++ [name]) (creator_account c) in
  Ok (set_nh (set_nh_creators (<[cid := c]> (nh_creators n))
               (set_world_views (<[vid := v]> (world_views n)) n)) d).

(** ** Items *)

Definition get_nh_asset (id : Z) (d : database) : result nh_asset_object :=
  get_or (nh_assets (nh d) !! id) assert_exception.
Definition put_nh_asset (id : Z) (a : nh_asset_object) (d : database) : database :=
  modify_nh (fun n => set_nh_assets (<[id := a]> (nh_assets n)) n) d.

(** Owner, user and dealer of an item become the same account. *)
Definition give_to (acc : Z) (a : nh_asset_object) : nh_asset_object :=
  mk_nh_asset (nh_hash a) (nh_asset_creator a) acc acc acc (nh_world_view a) (base_describe a) (parent a)
    (child a) (nh_create_time a).

(** [assert_asset_transfer]. *)
Definition assert_asset_transfer (from_ to_ : Z) (a : nh_asset_object) : result unit :=
  check nh_asset_owner a =? from_;
  check negb (nh_asset_owner a =? to_);
  check (nh_asset_owner a =? dealership a) || (dealership a =? to_);
  fc_assert ((nh_asset_owner a =? nh_asset_active a) || (nh_asset_active a =? to_)).

(** [assert_asset_unlocked]. *)
Definition assert_asset_unlocked (acc id : Z) (a : nh_asset_object) (d : database) : result unit :=
  let* o := get_account acc d in
  check nh_asset_owner a =? acc;
  fc_assert (negb (existsb (Z.eqb id) (nft_locked o))).

Record create_nh_asset_operation := mk_create_nh {
  cn_fee_paying_account : Z;
  cn_owner : Z;
  cn_asset_id : string;
  cn_world_view : string;
  cn_base_describe : string }.

Definition create_nh_validate (op : create_nh_asset_operation) : result unit :=
  fc_assert (negb (String.eqb (cn_base_describe op) "")).

Definition create_nh_do_evaluate (op : create_nh_asset_operation) (d : database) : result unit :=
  let n := nh d in
  let* (_, c) := get_or (find_creator (cn_fee_paying_account op) n) assert_exception in
  check existsb (String.eqb (cn_world_view op)) (creator_views c);
  check existsb (fun ka => String.eqb (symbol ka.2) (cn_asset_id op)) (map_to_list (assets d));
  fc_assert (bool_decide (is_Some (find_view (cn_world_view op) n))).

(** The zero account as owner means the creator.  The asset symbol is checked and
    dropped.  The index is unique in the hash. *)
Definition create_nh_do_apply (digest : string -> Z -> Z) (op : create_nh_asset_operation) (d : database)
    : result (Z * database) :=
  let n := nh d in
  let id := next_nh_asset n in
  let owner := if cn_owner op =? 0 then cn_fee_paying_account op else cn_owner op in
  let h := (wrap64 id, digest (cn_base_describe op) (head_block_time d)) in
  let a := mk_nh_asset h (cn_fee_paying_account op) owner owner owner (cn_world_view op) (cn_base_describe op)
             ∅ ∅ (head_block_time d) in
  check negb (existsb (fun ka => bool_decide (nh_hash ka.2 = h)) (map_to_list (nh_assets n)));
  Ok (id, set_nh (set_next_nh_asset (id + 1) (set_nh_assets (<[id := a]> (nh_assets n)) n)) d).

Definition delete_nh_do_evaluate (acc id : Z) (d : database) : result unit :=
  let* a := get_nh_asset id d in
  check nh_asset_owner a =? acc;
  assert_asset_unlocked acc id a d.

Definition delete_nh_do_apply (id : Z) (d : database) : result database :=
  let* _ := get_nh_asset id d in
  Ok (modify_nh (fun n => set_nh_assets (delete id (nh_assets n)) n) d).

Definition transfer_nh_validate (from_ to_ : Z) : result unit := fc_assert (negb (from_ =? to_)).

Definition transfer_nh_do_evaluate (from_ to_ id : Z) (d : database) : result unit :=
  let* a := get_nh_asset id d in
  let* _ := assert_asset_transfer from_ to_ a in
  assert_asset_unlocked from_ id a d.

Definition transfer_nh_do_apply (to_ id : Z) (d : database) : result database :=
  let* a := get_nh_asset id d in
  Ok (put_nh_asset id (give_to to_ a) d).

(** ** Relations between items *)

Record relate_nh_asset_operation := mk_relate_nh {
  rn_nh_asset_creator : Z;
  rn_parent : Z;
  rn_child : Z;
  rn_contract : Z;
  rn_relate : bool }.

Definition relate_nh_validate (op : relate_nh_asset_operation) : result unit :=
  fc_assert (negb (rn_parent op =? rn_child op)).

Definition with_parent (m : gmap Z (list Z)) (a : nh_asset_object) : nh_asset_object :=
  mk_nh_asset (nh_hash a) (nh_asset_creator a) (nh_asset_owner a) (nh_asset_active a) (dealership a)
    (nh_world_view a) (base_describe a) m (child a) (nh_create_time a).
Definition with_child (m : gmap Z (list Z)) (a : nh_asset_object) : nh_asset_object :=
  mk_nh_asset (nh_hash a) (nh_asset_creator a) (nh_asset_owner a) (nh_asset_active a) (dealership a)
    (nh_world_view a) (base_describe a) (parent a) m (nh_create_time a).

Definition relate_nh_do_evaluate (contract_exists : Z -> bool) (op : relate_nh_asset_operation) (d : database)
    : result unit :=
  let* p := get_nh_asset (rn_parent op) d in
  let* c := get_nh_asset (rn_child op) d in
  check contract_exists (rn_contract op);
  check nh_asset_creator p =? rn_nh_asset_creator op;
  check nh_asset_creator c =? rn_nh_asset_creator op;
  match parent c !! rn_contract op with
  | Some l => fc_assert (eqb (rn_relate op) (negb (existsb (Z.eqb (rn_parent op)) l)))
  | None => fc_assert (rn_relate op)
  end.

(** [m[k].push_back(x)]. *)
Definition push_at (k x : Z) (m : gmap Z (list Z)) : gmap Z (list Z) :=
  <[k := default [] (m !! k) ++ [x]]> m.
(** [m.insert(make_pair(k, vector(1, x)))]: an entry that is there stays. *)
Definition insert_at (k x : Z) (m : gmap Z (list Z)) : gmap Z (list Z) :=
  match m !! k with Some _ => m | None => <[k := [x]]> m end.

Fixpoint erase_first (x : Z) (l : list Z) : option (list Z) :=
  match l with
  | [] => None
  | y :: l' => if y =? x then Some l' else cons y <$> erase_first x l'
  end.
(** [vec.erase(find(...))]: erasing the end is undefined. *)
Definition erase_at (k x : Z) (m : gmap Z (list Z)) : result (gmap Z (list Z)) :=
  let* l := get_or (erase_first x (default [] (m !! k))) undefined_behaviour in
  Ok (<[k := l]> m).

Definition relate_nh_do_apply (op : relate_nh_asset_operation) (d : database) : result database :=
  let k := rn_contract op in
  let* c := get_nh_asset (rn_child op) d in
  if rn_relate op then
    let known := bool_decide (is_Some (parent c !! k)) in
    let add x m := if known then push_at k x m else insert_at k x m in
    let d := put_nh_asset (rn_child op) (with_parent (add (rn_parent op) (parent c)) c) d in
    let* p := get_nh_asset (rn_parent op) d in
    Ok (put_nh_asset (rn_parent op) (with_child (add (rn_child op) (child p)) p) d)
  else
    let* m := erase_at k (rn_parent op) (parent c) in
    let d := put_nh_asset (rn_child op) (with_parent m c) d in
    let* p := get_nh_asset (rn_parent op) d in
    let* m := erase_at k (rn_child op) (child p) in
    Ok (put_nh_asset (rn_parent op) (with_child m p) d).

(** ** Orders *)

Definition find_by_hash (h : Z * Z) (n : nh_state) : option (Z * nh_asset_object) :=
  find (fun ka => bool_decide (nh_hash ka.2 = h)) (map_to_list (nh_assets n)).

Definition get_nh_order (id : Z) (d : database) : result nh_asset_order_object :=
  get_or (nh_orders (nh d) !! id) assert_exception.

Record create_nh_asset_order_operation := mk_create_nh_order {
  co_seller : Z;
  co_otcaccount : Z;
  co_pending_orders_fee : asset;
  co_nh_asset : Z;
  co_memo : string;
  co_price : asset;
  co_expiration : Z }.

Definition create_nh_order_validate (op : create_nh_asset_order_operation) : result unit :=
  check negb (co_seller op =? co_otcaccount op);
  check amount (co_pending_orders_fee op) >=? 0;
  fc_assert (amount (co_price op) >=? 0).

(** The payment of [amt] by [from_] to [to_] must be possible. *)
Definition assert_payment (from_ to_ : Z) (amt : asset) (d : database) : result unit :=
  let aid := asset_id amt in
  let* a := get_asset aid d in
  require is_authorized_asset d from_ aid a else transfer_from_account_not_whitelisted;
  require is_authorized_asset d to_ aid a else transfer_to_account_not_whitelisted;
  let* _ :=
    if is_transfer_restricted a && negb (is_white_list a) then
      graphene_assert ((from_ =? issuer a) || (to_ =? issuer a)) transfer_restricted_transfer_asset
    else Ok tt in
  fc_assert (amount (get_balance from_ aid d) >=? amount amt).

Definition create_nh_order_do_evaluate (op : create_nh_asset_order_operation) (d : database) : result unit :=
  let* a := get_nh_asset (co_nh_asset op) d in
  check nh_asset_owner a =? co_seller op;
  let* _ := assert_asset_transfer (co_seller op) 0 a in
  check co_expiration op >=? head_block_time d;
  check co_expiration op
        <=? wrap32 (head_block_time d + maximum_nh_asset_order_expiration (parameters (governance d)));
  let* _ := get_account (co_seller op) d in
  let* _ := get_account (co_otcaccount op) d in
  let* _ := get_asset (asset_id (co_pending_orders_fee op)) d in
  let* _ := assert_asset_unlocked (co_seller op) (co_nh_asset op) a d in
  assert_payment (co_seller op) (co_otcaccount op) (co_pending_orders_fee op) d.

(** The item goes into custody; the index of orders is unique in the hash. *)
Definition create_nh_order_do_apply (op : create_nh_asset_order_operation) (d : database)
    : result (Z * database) :=
  let n := nh d in
  let* a := get_nh_asset (co_nh_asset op) d in
  let id := next_nh_order n in
  let o := mk_nh_order (co_seller op) (co_otcaccount op) (co_nh_asset op) (nh_world_view a) (base_describe a)
             (nh_hash a) (co_price op) (co_memo op) (co_expiration op) in
  check negb (existsb (fun ko => bool_decide (no_hash ko.2 = nh_hash a)) (map_to_list (nh_orders n)));
  let d := set_nh (set_next_nh_order (id + 1) (set_nh_orders (<[id := o]> (nh_orders n)) n)) d in
  let d := put_nh_asset (co_nh_asset op) (give_to GRAPHENE_NULL_ACCOUNT a) d in
  let* neg := asset_neg (co_pending_orders_fee op) in
  let* d := adjust_balance (co_seller op) neg false d in
  let* d := adjust_balance (co_otcaccount op) (co_pending_orders_fee op) false d in
  Ok (id, d).

Definition remove_nh_order (id : Z) (d : database) : database :=
  modify_nh (fun n => set_nh_orders (delete id (nh_orders n)) n) d.

(** The item of an order is found by its hash; reading a missing one is undefined. *)
Definition release (o : nh_asset_order_object) (to_ : Z) (d : database) : result (Z * database) :=
  let* (id, a) := get_or (find_by_hash (no_hash o) (nh d)) undefined_behaviour in
  Ok (id, put_nh_asset id (give_to to_ a) d).

Definition cancel_nh_order_do_evaluate (acc order : Z) (d : database) : result unit :=
  let* o := get_nh_order order d in
  fc_assert (no_seller o =? acc).

Definition cancel_nh_order_do_apply (order : Z) (d : database) : result (Z * database) :=
  let* o := get_nh_order order d in
  let* (id, d) := release o (no_seller o) d in
  Ok (id, remove_nh_order order d).

(** The fields of [fill_nh_asset_order_operation] the evaluator reads. *)
Record fill_nh_asset_order_operation := mk_fill_nh_order {
  fn_order : Z;
  fn_fee_paying_account : Z;
  fn_seller : Z }.

Definition fill_nh_order_do_evaluate (op : fill_nh_asset_order_operation) (d : database) : result unit :=
  let* o := get_nh_order (fn_order op) d in
  let* _ := get_account (fn_fee_paying_account op) d in
  let* _ := get_account (fn_seller op) d in
  assert_payment (fn_fee_paying_account op) (fn_seller op) (no_price o) d.

(** The price goes to the seller the operation names. *)
Definition fill_nh_order_do_apply (op : fill_nh_asset_order_operation) (d : database) : result (Z * database) :=
  let* o := get_nh_order (fn_order op) d in
  let* (id, d) := release o (fn_fee_paying_account op) d in
  let* neg := asset_neg (no_price o) in
  let* d := adjust_balance (fn_fee_paying_account op) neg false d in
  let* d := adjust_balance (fn_seller op) (no_price o) false d in
  Ok (id, remove_nh_order (fn_order op) d).

(** ** Expired orders *)

(** [by_order_expiration]: orders of the same time in the order of their creation. *)
Definition expires_before (a b : Z * nh_asset_order_object) : bool :=
  if negb (no_expiration a.2 =? no_expiration b.2) then no_expiration a.2 <? no_expiration b.2 else a.1 <=? b.1.
Definition first_to_expire (n : nh_state) : option (Z * nh_asset_order_object) :=
  head (sort_by expires_before (map_to_list (nh_orders n))).

(** [None]: out of fuel. *)
Fixpoint clear_expired_loop (fuel : nat) (d : database) : option (result database) :=
  match fuel with
  | O => None
  | S fuel =>
      match first_to_expire (nh d) with
      | Some (id, o) =>
          if no_expiration o <=? head_block_time d then
            match release o (no_seller o) d with
            | Ok (_, d) => clear_expired_loop fuel (remove_nh_order id d)
            | Err e => Some (Err e)
            end
          else Some (Ok d)
      | None => Some (Ok d)
      end
  end.

(** Each round removes an order. *)
Definition clear_expired_nh_asset_orders (d : database) : option (result database) :=
  clear_expired_loop (S (size (nh_orders (nh d)))) d.
