(* ===== verification/NhSpec.v ===== *)
(** * Custody of items on sale

    An item on sale belongs to the null account and to one order, and the order finds it
    by its hash ([nh_ok]).  Every operation keeps this, items change hands only by the
    right of their owner or by an order, and expired orders return their items. *)

From S2P Require Import Prelude SafeInt Asset Vesting Authority State Ledger NhAssets.

(** ** The invariant *)

Definition in_custody (a : nh_asset_object) : Prop :=
  nh_asset_owner a = GRAPHENE_NULL_ACCOUNT /\ nh_asset_active a = GRAPHENE_NULL_ACCOUNT
  /\ dealership a = GRAPHENE_NULL_ACCOUNT.

Record nh_ok (n : nh_state) : Prop := {
  ni_item : forall id a, nh_assets n !! id = Some a -> (nh_hash a).1 = id /\ 0 <= id < next_nh_asset n;
  ni_next : 0 <= next_nh_asset n;
  ni_order : forall oid o, nh_orders n !! oid = Some o -> oid < next_nh_order n /\
    exists a, nh_assets n !! nh_asset_id o = Some a /\ no_hash o = nh_hash a /\ in_custody a;
  ni_unique : forall i j o p, nh_orders n !! i = Some o -> nh_orders n !! j = Some p ->
    nh_asset_id o = nh_asset_id p -> i = j }.

Lemma empty_nh_ok : nh_ok empty_nh.
Proof. by split. Qed.

(** The hash leads back to the item. *)
Lemma find_by_hash_item n id a : nh_ok n -> nh_assets n !! id = Some a -> find_by_hash (nh_hash a) n = Some (id, a).
Proof.
  intros Hok Ha. unfold find_by_hash. destruct (find _ _) as [[i b]|] eqn:E.
  - apply find_some in E as [Hin Hb]. apply list_elem_of_In, elem_of_map_to_list in Hin. cbn in Hb.
    apply bool_decide_eq_true in Hb.
    destruct (ni_item _ Hok _ _ Ha) as [E1 _], (ni_item _ Hok _ _ Hin) as [E2 _].
    assert (i = id) by congruence. subst i. congruence.
  - assert (Hin : In (id, a) (map_to_list (nh_assets n))) by (by apply list_elem_of_In, elem_of_map_to_list).
    apply (find_none _ _ E) in Hin. cbn in Hin. by apply bool_decide_eq_false in Hin.
Qed.

(** ** Changing one item *)

(** An item that is not in custody is on no order. *)
Lemma not_on_sale n id a : nh_ok n -> nh_assets n !! id = Some a -> nh_asset_owner a <> GRAPHENE_NULL_ACCOUNT ->
  forall i o, nh_orders n !! i = Some o -> nh_asset_id o <> id.
Proof.
  intros Hok Ha Hn i o Ho E. destruct (ni_order _ Hok _ _ Ho) as (_ & b & Hb & _ & Hc & _). congruence.
Qed.

(** An item not on sale may be given away, changed or deleted. *)
Lemma put_item_ok n id a b : nh_ok n -> nh_assets n !! id = Some a -> nh_hash b = nh_hash a ->
  (forall i o, nh_orders n !! i = Some o -> nh_asset_id o = id -> in_custody b) ->
  nh_ok (set_nh_assets (<[id := b]> (nh_assets n)) n).
Proof.
  intros Hok Ha Hh Hc. split; cbn [nh_assets nh_orders next_nh_asset next_nh_order set_nh_assets].
  - intros i c Hi. apply lookup_insert_Some in Hi as [[<- <-]|[_ Hi]]; [rewrite Hh|]; by apply (ni_item _ Hok).
  - apply Hok.
  - intros i o Ho. destruct (ni_order _ Hok _ _ Ho) as (Hlt & c & Hoc & Eh & Hcu). split; [done|].
    destruct (decide (nh_asset_id o = id)) as [E|Hn].
    + exists b. rewrite E, lookup_insert_eq. rewrite E, Ha in Hoc. injection Hoc as <-.
      split; [done|]. split; [congruence|]. by eapply Hc.
    + exists c. rewrite lookup_insert_ne by done. done.
  - apply Hok.
Qed.

Lemma delete_item_ok n id : nh_ok n -> (forall i o, nh_orders n !! i = Some o -> nh_asset_id o <> id) ->
  nh_ok (set_nh_assets (delete id (nh_assets n)) n).
Proof.
  intros Hok Hn. split; cbn [nh_assets nh_orders next_nh_asset next_nh_order set_nh_assets].
  - intros i c Hi. apply lookup_delete_Some in Hi as [_ Hi]. by apply (ni_item _ Hok).
  - apply Hok.
  - intros i o Ho. destruct (ni_order _ Hok _ _ Ho) as (Hlt & c & Hoc & Eh & Hcu). split; [done|].
    exists c. rewrite lookup_delete_ne; [done|]. intros E. by eapply Hn.
  - apply Hok.
Qed.

(** Creating an item with a fresh number. *)
Lemma new_item_ok n a : nh_ok n -> nh_hash a = (next_nh_asset n, (nh_hash a).2) ->
  nh_ok (set_next_nh_asset (next_nh_asset n + 1) (set_nh_assets (<[next_nh_asset n := a]> (nh_assets n)) n)).
Proof.
  intros Hok Hh. pose proof (ni_next _ Hok). split;
    cbn [nh_assets nh_orders next_nh_asset next_nh_order set_nh_assets set_next_nh_asset].
  - intros i c Hi. apply lookup_insert_Some in Hi as [[<- <-]|[_ Hi]]; [rewrite Hh; cbn; lia|].
    destruct (ni_item _ Hok _ _ Hi). split; [done|lia].
  - lia.
  - intros i o Ho. destruct (ni_order _ Hok _ _ Ho) as (Hlt & c & Hoc & Eh & Hcu). split; [done|].
    exists c. rewrite lookup_insert_ne; [done|]. apply (ni_item _ Hok) in Hoc. lia.
  - apply Hok.
Qed.

(** ** Changing one order *)

Definition place (oid id : Z) (o : nh_asset_order_object) (b : nh_asset_object) (n : nh_state) : nh_state :=
  set_nh_assets (<[id := b]> (nh_assets n)) (set_next_nh_order (oid + 1) (set_nh_orders (<[oid := o]> (nh_orders n)) n)).

Lemma place_ok n id a b o : nh_ok n -> nh_assets n !! id = Some a -> nh_asset_owner a <> GRAPHENE_NULL_ACCOUNT ->
  nh_hash b = nh_hash a -> in_custody b -> nh_asset_id o = id -> no_hash o = nh_hash a ->
  nh_ok (place (next_nh_order n) id o b n).
Proof.
  intros Hok Ha Hne Hh Hc Hid Hno. pose proof (not_on_sale n id a Hok Ha Hne) as Hfree.
  split; cbn [place nh_assets nh_orders next_nh_asset next_nh_order set_nh_assets set_next_nh_order set_nh_orders].
  - intros i c Hi. apply lookup_insert_Some in Hi as [[<- <-]|[_ Hi]]; [rewrite Hh|]; by apply (ni_item _ Hok).
  - apply Hok.
  - intros i p Hp. apply lookup_insert_Some in Hp as [[<- <-]|[_ Hp]].
    + split; [lia|]. exists b. rewrite Hid, lookup_insert_eq. split; [done|]. split; [congruence|done].
    + destruct (ni_order _ Hok _ _ Hp) as (Hlt & c & Hpc & Eh & Hcu). split; [lia|].
      exists c. rewrite lookup_insert_ne; [done|]. intros E. by eapply Hfree.
  - intros i j p q Hi Hj E. apply lookup_insert_Some in Hi as [[<- <-]|[_ Hi]], Hj as [[<- <-]|[_ Hj]]; [done| | |].
    + exfalso. eapply Hfree; [exact Hj|congruence].
    + exfalso. eapply Hfree; [exact Hi|congruence].
    + by eapply (ni_unique _ Hok).
Qed.

(** An order leaves and its item is given to somebody. *)
Definition settled_order (oid id acc : Z) (a : nh_asset_object) (n : nh_state) : nh_state :=
  set_nh_orders (delete oid (nh_orders n)) (set_nh_assets (<[id := give_to acc a]> (nh_assets n)) n).

Lemma settled_ok n oid o a acc : nh_ok n -> nh_orders n !! oid = Some o -> nh_assets n !! nh_asset_id o = Some a ->
  nh_ok (settled_order oid (nh_asset_id o) acc a n).
Proof.
  intros Hok Ho Ha. split; cbn [settled_order nh_assets nh_orders next_nh_asset next_nh_order set_nh_assets set_nh_orders].
  - intros i c Hi. apply lookup_insert_Some in Hi as [[<- <-]|[_ Hi]];
      [exact (ni_item _ Hok _ _ Ha)|by apply (ni_item _ Hok)].
  - apply Hok.
  - intros i p Hp. apply lookup_delete_Some in Hp as [Hne Hp].
    destruct (ni_order _ Hok _ _ Hp) as (Hlt & c & Hpc & Eh & Hcu). split; [done|]. exists c.
    rewrite lookup_insert_ne; [done|]. intros E. apply Hne. symmetry. by eapply (ni_unique _ Hok).
  - intros i j p q Hi Hj E. apply lookup_delete_Some in Hi as [_ Hi], Hj as [_ Hj]. by eapply (ni_unique _ Hok).
Qed.

(** Releasing the item of an order never fails. *)
Lemma release_run d oid o acc : nh_ok (nh d) -> nh_orders (nh d) !! oid = Some o ->
  exists a, nh_assets (nh d) !! nh_asset_id o = Some a /\ in_custody a /\
    release o acc d = Ok (nh_asset_id o, put_nh_asset (nh_asset_id o) (give_to acc a) d).
Proof.
  intros Hok Ho. destruct (ni_order _ Hok _ _ Ho) as (_ & a & Ha & Eh & Hc). exists a. split; [done|]. split; [done|].
  unfold release. rewrite Eh, (find_by_hash_item _ _ _ Hok Ha). done.
Qed.

(** ** The operations *)

Inductive nh_op :=
| NhRegister (acc : Z)
| NhCreateView (acc : Z) (name : string)
| NhRelateView (related : Z) (name : string) (view_owner : Z)
| NhCreate (op : create_nh_asset_operation)
| NhDelete (acc id : Z)
| NhTransfer (from_ to_ id : Z)
| NhRelate (op : relate_nh_asset_operation)
| NhOrder (op : create_nh_asset_order_operation)
| NhCancel (acc order : Z)
| NhFill (op : fill_nh_asset_order_operation).

(** [fee_payer]: the account that signs. *)
Definition nh_signer (op : nh_op) : Z :=
  match op with
  | NhRegister acc | NhCreateView acc _ | NhDelete acc _ | NhCancel acc _ => acc
  | NhRelateView _ _ view_owner => view_owner
  | NhCreate op => cn_fee_paying_account op
  | NhTransfer from_ _ _ => from_
  | NhRelate op => rn_nh_asset_creator op
  | NhOrder op => co_seller op
  | NhFill op => fn_fee_paying_account op
  end.

Section Operations.
Context (contract_exists : Z -> bool) (digest : string -> Z -> Z).

Definition run_nh_op (op : nh_op) (d : database) : result database :=
  match op with
  | NhRegister acc =>
      let* _ := register_creator_do_evaluate acc d in let* (_, d) := register_creator_do_apply acc d in Ok d
  | NhCreateView acc name =>
      let* _ := create_view_validate name in let* _ := create_view_do_evaluate acc name d in
      let* (_, d) := create_view_do_apply acc name d in Ok d
  | NhRelateView related name view_owner =>
      let* _ := relate_view_do_evaluate related name view_owner d in relate_view_do_apply related name d
  | NhCreate op =>
      let* _ := create_nh_validate op in let* _ := create_nh_do_evaluate op d in
      let* (_, d) := create_nh_do_apply digest op d in Ok d
  | NhDelete acc id => let* _ := delete_nh_do_evaluate acc id d in delete_nh_do_apply id d
  | NhTransfer from_ to_ id =>
      let* _ := transfer_nh_validate from_ to_ in let* _ := transfer_nh_do_evaluate from_ to_ id d in
      transfer_nh_do_apply to_ id d
  | NhRelate op =>
      let* _ := relate_nh_validate op in let* _ := relate_nh_do_evaluate contract_exists op d in
      relate_nh_do_apply op d
  | NhOrder op =>
      let* _ := create_nh_order_validate op in let* _ := create_nh_order_do_evaluate op d in
      let* (_, d) := create_nh_order_do_apply op d in Ok d
  | NhCancel acc order =>
      let* _ := cancel_nh_order_do_evaluate acc order d in let* (_, d) := cancel_nh_order_do_apply order d in Ok d
  | NhFill op =>
      let* _ := fill_nh_order_do_evaluate op d in let* (_, d) := fill_nh_order_do_apply op d in Ok d
  end.

(** How an item may change in one operation signed by [who]: it keeps its owner; or its
    owner signed; or it was on an order that [who] may end, and [who] has it now. *)
Definition rightful (who : Z) (n : nh_state) (id : Z) (a : nh_asset_object) (b : option nh_asset_object) : Prop :=
  (exists a', b = Some a' /\ nh_asset_owner a' = nh_asset_owner a /\ nh_asset_active a' = nh_asset_active a
     /\ dealership a' = dealership a /\ nh_hash a' = nh_hash a)
  \/ nh_asset_owner a = who
  \/ exists oid o, nh_orders n !! oid = Some o /\ nh_asset_id o = id /\ b = Some (give_to who a).

(** An operation of the kind: the invariant, the rights and the books. *)
Definition kept (who : Z) (d d' : database) : Prop :=
  nh_ok (nh d') /\
  (forall id a, nh_assets (nh d) !! id = Some a -> rightful who (nh d) id a (nh_assets (nh d') !! id)) /\
  (forall x, total x d' = total x d /\ supply x d' = supply x d).

Lemma books_nh n d x : total x (set_nh n d) = total x d /\ supply x (set_nh n d) = supply x d.
Proof. unfold total, supply. cbn [account_balances limit_orders call_orders force_settlements collateral_bids
  bitassets dynamic_data vesting_balances gas_collaterals initial_balances set_nh]. done. Qed.

Lemma only_nh_books d d' x : d' = set_nh (nh d') d -> total x d' = total x d /\ supply x d' = supply x d.
Proof. intros E. rewrite E. apply books_nh. Qed.

Lemma rightful_refl who n id a : rightful who n id a (Some a).
Proof. left. by exists a. Qed.

(** Steps that leave items and orders alone. *)
Lemma kept_views who d n : nh_ok (nh d) -> nh_assets n = nh_assets (nh d) -> nh_orders n = nh_orders (nh d) ->
  next_nh_asset n = next_nh_asset (nh d) -> next_nh_order n = next_nh_order (nh d) -> kept who d (set_nh n d).
Proof.
  intros [] Ea Eo Ena Eno. split; [|split].
  - cbn [nh set_nh]. split; rewrite ?Ea, ?Eo, ?Ena, ?Eno; auto.
  - intros id a Ha. cbn [nh set_nh]. rewrite Ea, Ha. apply rightful_refl.
  - intros x. apply books_nh.
Qed.

Lemma register_kept acc d d' : run_nh_op (NhRegister acc) d = Ok d' -> nh_ok (nh d) -> kept acc d d'.
Proof.
  cbn [run_nh_op]. intros H Hok. skip_bind H. apply rbind_ok in H as ([i d1] & H & [= <-]).
  unfold register_creator_do_apply in H. skip_bind H. injection H as _ <-. by apply kept_views.
Qed.

Lemma create_view_kept acc name d d' : run_nh_op (NhCreateView acc name) d = Ok d' -> nh_ok (nh d) -> kept acc d d'.
Proof.
  cbn [run_nh_op]. intros H Hok. do 2 skip_bind H. apply rbind_ok in H as ([i d1] & H & [= <-]).
  unfold create_view_do_apply in H. do 2 skip_bind H. injection H as _ <-. by apply kept_views.
Qed.

Lemma relate_view_kept r name o d d' : run_nh_op (NhRelateView r name o) d = Ok d' -> nh_ok (nh d) -> kept o d d'.
Proof.
  cbn [run_nh_op]. intros H Hok. skip_bind H. unfold relate_view_do_apply in H. do 2 skip_bind H.
  injection H as <-. by apply kept_views.
Qed.

Lemma get_nh_asset_inv id d a : get_nh_asset id d = Ok a -> nh_assets (nh d) !! id = Some a.
Proof. unfold get_nh_asset, get_or. destruct (_ !! id); by intros [= ->]. Qed.
Lemma get_nh_order_inv id d o : get_nh_order id d = Ok o -> nh_orders (nh d) !! id = Some o.
Proof. unfold get_nh_order, get_or. destruct (_ !! id); by intros [= ->]. Qed.

Lemma create_kept op d d' : run_nh_op (NhCreate op) d = Ok d' -> nh_ok (nh d) -> next_nh_asset (nh d) < uint64_mod ->
  kept (cn_fee_paying_account op) d d'.
Proof.
  cbn [run_nh_op]. intros H Hok Hlt. do 2 skip_bind H. apply rbind_ok in H as ([i d1] & H & [= <-]).
  unfold create_nh_do_apply in H. skip_bind H. injection H as _ <-. pose proof (ni_next _ Hok).
  split; [|split].
  - apply new_item_ok; [done|]. cbn [nh_hash]. by rewrite wrap64_small by lia.
  - intros id a Ha. cbn [nh set_nh nh_assets set_next_nh_asset set_nh_assets]. rewrite lookup_insert_ne, Ha;
      [apply rightful_refl|]. apply (ni_item _ Hok) in Ha. lia.
  - intros x. apply books_nh.
Qed.

(** Giving away or deleting an item by its owner. *)
Lemma put_kept who d id a b : nh_ok (nh d) -> nh_assets (nh d) !! id = Some a -> nh_hash b = nh_hash a ->
  nh_asset_owner a = who -> who <> GRAPHENE_NULL_ACCOUNT -> kept who d (put_nh_asset id b d).
Proof.
  intros Hok Ha Hh Hw Hn. split; [|split].
  - apply (put_item_ok _ _ a); [done|done|done|]. intros i o Ho E. exfalso.
    eapply (not_on_sale _ id a); [exact Hok|done|congruence|exact Ho|done].
  - intros i c Hc. cbn. destruct (decide (i = id)) as [->|Hne].
    + rewrite Ha in Hc. injection Hc as <-. right. by left.
    + rewrite lookup_insert_ne, Hc by done. apply rightful_refl.
  - intros x. apply books_nh.
Qed.

Lemma delete_kept acc id d d' : run_nh_op (NhDelete acc id) d = Ok d' -> nh_ok (nh d) ->
  acc <> GRAPHENE_NULL_ACCOUNT -> kept acc d d'.
Proof.
  cbn [run_nh_op]. intros H Hok Hn. apply rbind_ok in H as (u & He & H). unfold delete_nh_do_evaluate in He.
  apply rbind_ok in He as (a & Ha & He). apply get_nh_asset_inv in Ha. apply rbind_ok in He as (u1 & Hw & _).
  unfold fc_assert in Hw. case_if_in Hw; [|done]. apply Z.eqb_eq in Hif.
  unfold delete_nh_do_apply in H. skip_bind H. injection H as <-. split; [|split].
  - apply delete_item_ok; [done|]. eapply (not_on_sale _ id a); [done|done|congruence].
  - intros i c Hc. cbn. destruct (decide (i = id)) as [->|Hne].
    + rewrite Ha in Hc. injection Hc as <-. right. by left.
    + rewrite lookup_delete_ne, Hc by done. apply rightful_refl.
  - intros x. apply books_nh.
Qed.

Lemma transfer_nh_kept from_ to_ id d d' : run_nh_op (NhTransfer from_ to_ id) d = Ok d' -> nh_ok (nh d) ->
  from_ <> GRAPHENE_NULL_ACCOUNT -> kept from_ d d'.
Proof.
  cbn [run_nh_op]. intros H Hok Hn. skip_bind H. apply rbind_ok in H as (u & He & H).
  unfold transfer_nh_do_evaluate, assert_asset_transfer in He. apply rbind_ok in He as (a & Ha & He).
  apply rbind_ok in He as (u1 & He & _). apply rbind_ok in He as (u2 & Hw & _).
  unfold fc_assert in Hw. case_if_in Hw; [|done]. apply Z.eqb_eq in Hif.
  unfold transfer_nh_do_apply in H. rewrite Ha in H. injection H as <-. apply get_nh_asset_inv in Ha.
  by apply (put_kept _ _ _ a).
Qed.

(** Steps that keep the rights to every item. *)
Definition same_rights (d d' : database) : Prop :=
  nh_ok (nh d') /\
  (forall id a, nh_assets (nh d) !! id = Some a -> exists a', nh_assets (nh d') !! id = Some a' /\
     nh_asset_owner a' = nh_asset_owner a /\ nh_asset_active a' = nh_asset_active a
     /\ dealership a' = dealership a /\ nh_hash a' = nh_hash a) /\
  (forall x, total x d' = total x d /\ supply x d' = supply x d).

Lemma same_rights_kept who d d' : same_rights d d' -> kept who d d'.
Proof.
  intros (Hok & Hi & Hb). split; [done|]. split; [|done]. intros id a Ha.
  destruct (Hi _ _ Ha) as (a' & -> & H). left. by exists a'.
Qed.

Lemma same_rights_trans d1 d2 d3 : same_rights d1 d2 -> same_rights d2 d3 -> same_rights d1 d3.
Proof.
  intros (_ & I1 & B1) (Ok2 & I2 & B2). split; [done|]. split.
  - intros id a Ha. destruct (I1 _ _ Ha) as (a' & Ha' & E1 & E2 & E3 & E4).
    destruct (I2 _ _ Ha') as (b & Hb & F1 & F2 & F3 & F4). exists b. split; [done|]. split_and!; congruence.
  - intros x. destruct (B1 x) as [<- <-]. apply B2.
Qed.

Lemma put_same_rights d id a b : nh_ok (nh d) -> nh_assets (nh d) !! id = Some a -> nh_hash b = nh_hash a ->
  nh_asset_owner b = nh_asset_owner a -> nh_asset_active b = nh_asset_active a -> dealership b = dealership a ->
  same_rights d (put_nh_asset id b d).
Proof.
  intros Hok Ha Hh E1 E2 E3. split; [|split].
  - apply (put_item_ok _ _ a); [done|done|done|]. intros i o Ho E. unfold in_custody. rewrite E1, E2, E3.
    destruct (ni_order _ Hok _ _ Ho) as (_ & c & Hc & _ & Hcu). rewrite E, Ha in Hc. by injection Hc as <-.
  - intros i c Hc. cbn. destruct (decide (i = id)) as [->|Hne].
    + rewrite lookup_insert_eq. rewrite Ha in Hc. injection Hc as <-. by exists b.
    + rewrite lookup_insert_ne, Hc by done. by exists c.
  - intros x. apply books_nh.
Qed.

Lemma relate_kept op d d' : run_nh_op (NhRelate op) d = Ok d' -> nh_ok (nh d) -> kept (rn_nh_asset_creator op) d d'.
Proof.
  cbn [run_nh_op]. intros H Hok. do 2 skip_bind H. apply same_rights_kept. unfold relate_nh_do_apply in H.
  apply rbind_ok in H as (c & Hc & H). apply get_nh_asset_inv in Hc. case_if_in H.
  - apply rbind_ok in H as (p & Hp & [= <-]). apply get_nh_asset_inv in Hp. set (d1 := put_nh_asset _ _ d) in *.
    assert (R1 : same_rights d d1) by (by apply (put_same_rights _ _ c)).
    eapply same_rights_trans; [exact R1|]. apply (put_same_rights _ _ p); try done. apply R1.
  - skip_bind H. apply rbind_ok in H as (p & Hp & H). apply get_nh_asset_inv in Hp. skip_bind H. injection H as <-.
    set (d1 := put_nh_asset _ _ d) in *.
    assert (R1 : same_rights d d1) by (by apply (put_same_rights _ _ c)).
    eapply same_rights_trans; [exact R1|]. apply (put_same_rights _ _ p); try done. apply R1.
Qed.

(** A payment leaves the items alone and keeps the books. *)
Lemma payment_books from_ to_ amt d d1 d2 neg : asset_neg amt = Ok neg -> adjust_balance from_ neg false d = Ok d1 ->
  adjust_balance to_ amt false d1 = Ok d2 ->
  nh d2 = nh d /\ forall x, total x d2 = total x d /\ supply x d2 = supply x d.
Proof.
  intros Hn H1 H2. split; [|intros x; by eapply move_balance].
  apply adjust_balance_total in H1 as (m1 & -> & _), H2 as (m2 & -> & _). done.
Qed.

Lemma order_kept op d d' : run_nh_op (NhOrder op) d = Ok d' -> nh_ok (nh d) ->
  co_seller op <> GRAPHENE_NULL_ACCOUNT -> kept (co_seller op) d d'.
Proof.
  cbn [run_nh_op]. intros H Hok Hn. skip_bind H. apply rbind_ok in H as (u & He & H).
  apply rbind_ok in H as ([oid d1] & H & [= <-]). unfold create_nh_order_do_evaluate in He.
  apply rbind_ok in He as (a & Ha & He). apply rbind_ok in He as (u1 & Hw & _). unfold fc_assert in Hw.
  case_if_in Hw; [|done]. apply Z.eqb_eq in Hif.
  unfold create_nh_order_do_apply in H. rewrite Ha in H. cbn [rbind] in H. apply get_nh_asset_inv in Ha. skip_bind H.
  set (o := mk_nh_order _ _ _ _ _ _ _ _ _) in H. set (d2 := put_nh_asset _ _ _) in H.
  apply rbind_ok in H as (neg & Hneg & H). apply rbind_ok in H as (d3 & H3 & H).
  apply rbind_ok in H as (d4 & H4 & [= _ <-]). destruct (payment_books _ _ _ _ _ _ _ Hneg H3 H4) as [En Eb].
  assert (Enh : nh d2 = place (next_nh_order (nh d)) (co_nh_asset op) o (give_to GRAPHENE_NULL_ACCOUNT a) (nh d)) by done.
  split; [|split].
  - rewrite En, Enh. by apply (place_ok _ _ a); try done; congruence.
  - intros i c Hc. rewrite En, Enh. cbn. destruct (decide (i = co_nh_asset op)) as [->|Hne].
    + rewrite Ha in Hc. injection Hc as <-. right. by left.
    + rewrite lookup_insert_ne, Hc by done. apply rightful_refl.
  - intros x. destruct (Eb x) as [-> ->]. by apply only_nh_books.
Qed.

(** Ending an order: the item of the order goes to who ends it. *)
Lemma settled_kept who d oid o a d' : nh_ok (nh d) -> nh_orders (nh d) !! oid = Some o ->
  nh_assets (nh d) !! nh_asset_id o = Some a -> nh d' = settled_order oid (nh_asset_id o) who a (nh d) ->
  (forall x, total x d' = total x d /\ supply x d' = supply x d) -> kept who d d'.
Proof.
  intros Hok Ho Ha E Hb. split; [rewrite E; by apply settled_ok|]. split; [|done].
  intros i c Hc. rewrite E. cbn. destruct (decide (i = nh_asset_id o)) as [->|Hne].
  - rewrite Ha in Hc. injection Hc as <-. rewrite lookup_insert_eq. right. right. by exists oid, o.
  - rewrite lookup_insert_ne, Hc by done. apply rightful_refl.
Qed.

Lemma cancel_kept acc order d d' : run_nh_op (NhCancel acc order) d = Ok d' -> nh_ok (nh d) -> kept acc d d'.
Proof.
  cbn [run_nh_op]. intros H Hok. apply rbind_ok in H as (u & He & H). apply rbind_ok in H as ([i d1] & H & [= <-]).
  unfold cancel_nh_order_do_evaluate in He. apply rbind_ok in He as (o & Ho & He).
  unfold fc_assert in He. case_if_in He; [|done]. apply Z.eqb_eq in Hif.
  unfold cancel_nh_order_do_apply in H. rewrite Ho in H. cbn [rbind] in H. apply get_nh_order_inv in Ho.
  destruct (release_run d order o (no_seller o) Hok Ho) as (a & Ha & _ & Er). rewrite Er in H. injection H as _ <-.
  apply (settled_kept _ _ order o a); [done|done|done|by rewrite <- Hif|]. intros x.
  by apply only_nh_books.
Qed.

Lemma fill_kept op d d' : run_nh_op (NhFill op) d = Ok d' -> nh_ok (nh d) -> kept (fn_fee_paying_account op) d d'.
Proof.
  cbn [run_nh_op]. intros H Hok. skip_bind H. apply rbind_ok in H as ([i d1] & H & [= <-]).
  unfold fill_nh_order_do_apply in H. apply rbind_ok in H as (o & Ho & H). apply get_nh_order_inv in Ho.
  destruct (release_run d (fn_order op) o (fn_fee_paying_account op) Hok Ho) as (a & Ha & _ & Er).
  rewrite Er in H. cbn [rbind] in H. set (d2 := put_nh_asset _ _ d) in H.
  apply rbind_ok in H as (neg & Hneg & H). apply rbind_ok in H as (d3 & H3 & H).
  apply rbind_ok in H as (d4 & H4 & [= _ <-]). destruct (payment_books _ _ _ _ _ _ _ Hneg H3 H4) as [En Eb].
  apply (settled_kept _ _ (fn_order op) o a); [done|done|done|cbn; by rewrite En|]. intros x.
  destruct (only_nh_books d4 (remove_nh_order (fn_order op) d4) x eq_refl) as [-> ->].
  destruct (Eb x) as [-> ->]. by apply only_nh_books.
Qed.

Lemma run_nh_kept op d d' : run_nh_op op d = Ok d' -> nh_ok (nh d) -> nh_signer op <> GRAPHENE_NULL_ACCOUNT ->
  next_nh_asset (nh d) < uint64_mod -> kept (nh_signer op) d d'.
Proof.
  intros H Hok Hn Hlt. destruct op; cbn [nh_signer] in *;
    eauto using register_kept, create_view_kept, relate_view_kept, create_kept, delete_kept, transfer_nh_kept,
      relate_kept, order_kept, cancel_kept, fill_kept.
Qed.
End Operations.

(** ** Expired orders *)

Definition expired (d : database) (o : nh_asset_order_object) : Prop := no_expiration o <= head_block_time d.

(** Every expired order is gone and its item is its seller's; the others are as before. *)
Record returned (d d' : database) : Prop := {
  re_only : d' = set_nh (nh d') d;
  re_ok : nh_ok (nh d');
  re_expired : forall oid o, nh_orders (nh d) !! oid = Some o -> expired d o ->
    nh_orders (nh d') !! oid = None /\ exists a, nh_assets (nh d) !! nh_asset_id o = Some a /\
      nh_assets (nh d') !! nh_asset_id o = Some (give_to (no_seller o) a);
  re_pending : forall oid o, nh_orders (nh d) !! oid = Some o -> ~ expired d o -> nh_orders (nh d') !! oid = Some o;
  re_orders : nh_orders (nh d') ⊆ nh_orders (nh d);
  re_items : forall id, (forall oid o, nh_orders (nh d) !! oid = Some o -> nh_asset_id o = id -> ~ expired d o) ->
    nh_assets (nh d') !! id = nh_assets (nh d) !! id }.

Lemma first_to_expire_some n id o : first_to_expire n = Some (id, o) ->
  nh_orders n !! id = Some o /\ forall i p, nh_orders n !! i = Some p -> no_expiration o <= no_expiration p.
Proof.
  unfold first_to_expire. intros H. split.
  - destruct (sort_by _ _) as [|x l] eqn:E; [done|]. injection H as ->. apply elem_of_map_to_list.
    eapply (sort_by_elem expires_before). rewrite E. apply list_elem_of_here.
  - intros i p Hp. apply (sort_by_min expires_before (fun ko => no_expiration ko.2) _ (id, o) (i, p)) in H; [done| | |].
    + intros a b. unfold expires_before. case_if; intros Hb; bool_to_prop; lia.
    + intros a b. unfold expires_before. case_if; intros Hb; bool_to_prop; lia.
    + by apply elem_of_map_to_list.
Qed.

Lemma first_to_expire_none n : first_to_expire n = None -> nh_orders n = ∅.
Proof.
  unfold first_to_expire. intros H. destruct (sort_by _ _) as [|x l] eqn:E; [|done].
  pose proof (sort_by_perm expires_before (map_to_list (nh_orders n))) as P. rewrite E in P.
  apply Permutation_nil_l in P. by apply map_to_list_empty_iff.
Qed.

Lemma returned_none d : nh_ok (nh d) -> (forall oid o, nh_orders (nh d) !! oid = Some o -> ~ expired d o) -> returned d d.
Proof.
  intros Hok Hn. split; [by destruct d|done| |done|done|done]. intros oid o Ho He. by apply Hn in Ho.
Qed.

(** One round of the loop, then the rest. *)
Lemma returned_step d oid o a d' : nh_ok (nh d) -> nh_orders (nh d) !! oid = Some o -> expired d o ->
  nh_assets (nh d) !! nh_asset_id o = Some a ->
  returned (remove_nh_order oid (put_nh_asset (nh_asset_id o) (give_to (no_seller o) a) d)) d' -> returned d d'.
Proof.
  intros Hok Ho He Ha [Ho1 Hok1 He1 Hp1 Hs1 Hi1]. cbn in *.
  assert (Hother : forall i p, nh_orders (nh d) !! i = Some p -> i <> oid -> nh_asset_id p <> nh_asset_id o).
  { intros i p Hp Hne E. apply Hne. by eapply (ni_unique _ Hok). }
  assert (Hitem : nh_assets (nh d') !! nh_asset_id o = Some (give_to (no_seller o) a)).
  { rewrite Hi1; [by rewrite lookup_insert_eq|]. intros i p Hp E. apply lookup_delete_Some in Hp as [Hne Hp].
    exfalso. by apply (Hother i p Hp). }
  split.
  - rewrite Ho1 at 1. by destruct d.
  - done.
  - intros i p Hp Hx. destruct (decide (i = oid)) as [->|Hne].
    + rewrite Ho in Hp. injection Hp as <-. split; [|by exists a].
      apply (lookup_weaken_None _ _ _ (lookup_delete_eq _ _) Hs1).
    + destruct (He1 i p) as (E1 & b & Hb & E2); [by rewrite lookup_delete_ne|done|]. split; [done|]. exists b.
      rewrite lookup_insert_ne in Hb by (intros E; by eapply Hother). done.
  - intros i p Hp Hx. apply Hp1; [|done]. rewrite lookup_delete_ne; [done|]. intros ->.
    rewrite Ho in Hp. injection Hp as <-. done.
  - etrans; [exact Hs1|]. apply delete_subseteq.
  - intros id Hid. rewrite Hi1.
    + rewrite lookup_insert_ne; [done|]. intros <-. by eapply Hid.
    + intros i p Hp E. apply lookup_delete_Some in Hp as [_ Hp]. by eapply Hid.
Qed.

Lemma clear_loop_run fuel : forall d, nh_ok (nh d) -> (size (nh_orders (nh d)) < fuel)%nat ->
  exists d', clear_expired_loop fuel d = Some (Ok d') /\ returned d d'.
Proof.
  induction fuel as [|fuel IH]; intros d Hok Hf; [lia|]. cbn [clear_expired_loop].
  destruct (first_to_expire (nh d)) as [[oid o]|] eqn:E.
  - apply first_to_expire_some in E as [Ho Hmin]. case_if; bool_to_prop.
    + destruct (release_run d oid o (no_seller o) Hok Ho) as (a & Ha & _ & ->).
      set (d1 := remove_nh_order _ _). destruct (IH d1) as (d' & Hl & Hr).
      * exact (settled_ok _ oid o a (no_seller o) Hok Ho Ha).
      * cbn. rewrite map_size_delete_Some by eauto. assert (size (nh_orders (nh d)) <> 0%nat); [|lia].
        intros Hz. apply map_size_empty_iff in Hz. by rewrite Hz in Ho.
      * exists d'. split; [done|]. by eapply returned_step.
    + exists d. split; [done|]. apply returned_none; [done|]. intros i p Hp. apply Hmin in Hp. unfold expired. lia.
  - exists d. split; [done|]. apply first_to_expire_none in E. apply returned_none; [done|].
    intros i p Hp. rewrite E in Hp. done.
Qed.

(** ** Properties *)

(** C14: Items change hands rightfully.  An operation on items that is not signed by the
    null account keeps every order's item in custody and findable, changes the rights to an
    item only if its owner signed or if the signer ended an order on it, and then the signer
    has it; and no units of any asset appear or vanish. *)
Theorem items_change_hands_rightfully (contract_exists : Z -> bool) (digest : string -> Z -> Z) (op : nh_op)
    (d d' : database) (H : run_nh_op contract_exists digest op d = Ok d') (Hok : nh_ok (nh d))
    (Hn : nh_signer op <> GRAPHENE_NULL_ACCOUNT) (Hl : next_nh_asset (nh d) < uint64_mod) :
  nh_ok (nh d') /\
  (forall id a, nh_assets (nh d) !! id = Some a -> rightful (nh_signer op) (nh d) id a (nh_assets (nh d') !! id)) /\
  (forall x, total x d' = total x d /\ supply x d' = supply x d).
Proof. by eapply run_nh_kept. Qed.

(** C27: Expired orders end.  The loop over the expired orders of items ends without an
    error; afterwards exactly the expired orders are gone, each of their items belongs to
    its seller, and no other item changed. *)
Theorem expired_orders_return (d : database) (Hok : nh_ok (nh d)) :
  exists d', clear_expired_nh_asset_orders d = Some (Ok d') /\ returned d d'.
Proof. apply clear_loop_run; [done|lia]. Qed.

(** Account 5 made an item and sells it for 40 units; account 6 has 100. *)
Definition demo_item : nh_asset_object := mk_nh_asset (0, 77) 5 5 5 5 "world" "sword" ∅ ∅ 900.
Definition demo_nh_db : database :=
  set_nh (mk_nh {[ 0 := mk_nh_creator ["world"] 5 ]} 1 {[ 0 := mk_world_view "world" 0 [0] ]} 1
            {[ 0 := demo_item ]} 1 ∅ 0)
    (set_governance (set_parameters (mk_parameters 3 86400 0 0 0 3 3 10 0 0 2 0 5000 1000 4 86400 100 100 0 0 0 0)
                       empty_governance)
       (set_accounts {[ 5 := basic_account ∅ None; 6 := basic_account ∅ None; 9 := basic_account ∅ None ]}
          (set_account_balances {[ (6, 3) := 100 ]} demo_ledger))).

Definition demo_sale : create_nh_asset_order_operation :=
  mk_create_nh_order 5 9 (mk_asset 0 3) 0 "" (mk_asset 40 3) 2000.
Definition demo_digest : string -> Z -> Z := fun _ _ => 77.
Definition run_demo (ops : list nh_op) : result database :=
  foldl (fun r op => let* d := r in run_nh_op (fun _ => true) demo_digest op d) (Ok demo_nh_db) ops.

Lemma demo_nh_ok : nh_ok (nh demo_nh_db).
Proof.
  split; [|done|done|done]. intros id a H.
  change (({[ 0 := demo_item ]} : gmap Z nh_asset_object) !! id = Some a) in H.
  apply lookup_singleton_Some in H as [<- <-]. done.
Qed.

Lemma items_change_hands_rightfully_witness :
  match run_nh_op (fun _ => true) demo_digest (NhOrder demo_sale) demo_nh_db with
  | Ok d' => nh_ok (nh d') /\ rightful 5 (nh demo_nh_db) 0 demo_item (nh_assets (nh d') !! 0)
  | Err _ => False
  end.
Proof.
  assert (Hok : is_ok (run_nh_op (fun _ => true) demo_digest (NhOrder demo_sale) demo_nh_db) = true) by (vm_compute; reflexivity).
  destruct (run_nh_op _ _ _ _) as [d'|] eqn:E; [|discriminate Hok].
  destruct (items_change_hands_rightfully _ _ _ _ _ E demo_nh_ok ltac:(done) ltac:(cbn; lia)) as (H1 & H2 & _).
  split; [exact H1|]. apply H2. vm_compute. reflexivity.
Defined.

(** The sale of the item, after it expired. *)
Definition demo_expired_db : database :=
  set_head_block_time 3000 (match run_demo [NhOrder demo_sale] with Ok d => d | Err _ => demo_nh_db end).

Lemma demo_expired_ok : nh_ok (nh demo_expired_db).
Proof.
  unfold demo_expired_db. destruct (run_demo _) as [d|] eqn:E; [|vm_compute in E; discriminate E].
  apply (run_nh_kept (fun _ => true) demo_digest (NhOrder demo_sale) demo_nh_db d E demo_nh_ok); [done|cbn; lia].
Qed.

Lemma expired_orders_return_witness :
  exists d', clear_expired_nh_asset_orders demo_expired_db = Some (Ok d') /\ nh_orders (nh d') !! 0 = None
    /\ nh_assets (nh d') !! 0 = Some (give_to 5 demo_item).
Proof.
  destruct (expired_orders_return demo_expired_db demo_expired_ok) as (d' & H & R). exists d'. split; [exact H|].
  assert (Ho : nh_orders (nh demo_expired_db) !! 0
    = Some (mk_nh_order 5 9 0 "world" "sword" (0, 77) (mk_asset 40 3) "" 2000)) by (vm_compute; reflexivity).
  destruct (re_expired _ _ R 0 _ Ho) as (E1 & a & Ea & E2); [by vm_compute|]. split; [exact E1|].
  assert (Ea' : nh_assets (nh demo_expired_db) !! 0 = Some (give_to 3 demo_item)) by (vm_compute; reflexivity).
  cbn [nh_asset_id] in Ea, E2. rewrite Ea' in Ea. injection Ea as <-. exact E2.
Defined.

(** Who buys names the seller to be paid: naming himself, account 6 gets the item of
    account 5 and keeps his 100 units. *)
Theorem fill_pays_named_account :
  match run_demo [NhOrder demo_sale; NhFill (mk_fill_nh_order 0 6 6)] with
  | Ok d' => (nh_asset_owner <$> nh_assets (nh d') !! 0) = Some 6 /\ account_balances d' !! (6, 3) = Some 100
             /\ account_balances d' !! (5, 3) = None
  | Err _ => False
  end.
Proof. vm_compute. done. Qed.

(** Three items of one creator: after relating 0 to 1 and to 2 under one contract, item 0
    lists only one child; the second relation cannot be taken back. *)
Definition demo_three : database :=
  modify_nh (fun n => set_next_nh_asset 3 (set_nh_assets
    {[ 0 := demo_item; 1 := mk_nh_asset (1, 77) 5 5 5 5 "world" "shield" ∅ ∅ 900;
       2 := mk_nh_asset (2, 77) 5 5 5 5 "world" "ring" ∅ ∅ 900 ]} n)) demo_nh_db.
Definition run_three (ops : list nh_op) : result database :=
  foldl (fun r op => let* d := r in run_nh_op (fun _ => true) demo_digest op d) (Ok demo_three) ops.
Theorem second_relation_lost :
  run_three [NhRelate (mk_relate_nh 5 0 1 8 true); NhRelate (mk_relate_nh 5 0 2 8 true);
             NhRelate (mk_relate_nh 5 0 2 8 false)] = Err undefined_behaviour.
Proof. vm_compute. reflexivity. Qed.
