(* ===== verification/Collateral.v ===== *)
(** * Collateral for gas and initial balances

    [gas_evaluator.cpp] with [estimation_gas] of [db_market.cpp], and
    [balance_evaluator.cpp]: core units pledged for gas, and the balances of the genesis
    state that their owners claim.  Which addresses belong to a key is a parameter. *)

From Stdlib Require Import SpecFloat.
From S2P Require Import Prelude SafeInt Asset Vesting State Ledger Market MarketProofs Double.

(** ** Gas *)

(** The gas that core units are worth: their share of the supply, of all gas. *)
Definition estimation_gas (collateral : Z) (d : database) : result Z :=
  check collateral >=? 0;
  let* core := get_dynamic_data CORE d in
  let* gas := get_asset GRAPHENE_ASSET_GAS d in
  let scale := double_div (double_of_int64 collateral) (double_of_int64 (current_supply core)) in
  double_to_int64 (double_mul (double_of_int64 (max_supply gas)) scale).

Record update_collateral_for_gas_operation := mk_update_gas {
  ug_mortgager : Z;
  ug_beneficiary : Z;
  ug_collateral : Z }.

Definition find_gas_collateral (mortg benef : Z) (d : database) : option (Z * collateral_for_gas_object) :=
  find (fun kc => (mortgager kc.2 =? mortg) && (gas_beneficiary kc.2 =? benef)) (map_to_list (gas_collaterals d)).

Definition gas_do_evaluate (op : update_collateral_for_gas_operation) (d : database)
    : result (option (Z * collateral_for_gas_object)) :=
  let* _ := get_account (ug_beneficiary op) d in
  Ok (find_gas_collateral (ug_mortgager op) (ug_beneficiary op) d).

Definition deposit_cashback_vb (acct amt : Z) (d : database) : result database :=
  let* a := get_account acct d in
  let* (new_vbid, d) :=
    deposit_lazy_vesting (cashback_vb a) (mk_asset amt CORE)
      (cashback_vb_period_seconds (parameters (governance d))) acct "cashback_vb" true d in
  match new_vbid with
  | Some id => Ok (set_accounts (<[acct := set_cashback_vb (Some id) a]> (accounts d)) d)
  | None => Ok d
  end.

Definition add_gas_supply (x : Z) (d : database) : result database :=
  modify_dynamic_data GRAPHENE_ASSET_GAS
    (fun dd => let* s := Share.add (current_supply dd) x in Ok (mk_dyn s (accumulated_fees dd))) d.

(** Collateral taken back is paid out over time; the beneficiary of the gas may end up with
    less than nothing. *)
Definition gas_do_apply (op : update_collateral_for_gas_operation)
    (old : option (Z * collateral_for_gas_object)) (d : database) : result (Z * database) :=
  match old with
  | Some (id, c) =>
      let* temp_collateral := Share.sub (ug_collateral op) (gas_collateral c) in
      let* gas := estimation_gas (ug_collateral op) d in
      let* temp_debt := Share.sub gas (gas_debt c) in
      let* coll := Share.add (gas_collateral c) temp_collateral in
      let* debt := Share.add (gas_debt c) temp_debt in
      let d := set_gas_collaterals
                 (<[id := mk_gas_collateral (mortgager c) (gas_beneficiary c) coll debt]> (gas_collaterals d)) d in
      let* _ := get_account (ug_mortgager op) d in
      let* d := adjust_balance (ug_beneficiary op) (mk_asset temp_debt GRAPHENE_ASSET_GAS) true d in
      let* back := Share.neg temp_collateral in
      let* d := if temp_collateral <? 0 then deposit_cashback_vb (ug_mortgager op) back d
                else adjust_balance (ug_mortgager op) (mk_asset back CORE) false d in
      let* d := add_gas_supply temp_debt d in
      Ok (id, d)
  | None =>
      let id := next_gas_collateral d in
      let* gas := estimation_gas (ug_collateral op) d in
      let d := set_next_gas_collateral (id + 1) (set_gas_collaterals
                 (<[id := mk_gas_collateral (ug_mortgager op) (ug_beneficiary op) (ug_collateral op) gas]>
                    (gas_collaterals d)) d) in
      let* neg := Share.neg (ug_collateral op) in
      let* d := adjust_balance (ug_mortgager op) (mk_asset neg CORE) false d in
      let* d := adjust_balance (ug_beneficiary op) (mk_asset gas GRAPHENE_ASSET_GAS) true d in
      let* d := add_gas_supply gas d in
      Ok (id, d)
  end.

Definition update_collateral_for_gas (op : update_collateral_for_gas_operation) (d : database)
    : result (Z * database) :=
  let* old := gas_do_evaluate op d in gas_do_apply op old d.

(** ** Initial balances *)

Record balance_claim_operation := mk_balance_claim {
  bc_deposit_to_account : Z;
  bc_balance_to_claim : Z;
  bc_balance_owner_key : Z;
  bc_total_claimed : asset }.

Definition claim_validate (null_key : Z) (op : balance_claim_operation) : result unit :=
  fc_assert (negb (bc_balance_owner_key op =? null_key)).

(** [skip]: authorities or signatures are not checked.  Then the asset is not checked
    either. *)
Definition claim_do_evaluate (addresses_of_key : Z -> list Z) (skip : bool) (op : balance_claim_operation)
    (d : database) : result balance_object :=
  let* b := get_or (initial_balances d !! bc_balance_to_claim op) assert_exception in
  require existsb (Z.eqb (bal_owner b)) (addresses_of_key (bc_balance_owner_key op)) else balance_claim_owner_mismatch;
  let* _ := if negb skip then fc_assert (asset_id (bc_total_claimed op) =? asset_id (bal_balance b)) else Ok tt in
  let* _ :=
    match bal_policy b with
    | Some p =>
        let* ok := linear_is_withdraw_allowed p (mk_ctx (bal_balance b) (head_block_time d) (bc_total_claimed op)) in
        require ok else balance_claim_invalid_claim_amount;
        graphene_assert (head_block_time d - last_claim_date b >=? 86400) balance_claim_claimed_too_often
    | None => fc_assert (asset_eqb (bc_total_claimed op) (bal_balance b))
    end in
  Ok b.

(** A linear policy has nothing to note at a withdrawal. *)
Definition claim_do_apply (op : balance_claim_operation) (b : balance_object) (d : database) : result database :=
  let id := bc_balance_to_claim op in
  let* partly := match bal_policy b with
                 | Some _ => asset_ltb (bc_total_claimed op) (bal_balance b)
                 | None => Ok false
                 end in
  let* d :=
    if partly then
      let* rest := asset_sub (bal_balance b) (bc_total_claimed op) in
      Ok (set_initial_balances
            (<[id := mk_balance_object (bal_owner b) rest (bal_policy b) (head_block_time d)]> (initial_balances d)) d)
    else Ok (set_initial_balances (delete id (initial_balances d)) d) in
  adjust_balance (bc_deposit_to_account op) (bc_total_claimed op) false d.

Definition balance_claim (addresses_of_key : Z -> list Z) (skip : bool) (op : balance_claim_operation)
    (d : database) : result database :=
  let* b := claim_do_evaluate addresses_of_key skip op d in claim_do_apply op b d.

(** ** Books *)

Lemma total_set_gas x m d : total x (set_gas_collaterals m d)
  = total x d - in_gas_collateral x (gas_collaterals d) + in_gas_collateral x m.
Proof. unfold total. cbn. lia. Qed.
Lemma total_set_initial x m d : total x (set_initial_balances m d)
  = total x d - in_initial x (initial_balances d) + in_initial x m.
Proof. unfold total. cbn. lia. Qed.

(** Gas that collateral answers for. *)
Definition gas_owed (d : database) : Z := sum_map (fun _ c => gas_debt c) (gas_collaterals d).

Definition gas_fresh (d : database) : Prop :=
  forall id c, gas_collaterals d !! id = Some c -> id < next_gas_collateral d.

(** A step of the books: [dx] more units of each asset than the supply records, [dg] more
    gas in the supply, nothing else of the pledges. *)
Definition shifts (dx : Z -> Z) (dg : Z) (d d' : database) : Prop :=
  (forall x, excess x d' = excess x d + dx x) /\ supply GRAPHENE_ASSET_GAS d' = supply GRAPHENE_ASSET_GAS d + dg
  /\ gas_collaterals d' = gas_collaterals d.

Lemma adjust_shifts acc a allow d d' : adjust_balance acc a allow d = Ok d' -> shifts (fun x => in_asset x a) 0 d d'.
Proof.
  intros H. split; [|split].
  - intros x. destruct (adjust_balance_excess _ _ _ _ _ x H) as [T S]. unfold excess. rewrite T, S. lia.
  - destruct (adjust_balance_excess _ _ _ _ _ GRAPHENE_ASSET_GAS H) as [_ ->]. lia.
  - by apply adjust_balance_total in H as (m & -> & _).
Qed.

Lemma set_accounts_books m d x : total x (set_accounts m d) = total x d /\ supply x (set_accounts m d) = supply x d.
Proof. unfold total, supply. cbn [account_balances limit_orders call_orders force_settlements collateral_bids
  bitassets dynamic_data vesting_balances gas_collaterals initial_balances set_accounts]. done. Qed.

Lemma cashback_vb_shifts acct amt d d' : deposit_cashback_vb acct amt d = Ok d' -> vesting_fresh d ->
  shifts (fun x => in_asset x (mk_asset amt CORE)) 0 d d'.
Proof.
  unfold deposit_cashback_vb. intros H Hf. skip_bind H. apply rbind_ok in H as ([nv d1] & H1 & H).
  assert (E : forall x, total x d' = total x d1 /\ supply x d' = supply x d1).
  { intros x. destruct nv; injection H as <-; [apply set_accounts_books|done]. }
  assert (Eg : gas_collaterals d' = gas_collaterals d).
  { destruct (deposit_lazy_frame _ _ _ _ _ _ _ _ _ H1) as (m & n & ->). by destruct nv; injection H as <-. }
  split; [|split; [|done]].
  - intros x. destruct (deposit_lazy_total _ _ _ _ _ _ _ _ x H1 Hf) as (T & _ & S), (E x) as [T' S'].
    unfold excess. lia.
  - destruct (deposit_lazy_total _ _ _ _ _ _ _ _ GRAPHENE_ASSET_GAS H1 Hf) as (_ & _ & S), (E GRAPHENE_ASSET_GAS) as [_ S']. lia.
Qed.

Lemma gas_supply_shifts g d d' : add_gas_supply g d = Ok d' ->
  shifts (fun x => - in_asset x (mk_asset g GRAPHENE_ASSET_GAS)) g d d'.
Proof.
  unfold add_gas_supply. intros H. apply modify_dynamic_data_inv in H as (dd & dd' & Hd & Hf & ->).
  apply rbind_ok in Hf as (s & Hs & [= <-]). apply Share.add_value in Hs as ->.
  set (m := <[GRAPHENE_ASSET_GAS := mk_dyn (current_supply dd + g) (accumulated_fees dd)]> (dynamic_data d)).
  assert (S : forall x, supply x (set_dynamic_data m d) = supply x d + in_asset x (mk_asset g GRAPHENE_ASSET_GAS)).
  { intros x. rewrite !supply_at. cbn [dynamic_data set_dynamic_data]. unfold m, in_asset. cbn [asset_id amount].
    destruct (Z.eqb_spec GRAPHENE_ASSET_GAS x) as [<-|Hn]; [rewrite lookup_insert_eq, Hd; cbn; lia|].
    rewrite lookup_insert_ne by done. lia. }
  split; [|split; [|done]].
  - intros x. unfold excess. rewrite S, total_set_dyn. unfold m. rewrite (in_fees_insert x _ _ dd) by done.
    cbn [accumulated_fees]. rewrite Z.sub_diag, in_asset_0. lia.
  - rewrite S. unfold in_asset. cbn. lia.
Qed.

Lemma shifts_trans f g h a b c d1 d2 d3 : shifts f a d1 d2 -> shifts g b d2 d3 ->
  (forall x, f x + g x = h x) -> a + b = c -> shifts h c d1 d3.
Proof.
  intros (E1 & S1 & G1) (E2 & S2 & G2) Hx Hc. split; [|split; [lia|congruence]].
  intros x. rewrite E2, E1. specialize (Hx x). lia.
Qed.

(** Pledging core units for gas: a new pledge, and one that replaces another. *)
Lemma pledge_books k c d o : gas_collaterals d !! k = o ->
  let coll := match o with Some c0 => gas_collateral c0 | None => 0 end in
  let debt := match o with Some c0 => gas_debt c0 | None => 0 end in
  let d1 := set_gas_collaterals (<[k := c]> (gas_collaterals d)) d in
  (forall x, excess x d1 = excess x d + in_asset x (mk_asset (gas_collateral c - coll) CORE)) /\
  supply GRAPHENE_ASSET_GAS d1 = supply GRAPHENE_ASSET_GAS d /\ gas_owed d1 = gas_owed d + gas_debt c - debt.
Proof.
  intros E coll debt d1. split; [|split; [done|]].
  - intros x. unfold excess, d1. rewrite total_set_gas. change (supply x (set_gas_collaterals _ d)) with (supply x d).
    unfold in_gas_collateral, coll. rewrite in_asset_sub. destruct o as [c0|].
    + rewrite (sum_map_insert _ _ _ c0) by done. lia.
    + rewrite sum_map_insert_new by done. rewrite in_asset_0. lia.
  - unfold gas_owed, d1, debt. cbn [gas_collaterals set_gas_collaterals]. destruct o as [c0|].
    + rewrite (sum_map_insert _ _ _ c0) by done. lia.
    + rewrite sum_map_insert_new by done. lia.
Qed.

Lemma find_gas_some m b d k c : find_gas_collateral m b d = Some (k, c) -> gas_collaterals d !! k = Some c.
Proof.
  unfold find_gas_collateral. intros H. apply find_some in H as [H _]. by apply list_elem_of_In, elem_of_map_to_list in H.
Qed.

(** After the books of the pledge come payments of [dx] and gas. *)
Lemma pledge_then k c d d1 d' o dx dg : gas_collaterals d !! k = o ->
  d1 = set_gas_collaterals (<[k := c]> (gas_collaterals d)) d \/
  (exists n, d1 = set_next_gas_collateral n (set_gas_collaterals (<[k := c]> (gas_collaterals d)) d)) ->
  shifts dx dg d1 d' ->
  let coll := match o with Some c0 => gas_collateral c0 | None => 0 end in
  let debt := match o with Some c0 => gas_debt c0 | None => 0 end in
  (forall x, excess x d' = excess x d + in_asset x (mk_asset (gas_collateral c - coll) CORE) + dx x) /\
  supply GRAPHENE_ASSET_GAS d' = supply GRAPHENE_ASSET_GAS d + dg /\ gas_owed d' = gas_owed d + gas_debt c - debt.
Proof.
  intros E H1 (X & S & G) coll debt. destruct (pledge_books k c d o E) as (X0 & S0 & O0).
  set (d0 := set_gas_collaterals _ d) in *.
  assert (E1 : (forall x, excess x d1 = excess x d0) /\ supply GRAPHENE_ASSET_GAS d1 = supply GRAPHENE_ASSET_GAS d0
    /\ gas_collaterals d1 = gas_collaterals d0) by (destruct H1 as [->|[n ->]]; by clearbody d0; destruct d0).
  destruct E1 as (X1 & S1 & G1). split; [|split].
  - intros x. rewrite X, X1, X0. done.
  - rewrite S, S1, S0. done.
  - unfold gas_owed in *. rewrite G, G1, O0. done.
Qed.

(** ** Properties *)

(** C30: Gas is backed by collateral.  Changing a pledge moves core units between the
    mortgager and the pledge and creates exactly the gas that the supply records: no asset's
    units outside of the supply change, and neither does the difference between the gas in
    circulation and the gas the pledges answer for. *)
Theorem gas_collateral_conserves (op : update_collateral_for_gas_operation) (d d' : database) (k : Z)
    (H : update_collateral_for_gas op d = Ok (k, d')) (Hv : vesting_fresh d) (Hf : gas_fresh d) :
  (forall x, excess x d' = excess x d) /\
  supply GRAPHENE_ASSET_GAS d' - gas_owed d' = supply GRAPHENE_ASSET_GAS d - gas_owed d.
Proof.
  unfold update_collateral_for_gas, gas_do_evaluate in H. apply rbind_ok in H as (old & Ho & H).
  apply rbind_ok in Ho as (_ & _ & [= Ho]). unfold gas_do_apply in H. destruct old as [[i c]|].
  - apply find_gas_some in Ho. apply rbind_ok in H as (tc & Htc & H). apply Share.sub_value in Htc.
    apply rbind_ok in H as (gas & _ & H). apply rbind_ok in H as (td & Htd & H). apply Share.sub_value in Htd.
    apply rbind_ok in H as (coll & Hc & H). apply Share.add_value in Hc.
    apply rbind_ok in H as (debt & Hd & H). apply Share.add_value in Hd.
    set (c' := mk_gas_collateral _ _ _ _) in H. set (d0 := set_gas_collaterals _ d) in H. skip_bind H.
    apply rbind_ok in H as (d1 & H1 & H). apply rbind_ok in H as (back & Hb & H). apply Share.neg_value in Hb.
    apply rbind_ok in H as (d2 & H2 & H). apply rbind_ok in H as (d3 & H3 & [= _ <-]).
    assert (Hv1 : vesting_fresh d1).
    { apply adjust_balance_rest in H1 as (E1 & E2 & _). unfold vesting_fresh. by rewrite E1, E2. }
    assert (M2 : shifts (fun x => in_asset x (mk_asset back CORE)) 0 d1 d2)
      by (case_if_in H2; [by apply cashback_vb_shifts in H2|by apply adjust_shifts in H2]).
    apply adjust_shifts in H1. apply gas_supply_shifts in H3.
    assert (M : shifts (fun x => in_asset x (mk_asset back CORE)) td d0 d3).
    { eapply shifts_trans; [eapply shifts_trans; [exact H1|exact M2|reflexivity|reflexivity]|exact H3| |lia].
      intros x. cbv beta. lia. }
    destruct (pledge_then i c' d d0 d3 (Some c) _ _ Ho (or_introl eq_refl) M) as (X & S & O). split.
    + intros x. rewrite X. cbn [gas_collateral c']. rewrite <- Z.add_assoc, <- in_asset_add.
      replace (coll - gas_collateral c + back) with 0 by lia. rewrite in_asset_0. lia.
    + rewrite S, O. cbn [gas_debt c']. lia.
  - apply rbind_ok in H as (gas & _ & H). set (c' := mk_gas_collateral _ _ _ _) in H.
    set (d0 := set_next_gas_collateral _ _) in H. apply rbind_ok in H as (ng & Hn & H). apply Share.neg_value in Hn.
    apply rbind_ok in H as (d1 & H1 & H). apply rbind_ok in H as (d2 & H2 & H). apply rbind_ok in H as (d3 & H3 & [= _ <-]).
    apply adjust_shifts in H1, H2. apply gas_supply_shifts in H3.
    assert (M : shifts (fun x => in_asset x (mk_asset ng CORE)) gas d0 d3).
    { eapply shifts_trans; [eapply shifts_trans; [exact H1|exact H2|reflexivity|reflexivity]|exact H3| |lia].
      intros x. cbv beta. lia. }
    assert (Hnew : gas_collaterals d !! next_gas_collateral d = None).
    { destruct (gas_collaterals d !! _) eqn:E; [|done]. apply Hf in E. lia. }
    destruct (pledge_then _ c' d d0 d3 None _ _ Hnew (or_intror (ex_intro _ _ eq_refl)) M) as (X & S & O). split.
    + intros x. rewrite X. cbn [gas_collateral c']. rewrite <- Z.add_assoc, <- in_asset_add.
      replace (ug_collateral op - 0 + ng) with 0 by lia. rewrite in_asset_0. lia.
    + rewrite S, O. cbn [gas_debt c']. lia.
Qed.

(** A core supply of 1000000 and gas of up to 50000000; account 5 pledges for account 6. *)
Definition demo_gas_db : database :=
  set_assets {[ CORE := mk_asset_object "COCOS" 5 3 (mk_asset_options 2000000 0 0 0 0 None "") false;
                GRAPHENE_ASSET_GAS := mk_asset_object "GAS" 5 3 (mk_asset_options 50000000 0 0 0 0 None "") false ]}
    (set_dynamic_data {[ CORE := mk_dyn 1000000 0; GRAPHENE_ASSET_GAS := mk_dyn 20000 0 ]}
       (set_gas_collaterals {[ 0 := mk_gas_collateral 5 6 400 20000 ]} (set_next_gas_collateral 1
          (set_account_balances {[ (5, CORE) := 999600; (6, GRAPHENE_ASSET_GAS) := 20000 ]}
             (set_accounts {[ 5 := basic_account ∅ None; 6 := basic_account ∅ None ]} demo_ledger))))).

Definition demo_pledge_less : result (Z * database) :=
  update_collateral_for_gas (mk_update_gas 5 6 100) demo_gas_db.

Lemma demo_gas_fresh : vesting_fresh demo_gas_db /\ gas_fresh demo_gas_db.
Proof.
  split; [done|]. intros k c H.
  change (({[ 0 := mk_gas_collateral 5 6 400 20000 ]} : gmap Z collateral_for_gas_object) !! k = Some c) in H.
  apply lookup_singleton_Some in H as [<- _]. done.
Qed.

Lemma gas_collateral_conserves_witness :
  match demo_pledge_less with
  | Ok (_, d') => excess CORE d' = 0 /\ supply GRAPHENE_ASSET_GAS d' - gas_owed d' = 0
  | Err _ => False
  end.
Proof.
  assert (Hok : is_ok demo_pledge_less = true) by (vm_compute; reflexivity).
  destruct demo_pledge_less as [[k d']|] eqn:E; [|discriminate Hok].
  destruct (gas_collateral_conserves (mk_update_gas 5 6 100) demo_gas_db d' k E (proj1 demo_gas_fresh)
    (proj2 demo_gas_fresh)) as [X S].
  split; [etransitivity; [exact (X CORE)|]|etransitivity; [exact S|]]; vm_compute; reflexivity.
Defined.

(** What a linear policy lets go is within the balance. *)
Lemma linear_claim_bound b p now a : linear_is_withdraw_allowed p (mk_ctx b now a) = Ok true ->
  vbo_ok (mk_vbo 0 b 0 0 (Linear p) None) now -> asset_id a = asset_id b /\ amount a <= amount b.
Proof.
  intros H Hok. destruct (linear_allowed_bound _ p now a Hok eq_refl H) as [E Hw]. split; [done|].
  destruct (get_allowed_withdraw_value _ now Hok) as [_ Hle]. cbn [balance] in Hle. lia.
Qed.

(** A claim moves what it claims.  Claiming an initial balance takes the claimed units
    from it, at most what it holds, and gives them to the account; no unit appears or
    vanishes, and a balance that does not vest is claimed at once and removed. *)
Theorem balance_claim_conserves (keys : Z -> list Z) (skip : bool) (op : balance_claim_operation) (d d' : database)
    (b : balance_object) (H : balance_claim keys skip op d = Ok d')
    (Hb : initial_balances d !! bc_balance_to_claim op = Some b)
    (Hp : forall p, bal_policy b = Some p -> vbo_ok (mk_vbo 0 (bal_balance b) 0 0 (Linear p) None) (head_block_time d)) :
  asset_id (bc_total_claimed op) = asset_id (bal_balance b) /\
  amount (bc_total_claimed op) <= amount (bal_balance b) /\
  (bal_policy b = None -> bc_total_claimed op = bal_balance b /\ initial_balances d' !! bc_balance_to_claim op = None) /\
  (forall x, total x d' = total x d /\ supply x d' = supply x d).
Proof.
  unfold balance_claim, claim_do_evaluate in H. rewrite Hb in H. cbn [get_or rbind] in H.
  apply rbind_ok in H as (b' & He & H). skip_bind He. skip_bind He. apply rbind_ok in He as (u & Hpol & [= <-]).
  unfold claim_do_apply in H. set (k := bc_balance_to_claim op) in *. set (a := bc_total_claimed op) in *.
  assert (Hrem : forall m d1, adjust_balance (bc_deposit_to_account op) a false (set_initial_balances m d) = Ok d1 ->
    initial_balances d1 = m /\ forall x, total x d1 = total x d - in_initial x (initial_balances d) + in_initial x m
      + in_asset x a /\ supply x d1 = supply x d).
  { intros m d1 Ha. split; [by apply adjust_balance_total in Ha as (n & -> & _)|]. intros x.
    destruct (adjust_balance_excess _ _ _ _ _ x Ha) as [T S]. rewrite T, total_set_initial. split; [lia|]. by rewrite S. }
  assert (Hdel : forall x, in_initial x (delete k (initial_balances d)) = in_initial x (initial_balances d) - in_asset x (bal_balance b)).
  { intros x. unfold in_initial. by rewrite (sum_map_delete _ _ _ b). }
  destruct (bal_policy b) as [p|] eqn:Ep.
  - apply rbind_ok in Hpol as (ok & Hal & Hpol). apply rbind_ok in Hpol as (u1 & Hok & _).
    unfold graphene_assert in Hok. destruct ok; [|done].
    destruct (linear_claim_bound _ _ _ _ Hal (Hp p eq_refl)) as [Eid Hle]. split; [done|]. split; [done|]. split; [done|].
    apply rbind_ok in H as (partly & Hpt & H). unfold asset_ltb in Hpt. rewrite Eid, Z.eqb_refl in Hpt.
    cbn [fc_assert rbind] in Hpt. injection Hpt as <-. case_if_in H; bool_to_prop.
    + apply rbind_ok in H as (d1 & H1 & H). apply rbind_ok in H1 as (rest & Hr & [= <-]).
      apply Hrem in H as [_ Hx]. intros x. destruct (Hx x) as [-> ->]. split; [|done].
      unfold asset_sub in Hr. rewrite Eid, Z.eqb_refl in Hr. cbn [fc_assert rbind] in Hr.
      apply rbind_ok in Hr as (s & Hs & [= <-]). apply Share.sub_value in Hs as ->.
      unfold in_initial. rewrite (sum_map_insert _ _ _ b) by done. cbn [bal_balance].
      rewrite in_asset_sub, (in_asset_eta x a), (in_asset_eta x (bal_balance b)), Eid. lia.
    + cbn [rbind] in H. apply Hrem in H as [_ Hx]. intros x. destruct (Hx x) as [-> ->]. split; [|done].
      rewrite Hdel, (in_asset_eta x a), (in_asset_eta x (bal_balance b)), Eid.
      replace (amount a) with (amount (bal_balance b)) by lia. lia.
  - unfold fc_assert in Hpol. case_if_in Hpol; [|done]. apply asset_eqb_eq in Hif. cbn [rbind] in H.
    apply Hrem in H as [Ei Hx]. rewrite Hif. split; [done|]. split; [lia|]. split.
    + intros _. split; [done|]. rewrite Ei. apply lookup_delete_eq.
    + intros x. destruct (Hx x) as [-> ->]. split; [|done]. rewrite Hdel, Hif. lia.
Qed.

(** Half of an initial balance that vests over 1000 seconds. *)
Definition demo_initial : balance_object :=
  mk_balance_object 44 (mk_asset 800 CORE) (Some (mk_linear 100000 0 1000 800)) 0.
Definition demo_claim : balance_claim_operation := mk_balance_claim 5 0 7 (mk_asset 300 CORE).
Definition demo_claim_db : database :=
  set_head_block_time 100500 (set_initial_balances {[ 0 := demo_initial ]} demo_gas_db).

Lemma balance_claim_conserves_witness :
  match balance_claim (fun _ => [43; 44]) false demo_claim demo_claim_db with
  | Ok d' => total CORE d' = 1000800 /\ amount (bc_total_claimed demo_claim) <= 800
  | Err _ => False
  end.
Proof.
  assert (Hok : is_ok (balance_claim (fun _ => [43; 44]) false demo_claim demo_claim_db) = true) by (vm_compute; reflexivity).
  destruct (balance_claim _ _ _ _) as [d'|] eqn:E; [|discriminate Hok].
  destruct (balance_claim_conserves _ _ _ _ _ demo_initial E) as (_ & Hle & _ & Hx).
  - vm_compute. reflexivity.
  - intros p [= <-]. unfold vbo_ok. cbn [policy balance amount begin_timestamp vesting_cliff_seconds
      vesting_duration_seconds begin_balance bal_balance demo_initial head_block_time demo_claim_db set_head_block_time].
    change (vested _ _) with 400. lia.
  - split; [|exact Hle]. destruct (Hx CORE) as [T _]. etransitivity; [exact T|]. vm_compute. reflexivity.
Defined.
