(* ===== verification/GovOperations.v ===== *)
(** * Operations on accounts, candidates and items

    The evaluators of [Votes], [Candidates] and [NhAssets] as instances of the interface of
    [Fees], and that they conserve value.  Operations on accounts and candidates touch
    accounts, their statistics and the global properties only ([members_only]), but for the
    release of locked votes into a vesting balance; those on items touch items, and pay. *)

From S2P Require Import Prelude SafeInt Asset Vesting Authority State Ledger Market MarketProofs Fees Operations.
From S2P Require Import Candidates Votes VotesSpec NhAssets NhSpec Collateral.

(** ** Evaluators *)

#[global] Instance account_create_evaluator : Evaluator account_create_operation := {
  context := unit;
  fee_payer := ac_registrar;
  well_typed _ := True;
  validate := account_create_validate;
  do_evaluate := account_create_do_evaluate;
  do_apply op ctx d := return_with ctx object_id_result (account_create_do_apply op d);
  late_fee _ _ := None;
  after_fee := no_after_fee }.

#[global] Instance account_upgrade_evaluator : Evaluator account_upgrade_operation := {
  context := unit;
  fee_payer := ag_account;
  well_typed _ := True;
  validate _ := Ok tt;
  do_evaluate := account_upgrade_do_evaluate;
  do_apply op ctx d := return_void ctx (account_upgrade_do_apply op d);
  late_fee _ _ := None;
  after_fee := no_after_fee }.

Definition account_update_evaluator (concerned : gmap Z Z) : Evaluator account_update_operation := {|
  context := unit;
  fee_payer := au_account;
  well_typed _ := True;
  validate := account_update_validate;
  do_evaluate := account_update_do_evaluate;
  do_apply op ctx d := return_void ctx (account_update_do_apply concerned op d);
  late_fee _ _ := None;
  after_fee := no_after_fee |}.

(** Registering for an office; the next maintenance is a property of the chain. *)
Definition candidate_create_evaluator (o : office) (next_maintenance_time : Z) : Evaluator candidate_create_operation := {|
  context := unit;
  fee_payer := cc_account;
  well_typed _ := True;
  validate := candidate_create_validate;
  do_evaluate := candidate_create_do_evaluate o;
  do_apply op ctx d := return_with ctx object_id_result (candidate_create_do_apply o next_maintenance_time op d);
  late_fee _ _ := None;
  after_fee := no_after_fee |}.

Definition candidate_update_evaluator (o : office) (min_count next_maintenance_time : Z)
    : Evaluator candidate_update_operation := {|
  context := unit;
  fee_payer := cu_account;
  well_typed _ := True;
  validate := candidate_update_validate;
  do_evaluate := candidate_update_do_evaluate o min_count;
  do_apply op ctx d := return_void ctx (candidate_update_do_apply o next_maintenance_time op d);
  late_fee _ _ := None;
  after_fee := no_after_fee |}.

Section Items.
Context (contract_exists : Z -> bool) (digest : string -> Z -> Z).

Definition nh_validate (op : nh_op) : result unit :=
  match op with
  | NhCreateView _ name => create_view_validate name
  | NhCreate op => create_nh_validate op
  | NhTransfer from_ to_ _ => transfer_nh_validate from_ to_
  | NhRelate op => relate_nh_validate op
  | NhOrder op => create_nh_order_validate op
  | _ => Ok tt
  end.

Definition nh_evaluate (op : nh_op) (d : database) : result unit :=
  match op with
  | NhRegister acc => register_creator_do_evaluate acc d
  | NhCreateView acc name => create_view_do_evaluate acc name d
  | NhRelateView related name view_owner => relate_view_do_evaluate related name view_owner d
  | NhCreate op => create_nh_do_evaluate op d
  | NhDelete acc id => delete_nh_do_evaluate acc id d
  | NhTransfer from_ to_ id => transfer_nh_do_evaluate from_ to_ id d
  | NhRelate op => relate_nh_do_evaluate contract_exists op d
  | NhOrder op => create_nh_order_do_evaluate op d
  | NhCancel acc order => cancel_nh_order_do_evaluate acc order d
  | NhFill op => fill_nh_order_do_evaluate op d
  end.

Definition nh_apply (op : nh_op) (ctx : unit) (d : database) : result (operation_result * unit * database) :=
  match op with
  | NhRegister acc => return_with ctx object_id_result (register_creator_do_apply acc d)
  | NhCreateView acc name => return_with ctx object_id_result (create_view_do_apply acc name d)
  | NhRelateView related name _ => return_void ctx (relate_view_do_apply related name d)
  | NhCreate op => return_with ctx object_id_result (create_nh_do_apply digest op d)
  | NhDelete _ id => return_void ctx (delete_nh_do_apply id d)
  | NhTransfer _ to_ id => return_void ctx (transfer_nh_do_apply to_ id d)
  | NhRelate op => return_void ctx (relate_nh_do_apply op d)
  | NhOrder op => return_with ctx object_id_result (create_nh_order_do_apply op d)
  | NhCancel _ order => return_with ctx object_id_result (cancel_nh_order_do_apply order d)
  | NhFill op => return_with ctx object_id_result (fill_nh_order_do_apply op d)
  end.

Definition item_evaluator : Evaluator nh_op := {|
  context := unit;
  fee_payer := nh_signer;
  well_typed _ := True;
  validate := nh_validate;
  do_evaluate := nh_evaluate;
  do_apply := nh_apply;
  late_fee _ _ := None;
  after_fee := no_after_fee |}.
End Items.

(** ** Accounts and candidates *)

(** Steps that touch accounts, their statistics and the global properties only. *)
Definition members_only (d d' : database) : Prop :=
  exists m st g, d' = set_governance g (set_accounts m (set_account_statistics st d)).

#[global] Instance members_only_preorder : PreOrder members_only.
Proof.
  split.
  - intros d. exists (accounts d), (account_statistics d), (governance d). by destruct d.
  - intros d1 d2 d3 (? & ? & ? & ->) (m & st & g & ->). by exists m, st, g.
Qed.

Lemma put_account_members k a d : members_only d (put_account k a d).
Proof. exists (<[k := a]> (accounts d)), (account_statistics d), (governance d). by destruct d. Qed.
Lemma set_governance_members g d : members_only d (set_governance g d).
Proof. exists (accounts d), (account_statistics d), g. by destruct d. Qed.
Lemma put_candidate_members o id c d : members_only d (put_candidate o id c d).
Proof. apply set_governance_members. Qed.
Lemma members_only_stats st d : members_only d (set_account_statistics st d).
Proof. exists (accounts d), st, (governance d). by destruct d. Qed.
#[export] Hint Resolve put_account_members set_governance_members put_candidate_members members_only_stats : gph.

Lemma members_conserve d d' : members_only d d' -> chain_ok d -> conserves d d'.
Proof.
  intros (m & st & g & ->) Hok. apply exact_conserves; [by split|done|by destruct (co_ledger _ Hok)|done].
Qed.

Lemma account_create_members op d id d' : account_create_do_apply op d = Ok (id, d') -> members_only d d'.
Proof.
  unfold account_create_do_apply. intros H. skip_bind H. apply rbind_ok in H as (g & _ & [= <- <-]). by eexists _, _, _.
Qed.

Lemma account_upgrade_members op d d' : account_upgrade_do_apply op d = Ok d' -> members_only d d'.
Proof.
  unfold account_upgrade_do_apply. intros H. apply rbind_ok in H as (a & _ & [= <-]).
  destruct (ag_lifetime op); [auto with gph|reflexivity].
Qed.

Lemma candidate_create_members o nmt op d id d' : candidate_create_do_apply o nmt op d = Ok (id, d') -> members_only d d'.
Proof.
  unfold candidate_create_do_apply. cbn zeta. unfold get_next_vote_id. intros H. do 2 skip_bind H.
  apply rbind_ok in H as (a2 & _ & H). do 2 skip_bind H. injection H as <- <-.
  etransitivity; [|apply put_account_members]. etransitivity; [|apply put_candidate_members].
  etransitivity; apply set_governance_members.
Qed.

Lemma candidate_update_members o nmt op d d' : candidate_update_do_apply o nmt op d = Ok d' -> members_only d d'.
Proof.
  unfold candidate_update_do_apply. intros H. apply rbind_ok in H as (c & _ & H). apply rbind_ok in H as (a & _ & H).
  skip_bind H. apply rbind_ok in H as (v & _ & H). apply rbind_ok in H as (a2 & _ & H). skip_bind H. injection H as <-.
  etransitivity; [|apply put_account_members]. apply put_candidate_members.
Qed.

Lemma modify_candidates_members con ch l : forall d d', modify_candidates con ch l d = Ok d' -> members_only d d'.
Proof.
  induction l as [|[i t] l IH]; intros d d' H; cbn in H; [injection H as <-; reflexivity|].
  apply rbind_ok in H as (o & _ & H). apply rbind_ok in H as ([id c] & _ & H).
  etransitivity; [apply put_candidate_members|by eapply IH].
Qed.

(** Units no longer locked for votes move to a vesting balance. *)
Lemma release_votes_conserves acc temp a d a' d' : release_votes acc temp a d = Ok (a', d') -> chain_ok d -> conserves d d'.
Proof.
  unfold release_votes. intros H Hok. destruct (co_ledger _ Hok) as [Hn Hf].
  apply rbind_ok in H as (neg & Hneg & H). apply Share.neg_value in Hneg.
  apply rbind_ok in H as ([nv d1] & H1 & H). apply rbind_ok in H as (d2 & H2 & [= _ <-]).
  set (b := match nv with Some _ => _ | None => a end) in H2.
  pose proof (deposit_lazy_frame _ _ _ _ _ _ _ _ _ H1) as (mv & n & E1).
  assert (T1 : forall x, total x d1 = total x d + in_asset x (mk_asset neg CORE) /\ vesting_fresh d1 /\ supply x d1 = supply x d)
    by (intros x; by eapply deposit_lazy_total).
  destruct (T1 0) as (_ & Hf1 & _).
  assert (S1 : same_orders d (put_account acc b d1)) by (rewrite E1; by split).
  assert (N1 : balances_nonneg (put_account acc b d1)) by (rewrite E1; exact Hn).
  pose proof (adjust_balance_rest _ _ _ _ _ H2) as (V1 & V2 & _).
  apply exact_conserves; [|done| |].
  - etransitivity; [exact S1|by eapply adjust_same_orders].
  - split; [by eapply adjust_balance_guard|]. unfold vesting_fresh. by rewrite V1, V2.
  - intros x. destruct (adjust_balance_excess _ _ _ _ _ x H2) as [T S], (T1 x) as (T' & _ & S').
    destruct (set_accounts_books (<[acc := b]> (accounts d1)) d1 x) as [TA SA]. unfold put_account in T, S.
    rewrite T, S, TA, SA, T', S'. split; [|done]. unfold in_asset. cbn. case_if; lia.
Qed.

Lemma relock_conserves acc o lock a d old temp a' d' : relock acc o lock a d = Ok (old, temp, a', d') -> chain_ok d ->
  conserves d d'.
Proof.
  unfold relock. intros H Hok. destruct (lock_of o a).
  - apply rbind_ok in H as (t & _ & H). apply rbind_ok in H as (a1 & _ & H). case_if_in H.
    + apply rbind_ok in H as ([a2 d2] & H & [= _ _ _ <-]). by eapply release_votes_conserves.
    + injection H as _ _ _ <-. by apply conserves_refl.
  - apply rbind_ok in H as (a1 & _ & [= _ _ _ <-]). by apply conserves_refl.
Qed.

Lemma lock_votes_conserves con acc lock nv a d fv a' d' : lock_votes con acc lock nv a d = Ok (fv, a', d') -> chain_ok d ->
  conserves d d'.
Proof.
  unfold lock_votes. intros H Hok. skip_bind H. apply rbind_ok in H as ([[fv1 a1] d1] & H1 & H).
  skip_bind H. injection H as _ _ <-.
  assert (C1 : conserves d d1).
  { case_if_in H1; [|injection H1 as _ _ <-; by apply conserves_refl].
    apply rbind_ok in H1 as ([[[old t] a2] d2] & H2 & H1). apply rbind_ok in H1 as ([fv2 d3] & H3 & [= _ _ <-]).
    apply relock_conserves in H2 as C2; [|done]. unfold verify_account_votes in H3.
    apply rbind_ok in H3 as (d4 & H3 & [= _ <-]). apply modify_candidates_members in H3.
    eapply conserves_trans; [exact C2|]. apply members_conserve; [done|apply C2]. }
  eapply conserves_trans; [exact C1|]. apply members_conserve; [apply put_account_members|apply C1].
Qed.

Lemma update_special_members acc b b' d d' : update_special_index acc b b' d = Ok d' -> members_only d d'.
Proof.
  unfold update_special_index. intros H. case_if_in H; [apply rbind_ok in H as ([id x] & _ & [= <-]); auto with gph|].
  case_if_in H; injection H as <-; [auto with gph|reflexivity].
Qed.

Lemma account_update_conserves con op d d' : account_update_do_apply con op d = Ok d' -> chain_ok d -> conserves d d'.
Proof.
  unfold account_update_do_apply. intros H Hok. apply rbind_ok in H as (a & _ & H).
  apply rbind_ok in H as ([a1 d1] & H1 & H).
  assert (C1 : conserves d d1).
  { destruct (au_new_options op) as [opts|]; [|injection H1 as _ <-; by apply conserves_refl].
    destruct (au_lock_with_vote op) as [lock|]; [|injection H1 as _ <-; by apply conserves_refl].
    apply rbind_ok in H1 as ([[fv a2] d2] & H1 & [= _ <-]). by eapply lock_votes_conserves. }
  eapply conserves_trans; [exact C1|]. apply members_conserve; [|apply C1].
  etransitivity; [apply put_account_members|by eapply update_special_members].
Qed.

#[global] Instance account_create_conserving : Conserving account_create_operation.
Proof. conserving. by eapply members_conserve; [eapply account_create_members|]. Qed.
#[global] Instance account_upgrade_conserving : Conserving account_upgrade_operation.
Proof. conserving. by eapply members_conserve; [eapply account_upgrade_members|]. Qed.
#[global] Instance account_update_conserving con : @Conserving _ (account_update_evaluator con).
Proof. conserving. by eapply account_update_conserves. Qed.
#[global] Instance candidate_create_conserving o nmt : @Conserving _ (candidate_create_evaluator o nmt).
Proof. conserving. by eapply members_conserve; [eapply candidate_create_members|]. Qed.
#[global] Instance candidate_update_conserving o min_count nmt : @Conserving _ (candidate_update_evaluator o min_count nmt).
Proof. conserving. by eapply members_conserve; [eapply candidate_update_members|]. Qed.

(** ** Items *)

Lemma set_nh_conserves n d : chain_ok d -> conserves d (set_nh n d).
Proof. intros Hok. apply exact_conserves; [by split|done|by destruct (co_ledger _ Hok)|done]. Qed.

(** A step on items, a payment, and another step on items. *)
Lemma nh_pays_conserves from_ to_ amt n d d1 f : chain_ok d ->
  (let* neg := asset_neg amt in
   let* d := adjust_balance from_ neg false (set_nh n d) in adjust_balance to_ amt false d) = Ok d1 ->
  conserves d (modify_nh f d1).
Proof.
  intros Hok H. pose proof (set_nh_conserves n d Hok) as C1. eapply conserves_trans; [exact C1|].
  pose proof (move_conserves _ _ _ _ _ (proj1 C1) H) as C2. eapply conserves_trans; [exact C2|].
  apply set_nh_conserves, C2.
Qed.

Lemma order_conserves op d id d' : create_nh_order_do_apply op d = Ok (id, d') -> chain_ok d -> conserves d d'.
Proof.
  unfold create_nh_order_do_apply. intros H Hok. apply rbind_ok in H as (a & _ & H). skip_bind H.
  apply rbind_ok in H as (neg & Hn & H). apply rbind_ok in H as (d1 & H1 & H). apply rbind_ok in H as (d2 & H2 & [= _ <-]).
  replace d2 with (modify_nh (fun n => n) d2) by (by destruct d2).
  eapply nh_pays_conserves; [done|]. rewrite Hn. cbn [rbind]. unfold put_nh_asset, modify_nh in H1. cbn in H1.
  match type of H1 with adjust_balance _ _ _ (set_nh ?n (set_nh _ d)) = _ =>
    change (set_nh n (set_nh _ d)) with (set_nh n d) in H1 end.
  rewrite H1. exact H2.
Qed.

Lemma fill_conserves op d id d' : fill_nh_order_do_apply op d = Ok (id, d') -> chain_ok d -> conserves d d'.
Proof.
  unfold fill_nh_order_do_apply. intros H Hok. apply rbind_ok in H as (o & _ & H).
  apply rbind_ok in H as ([i d0] & H0 & H). apply rbind_ok in H as (neg & Hn & H).
  apply rbind_ok in H as (d1 & H1 & H). apply rbind_ok in H as (d2 & H2 & [= _ <-]).
  unfold release in H0. apply rbind_ok in H0 as ([j a] & _ & [= _ <-]).
  eapply nh_pays_conserves; [done|]. rewrite Hn. cbn [rbind]. unfold put_nh_asset, modify_nh in H1. rewrite H1. exact H2.
Qed.

(** The other operations change items only. *)
Lemma nh_apply_unpaid dg op ctx d r ctx' d' : nh_apply dg op ctx d = Ok (r, ctx', d') ->
  match op with NhOrder _ | NhFill _ => True | _ => exists n, d' = set_nh n d end.
Proof.
  intros H. destruct op; try done; cbn in H;
    first [apply return_void_inv in H as (H & _ & _)|apply return_with_inv in H as (out & H & _ & _)].
  - unfold register_creator_do_apply in H. skip_bind H. injection H as _ <-. eauto.
  - unfold create_view_do_apply in H. apply rbind_ok in H as ([? ?] & _ & H). skip_bind H. injection H as _ <-. eauto.
  - unfold relate_view_do_apply in H. apply rbind_ok in H as ([? ?] & _ & H).
    apply rbind_ok in H as ([? ?] & _ & [= <-]). eauto.
  - unfold create_nh_do_apply in H. skip_bind H. injection H as _ <-. eauto.
  - unfold delete_nh_do_apply in H. skip_bind H. injection H as <-. unfold modify_nh. eauto.
  - unfold transfer_nh_do_apply in H. apply rbind_ok in H as (? & _ & [= <-]). unfold put_nh_asset, modify_nh. eauto.
  - unfold relate_nh_do_apply in H. apply rbind_ok in H as (c & _ & H). case_if_in H.
    + apply rbind_ok in H as (p & _ & [= <-]). by eexists.
    + apply rbind_ok in H as (m & _ & H). apply rbind_ok in H as (p & _ & H).
      apply rbind_ok in H as (m2 & _ & [= <-]). by eexists.
  - unfold cancel_nh_order_do_apply, release in H. apply rbind_ok in H as (o & _ & H).
    apply rbind_ok in H as ([i d1] & H1 & [= _ <-]). apply rbind_ok in H1 as ([j a] & _ & [= _ <-]). by eexists.
Qed.

#[global] Instance item_conserving contract_exists digest : @Conserving _ (item_evaluator contract_exists digest).
Proof.
  split; [|intros *; apply no_after_fee_conserves]. intros op ctx d r ctx' d' Hok _ _ _ H.
  pose proof (nh_apply_unpaid _ _ _ _ _ _ _ H) as N. cbn in H.
  destruct op; try (destruct N as [n ->]; by apply set_nh_conserves); cbn in H;
    apply return_with_inv in H as (out & H & _ & _); [by eapply order_conserves|by eapply fill_conserves].
Qed.
