(* ===== verification/AllOperations.v ===== *)
(** * The operations of the ledger, the market, accounts and items

    The operations whose evaluators are modelled, as one type with the dispatch of
    [database::apply_operation]; they implement the interface transactions are proved
    against.  [asset_create], [asset_update_bitasset], pledges for gas (which may leave a
    negative balance of gas), claims of initial balances and the operations with a state of
    their own (proposals, tasks, files, contracts) are left out. *)

From S2P Require Import Prelude SafeInt Asset Vesting State Ledger Market MarketProofs.
From S2P Require Import MarketSpec Double Fees Operations AssetEval ExpiredOrders Authority.
From S2P Require Import Transaction Candidates Votes NhSpec GovOperations.

Inductive operation :=
| op_transfer (o : transfer_operation)
| op_limit_order_create (o : limit_order_create_operation)
| op_limit_order_cancel (o : limit_order_cancel_operation)
| op_call_order_update (o : call_order_update_operation)
| op_bid_collateral (o : bid_collateral_operation)
| op_asset_update (o : asset_update_operation)
| op_asset_update_feed_producers (o : asset_update_feed_producers_operation)
| op_asset_issue (o : asset_issue_operation)
| op_asset_reserve (o : asset_reserve_operation)
| op_asset_settle (o : asset_settle_operation)
| op_asset_global_settle (o : asset_global_settle_operation)
| op_asset_publish_feed (o : asset_publish_feed_operation)
| op_vesting_balance_create (o : vesting_balance_create_operation)
| op_vesting_balance_withdraw (o : vesting_balance_withdraw_operation)
| op_override_transfer (o : override_transfer_operation)
| op_asset_claim_fees (o : asset_claim_fees_operation)
| op_account_create (o : account_create_operation)
| op_account_update (o : account_update_operation)
| op_account_upgrade (o : account_upgrade_operation)
| op_candidate_create (office_ : office) (o : candidate_create_operation)
| op_candidate_update (office_ : office) (o : candidate_update_operation)
| op_item (o : nh_op).

(** An operation with its evaluator and what the evaluator promises. *)
Record packed := pack {
  packed_type : Type;
  packed_evaluator : Evaluator packed_type;
  packed_law : @Deferring packed_type packed_evaluator;
  packed_op : packed_type }.

(** What the evaluators read besides the database: the fee schedule, the accounts
    that may feed prices, the votes that are corrected, the least number of candidates of an
    office and the time of the next maintenance, which contracts there are, and the digest of
    a description. *)
Record environment := mk_environment {
  env_fees : fee_parameters;
  env_base_fee : operation -> Z;
  env_withdraw_fee : Z;
  env_feeds : feed_context;
  env_concerned : gmap Z Z;
  env_min_count : office -> Z;
  env_next_maintenance : Z;
  env_contract_exists : Z -> bool;
  env_digest : string -> Z -> Z }.

Section Dispatch.
Variable env : environment.

(** [_operation_evaluators[op.which()]]. *)
Definition evaluator_of (op : operation) : packed :=
  match op with
  | op_transfer o => pack _ transfer_evaluator _ o
  | op_limit_order_create o => pack _ limit_create_evaluator _ o
  | op_limit_order_cancel o => pack _ limit_cancel_evaluator _ o
  | op_call_order_update o => pack _ call_update_evaluator _ o
  | op_bid_collateral o => pack _ bid_evaluator _ o
  | op_asset_update o => pack _ asset_update_evaluator _ o
  | op_asset_update_feed_producers o => pack _ (update_producers_evaluator (env_feeds env)) _ o
  | op_asset_issue o => pack _ asset_issue_evaluator _ o
  | op_asset_reserve o => pack _ asset_reserve_evaluator _ o
  | op_asset_settle o => pack _ settle_evaluator _ o
  | op_asset_global_settle o => pack _ global_settle_evaluator _ o
  | op_asset_publish_feed o => pack _ (publish_feed_evaluator (env_feeds env)) _ o
  | op_vesting_balance_create o => pack _ vesting_create_evaluator _ o
  | op_vesting_balance_withdraw o => pack _ (vesting_withdraw_evaluator (env_withdraw_fee env)) _ o
  | op_override_transfer o => pack _ override_evaluator _ o
  | op_asset_claim_fees o => pack _ claim_fees_evaluator _ o
  | op_account_create o => pack _ account_create_evaluator _ o
  | op_account_update o => pack _ (account_update_evaluator (env_concerned env)) _ o
  | op_account_upgrade o => pack _ account_upgrade_evaluator _ o
  | op_candidate_create k o => pack _ (candidate_create_evaluator k (env_next_maintenance env)) _ o
  | op_candidate_update k o =>
      pack _ (candidate_update_evaluator k (env_min_count env k) (env_next_maintenance env)) _ o
  | op_item o => pack _ (item_evaluator (env_contract_exists env) (env_digest env)) _ o
  end.

Definition operation_validate (op : operation) : result unit :=
  let e := evaluator_of op in @validate _ (packed_evaluator e) (packed_op e).

Definition operation_apply (agreed : bool) (op : operation) : stM database op_result :=
  let e := evaluator_of op in
  @apply_operation _ (packed_evaluator e) (env_fees env) agreed (env_base_fee env op) (packed_op e).

(** After a transfer that went through, the sender's gas is withdrawn. *)
Definition transfer_gas_account (op : operation) (r : op_result) : option Z :=
  match op with
  | op_transfer o => if which (variant r) =? 1 then Some (tr_from o) else None
  | _ => None
  end.

Instance all_operations : OperationSet operation := {
  op_validate := operation_validate;
  is_virtual := fun _ => false;
  is_contract_share_fee := fun _ => false;
  op_apply := operation_apply;
  gas_account := transfer_gas_account }.

Lemma operation_apply_keeps agreed op d r d' : chain_ok d ->
  @well_typed _ (packed_evaluator (evaluator_of op)) (packed_op (evaluator_of op)) ->
  operation_validate op = Ok tt -> operation_apply agreed op d = (Ok r, d') ->
  0 <= core_fees (fees r) /\ conserves_but (core_fees (fees r)) d d'.
Proof.
  unfold operation_apply, operation_validate. destruct (evaluator_of op) as [T ev law o].
  cbn [packed_type packed_evaluator packed_op]. intros Hok Ht Hv H. unfold apply_operation in H.
  destruct (start_evaluate (env_fees env) (env_base_fee env op) o d) as [[r1 d1]|e] eqn:E.
  - injection H as <- <-. by eapply (@deferring T ev law).
  - assert (Hr : r = mk_op_result (error_result e) [] /\ d' = d)
      by (destruct e; try done; (destruct agreed; [|done]); by injection H as <- <-).
    destruct Hr as [-> ->]. split; [done|by apply conserves_but_refl].
Qed.

Instance all_operations_laws : OperationLaws operation := {
  op_well_typed := fun op => @well_typed _ (packed_evaluator (evaluator_of op)) (packed_op (evaluator_of op));
  op_apply_keeps := operation_apply_keeps }.

End Dispatch.

(** ** A small chain *)

(** Account 5 has core units and gas, and one key. *)
Definition demo_env : environment :=
  mk_environment (mk_fee_parameters 10000 86400) (fun _ => 20) 20 (mk_feed_context 3 10 ∅ ∅ ∅ ∅) ∅
    (fun _ => 1) 0 (fun _ => false) (fun _ t => t).
Definition demo_params : tx_parameters :=
  mk_tx_parameters 2000000 1 3 2 86400 7200 3 259200 20 20 (mk_fee_parameters 10000 86400).
Definition demo_hash (t : transaction operation) : Z := expiration t + 7 * ref_block_num t.
Definition demo_key (a : Z) : authority := mk_authority 1 [] [(a, 1)] [].

Definition demo_chain_ledger : database :=
  set_accounts (set_owner_auth (demo_key 5) ∘ set_active_auth (demo_key 5) <$> demo_accounts) demo_fee_db.
Definition demo_chain : tx_state operation :=
  mk_tx_state demo_chain_ledger ∅ ∅ ∅ ∅ 0 ∅ {[3 := 77]} 3 [].
Definition demo_trx : transaction operation :=
  mk_trx 3 77 (head_block_time demo_chain_ledger + 60) [op_transfer (mk_transfer 5 6 (mk_asset 10 CORE))] None [].

Definition demo_apply_trx (skip : tx_skip) (mode : transaction_apply_mode) (t : transaction operation)
    (s : tx_state operation) : result (transaction operation * transaction_apply_mode * tx_state operation) :=
  @_apply_transaction operation (all_operations demo_env) demo_hash (fun h => h) (fun _ => 200)
    (fun _ => [5]) (fun _ => mk_requirements [5] [] []) (fun k => [k + 100]) (fun _ => 500)
    demo_params skip mode false (4, 0) t s.

Lemma demo_chain_ok : chain_ok demo_chain_ledger.
Proof.
  split; [|exact demo_fee_db_ok|intros id s Hs; cbn in Hs; by rewrite lookup_empty in Hs].
  apply (same_orders_market_ok demo_fee_db); [by split|exact demo_fee_market_ok].
Qed.

Lemma demo_trx_ordinary : @ordinary operation (all_operations demo_env) demo_trx.
Proof. split; [done|]. intros op Hop. done. Qed.

Lemma demo_trx_typed : @well_typed_trx operation _ (all_operations_laws demo_env) demo_trx.
Proof. intros op Hop. apply list_elem_of_singleton in Hop as ->. exact I. Qed.

(** What the demo transaction leaves: its id with its expiration. *)
Lemma apply_transaction_guards_witness :
  match demo_apply_trx no_tx_skip push_mode demo_trx demo_chain with
  | Ok (_, _, s') => transactions s' !! demo_hash demo_trx = Some 1060
  | Err _ => False
  end.
Proof.
  destruct (demo_apply_trx no_tx_skip push_mode demo_trx demo_chain) as [[[t m] s']|e] eqn:E;
    [|vm_compute in E; discriminate E].
  destruct (@apply_transaction_guards operation (all_operations demo_env) demo_hash (fun h => h)
    (fun _ => 200) (fun _ => [5]) (fun _ => mk_requirements [5] [] []) (fun k => [k + 100])
    (fun _ => 500) demo_params push_mode false (4, 0) demo_trx t m demo_chain s' demo_trx_ordinary
    ltac:(cbn; lia) E) as (_ & _ & H & _).
  exact H.
Defined.

(** Applied, followed by a block that clears it, the transaction is refused. *)
Lemma no_replay_witness :
  match demo_apply_trx no_tx_skip push_mode demo_trx demo_chain with
  | Ok (_, _, s1) =>
      match run_event (H := all_operations demo_env) demo_hash (fun h => h) (fun _ => 200) (fun _ => [5])
              (fun _ => mk_requirements [5] [] []) (fun k => [k + 100]) (fun _ => 500) demo_params
              (ev_block 1061 {[4 := 78]}) s1 with
      | Ok s2 => transactions s2 = ∅ /\ is_ok (demo_apply_trx no_tx_skip push_mode demo_trx s2) = false
      | Err _ => False
      end
  | Err _ => False
  end.
Proof.
  destruct (demo_apply_trx no_tx_skip push_mode demo_trx demo_chain) as [[[t m] s1]|e] eqn:E;
    [|vm_compute in E; discriminate E].
  assert (Hr : match demo_apply_trx no_tx_skip push_mode demo_trx demo_chain with
    | Ok (_, _, s1) => match run_event (H := all_operations demo_env) demo_hash (fun h => h) (fun _ => 200)
        (fun _ => [5]) (fun _ => mk_requirements [5] [] []) (fun k => [k + 100]) (fun _ => 500) demo_params
        (ev_block 1061 {[4 := 78]}) s1 with Ok s2 => bool_decide (transactions s2 = ∅) | _ => false end
    | _ => false end = true) by (vm_compute; reflexivity).
  rewrite E in Hr.
  destruct (run_event _ _ _ _ _ _ _ _ _ s1) as [s2|e] eqn:E2; [|discriminate Hr].
  split; [by apply bool_decide_eq_true in Hr|].
  apply (@no_replay operation (all_operations demo_env) (all_operations_laws demo_env) demo_hash (fun h => h)
    (fun _ => 200) (fun _ => [5]) (fun _ => mk_requirements [5] [] []) (fun k => [k + 100]) (fun _ => 500)
    demo_params no_tx_skip no_tx_skip push_mode push_mode false false (4, 0) (4, 0) demo_trx t m demo_chain
    s1 s2 [ev_block 1061 {[4 := 78]}] demo_chain_ok ltac:(cbn; lia) demo_trx_ordinary demo_trx_typed
    eq_refl eq_refl eq_refl E).
  - apply Forall_singleton. exact I.
  - cbn [run_events]. rewrite E2. reflexivity.
Defined.


(** ** Automatic gas and the results of a block *)

(** A timed task: a transfer of account 5, which has more than 100000 units of vested
    gas, and a limit order. *)
Definition demo_gas_time : Z := AUTO_GAS_TIMEPOINT + 1000.
Definition demo_gas_ledger : database :=
  set_head_block_time demo_gas_time
    (set_account_statistics {[5 := 0]}
       (set_next_vesting_balance 1
          (set_vesting_balances
             {[0 := mk_vbo 5 (mk_asset 200000 GRAPHENE_ASSET_GAS) 0 0 (Cdd (mk_cdd 0 0 0 1000)) None]}
             demo_chain_ledger))).
Definition demo_task : transaction operation :=
  mk_trx 0 0 0
    [op_transfer (mk_transfer 5 6 (mk_asset 10 CORE));
     op_limit_order_create
       (mk_loc 5 (mk_asset 10 CORE) (mk_asset 10 GRAPHENE_ASSET_GAS) (demo_gas_time + 60) false)]
    (Some (task_crontab 0)) [].
Definition demo_gas_chain : tx_state operation :=
  mk_tx_state demo_gas_ledger ∅ ∅ ∅
    {[0 := mk_crontab 5 0 demo_task 60 10 0 0 0 0 false true (demo_gas_time + 600)]} 1 ∅ ∅ 3 [].

(** The result of the automatic withdrawal stands between the results of the
    operations, so the block producer records three results for two operations, and a
    node that applies the block compares the second operation with the withdrawal and
    rejects it. *)
Theorem auto_gas_shifts_results :
  match demo_apply_trx no_tx_skip production_block_mode demo_task demo_gas_chain with
  | Ok (t, _, _) =>
      map variant (operation_results t) = [void_result; void_result; object_id_result 0] /\
      demo_apply_trx no_tx_skip apply_block_mode t demo_gas_chain = Err assert_exception
  | Err _ => False
  end.
Proof. vm_compute. split; reflexivity. Qed.

(** A transaction without operations is read past its end before it is validated. *)
Theorem empty_transaction_undefined (skip : tx_skip) (mode : transaction_apply_mode) (s : tx_state operation) :
  demo_apply_trx skip mode (mk_trx 3 77 1060 [] None []) s = Err undefined_behaviour.
Proof. reflexivity. Qed.
