(* ===== verification/Contracts.v ===== *)
(** * Smart contracts

    The C++ side of contracts: the functions a script can call
    ([contract_asset_handle.cpp], [contract_nht_handle.cpp], [contract_authority.cpp],
    [contract_register_function.cpp]) and the evaluators that create, revise and call
    contracts ([contract_evaluator.cpp], [contract_object.cpp]).

    The Lua interpreter is a parameter: a script is what it does next, given the answers so
    far.  The environment of every contract has [pcall], so an exception of a function
    reaches the script as an answer and what the function changed before it threw stays
    changed; that is why the functions are in the monad [stM].  Fields of accounts and items
    that only contracts use are kept beside the database. *)

From Stdlib Require Import SpecFloat.
From S2P Require Import Prelude SafeInt Asset Vesting State Ledger Market MarketProofs Double Fees NhAssets Collateral.

(** ** State *)

(** [string name_or_id] after [database::maybe_id]. *)
Inductive name_or_id := by_id (id : Z) | by_name (name : string).
(** [string hash_or_id]. *)
Inductive hash_or_id := item_by_id (id : Z) | item_by_hash (h : Z * Z).

(** [nht_affected_type]. *)
Inductive nht_affected_type :=
| transfer_from | transfer_to | modified | create_by | create_for | transfer_active_from | transfer_active_to
| transfer_owner_from | transfer_owner_to | transfer_authority_from | transfer_authority_to | set_limit_list
| relate_nh_asset_action.

(** [contract_affected_type]. *)
Inductive contract_affected :=
| token_affected (account : Z) (a : asset)
| nht_affected (account item : Z) (action : nht_affected_type) (change : option (string * string))
| contract_logger (account : Z) (message : string)
| nested_result (contract : Z) (existed_pv : bool) (affecteds : list contract_affected)
| contract_fee_share_result (account percent : Z) (fees : list asset).

(** What a function gives back to the script. *)
Inductive reply := reply_none | reply_number (z : Z) | reply_bool (b : bool) | reply_id (id : Z).

Section Contracts.
(** The tables of contracts, their compiled code and the values functions take. *)
Context {Data Code Value : Type}.

Record contract_object := mk_contract {
  co_owner : Z;
  co_name : string;
  co_creation_date : Z;
  user_invoke_share_percent : Z;
  is_release : bool;
  current_version : Z;
  check_contract_authority : bool;
  contract_authority : Z;
  contract_data : Data;
  (** The parameters of a function; [None] for any number of them. *)
  contract_ABI : gmap string (option nat);
  lua_code_b : Code }.

Definition set_check_authority (x : bool) (c : contract_object) : contract_object :=
  mk_contract (co_owner c) (co_name c) (co_creation_date c) (user_invoke_share_percent c) (is_release c)
    (current_version c) x (contract_authority c) (contract_data c) (contract_ABI c) (lua_code_b c).
Definition set_share_percent (x : Z) (c : contract_object) : contract_object :=
  mk_contract (co_owner c) (co_name c) (co_creation_date c) x (is_release c) (current_version c)
    (check_contract_authority c) (contract_authority c) (contract_data c) (contract_ABI c) (lua_code_b c).
Definition set_contract_authority (x : Z) (c : contract_object) : contract_object :=
  mk_contract (co_owner c) (co_name c) (co_creation_date c) (user_invoke_share_percent c) (is_release c)
    (current_version c) (check_contract_authority c) x (contract_data c) (contract_ABI c) (lua_code_b c).
Definition set_release (c : contract_object) : contract_object :=
  mk_contract (co_owner c) (co_name c) (co_creation_date c) (user_invoke_share_percent c) true
    (current_version c) (check_contract_authority c) (contract_authority c) (contract_data c) (contract_ABI c)
    (lua_code_b c).
Definition set_contract_data (x : Data) (c : contract_object) : contract_object :=
  mk_contract (co_owner c) (co_name c) (co_creation_date c) (user_invoke_share_percent c) (is_release c)
    (current_version c) (check_contract_authority c) (contract_authority c) x (contract_ABI c) (lua_code_b c).
Definition set_code (version : Z) (abi : gmap string (option nat)) (code : Code) (c : contract_object)
    : contract_object :=
  mk_contract (co_owner c) (co_name c) (co_creation_date c) (user_invoke_share_percent c) (is_release c)
    version (check_contract_authority c) (contract_authority c) (contract_data c) abi code.

(** The database and what only contracts use: the contracts, the tables of accounts (by
    account and contract), the parts of [asset_locked] by account and contract, and for
    items the leasing limits and the descriptions by contract. *)
Record contract_state := mk_cs {
  db : database;
  contracts : gmap Z contract_object;
  next_contract : Z;
  account_contract_data : gmap (Z * Z) Data;
  contract_lock_details : gmap (Z * Z) (gmap Z Z);
  contract_nft_lock_details : gmap (Z * Z) (list Z);
  item_limits : gmap Z (bool * list Z);
  describe_with_contract : gmap (Z * Z) (gmap string string);
  (** The static variable of [invoke_contract_function]. *)
  invoking_path : list string }.

Definition set_db (x : database) (s : contract_state) : contract_state :=
  mk_cs x (contracts s) (next_contract s) (account_contract_data s) (contract_lock_details s)
    (contract_nft_lock_details s) (item_limits s) (describe_with_contract s) (invoking_path s).
Definition set_contracts (x : gmap Z contract_object) (s : contract_state) : contract_state :=
  mk_cs (db s) x (next_contract s) (account_contract_data s) (contract_lock_details s)
    (contract_nft_lock_details s) (item_limits s) (describe_with_contract s) (invoking_path s).
Definition set_next_contract (x : Z) (s : contract_state) : contract_state :=
  mk_cs (db s) (contracts s) x (account_contract_data s) (contract_lock_details s)
    (contract_nft_lock_details s) (item_limits s) (describe_with_contract s) (invoking_path s).
Definition set_account_data (x : gmap (Z * Z) Data) (s : contract_state) : contract_state :=
  mk_cs (db s) (contracts s) (next_contract s) x (contract_lock_details s)
    (contract_nft_lock_details s) (item_limits s) (describe_with_contract s) (invoking_path s).
Definition set_lock_details (x : gmap (Z * Z) (gmap Z Z)) (s : contract_state) : contract_state :=
  mk_cs (db s) (contracts s) (next_contract s) (account_contract_data s) x
    (contract_nft_lock_details s) (item_limits s) (describe_with_contract s) (invoking_path s).
Definition set_nft_lock_details (x : gmap (Z * Z) (list Z)) (s : contract_state) : contract_state :=
  mk_cs (db s) (contracts s) (next_contract s) (account_contract_data s) (contract_lock_details s)
    x (item_limits s) (describe_with_contract s) (invoking_path s).
Definition set_item_limits (x : gmap Z (bool * list Z)) (s : contract_state) : contract_state :=
  mk_cs (db s) (contracts s) (next_contract s) (account_contract_data s) (contract_lock_details s)
    (contract_nft_lock_details s) x (describe_with_contract s) (invoking_path s).
Definition set_describe (x : gmap (Z * Z) (gmap string string)) (s : contract_state) : contract_state :=
  mk_cs (db s) (contracts s) (next_contract s) (account_contract_data s) (contract_lock_details s)
    (contract_nft_lock_details s) (item_limits s) x (invoking_path s).
Definition set_invoking_path (x : list string) (s : contract_state) : contract_state :=
  mk_cs (db s) (contracts s) (next_contract s) (account_contract_data s) (contract_lock_details s)
    (contract_nft_lock_details s) (item_limits s) (describe_with_contract s) x.

(** One running call ([register_scheduler]): who calls, the contract's id and the copy of it
    that the call works on, the working copies of the tables and the result. *)
Record frame := mk_frame {
  fr_caller : Z;
  fr_contract_id : Z;
  fr_contract : contract_object;
  fr_account_data : Data;
  existed_pv : bool;
  contract_affecteds : list contract_affected }.

Definition set_tables (account_data data : Data) (f : frame) : frame :=
  mk_frame (fr_caller f) (fr_contract_id f) (set_contract_data data (fr_contract f)) account_data (existed_pv f)
    (contract_affecteds f).
Definition add_affecteds (l : list contract_affected) (f : frame) : frame :=
  mk_frame (fr_caller f) (fr_contract_id f) (fr_contract f) (fr_account_data f) (existed_pv f)
    (contract_affecteds f ++ l).
Definition set_existed_pv (f : frame) : frame :=
  mk_frame (fr_caller f) (fr_contract_id f) (fr_contract f) (fr_account_data f) true (contract_affecteds f).

(** The owner of the contract a call runs. *)
Definition fr_owner (f : frame) : Z := co_owner (fr_contract f).

Abbreviation call_state := (frame * contract_state)%type.

(** A step of the database that changes nothing when it throws. *)
Definition on_db (step : database -> result database) : stM call_state unit :=
  fun s => match step (db s.2) with
           | Ok d => (Ok tt, (s.1, set_db d s.2))
           | Err e => (Err e, s)
           end.
Definition reading {A} (f : frame -> contract_state -> result A) : stM call_state A := fun s => (f s.1 s.2, s).
Definition on_state (f : contract_state -> contract_state) : stM call_state unit := modify (fun s => (s.1, f s.2)).
Definition logged (enable_logger : bool) (l : list contract_affected) : stM call_state unit :=
  modify (fun s => (if enable_logger then add_affecteds l s.1 else s.1, s.2)).

(** ** Looking objects up *)

(** [database::get_account], [get_asset], [get_nh_asset] and [get_contract]. *)
Definition find_account (r : name_or_id) (d : database) : result Z :=
  match r with
  | by_id id => let* _ := get_account id d in Ok id
  | by_name n =>
      let* (id, _) := get_or (find (fun ka => String.eqb (account_name ka.2) n) (map_to_list (accounts d)))
                        assert_exception in Ok id
  end.
Definition find_asset (r : name_or_id) (d : database) : result Z :=
  match r with
  | by_id id => let* _ := get_asset id d in Ok id
  | by_name n =>
      let* (id, _) := get_or (find (fun ka => String.eqb (symbol ka.2) n) (map_to_list (assets d))) assert_exception in
      Ok id
  end.
Definition find_item (r : hash_or_id) (d : database) : result Z :=
  match r with
  | item_by_id id => let* _ := get_nh_asset id d in Ok id
  | item_by_hash h => let* (id, _) := get_or (find_by_hash h (nh d)) assert_exception in Ok id
  end.
Definition find_contract (r : name_or_id) (s : contract_state) : result (Z * contract_object) :=
  match r with
  | by_id id => let* c := get_or (contracts s !! id) assert_exception in Ok (id, c)
  | by_name n =>
      get_or (find (fun kc => String.eqb (co_name kc.2) n) (map_to_list (contracts s))) assert_exception
  end.

(** ** Assets *)

Definition transfer_by_contract (from_ to_ : Z) (token : asset) (enable_logger : bool) : stM call_state unit :=
  _ <-- reading (fun _ s =>
          let d := db s in
          check negb (asset_id token =? GRAPHENE_ASSET_GAS);
          check negb (from_ =? to_);
          let* _ := get_account from_ d in
          let* _ := get_account to_ d in
          let* a := get_asset (asset_id token) d in
          check amount (get_balance from_ (asset_id token) d) >=? amount token;
          let* _ :=
            if negb (from_ =? issuer a) && negb (to_ =? issuer a) then
              require is_authorized_asset d from_ (asset_id token) a else transfer_from_account_not_whitelisted;
              graphene_assert (is_authorized_asset d to_ (asset_id token) a) transfer_to_account_not_whitelisted
            else Ok tt in
          let* _ :=
            if is_transfer_restricted a && negb (is_white_list a) then
              graphene_assert ((from_ =? issuer a) || (to_ =? issuer a)) transfer_restricted_transfer_asset
            else Ok tt in
          fc_assert (amount token >=? 0));
  neg <-- lift (asset_neg token);
  _ <-- on_db (adjust_balance from_ neg false);
  _ <-- on_db (adjust_balance to_ token false);
  logged enable_logger [token_affected from_ neg; token_affected to_ token].

(** The amount is a [double]; the fraction is dropped. *)
Definition contract_transfer_from (from_ : Z) (to_ : name_or_id) (amt : double) (symbol_or_id : name_or_id)
    (enable_logger : bool) : stM call_state unit :=
  account_to <-- reading (fun _ s => find_account to_ (db s));
  aid <-- reading (fun _ s => find_asset symbol_or_id (db s));
  n <-- lift (double_to_int64 amt);
  transfer_by_contract from_ account_to (mk_asset n aid) enable_logger.

(** The locks are changed in a copy of the owner and written back at the end. *)
Definition adjust_lock_asset (symbol_or_id : name_or_id) (amt : Z) : stM call_state unit :=
  p <-- reading (fun f s =>
          let owner := fr_owner f in
          check negb (amt =? 0);
          let* o := get_account owner (db s) in
          let* target := find_asset symbol_or_id (db s) in
          check negb (target =? GRAPHENE_ASSET_GAS);
          let locked := default ∅ (contract_lock_details s !! (owner, fr_contract_id f)) in
          let* mine := match locked !! target with Some x => Share.add x amt | None => Ok amt end in
          check mine >=? 0;
          let locked := if mine =? 0 then delete target locked else <[target := mine]> locked in
          let details := if bool_decide (locked = ∅) then delete (owner, fr_contract_id f) (contract_lock_details s)
                         else <[(owner, fr_contract_id f) := locked]> (contract_lock_details s) in
          let* total := if negb (locked_of o target =? 0) then Share.add (locked_of o target) amt else Ok amt in
          check (total >=? 0) && (total <=? amount (get_balance owner target (db s)));
          let o := set_locked_total (if total =? 0 then delete target (locked_total o)
                                     else <[target := total]> (locked_total o)) o in
          Ok (owner, o, details));
  let '(owner, o, details) := p in
  on_state (fun s => set_lock_details details (set_db (set_accounts (<[owner := o]> (accounts (db s))) (db s)) s)).

(** Pledging by a script goes the way of [gas_do_apply], but every step stays. *)
Definition contract_update_collateral (to_ : name_or_id) (amt : Z) : stM call_state unit :=
  p <-- reading (fun f s =>
          check amt >=? 0;
          let* beneficiary := find_account to_ (db s) in
          Ok (fr_caller f, beneficiary, find_gas_collateral (fr_caller f) beneficiary (db s)));
  let '(mortg, beneficiary, old) := p in
  match old with
  | Some (id, c) =>
      temp_collateral <-- lift (Share.sub amt (gas_collateral c));
      gas <-- reading (fun _ s => estimation_gas amt (db s));
      temp_debt <-- lift (Share.sub gas (gas_debt c));
      coll <-- lift (Share.add (gas_collateral c) temp_collateral);
      debt <-- lift (Share.add (gas_debt c) temp_debt);
      _ <-- on_db (fun d => Ok (set_gas_collaterals
              (<[id := mk_gas_collateral (mortgager c) (gas_beneficiary c) coll debt]> (gas_collaterals d)) d));
      _ <-- reading (fun _ s => get_account mortg (db s));
      _ <-- on_db (adjust_balance beneficiary (mk_asset temp_debt GRAPHENE_ASSET_GAS) true);
      back <-- lift (Share.neg temp_collateral);
      _ <-- on_db (if temp_collateral <? 0 then deposit_cashback_vb mortg back
                   else adjust_balance mortg (mk_asset back CORE) false);
      on_db (add_gas_supply temp_debt)
  | None =>
      gas <-- reading (fun _ s => estimation_gas amt (db s));
      _ <-- on_db (fun d => let id := next_gas_collateral d in
              Ok (set_next_gas_collateral (id + 1) (set_gas_collaterals
                    (<[id := mk_gas_collateral mortg beneficiary amt gas]> (gas_collaterals d)) d)));
      neg <-- lift (Share.neg amt);
      _ <-- on_db (adjust_balance mortg (mk_asset neg CORE) false);
      _ <-- on_db (adjust_balance beneficiary (mk_asset gas GRAPHENE_ASSET_GAS) true);
      on_db (add_gas_supply gas)
  end.

(** ** Items *)

(** The hash of an item, but for its first word. *)
Variable digest : string -> Z -> Z.

Definition put_item (id : Z) (a : nh_asset_object) : stM call_state unit :=
  on_state (fun s => set_db (put_nh_asset id a (db s)) s).
Definition with_owner (acc : Z) (a : nh_asset_object) : nh_asset_object :=
  mk_nh_asset (nh_hash a) (nh_asset_creator a) acc (nh_asset_active a) (dealership a) (nh_world_view a)
    (base_describe a) (parent a) (child a) (nh_create_time a).
Definition with_active (acc : Z) (a : nh_asset_object) : nh_asset_object :=
  mk_nh_asset (nh_hash a) (nh_asset_creator a) (nh_asset_owner a) acc (dealership a) (nh_world_view a)
    (base_describe a) (parent a) (child a) (nh_create_time a).
Definition with_dealership (acc : Z) (a : nh_asset_object) : nh_asset_object :=
  mk_nh_asset (nh_hash a) (nh_asset_creator a) (nh_asset_owner a) (nh_asset_active a) acc (nh_world_view a)
    (base_describe a) (parent a) (child a) (nh_create_time a).

Definition get_item (r : hash_or_id) : stM call_state (Z * nh_asset_object) :=
  reading (fun _ s => let* id := find_item r (db s) in let* a := get_nh_asset id (db s) in Ok (id, a)).

Definition create_nft_asset (owner_id dealer_id : Z) (world_view descr : string) (enable_logger : bool)
    : stM call_state Z :=
  p <-- reading (fun f s =>
          let n := nh (db s) in
          let* (_, c) := get_or (find_creator (fr_owner f) n) assert_exception in
          check existsb (String.eqb world_view) (creator_views c);
          check bool_decide (is_Some (find_view world_view n));
          let id := next_nh_asset n in
          let h := (wrap64 id, digest descr (head_block_time (db s))) in
          let a := mk_nh_asset h (fr_owner f) owner_id owner_id dealer_id world_view descr ∅ ∅
                     (head_block_time (db s)) in
          check negb (existsb (fun ka => bool_decide (nh_hash ka.2 = h)) (map_to_list (nh_assets n)));
          Ok (fr_owner f, id, set_nh (set_next_nh_asset (id + 1) (set_nh_assets (<[id := a]> (nh_assets n)) n)) (db s)));
  let '(creator, id, d) := p in
  _ <-- on_state (set_db d);
  _ <-- logged enable_logger [nht_affected owner_id id create_for None; nht_affected creator id create_by None];
  ret id.

Definition limits_of (id : Z) (s : contract_state) : bool * list Z := default (false, []) (item_limits s !! id).

(** The user of a leased item needs a contract that the owner admits. *)
Definition may_describe (id : Z) (a : nh_asset_object) (f : frame) (s : contract_state) : result unit :=
  let c := fr_caller f in
  check (c =? nh_asset_owner a) || (c =? nh_asset_active a);
  if negb (nh_asset_owner a =? nh_asset_active a) then
    if c =? nh_asset_active a then
      let (white, l) := limits_of id s in
      let listed := existsb (Z.eqb (fr_contract_id f)) l in
      fc_assert (if white then listed else negb listed)
    else Err fc_exception
  else Ok tt.

(** The descriptions a contract gave an item, with one changed; [None] when nothing
    changes. *)
Definition describe_change (key value : string) (old : option (gmap string string))
    : option (option (gmap string string)) :=
  match old with
  | None => if String.eqb value "" then None else Some (Some {[ key := value ]})
  | Some m =>
      match m !! key with
      | Some _ =>
          let m := if String.eqb value "" then delete key m else <[key := value]> m in
          Some (if bool_decide (m = ∅) then None else Some m)
      | None => if String.eqb value "" then None else Some (Some (<[key := value]> m))
      end
  end.

Definition nht_describe_change (r : hash_or_id) (key value : string) (enable_logger : bool) : stM call_state unit :=
  p <-- get_item r;
  let (id, a) := (p : Z * nh_asset_object) in
  q <-- reading (fun f s =>
          let* _ := may_describe id a f s in
          let k := (id, fr_contract_id f) in
          Ok (fr_caller f, k, if String.eqb key "" then None
                              else describe_change key value (describe_with_contract s !! k)));
  let '(c, k, change) := q in
  match change with
  | None => ret tt
  | Some m =>
      _ <-- on_state (fun s => set_describe (partial_alter (fun _ => m) k (describe_with_contract s)) s);
      logged enable_logger [nht_affected c id modified (Some (key, value))]
  end.

Definition transfer_nht (from_ to_ : Z) (r : hash_or_id) (enable_logger : bool) : stM call_state unit :=
  p <-- get_item r;
  let (id, a) := (p : Z * nh_asset_object) in
  _ <-- reading (fun _ s => let* _ := assert_asset_transfer from_ to_ a in assert_asset_unlocked from_ id a (db s));
  _ <-- put_item id (give_to to_ a);
  logged enable_logger [nht_affected from_ id transfer_from None; nht_affected to_ id transfer_to None].

Definition transfer_nht_active (from_ to_ : Z) (r : hash_or_id) (enable_logger : bool) : stM call_state unit :=
  p <-- get_item r;
  let (id, a) := (p : Z * nh_asset_object) in
  _ <-- lift (let* _ := if negb (dealership a =? from_) then fc_assert (nh_asset_active a =? from_) else Ok tt in
              fc_assert (negb (to_ =? nh_asset_active a)));
  _ <-- put_item id (with_active to_ a);
  logged enable_logger
    [nht_affected (nh_asset_active a) id transfer_active_from None; nht_affected to_ id transfer_active_to None].

Definition transfer_nft_ownership (from_ to_ : Z) (r : hash_or_id) (enable_logger : bool) : stM call_state unit :=
  p <-- get_item r;
  let (id, a) := (p : Z * nh_asset_object) in
  _ <-- reading (fun _ s =>
          check nh_asset_owner a =? from_;
          check negb (to_ =? nh_asset_owner a);
          assert_asset_unlocked from_ id a (db s));
  _ <-- put_item id (with_owner to_ a);
  logged enable_logger [nht_affected from_ id transfer_owner_from None; nht_affected to_ id transfer_owner_to None].

Definition transfer_nht_dealership (from_ to_ : Z) (r : hash_or_id) (enable_logger : bool) : stM call_state unit :=
  p <-- get_item r;
  let (id, a) := (p : Z * nh_asset_object) in
  _ <-- lift (check dealership a =? from_; fc_assert (negb (to_ =? from_)));
  _ <-- put_item id (with_dealership to_ a);
  logged enable_logger
    [nht_affected from_ id transfer_authority_from None; nht_affected to_ id transfer_authority_to None].

Fixpoint add_limits (l : list name_or_id) (limits : list Z) (s : contract_state) : result (list Z) :=
  match l with
  | [] => Ok limits
  | r :: l' =>
      let* (id, _) := find_contract r s in
      add_limits l' (if existsb (Z.eqb id) limits then limits else limits ++ [id]) s
  end.

(** The names are the non-empty parts of a string, split and sorted. *)
Definition set_nht_limit_list (r : hash_or_id) (names : list name_or_id) (white enable_logger : bool)
    : stM call_state unit :=
  p <-- get_item r;
  let (id, a) := (p : Z * nh_asset_object) in
  q <-- reading (fun f s =>
          check (nh_asset_owner a =? fr_caller f) && (nh_asset_owner a =? nh_asset_active a);
          let (old_white, l) := limits_of id s in
          let* l := add_limits names (if eqb white old_white then l else []) s in
          Ok (fr_caller f, l));
  let (c, l) := (q : Z * list Z) in
  _ <-- on_state (fun s => set_item_limits (<[id := (white, l)]> (item_limits s)) s);
  logged enable_logger [nht_affected c id set_limit_list None].

(** [signed]: signatures are not checked, or the contract's key is among them. *)
Definition contract_relate_nh_asset (signed : bool) (parent_ref child_ref : hash_or_id) (relate enable_logger : bool)
    : stM call_state unit :=
  p <-- get_item parent_ref;
  c <-- get_item child_ref;
  let (pid, pa) := (p : Z * nh_asset_object) in
  let (cid, ca) := (c : Z * nh_asset_object) in
  q <-- reading (fun f _ =>
          check signed;
          check nh_asset_owner pa =? fr_caller f;
          check nh_asset_owner ca =? fr_caller f;
          let k := fr_contract_id f in
          let l := child pa !! k in
          let* _ := if relate then fc_assert (negb (existsb (Z.eqb cid) (default [] l)))
                    else fc_assert (existsb (Z.eqb cid) (default [] l)) in
          Ok (fr_caller f, k, bool_decide (is_Some l)));
  let '(caller, k, known) := q in
  _ <-- on_db (fun d =>
          let add x m := if known then push_at k x m else insert_at k x m in
          if relate then
            let d := put_nh_asset pid (with_child (add cid (child pa)) pa) d in
            let* ca := get_nh_asset cid d in
            Ok (put_nh_asset cid (with_parent (add pid (parent ca)) ca) d)
          else
            let* m := erase_at k cid (child pa) in
            let d := put_nh_asset pid (with_child m pa) d in
            let* ca := get_nh_asset cid d in
            let* m := erase_at k pid (parent ca) in
            Ok (put_nh_asset cid (with_parent m ca) d));
  logged enable_logger
    [nht_affected caller pid relate_nh_asset_action None; nht_affected caller cid relate_nh_asset_action None].

Definition adjust_lock_nft_asset (r : hash_or_id) (lock : bool) : stM call_state unit :=
  p <-- get_item r;
  let (id, a) := (p : Z * nh_asset_object) in
  q <-- reading (fun f s =>
          let owner := fr_owner f in
          let* o := get_account owner (db s) in
          check nh_asset_owner a =? owner;
          let k := (owner, fr_contract_id f) in
          let details := default [] (contract_nft_lock_details s !! k) in
          let locked := existsb (Z.eqb id) (nft_locked o) in
          let* (all, details) :=
            if lock then check negb locked; Ok (nft_locked o ++ [id], details ++ [id])
            else
              check locked;
              let* details := get_or (erase_first id details) assert_exception in
              let* all := get_or (erase_first id (nft_locked o)) undefined_behaviour in
              Ok (all, details) in
          let m := if bool_decide (details = []) then delete k (contract_nft_lock_details s)
                   else <[k := details]> (contract_nft_lock_details s) in
          Ok (owner, set_nft_locked all o, m));
  let '(owner, o, m) := q in
  on_state (fun s => set_nft_lock_details m (set_db (set_accounts (<[owner := o]> (accounts (db s))) (db s)) s)).

(** ** The contract itself *)

Definition modify_contract (f : contract_object -> contract_object) : stM call_state unit :=
  id <-- reading (fun fr s => let* _ := get_or (contracts s !! fr_contract_id fr) assert_exception in Ok (fr_contract_id fr));
  on_state (fun s => set_contracts (alter f id (contracts s)) s).

Definition is_owner (f : frame) : bool := fr_caller f =? fr_owner f.
Definition assert_owner : stM call_state unit := reading (fun f _ => fc_assert (is_owner f)).

Definition set_permissions_flag (flag : bool) : stM call_state unit :=
  _ <-- assert_owner; modify_contract (set_check_authority flag).
(** Converting a [double] outside the range of [uint32_t] is undefined. *)
Definition set_invoke_share_percent (percent : double) : stM call_state unit :=
  _ <-- assert_owner;
  n <-- lift (let* z := get_or (double_trunc percent) undefined_behaviour in
              if (0 <=? z) && (z <? uint32_mod) then check z <=? 100; Ok z else Err undefined_behaviour);
  modify_contract (set_share_percent n).
(** [None]: the text is not a public key. *)
Definition change_contract_authority (key : option Z) : stM call_state unit :=
  _ <-- assert_owner; k <-- lift (get_or key assert_exception); modify_contract (set_contract_authority k).
Definition make_release : stM call_state unit := modify_contract set_release.

(** ** Scripts *)

(** What [chain_function_bind] registers.  [from_owner] tells the functions named
    [..._from_owner] from those named [..._from_caller]. *)
Inductive api :=
| api_log (message : string)
| api_time
| api_process_value
| api_is_owner
| api_get_account_balance (account symbol : name_or_id)
| api_transfer (from_owner : bool) (to_ : name_or_id) (amt : double) (symbol : name_or_id) (enable_logger : bool)
| api_adjust_lock_asset (symbol : name_or_id) (amt : Z)
| api_update_collateral_for_gas (to_ : name_or_id) (amt : Z)
| api_create_nft_asset (owner : name_or_id) (view descr : string) (dealership_to_contract enable_logger : bool)
| api_nht_describe_change (item : hash_or_id) (key value : string) (enable_logger : bool)
| api_transfer_nht (from_owner : bool) (to_ : name_or_id) (item : hash_or_id) (enable_logger : bool)
| api_transfer_nht_active (from_owner : bool) (to_ : name_or_id) (item : hash_or_id) (enable_logger : bool)
| api_transfer_nft_ownership (from_owner : bool) (to_ : name_or_id) (item : hash_or_id) (enable_logger : bool)
| api_transfer_nht_dealership (from_owner : bool) (to_ : name_or_id) (item : hash_or_id) (enable_logger : bool)
| api_set_nht_limit_list (item : hash_or_id) (names : list name_or_id) (white enable_logger : bool)
| api_relate_nh_asset (parent_ child_ : hash_or_id) (relate enable_logger : bool)
| api_adjust_lock_nft_asset (item : hash_or_id) (lock : bool)
| api_set_permissions_flag (flag : bool)
| api_set_invoke_share_percent (percent : double)
| api_change_contract_authority (key : option Z)
| api_make_release
(** [write_chain]: new tables from the old ones, by the lists and variables of the script. *)
| api_write_chain (f : Data -> Data -> result (Data * Data))
| api_invoke_contract_function (contract : name_or_id) (function_name : string) (values : result (list Value)).

(** A script: it ends, fails, or calls a function and goes on with the answer. *)
Inductive script :=
| script_end
| script_error
| script_call (a : api) (k : result reply -> script).

(** The code of a contract, started with a function, its values and the caller. *)
Variable interpret : Code -> string -> list Value -> frame -> script.
(** The serialized sizes of tables. *)
Variable pack_size : Data -> Z.
(** The tables of an account that has none yet. *)
Variable empty_data : Data.
Variable contract_private_data_size contract_total_data_size : Z.

(** What is fixed while a transaction runs: the keys that signed it, and whether signatures
    or authorities are not checked. *)
Variable sigkeys : gset Z.
Variable skip_authority : bool.

Definition signed_for (c : contract_object) : bool := skip_authority || bool_decide (contract_authority c ∈ sigkeys).

(** [evaluate_contract_authority]. *)
Definition evaluate_contract_authority (id : Z) (s : contract_state) : result contract_object :=
  let* c := get_or (contracts s !! id) assert_exception in
  check negb (check_contract_authority c) || signed_for c;
  Ok c.

Definition party (from_owner : bool) (f : frame) : Z := if from_owner then fr_owner f else fr_caller f.

(** A function with a sender and a named receiver. *)
Definition sending (from_owner : bool) (to_ : name_or_id) (k : Z -> Z -> stM call_state unit) : stM call_state reply :=
  q <-- reading (fun f s => let* t := find_account to_ (db s) in Ok (party from_owner f, t));
  _ <-- k q.1 q.2; ret reply_none.

Definition quietly (m : stM call_state unit) : stM call_state reply := _ <-- m; ret reply_none.

(** Every function but [invoke_contract_function]. *)
Definition run_api (a : api) : stM call_state reply :=
  match a with
  | api_log message => quietly (modify (fun s => (add_affecteds [contract_logger (fr_caller s.1) message] s.1, s.2)))
  | api_time => reading (fun _ s => Ok (reply_number (head_block_time (db s))))
  | api_process_value => quietly (modify (fun s => (set_existed_pv s.1, s.2)))
  | api_is_owner => reading (fun f _ => Ok (reply_bool (is_owner f)))
  | api_get_account_balance account symbol =>
      reading (fun _ s => let* acc := find_account account (db s) in let* x := find_asset symbol (db s) in
                          Ok (reply_number (amount (get_balance acc x (db s)))))
  | api_transfer from_owner to_ amt symbol log =>
      f <-- get (fun s => s.1); quietly (contract_transfer_from (party from_owner f) to_ amt symbol log)
  | api_adjust_lock_asset symbol amt => quietly (adjust_lock_asset symbol amt)
  | api_update_collateral_for_gas to_ amt => quietly (contract_update_collateral to_ amt)
  | api_create_nft_asset owner view descr to_contract log =>
      q <-- reading (fun f s => let* o := find_account owner (db s) in Ok (o, if to_contract then fr_owner f else o));
      id <-- create_nft_asset q.1 q.2 view descr log; ret (reply_id id)
  | api_nht_describe_change item key value log => quietly (nht_describe_change item key value log)
  | api_transfer_nht from_owner to_ item log => sending from_owner to_ (fun a b => transfer_nht a b item log)
  | api_transfer_nht_active from_owner to_ item log => sending from_owner to_ (fun a b => transfer_nht_active a b item log)
  | api_transfer_nft_ownership from_owner to_ item log =>
      sending from_owner to_ (fun a b => transfer_nft_ownership a b item log)
  | api_transfer_nht_dealership from_owner to_ item log =>
      sending from_owner to_ (fun a b => transfer_nht_dealership a b item log)
  | api_set_nht_limit_list item names white log => quietly (set_nht_limit_list item names white log)
  | api_relate_nh_asset p c relate log =>
      f <-- get (fun s => s.1); quietly (contract_relate_nh_asset (signed_for (fr_contract f)) p c relate log)
  | api_adjust_lock_nft_asset item lock => quietly (adjust_lock_nft_asset item lock)
  | api_set_permissions_flag flag => quietly (set_permissions_flag flag)
  | api_set_invoke_share_percent percent => quietly (set_invoke_share_percent percent)
  | api_change_contract_authority key => quietly (change_contract_authority key)
  | api_make_release => quietly make_release
  | api_write_chain w =>
      q <-- reading (fun f _ => w (fr_account_data f) (contract_data (fr_contract f)));
      quietly (modify (fun s => (set_tables q.1 q.2 s.1, s.2)))
  | api_invoke_contract_function _ _ _ => throw undefined_behaviour
  end.

Abbreviation invoker := (name_or_id -> string -> result (list Value) -> stM call_state reply).

(** An exception is an answer the script may go on with; undefined behaviour is not. *)
Fixpoint run_with (invoke : invoker) (p : script) : stM call_state unit :=
  match p with
  | script_end => ret tt
  | script_error => throw fc_exception
  | script_call a k => fun s =>
      match (match a with
             | api_invoke_contract_function c fn values => invoke c fn values
             | _ => run_api a
             end) s with
      | (Err undefined_behaviour, s') => (Err undefined_behaviour, s')
      | (r, s') => run_with invoke (k r) s'
      end
  end.

(** The tables a call leaves behind.  Whether the account had a table was looked up before
    the call; the index is unique. *)
Definition store_tables (had : bool) (f : frame) : stM contract_state unit :=
  let k := (fr_caller f, fr_contract_id f) in
  _ <-- lift (check pack_size (fr_account_data f) <=? contract_private_data_size;
              fc_assert (pack_size (contract_data (fr_contract f)) <=? contract_total_data_size));
  s <-- get (fun s => s);
  _ <-- lift (fc_assert (had || bool_decide (account_contract_data s !! k = None)));
  modify (fun s => set_contracts (alter (set_contract_data (contract_data (fr_contract f))) (fr_contract_id f) (contracts s))
                     (set_account_data (<[k := fr_account_data f]> (account_contract_data s)) s)).

(** The arguments are checked and the code is run with a copy of the account's table. *)
Definition do_actual_contract_function (run : script -> stM call_state unit) (caller id : Z) (c : contract_object)
    (fn : string) (values : list Value) (account_data : Data) : stM contract_state frame :=
  arity <-- lift (get_or (contract_ABI c !! fn) assert_exception);
  _ <-- lift (check match arity with Some n => bool_decide (length values = n) | None => true end;
              fc_assert (bool_decide (length values <= 20)%nat));
  let f := mk_frame caller id c account_data false [] in
  fun s => match run (interpret (lua_code_b c) fn values f) (f, s) with
           | (Ok _, (f, s)) => (Ok f, s)
           | (Err undefined_behaviour, (_, s)) => (Err undefined_behaviour, s)
           | (Err _, (_, s)) => (Err fc_exception, s)
           end.

Definition do_apply_function (run : script -> stM call_state unit) (caller id : Z) (c : contract_object)
    (fn : string) (values : list Value) : stM contract_state frame :=
  s <-- get (fun s => s);
  let old := account_contract_data s !! (caller, id) in
  f <-- do_actual_contract_function run caller id c fn values (default empty_data old);
  _ <-- store_tables (bool_decide (is_Some old)) f;
  ret f.

(** A step on the state alone, within a call. *)
Definition on_rest {A} (m : stM contract_state A) : stM call_state A :=
  fun s => let (r, s') := m s.2 in (r, (s.1, s')).

(** [pop_back] of an empty vector is undefined. *)
Definition pop_path : stM contract_state unit :=
  fun s => match invoking_path s with
           | [] => (Err undefined_behaviour, s)
           | l => (Ok tt, set_invoking_path (removelast l) s)
           end.

Definition invoke_contract_function (run : script -> stM call_state unit) : invoker :=
  fun r fn values =>
    kc <-- reading (fun _ s => find_contract r s);
    let (id, c) := (kc : Z * contract_object) in
    try_catch
      (f <-- get (fun s => s.1);
       path <-- get (fun s => invoking_path s.2);
       _ <-- (if existsb (String.eqb (co_name c)) path then throw fc_exception
              else on_state (set_invoking_path (path ++ [co_name c])));
       _ <-- lift (fc_assert (negb (id =? fr_contract_id f)));
       values <-- lift values;
       c <-- reading (fun _ s => evaluate_contract_authority id s);
       f' <-- on_rest (do_apply_function run (fr_caller f) id c fn values);
       _ <-- modify (fun s => (add_affecteds [nested_result id (existed_pv f') (contract_affecteds f')]
                                 (if existed_pv f' then set_existed_pv s.1 else s.1), s.2));
       _ <-- on_rest pop_path;
       ret reply_none)
      (fun e => _ <-- on_state (set_invoking_path []); throw e).

(** [depth] is how deep calls may nest before the interpreter runs out of its stack, which
    is an exception. *)
Fixpoint run_script (depth : nat) : script -> stM call_state unit :=
  match depth with
  | O => run_with (fun _ _ _ => throw fc_exception)
  | S n => run_with (invoke_contract_function (run_script n))
  end.

(** ** Calling, creating and revising contracts *)

(** [call_contract_function_evaluator]; the first contract only holds the environment. *)
Definition call_do_evaluate (id : Z) (s : contract_state) : result contract_object :=
  check negb (id =? 0); evaluate_contract_authority id s.
Definition call_do_apply (depth : nat) (caller id : Z) (c : contract_object) (fn : string) (values : list Value)
    : stM contract_state frame :=
  do_apply_function (run_script depth) caller id c fn values.
Definition call_contract (depth : nat) (caller id : Z) (fn : string) (values : list Value) : stM contract_state frame :=
  s <-- get (fun s => s);
  c <-- lift (call_do_evaluate id s);
  call_do_apply depth caller id c fn values.

(** Compiling a script: its code and functions. *)
Variable compile : string -> string -> result (Code * gmap string (option nat)).

Definition contract_create_do_apply (hash owner : Z) (name data : string) (authority_key : Z) (s : contract_state)
    : result (Z * contract_state) :=
  let now := head_block_time (db s) in
  if (1602259200 <? now) && (now <? 1602813600) then Err fc_exception
  else
    let id := next_contract s in
    let* (code, abi) := compile name data in
    check bool_decide (find (fun kc => String.eqb (co_name kc.2) name) (map_to_list (contracts s)) = None);
    let own := negb (id =? 0) in
    let c := mk_contract owner name now 100 false (if own then hash else 0) false (if own then authority_key else 0)
               empty_data abi code in
    Ok (id, set_next_contract (id + 1) (set_contracts (<[id := c]> (contracts s)) s)).

Definition revise_do_evaluate (reviser id : Z) (s : contract_state) : result unit :=
  let* c := get_or (contracts s !! id) assert_exception in
  let* _ := get_account (co_owner c) (db s) in
  check negb (is_release c);
  check bool_decide (contract_lock_details s !! (co_owner c, id) = None);
  check bool_decide (default [] (contract_nft_lock_details s !! (co_owner c, id)) = []);
  fc_assert (co_owner c =? reviser).

Definition revise_do_apply (hash id : Z) (data : string) (s : contract_state) : result (Z * contract_state) :=
  let* c := get_or (contracts s !! id) assert_exception in
  let* (code, abi) := compile (co_name c) data in
  Ok (current_version c, set_contracts (<[id := set_code hash abi code c]> (contracts s)) s).
End Contracts.

(** ** Fees of a call *)

(** [calculate_data_fee] and [calculate_run_time_fee]: a price per 1024 bytes and per 1000
    microseconds. *)
Definition fee_per (unit_size n price_ : Z) : result Z :=
  let r := wrap128 (wrap64 n * wrap64 price_) / unit_size in
  check r <=? GRAPHENE_MAX_SHARE_SUPPLY; to_uint64 r.
Definition calculate_data_fee (bytes price_per_kbyte : Z) : result Z := fee_per 1024 bytes price_per_kbyte.
Definition calculate_run_time_fee (run_time_by_us price_per_millisecond : Z) : result Z :=
  fee_per 1000 run_time_by_us price_per_millisecond.

Abbreviation CONTRACT_CALL_FEE_SHARE_TIMEPOINT := 1595376000.
Abbreviation GRAPHENE_FULL_PROPOTION := 100.

Section Fees.
Context {Data Code : Type}.

(** [pay_fee_for_result]: the fee with the cost of the result (which is converted by way of
    its decimal text), and until the time point the
    part of it that is left to the contract's owner. *)
Definition pay_fee_for_result (c : @contract_object Data Code) (relevant_datasize running_time price_kb price_ms scale
    core_fee_paid now : Z) : result (Z * Z) :=
  let* data_fee := calculate_data_fee relevant_datasize price_kb in
  let* time_fee := calculate_run_time_fee running_time price_ms in
  let* temp := Share.add data_fee time_fee in
  let additional := wrap128 (wrap128 temp * scale) / GRAPHENE_100_PERCENT in
  let* cost := if additional <=? int64_max then Ok additional else Err parse_error_exception in
  let* paid := Share.add core_fee_paid cost in
  if now <? CONTRACT_CALL_FEE_SHARE_TIMEPOINT then
    let* m := Share.mul paid (user_invoke_share_percent c) in
    let* share := Share.div m GRAPHENE_FULL_PROPOTION in
    let* creator := Share.sub paid share in
    Ok (share, creator)
  else Ok (paid, 0).

(** [account_pay_fee]: the rule of [generic_evaluator::pay_fee], for one of the payers. *)
Definition account_pay_fee (account fee percent period : Z) (d : database)
    : result (list contract_affected * database) :=
  let* _ := get_account account d in
  let* (fees, d) := evaluator_pay_fee account fee period d in
  Ok (if fee >? 0 then [contract_fee_share_result account percent fees] else [], d).

(** [pay_fee_impl]: caller and owner share the fee by the contract's percentage. *)
Definition pay_fee_impl (caller : Z) (c : @contract_object Data Code) (core_fee_paid period : Z) (d : database)
    : result (list contract_affected * database) :=
  let own := co_owner c =? caller in
  let caller_percent := if own then 0 else user_invoke_share_percent c in
  let owner_percent := if own then 100 else wrap32 (100 - user_invoke_share_percent c) in
  let* m := Share.mul core_fee_paid owner_percent in
  let* owner_pay_fee := Share.div m GRAPHENE_FULL_PROPOTION in
  let* (l1, d) :=
    if caller_percent >? 0 then
      let* rest := Share.sub core_fee_paid owner_pay_fee in account_pay_fee caller rest caller_percent period d
    else Ok ([], d) in
  let* (l2, d) :=
    if owner_percent >? 0 then account_pay_fee (co_owner c) owner_pay_fee owner_percent period d else Ok ([], d) in
  Ok (l1 ++ l2, d).
End Fees.

(** [contract_share_fee_evaluator::do_apply] takes the units from the sharer and gives them
    to nobody. *)
Definition contract_share_fee_do_apply (sharer total_share_fee : Z) (d : database) : result database :=
  let* _ := get_account sharer d in
  let* gas := get_asset GRAPHENE_ASSET_GAS d in
  let* rate := get_or (core_exchange_rate gas) assert_exception in
  if total_share_fee >? 0 then
    let total_gas := get_balance sharer GRAPHENE_ASSET_GAS d in
    let take a d := let* neg := asset_neg a in adjust_balance sharer neg false d in
    let* require_gas := gas_required total_share_fee rate in
    let* enough := asset_geb total_gas require_gas in
    if enough then take require_gas d
    else
      let* (require_core, d) :=
        if amount total_gas >? 0 then
          let* d := take total_gas d in
          let* rest := asset_sub require_gas total_gas in
          let* require_core := asset_mul_price rest rate in
          Ok (require_core, d)
        else Ok (mk_asset total_share_fee CORE, d) in
      take require_core d
  else Ok d.
