(* ===== verification/ContractsSpec.v ===== *)
(** * What contracts may do

    A small program logic for the functions that scripts call: every step keeps an invariant
    of the balances and touches only what belongs to the caller or to the owner of a
    contract, also when a function throws and the script goes on. *)

From Stdlib Require Import SpecFloat.
From S2P Require Import Prelude SafeInt Asset Vesting State Ledger Market MarketProofs Double Fees NhAssets Collateral Contracts.

(** ** The invariant and the effect of a step *)

(** Balances of an asset: none negative, together representable, and locks covered. *)
Record coins_ok (x : Z) (d : database) : Prop := {
  coins_nonneg : forall o, 0 <= amount (get_balance o x d);
  coins_bound : in_balances x (account_balances d) <= int64_max;
  locks_covered : forall o a, accounts d !! o = Some a -> 0 <= locked_of a x <= amount (get_balance o x d) }.

Lemma coins_ok_ext x d d' : account_balances d' = account_balances d -> accounts d' = accounts d ->
  coins_ok x d -> coins_ok x d'.
Proof.
  intros E1 E2 [H1 H2 H3]. unfold get_balance in *. split; rewrite ?E1, ?E2; [|done|]; unfold get_balance; by rewrite E1.
Qed.

(** Gas apart, whose balances may be negative; and item numbers are fresh. *)
Record sound_db (d : database) : Prop := {
  sound_coins : forall x, x <> GRAPHENE_ASSET_GAS -> coins_ok x d;
  items_fresh : forall id a, nh_assets (nh d) !! id = Some a -> id < next_nh_asset (nh d) }.

(** A change of the database that takes only from parties: no asset's total or supply
    changes, balances fall only at parties, and only items of parties change hands. *)
Record fair (P : Z -> Prop) (d d' : database) : Prop := {
  fair_total : forall x, total x d' = total x d /\ supply x d' = supply x d;
  fair_balances : forall o x, ~ P o -> amount (get_balance o x d) <= amount (get_balance o x d');
  fair_items : forall id a, nh_assets (nh d) !! id = Some a ->
    exists a', nh_assets (nh d') !! id = Some a' /\ (~ P (nh_asset_owner a) -> nh_asset_owner a' = nh_asset_owner a) }.

#[export] Instance fair_preorder P : PreOrder (fair P).
Proof.
  split.
  - intros d. split; [done|done|]. intros id a H. by exists a.
  - intros d1 d2 d3 H1 H2. split.
    + intros x. destruct (fair_total _ _ _ H1 x), (fair_total _ _ _ H2 x). split; congruence.
    + intros o x Ho. etrans; [by apply (fair_balances _ _ _ H1)|by apply (fair_balances _ _ _ H2)].
    + intros id a Ha. destruct (fair_items _ _ _ H1 id a Ha) as (b & Hb & Eb).
      destruct (fair_items _ _ _ H2 id b Hb) as (c & Hc & Ec). exists c. split; [done|].
      intros Hp. rewrite Ec, Eb; [done|done|]. by rewrite Eb.
Qed.

Lemma balance_le_in_balances o x d : (forall o, 0 <= amount (get_balance o x d)) ->
  amount (get_balance o x d) <= in_balances x (account_balances d).
Proof.
  intros Hn.
  assert (Hp : forall k v, account_balances d !! k = Some v -> 0 <= in_asset x (mk_asset v k.2)).
  { intros [o' y] v Hk. unfold in_asset. cbn. case_if; [|done]. bool_to_prop. subst y.
    specialize (Hn o'). rewrite get_balance_default, Hk in Hn. done. }
  unfold in_balances. rewrite get_balance_default. destruct (account_balances d !! (o, x)) as [v|] eqn:E; cbn.
  - pose proof (sum_map_lookup_le _ _ _ _ E Hp) as Hl. unfold in_asset in Hl. cbn in Hl.
    by rewrite Z.eqb_refl in Hl.
  - by apply sum_map_nonneg.
Qed.

(** A transfer by a contract: once the sender was debited the receiver can be credited. *)
Lemma coins_move (P : Z -> Prop) from_ to_ token neg d d1 :
  asset_id token <> GRAPHENE_ASSET_GAS -> 0 <= amount token -> P from_ ->
  sound_db d -> asset_neg token = Ok neg -> adjust_balance from_ neg false d = Ok d1 ->
  exists d2, adjust_balance to_ token false d1 = Ok d2 /\ sound_db d2 /\ fair P d d2.
Proof.
  intros Hg Ha HP Hc Hn H1. destruct (asset_neg_value _ _ Hn) as [En Am].
  pose proof (sound_coins _ Hc _ Hg) as [Hnn Hb Hl].
  assert (Hlock := adjust_balance_locked _ _ _ _ H1). rewrite En, Am in Hlock.
  assert (B1 : forall o x, amount (get_balance o x d1) = amount (get_balance o x d)
    + (if decide ((o, x) = (from_, asset_id token)) then - amount token else 0))
    by (intros o x; rewrite (adjust_balance_get _ _ _ _ _ o x H1), En, Am; done).
  assert (N1 : forall o, 0 <= amount (get_balance o (asset_id token) d1)).
  { intros o. rewrite B1. specialize (Hnn o). case_decide as E; [|lia]. injection E as ->.
    destruct (Z.eq_dec (amount token) 0) as [->|]; [lia|]. destruct Hlock as (a & _ & ?); lia. }
  apply adjust_balance_total in H1 as H1t. destruct H1t as (m & E1 & T1).
  assert (I1 : in_balances (asset_id token) (account_balances d1) = in_balances (asset_id token) (account_balances d) - amount token).
  { rewrite E1. cbn. rewrite T1. unfold in_asset. rewrite En, Z.eqb_refl, Am. lia. }
  pose proof (balance_le_in_balances to_ _ d1 N1) as Hle. rewrite get_balance_default in Hle.
  assert (exists d2, adjust_balance to_ token false d1 = Ok d2) as [d2 H2].
  { destruct (Z.eq_dec (amount token) 0) as [E0|]; [unfold adjust_balance; rewrite E0; cbn; eauto|].
    apply adjust_balance_credit; [|specialize (N1 to_); rewrite get_balance_default in N1; lia].
    specialize (N1 from_). rewrite B1 in N1. case_decide; [|done].
    pose proof (balance_le_in_balances from_ _ d Hnn). lia. }
  exists d2. split; [done|].
  assert (B2 : forall o x, amount (get_balance o x d2) = amount (get_balance o x d1)
    + (if decide ((o, x) = (to_, asset_id token)) then amount token else 0))
    by (intros o x; by rewrite (adjust_balance_get _ _ _ _ _ o x H2)).
  apply adjust_balance_total in H2 as H2t. destruct H2t as (m2 & E2 & T2).
  assert (A2 : accounts d2 = accounts d) by (rewrite E2, E1; done). split.
  - split; [|rewrite E2, E1; apply (items_fresh _ Hc)]. intros x Hx. destruct (sound_coins _ Hc x Hx) as [Xn Xb Xl]. split.
    + intros o. rewrite B2, B1. specialize (Xn o). specialize (N1 o). rewrite B1 in N1.
      repeat case_decide; simplify_eq; lia.
    + rewrite E2. cbn. rewrite T2, E1. cbn. rewrite T1. unfold in_asset. rewrite En, Am. case_if; lia.
    + rewrite A2. intros o a Hoa. rewrite B2, B1. specialize (Xl o a Hoa). split; [lia|].
      destruct (decide ((o, x) = (from_, asset_id token))) as [E|]; [|case_decide; lia].
      injection E as -> ->. destruct (Z.eq_dec (amount token) 0) as [E0|]; [case_decide; lia|].
      destruct Hlock as (a' & Ha' & ?); [lia|]. unfold get_account in Ha'. rewrite Hoa in Ha'. injection Ha' as <-.
      case_decide; lia.
  - split.
    + intros x. destruct (adjust_balance_excess _ _ _ _ _ x H2) as [-> ->].
      destruct (adjust_balance_excess _ _ _ _ _ x H1) as [-> ->]. unfold in_asset. rewrite En, Am. split; [case_if; lia|done].
    + intros o x Ho. rewrite B2, B1. repeat case_decide; simplify_eq; lia.
    + intros id a. rewrite E2, E1. cbn. intros H. by exists a.
Qed.

(** ** A program logic for the functions of scripts *)

Section Logic.
Context {Data Code Value : Type} (P : Z -> Prop).
Abbreviation call_state := (@frame Data Code * @contract_state Data Code)%type.

Definition parties_ok (s : call_state) : Prop :=
  P (fr_caller s.1) /\ P (fr_owner s.1) /\ forall id c, contracts s.2 !! id = Some c -> P (co_owner c).
Definition good (s : call_state) : Prop := parties_ok s /\ sound_db (db s.2).

Definition same_owners (s s' : @contract_state Data Code) : Prop :=
  forall id, co_owner <$> contracts s' !! id = co_owner <$> contracts s !! id.

Record step (s s' : call_state) : Prop := {
  step_caller : fr_caller s'.1 = fr_caller s.1;
  step_owner : fr_owner s'.1 = fr_owner s.1;
  step_fair : fair P (db s.2) (db s'.2);
  step_owners : same_owners s.2 s'.2 }.

#[local] Instance step_preorder : PreOrder step.
Proof.
  split.
  - intros s. by split.
  - intros s1 s2 s3 [A1 A2 A3 A4] [B1 B2 B3 B4]. split; [congruence|congruence|by etrans|].
    intros id. by rewrite B4, A4.
Qed.

Lemma same_owners_in s s' : same_owners s s' ->
  (forall id c, contracts s !! id = Some c -> P (co_owner c)) ->
  forall id c, contracts s' !! id = Some c -> P (co_owner c).
Proof.
  intros Hs HP id c Hc. specialize (Hs id). rewrite Hc in Hs. cbn in Hs.
  destruct (contracts s !! id) as [c0|] eqn:E; [|done]. injection Hs as ->. by eapply HP.
Qed.

Lemma step_good s s' : step s s' -> good s -> sound_db (db s'.2) -> good s'.
Proof.
  intros [E1 E2 _ E3] [(H1 & H2 & H3) _] H. split; [|done]. unfold parties_ok. rewrite E1, E2.
  split_and!; [done|done|]. by eapply same_owners_in.
Qed.

(** From a good state where [R] holds, whatever the outcome, the state stays good and the
    step takes only from parties; a value that is returned satisfies [Q]. *)
Definition triple {A} (R : call_state -> Prop) (m : stM call_state A) (Q : A -> call_state -> Prop) : Prop :=
  forall s, good s -> R s ->
    sound_db (db (m s).2.2) /\ step s (m s).2 /\ forall a, (m s).1 = Ok a -> Q a (m s).2.

Abbreviation any := (fun _ => True).
Abbreviation anything := (fun _ _ => True).

Lemma triple_bind {A B} R (m : stM call_state A) Q (k : A -> stM call_state B) T :
  triple R m Q -> (forall a, triple (Q a) (k a) T) -> triple R (bind m k) T.
Proof.
  intros Hm Hk s Hs HR. destruct (Hm s Hs HR) as (C1 & S1 & Q1). unfold bind.
  destruct (m s) as [[a|e] s1]; cbn in *.
  - destruct (Hk a s1 (step_good _ _ S1 Hs C1) (Q1 a eq_refl)) as (C2 & S2 & Q2).
    split; [done|]. split; [by etrans|done].
  - split; [done|]. split; [done|]. done.
Qed.

Lemma triple_weaken {A} (R R' : call_state -> Prop) (m : stM call_state A) (Q Q' : A -> call_state -> Prop) :
  triple R m Q -> (forall s, R' s -> R s) -> (forall a s, Q a s -> Q' a s) -> triple R' m Q'.
Proof. intros H H1 H2 s Hs HR. destruct (H s Hs (H1 _ HR)) as (C & S & HQ). split; [done|]. split; [done|]. auto. Qed.

(** A step that changes nothing. *)
Lemma triple_pure {A} R (m : stM call_state A) (Q : A -> call_state -> Prop) :
  (forall s, (m s).2 = s) -> (forall s a, good s -> R s -> (m s).1 = Ok a -> Q a s) -> triple R m Q.
Proof.
  intros H1 H2 s Hs HR. rewrite H1. split; [apply Hs|]. split; [reflexivity|]. intros a Ha. by eapply H2.
Qed.
Lemma triple_reading {A} (R : call_state -> Prop) (f : frame -> contract_state -> result A) (Q : A -> call_state -> Prop) :
  (forall s a, good s -> R s -> f s.1 s.2 = Ok a -> Q a s) -> triple R (reading f) Q.
Proof. intros H. by apply triple_pure. Qed.
Lemma triple_get {A} (R : call_state -> Prop) (f : call_state -> A) (Q : A -> call_state -> Prop) :
  (forall s, good s -> R s -> Q (f s) s) -> triple R (get f) Q.
Proof. intros H. apply triple_pure; [done|]. intros s a Hs HR [= <-]. by apply H. Qed.
Lemma triple_lift {A} (R : call_state -> Prop) (r : result A) (Q : A -> call_state -> Prop) :
  (forall s a, R s -> r = Ok a -> Q a s) -> triple R (lift r) Q.
Proof. intros H. apply triple_pure; [done|]. intros s a _ HR E. by eapply H. Qed.
Lemma triple_ret {A} (R : call_state -> Prop) (a : A) : triple R (ret a) anything.
Proof. by apply triple_pure. Qed.
Lemma triple_throw {A} R e (Q : A -> call_state -> Prop) : triple R (throw e) Q.
Proof. by apply triple_pure. Qed.

(** A step that changes the state. *)
Lemma triple_modify (R : call_state -> Prop) (f : call_state -> call_state) :
  (forall s, good s -> R s -> sound_db (db (f s).2) /\ step s (f s)) -> triple R (modify f) anything.
Proof. intros H s Hs HR. destruct (H s Hs HR) as [C S]. split; [done|]. by split. Qed.
Lemma triple_logged R b l : triple R (logged b l) anything.
Proof. apply triple_modify. intros [f s] Hs _. split; [apply Hs|]. destruct b; by split. Qed.

(** The database and the owners stay. *)
Lemma triple_rest (R : call_state -> Prop) (f : contract_state -> contract_state) :
  (forall s, db (f s) = db s /\ same_owners s (f s)) -> triple R (on_state f) anything.
Proof.
  intros H. apply triple_modify. intros [fr s] Hs _. destruct (H s) as [E O]. cbn. rewrite E. split; [apply Hs|].
  split; cbn; [done|done|by rewrite E|done].
Qed.

(** ** Each function *)

Lemma fair_accounts m d : fair P d (set_accounts m d).
Proof. split; [intros x; apply set_accounts_books|done|]. intros id a H. by exists a. Qed.

Lemma fair_put_item id a a' d : nh_assets (nh d) !! id = Some a ->
  (~ P (nh_asset_owner a) -> nh_asset_owner a' = nh_asset_owner a) -> fair P d (put_nh_asset id a' d).
Proof.
  intros Ha Ho. split; [done|done|]. intros i b Hb. cbn.
  destruct (decide (i = id)) as [->|n].
  - rewrite lookup_insert_eq. exists a'. split; [done|]. rewrite Hb in Ha. by injection Ha as ->.
  - rewrite lookup_insert_ne by done. by exists b.
Qed.

Lemma sound_put_item id a a' d : nh_assets (nh d) !! id = Some a -> sound_db d -> sound_db (put_nh_asset id a' d).
Proof.
  intros Ha [Hc Hf]. split; [intros x Hx; by apply (coins_ok_ext x d), Hc|]. intros i b. cbn. destruct (decide (i = id)) as [->|n].
  - intros _. by eapply Hf.
  - rewrite lookup_insert_ne by done. apply Hf.
Qed.

(** Accounts may change as long as locks stay covered. *)
Lemma sound_accounts acc o d : sound_db d ->
  (forall x, x <> GRAPHENE_ASSET_GAS -> 0 <= locked_of o x <= amount (get_balance acc x d)) ->
  sound_db (set_accounts (<[acc := o]> (accounts d)) d).
Proof.
  intros [Hc Hf] Ho. split; [|exact Hf]. intros x Hx. destruct (Hc x Hx) as [H1 H2 H3]. split; [exact H1|exact H2|].
  intros i a. cbn [accounts set_accounts]. destruct (decide (i = acc)) as [->|n].
  - rewrite lookup_insert_eq. intros [= <-]. by apply Ho.
  - rewrite lookup_insert_ne by done. apply H3.
Qed.

Definition item_is (p : Z * nh_asset_object) (s : call_state) : Prop := nh_assets (nh (db s.2)) !! p.1 = Some p.2.

Lemma get_nh_asset_some id d a : get_nh_asset id d = Ok a -> nh_assets (nh d) !! id = Some a.
Proof. unfold get_nh_asset, get_or. by destruct (nh_assets (nh d) !! id) as [b|]; [intros [= ->]|]. Qed.

Lemma get_item_triple R r : triple R (get_item r) item_is.
Proof.
  apply triple_reading. intros s [id a] _ _ H. apply rbind_ok in H as (i & _ & H).
  apply rbind_ok in H as (b & H & [= <- <-]). by apply get_nh_asset_some.
Qed.

Lemma put_item_triple id a a' :
  (~ P (nh_asset_owner a) -> nh_asset_owner a' = nh_asset_owner a) ->
  triple (item_is (id, a)) (put_item id a') anything.
Proof.
  intros Ho. apply triple_modify. intros [f s] [_ Hs] Hi. unfold item_is in Hi. cbn in *. split; [by eapply sound_put_item|].
  split; [done|done| |done]. cbn. by eapply fair_put_item.
Qed.

(** A check between finding an item and changing it. *)
Lemma item_check {A} p (f : frame -> contract_state -> result A) (F : A -> Prop) :
  (forall s a, good s -> f s.1 s.2 = Ok a -> F a) ->
  triple (item_is p) (reading f) (fun a s => F a /\ item_is p s).
Proof. intros H. apply triple_reading. intros s a Hs Hi E. split; [by eapply H|done]. Qed.

(** What is checked first does not matter. *)
Lemma triple_fact {A} (F : Prop) R (m : stM call_state A) Q :
  (F -> triple R m Q) -> triple (fun s => F /\ R s) m Q.
Proof. intros H s Hs [HF HR]. by apply (H HF). Qed.

Lemma transfer_by_contract_triple from_ to_ token b :
  P from_ -> triple any (transfer_by_contract from_ to_ token b) anything.
Proof.
  intros HP. eapply triple_bind with (Q := fun _ _ => asset_id token <> GRAPHENE_ASSET_GAS /\ 0 <= amount token).
  { apply triple_reading. intros s a _ _ H. apply rbind_ok in H as (u & H1 & H). do 5 apply rbind_ok in H as (? & _ & H).
    do 2 apply rbind_ok in H as (? & _ & H). unfold fc_assert in *. case_if_in H; [|done]. case_if_in H1; [|done].
    bool_to_prop. split; [done|lia]. }
  intros ?. eapply triple_bind with (Q := fun neg _ => asset_id token <> GRAPHENE_ASSET_GAS /\ 0 <= amount token
    /\ asset_neg token = Ok neg); [apply triple_lift; naive_solver|].
  intros neg [f s] Hs (Hg & Ha & Hn). unfold bind, on_db. cbn [fst snd].
  destruct (adjust_balance from_ neg false (db s)) as [d1|] eqn:E1; [|split; [apply Hs|by split]].
  destruct (coins_move P from_ to_ token neg (db s) d1 Hg Ha HP (proj2 Hs) Hn E1) as (d2 & E2 & C2 & F2).
  cbn [fst snd db set_db]. rewrite E2. split; [|split; [|done]]; destruct b; cbn; [done|done|split; done|split; done].
Qed.

Lemma transfer_from_triple from_ to_ amt sym b :
  P from_ -> triple any (contract_transfer_from from_ to_ amt sym b) anything.
Proof.
  intros HP. eapply triple_bind; [by apply triple_reading with (Q := anything)|]. intros t.
  eapply triple_bind; [by apply triple_reading with (Q := anything)|]. intros x.
  eapply triple_bind; [by apply triple_lift with (Q := anything)|]. intros n. by apply transfer_by_contract_triple.
Qed.

Lemma locked_of_change x t m o : locked_of (set_locked_total m o) x = default 0 (m !! x) /\
  locked_of (set_nft_locked t o) x = locked_of o x.
Proof. done. Qed.

Lemma adjust_lock_triple sym amt : triple any (adjust_lock_asset sym amt) anything.
Proof.
  eapply triple_bind with (Q := fun p s => forall x, x <> GRAPHENE_ASSET_GAS ->
    0 <= locked_of p.1.2 x <= amount (get_balance p.1.1 x (db s.2))).
  - apply triple_reading. intros s [[owner o'] details] [_ Hs] _ H x Hx. apply rbind_ok in H as (u1 & _ & H).
    apply rbind_ok in H as (o & Ho & H). apply rbind_ok in H as (target & _ & H). apply rbind_ok in H as (u2 & Hg & H).
    apply rbind_ok in H as (mine & _ & H). apply rbind_ok in H as (u3 & _ & H). apply rbind_ok in H as (tot & _ & H).
    apply rbind_ok in H as (u4 & Ht & H). injection H as <- <- <-. unfold fc_assert in Ht. case_if_in Ht; [|done].
    bool_to_prop. cbn [fst snd].
    destruct (locked_of_change x [] (if tot =? 0 then delete target (locked_total o) else <[target := tot]> (locked_total o)) o) as [-> _].
    unfold get_account, get_or in Ho. destruct (accounts (db s.2) !! _) as [o0|] eqn:Eo; [injection Ho as ->|done].
    pose proof (locks_covered _ _ (sound_coins _ Hs x Hx) _ _ Eo) as Hl. unfold locked_of in Hl.
    destruct (decide (x = target)) as [->|n].
    + case_if; bool_to_prop; [rewrite lookup_delete_eq|rewrite lookup_insert_eq]; cbn [default from_option id]; lia.
    + case_if; [rewrite lookup_delete_ne by done|rewrite lookup_insert_ne by done]; done.
  - intros [[owner o'] details]. apply triple_modify. intros [f s] [_ Hs] Ho. cbn in *. split; [by apply sound_accounts|].
    split; [done|done| |done]. cbn. apply fair_accounts.
Qed.

Lemma lock_nft_triple r b : triple any (adjust_lock_nft_asset r b) anything.
Proof.
  eapply triple_bind; [apply get_item_triple|]. intros [id a].
  eapply triple_bind with (Q := fun p s => forall x, x <> GRAPHENE_ASSET_GAS ->
    0 <= locked_of p.1.2 x <= amount (get_balance p.1.1 x (db s.2))).
  - apply triple_reading. intros s [[owner o'] m] [_ Hs] _ H x Hx. apply rbind_ok in H as (o & Ho & H).
    apply rbind_ok in H as (u & _ & H). apply rbind_ok in H as ([all det] & _ & H). injection H as <- <- <-.
    unfold get_account, get_or in Ho. destruct (accounts (db s.2) !! _) as [o0|] eqn:Eo; [injection Ho as ->|done].
    exact (locks_covered _ _ (sound_coins _ Hs x Hx) _ _ Eo).
  - intros [[owner o'] m]. apply triple_modify. intros [f s] [_ Hs] Ho. cbn in *. split; [by apply sound_accounts|].
    split; [done|done| |done]. cbn. apply fair_accounts.
Qed.

Lemma create_nft_triple digest o dl v de b : triple any (create_nft_asset digest o dl v de b) anything.
Proof.
  eapply triple_bind with (Q := fun p s => exists a, p.2 = set_nh (set_next_nh_asset (next_nh_asset (nh (db s.2)) + 1)
    (set_nh_assets (<[next_nh_asset (nh (db s.2)) := a]> (nh_assets (nh (db s.2)))) (nh (db s.2)))) (db s.2)).
  { apply triple_reading. intros s [[cr id] d] _ _ H. apply rbind_ok in H as ([k c] & _ & H).
    do 3 apply rbind_ok in H as (? & _ & H). injection H as _ _ <-. eexists. reflexivity. }
  intros [[cr id] d]. eapply triple_bind with (Q := anything).
  - apply triple_modify. intros [f s] [_ Hs] (a & E). cbn in E. subst d. destruct Hs as [Hc Hf]. cbn in *. split.
    + split; [intros x Hx; by apply (coins_ok_ext x (db s)), Hc|]. intros i b'. cbn.
      destruct (decide (i = next_nh_asset (nh (db s)))) as [->|n]; [lia|]. rewrite lookup_insert_ne by done.
      intros Hi. apply Hf in Hi. lia.
    + split; [done|done| |done]. split; [done|done|]. intros i b' Hi. exists b'. cbn. split; [|done].
      rewrite lookup_insert_ne; [done|]. intros E. rewrite <- E in Hi. apply Hf in Hi. lia.
  - intros ?. eapply triple_bind; [apply triple_logged|]. intros ?. apply triple_ret.
Qed.

Lemma describe_triple r k v b : triple any (nht_describe_change r k v b) anything.
Proof.
  eapply triple_bind; [apply get_item_triple|]. intros [id a].
  eapply triple_bind; [by apply triple_reading with (Q := anything)|]. intros [[c key] [m|]]; [|apply triple_ret].
  eapply triple_bind; [by apply triple_rest|]. intros ?. apply triple_logged.
Qed.

(** The items a party owns may go to anyone; of others only the rights. *)
Lemma transfer_nht_triple from_ to_ r b : P from_ -> triple any (transfer_nht from_ to_ r b) anything.
Proof.
  intros HP. eapply triple_bind; [apply get_item_triple|]. intros [id a].
  eapply triple_bind; [apply (item_check (id, a)) with (F := fun _ => nh_asset_owner a = from_)|].
  { intros s u _ H. apply rbind_ok in H as (u1 & H & _). unfold assert_asset_transfer in H.
    apply rbind_ok in H as (u2 & H & _). unfold fc_assert in H. case_if_in H; [|done]. by bool_to_prop. }
  intros ?. eapply triple_bind; [apply triple_fact; intros Ho; apply put_item_triple; by rewrite Ho|].
  intros ?. apply triple_logged.
Qed.

Lemma transfer_ownership_triple from_ to_ r b : P from_ -> triple any (transfer_nft_ownership from_ to_ r b) anything.
Proof.
  intros HP. eapply triple_bind; [apply get_item_triple|]. intros [id a].
  eapply triple_bind; [apply (item_check (id, a)) with (F := fun _ => nh_asset_owner a = from_)|].
  { intros s u _ H. apply rbind_ok in H as (u2 & H & _). unfold fc_assert in H. case_if_in H; [|done]. by bool_to_prop. }
  intros ?. eapply triple_bind; [apply triple_fact; intros Ho; apply put_item_triple; by rewrite Ho|].
  intros ?. apply triple_logged.
Qed.

Lemma rights_triple {A} (r : hash_or_id) (c : nh_asset_object -> result A) (f : nh_asset_object -> nh_asset_object) b l :
  (forall a, nh_asset_owner (f a) = nh_asset_owner a) ->
  triple any (bind (get_item r) (fun p => let (id, a) := (p : Z * nh_asset_object) in
    bind (lift (c a)) (fun _ => bind (put_item id (f a)) (fun _ => logged b (l id a))))) anything.
Proof.
  intros Hf. eapply triple_bind; [apply get_item_triple|]. intros [id a].
  eapply triple_bind; [apply triple_lift with (Q := fun _ => item_is (id, a)); naive_solver|].
  intros ?. eapply triple_bind; [apply put_item_triple; done|]. intros ?. apply triple_logged.
Qed.

Lemma limit_list_triple r l w b : triple any (set_nht_limit_list r l w b) anything.
Proof.
  eapply triple_bind; [apply get_item_triple|]. intros [id a].
  eapply triple_bind; [by apply triple_reading with (Q := anything)|]. intros [c l'].
  eapply triple_bind; [by apply triple_rest|]. intros ?. apply triple_logged.
Qed.

Lemma relate_triple sg r1 r2 b l : triple any (contract_relate_nh_asset sg r1 r2 b l) anything.
Proof.
  eapply triple_bind; [apply get_item_triple|]. intros p. eapply triple_bind with (Q := fun c s => item_is p s).
  { apply triple_pure; [done|]. intros s a _ HR _. exact HR. }
  intros [cid ca]. destruct p as [pid pa]. eapply triple_bind; [apply triple_reading with (Q := fun _ => item_is (pid, pa)); naive_solver|].
  intros [[c k] known]. eapply triple_bind with (Q := anything); [|intros ?; apply triple_logged].
  intros [f s] [Hp Hs] Hi. unfold item_is in Hi. cbn in Hi. unfold on_db. cbn [fst snd].
  match goal with |- context [match ?m with _ => _ end] => destruct m as [d'|] eqn:E end;
    [|split; [exact Hs|]; by split].
  assert (exists a1 b1, d' = put_nh_asset cid b1 (put_nh_asset pid a1 (db s)) /\ nh_asset_owner a1 = nh_asset_owner pa
    /\ exists b0, nh_assets (nh (put_nh_asset pid a1 (db s))) !! cid = Some b0 /\ nh_asset_owner b1 = nh_asset_owner b0)
    as (a1 & b1 & -> & O1 & b0 & Hb0 & O2).
  { destruct b.
    - apply rbind_ok in E as (b0 & E & [= <-]). apply get_nh_asset_some in E. by eexists _, _; split; [|split; [|exists b0]].
    - apply rbind_ok in E as (m & _ & E). apply rbind_ok in E as (b0 & E0 & E). apply rbind_ok in E as (m2 & _ & [= <-]).
      apply get_nh_asset_some in E0. by eexists _, _; split; [|split; [|exists b0]]. }
  cbn [fst snd db set_db]. split; [by eapply sound_put_item, sound_put_item|]. split; [|done].
  split; [done|done| |done]. cbn [fst snd db set_db]. transitivity (put_nh_asset pid a1 (db s)); by eapply fair_put_item.
Qed.

Lemma modify_contract_triple R f : (forall c, co_owner (f c) = co_owner c) -> triple R (modify_contract f) anything.
Proof.
  intros Hf. eapply triple_bind; [by apply triple_reading with (Q := anything)|]. intros id. apply triple_rest.
  intros s. split; [done|]. intros i. cbn. rewrite lookup_alter. case_decide as E; [subst i|done].
  destruct (contracts s !! id); cbn; [by rewrite Hf|done].
Qed.

Lemma assert_owner_triple R : triple R assert_owner anything.
Proof. by apply triple_reading. Qed.

Lemma quietly_triple m : triple any m anything -> triple any (quietly m) anything.
Proof. intros H. eapply triple_bind; [exact H|]. intros ?. apply triple_ret. Qed.

Lemma sending_triple o to_ k : (forall a b, P a -> triple any (k a b) anything) -> triple any (sending o to_ k) anything.
Proof.
  intros H. eapply triple_bind with (Q := fun q _ => P q.1).
  - apply triple_reading. intros s a [(H1 & H2 & _) _] _ E. apply rbind_ok in E as (t & _ & [= <-]). by destruct o.
  - intros [a b]. eapply triple_bind with (Q := anything); [|intros ?; apply triple_ret]. intros s Hs HP. by apply (H a b HP).
Qed.

(** Scripts that do not pledge for gas. *)
Definition no_pledge_call (a : @api Data Value) : Prop :=
  match a with api_update_collateral_for_gas _ _ => False | _ => True end.
Fixpoint no_pledge (p : @script Data Value) : Prop :=
  match p with
  | script_end | script_error => True
  | script_call a k => no_pledge_call a /\ forall r, no_pledge (k r)
  end.

Variable digest : string -> Z -> Z.
Variable sigkeys : gset Z.
Variable skip_authority : bool.

Lemma run_api_triple a : no_pledge_call a -> triple any (run_api (Code:=Code) (Value:=Value) digest sigkeys skip_authority a) anything.
Proof.
  assert (Hp : forall (o : bool) {A} (k : frame -> stM call_state A), (forall f, P (party o f) -> triple any (k f) anything) ->
    triple any (bind (get (fun s => s.1)) k) anything).
  { intros o A k H. eapply triple_bind with (Q := fun f _ => P (party o f)).
    - apply triple_get. intros s [(H1 & H2 & _) _] _. by destruct o.
    - intros f s Hs HP. by apply (H f). }
  intros Ha. destruct a; cbn [run_api]; try done.
  - apply quietly_triple, triple_modify. intros [f s] Hs _. split; [apply Hs|by split].
  - by apply triple_reading.
  - apply quietly_triple, triple_modify. intros [f s] Hs _. split; [apply Hs|by split].
  - by apply triple_reading.
  - by apply triple_reading.
  - apply (Hp from_owner). intros f HP. by apply quietly_triple, transfer_from_triple.
  - apply quietly_triple, adjust_lock_triple.
  - eapply triple_bind; [by apply triple_reading with (Q := anything)|]. intros q.
    eapply triple_bind; [apply create_nft_triple|]. intros ?. apply triple_ret.
  - apply quietly_triple, describe_triple.
  - apply sending_triple. intros a b HP. by apply transfer_nht_triple.
  - apply sending_triple. intros a b HP. by apply rights_triple with (f := with_active b).
  - apply sending_triple. intros a b HP. by apply transfer_ownership_triple.
  - apply sending_triple. intros a b HP. by apply rights_triple with (f := with_dealership b).
  - apply quietly_triple, limit_list_triple.
  - apply (Hp false). intros f HP. apply quietly_triple, relate_triple.
  - apply quietly_triple, lock_nft_triple.
  - apply quietly_triple. eapply triple_bind; [apply assert_owner_triple|]. intros ?. by apply modify_contract_triple.
  - apply quietly_triple. eapply triple_bind; [apply assert_owner_triple|]. intros ?.
    eapply triple_bind; [by apply triple_lift with (Q := anything)|]. intros n. by apply modify_contract_triple.
  - apply quietly_triple. eapply triple_bind; [apply assert_owner_triple|]. intros ?.
    eapply triple_bind; [by apply triple_lift with (Q := anything)|]. intros n. by apply modify_contract_triple.
  - by apply quietly_triple, modify_contract_triple.
  - eapply triple_bind; [by apply triple_reading with (Q := anything)|]. intros q. apply quietly_triple, triple_modify.
    intros [fr s] Hs _. split; [apply Hs|by split].
  - apply triple_throw.
Qed.

(** ** Scripts and calls *)

Variable interpret : Code -> string -> list Value -> @frame Data Code -> @script Data Value.
Variable pack_size : Data -> Z.
Variable empty_data : Data.
Variable private_size total_size : Z.
Hypothesis scripts_no_pledge : forall code fn values f, no_pledge (interpret code fn values f).

Abbreviation run_with := (run_with (Code:=Code) digest sigkeys skip_authority).
Abbreviation run_script := (run_script digest interpret pack_size empty_data private_size total_size sigkeys skip_authority).
Abbreviation do_apply_function := (do_apply_function interpret pack_size empty_data private_size total_size).
Abbreviation invoke_contract_function :=
  (invoke_contract_function interpret pack_size empty_data private_size total_size sigkeys skip_authority).

Lemma run_with_triple invoke : (forall c fn values, triple any (invoke c fn values) anything) ->
  forall p, no_pledge p -> triple any (run_with invoke p) anything.
Proof.
  intros Hi. induction p as [| |a k IH]; intros Hp; [apply triple_ret|apply triple_throw|].
  destruct Hp as [Ha Hk]. intros s Hs _. cbn [Contracts.run_with].
  set (m := match a with api_invoke_contract_function c fn values => invoke c fn values
            | _ => run_api digest sigkeys skip_authority a end).
  assert (Hm : triple any m anything) by (unfold m; destruct a; try apply Hi; by apply run_api_triple).
  destruct (Hm s Hs I) as (C1 & S1 & _). pose proof (step_good _ _ S1 Hs C1) as G1.
  assert (Hn : forall r, let t := run_with invoke (k r) (m s).2 in sound_db (db t.2.2) /\ step s t.2
    /\ forall a0 : (), t.1 = Ok a0 -> True).
  { intros r. destruct (IH r (Hk r) _ G1 I) as (C2 & S2 & _). split; [done|]. split; [by etrans|done]. }
  destruct (m s) as [[u|[]] s1]; try exact (Hn _). by split.
Qed.

(** A state on its own, as [good] says of a call. *)
Definition good_state (s : @contract_state Data Code) : Prop :=
  (forall id c, contracts s !! id = Some c -> P (co_owner c)) /\ sound_db (db s).
Definition fair_state (s s' : @contract_state Data Code) : Prop := fair P (db s) (db s') /\ same_owners s s'.

Lemma store_tables_fair had f s : good_state s ->
  let s' := (store_tables pack_size private_size total_size had f s).2 in good_state s' /\ fair_state s s'.
Proof.
  intros [Ho Hs]. assert (Hr : good_state s /\ fair_state s s) by (split; [done|split; [reflexivity|done]]).
  unfold store_tables, bind, lift, get, modify. destruct (rbind _ _); [|exact Hr]. cbn.
  destruct (fc_assert _); [|exact Hr]. cbn [snd].
  assert (Hso : same_owners s (set_contracts (alter (set_contract_data (contract_data (fr_contract f)))
      (fr_contract_id f) (contracts s)) s)).
  { intros id. cbn. rewrite lookup_alter. case_decide as E; [subst id|done]. by destruct (contracts s !! _). }
  split; [|split; [reflexivity|exact Hso]]. split; [|exact Hs]. by eapply same_owners_in.
Qed.

Lemma do_apply_function_fair run caller id c fn values s :
  (forall p, no_pledge p -> triple any (run p) anything) ->
  P caller -> P (co_owner c) -> good_state s ->
  let s' := (do_apply_function run caller id c fn values s).2 in good_state s' /\ fair_state s s'.
Proof.
  intros Hrun Hc Ho Hs. assert (Hr : good_state s /\ fair_state s s) by (split; [done|split; [reflexivity|done]]).
  unfold Contracts.do_apply_function, do_actual_contract_function, bind, lift, get, ret. destruct (get_or _ _) as [arity|]; [|exact Hr].
  destruct (rbind _ _); [|exact Hr].
  set (f := mk_frame _ _ _ _ _ _). set (p := interpret _ _ _ f).
  assert (Hg : good (f, s)) by (split; [split_and!; [exact Hc|exact Ho|apply Hs]|apply Hs]).
  destruct (Hrun p (scripts_no_pledge _ _ _ _) (f, s) Hg I) as (C & S & _).
  pose proof (step_good _ _ S Hg C) as G.
  destruct (run p (f, s)) as [r [f' s1]]. cbn [fst snd] in *.
  assert (H1 : good_state s1 /\ fair_state s s1)
    by (split; [split; [apply G|done]|split; [apply S|apply S]]).
  destruct r as [u|[]]; try exact H1.
  destruct H1 as [G1 [F1 O1]]. destruct (store_tables_fair (bool_decide (is_Some (account_contract_data s !! (caller, id)))) f' s1 G1)
    as [G2 [F2 O2]].
  destruct (store_tables _ _ _ _ _ s1) as [[u'|e] s2]; cbn [fst snd] in *;
    (split; [done|]; split; [by etrans|]; intros i; by rewrite O2, O1).
Qed.

(** A step on the rest of the state. *)
Lemma on_rest_triple {A} (R : call_state -> Prop) (m : stM contract_state A) :
  (forall f s, good (f, s) -> R (f, s) -> good_state (m s).2 /\ fair_state s (m s).2) -> triple R (on_rest m) anything.
Proof.
  intros H [f s] Hs HR. destruct (H f s Hs HR) as [[_ G] [F O]]. unfold on_rest. cbn [fst snd].
  destruct (m s) as [r s']. cbn [fst snd] in *. by split; [|split; [split|]].
Qed.

Lemma pop_path_triple R : triple R (on_rest pop_path) anything.
Proof.
  apply on_rest_triple. intros f s [(_ & _ & Ho) Hs] _. unfold pop_path. destruct (invoking_path s); cbn [snd];
    (split; [split; [exact Ho|exact Hs]|split; [reflexivity|done]]).
Qed.

Lemma triple_try {A} R (m : stM call_state A) h Q : triple R m Q -> (forall e, triple any (h e) Q) ->
  triple R (try_catch m h) Q.
Proof.
  intros Hm Hh s Hs HR. destruct (Hm s Hs HR) as (C & S & HQ). unfold try_catch.
  assert (He : forall e, let t := h e (m s).2 in sound_db (db t.2.2) /\ step s t.2 /\ forall a, t.1 = Ok a -> Q a t.2).
  { intros e. destruct (Hh e _ (step_good _ _ S Hs C) I) as (C2 & S2 & Q2). split; [done|]. split; [by etrans|done]. }
  destruct (m s) as [[a|[]] s1]; try exact (He _); by split.
Qed.

Lemma invoke_triple run r fn values : (forall p, no_pledge p -> triple any (run p) anything) ->
  triple any (invoke_contract_function run r fn values) anything.
Proof.
  intros Hrun. eapply triple_bind; [by apply triple_reading with (Q := anything)|]. intros [id c].
  apply triple_try; [|intros e; eapply triple_bind; [by apply triple_rest|intros ?; apply triple_throw]].
  eapply triple_bind with (Q := fun f _ => P (fr_caller f)); [apply triple_get; intros s Hs _; apply Hs|]. intros f.
  eapply triple_bind with (Q := fun _ _ => P (fr_caller f)); [apply triple_get; done|]. intros path.
  eapply triple_bind with (Q := fun _ _ => P (fr_caller f)).
  { destruct (existsb _ path); [apply triple_throw|]. intros s Hs HP.
    destruct (triple_rest any (set_invoking_path (path ++ [co_name c])) ltac:(done) s Hs I) as (C & S & _). by split; [|split]. }
  intros ?. eapply triple_bind with (Q := fun _ _ => P (fr_caller f)); [by apply triple_lift|].
  intros ?. eapply triple_bind with (Q := fun _ _ => P (fr_caller f)); [by apply triple_lift|]. intros vs.
  eapply triple_bind with (Q := fun c _ => P (fr_caller f) /\ P (co_owner c)).
  { apply triple_reading. intros s c' [(_ & _ & Ho) _] HP E. split; [done|]. unfold evaluate_contract_authority in E.
    apply rbind_ok in E as (c0 & E0 & E). apply rbind_ok in E as (u & _ & [= <-]). unfold get_or in E0.
    destruct (contracts s.2 !! id) eqn:Ec; [injection E0 as ->|done]. by eapply Ho. }
  intros c'. eapply triple_bind; [apply on_rest_triple; intros fr s [(_ & _ & Ho) Hs] [H1 H2]; by apply do_apply_function_fair|].
  intros f'. eapply triple_bind.
  { apply triple_modify. intros [fr s] Hs _. split; [apply Hs|]. by destruct (existed_pv f'). }
  intros ?. eapply triple_bind; [apply pop_path_triple|]. intros ?. apply triple_ret.
Qed.

Lemma run_script_triple depth : forall p, no_pledge p -> triple any (run_script depth p) anything.
Proof.
  induction depth as [|n IH]; intros p Hp.
  - apply run_with_triple; [|done]. intros. apply triple_throw.
  - apply run_with_triple; [|done]. intros. by apply invoke_triple.
Qed.
End Logic.

(** ** Properties *)

(** C15: whatever a contract's script does, catching exceptions included, a call takes only
    from the caller and from owners of contracts.  For any interpreter whose scripts do not
    pledge for gas, any nesting of calls and any outcome: no asset's total or supply changes,
    the balances of other accounts do not fall, and items of other accounts stay theirs;
    of every asset but gas, balances stay non-negative and representable, and what is locked
    stays covered (gas balances may be negative, and are only part of the totals here). *)
Theorem contract_call_fair {Data Code Value : Type} (digest : string -> Z -> Z)
    (interpret : Code -> string -> list Value -> @frame Data Code -> @script Data Value)
    (pack_size : Data -> Z) (empty_data : Data) (private_size total_size : Z) (sigkeys : gset Z) (skip : bool)
    (depth : nat) (caller id : Z) (fn : string) (values : list Value) (s : contract_state)
    (Hs : sound_db (db s)) (Hp : forall code fn values f, no_pledge (interpret code fn values f)) :
  let s' := (call_contract digest interpret pack_size empty_data private_size total_size sigkeys skip depth
               caller id fn values s).2 in
  let party acc := acc = caller \/ exists i c, contracts s !! i = Some c /\ co_owner c = acc in
  sound_db (db s') /\ fair party (db s) (db s').
Proof.
  intros s' party. unfold s', call_contract, bind, get, lift.
  destruct (call_do_evaluate sigkeys skip id s) as [c|] eqn:E; [|by split]. cbn [fst snd].
  assert (Ho : forall i c, contracts s !! i = Some c -> party (co_owner c)) by (intros i c0 Hc; right; eauto).
  assert (Hc : party (co_owner c)).
  { unfold call_do_evaluate, evaluate_contract_authority, get_or in E. apply rbind_ok in E as (? & _ & E).
    destruct (contracts s !! id) as [c0|] eqn:Ec; [|done]. apply rbind_ok in E as (? & [= <-] & E).
    apply rbind_ok in E as (? & _ & [= <-]). by eapply Ho. }
  destruct (do_apply_function_fair party interpret pack_size empty_data private_size total_size Hp
    (run_script digest interpret pack_size empty_data private_size total_size sigkeys skip depth) caller id c fn values s)
    as [[_ G] [F _]]; [|by left|done|done|done].
  intros p Hn. by apply run_script_triple.
Qed.

(** A contract of account 5, number 1, called by account 6. *)
Definition demo_contract : @contract_object unit (@script unit unit) :=
  mk_contract 5 "contract.demo" 0 100 false 7 false 0 tt {["run" := None]} script_end.
Definition demo_contracts (d : database) (p : @script unit unit) : contract_state :=
  mk_cs d {[ 1 := set_code 7 {["run" := None]} p demo_contract ]} 2 ∅ ∅ ∅ ∅ ∅ [].
Definition demo_call : stM contract_state frame :=
  call_contract (Value := unit) (fun _ _ => 0) (fun code _ _ _ => code) (fun _ => 0) tt 100 100 ∅ true 3 6 1 "run" [].

(** A script that pays 300 from the owner, fails to pay more than the caller has, and goes
    on. *)
Definition demo_payments : @script unit unit :=
  script_call (api_transfer true (by_id 6) (double_of_int64 300) (by_id CORE) true) (fun _ =>
  script_call (api_transfer false (by_id 5) (double_of_int64 9000) (by_id CORE) true) (fun r =>
  match r with Ok _ => script_error | Err _ => script_end end)).

Lemma demo_gas_sound : sound_db demo_gas_db.
Proof.
  split; [|done]. intros x Hx.
  assert (Hb : forall o, amount (get_balance o x demo_gas_db) = if decide ((o, x) = (5, CORE)) then 999600 else 0).
  { intros o. rewrite get_balance_default.
    change (account_balances demo_gas_db) with (<[(5, CORE) := 999600]> ({[ (6, GRAPHENE_ASSET_GAS) := 20000 ]} : gmap (Z * Z) Z)).
    case_decide as E; [by rewrite E, lookup_insert_eq|]. rewrite lookup_insert_ne by congruence.
    rewrite lookup_singleton_ne by congruence. done. }
  split.
  - intros o. rewrite Hb. by case_decide.
  - change (in_balances x (account_balances demo_gas_db)) with
      (in_balances x (<[(5, CORE) := 999600]> ({[ (6, GRAPHENE_ASSET_GAS) := 20000 ]} : gmap (Z * Z) Z))).
    rewrite in_balances_insert. rewrite <- insert_empty, in_balances_insert.
    change (in_balances x ∅) with (sum_map (fun k v => in_asset x (mk_asset v k.2)) (∅ : gmap (Z * Z) Z)).
    rewrite sum_map_empty, lookup_empty, lookup_insert_ne, lookup_empty by done. unfold in_asset. cbn. repeat case_match; lia.
  - intros o a Ho.
    change (accounts demo_gas_db) with (<[5 := basic_account ∅ None]> ({[ 6 := basic_account ∅ None ]} : gmap Z account_object)) in Ho.
    assert (locked_of a x = 0) as ->.
    { apply lookup_insert_Some in Ho as [[_ <-]|[_ Ho]]; [done|]. by apply lookup_singleton_Some in Ho as [_ <-]. }
    rewrite Hb. by case_decide.
Qed.

Lemma contract_call_fair_witness :
  match call_contract (Value := unit) (fun _ _ => 0) (fun _ _ _ _ => demo_payments) (fun _ => 0) tt 100 100 ∅ true 3
          6 1 "run" [] (demo_contracts demo_gas_db script_end) with
  | (Ok f, s') =>
      amount (get_balance 6 CORE (db s')) = 300 /\ total CORE (db s') = total CORE demo_gas_db
      /\ length (contract_affecteds f) = 2%nat
  | _ => False
  end.
Proof.
  pose proof (contract_call_fair (Value := unit) (fun _ _ => 0) (fun _ _ _ _ => demo_payments) (fun _ => 0) tt 100 100 ∅ true
    3 6 1 "run" [] (demo_contracts demo_gas_db script_end) demo_gas_sound) as H.
  destruct H as [_ F]; [intros; split; [done|]; intros ?; split; [done|]; intros []; done|].
  assert (E : match call_contract (Value := unit) (fun _ _ => 0) (fun _ _ _ _ => demo_payments) (fun _ => 0) tt 100 100 ∅ true 3
          6 1 "run" [] (demo_contracts demo_gas_db script_end) with
    | (Ok f, s') => (amount (get_balance 6 CORE (db s')), length (contract_affecteds f)) = (300, 2%nat) | _ => False end)
    by (vm_compute; reflexivity).
  destruct (call_contract _ _ _ _ _ _ _ _ _ _ _ _ _ _) as [[f|] s']; [|done]. injection E as E1 E2.
  split; [exact E1|]. split; [apply (fair_total _ _ _ F)|exact E2].
Defined.

(** The finding behind the restriction: [update_collateral_for_gas] records the pledge before
    it takes the units.  A script that catches the exception keeps the pledge, and taking it
    back pays out units that nobody paid in. *)
Theorem pledge_by_script_mints :
  let pledge amt k := script_call (api_update_collateral_for_gas (by_id 6) amt) (fun _ => k) in
  let d := demo_gas_db in
  match demo_call (demo_contracts d (pledge 2000000 (pledge 0 script_end))) with
  | (Ok _, s') => excess CORE (db s') = excess CORE d + 2000000
                  /\ amount (get_balance 6 CORE d) = 0
  | _ => False
  end.
Proof. vm_compute. split; reflexivity. Qed.

(** ** Fees *)

Lemma account_pay_fee_effect account fee percent period d l d' :
  account_pay_fee account fee percent period d = Ok (l, d') -> ledger_ok d ->
  ledger_ok d' /\ (forall x, total x d' = total x d /\ supply x d' = supply x d)
  /\ forall o a, o <> account -> amount (get_balance o a d') = amount (get_balance o a d).
Proof.
  unfold account_pay_fee. intros H Hok. skip_bind H. apply rbind_ok in H as ([fees d1] & H & [= _ <-]).
  destruct (evaluator_pay_fee_effect _ _ _ _ _ _ H Hok) as (_ & L & T & B). split; [done|]. split; [done|].
  intros o a Ho. rewrite B. case_decide; [done|lia].
Qed.

Lemma percent_div fee p : 0 <= fee -> 0 <= p -> Share.div (fee * p) 100 = Ok (fee * p / 100).
Proof.
  intros H1 H2. unfold Share.div, safe_div. cbn. destruct ((fee * p =? int64_min) && false) eqn:E;
    [by rewrite andb_false_r in E|]. f_equal. apply Z.quot_div_nonneg; nia.
Qed.

(** Caller and owner share the fee of a call.  The owner is asked for the contract's
    percentage, rounded down, the caller for the rest (the owner for all of it when the owner
    calls); the two parts make up the fee, nobody else's balance changes, and no asset's
    total or supply does. *)
Theorem contract_fee_shared {Data Code} (caller : Z) (c : @contract_object Data Code) (fee period : Z)
    (d d' : database) (l : list contract_affected)
    (H : pay_fee_impl caller c fee period d = Ok (l, d')) (Hok : ledger_ok d) (Hf : 0 <= fee)
    (Hp : 0 <= user_invoke_share_percent c <= 100) :
  let q := if co_owner c =? caller then 100 else 100 - user_invoke_share_percent c in
  (exists d1 l1 l2, l = l1 ++ l2
     /\ (if 0 <? (if co_owner c =? caller then 0 else user_invoke_share_percent c)
         then account_pay_fee caller (fee - fee * q / 100) (user_invoke_share_percent c) period d = Ok (l1, d1)
         else l1 = [] /\ d1 = d)
     /\ (if 0 <? q then account_pay_fee (co_owner c) (fee * q / 100) q period d1 = Ok (l2, d')
         else l2 = [] /\ d' = d1))
  /\ ledger_ok d' /\ (forall x, total x d' = total x d /\ supply x d' = supply x d)
  /\ forall o a, o <> caller -> o <> co_owner c -> amount (get_balance o a d') = amount (get_balance o a d).
Proof.
  intros q. unfold pay_fee_impl in H.
  set (p := if co_owner c =? caller then 0 else user_invoke_share_percent c) in *.
  assert (Hq : 0 <= q <= 100 /\ q = if co_owner c =? caller then 100 else wrap32 (100 - user_invoke_share_percent c)).
  { unfold q. rewrite wrap32_small by lia. destruct (co_owner c =? caller); lia. }
  destruct Hq as [Hq Eq]. rewrite <- Eq in H. apply rbind_ok in H as (m & Hm & H). apply Share.mul_value in Hm as ->.
  rewrite percent_div in H by lia. cbn [rbind] in H. apply rbind_ok in H as ([l1 d1] & H1 & H).
  apply rbind_ok in H as ([l2 d2] & H2 & [= <- <-]).
  assert (E1 : ledger_ok d1 /\ (forall x, total x d1 = total x d /\ supply x d1 = supply x d)
    /\ (forall o a, o <> caller -> amount (get_balance o a d1) = amount (get_balance o a d))
    /\ (if 0 <? p then account_pay_fee caller (fee - fee * q / 100) (user_invoke_share_percent c) period d = Ok (l1, d1)
        else l1 = [] /\ d1 = d)).
  { rewrite Z.gtb_ltb in H1. destruct (0 <? p) eqn:Ep; [|by injection H1 as <- <-]. apply rbind_ok in H1 as (r & Hr & H1).
    apply Share.sub_value in Hr as ->. assert (p = user_invoke_share_percent c) as Epp.
    { apply Z.ltb_lt in Ep. unfold p in *. destruct (co_owner c =? caller); [lia|done]. }
    rewrite Epp in H1. destruct (account_pay_fee_effect _ _ _ _ _ _ _ H1 Hok) as (L & T & B). done. }
  destruct E1 as (L1 & T1 & B1 & E1).
  assert (E2 : ledger_ok d2 /\ (forall x, total x d2 = total x d1 /\ supply x d2 = supply x d1)
    /\ (forall o a, o <> co_owner c -> amount (get_balance o a d2) = amount (get_balance o a d1))
    /\ (if 0 <? q then account_pay_fee (co_owner c) (fee * q / 100) q period d1 = Ok (l2, d2) else l2 = [] /\ d2 = d1)).
  { rewrite Z.gtb_ltb in H2. destruct (0 <? q) eqn:Ep; [|by injection H2 as <- <-].
    destruct (account_pay_fee_effect _ _ _ _ _ _ _ H2 L1) as (L & T & B). done. }
  destruct E2 as (L2 & T2 & B2 & E2). split; [by exists d1, l1, l2|]. split; [done|]. split.
  - intros x. destruct (T1 x) as [<- <-]. apply T2.
  - intros o a Ho1 Ho2. rewrite B2 by done. by apply B1.
Qed.

(** Account 5 calls a contract of account 6 that asks callers for 30 percent of the fee. *)
Definition demo_shared_db : database :=
  set_account_balances {[ (5, CORE) := 100; (5, GRAPHENE_ASSET_GAS) := 4; (6, CORE) := 50 ]}
    (set_accounts {[ 5 := basic_account ∅ None; 6 := basic_account ∅ None ]} demo_fee_db).
Definition demo_shared : @contract_object unit (@script unit unit) :=
  mk_contract 6 "contract.shared" 0 30 false 7 false 0 tt ∅ script_end.

Lemma demo_shared_db_ok : ledger_ok demo_shared_db.
Proof.
  split; [|by intros id v Hv; cbn in Hv; rewrite lookup_empty in Hv].
  intros k v Hk. cbn in Hk. repeat (apply lookup_insert_Some in Hk as [[_ <-]|[_ Hk]]; [lia|]).
  apply lookup_singleton_Some in Hk as [_ <-]. lia.
Qed.

Lemma contract_fee_shared_witness :
  match pay_fee_impl 5 demo_shared 21 86400 demo_shared_db with
  | Ok (l, d') => l = [contract_fee_share_result 5 30 [mk_asset 3 GRAPHENE_ASSET_GAS]; contract_fee_share_result 6 70 [mk_asset 14 CORE]]
      /\ total CORE d' = total CORE demo_shared_db
  | Err _ => False
  end.
Proof.
  assert (E : match pay_fee_impl 5 demo_shared 21 86400 demo_shared_db with
    | Ok (l, d') => l = [contract_fee_share_result 5 30 [mk_asset 3 GRAPHENE_ASSET_GAS]; contract_fee_share_result 6 70 [mk_asset 14 CORE]]
    | Err _ => False end) by (vm_compute; reflexivity).
  destruct (pay_fee_impl 5 demo_shared 21 86400 demo_shared_db) as [[l d']|] eqn:H; [|done].
  assert (Hp : 0 <= user_invoke_share_percent demo_shared <= 100) by (cbn; lia).
  destruct (contract_fee_shared 5 demo_shared 21 86400 _ _ _ H demo_shared_db_ok ltac:(lia) Hp) as (_ & _ & T & _).
  split; [exact E|]. apply T.
Defined.

(** ** Where the functions do not do what they mean to *)

(** [contract_share_fee] takes the units from the sharer and credits nobody: they leave the
    ledger while the recorded supply stays. *)
Theorem share_fee_vanishes :
  match contract_share_fee_do_apply 5 20 demo_fee_db with
  | Ok d' => total CORE d' = total CORE demo_fee_db - 12 /\ supply CORE d' = supply CORE demo_fee_db
  | Err _ => False
  end.
Proof. vm_compute. split; reflexivity. Qed.

(** Three contracts of account 5, called by account 6; their tables are numbers, and their
    code tells what each function does. *)
Definition demo_code := string -> @script Z unit.
Definition demo_trio (p1 p2 p3 : demo_code) : @contract_state Z demo_code :=
  let c name p := mk_contract 5 name 0 100 false 7 false 0 0 {["run" := Some 0%nat; "note" := Some 0%nat]} p in
  mk_cs demo_gas_db {[ 1 := c "contract.one" p1; 2 := c "contract.two" p2; 3 := c "contract.three" p3 ]} 4
    {[ (6, 1) := 0 ]} ∅ ∅ ∅ ∅ [].
Definition demo_trio_call : stM (@contract_state Z demo_code) frame :=
  call_contract (Value := unit) (fun _ _ => 0) (fun code fn _ _ => code fn) (fun _ => 0) 0 100 100 ∅ true 9 6 1 "run" [].
Definition invoking (id : Z) (fn : string) : @script Z unit :=
  script_call (api_invoke_contract_function (by_id id) fn (Ok [])) (fun _ => script_end).
Definition noting (v : Z) : @script Z unit :=
  script_call (api_write_chain (fun account_data _ => Ok (account_data, v))) (fun _ => script_end).

(** A failed invocation that a script catches has cleared the path of the invocations that
    are still running: when one of them returns, [pop_back] is called on an empty vector. *)
Theorem caught_failure_is_undefined :
  (demo_trio_call (demo_trio (fun _ => invoking 2 "run") (fun _ => invoking 3 "run") (fun _ => script_error))).1
    = Err undefined_behaviour.
Proof. vm_compute. reflexivity. Qed.

(** The contract called first is not on the path, so it can be called again through another
    one; what that inner call wrote is overwritten when the outer call stores its copy. *)
Theorem inner_call_forgotten :
  let one fn := if String.eqb fn "run" then invoking 2 "run" else noting 8 in
  let two (_ : string) := invoking 1 "note" in
  match demo_trio_call (demo_trio one two (fun _ => script_end)) with
  | (Ok f, s') => (contract_data <$> contracts s' !! 1) = Some 0
      /\ contract_affecteds f = [nested_result 2 false [nested_result 1 false []]]
  | _ => False
  end.
Proof. vm_compute. split; reflexivity. Qed.
