(* ===== verification/Proposals.v ===== *)
(** * Proposals

    [proposal_evaluator.cpp], [proposal_object.cpp] and [protocol/proposal.cpp]: proposing
    operations, approving them, taking approvals back and deleting proposals, and the index
    of the proposals that wait for an account.  An agreed proposal is executed by
    [Transaction].  The operations are given through the interface [ProposedOps]. *)

From S2P Require Import Prelude SafeInt Asset Vesting Authority State Ledger Candidates Elections NhAssets.

(** ** Interface of the proposed operations *)

(** [operation_get_required_authorities], [operation_get_impacted_accounts],
    [operation_validate]; the name and owner of the view an operation relates; the begin of
    the work an operation creates. *)
Class ProposedOps (Op : Type) := {
  op_required : Op -> requirements;
  op_impacted : Op -> list Z;
  proposed_validate : Op -> result unit;
  op_relate_view : Op -> option (string * Z);
  op_work_begin : Op -> option Z }.

Section Proposals.
Context {Op : Type} `{ProposedOps Op}.

(** ** State *)

Record proposal := mk_prop {
  pr_expiration_time : Z;
  pr_review_period_time : option Z;
  pr_operations : list Op;
  pr_required_active : gset Z;
  pr_available_active : gset Z;
  pr_required_owner : gset Z;
  pr_available_owner : gset Z;
  pr_available_key : gset Z;
  pr_trx_hash : Z;
  pr_allow_execution : bool;
  pr_trx_expiration : Z;
  pr_trx_reference : option Z }.

(** Proposals, the next instance number, and [_account_to_proposals] of the secondary
    index. *)
Record proposal_state := mk_prop_state {
  ps_proposals : gmap Z proposal;
  ps_next : Z;
  ps_index : gmap Z (gset Z) }.

(** ** The index of required approvals *)

Definition index_insert (id : Z) (l : list Z) (m : gmap Z (gset Z)) : gmap Z (gset Z) :=
  foldl (fun m a => <[a := {[id]} ∪ default ∅ (m !! a)]> m) m l.
Definition index_remove (id : Z) (l : list Z) (m : gmap Z (gset Z)) : gmap Z (gset Z) :=
  foldl (fun m a => match m !! a with
                    | Some s => if bool_decide (s ∖ {[id]} = ∅) then delete a m else <[a := s ∖ {[id]}]> m
                    | None => m
                    end) m l.

(** The accounts the index knows a proposal by, in the order of the loops. *)
Definition index_keys (p : proposal) : list Z :=
  elements (pr_required_active p) ++ elements (pr_required_owner p)
  ++ elements (pr_available_active p) ++ elements (pr_available_owner p).

Definition object_inserted (id : Z) (p : proposal) (m : gmap Z (gset Z)) : gmap Z (gset Z) :=
  index_insert id (index_keys p) m.
Definition object_removed (id : Z) (p : proposal) (m : gmap Z (gset Z)) : gmap Z (gset Z) :=
  index_remove id (index_keys p) m.

(** ** Creating *)

Record proposal_create_operation := mk_prop_create {
  pc_fee_paying_account : Z;
  pc_expiration_time : Z;
  pc_proposed_ops : list Op;
  pc_review_period_seconds : option Z }.

Fixpoint validate_proposed (expiration_time : Z) (l : list Op) : result unit :=
  match l with
  | [] => Ok tt
  | op :: l' =>
      let* _ := match op_work_begin op with
                | Some t => fc_assert (expiration_time <? t)
                | None => Ok tt
                end in
      let* _ := proposed_validate op in
      validate_proposed expiration_time l'
  end.

Definition proposal_create_validate (op : proposal_create_operation) : result unit :=
  check negb (bool_decide (length (pc_proposed_ops op) = 0%nat));
  validate_proposed (pc_expiration_time op) (pc_proposed_ops op).

Fixpoint validate_each (l : list Op) : result unit :=
  match l with
  | [] => Ok tt
  | op :: l' => let* _ := proposed_validate op in validate_each l'
  end.
(** [transaction::validate]. *)
Definition validate_trx (l : list Op) : result unit :=
  check (0 <? Z.of_nat (length l)) && (Z.of_nat (length l) <=? 1000);
  validate_each l.

Definition all_required_active (l : list Op) : list Z := l ≫= fun op => required_active (op_required op).
Definition all_required_owner (l : list Op) : list Z := l ≫= fun op => required_owner (op_required op).
Definition all_other (l : list Op) : list authority := l ≫= fun op => other (op_required op).
Definition trx_requirements (l : list Op) : requirements :=
  mk_requirements (elements (list_to_set (all_required_active l) : gset Z))
    (elements (list_to_set (all_required_owner l) : gset Z)) (all_other l).

(** A related view: who pays is a creator not related yet, and the view belongs to the owner
    named; reading a missing owner is undefined. *)
Definition check_relate_view (payer : Z) (d : database) (op : Op) : result unit :=
  match op_relate_view op with
  | None => Ok tt
  | Some (name, view_owner) =>
      let n := nh d in
      let* (pid, _) := get_or (find_creator payer n) assert_exception in
      let* (_, v) := get_or (find_view name n) assert_exception in
      let* (oid, _) := get_or (find_creator view_owner n) undefined_behaviour in
      check view_creator v =? oid;
      fc_assert (negb (existsb (Z.eqb pid) (related_nht_creator v)))
  end.

Fixpoint check_all (f : Op -> result unit) (l : list Op) : result unit :=
  match l with
  | [] => Ok tt
  | op :: l' => let* _ := f op in check_all f l'
  end.

Definition is_group (auths : list Z) : bool :=
  existsb (fun a => (a =? GRAPHENE_COMMITTEE_ACCOUNT) || (a =? GRAPHENE_WITNESS_ACCOUNT)) auths.

Definition proposal_create_do_evaluate (next_maintenance : Z) (op : proposal_create_operation) (d : database)
    : result unit :=
  let p := parameters (governance d) in
  let now := head_block_time d in
  let l := pc_proposed_ops op in
  check pc_expiration_time op >? now;
  check pc_expiration_time op <=? wrap32 (now + maximum_proposal_lifetime p);
  check match pc_review_period_seconds op with Some r => r <? pc_expiration_time op - now | None => true end;
  let auths := all_required_active l ++ all_required_owner l in
  check bool_decide (length (all_other l) = 0%nat);
  let* _ :=
    if is_group auths then
      let* r := get_or (pc_review_period_seconds op) proposal_create_review_period_required in
      require r >=? committee_proposal_review_period p else proposal_create_review_period_insufficient;
      fc_assert (pc_expiration_time op <=? next_maintenance)
    else Ok tt in
  check forallb (fun a => bool_decide (is_Some (accounts d !! a))) (auths ++ (l ≫= op_impacted));
  let* _ := check_all (check_relate_view (pc_fee_paying_account op) d) l in
  validate_trx l.

(** Owner authority implies active authority. *)
Definition proposal_create_do_apply (hash : Z) (op : proposal_create_operation) (s : proposal_state)
    : Z * proposal_state :=
  let l := pc_proposed_ops op in
  let own : gset Z := list_to_set (all_required_owner l) in
  let act : gset Z := list_to_set (all_required_active l) in
  let p := mk_prop (pc_expiration_time op)
             ((fun r => wrap32 (pc_expiration_time op - r)) <$> pc_review_period_seconds op) l
             (act ∖ own) ∅ own ∅ ∅ hash false (pc_expiration_time op) None in
  let id := ps_next s in
  (id, mk_prop_state (<[id := p]> (ps_proposals s)) (id + 1) (object_inserted id p (ps_index s))).

(** ** Approving *)

Record proposal_update_operation := mk_prop_update {
  pu_proposal : Z;
  pu_active_add : gset Z;
  pu_active_remove : gset Z;
  pu_owner_add : gset Z;
  pu_owner_remove : gset Z;
  pu_key_add : gset Z;
  pu_key_remove : gset Z }.

Definition proposal_update_validate (op : proposal_update_operation) : result unit :=
  check negb (bool_decide (pu_active_add op ∪ pu_active_remove op ∪ pu_owner_add op ∪ pu_owner_remove op
                           ∪ pu_key_add op ∪ pu_key_remove op = ∅));
  check bool_decide (pu_active_add op ∩ pu_active_remove op = ∅);
  check bool_decide (pu_owner_add op ∩ pu_owner_remove op = ∅);
  fc_assert (bool_decide (pu_key_add op ∩ pu_key_remove op = ∅)).

Definition get_proposal (id : Z) (s : proposal_state) : result proposal :=
  get_or (ps_proposals s !! id) assert_exception.

(** In the review period approvals may only be taken back. *)
Definition proposal_update_do_evaluate (op : proposal_update_operation) (now : Z) (s : proposal_state)
    : result unit :=
  let* p := get_proposal (pu_proposal op) s in
  let* _ :=
    match pr_review_period_time p with
    | Some t => if now >=? t then fc_assert (bool_decide (pu_active_add op ∪ pu_owner_add op = ∅)) else Ok tt
    | None => Ok tt
    end in
  check bool_decide (pu_active_remove op ⊆ pr_available_active p);
  fc_assert (bool_decide (pu_owner_remove op ⊆ pr_available_owner p)).

Section Authorization.
Context (key_addresses : Z -> list Z) (max_authority_depth : nat).

(** Exceptions mean no; a use of a missing object would not be caught. *)
Definition is_authorized_to_execute (d : database) (p : proposal) : result bool :=
  match verify_authority key_addresses (fun id => let* a := get_account id d in Ok (Some (active_auth a))) false
          (fun id => let* a := get_account id d in Ok (Some (owner_auth a)))
          (trx_requirements (pr_operations p)) (pr_available_key p) max_authority_depth true
          (pr_available_active p) (pr_available_owner p) with
  | Ok _ => Ok true
  | Err undefined_behaviour => Err undefined_behaviour
  | Err _ => Ok false
  end.

Definition with_approvals (op : proposal_update_operation) (p : proposal) : proposal :=
  mk_prop (pr_expiration_time p) (pr_review_period_time p) (pr_operations p) (pr_required_active p)
    ((pr_available_active p ∪ pu_active_add op) ∖ pu_active_remove op) (pr_required_owner p)
    ((pr_available_owner p ∪ pu_owner_add op) ∖ pu_owner_remove op)
    ((pr_available_key p ∪ pu_key_add op) ∖ pu_key_remove op)
    (pr_trx_hash p) (pr_allow_execution p) (pr_trx_expiration p) (pr_trx_reference p).

(** An agreed proposal without a review period runs at once. *)
Definition agreed (now life_cycle head_id : Z) (p : proposal) : proposal :=
  let e := match pr_review_period_time p with Some _ => pr_expiration_time p | None => now end in
  mk_prop e (pr_review_period_time p) (pr_operations p) (pr_required_active p) (pr_available_active p)
    (pr_required_owner p) (pr_available_owner p) (pr_available_key p) (pr_trx_hash p) true
    (wrap32 (e + Z.min life_cycle 7200)) (Some head_id).
Definition not_agreed (p : proposal) : proposal :=
  mk_prop (pr_expiration_time p) (pr_review_period_time p) (pr_operations p) (pr_required_active p)
    (pr_available_active p) (pr_required_owner p) (pr_available_owner p) (pr_available_key p) (pr_trx_hash p)
    false (pr_trx_expiration p) (pr_trx_reference p).

Definition put_proposal (id : Z) (p : proposal) (s : proposal_state) : proposal_state :=
  mk_prop_state (<[id := p]> (ps_proposals s)) (ps_next s) (ps_index s).

(** The index does not hear of modifications. *)
Definition proposal_update_do_apply (life_cycle head_id : Z) (op : proposal_update_operation) (d : database)
    (s : proposal_state) : result proposal_state :=
  let* p := get_proposal (pu_proposal op) s in
  let temp := with_approvals op p in
  let* ok := is_authorized_to_execute d temp in
  let* temp :=
    if ok then
      let* _ := validate_trx (pr_operations temp) in
      Ok (agreed (head_block_time d) life_cycle head_id temp)
    else Ok (not_agreed temp) in
  Ok (put_proposal (pu_proposal op) temp s).

(** ** Deleting *)

Definition remove_proposal (id : Z) (p : proposal) (s : proposal_state) : proposal_state :=
  mk_prop_state (delete id (ps_proposals s)) (ps_next s) (object_removed id p (ps_index s)).

Definition proposal_delete_do_evaluate (acc : Z) (using_owner : bool) (id : Z) (s : proposal_state) : result unit :=
  let* p := get_proposal id s in
  fc_assert (bool_decide (acc ∈ if using_owner then pr_required_owner p else pr_required_active p)).

Definition proposal_delete_do_apply (id : Z) (s : proposal_state) : result proposal_state :=
  let* p := get_proposal id s in Ok (remove_proposal id p s).

End Authorization.

(** ** The index is exact *)

Definition watches (m : gmap Z (gset Z)) (a id : Z) : Prop := exists l, m !! a = Some l /\ id ∈ l.

(** An account is watched for a proposal exactly if the proposal requires it; no entry is
    empty; numbers are fresh. *)
Record index_ok (s : proposal_state) : Prop := {
  io_exact : forall a id, watches (ps_index s) a id <->
    exists p, ps_proposals s !! id = Some p /\ a ∈ pr_required_active p ∪ pr_required_owner p;
  io_full : forall a l, ps_index s !! a = Some l -> l <> ∅;
  io_fresh : forall id p, ps_proposals s !! id = Some p -> id < ps_next s }.

Lemma index_insert_watches id l : forall m a j, watches (index_insert id l m) a j <->
  watches m a j \/ (j = id /\ a ∈ l).
Proof.
  unfold index_insert. induction l as [|b l IH]; intros m a j; cbn [foldl]; [set_solver|]. rewrite IH. unfold watches.
  destruct (decide (a = b)) as [->|Hn].
  - rewrite lookup_insert_eq. split.
    + intros [(x & [= <-] & Hj)|?]; [|set_solver]. destruct (m !! b) as [y|] eqn:E; cbn in Hj; [|set_solver].
      apply elem_of_union in Hj as [Hj|Hj]; [set_solver|]. left. by exists y.
    + intros [(x & Hx & Hj)|[-> Hin]]; [left; eexists; split; [done|]; rewrite Hx; set_solver|].
      left. eexists. split; [done|]. set_solver.
  - rewrite lookup_insert_ne by done. set_solver.
Qed.

Lemma index_insert_full id l : forall m, (forall a s, m !! a = Some s -> s <> ∅) ->
  forall a s, index_insert id l m !! a = Some s -> s <> ∅.
Proof.
  unfold index_insert. induction l as [|b l IH]; intros m Hm a s; cbn [foldl]; [apply Hm|]. apply IH. intros c t Hc.
  apply lookup_insert_Some in Hc as [[_ <-]|[_ Hc]]; [set_solver|by eapply Hm].
Qed.

Lemma index_remove_watches id l : forall m a j, watches (index_remove id l m) a j <->
  watches m a j /\ ~ (j = id /\ a ∈ l).
Proof.
  unfold index_remove. induction l as [|b l IH]; intros m a j; cbn [foldl]; [set_solver|]. rewrite IH. clear IH.
  assert (E : watches match m !! b with
                | Some s => if bool_decide (s ∖ {[id]} = ∅) then delete b m else <[b := s ∖ {[id]}]> m
                | None => m end a j <-> watches m a j /\ ~ (j = id /\ a = b)); [|rewrite E; set_solver].
  unfold watches. destruct (m !! b) as [s|] eqn:Eb.
  - case_bool_decide as Hs.
    + destruct (decide (a = b)) as [->|Hn]; [rewrite lookup_delete_eq, Eb|rewrite lookup_delete_ne by done].
      * split; [by intros (x & ? & _)|]. intros [(x & [= <-] & Hj) Hne]. exfalso.
        assert (j ∈ s ∖ {[id]}) by set_solver. set_solver.
      * split; [intros Hx; split; [done|by intros []]|by intros []].
    + destruct (decide (a = b)) as [->|Hn]; [rewrite lookup_insert_eq, Eb|rewrite lookup_insert_ne by done].
      * split.
        -- intros (x & [= <-] & Hj). split; [exists s; set_solver|set_solver].
        -- intros [(x & [= <-] & Hj) Hne]. exists (s ∖ {[id]}). split; [done|]. set_solver.
      * split; [intros Hx; split; [done|by intros []]|by intros []].
  - split; [|by intros []]. intros (x & Hx & Hj). split; [by exists x|]. intros [_ ->]. congruence.
Qed.

Lemma index_remove_full id l : forall m, (forall a s, m !! a = Some s -> s <> ∅) ->
  forall a s, index_remove id l m !! a = Some s -> s <> ∅.
Proof.
  unfold index_remove. induction l as [|b l IH]; intros m Hm a s; cbn [foldl]; [apply Hm|]. apply IH. intros c t Hc.
  destruct (m !! b) as [x|] eqn:Eb; [|by eapply Hm]. case_bool_decide as Hs.
  - apply lookup_delete_Some in Hc as [_ Hc]. by eapply Hm.
  - apply lookup_insert_Some in Hc as [[_ <-]|[_ Hc]]; [done|by eapply Hm].
Qed.

Lemma create_index_ok hash op s : index_ok s -> index_ok (proposal_create_do_apply hash op s).2.
Proof.
  intros [Hx Hf Hn]. unfold proposal_create_do_apply. set (p := mk_prop _ _ _ _ _ _ _ _ _ _ _ _).
  assert (Hk : forall a, a ∈ index_keys p <-> a ∈ pr_required_active p ∪ pr_required_owner p).
  { intros a. unfold index_keys. cbn [pr_available_active pr_available_owner p]. rewrite !elements_empty, !app_nil_r.
    rewrite elem_of_app, !elem_of_elements. set_solver. }
  split; cbn [snd ps_proposals ps_next ps_index].
  - intros a id. unfold object_inserted. rewrite index_insert_watches, Hx, Hk. split.
    + intros [(q & Hq & Ha)|[-> Ha]]; [|exists p; by rewrite lookup_insert_eq].
      exists q. rewrite lookup_insert_ne; [done|]. apply Hn in Hq. lia.
    + intros (q & Hq & Ha). apply lookup_insert_Some in Hq as [[<- <-]|[_ Hq]]; [by right|left; by exists q].
  - by apply index_insert_full.
  - intros id q Hq. apply lookup_insert_Some in Hq as [[<- _]|[_ Hq]]; [lia|]. apply Hn in Hq. lia.
Qed.

(** A modification that keeps the required approvals. *)
Lemma put_index_ok id p q s : index_ok s -> ps_proposals s !! id = Some p ->
  pr_required_active q = pr_required_active p -> pr_required_owner q = pr_required_owner p ->
  index_ok (put_proposal id q s).
Proof.
  intros [Hx Hf Hn] Hp Ea Eo. split; cbn [put_proposal ps_proposals ps_next ps_index]; [|done|].
  - intros a i. rewrite Hx. split.
    + intros (r & Hr & Ha). destruct (decide (i = id)) as [->|Hne].
      * exists q. rewrite lookup_insert_eq. split; [done|]. rewrite Hp in Hr. injection Hr as <-. by rewrite Ea, Eo.
      * exists r. by rewrite lookup_insert_ne.
    + intros (r & Hr & Ha). apply lookup_insert_Some in Hr as [[<- <-]|[_ Hr]]; [exists p; by rewrite Ea, Eo in Ha|].
      by exists r.
  - intros i r Hr. apply lookup_insert_Some in Hr as [[<- _]|[_ Hr]]; by eapply Hn.
Qed.

Lemma remove_index_ok id p s : index_ok s -> ps_proposals s !! id = Some p -> index_ok (remove_proposal id p s).
Proof.
  intros [Hx Hf Hn] Hp. split; cbn [remove_proposal ps_proposals ps_next ps_index].
  - intros a i. unfold object_removed. rewrite index_remove_watches, Hx. split.
    + intros [(q & Hq & Ha) Hne]. exists q. split; [|done]. rewrite lookup_delete_ne; [done|]. intros <-. apply Hne.
      split; [done|]. rewrite Hp in Hq. injection Hq as <-. unfold index_keys. rewrite !elem_of_app, !elem_of_elements.
      set_solver.
    + intros (q & Hq & Ha). apply lookup_delete_Some in Hq as [Hne Hq]. split; [by exists q|]. intros [-> _]. done.
  - by apply index_remove_full.
  - intros i q Hq. apply lookup_delete_Some in Hq as [_ Hq]. by eapply Hn.
Qed.

(** ** The operations on proposals *)

Section Running.
Context (key_addresses : Z -> list Z) (max_authority_depth : nat).

Inductive prop_op :=
| PropCreate (hash : Z) (op : proposal_create_operation)
| PropUpdate (op : proposal_update_operation)
| PropDelete (acc : Z) (using_owner : bool) (id : Z)
| PropExpire (id : Z).

(** Removing by expiration is [clear_expired_proposals]. *)
Definition run_prop_op (next_maintenance life_cycle head_id : Z) (d : database) (op : prop_op) (s : proposal_state)
    : result proposal_state :=
  match op with
  | PropCreate hash op =>
      let* _ := proposal_create_validate op in
      let* _ := proposal_create_do_evaluate next_maintenance op d in
      Ok (proposal_create_do_apply hash op s).2
  | PropUpdate op =>
      let* _ := proposal_update_validate op in
      let* _ := proposal_update_do_evaluate op (head_block_time d) s in
      proposal_update_do_apply key_addresses max_authority_depth life_cycle head_id op d s
  | PropDelete acc using_owner id =>
      let* _ := proposal_delete_do_evaluate acc using_owner id s in proposal_delete_do_apply id s
  | PropExpire id =>
      let* p := get_proposal id s in
      check negb (pr_allow_execution p) && (pr_expiration_time p <=? head_block_time d);
      Ok (remove_proposal id p s)
  end.

Lemma get_proposal_inv id s p : get_proposal id s = Ok p -> ps_proposals s !! id = Some p.
Proof. unfold get_proposal, get_or. destruct (_ !! id); by intros [= ->]. Qed.

Lemma update_apply_inv life head_id op d s s' : proposal_update_do_apply key_addresses max_authority_depth life head_id op d s = Ok s' ->
  exists p ok, ps_proposals s !! pu_proposal op = Some p /\ is_authorized_to_execute key_addresses max_authority_depth d (with_approvals op p) = Ok ok /\
    s' = put_proposal (pu_proposal op) (if ok then agreed (head_block_time d) life head_id (with_approvals op p)
                                        else not_agreed (with_approvals op p)) s.
Proof.
  unfold proposal_update_do_apply. intros Hu. apply rbind_ok in Hu as (p & Hp & Hu). apply get_proposal_inv in Hp.
  apply rbind_ok in Hu as (ok & Hok & Hu). apply rbind_ok in Hu as (t & Ht & [= <-]). exists p, ok.
  split; [done|]. split; [done|]. destruct ok; [skip_bind Ht|]; by injection Ht as <-.
Qed.

Lemma run_prop_index nm life head_id d op s s' :
  run_prop_op nm life head_id d op s = Ok s' -> index_ok s -> index_ok s'.
Proof.
  intros Hr Hok. destruct op as [h o|o|acc own id|id]; cbn [run_prop_op] in Hr.
  - do 2 skip_bind Hr. injection Hr as <-. by apply create_index_ok.
  - do 2 skip_bind Hr. apply update_apply_inv in Hr as (p & ok & Hp & _ & ->).
    eapply put_index_ok; [done|exact Hp| |]; by destruct ok.
  - skip_bind Hr. unfold proposal_delete_do_apply in Hr. apply rbind_ok in Hr as (p & Hp & [= <-]).
    apply remove_index_ok; [done|by apply get_proposal_inv].
  - apply rbind_ok in Hr as (p & Hp & Hr). skip_bind Hr. injection Hr as <-.
    apply remove_index_ok; [done|by apply get_proposal_inv].
Qed.

Lemma authorized_iff d p ok : is_authorized_to_execute key_addresses max_authority_depth d p = Ok ok -> (ok = true <->
  verify_authority key_addresses (fun id => let* a := get_account id d in Ok (Some (active_auth a))) false
    (fun id => let* a := get_account id d in Ok (Some (owner_auth a)))
    (trx_requirements (pr_operations p)) (pr_available_key p) max_authority_depth true
    (pr_available_active p) (pr_available_owner p) = Ok tt).
Proof.
  unfold is_authorized_to_execute. destruct (verify_authority _ _ _ _ _ _ _ _ _ _) as [[]|e].
  - intros [= <-]. done.
  - intros He. split; [intros ->; by destruct e|done].
Qed.
End Running.
End Proposals.

Arguments proposal Op : clear implicits.
Arguments proposal_state Op : clear implicits.
Arguments proposal_create_operation Op : clear implicits.

(** ** Properties *)

(** C28: The index of required approvals is exact: after any operation on proposals, an
    account is listed for a proposal exactly if the proposal exists and requires its active
    or owner approval, and no account has an empty list. *)
Theorem approval_index_exact {Op} `{ProposedOps Op} (key_addresses : Z -> list Z) (depth : nat)
    (next_maintenance life_cycle head_id : Z) (d : database) (op : prop_op) (s s' : proposal_state Op)
    (Hr : run_prop_op key_addresses depth next_maintenance life_cycle head_id d op s = Ok s') (Hok : index_ok s) :
  index_ok s'.
Proof. by eapply run_prop_index. Qed.

(** C16: Only approved proposals run.  After a vote, a proposal is marked for execution
    exactly if its approvals satisfy every authority its operations require; operations and
    required approvals are as they were, a proposal without a review period is then due at
    once, and in the review period no account's approval was added. *)
Theorem proposal_runs_when_approved {Op} `{ProposedOps Op} (key_addresses : Z -> list Z) (depth : nat)
    (next_maintenance life_cycle head_id : Z) (d : database) (op : proposal_update_operation) (s s' : proposal_state Op)
    (Hr : run_prop_op key_addresses depth next_maintenance life_cycle head_id d (PropUpdate op) s = Ok s') :
  exists p p', ps_proposals s !! pu_proposal op = Some p /\ ps_proposals s' !! pu_proposal op = Some p' /\
    pr_operations p' = pr_operations p /\ pr_required_active p' = pr_required_active p /\
    pr_required_owner p' = pr_required_owner p /\
    (pr_allow_execution p' = true <->
       verify_authority key_addresses (fun id => let* a := get_account id d in Ok (Some (active_auth a))) false
         (fun id => let* a := get_account id d in Ok (Some (owner_auth a)))
         (trx_requirements (pr_operations p)) (pr_available_key p') depth true
         (pr_available_active p') (pr_available_owner p') = Ok tt) /\
    (pr_allow_execution p' = true -> pr_review_period_time p = None -> pr_expiration_time p' = head_block_time d) /\
    (forall t, pr_review_period_time p = Some t -> t <= head_block_time d ->
       pr_available_active p' ⊆ pr_available_active p /\ pr_available_owner p' ⊆ pr_available_owner p).
Proof.
  cbn [run_prop_op] in Hr. skip_bind Hr. apply rbind_ok in Hr as (u & He & Hr).
  apply update_apply_inv in Hr as (p & ok & Hp & Hok & ->). exists p. apply authorized_iff in Hok as Hiff.
  eexists. split; [done|]. split; [apply lookup_insert_eq|].
  split; [by destruct ok|]. split; [by destruct ok|]. split; [by destruct ok|].
  split; [destruct ok; exact Hiff|]. split.
  { destruct ok; [|done]. intros _ E. cbn [agreed pr_expiration_time with_approvals pr_review_period_time]. by rewrite E. }
  intros t Et Hle. unfold proposal_update_do_evaluate, get_proposal in He. rewrite Hp in He. cbn [get_or rbind] in He.
  apply rbind_ok in He as (u1 & Hrev & _). rewrite Et in Hrev. rewrite (proj2 (Z.geb_le _ _)) in Hrev by lia.
  unfold fc_assert in Hrev. case_if_in Hrev; [|done]. apply bool_decide_eq_true in Hif.
  destruct ok; cbn [agreed not_agreed with_approvals pr_available_active pr_available_owner]; set_solver.
Qed.

(** Group accounts review their proposals.  A proposal that requires the committee or
    the witness account leaves at least the review period of the chain between the end of
    approvals, which lies in the future, and its execution, and runs before the group
    changes. *)
Theorem group_proposal_window {Op} `{ProposedOps Op} (next_maintenance hash : Z) (op : proposal_create_operation Op)
    (d : database) (s : proposal_state Op)
    (He : proposal_create_do_evaluate next_maintenance op d = Ok tt)
    (Hg : is_group (all_required_active (pc_proposed_ops op) ++ all_required_owner (pc_proposed_ops op)) = true)
    (Hn : 0 <= head_block_time d) (Hx : pc_expiration_time op < uint32_mod)
    (Hp : 0 <= committee_proposal_review_period (parameters (governance d))) :
  exists p t, ps_proposals (proposal_create_do_apply hash op s).2 !! ps_next s = Some p /\
    pr_review_period_time p = Some t /\ head_block_time d < t /\
    t + committee_proposal_review_period (parameters (governance d)) <= pr_expiration_time p /\
    pr_expiration_time p <= next_maintenance /\ pr_allow_execution p = false.
Proof.
  unfold proposal_create_do_evaluate in He. do 2 skip_bind He. apply rbind_ok in He as (u1 & Hrv & He). skip_bind He.
  apply rbind_ok in He as (u2 & Hgr & _). rewrite Hg in Hgr. apply rbind_ok in Hgr as (r & Hr & Hgr).
  unfold get_or in Hr. destruct (pc_review_period_seconds op) as [r'|] eqn:Er; [|done]. injection Hr as ->.
  apply rbind_ok in Hgr as (u3 & Hper & Hnm). unfold graphene_assert, fc_assert in *.
  case_if_in Hrv; [|done]. case_if_in Hper; [|done]. case_if_in Hnm; [|done]. bool_to_prop.
  eexists _, _. split; [apply lookup_insert_eq|]. cbn [pr_review_period_time pr_expiration_time pr_allow_execution].
  rewrite Er. split; [reflexivity|]. rewrite wrap32_small by lia. split; [lia|]. split; [lia|]. split; [lia|done].
Qed.

(** ** Proposals at work *)

(** An operation that requires the active authority of one account. *)
#[export] Instance demo_ops : ProposedOps Z := {
  op_required a := mk_requirements [a] [] [];
  op_impacted a := [a];
  proposed_validate _ := Ok tt;
  op_relate_view _ := None;
  op_work_begin _ := None }.

Definition demo_prop_db : database :=
  set_governance (set_parameters (mk_parameters 3 86400 0 600 5000 3 3 10 0 0 2 0 5000 1000 4 0 100 100 0 0 0 0)
                    empty_governance)
    (set_accounts {[ 0 := basic_account ∅ None;
                     20 := set_active_auth (mk_authority 2 [(21, 1); (22, 1)] [] []) (basic_account ∅ None);
                     21 := basic_account ∅ None; 22 := basic_account ∅ None ]} demo_ledger).

(** The committee proposes to itself; account 20 needs its members 21 and 22. *)
Definition demo_group_proposal : proposal_create_operation Z := mk_prop_create 5 4000 [0] (Some 700).
Definition demo_prop_state : proposal_state Z :=
  (proposal_create_do_apply 1 (mk_prop_create 5 4000 [20] None) (mk_prop_state ∅ 0 ∅)).2.
Definition demo_vote (who : Z) : proposal_update_operation :=
  mk_prop_update 0 {[ who ]} ∅ ∅ ∅ ∅ ∅.

Lemma demo_prop_index : index_ok demo_prop_state.
Proof.
  apply create_index_ok. split; cbn.
  - intros a id. split; [by intros (l & ? & _)|by intros (p & ? & _)].
  - done.
  - done.
Qed.

Lemma group_proposal_window_witness :
  exists p t, ps_proposals (proposal_create_do_apply 1 demo_group_proposal (mk_prop_state ∅ 0 ∅)).2 !! 0 = Some p /\
    pr_review_period_time p = Some t /\ 1000 < t /\ t + 600 <= pr_expiration_time p
    /\ pr_expiration_time p <= 9000 /\ pr_allow_execution p = false.
Proof.
  apply (group_proposal_window 9000 1 demo_group_proposal demo_prop_db (mk_prop_state ∅ 0 ∅)).
  - vm_compute. reflexivity.
  - vm_compute. reflexivity.
  - vm_compute. discriminate.
  - reflexivity.
  - vm_compute. discriminate.
Defined.

Definition demo_vote_run (who : Z) (s : proposal_state Z) : result (proposal_state Z) :=
  run_prop_op (fun _ => []) 2 9000 600 7 demo_prop_db (PropUpdate (demo_vote who)) s.

Lemma approval_index_exact_witness :
  match demo_vote_run 21 demo_prop_state with
  | Ok s' => index_ok s'
  | Err _ => False
  end.
Proof.
  assert (Hok : is_ok (demo_vote_run 21 demo_prop_state) = true) by (vm_compute; reflexivity).
  destruct (demo_vote_run 21 demo_prop_state) as [s'|] eqn:E; [|discriminate Hok].
  exact (approval_index_exact (fun _ => []) 2 9000 600 7 demo_prop_db _ _ _ E demo_prop_index).
Defined.

(** One member is not enough, both are. *)
Lemma proposal_runs_when_approved_witness :
  match demo_vote_run 21 demo_prop_state with
  | Ok s1 => pr_allow_execution <$> ps_proposals s1 !! 0 = Some false /\
      match demo_vote_run 22 s1 with
      | Ok s2 => exists p', ps_proposals s2 !! 0 = Some p' /\ pr_operations p' = [20] /\
                   (pr_allow_execution p' = true -> pr_expiration_time p' = 1000)
      | Err _ => False
      end
  | Err _ => False
  end.
Proof.
  assert (H0 : match demo_vote_run 21 demo_prop_state with
    | Ok s1 => pr_allow_execution <$> ps_proposals s1 !! 0 = Some false /\
        is_ok (demo_vote_run 22 s1) = true /\ pr_review_period_time <$> ps_proposals s1 !! 0 = Some None
        /\ pr_operations <$> ps_proposals s1 !! 0 = Some [20]
    | Err _ => False end) by (vm_compute; done).
  destruct (demo_vote_run 21 demo_prop_state) as [s1|]; [|done]. destruct H0 as (Ha & Hok & Hrv & Ho). split; [exact Ha|].
  destruct (demo_vote_run 22 s1) as [s2|] eqn:E; [|discriminate Hok].
  destruct (proposal_runs_when_approved (fun _ => []) 2 9000 600 7 demo_prop_db (demo_vote 22) s1 s2 E) as (p & p' & Hp & Hp' & E1 & _ & _ & _ & Hx & _).
  cbn [pu_proposal demo_vote] in Hp, Hp'. rewrite Hp in Hrv, Ho. injection Hrv as Hrv. injection Ho as Ho.
  exists p'. split; [exact Hp'|]. split; [by rewrite E1|]. intros Ht. exact (Hx Ht Hrv).
Defined.

Theorem both_members_run :
  match (let* s := demo_vote_run 21 demo_prop_state in demo_vote_run 22 s) with
  | Ok s => pr_allow_execution <$> ps_proposals s !! 0 = Some true
  | Err _ => False
  end.
Proof. vm_compute. reflexivity. Qed.

(** In its review period a proposal takes no new account, but it takes a new key. *)
Definition demo_reviewed : proposal_state Z :=
  (proposal_create_do_apply 1 (mk_prop_create 5 1500 [20] (Some 600)) (mk_prop_state ∅ 0 ∅)).2.
Theorem review_takes_keys :
  demo_vote_run 21 demo_reviewed = Err assert_exception /\
  match run_prop_op (fun _ => []) 2 9000 600 7 demo_prop_db (PropUpdate (mk_prop_update 0 ∅ ∅ ∅ ∅ {[ 99 ]} ∅))
          demo_reviewed with
  | Ok s => pr_available_key <$> ps_proposals s !! 0 = Some {[ 99 ]}
  | Err _ => False
  end.
Proof. vm_compute. done. Qed.
