(* ===== verification/Tasks.v ===== *)
(** * Timed tasks and temporary authorities

    [crontab_evaluator.cpp], [crontab_object.cpp] and [temporary_authority_evaluator.cpp]:
    creating, cancelling and restarting the timed tasks that [Transaction] runs, and lending
    an account's active authority to further keys for a while.  The operations of a task are
    given through [ProposedOps]. *)

From S2P Require Import Prelude SafeInt Asset Vesting Authority State Ledger Fees Proposals Transaction.

(** ** Timed tasks *)

Section Crontabs.
Context {Op : Type} `{ProposedOps Op}.
Implicit Types s : tx_state Op.

Record crontab_create_operation := mk_crontab_create {
  cr_creator : Z;
  cr_ops : list Op;
  cr_start_time : Z;
  cr_execute_interval : Z;
  cr_scheduled_execute_times : Z }.

Definition crontab_create_validate (op : crontab_create_operation) : result unit :=
  check negb (bool_decide (length (cr_ops op) = 0%nat));
  check cr_scheduled_execute_times op >? 0;
  check cr_execute_interval op >? 0;
  validate_each (cr_ops op).

(** The product has 64 bits, of which a time takes the lower 32. *)
Definition crontab_create_do_evaluate (op : crontab_create_operation) s : result unit :=
  let d := ledger s in
  let now := head_block_time d in
  check cr_start_time op >? now;
  check wrap32 (cr_start_time op + cr_scheduled_execute_times op * cr_execute_interval op)
        <=? wrap32 (now + 2592000);
  check forallb (fun a => bool_decide (is_Some (accounts d !! a))) (cr_ops op ≫= op_impacted);
  validate_trx (cr_ops op).

(** The authority of the owner of the task must do. *)
Definition task_is_authorized (key_addresses : Z -> list Z) (depth : nat) (c : crontab_object Op)
    (d : database) : result bool :=
  match verify_authority key_addresses (fun id => let* a := get_account id d in Ok (Some (active_auth a))) false
          (fun id => let* a := get_account id d in Ok (Some (owner_auth a)))
          (trx_requirements (operations (timed_transaction c))) ∅ depth true {[task_owner c]} {[task_owner c]} with
  | Ok _ => Ok true
  | Err undefined_behaviour => Err undefined_behaviour
  | Err _ => Ok false
  end.

(** [reference] are the number and the prefix that refer to the head block. *)
Definition crontab_create_do_apply (key_addresses : Z -> list Z) (p : tx_parameters) (hash : Z)
    (reference : Z * Z) (op : crontab_create_operation) s : result (Z * tx_state Op) :=
  let next := cr_start_time op in
  let trx := mk_trx reference.1 reference.2 (wrap32 (next + Z.min (assigned_task_life_cycle p) 7200))
               (cr_ops op) None [] in
  let c := mk_crontab (cr_creator op) hash trx (cr_execute_interval op) (cr_scheduled_execute_times op) 0 0 next
             0 false true (wrap32 (next + cr_execute_interval op * cr_scheduled_execute_times op)) in
  let* ok := task_is_authorized key_addresses (max_authority_depth p) c (ledger s) in
  require ok else fc_exception;
  let id := next_crontab s in
  Ok (id, set_next_crontab (id + 1) (set_crontabs (<[id := c]> (crontabs s)) s)).

Definition get_crontab (id : Z) s : result (crontab_object Op) := get_or (crontabs s !! id) assert_exception.

Definition crontab_cancel_do_evaluate (acc id : Z) s : result unit :=
  let* c := get_crontab id s in fc_assert (acc =? task_owner c).

Definition crontab_cancel_do_apply (id : Z) s : tx_state Op := set_crontabs (delete id (crontabs s)) s.

Definition crontab_recover_do_evaluate (acc id restart_time : Z) s : result unit :=
  let* c := get_crontab id s in
  check restart_time >? head_block_time (ledger s);
  fc_assert (acc =? task_owner c).

Definition restart (p : tx_parameters) (restart_time : Z) (c : crontab_object Op) : crontab_object Op :=
  mk_crontab (task_owner c) (crontab_trx_hash c)
    (with_expiration (wrap32 (restart_time + Z.min (assigned_task_life_cycle p) 7200)) (timed_transaction c))
    (execute_interval c) (scheduled_execute_times c) (already_execute_times c) (last_execte_time c) restart_time 0
    false (crontab_allow c)
    (wrap32 (restart_time
             + (execute_interval c * (scheduled_execute_times c - already_execute_times c)) mod uint64_mod)).

Definition crontab_recover_do_apply (p : tx_parameters) (id restart_time : Z) s : result (tx_state Op) :=
  let* c := get_crontab id s in
  Ok (set_crontabs (<[id := restart p restart_time c]> (crontabs s)) s).

(** ** What happens to tasks *)

Variable key_addresses : Z -> list Z.
Variable tx_hash : transaction Op -> Z.
Variable p : tx_parameters.

(** A task is created, cancelled or restarted; it runs, and its operations fail or not; a
    block moves the clock and clears the expired tasks. *)
Inductive task_event :=
| TaskCreate (hash : Z) (reference : Z * Z) (op : crontab_create_operation)
| TaskCancel (acc id : Z)
| TaskRecover (acc id restart_time : Z)
| TaskRun (id : Z) (trx : transaction Op) (failed : bool)
| TaskBlock (time : Z).

Definition run_task_event (e : task_event) s : result (tx_state Op) :=
  match e with
  | TaskCreate hash reference op =>
      let* _ := crontab_create_validate op in
      let* _ := crontab_create_do_evaluate op s in
      let* (_, s) := crontab_create_do_apply key_addresses p hash reference op s in Ok s
  | TaskCancel acc id =>
      let* _ := crontab_cancel_do_evaluate acc id s in Ok (crontab_cancel_do_apply id s)
  | TaskRecover acc id t =>
      let* _ := crontab_recover_do_evaluate acc id t s in crontab_recover_do_apply p id t s
  | TaskRun id trx failed =>
      let* (s, cron) := start_task tx_hash p (task_crontab id) trx s in finish_task p cron failed s
  | TaskBlock time => get_or (clear_expired_timed_task (next_head time ∅ s)) undefined_behaviour
  end.

(** What fails changes nothing. *)
Definition apply_task_event s (e : task_event) : tx_state Op :=
  match run_task_event e s with Ok s' => s' | Err _ => s end.

(** ** Tasks run as often as planned *)

(** A task whose runs are used up is due later than the head and expires when it is due. *)
Record task_ok (limit now : Z) (c : crontab_object Op) : Prop := {
  interval_ok : 0 < execute_interval c <= limit;
  times_ok : 0 <= already_execute_times c <= scheduled_execute_times c;
  times_fit : scheduled_execute_times c < uint64_mod;
  used_up : already_execute_times c = scheduled_execute_times c ->
            now < next_execte_time c /\ crontab_expiration c = next_execte_time c }.

Definition tasks_ok (limit : Z) s : Prop :=
  forall id c, crontabs s !! id = Some c -> task_ok limit (head_block_time (ledger s)) c.

(** Times and intervals fit: no time plus an interval leaves 32 bits. *)
Definition event_fits (limit until : Z) (e : task_event) : Prop :=
  match e with
  | TaskCreate _ _ op => cr_execute_interval op <= limit /\ cr_scheduled_execute_times op < uint64_mod
  | TaskRecover _ _ t => 0 <= t < uint32_mod
  | TaskBlock t => 0 <= t <= until
  | _ => True
  end.

Definition clock_fits (until : Z) s : Prop := 0 <= head_block_time (ledger s) <= until.

Lemma wrap32_id x : 0 <= x < uint32_mod -> wrap32 x = x.
Proof. intros. unfold wrap32. by rewrite Z.mod_small. Qed.

Lemma start_ok limit now c :
  task_ok limit now c -> next_execte_time c <= now -> 0 <= now -> now + limit < uint32_mod ->
  task_ok limit now (start_crontab p now c).
Proof.
  intros [Hi Ht Hf Hu] Hn H0 Hl.
  assert (already_execute_times c < scheduled_execute_times c) by (destruct (Z.eq_dec (already_execute_times c) (scheduled_execute_times c)) as [E|]; [destruct (Hu E); lia|lia]).
  split; cbn; [done| |done|].
  - rewrite Z.mod_small by lia. lia.
  - rewrite Z.mod_small by lia. intros E.
    replace (scheduled_execute_times c - already_execute_times c) with 1 by lia.
    rewrite Z.mul_1_l, wrap32_id by lia. lia.
Qed.

Lemma finish_ok limit now failed c : task_ok limit now c -> task_ok limit now (finish_crontab p now failed c).
Proof.
  intros [Hi Ht Hf Hu]. unfold finish_crontab.
  destruct (Z.ltb_spec (already_execute_times c) (scheduled_execute_times c)) as [Hlt|]; [|done].
  repeat case_match; split; cbn; auto; lia.
Qed.

Lemma restart_ok limit now t c :
  task_ok limit now c -> now < t -> 0 <= t < uint32_mod -> task_ok limit now (restart p t c).
Proof.
  intros [Hi Ht Hf Hu] Hn Hr. split; cbn; auto. intros E.
  replace (scheduled_execute_times c - already_execute_times c) with 0 by lia.
  rewrite Z.mul_0_r, Zmod_0_l, Z.add_0_r, wrap32_id by done. done.
Qed.

Lemma put_task_ok limit s id c :
  tasks_ok limit s -> task_ok limit (head_block_time (ledger s)) c ->
  tasks_ok limit (set_crontabs (<[id := c]> (crontabs s)) s).
Proof.
  intros Hs Hc id' c'. cbn [crontabs set_crontabs ledger]. destruct (decide (id' = id)) as [->|n].
  - rewrite lookup_insert_eq. by intros [= <-].
  - rewrite lookup_insert_ne by done. apply Hs.
Qed.

Lemma start_task_inv id trx s s' cron :
  start_task tx_hash p (task_crontab id) trx s = Ok (s', cron) ->
  exists c, crontabs s !! id = Some c /\ next_execte_time c <= head_block_time (ledger s) /\ cron = Some id
    /\ s' = set_crontabs (<[id := start_crontab p (head_block_time (ledger s)) c]> (crontabs s)) s.
Proof.
  cbn [start_task]. intros H1. apply rbind_ok in H1 as (c & Hc & H1). apply rbind_ok in H1 as ([] & Hg & [= <- <-]).
  unfold get_or in Hc. destruct (crontabs s !! id) as [c'|] eqn:E; [injection Hc as ->|done].
  unfold fc_assert in Hg. destruct (tx_hash trx =? _), (Z.leb_spec (next_execte_time c) (head_block_time (ledger s))); try done.
  by exists c.
Qed.

Lemma run_task_ok limit until e s s' :
  until + limit < uint32_mod -> clock_fits until s -> event_fits limit until e -> tasks_ok limit s ->
  run_task_event e s = Ok s' -> tasks_ok limit s' /\ clock_fits until s'.
Proof.
  intros Hl Hc He Hs Hr. destruct e as [hash ref op|acc id|acc id t|id trx failed|t]; cbn [run_task_event] in Hr.
  - apply rbind_ok in Hr as ([] & Hv & Hr). apply rbind_ok in Hr as ([] & _ & Hr).
    apply rbind_ok in Hr as ([i s1] & Ha & [= <-]). unfold crontab_create_do_apply in Ha.
    apply rbind_ok in Ha as (b & _ & Ha). apply rbind_ok in Ha as ([] & _ & [= _ <-]).
    split; [|done]. apply put_task_ok; [done|]. destruct He as [He1 He2].
    unfold crontab_create_validate in Hv. apply rbind_ok in Hv as ([] & _ & Hv).
    apply rbind_ok in Hv as ([] & Hv1 & Hv). apply rbind_ok in Hv as ([] & Hv2 & _).
    unfold fc_assert in Hv1, Hv2. destruct (Z.gtb_spec (cr_scheduled_execute_times op) 0); [|done].
    destruct (Z.gtb_spec (cr_execute_interval op) 0); [|done]. split; cbn; lia.
  - apply rbind_ok in Hr as ([] & _ & [= <-]). split; [|done]. intros id' c'. cbn.
    intros [_ Hd]%lookup_delete_Some. by eapply Hs.
  - apply rbind_ok in Hr as ([] & Hv & Hr). unfold crontab_recover_do_apply, crontab_recover_do_evaluate, get_crontab in *.
    destruct (crontabs s !! id) as [c|] eqn:Ec; [|done]. cbn in Hr, Hv. injection Hr as <-.
    destruct (Z.gtb_spec t (head_block_time (ledger s))); [|done].
    split; [|done]. apply put_task_ok; [done|]. apply restart_ok; [by eapply Hs|lia|done].
  - apply rbind_ok in Hr as ([s1 cron] & Hst & Hf).
    apply start_task_inv in Hst as (c & Hc' & Hn & -> & ->). unfold finish_task in Hf. cbn [crontabs set_crontabs ledger] in Hf.
    rewrite lookup_insert_eq in Hf. cbn in Hf. injection Hf as <-.
    split; [|done]. destruct Hc as [Hc1 Hc2].
    apply put_task_ok; [apply put_task_ok; [done|]|]; [|apply finish_ok]; apply start_ok; try lia; by eapply Hs.
  - rewrite clear_crontabs_exact in Hr. injection Hr as <-. split; [|exact He].
    intros id c. cbn [crontabs set_crontabs]. intros [Hid Hx%Z.leb_gt]%map_lookup_filter_Some.
    cbn [snd] in Hx.
    destruct (Hs _ _ Hid) as [Hi Ht Hf Hu]. split; auto. intros E. destruct (Hu E) as [_ Hu']. rewrite <-Hu'. by split.
Qed.

Lemma run_tasks_ok limit until l : forall s,
  until + limit < uint32_mod -> clock_fits until s -> Forall (event_fits limit until) l -> tasks_ok limit s ->
  tasks_ok limit (foldl apply_task_event s l).
Proof.
  induction l as [|e l IH]; intros s Hl Hc He Hs; [done|]. apply Forall_cons in He as [He1 He2]. cbn [foldl].
  assert (tasks_ok limit (apply_task_event s e) /\ clock_fits until (apply_task_event s e)) as [H1 H2].
  { unfold apply_task_event. destruct (run_task_event e s) as [s'|] eqn:E; [|done].
    by eapply run_task_ok. }
  by apply IH.
Qed.

End Crontabs.

(** C34: Over any sequence of creations, cancellations, restarts, runs and blocks, failing
    ones included, no task runs more often than it was scheduled for: the count of runs
    stays within the plan, and a task whose runs are used up can not be started.  This is
    so as long as the clock plus the longest interval of a task fits 32 bits
    ([event_fits]: intervals up to [limit], block times up to [until], and
    [until + limit] below 2^32), which the code does not check ([long_period_accepted],
    [wrapped_task_runs_again]). *)
Theorem tasks_run_as_planned {Op} `{ProposedOps Op} (key_addresses : Z -> list Z) (tx_hash : transaction Op -> Z)
    (p : tx_parameters) (limit until : Z) (l : list task_event) (s : tx_state Op)
    (Hl : until + limit < uint32_mod) (Hc : clock_fits until s) (Hs : tasks_ok limit s)
    (He : Forall (event_fits limit until) l) :
  let s' := foldl (apply_task_event key_addresses tx_hash p) s l in
  forall id c, crontabs s' !! id = Some c ->
    already_execute_times c <= scheduled_execute_times c /\
    (already_execute_times c = scheduled_execute_times c ->
       forall trx, is_ok (start_task tx_hash p (task_crontab id) trx s') = false).
Proof.
  cbv zeta. intros id c Hid.
  pose proof (run_tasks_ok key_addresses tx_hash p limit until l s Hl Hc He Hs) as Hok.
  set (s' := foldl _ s l) in *. clearbody s'.
  destruct (Hok _ _ Hid) as [_ Ht _ Hu]. split; [lia|]. intros E trx. destruct (Hu E) as [Hn _].
  destruct (start_task tx_hash p (task_crontab id) trx s') as [[s2 cron]|] eqn:Es; [|done].
  apply start_task_inv in Es as (c' & Hc' & Hn' & _). rewrite Hid in Hc'. injection Hc' as <-. lia.
Qed.

(** ** Temporary authorities *)

Section Temporary.
Context {Op : Type}.
Implicit Types s : tx_state Op.

Record temporary_authority_change_operation := mk_temporary_change {
  tc_owner : Z;
  tc_describe : string;
  tc_temporary_active : list (Z * Z);
  tc_expiration_time : Z }.

Definition temporary_validate (op : temporary_authority_change_operation) : result unit :=
  fc_assert (negb (bool_decide (length (tc_temporary_active op) = 0%nat))).

(** The keys of the entries from the owner's to the end of the index, in the order of the
    owners; none without an entry of the owner. *)
Definition keys_from (owner : Z) s : list (Z * Z) :=
  match temporary_active s !! owner with
  | Some _ => filter (fun kv => owner <= kv.1) (map_to_list (temporary_active s)) ≫= fun kv => temporary_keys kv.2
  | None => []
  end.

(** Temporary keys may not extend themselves, unless a block is produced or applied. *)
Definition temporary_do_evaluate (mode : transaction_apply_mode) (sigkeys : gset Z)
    (op : temporary_authority_change_operation) s : result unit :=
  check tc_expiration_time op >? head_block_time (ledger s);
  if negb (bool_decide (mode = apply_block_mode)) && negb (bool_decide (mode = production_block_mode))
  then fc_assert (forallb (fun kw => negb (bool_decide (kw.1 ∈ sigkeys))) (keys_from (tc_owner op) s))
  else Ok tt.

(** An entry of the owner under another description is not found, and the new one
    collides with it. *)
Definition temporary_do_apply (op : temporary_authority_change_operation) s : result (tx_state Op) :=
  let t := mk_temporary (tc_describe op) (tc_temporary_active op) (tc_expiration_time op) in
  let put := set_temporary_active (<[tc_owner op := t]> (temporary_active s)) s in
  match temporary_active s !! tc_owner op with
  | Some old => check String.eqb (temporary_describe old) (tc_describe op); Ok put
  | None => Ok put
  end.

Definition temporary_change (mode : transaction_apply_mode) (sigkeys : gset Z)
    (op : temporary_authority_change_operation) s : result (tx_state Op) :=
  let* _ := temporary_validate op in
  let* _ := temporary_do_evaluate mode sigkeys op s in
  temporary_do_apply op s.

(** The active authority with further keys; a key it has keeps its weight. *)
Definition lent (keys : list (Z * Z)) (a : authority) : authority :=
  mk_authority (weight_threshold a) (account_auths a)
    (key_auths a ++ filter (fun kw => negb (existsb (fun old => old.1 =? kw.1) (key_auths a))) keys) (address_auths a).

Lemma lent_nil a : lent [] a = a.
Proof. destruct a. unfold lent. cbn. by rewrite app_nil_r. Qed.

Lemma get_active_lent s id a :
  accounts (ledger s) !! id = Some a ->
  get_active s id = Ok (Some (lent (from_option temporary_keys [] (temporary_active s !! id)) (active_auth a))).
Proof.
  intros Ha. unfold get_active, get_account. rewrite Ha. cbn. by destruct (temporary_active s !! id).
Qed.

End Temporary.

(** A change of a temporary authority lends the active authority of its owner to the
    given keys, with no effect on other accounts; the keys count until the first block
    later than the expiration, which takes exactly them away again. *)
Theorem temporary_keys_lent {Op} (mode : transaction_apply_mode) (sigkeys : gset Z)
    (op : temporary_authority_change_operation) (s s' : tx_state Op) (acc : account_object) (t : Z)
    (H : temporary_change mode sigkeys op s = Ok s') (Ha : accounts (ledger s) !! tc_owner op = Some acc) :
  head_block_time (ledger s) < tc_expiration_time op /\
  get_active s' (tc_owner op) = Ok (Some (lent (tc_temporary_active op) (active_auth acc))) /\
  (forall id, id <> tc_owner op -> get_active s' id = get_active s id) /\
  exists s'', clear_expired_active (next_head t ∅ s') = Some s'' /\
    get_active s'' (tc_owner op)
    = Ok (Some (if t <=? tc_expiration_time op then lent (tc_temporary_active op) (active_auth acc) else active_auth acc)).
Proof.
  unfold temporary_change in H. apply rbind_ok in H as ([] & _ & H). apply rbind_ok in H as ([] & He & H).
  unfold temporary_do_evaluate in He. apply rbind_ok in He as ([] & He & _). unfold fc_assert in He.
  destruct (Z.gtb_spec (tc_expiration_time op) (head_block_time (ledger s))); [|done].
  assert (s' = set_temporary_active (<[tc_owner op := mk_temporary (tc_describe op) (tc_temporary_active op)
            (tc_expiration_time op)]> (temporary_active s)) s) as ->.
  { unfold temporary_do_apply in H. destruct (temporary_active s !! tc_owner op); [|by injection H as <-].
    by apply rbind_ok in H as ([] & _ & [= <-]). }
  split; [lia|]. split; [|split].
  - erewrite get_active_lent by done. cbn [temporary_active set_temporary_active]. by rewrite lookup_insert_eq.
  - intros id n. unfold get_active. cbn [temporary_active set_temporary_active ledger]. by rewrite lookup_insert_ne.
  - rewrite clear_active_exact. eexists. split; [done|].
    erewrite get_active_lent by (cbn; done).
    cbn [temporary_active set_temporary_active next_head ledger head_block_time set_head_block_time].
    rewrite map_lookup_filter, lookup_insert_eq. cbn [option_bind mbind snd temporary_expiration].
    rewrite Z.gtb_ltb, Z.leb_antisym. destruct (tc_expiration_time op <? t); cbn; [by rewrite lent_nil|done].
Qed.

(** ** Tasks at work *)

Definition demo_task_params : tx_parameters :=
  mk_tx_parameters 2000000 1 3 2 86400 7200 3 259200 0 0 (mk_fee_parameters 10000 86400).
Definition demo_task_state : tx_state Z := mk_tx_state demo_prop_db ∅ ∅ ∅ ∅ 0 ∅ ∅ 3 [].
Definition demo_task_events (interval times : Z) : list (task_event (Op:=Z)) :=
  let run := TaskRun 0 (mk_trx 0 0 0 [] None []) false in
  [TaskCreate 1 (3, 7) (mk_crontab_create 21 [21] 2000 interval times); run; TaskBlock 2000; run; run;
   TaskBlock 2060; run; TaskBlock 2090; TaskRecover 21 0 2300; run; TaskBlock 2200; run].
Definition demo_task_run (interval times : Z) : tx_state Z :=
  foldl (apply_task_event (fun _ => []) (fun _ => 0) demo_task_params) demo_task_state (demo_task_events interval times).
Definition runs_of (s : tx_state Z) : option (Z * Z) :=
  (fun c => (already_execute_times c, scheduled_execute_times c)) <$> crontabs s !! 0.

(** A task of two runs a minute apart runs twice, and is not revived. *)
Lemma tasks_run_as_planned_witness :
  runs_of (demo_task_run 60 2) = Some (2, 2) /\
  forall id c, crontabs (demo_task_run 60 2) !! id = Some c ->
    already_execute_times c <= scheduled_execute_times c /\
    (already_execute_times c = scheduled_execute_times c ->
       forall trx, is_ok (start_task (fun _ => 0) demo_task_params (task_crontab id) trx (demo_task_run 60 2)) = false).
Proof.
  split; [vm_compute; reflexivity|].
  apply (tasks_run_as_planned (fun _ => []) (fun _ => 0) demo_task_params 60 100000).
  - reflexivity.
  - vm_compute. split; discriminate.
  - intros id c Hc. cbn in Hc. by rewrite lookup_empty in Hc.
  - repeat constructor; cbn; try lia.
Defined.

(** The check of the period has 32 bits: a million runs every 2^32 seconds pass for a
    period of thirty days. *)
Theorem long_period_accepted :
  crontab_create_do_evaluate (mk_crontab_create 21 [21] 2000 (2 ^ 32) 1000000) demo_task_state = Ok tt.
Proof. vm_compute. reflexivity. Qed.

(** Times have 32 bits and intervals 64: with an interval of 2863311532 seconds the next run
    of a task is due in the past, while three intervals make four seconds; the block at
    its start may run a task planned for three runs a fourth time. *)
Theorem wrapped_task_runs_again :
  let run := TaskRun 0 (mk_trx 0 0 0 [] None []) false in
  runs_of (foldl (apply_task_event (fun _ => []) (fun _ => 0) demo_task_params) demo_task_state
    [TaskBlock 1599999997; TaskCreate 1 (3, 7) (mk_crontab_create 21 [21] 1600000000 2863311532 3);
     TaskBlock 1600000000; run; run; run; run]) = Some (4, 3).
Proof. vm_compute. reflexivity. Qed.

(** ** Temporary keys at work *)

Definition demo_lend (owner key : Z) (describe : string) : temporary_authority_change_operation :=
  mk_temporary_change owner describe [(key, 1)] 5000.
Definition lend_all (l : list temporary_authority_change_operation) (sigkeys : gset Z) : result (tx_state Z) :=
  foldl (fun r op => let* s := r in temporary_change push_mode sigkeys op s) (Ok demo_task_state) l.

Lemma temporary_keys_lent_witness :
  exists s', temporary_change push_mode ∅ (demo_lend 21 9 "shop") demo_task_state = Ok s' /\
  exists s'', clear_expired_active (next_head 6000 ∅ s') = Some s'' /\
    get_active s'' 21 = Ok (Some null_authority).
Proof.
  destruct (temporary_change push_mode ∅ (demo_lend 21 9 "shop") demo_task_state) as [s'|] eqn:E; [|by vm_compute in E].
  destruct (temporary_keys_lent _ _ _ _ _ (basic_account ∅ None) 6000 E ltac:(vm_compute; reflexivity))
    as (_ & _ & _ & s'' & Hs & Hg).
  exists s'. split; [done|]. exists s''. split; [exact Hs|exact Hg].
Defined.

(** While an authority of the owner stands, one under another description is refused. *)
Theorem second_description_refused :
  lend_all [demo_lend 21 9 "shop"; demo_lend 21 10 "office"] ∅ = Err assert_exception.
Proof. vm_compute. reflexivity. Qed.

(** The search for temporary keys goes on to the accounts after the owner: account 21 can
    not renew its authority with a signature of key 10, which is a temporary key of
    account 22 only. *)
Theorem neighbour_key_refused :
  is_ok (lend_all [demo_lend 22 10 "shop"; demo_lend 21 9 "shop"; demo_lend 21 9 "shop"] ∅) = true /\
  lend_all [demo_lend 22 11 "shop"; demo_lend 21 9 "shop"; demo_lend 21 9 "shop"] {[ 10 ]} <> Err assert_exception /\
  lend_all [demo_lend 22 10 "shop"; demo_lend 21 9 "shop"; demo_lend 21 9 "shop"] {[ 10 ]} = Err assert_exception.
Proof. vm_compute. done. Qed.
