(* ===== verification/Files.v ===== *)
(** * Files

    [file_evaluator.cpp] and [protocol/file.cpp]: documents on the chain, the accounts that
    may sign them, their signatures, and the parent a file has. *)

From S2P Require Import Prelude SafeInt Asset State NhAssets.

(** ** State *)

Record file_object := mk_file {
  file_name : string;
  file_owner : Z;
  file_create_time : Z;
  file_content : string;
  related_account : gset Z;
  file_signatures : gmap Z string;
  parent_file : option Z;
  sub_file : list Z }.

Record file_state := mk_file_state { files : gmap Z file_object; next_file : Z }.

Definition get_file (id : Z) (s : file_state) : result file_object := get_or (files s !! id) assert_exception.
Definition put_file (id : Z) (f : file_object) (s : file_state) : file_state :=
  mk_file_state (<[id := f]> (files s)) (next_file s).

(** ** Operations *)

Record create_file_operation := mk_create_file { cf_owner : Z; cf_name : string; cf_content : string }.

Definition create_file_validate (op : create_file_operation) : result unit :=
  let n := Z.of_nat (String.length (cf_name op)) in
  check negb (n =? 0);
  check (3 <=? n) && (n <=? 20);
  check negb (starts_with_digit (cf_name op));
  fc_assert (negb (String.eqb (cf_content op) "")).

(** The index is unique in the name. *)
Definition create_file_do_apply (now : Z) (op : create_file_operation) (s : file_state)
    : result (Z * file_state) :=
  check forallb (fun kf => negb (String.eqb (file_name kf.2) (cf_name op))) (map_to_list (files s));
  let id := next_file s in
  Ok (id, mk_file_state
            (<[id := mk_file (cf_name op) (cf_owner op) now (cf_content op) ∅ ∅ None []]> (files s)) (id + 1)).

Definition relate_account_validate (related : gset Z) : result unit :=
  fc_assert (negb (bool_decide (related = ∅))).

Definition relate_account_do_evaluate (acc id : Z) (s : file_state) : result unit :=
  let* f := get_file id s in
  check file_owner f =? acc;
  fc_assert (bool_decide (related_account f = ∅)).

Definition relate_account_do_apply (id : Z) (related : gset Z) (s : file_state) : result file_state :=
  let* f := get_file id s in
  Ok (put_file id (mk_file (file_name f) (file_owner f) (file_create_time f) (file_content f) related
                     (file_signatures f) (parent_file f) (sub_file f)) s).

Definition sign_file_validate (signature : string) : result unit := fc_assert (negb (String.eqb signature "")).

Definition sign_file_do_evaluate (acc id : Z) (s : file_state) : result unit :=
  let* f := get_file id s in
  check bool_decide (acc ∈ related_account f);
  fc_assert (bool_decide (file_signatures f !! acc = None)).

(** [insert] of a map keeps an entry it has. *)
Definition sign_file_do_apply (acc id : Z) (signature : string) (s : file_state) : result file_state :=
  let* f := get_file id s in
  let m := file_signatures f in
  Ok (put_file id (mk_file (file_name f) (file_owner f) (file_create_time f) (file_content f) (related_account f)
                     (match m !! acc with Some _ => m | None => <[acc := signature]> m end)
                     (parent_file f) (sub_file f)) s).

Record relate_parent_file_operation := mk_relate_parent {
  rp_sub_file_owner : Z;
  rp_parent_file : Z;
  rp_parent_file_owner : Z;
  rp_sub_file : Z }.

Definition relate_parent_validate (op : relate_parent_file_operation) : result unit :=
  fc_assert (negb (rp_parent_file op =? rp_sub_file op)).

Definition relate_parent_do_evaluate (op : relate_parent_file_operation) (s : file_state) : result unit :=
  let* pf := get_file (rp_parent_file op) s in
  check file_owner pf =? rp_parent_file_owner op;
  let* sf := get_file (rp_sub_file op) s in
  check match parent_file sf with None => true | Some _ => false end;
  fc_assert (file_owner sf =? rp_sub_file_owner op).

Definition add_sub_file (sub : Z) (f : file_object) : file_object :=
  mk_file (file_name f) (file_owner f) (file_create_time f) (file_content f) (related_account f)
    (file_signatures f) (parent_file f) (sub_file f ++ [sub]).
Definition set_parent_file (parent : Z) (f : file_object) : file_object :=
  mk_file (file_name f) (file_owner f) (file_create_time f) (file_content f) (related_account f)
    (file_signatures f) (Some parent) (sub_file f).

Definition relate_parent_do_apply (op : relate_parent_file_operation) (s : file_state) : result file_state :=
  let* pf := get_file (rp_parent_file op) s in
  let s := put_file (rp_parent_file op) (add_sub_file (rp_sub_file op) pf) s in
  let* sf := get_file (rp_sub_file op) s in
  Ok (put_file (rp_sub_file op) (set_parent_file (rp_parent_file op) sf) s).

(** ** Sequences of operations *)

Inductive file_op :=
| FileCreate (now : Z) (op : create_file_operation)
| FileRelate (acc id : Z) (related : gset Z)
| FileSign (acc id : Z) (signature : string)
| FileParent (op : relate_parent_file_operation).

Definition run_file_op (op : file_op) (s : file_state) : result file_state :=
  match op with
  | FileCreate now op =>
      let* _ := create_file_validate op in
      let* (_, s) := create_file_do_apply now op s in Ok s
  | FileRelate acc id related =>
      let* _ := relate_account_validate related in
      let* _ := relate_account_do_evaluate acc id s in relate_account_do_apply id related s
  | FileSign acc id signature =>
      let* _ := sign_file_validate signature in
      let* _ := sign_file_do_evaluate acc id s in sign_file_do_apply acc id signature s
  | FileParent op =>
      let* _ := relate_parent_validate op in
      let* _ := relate_parent_do_evaluate op s in relate_parent_do_apply op s
  end.

Definition apply_file_op (s : file_state) (op : file_op) : file_state :=
  match run_file_op op s with Ok s' => s' | Err _ => s end.

(** ** What holds of files *)

(** The files listed below a file, and the parent of a file. *)
Definition subs (s : file_state) (i : Z) : list Z := from_option sub_file [] (files s !! i).
Definition parent (s : file_state) (j : Z) : option Z := files s !! j ≫= parent_file.

(** Only related accounts have signed; a file is listed by its parent, once, and by no
    other file; names are unique; ids are below the next. *)
Record files_ok (s : file_state) : Prop := {
  signed_by_related : forall id f acc, files s !! id = Some f -> is_Some (file_signatures f !! acc) -> acc ∈ related_account f;
  links_match : forall i j, j ∈ subs s i <-> parent s j = Some i;
  subs_once : forall i, NoDup (subs s i);
  names_unique : forall i j f g, files s !! i = Some f -> files s !! j = Some g -> file_name f = file_name g -> i = j;
  files_fresh : forall id, next_file s <= id -> files s !! id = None }.

(** What no operation takes from a file: its name, owner, content and time; its signatures,
    and a parent that was set. *)
Definition file_kept (f g : file_object) : Prop :=
  file_name g = file_name f /\ file_owner g = file_owner f /\ file_content g = file_content f
  /\ file_create_time g = file_create_time f /\ file_signatures f ⊆ file_signatures g
  /\ (forall i, parent_file f = Some i -> parent_file g = Some i).

Definition files_kept (s s' : file_state) : Prop :=
  forall id f, files s !! id = Some f -> exists g, files s' !! id = Some g /\ file_kept f g.

Lemma file_kept_refl f : file_kept f f.
Proof. unfold file_kept. auto 10. Qed.
Lemma files_kept_refl s : files_kept s s.
Proof. intros id f Hf. exists f. split; [done|apply file_kept_refl]. Qed.
Lemma files_kept_trans s1 s2 s3 : files_kept s1 s2 -> files_kept s2 s3 -> files_kept s1 s3.
Proof.
  intros H12 H23 id f Hf. destruct (H12 _ _ Hf) as (g & Hg & K1). destruct (H23 _ _ Hg) as (h & Hh & K2).
  exists h. split; [done|]. unfold file_kept in *. destruct K1 as (?&?&?&?&?&?), K2 as (?&?&?&?&?&?).
  repeat split; try congruence; [by etrans|auto].
Qed.

Lemma get_file_ok id s f : get_file id s = Ok f -> files s !! id = Some f.
Proof. unfold get_file, get_or. destruct (files s !! id); [by intros [= <-]|done]. Qed.

Lemma subs_put id f s i : subs (put_file id f s) i = if decide (i = id) then sub_file f else subs s i.
Proof.
  unfold subs, put_file. cbn. destruct (decide (i = id)) as [->|]; [by rewrite lookup_insert_eq|].
  by rewrite lookup_insert_ne.
Qed.
Lemma parent_put id f s j : parent (put_file id f s) j = if decide (j = id) then parent_file f else parent s j.
Proof.
  unfold parent, put_file. cbn. destruct (decide (j = id)) as [->|]; [by rewrite lookup_insert_eq|].
  by rewrite lookup_insert_ne.
Qed.

(** Replacing a file by one that keeps it: signatures, names and ids stay right. *)
Lemma put_keeps id f g s :
  files s !! id = Some f -> file_kept f g -> files_kept s (put_file id g s).
Proof.
  intros Hf Hk i h Hi. unfold put_file. cbn. destruct (decide (i = id)) as [->|n].
  - rewrite lookup_insert_eq. exists g. split; [done|]. congruence.
  - rewrite lookup_insert_ne by done. exists h. split; [done|apply file_kept_refl].
Qed.

Lemma put_names id f g s :
  files s !! id = Some f -> file_name g = file_name f ->
  (forall i j f g, files s !! i = Some f -> files s !! j = Some g -> file_name f = file_name g -> i = j) ->
  forall i j f g', files (put_file id g s) !! i = Some f -> files (put_file id g s) !! j = Some g' ->
    file_name f = file_name g' -> i = j.
Proof.
  intros Hf Hn U i j f1 g1. unfold put_file. cbn.
  destruct (decide (i = id)) as [->|], (decide (j = id)) as [->|];
    rewrite ?lookup_insert_eq, ?lookup_insert_ne by done; intros H1 H2 E; simplify_eq; try done.
  - symmetry. eapply (U j id); [done|done|congruence].
  - eapply (U i id); [done|done|congruence].
  - by eapply U.
Qed.

Lemma put_fresh id f g s :
  files s !! id = Some f -> (forall i, next_file s <= i -> files s !! i = None) ->
  forall i, next_file (put_file id g s) <= i -> files (put_file id g s) !! i = None.
Proof.
  intros Hf F i Hi. unfold put_file in *. cbn in *. rewrite lookup_insert_ne; [by apply F|].
  intros ->. rewrite F in Hf by done. done.
Qed.

Lemma put_signed id g s :
  (forall i f acc, files s !! i = Some f -> is_Some (file_signatures f !! acc) -> acc ∈ related_account f) ->
  (forall acc, is_Some (file_signatures g !! acc) -> acc ∈ related_account g) ->
  forall i f acc, files (put_file id g s) !! i = Some f -> is_Some (file_signatures f !! acc) -> acc ∈ related_account f.
Proof.
  intros S Hg i f acc. unfold put_file. cbn. destruct (decide (i = id)) as [->|].
  - rewrite lookup_insert_eq. intros [= <-]. apply Hg.
  - rewrite lookup_insert_ne by done. apply S.
Qed.

(** Replacing a file by one with the same links. *)
Lemma put_same_links id f g s :
  files_ok s -> files s !! id = Some f -> file_kept f g -> sub_file g = sub_file f -> parent_file g = parent_file f ->
  (forall acc, is_Some (file_signatures g !! acc) -> acc ∈ related_account g) ->
  files_ok (put_file id g s) /\ files_kept s (put_file id g s).
Proof.
  intros [S L N U F] Hf Hk Hs Hp Hg.
  assert (Hsub : forall i, subs (put_file id g s) i = subs s i).
  { intros i. rewrite subs_put. destruct (decide (i = id)) as [->|]; [|done]. unfold subs. by rewrite Hf. }
  assert (Hpar : forall i, parent (put_file id g s) i = parent s i).
  { intros i. rewrite parent_put. destruct (decide (i = id)) as [->|]; [|done]. unfold parent. by rewrite Hf. }
  split; [|by eapply put_keeps]. split.
  - by apply put_signed.
  - intros i j. by rewrite Hsub, Hpar.
  - intros i. by rewrite Hsub.
  - eapply put_names; [done|apply Hk|done].
  - by eapply put_fresh.
Qed.

Lemma create_file_ok now op s id s' :
  files_ok s -> create_file_do_apply now op s = Ok (id, s') -> files_ok s' /\ files_kept s s'.
Proof.
  intros [S L N U F] H. unfold create_file_do_apply in H. apply rbind_ok in H as ([] & Hu & [= <- <-]).
  set (g := mk_file _ _ _ _ _ _ _ _). assert (Hnew : files s !! next_file s = None) by (apply F; lia).
  assert (Hlk : forall i f, <[next_file s := g]> (files s) !! i = Some f ->
            (i = next_file s /\ f = g) \/ (i <> next_file s /\ files s !! i = Some f)).
  { intros i f. destruct (decide (i = next_file s)) as [->|]; [rewrite lookup_insert_eq; intros [= <-]; by left|].
    rewrite lookup_insert_ne by done. by right. }
  assert (Hname : forall i f, files s !! i = Some f -> file_name f <> cf_name op).
  { intros i f Hi E. unfold fc_assert in Hu. destruct (forallb _ _) eqn:Hall; [|done].
    rewrite forallb_forall in Hall. specialize (Hall (i, f)). cbn in Hall.
    rewrite E, String.eqb_refl in Hall. by discriminate Hall; apply list_elem_of_In, elem_of_map_to_list. }
  split; [split; cbn [files next_file]|].
  - intros i f acc Hi%Hlk. destruct Hi as [[-> ->]|[_ Hi]]; [by intros [x Hx]|by eapply S].
  - intros i j. unfold subs, parent in *. cbn [files]. specialize (L i j).
    destruct (decide (i = next_file s)) as [->|], (decide (j = next_file s)) as [->|];
      rewrite ?lookup_insert_eq, ?lookup_insert_ne by done; rewrite ?Hnew in L; cbn in *; try done; set_solver.
  - intros i. unfold subs in *. cbn [files]. destruct (decide (i = next_file s)) as [->|].
    + rewrite lookup_insert_eq. constructor.
    + rewrite lookup_insert_ne by done. apply N.
  - intros i j f h Hi%Hlk Hj%Hlk E.
    destruct Hi as [[-> ->]|[? Hi]], Hj as [[-> ->]|[? Hj]]; try done.
    + by apply Hname in Hj.
    + by apply Hname in Hi.
    + by eapply U.
  - intros i Hi. rewrite lookup_insert_ne by lia. apply F. lia.
  - intros i f Hi. cbn. exists f. split; [|apply file_kept_refl]. rewrite lookup_insert_ne; [done|]. congruence.
Qed.

Lemma relate_parent_ok op s s' :
  files_ok s -> relate_parent_validate op = Ok tt -> relate_parent_do_evaluate op s = Ok tt ->
  relate_parent_do_apply op s = Ok s' -> files_ok s' /\ files_kept s s'.
Proof.
  intros [S L N U F] Hv He Ha. set (P := rp_parent_file op) in *. set (B := rp_sub_file op) in *.
  unfold relate_parent_validate, fc_assert in Hv. fold P B in Hv. destruct (Z.eqb_spec P B) as [|Hne]; [done|].
  unfold relate_parent_do_evaluate in He. fold P B in He. apply rbind_ok in He as (pf & Hpf & He).
  apply rbind_ok in He as ([] & _ & He). apply rbind_ok in He as (sf & Hsf & He).
  apply rbind_ok in He as ([] & Hnone & _). apply get_file_ok in Hpf, Hsf.
  assert (Hp0 : parent_file sf = None) by (by destruct (parent_file sf)).
  assert (s' = put_file B (set_parent_file P sf) (put_file P (add_sub_file B pf) s)) as ->.
  { unfold relate_parent_do_apply in Ha. fold P B in Ha. unfold get_file at 1 in Ha. rewrite Hpf in Ha. cbn [get_or rbind] in Ha.
    unfold get_file in Ha. cbn [files put_file] in Ha. rewrite lookup_insert_ne, Hsf in Ha by done. by injection Ha as <-. }
  set (s1 := put_file P (add_sub_file B pf) s).
  assert (Hs1 : files s1 !! B = Some sf) by (cbn; by rewrite lookup_insert_ne).
  assert (K1 : file_kept pf (add_sub_file B pf)) by (by repeat split).
  assert (K2 : file_kept sf (set_parent_file P sf)) by (repeat split; cbn; try done; by rewrite Hp0).
  assert (HB : forall i, B ∉ subs s i) by (intros i Hi%L; unfold parent in Hi; rewrite Hsf in Hi; cbn in Hi; congruence).
  assert (Hsub : forall i, subs (put_file B (set_parent_file P sf) s1) i
                           = if decide (i = P) then subs s P ++ [B] else subs s i).
  { intros i. rewrite subs_put. unfold s1. rewrite subs_put.
    assert (subs s P = sub_file pf) as -> by (unfold subs; by rewrite Hpf).
    assert (subs s B = sub_file sf) as Hsb by (unfold subs; by rewrite Hsf).
    destruct (decide (i = B)) as [->|]; destruct (decide (_ = P)); try done; congruence. }
  assert (Hpar : forall j, parent (put_file B (set_parent_file P sf) s1) j = if decide (j = B) then Some P else parent s j).
  { intros j. rewrite parent_put. destruct (decide (j = B)); [done|]. unfold s1. rewrite parent_put.
    destruct (decide (j = P)) as [->|]; [|done]. unfold parent. by rewrite Hpf. }
  split; [split|eapply files_kept_trans; eapply put_keeps; done].
  - apply put_signed; [apply put_signed; [done|]|]; cbn; eauto.
  - intros i j. rewrite Hsub, Hpar. destruct (decide (i = P)) as [->|], (decide (j = B)) as [->|];
      rewrite ?elem_of_app, ?list_elem_of_singleton, ?L; split; intros; try naive_solver.
  - intros i. rewrite Hsub. destruct (decide (i = P)); [|done]. apply NoDup_app. split; [done|].
    split; [|apply NoDup_singleton]. intros x Hx ->%list_elem_of_singleton. by eapply HB.
  - eapply put_names; [done|done|]. by eapply put_names.
  - eapply put_fresh; [done|]. by eapply put_fresh.
Qed.

Lemma run_file_ok op s s' : files_ok s -> run_file_op op s = Ok s' -> files_ok s' /\ files_kept s s'.
Proof.
  intros Hok H. destruct op as [now op|acc id rel|acc id sig|op]; cbn [run_file_op] in H.
  - apply rbind_ok in H as ([] & _ & H). apply rbind_ok in H as ([i s1] & H & [= <-]). by eapply create_file_ok.
  - apply rbind_ok in H as ([] & _ & H). apply rbind_ok in H as ([] & He & H).
    unfold relate_account_do_evaluate in He. apply rbind_ok in He as (f & Hf%get_file_ok & He).
    apply rbind_ok in He as ([] & _ & He). unfold fc_assert in He. case_bool_decide as Hr; [|done].
    unfold relate_account_do_apply, get_file in H. rewrite Hf in H. injection H as <-.
    eapply put_same_links; [done|done|unfold file_kept; auto 10|done|done|].
    intros a Ha. cbn in *. pose proof (signed_by_related s Hok _ _ a Hf Ha). set_solver.
  - apply rbind_ok in H as ([] & _ & H). apply rbind_ok in H as ([] & He & H).
    unfold sign_file_do_evaluate in He. apply rbind_ok in He as (f & Hf%get_file_ok & He).
    apply rbind_ok in He as ([] & Hr & He). unfold fc_assert in He, Hr.
    case_bool_decide as Hn; [|done]. case_bool_decide as Hr'; [|done].
    unfold sign_file_do_apply, get_file in H. rewrite Hf in H. cbn [get_or rbind] in H. rewrite Hn in H. injection H as <-.
    eapply put_same_links; [done|done| |done|done|].
    + unfold file_kept. cbn. repeat split; auto. by apply insert_subseteq.
    + intros a. cbn. destruct (decide (a = acc)) as [->|n]; [done|]. rewrite lookup_insert_ne by done.
      intros Ha. by eapply (signed_by_related s Hok).
  - apply rbind_ok in H as ([] & Hv & H). apply rbind_ok in H as ([] & He & H). by eapply relate_parent_ok.
Qed.

(** C40: Over any sequence of operations on files, failing ones included, only related
    accounts have signed a file, a file is listed below its parent, once, and below no
    other file, and names stay unique; and what a file said, who owns it, its signatures
    and a parent it was given stay for ever. *)
Theorem files_stand (l : list file_op) (s : file_state) (Hok : files_ok s) :
  let s' := foldl apply_file_op s l in files_ok s' /\ files_kept s s'.
Proof.
  cbv zeta. revert s Hok. induction l as [|op l IH]; intros s Hok; [split; [done|apply files_kept_refl]|].
  cbn [foldl].
  assert (files_ok (apply_file_op s op) /\ files_kept s (apply_file_op s op)) as [H1 H2].
  { unfold apply_file_op. destruct (run_file_op op s) as [s'|] eqn:E; [by eapply run_file_ok|].
    split; [done|apply files_kept_refl]. }
  destruct (IH _ H1) as [H3 H4]. split; [done|by eapply files_kept_trans].
Qed.

(** ** Files at work *)

Definition no_files : file_state := mk_file_state ∅ 0.
Lemma no_files_ok : files_ok no_files.
Proof.
  split.
  - intros id f acc Hf. cbn in Hf. by rewrite lookup_empty in Hf.
  - intros i j. unfold subs, parent. cbn. rewrite !lookup_empty. cbn. set_solver.
  - intros i. unfold subs. cbn. rewrite lookup_empty. constructor.
  - intros i j f g Hf. cbn in Hf. by rewrite lookup_empty in Hf.
  - intros id _. apply lookup_empty.
Qed.

Definition demo_file_ops : list file_op :=
  [FileCreate 100 (mk_create_file 5 "contract" "text"); FileCreate 103 (mk_create_file 6 "annex" "more");
   FileSign 7 0 "early"; FileRelate 5 0 {[ 7 ]}; FileSign 7 0 "signed"; FileSign 7 0 "again";
   FileParent (mk_relate_parent 6 0 5 1); FileParent (mk_relate_parent 5 1 6 0)].

Lemma files_stand_witness :
  let s := foldl apply_file_op no_files demo_file_ops in
  (file_signatures <$> files s !! 0) = Some {[ 7 := "signed"%string ]} /\ files_ok s.
Proof.
  split; [vm_compute; reflexivity|]. exact (proj1 (files_stand demo_file_ops no_files no_files_ok)).
Defined.

(** Two files can be each other's parent. *)
Theorem files_in_a_circle :
  let s := foldl apply_file_op no_files demo_file_ops in parent s 0 = Some 1 /\ parent s 1 = Some 0.
Proof. vm_compute. done. Qed.
