(* ===== verification/Schedule.v ===== *)
(** * Time slots, witness schedule and block bookkeeping

    [db_witness_schedule.cpp] (slots and the shuffled schedule), the header check
    of [db_block.cpp] and the per-block updates of [db_update.cpp]: the dynamic
    global properties, the pay of the signing witness, the last irreversible block
    and the maintenance flag.  Times are [time_point_sec] values (32 bits), slot
    numbers 32 and absolute slots 64 bits wide; the block interval is at least one
    second ([chain_parameters::validate]). *)

From stdpp Require Import sorting.
From S2P Require Import Prelude SafeInt Asset Vesting State Ledger Elections Budget Block.

Abbreviation GRAPHENE_100_PERCENT := 10000.
Abbreviation GRAPHENE_IRREVERSIBLE_THRESHOLD := 7000.
Abbreviation GRAPHENE_RECENTLY_MISSED_COUNT_INCREMENT := 4.
Abbreviation GRAPHENE_RECENTLY_MISSED_COUNT_DECREMENT := 3.
Abbreviation GRAPHENE_MAX_UNDO_HISTORY := 10000.
Abbreviation maintenance_flag := 1.

Record witness_object := mk_witness {
  witness_account : Z;
  pay_vb : option Z;
  last_aslot : Z;
  last_confirmed_block_num : Z;
  wit_describe : string }.

Record global_property_object := mk_gpo {
  block_interval : Z;
  maintenance_skip_slots : Z;
  witness_pay_per_block : Z;
  witness_pay_vesting_seconds : Z;
  active_witnesses : list Z }.

Record dynamic_global_property_object := mk_dgp {
  head_block_number : Z;
  head_block_id : block_id_type;
  time : Z;
  current_witness : Z;
  current_transaction_count : Z;
  witness_budget : Z;
  recently_missed_count : Z;
  current_aslot : Z;
  recent_slots_filled : Z;
  dynamic_flags : Z;
  next_maintenance_time : Z;
  last_irreversible_block_num : Z }.

Record chain := mk_chain {
  gpo : global_property_object;
  dgp : dynamic_global_property_object;
  witnesses : gmap Z witness_object;
  current_shuffled_witnesses : list Z;
  block_summaries : gmap Z block_id_type;
  maintenance : maintenance_state;
  ledger : database }.

Definition set_dgp (x : dynamic_global_property_object) (c : chain) : chain :=
  mk_chain (gpo c) x (witnesses c) (current_shuffled_witnesses c) (block_summaries c) (maintenance c) (ledger c).
Definition set_witnesses (x : gmap Z witness_object) (c : chain) : chain :=
  mk_chain (gpo c) (dgp c) x (current_shuffled_witnesses c) (block_summaries c) (maintenance c) (ledger c).
Definition set_shuffled (x : list Z) (c : chain) : chain :=
  mk_chain (gpo c) (dgp c) (witnesses c) x (block_summaries c) (maintenance c) (ledger c).
Definition set_summaries (x : gmap Z block_id_type) (c : chain) : chain :=
  mk_chain (gpo c) (dgp c) (witnesses c) (current_shuffled_witnesses c) x (maintenance c) (ledger c).
Definition set_ledger (x : database) (c : chain) : chain :=
  mk_chain (gpo c) (dgp c) (witnesses c) (current_shuffled_witnesses c) (block_summaries c) (maintenance c) x.

Definition set_gpo (x : global_property_object) (c : chain) : chain :=
  mk_chain x (dgp c) (witnesses c) (current_shuffled_witnesses c) (block_summaries c) (maintenance c) (ledger c).
Definition set_maintenance (x : maintenance_state) (c : chain) : chain :=
  mk_chain (gpo c) (dgp c) (witnesses c) (current_shuffled_witnesses c) (block_summaries c) x (ledger c).

(** ** Slots *)

Definition get_slot_time (slot_num : Z) (c : chain) : Z :=
  if slot_num =? 0 then 0
  else
    let interval := block_interval (gpo c) in
    if head_block_number (dgp c) =? 0 then wrap32 (time (dgp c) + wrap32 (slot_num * interval))
    else
      let head_block_abs_slot := time (dgp c) / interval in
      let head_slot_time := wrap32 (head_block_abs_slot * interval) in
      let slot_num := if negb (Z.land (dynamic_flags (dgp c)) maintenance_flag =? 0)
                      then wrap32 (slot_num + maintenance_skip_slots (gpo c)) else slot_num in
      wrap32 (head_slot_time + wrap32 (slot_num * interval)).

Definition get_slot_at_time (when : Z) (c : chain) : Z :=
  let first_slot_time := get_slot_time 1 c in
  if when <? first_slot_time then 0
  else wrap32 ((when - first_slot_time) / block_interval (gpo c) + 1).

(** Indexing an empty schedule is undefined. *)
Definition get_scheduled_witness (slot_num : Z) (c : chain) : result Z :=
  let aslot := wrap64 (current_aslot (dgp c) + slot_num) in
  let l := current_shuffled_witnesses c in
  get_or (l !! Z.to_nat (aslot mod Z.of_nat (length l))) undefined_behaviour.

(** ** The shuffle *)

Definition xorshift (now_hi i : Z) : Z :=
  let k := wrap64 (now_hi + wrap64 (i * 2685821657736338717)) in
  let k := Z.lxor k (Z.shiftr k 12) in
  let k := Z.lxor k (wrap64 (Z.shiftl k 25)) in
  let k := Z.lxor k (Z.shiftr k 27) in
  wrap64 (k * 2685821657736338717).

Definition swap {A} (i j : nat) (l : list A) : list A :=
  match l !! i, l !! j with
  | Some x, Some y => <[i := y]> (<[j := x]> l)
  | _, _ => l
  end.

(** Iterations [i], [i+1], ..., one per remaining element. *)
Fixpoint shuffle_from (now_hi : Z) (i : nat) (rounds : nat) (l : list Z) : list Z :=
  match rounds with
  | O => l
  | S r =>
      let k := xorshift now_hi (Z.of_nat i) in
      let jmax := Z.of_nat (length l) - Z.of_nat i in
      let j := wrap32 (Z.of_nat i + k mod jmax) in
      shuffle_from now_hi (S i) r (swap i (Z.to_nat j) l)
  end.

Definition shuffle (head_time : Z) (l : list Z) : list Z :=
  shuffle_from (wrap64 (Z.shiftl head_time 32)) 0 (length l) l.

(** The modulo by an empty witness set is undefined. *)
Definition update_witness_schedule (c : chain) : result chain :=
  let active := active_witnesses (gpo c) in
  match active with
  | [] => Err undefined_behaviour
  | _ =>
      if head_block_number (dgp c) mod Z.of_nat (length active) =? 0
      then Ok (set_shuffled (shuffle (time (dgp c)) active) c)
      else Ok c
  end.

(** ** Headers *)

Definition get_witness (w : Z) (c : chain) : result witness_object :=
  get_or (witnesses c !! w) assert_exception.

(** [signed]: the block's signature is the witness's; [skip_*]: skip flags. *)
Definition validate_block_header {Sum Tx} (skip_witness_signature skip_witness_schedule_check : bool)
    (signed : bool) (b : signed_block Sum Tx) (c : chain) : result witness_object :=
  check bool_decide (head_block_id (dgp c) = previous b);
  check time (dgp c) <? timestamp b;
  let* w := get_witness (witness b) c in
  let* _ := if negb skip_witness_signature then fc_assert signed else Ok tt in
  let* _ :=
    if negb skip_witness_schedule_check then
      let slot_num := get_slot_at_time (timestamp b) c in
      check slot_num >? 0;
      let* scheduled := get_scheduled_witness slot_num c in
      fc_assert (witness b =? scheduled)
    else Ok tt in
  Ok w.

(** ** Per-block updates *)

(** [_checkpoints], by block number. *)
Definition last_checkpoint (cps : gmap Z block_id_type) : option Z :=
  last (merge_sort Z.le (map fst (map_to_list cps))).

Definition missed_count (cps : gmap Z block_id_type) (b_num missed : Z) (c : chain) : Z :=
  let r := recently_missed_count (dgp c) in
  if b_num =? 1 then 0
  else if match last_checkpoint cps with Some n => n >=? b_num | None => false end then 0
  else if negb (missed =? 0) then wrap32 (r + wrap32 (GRAPHENE_RECENTLY_MISSED_COUNT_INCREMENT * missed))
  else if r >? GRAPHENE_RECENTLY_MISSED_COUNT_INCREMENT
       then r - GRAPHENE_RECENTLY_MISSED_COUNT_DECREMENT
  else if r >? 0 then r - 1
  else r.

(** The second result is the size given to the undo and the fork database. *)
Definition update_global_dynamic_data {Sum Tx} (cps : gmap Z block_id_type)
    (skip_undo_history_check : bool) (b : signed_block Sum Tx) (c : chain) : result (chain * Z) :=
  let missed := wrap32 (get_slot_at_time (timestamp b) c - 1) in
  let d := dgp c in
  let d' := mk_dgp (block_num b) (block_id b) (timestamp b) (witness b)
              (Z.of_nat (length (transactions b))) (witness_budget d)
              (missed_count cps (block_num b) missed c)
              (wrap64 (current_aslot d + wrap32 (missed + 1)))
              (if missed >=? 128 then 0
               else wrap128 (Z.shiftl (wrap128 (wrap128 (Z.shiftl (recent_slots_filled d) 1) + 1)) missed))
              (dynamic_flags d) (next_maintenance_time d) (last_irreversible_block_num d) in
  let behind := wrap32 (head_block_number d' - last_irreversible_block_num d') in
  let* _ := if negb skip_undo_history_check
            then graphene_assert (behind <? GRAPHENE_MAX_UNDO_HISTORY) undo_database_exception
            else Ok tt in
  let c := set_ledger (set_head_block_time (timestamp b) (ledger c)) (set_dgp d' c) in
  Ok (c, wrap32 (behind + 1)).

(** Pay into the witness's vesting balance, remembering a new one. *)
Definition deposit_witness_pay (w : Z) (amt : Z) (c : chain) : result chain :=
  if amt =? 0 then Ok c
  else
    let* wit := get_witness w c in
    let* (new_vbid, d) :=
      deposit_lazy_vesting (pay_vb wit) (mk_asset amt CORE) (witness_pay_vesting_seconds (gpo c))
        (witness_account wit) (wit_describe wit) true (ledger c) in
    let c := set_ledger d c in
    match new_vbid with
    | Some id =>
        Ok (set_witnesses
              (<[w := mk_witness (witness_account wit) (Some id) (last_aslot wit)
                        (last_confirmed_block_num wit) (wit_describe wit)]> (witnesses c)) c)
    | None => Ok c
    end.

Definition set_budget (x : Z) (d : dynamic_global_property_object) : dynamic_global_property_object :=
  mk_dgp (head_block_number d) (head_block_id d) (time d) (current_witness d)
    (current_transaction_count d) x (recently_missed_count d) (current_aslot d)
    (recent_slots_filled d) (dynamic_flags d) (next_maintenance_time d) (last_irreversible_block_num d).
Definition set_irreversible (x : Z) (d : dynamic_global_property_object) : dynamic_global_property_object :=
  mk_dgp (head_block_number d) (head_block_id d) (time d) (current_witness d)
    (current_transaction_count d) (witness_budget d) (recently_missed_count d) (current_aslot d)
    (recent_slots_filled d) (dynamic_flags d) (next_maintenance_time d) x.
Definition set_flags (x : Z) (d : dynamic_global_property_object) : dynamic_global_property_object :=
  mk_dgp (head_block_number d) (head_block_id d) (time d) (current_witness d)
    (current_transaction_count d) (witness_budget d) (recently_missed_count d) (current_aslot d)
    (recent_slots_filled d) x (next_maintenance_time d) (last_irreversible_block_num d).

Definition update_signing_witness {Sum Tx} (w : Z) (b : signed_block Sum Tx) (c : chain)
    : result chain :=
  let new_block_aslot := wrap64 (current_aslot (dgp c) + get_slot_at_time (timestamp b) c) in
  let pay := Z.min (witness_pay_per_block (gpo c)) (witness_budget (dgp c)) in
  let* budget := Share.sub (witness_budget (dgp c)) pay in
  let c := set_dgp (set_budget budget (dgp c)) c in
  let* c := deposit_witness_pay w pay c in
  let* wit := get_witness w c in
  Ok (set_witnesses
        (<[w := mk_witness (witness_account wit) (pay_vb wit) new_block_aslot (block_num b)
                  (wit_describe wit)]> (witnesses c)) c).

Fixpoint confirmed_of (l : list Z) (c : chain) : result (list Z) :=
  match l with
  | [] => Ok []
  | w :: l' =>
      let* wit := get_witness w c in
      let* r := confirmed_of l' c in
      Ok (last_confirmed_block_num wit :: r)
  end.

(** [std::nth_element] puts at [offset] what sorting would; past the end it is
    undefined. *)
Definition update_last_irreversible_block (c : chain) : result chain :=
  let* vals := confirmed_of (active_witnesses (gpo c)) c in
  let offset := (GRAPHENE_100_PERCENT - GRAPHENE_IRREVERSIBLE_THRESHOLD)
                * Z.of_nat (length vals) / GRAPHENE_100_PERCENT in
  let* n := get_or (merge_sort Z.le vals !! Z.to_nat offset) undefined_behaviour in
  if n >? last_irreversible_block_num (dgp c)
  then Ok (set_dgp (set_irreversible n (dgp c)) c) else Ok c.

Definition update_maintenance_flag (new_flag : bool) (c : chain) : chain :=
  let f := dynamic_flags (dgp c) in
  set_dgp (set_flags (Z.lor (Z.land f (uint32_mod - 1 - maintenance_flag))
                        (if new_flag then maintenance_flag else 0)) (dgp c)) c.

(** The summary of block [n] is kept at [n & 0xffff]. *)
Definition create_block_summary {Sum Tx} (b : signed_block Sum Tx) (c : chain) : chain :=
  set_summaries (<[Z.land (block_num b) 65535 := block_id b]> (block_summaries c)) c.

(** ** Lemmas on slots *)

(** The clock has room for [n] more slots. *)
Record clock_ok (n : Z) (c : chain) : Prop := {
  ck_interval : 0 < block_interval (gpo c);
  ck_skip : 0 <= maintenance_skip_slots (gpo c);
  ck_time : 0 <= time (dgp c);
  ck_room : time (dgp c) + (n + maintenance_skip_slots (gpo c)) * block_interval (gpo c) < uint32_mod }.

(** Where slot zero would be. *)
Definition slot_base (c : chain) : Z :=
  let interval := block_interval (gpo c) in
  if head_block_number (dgp c) =? 0 then time (dgp c)
  else time (dgp c) / interval * interval
       + (if negb (Z.land (dynamic_flags (dgp c)) maintenance_flag =? 0)
          then maintenance_skip_slots (gpo c) * interval else 0).

Lemma slot_base_bounds n c : clock_ok n c -> 1 <= n ->
  0 <= slot_base c /\ time (dgp c) < slot_base c + block_interval (gpo c)
  /\ slot_base c + n * block_interval (gpo c) < uint32_mod.
Proof.
  intros [Hi Hs Ht Hr] Hn. unfold slot_base.
  pose proof (Z.div_mod (time (dgp c)) (block_interval (gpo c)) ltac:(lia)) as Hd.
  pose proof (Z.mod_pos_bound (time (dgp c)) (block_interval (gpo c)) Hi) as Hm.
  assert (0 <= time (dgp c) / block_interval (gpo c)) by (apply Z.div_pos; lia).
  assert (0 <= maintenance_skip_slots (gpo c) * block_interval (gpo c)) by nia.
  assert ((n + maintenance_skip_slots (gpo c)) * block_interval (gpo c)
    = n * block_interval (gpo c) + maintenance_skip_slots (gpo c) * block_interval (gpo c)) by lia.
  assert (time (dgp c) / block_interval (gpo c) * block_interval (gpo c)
    = time (dgp c) - time (dgp c) mod block_interval (gpo c)) by lia.
  assert (0 <= time (dgp c) / block_interval (gpo c) * block_interval (gpo c)) by nia.
  repeat case_if; split_and!; lia.
Qed.

Lemma get_slot_time_value n m c : clock_ok n c -> 1 <= m <= n ->
  get_slot_time m c = slot_base c + m * block_interval (gpo c).
Proof.
  intros Hc Hm. pose proof (slot_base_bounds n c Hc ltac:(lia)) as (B1 & B2 & B3).
  destruct Hc as [Hi Hs Ht Hr]. unfold get_slot_time, slot_base in *.
  destruct (Z.eqb_spec m 0); [lia|].
  set (i := block_interval (gpo c)) in *. set (t := time (dgp c)) in *.
  set (s := maintenance_skip_slots (gpo c)) in *.
  assert (0 <= m * i <= n * i) by nia. assert (0 <= s * i) by nia.
  pose proof (Z.div_mod t i ltac:(lia)) as Hd. pose proof (Z.mod_pos_bound t i Hi) as Hmod.
  assert (0 <= t / i) by (apply Z.div_pos; lia). assert (0 <= t / i * i <= t) by nia.
  destruct (head_block_number (dgp c) =? 0).
  - rewrite (wrap32_small (m * i)) by lia. rewrite wrap32_small by lia. lia.
  - destruct (negb (Z.land (dynamic_flags (dgp c)) maintenance_flag =? 0)).
    + assert ((m + s) * i = m * i + s * i) by lia.
      assert (m + s <= (n + s) * i) by nia.
      rewrite (wrap32_small (t / i * i)) by lia. rewrite (wrap32_small (m + s)) by lia.
      rewrite (wrap32_small ((m + s) * i)) by lia. rewrite wrap32_small by lia. lia.
    + rewrite (wrap32_small (t / i * i)) by lia. rewrite (wrap32_small (m * i)) by lia.
      rewrite wrap32_small by lia. lia.
Qed.

Lemma get_slot_at_time_value n m t c : clock_ok n c -> 1 <= m <= n ->
  get_slot_time m c <= t < get_slot_time m c + block_interval (gpo c) ->
  get_slot_at_time t c = m.
Proof.
  intros Hc Hm Ht. pose proof (slot_base_bounds n c Hc ltac:(lia)) as (B1 & B2 & B3).
  rewrite (get_slot_time_value n m c Hc Hm) in Ht. unfold get_slot_at_time.
  rewrite (get_slot_time_value n 1 c Hc) by lia. destruct Hc as [Hi _ _ Hr].
  set (i := block_interval (gpo c)) in *. set (s := slot_base c) in *.
  destruct (Z.ltb_spec t (s + 1 * i)) as [Hlt|Hge]; [nia|].
  assert (Hq : (t - (s + 1 * i)) / i = m - 1) by (symmetry; apply (Z.div_unique _ _ _ (t - (s + m * i))); lia).
  rewrite Hq. rewrite wrap32_small; [lia|]. split; [lia|]. nia.
Qed.

(** ** Lemmas on the shuffle *)

Lemma swap_perm {A} i j (l : list A) : swap i j l ≡ₚ l.
Proof.
  unfold swap. destruct (l !! i) as [x|] eqn:Ei; [|done]. destruct (l !! j) as [y|] eqn:Ej; [|done].
  by apply Permutation_insert_swap.
Qed.

Lemma shuffle_perm now l : shuffle now l ≡ₚ l.
Proof.
  unfold shuffle. generalize (wrap64 (Z.shiftl now 32)) 0%nat (length l). intros h i r. revert i l.
  induction r as [|r IH]; intros i l; cbn; [done|]. by rewrite IH, swap_perm.
Qed.

(** Reading a list cyclically from any position is a rotation of it. *)
Lemma cyclic_perm {A} (l : list A) (a : nat) : l <> [] ->
  map (fun i => l !! ((a + i) mod length l)%nat) (seq 1 (length l)) ≡ₚ map Some l.
Proof.
  intros Hl. assert (Hn : length l <> 0%nat) by (by destruct l).
  set (k := ((a + 1) mod length l)%nat).
  assert (Hk : (k < length l)%nat) by (apply Nat.mod_upper_bound; done).
  replace (map _ (seq 1 (length l))) with (map Some (drop k l ++ take k l)).
  - rewrite <- (take_drop k l) at 3. apply Permutation_map, Permutation_app_comm.
  - apply list_eq. intros i. rewrite !list_lookup_fmap.
    destruct (decide (i < length l)%nat) as [Hi|Hi].
    + rewrite (lookup_seq_lt 1 (length l) i) by done. cbn.
      assert (Hidx : ((a + S i) mod length l)%nat
        = if decide (k + i < length l)%nat then (k + i)%nat else (k + i - length l)%nat).
      { replace (a + S i)%nat with (a + 1 + i)%nat by lia. rewrite Nat.Div0.add_mod.
        fold k. rewrite (Nat.mod_small i) by done. case_decide.
        - by apply Nat.mod_small.
        - replace (k + i)%nat with (k + i - length l + 1 * length l)%nat at 1 by lia.
          rewrite Nat.Div0.mod_add. apply Nat.mod_small. lia. }
      rewrite Hidx. case_decide.
      * rewrite lookup_app_l by (rewrite length_drop; lia). rewrite lookup_drop.
        destruct (lookup_lt_is_Some_2 l (k + i)) as [x ->]; done.
      * rewrite lookup_app_r by (rewrite length_drop; lia). rewrite length_drop.
        rewrite lookup_take_lt by lia. replace (i - (length l - k))%nat with (k + i - length l)%nat by lia.
        destruct (lookup_lt_is_Some_2 l (k + i - length l)) as [x ->]; [lia|done].
    + rewrite (lookup_ge_None_2 (seq 1 (length l))) by (rewrite length_seq; lia).
      rewrite lookup_ge_None_2; [done|]. rewrite length_app, length_drop, length_take. lia.
Qed.

(** ** Lemmas on the last irreversible block *)

Definition at_least (v : Z) (l : list Z) : nat := length (filter (fun x => v <= x) l).

Lemma at_least_perm v l1 l2 : l1 ≡ₚ l2 -> at_least v l1 = at_least v l2.
Proof. intros H. unfold at_least. by rewrite H. Qed.

Lemma at_least_app v l1 l2 : at_least v (l1 ++ l2) = (at_least v l1 + at_least v l2)%nat.
Proof. unfold at_least. by rewrite filter_app, length_app. Qed.

Lemma at_least_all v l : Forall (fun x => v <= x) l -> at_least v l = length l.
Proof.
  unfold at_least. induction 1 as [|x l Hx _ IH]; [done|]. rewrite filter_cons_True by done. cbn. by rewrite IH.
Qed.

Lemma at_least_none v l : Forall (fun x => x < v) l -> at_least v l = 0%nat.
Proof.
  unfold at_least. induction 1 as [|x l Hx _ IH]; [done|]. rewrite filter_cons_False by lia. done.
Qed.

(** The element at [k] of a sorted list: the highest value with the support of all
    but [k] elements. *)
Lemma sorted_support l k v : StronglySorted Z.le l -> l !! k = Some v ->
  (length l - k <= at_least v l)%nat
  /\ forall v', v < v' -> (at_least v' l < length l - k)%nat.
Proof.
  intros Hs Hk. pose proof (lookup_lt_Some _ _ _ Hk) as Hlt.
  assert (Hle : forall i j x y, (i <= j)%nat -> l !! i = Some x -> l !! j = Some y -> x <= y).
  { clear Hk Hlt k v. induction Hs as [|a l Hs IH Ha]; intros [|i] [|j] x y Hij Hx Hy; cbn in *; try done.
    - injection Hx as ->. injection Hy as ->. lia.
    - injection Hx as ->. rewrite Forall_forall in Ha. apply Ha. by eapply list_elem_of_lookup_2.
    - lia.
    - apply (IH i j); [lia|done|done]. }
  assert (E : forall v, at_least v l = (at_least v (take k l) + at_least v (drop k l))%nat)
    by (intros u; by rewrite <- at_least_app, take_drop).
  split.
  - rewrite E.
    rewrite (at_least_all v (drop k l)); [rewrite length_drop; lia|].
    apply Forall_forall. intros x Hx. apply list_elem_of_lookup_1 in Hx as [i Hi]. rewrite lookup_drop in Hi.
    apply (Hle k (k + i)%nat); [lia|done|done].
  - intros v' Hv'. rewrite E.
    rewrite (at_least_none v' (take k l)).
    + rewrite (drop_S l v k Hk). change (v :: drop (S k) l) with ([v] ++ drop (S k) l).
      rewrite at_least_app, (at_least_none v' [v]) by (constructor; [lia|constructor]).
      pose proof (length_filter (fun x => v' <= x) (drop (S k) l)) as Hf. unfold at_least at 1. cbn.
      unfold at_least. rewrite length_drop in Hf. lia.
    + apply Forall_forall. intros x Hx. apply list_elem_of_lookup_1 in Hx as [i Hi].
      apply lookup_take_Some in Hi as [Hi Hik]. assert (x <= v) by (apply (Hle i k); [lia|done|done]). lia.
Qed.

(** ** Properties *)

(** Slots partition the future.  While the clock does not overflow, slot [n]
    starts after the head block, any time within its interval is reported as slot
    [n], and any time before the first slot as slot zero, also after a maintenance
    block, which pushes the slots back. *)
Theorem slot_roundtrip (n t : Z) (c : chain) (Hn : 1 <= n) (Hc : clock_ok n c)
    (Ht : get_slot_time n c <= t < get_slot_time n c + block_interval (gpo c)) :
  get_slot_at_time t c = n /\ get_slot_at_time (get_slot_time n c) c = n
  /\ time (dgp c) < get_slot_time n c
  /\ forall t', t' < get_slot_time 1 c -> get_slot_at_time t' c = 0.
Proof.
  pose proof (slot_base_bounds n c Hc Hn) as (B1 & B2 & B3). pose proof (ck_interval _ _ Hc) as Hi.
  split; [by apply (get_slot_at_time_value n n)|].
  split; [apply (get_slot_at_time_value n n); [done|lia|lia]|].
  split; [rewrite (get_slot_time_value n n c Hc) by lia; nia|].
  intros t' Ht'. unfold get_slot_at_time. by rewrite (proj2 (Z.ltb_lt _ _) Ht').
Qed.

Definition demo_chain : chain :=
  mk_chain (mk_gpo 3 2 10 86400 [4; 7; 9])
    (mk_dgp 30 null_block_id 1000 4 0 25 0 500 0 1 5000 20)
    (list_to_map [(4, mk_witness 1 None 0 28 "a"); (7, mk_witness 2 None 0 29 "b");
                  (9, mk_witness 3 None 0 30 "c")])
    [7; 9; 4] ∅ no_maintenance demo_ledger.

Lemma demo_clock n : 1 <= n <= 100 -> clock_ok n demo_chain.
Proof. intros H. split; cbn; lia. Qed.

Lemma slot_roundtrip_witness :
  get_slot_time 5 demo_chain = 1020 /\ get_slot_at_time 1022 demo_chain = 5.
Proof.
  split; [reflexivity|]. apply (slot_roundtrip 5 1022 demo_chain); [lia|apply demo_clock; lia|].
  vm_compute. split; [discriminate|reflexivity].
Defined.

(** The schedule is fair.  At a round boundary the new schedule is a
    permutation of the active witnesses, and over as many consecutive slots as
    there are witnesses each of them is scheduled exactly once. *)
Theorem schedule_fair (c c' : chain) (H : update_witness_schedule c = Ok c')
    (Hb : head_block_number (dgp c) mod Z.of_nat (length (active_witnesses (gpo c))) = 0)
    (Ha : 0 <= current_aslot (dgp c))
    (Hroom : current_aslot (dgp c) + Z.of_nat (length (active_witnesses (gpo c))) < uint64_mod) :
  current_shuffled_witnesses c' ≡ₚ active_witnesses (gpo c) /\
  map (fun i => get_scheduled_witness (Z.of_nat i) c') (seq 1 (length (active_witnesses (gpo c))))
    ≡ₚ map Ok (active_witnesses (gpo c)).
Proof.
  unfold update_witness_schedule in H.
  destruct (active_witnesses (gpo c)) as [|w0 ws] eqn:Eact; [done|].
  rewrite Hb in H. cbn [Z.eqb] in H. injection H as <-.
  cbn [current_shuffled_witnesses set_shuffled].
  set (act := w0 :: ws) in *. assert (Hact : act <> []) by done. clearbody act.
  set (l := shuffle (time (dgp c)) act).
  assert (Hp : l ≡ₚ act) by apply shuffle_perm. split; [done|].
  assert (Hlen : length l = length act) by (by rewrite Hp).
  assert (Hl : l <> []) by (intros E; rewrite E in Hlen; by destruct act). clearbody l.
  transitivity (map (fun o => get_or (A := Z) o undefined_behaviour)
    (map (fun i => l !! ((Z.to_nat (current_aslot (dgp c)) + i) mod length l)%nat) (seq 1 (length l)))).
  - rewrite map_map, Hlen. apply Permutation_refl', map_ext_in. intros i Hi. apply in_seq in Hi.
    unfold get_scheduled_witness. cbn [dgp set_shuffled current_shuffled_witnesses].
    rewrite wrap64_small by lia. f_equal. f_equal. apply Nat2Z.inj.
    rewrite Z2Nat.id by (apply Z.mod_pos_bound; destruct l; [done|cbn; lia]).
    rewrite Nat2Z.inj_mod, Nat2Z.inj_add, Z2Nat.id by lia. by rewrite Hlen.
  - rewrite (cyclic_perm l _ Hl), map_map. cbn. by rewrite Hp.
Qed.

Lemma schedule_fair_witness :
  match update_witness_schedule demo_chain with
  | Ok c' => current_shuffled_witnesses c' ≡ₚ [4; 7; 9]
  | Err _ => False
  end.
Proof.
  destruct (update_witness_schedule demo_chain) as [c'|] eqn:E; [|vm_compute in E; discriminate E].
  exact (proj1 (schedule_fair demo_chain c' E eq_refl ltac:(cbn; lia) ltac:(cbn; lia))).
Defined.

(** C25: the last irreversible block never moves back, and it moves to exactly the
    highest block number that at least seventy percent of the active witnesses
    have confirmed, when that is higher. *)
Theorem last_irreversible_support (c c' : chain) (vals : list Z)
    (Hv : confirmed_of (active_witnesses (gpo c)) c = Ok vals)
    (H : update_last_irreversible_block c = Ok c') :
  exists v, last_irreversible_block_num (dgp c') = Z.max (last_irreversible_block_num (dgp c)) v
    /\ 7 * Z.of_nat (length vals) <= 10 * Z.of_nat (at_least v vals)
    /\ forall v', v < v' -> 10 * Z.of_nat (at_least v' vals) < 7 * Z.of_nat (length vals).
Proof.
  unfold update_last_irreversible_block in H. rewrite Hv in H. cbn [rbind] in H.
  apply rbind_ok in H as (v & Hn & H). unfold get_or in Hn.
  set (k := Z.to_nat _) in Hn. destruct (merge_sort Z.le vals !! k) as [v0|] eqn:Ek; [|done].
  injection Hn as ->. exists v. split.
  { case_if_in H; injection H as <-; bool_to_prop; cbn; lia. }
  pose proof (merge_sort_Permutation Z.le vals) as Hp.
  destruct (sorted_support _ k v (StronglySorted_merge_sort Z.le vals) Ek) as [S1 S2].
  rewrite (at_least_perm v _ _ Hp), (Permutation_length Hp) in S1.
  pose proof (lookup_lt_Some _ _ _ Ek) as Hk. rewrite (Permutation_length Hp) in Hk.
  assert (Hkz : Z.of_nat k = 3000 * Z.of_nat (length vals) / 10000)
    by (unfold k; rewrite Z2Nat.id; [done|apply Z.div_pos; lia]).
  pose proof (Z.mul_div_le (3000 * Z.of_nat (length vals)) 10000 ltac:(lia)) as D1.
  pose proof (Z.mul_succ_div_gt (3000 * Z.of_nat (length vals)) 10000 ltac:(lia)) as D2.
  rewrite <- Hkz in D1, D2. split; [lia|].
  intros v' Hv'. specialize (S2 v' Hv'). rewrite (at_least_perm v' _ _ Hp), (Permutation_length Hp) in S2. lia.
Qed.

Lemma last_irreversible_support_witness :
  match update_last_irreversible_block demo_chain with
  | Ok c' => last_irreversible_block_num (dgp c') = 28
  | Err _ => False
  end /\ exists v, 7 * 3 <= 10 * Z.of_nat (at_least v [28; 29; 30]).
Proof.
  split; [vm_compute; reflexivity|].
  destruct (update_last_irreversible_block demo_chain) as [c'|] eqn:E; [|vm_compute in E; discriminate E].
  destruct (last_irreversible_support demo_chain c' [28; 29; 30] ltac:(vm_compute; reflexivity) E)
    as (v & _ & H & _).
  exists v. exact H.
Defined.

(** Paying the signing witness moves core units from the witness budget to
    the witness's vesting balance, never more than the budget holds, and records
    the confirmed block. *)
Theorem witness_pay_conserves {Sum Tx} (w : Z) (b : signed_block Sum Tx) (c c' : chain)
    (H : update_signing_witness w b c = Ok c') (Hf : vesting_fresh (ledger c))
    (Hb : 0 <= witness_budget (dgp c)) (Hp : 0 <= witness_pay_per_block (gpo c)) :
  total CORE (ledger c') + witness_budget (dgp c') = total CORE (ledger c) + witness_budget (dgp c)
  /\ (forall x, x <> CORE -> total x (ledger c') = total x (ledger c))
  /\ 0 <= witness_budget (dgp c') <= witness_budget (dgp c)
  /\ vesting_fresh (ledger c')
  /\ last_confirmed_block_num <$> witnesses c' !! w = Some (block_num b).
Proof.
  unfold update_signing_witness in H. set (pay := Z.min _ _) in H.
  apply rbind_ok in H as (bud & Hbud & H). apply Share.sub_value in Hbud as ->.
  apply rbind_ok in H as (c1 & H1 & H). apply rbind_ok in H as (wit & _ & [= <-]).
  cbn [ledger dgp witnesses set_witnesses set_dgp].
  assert (Hd : (forall x, total x (ledger c1) = total x (ledger c) + in_asset x (mk_asset pay CORE))
    /\ vesting_fresh (ledger c1) /\ witness_budget (dgp c1) = witness_budget (dgp c) - pay).
  { unfold deposit_witness_pay in H1. case_if_in H1; bool_to_prop.
    - injection H1 as <-. cbn. split; [|done]. intros x. rewrite Hif, in_asset_0. lia.
    - apply rbind_ok in H1 as (wt & _ & H1). apply rbind_ok in H1 as ([nv d] & Hdep & H1).
      assert (Hl : ledger c1 = d /\ dgp c1 = set_budget (witness_budget (dgp c) - pay) (dgp c))
        by (destruct nv; injection H1 as <-; done).
      destruct Hl as [-> ->].
      split; [intros x; by destruct (deposit_lazy_total _ _ _ _ _ _ _ _ x Hdep Hf)|].
      split; [by destruct (deposit_lazy_total _ _ _ _ _ _ _ _ 0 Hdep Hf) as (_ & ? & _)|done]. }
  destruct Hd as (Ht & Hf1 & Hb1). rewrite Hb1. split; [rewrite Ht; unfold in_asset; cbn; lia|].
  split; [intros x Hx; rewrite Ht; unfold in_asset; cbn [asset_id amount];
    rewrite (proj2 (Z.eqb_neq CORE x)) by congruence; lia|].
  split; [lia|]. split; [done|]. rewrite lookup_insert_eq. done.
Qed.

Definition demo_next : signed_block Z Z :=
  mk_block null_block_id 1009 7 0 None 0 null_block_id [].

Lemma witness_pay_conserves_witness :
  match update_signing_witness 7 demo_next demo_chain with
  | Ok c' => total CORE (ledger c') + witness_budget (dgp c') = total CORE demo_ledger + 25
  | Err _ => False
  end.
Proof.
  destruct (update_signing_witness 7 demo_next demo_chain) as [c'|] eqn:E; [|vm_compute in E; discriminate E].
  apply (witness_pay_conserves 7 demo_next demo_chain c' E).
  - apply demo_ledger_ok.
  - cbn. lia.
  - cbn. lia.
Defined.
