(* ===== verification/Maintenance.v ===== *)
(** * Chain maintenance

    [database::perform_chain_maintenance] of [db_maint.cpp]: once per maintenance interval
    the elections are held, pending parameters take effect, the time of the next maintenance
    is set, settled assets may come back to life, and the budget is divided. *)

From stdpp Require Import sorting.
From S2P Require Import Prelude SafeInt Asset Vesting Authority State Ledger Market MarketProofs Double Fees Operations AssetEval.
From S2P Require Import Candidates Elections Bids Budget BudgetSpec Block Schedule.

(** ** Parameters *)

(** The scaling of the fee of account creation is taken back; a division by zero and a
    shift by the width or more are undefined. *)
Definition unscale_account_fee (g : governance_state) : result chain_parameters :=
  let p := parameters g in
  if accounts_per_fee_scale p =? 0 then Err undefined_behaviour
  else
    let n := account_fee_scale_bitshifts p * (accounts_registered_this_interval g / accounts_per_fee_scale p) in
    if n >=? 64 then Err undefined_behaviour
    else Ok (set_account_create_basic_fee (Z.shiftr (account_create_basic_fee p) n) p).

Definition apply_pending_parameters (g : governance_state) : result governance_state :=
  let* p := unscale_account_fee g in
  match pending_parameters g with
  | Some q => Ok (set_pending_parameters None (set_parameters q g))
  | None => Ok (set_parameters p g)
  end.

(** The part of the parameters that [Schedule] reads. *)
Definition gpo_of (p : chain_parameters) (active : list Z) : global_property_object :=
  mk_gpo (block_interval_ p) (maintenance_skip_slots_ p) (witness_pay_per_block_ p)
    (witness_pay_vesting_seconds_ p) active.

(** ** The next maintenance *)

(** Times are 32 bits wide; the difference of two of them is a signed number. *)
Definition next_maintenance (interval block_timestamp num head_time old : Z) : result Z :=
  if old <=? block_timestamp then
    if interval =? 0 then Err undefined_behaviour
    else if num =? 1 then Ok (wrap32 ((block_timestamp / interval + 1) * interval))
    else Ok (wrap32 (old + wrap32 ((Z.quot (head_time - old) interval + 1) * interval)))
  else Ok old.

Definition set_next_maintenance (x : Z) (d : dynamic_global_property_object) : dynamic_global_property_object :=
  mk_dgp (head_block_number d) (head_block_id d) (time d) (current_witness d)
    (current_transaction_count d) (witness_budget d) (recently_missed_count d) (current_aslot d)
    (recent_slots_filled d) (dynamic_flags d) x (last_irreversible_block_num d).

(** ** Settled assets *)

Definition reset_volume (b : asset_bitasset_data) : asset_bitasset_data :=
  mk_bitasset (options b) (feeds b) (current_feed b) (current_feed_publication_time b) 0
    (settlement_price b) (settlement_fund b).

(** In the order of the assets. *)
Fixpoint maintain_bitassets (ids : list Z) (d : database) : result database :=
  match ids with
  | [] => Ok d
  | id :: ids' =>
      let* b := get_bitasset id d in
      let b := reset_volume b in
      let d := set_bitassets (<[id := b]> (bitassets d)) d in
      let* d := if has_settlement b then process_bids b d else Ok d in
      maintain_bitassets ids' d
  end.

Definition bitasset_ids (d : database) : list Z := merge_sort Z.le (map fst (map_to_list (bitassets d))).

(** ** The maintenance *)

(** The accounts that took part in an election without success, in their order. *)
Definition losers (r : gmap Z bool) : list Z :=
  merge_sort Z.le (map fst (filter (fun kv => kv.2 = false) (map_to_list r))).

Definition hold_elections (e : election_state) (d : database)
    : result (list Z * list Z * election_state * database) :=
  let* d := update_top_n_authorities d in
  let* (wits, e, d) := update_active_witnesses e d in
  let* (members, e, d) := update_active_committee_members e d in
  Ok (merge_sort Z.le (map fst wits), map fst members, e, d).

Definition perform_chain_maintenance {Sum Tx} (b : signed_block Sum Tx) (c : chain) : result chain :=
  let m := maintenance c in
  let* (wits, members, e, d) := hold_elections (election m) (ledger c) in
  let unsuccessful := losers (vote_result e) in
  let e := mk_election (witness_refs e) (committee_refs e) ∅ in
  let old := parameters (governance d) in
  let* g := apply_pending_parameters (governance d) in
  let* nm := next_maintenance (maintenance_interval (parameters g)) (timestamp b) (block_num b)
               (time (dgp c)) (next_maintenance_time (dgp c)) in
  let d := set_governance (set_accounts_registered_this_interval 0 g) d in
  let* d := maintain_bitassets (bitasset_ids d) d in
  let* (s, d) := process_budget nm (committee_percent_of_candidate_award old)
                   (unsuccessful_candidates_percent old) (block_num b) unsuccessful e
                   (mk_budget_state (ms_last_budget_time m) (witness_budget (dgp c)) (ms_budget_records m)) d in
  Ok (mk_chain (gpo_of (parameters g) wits)
        (set_budget (unspent_witness_budget s) (set_next_maintenance nm (dgp c)))
        (witnesses c) (current_shuffled_witnesses c) (block_summaries c)
        (mk_maintenance (last_budget_time s) (budget_records s) no_election unsuccessful members) d).

(** ** Its time *)

(** The next maintenance is the first instant of the grid after the head.  When it is
    due, the new time is later than the head block, at most an interval later, and a whole
    number of intervals after the old one. *)
Theorem next_maintenance_grid (interval ts num head old : Z)
    (Hi : 0 < interval) (Ho : 0 <= old <= ts) (Hh : old <= head) (Hn : num <> 1) (Hw : head + interval < uint32_mod) :
  exists t, next_maintenance interval ts num head old = Ok t /\ head < t <= head + interval
    /\ (t - old) mod interval = 0.
Proof.
  unfold next_maintenance. rewrite (proj2 (Z.leb_le old ts)) by lia. rewrite (proj2 (Z.eqb_neq interval 0)) by lia.
  rewrite (proj2 (Z.eqb_neq num 1)) by done. rewrite Z.quot_div_nonneg by lia.
  pose proof (Z.div_mod (head - old) interval ltac:(lia)). pose proof (Z.mod_pos_bound (head - old) interval Hi).
  set (q := (head - old) / interval) in *. assert (0 <= q) by (apply Z.div_pos; lia).
  rewrite (wrap32_small ((q + 1) * interval)) by nia. rewrite wrap32_small by nia.
  eexists. split; [done|]. split; [nia|]. replace (old + (q + 1) * interval - old) with ((q + 1) * interval) by lia.
  by apply Z.mod_mul; lia.
Qed.

Lemma next_maintenance_grid_witness :
  exists t, next_maintenance 86400 1000003 77 1000003 900000 = Ok t /\ 1000003 < t <= 1086403
    /\ (t - 900000) mod 86400 = 0.
Proof. apply (next_maintenance_grid 86400 1000003 77 1000003 900000); lia. Defined.
