(* ===== verification/MaintenanceSpec.v ===== *)
(** * What maintenance keeps

    The elections only change accounts; the bids and the budget keep the books of units;
    so a whole maintenance creates no units beyond what it records, and does not move the
    head of the chain. *)

From S2P Require Import Prelude SafeInt Asset Vesting Authority State Ledger Market MarketProofs Double Fees Operations AssetEval.
From S2P Require Import Candidates Elections Bids Budget BudgetSpec Block Schedule Maintenance.

(** ** Elections change accounts only *)

Definition only_accounts (d d' : database) : Prop := exists m, d' = set_accounts m d.

#[global] Instance only_accounts_preorder : PreOrder only_accounts.
Proof.
  split; [intros d; exists (accounts d); by destruct d|]. intros a b c [m1 ->] [m2 ->]. by exists m2.
Qed.

Lemma put_account_only i a d : only_accounts d (put_account i a d).
Proof. by eexists. Qed.

Lemma modify_active_only acc f d d' : modify_active acc f d = Ok d' -> only_accounts d d'.
Proof. unfold modify_active. intros H. do 2 skip_bind H. injection H as <-. apply put_account_only. Qed.

Lemma update_top_holders_only acc o s d d' : update_top_holders acc o s d = Ok d' -> only_accounts d d'.
Proof.
  unfold update_top_holders. intros H. destruct s; [by injection H as <-|]. case_if_in H; [by injection H as <-|].
  do 2 skip_bind H. injection H as <-. apply put_account_only.
Qed.

Lemma visit_special_only l : forall d d', visit_special_authorities l d = Ok d' -> only_accounts d d'.
Proof.
  induction l as [|[i acc] l IH]; intros d d' H; cbn [visit_special_authorities] in H; [by injection H as <-|].
  skip_bind H. case_if_in H; [by injection H as <-|]. skip_bind H.
  apply rbind_ok in H as (d1 & H1 & H). do 2 skip_bind H. apply rbind_ok in H as (d2 & H2 & H).
  transitivity d1; [by eapply update_top_holders_only|]. transitivity d2; [by eapply update_top_holders_only|].
  by apply IH.
Qed.

Lemma update_active_witnesses_only e d r e' d' : update_active_witnesses e d = Ok (r, e', d') -> only_accounts d d'.
Proof.
  unfold update_active_witnesses. destruct (sort_votable_objects _ _) as [refs wits]. intros H. skip_bind H.
  apply rbind_ok in H as (d1 & H1 & [= _ _ <-]). by eapply modify_active_only.
Qed.

Lemma update_committee_only e d r e' d' : update_active_committee_members e d = Ok (r, e', d') -> only_accounts d d'.
Proof.
  unfold update_active_committee_members. destruct (sort_votable_objects _ _) as [refs mem]. intros H. skip_bind H.
  apply rbind_ok in H as (d1 & H1 & [= _ _ <-]). case_if_in H1; [|by injection H1 as <-].
  apply rbind_ok in H1 as (d2 & H2 & H3). transitivity d2; by eapply modify_active_only.
Qed.

Lemma hold_elections_only e d w m e' d' : hold_elections e d = Ok (w, m, e', d') -> only_accounts d d'.
Proof.
  unfold hold_elections. intros H. apply rbind_ok in H as (d1 & H1 & H).
  apply rbind_ok in H as ([[l1 e1] d2] & H2 & H). apply rbind_ok in H as ([[l2 e2] d3] & H3 & [= _ _ _ <-]).
  transitivity d1; [by eapply visit_special_only|]. transitivity d2; [by eapply update_active_witnesses_only|].
  by eapply update_committee_only.
Qed.

(** ** The bids on all settled assets *)

(** What makes bids fit the market: they cover debt, supplies are not negative, and no
    asset backs itself. *)
Record bids_ok (d : database) : Prop := {
  bk_nonneg : bids_nonneg d;
  bk_supply : forall x dd, dynamic_data d !! x = Some dd -> 0 <= current_supply dd;
  bk_backing : forall x b, bitassets d !! x = Some b -> x <> short_backing_asset (options b) }.

(** Steps that only take bids away. *)
Definition fewer_bids (d d' : database) : Prop :=
  collateral_bids d' ⊆ collateral_bids d /\ dynamic_data d' = dynamic_data d /\ bitassets d' = bitassets d.

#[global] Instance fewer_bids_preorder : PreOrder fewer_bids.
Proof.
  split; [intros d; by split|]. intros a b c (B1 & D1 & T1) (B2 & D2 & T2).
  split; [by etrans|split; congruence].
Qed.

Lemma fewer_bids_ok d d' : fewer_bids d d' -> bids_ok d -> bids_ok d'.
Proof.
  intros (B & D & T) []. split; [|by rewrite D|by rewrite T].
  intros id b Hb. by eapply bk_nonneg0, lookup_weaken.
Qed.

Lemma execute_bid_fewer id cov fund feed d d' : execute_bid id cov fund feed d = Ok d' -> fewer_bids d d'.
Proof.
  intros H. split; [rewrite (execute_bid_bids _ _ _ _ _ _ H); apply delete_subseteq|].
  unfold execute_bid in H. do 4 skip_bind H. apply rbind_ok in H as (d1 & H1 & [= <-]).
  case_if_in H1; [|by injection H1 as <-]. by apply modify_statistics_inv in H1 as (s & s' & _ & _ & ->).
Qed.

Lemma execute_bids_fewer b ids : forall tc rf d tc' rf' d',
  execute_bids ids b tc rf d = Ok (tc', rf', d') -> fewer_bids d d'.
Proof.
  induction ids as [|id ids IH]; intros tc rf d tc' rf' d' H; cbn [execute_bids] in H; [by injection H as _ _ <-|].
  do 4 skip_bind H. apply rbind_ok in H as (d1 & H1 & H).
  transitivity d1; [by eapply execute_bid_fewer|by eapply IH].
Qed.

Lemma cancel_bids_fewer ids : forall d d', cancel_bids ids d = Ok d' -> fewer_bids d d'.
Proof.
  induction ids as [|id ids IH]; intros d d' H; cbn in H; [by injection H as <-|].
  apply rbind_ok in H as (d1 & H1 & H). transitivity d1; [|by apply IH].
  unfold cancel_bid in H1. skip_bind H1. apply rbind_ok in H1 as (d2 & H2 & [= <-]).
  apply adjust_balance_total in H2 as (m & -> & _). split; [apply delete_subseteq|done].
Qed.

(** Changing a market asset without touching its backing. *)
Lemma set_bitasset_ok mia b b' d : bids_ok d -> bitassets d !! mia = Some b -> options b' = options b ->
  bids_ok (set_bitassets (<[mia := b']> (bitassets d)) d).
Proof.
  intros [] Hb Ho. split; [done|done|]. intros x c Hc. cbn in Hc.
  apply lookup_insert_Some in Hc as [[<- <-]|[_ Hc]]; [rewrite Ho; by apply (bk_backing0 _ _ Hb)|by apply bk_backing0].
Qed.

Lemma process_bids_ok b d d' : process_bids b d = Ok d' -> bids_ok d -> bids_ok d'.
Proof.
  unfold process_bids. intros H Hok. case_if_in H; [by injection H as <-|]. do 5 skip_bind H.
  case_if_in H; [by injection H as <-|]. apply rbind_ok in H as ([[tc rf] d1] & Hx & H). do 2 skip_bind H.
  apply (fewer_bids_ok _ d1) in Hok; [|by eapply execute_bids_fewer].
  unfold cancel_bids_and_revive_mpa in H. do 5 skip_bind H. apply rbind_ok in H as (d2 & Hc & H).
  apply (fewer_bids_ok _ d2) in Hok; [|by eapply cancel_bids_fewer].
  apply rbind_ok in H as (b' & Hb & [= <-]). unfold get_bitasset, get_or in Hb.
  destruct (bitassets d2 !! _) eqn:E; [|done]. injection Hb as ->. by eapply set_bitasset_ok.
Qed.

Lemma reset_volume_moves id b d : market_ok d -> bitassets d !! id = Some b ->
  moves neutral d (set_bitassets (<[id := reset_volume b]> (bitassets d)) d).
Proof.
  intros Hok Hb. split; [|split; [done|]].
  - apply (bitasset_ok id b (reset_volume b) (dynamic_data d) d); [done|done|done| |].
    + exact (ok_funds _ Hok id b Hb).
    + exact (ok_settled _ Hok id b Hb).
  - intros x. unfold liability, excess, neutral.
    change (promised (set_bitassets _ d)) with (promised d). change (supply x (set_bitassets _ d)) with (supply x d).
    rewrite total_set_bitassets, (in_funds_insert _ _ _ b) by done. cbn [settlement_fund options reset_volume]. lia.
Qed.

Lemma maintain_bitassets_moves ids : forall d d', maintain_bitassets ids d = Ok d' -> market_ok d -> bids_ok d ->
  moves neutral d d' /\ bids_ok d'.
Proof.
  induction ids as [|id ids IH]; intros d d' H Hok Hbk; cbn [maintain_bitassets] in H.
  { injection H as <-. split; [by apply moves_refl|done]. }
  apply rbind_ok in H as (b & Hb & H). unfold get_bitasset, get_or in Hb.
  destruct (bitassets d !! id) as [b'|] eqn:Eb; [|done]. injection Hb as ->.
  pose proof (reset_volume_moves id b d Hok Eb) as M1. set (d1 := set_bitassets _ d) in *.
  assert (B1 : bids_ok d1) by (by eapply set_bitasset_ok).
  apply rbind_ok in H as (d2 & H2 & H).
  assert (M2 : moves neutral d1 d2 /\ bids_ok d2).
  { case_if_in H2; [|injection H2 as <-; split; [apply moves_refl, M1|done]].
    split; [|by eapply process_bids_ok].
    eapply (process_bids_moves id); [exact H2|apply M1|apply B1|apply lookup_insert_eq|done| |].
    - apply (bk_backing _ B1). apply lookup_insert_eq.
    - intros dd. apply (bk_supply _ B1). }
  destruct M2 as [M2 B2]. destruct (IH _ _ H (proj1 M2) B2) as [M3 B3]. split; [|done].
  then_neutral M1. then_neutral M2. exact M3.
Qed.

(** ** The whole maintenance *)

(** Core units outside of the ledger: the budgets that wait. *)
Definition chain_budget (c : chain) : budget_state :=
  mk_budget_state (ms_last_budget_time (maintenance c)) (witness_budget (dgp c)) (ms_budget_records (maintenance c)).
Definition core_waiting (c : chain) : Z := waiting_budget (chain_budget c).

Lemma maintenance_inv {Sum Tx} (b : signed_block Sum Tx) c c' : perform_chain_maintenance b c = Ok c' ->
  exists m g d1 e l nm cp up s d',
    apply_pending_parameters (governance (ledger c)) = Ok g /\
    next_maintenance (maintenance_interval (parameters g)) (timestamp b) (block_num b) (time (dgp c))
      (next_maintenance_time (dgp c)) = Ok nm /\
    maintain_bitassets (bitasset_ids (set_accounts m (ledger c)))
      (set_governance (set_accounts_registered_this_interval 0 g) (set_accounts m (ledger c))) = Ok d1 /\
    process_budget nm cp up (block_num b) l e (chain_budget c) d1 = Ok (s, d') /\
    ledger c' = d' /\ chain_budget c' = s /\
    gpo c' = gpo_of (parameters g) (active_witnesses (gpo c')) /\
    dgp c' = set_budget (unspent_witness_budget s) (set_next_maintenance nm (dgp c)).
Proof.
  unfold perform_chain_maintenance. intros H. apply rbind_ok in H as ([[[w mem] e] d0] & He & H).
  destruct (hold_elections_only _ _ _ _ _ _ He) as [m ->]. apply rbind_ok in H as (g & Hg & H).
  apply rbind_ok in H as (nm & Hnm & H). apply rbind_ok in H as (d1 & Hd1 & H).
  apply rbind_ok in H as ([s d'] & Hp & [= <-]).
  exists m, g, d1. do 7 eexists. split; [exact Hg|]. split; [exact Hnm|]. split; [exact Hd1|].
  split; [exact Hp|]. by destruct s.
Qed.

Lemma market_ok_accounts m g d : market_ok d -> market_ok (set_governance g (set_accounts m d)).
Proof. intros []. split; auto. Qed.
Lemma bids_ok_accounts m g d : bids_ok d -> bids_ok (set_governance g (set_accounts m d)).
Proof. intros []. split; auto. Qed.

Lemma books_accounts m g d x : excess x (set_governance g (set_accounts m d)) = excess x d
  /\ liability x (set_governance g (set_accounts m d)) = liability x d.
Proof.
  unfold liability, excess, total, supply, promised.
  cbn [account_balances limit_orders call_orders force_settlements collateral_bids bitassets dynamic_data
    vesting_balances gas_collaterals initial_balances set_governance set_accounts]. done.
Qed.

Lemma liability_core d : liability CORE d = excess CORE d + promised d.
Proof. unfold liability. by rewrite Z.eqb_refl. Qed.

(** C6: A maintenance keeps the books: the units of every asset in the ledger, together with
    the budgets that wait for payment, do not fall behind the recorded supply, and exceed it
    by no more than the deferred fees that were promised before. *)
Theorem maintenance_conserves {Sum Tx} (b : signed_block Sum Tx) (c c' : chain)
    (H : perform_chain_maintenance b c = Ok c') (Hok : market_ok (ledger c)) (Hbk : bids_ok (ledger c)) :
  excess CORE (ledger c) + core_waiting c <= excess CORE (ledger c') + core_waiting c' /\
  excess CORE (ledger c') + core_waiting c' <= liability CORE (ledger c) + core_waiting c /\
  (forall x, x <> CORE -> excess x (ledger c') = excess x (ledger c)).
Proof.
  apply maintenance_inv in H as (m & g & d1 & e & l & nm & cp & up & s & d' & _ & _ & Hm & Hp & -> & Es & _ & _).
  destruct (maintain_bitassets_moves _ _ _ Hm) as [(Hok1 & _ & M) _];
    [by apply market_ok_accounts|by apply bids_ok_accounts|].
  unfold core_waiting. rewrite Es.
  set (d0 := set_governance _ (set_accounts m (ledger c))) in *.
  assert (E0 : forall x, excess x d0 = excess x (ledger c) /\ liability x d0 = liability x (ledger c))
    by (intros x; apply books_accounts).
  clearbody d0.
  assert (Hprom : forall d, market_ok d -> 0 <= promised d).
  { intros d Hd. unfold promised. apply sum_map_nonneg. intros id o Ho. apply (ok_limits _ Hd _ _ Ho). }
  pose proof (Hprom _ Hok1) as Hpr.
  destruct (budget_books _ _ _ _ _ _ _ _ _ _ Hp) as [Ec Ex]. split; [|split].
  - destruct (M CORE) as [M1 _]. destruct (E0 CORE) as [E1 _]. unfold neutral in *. lia.
  - destruct (M CORE) as [_ M2]. destruct (E0 CORE) as [_ E1]. rewrite E1 in M2. unfold neutral in *.
    rewrite liability_core in M2. lia.
  - intros x Hx. destruct (M x) as [M1 M2]. destruct (E0 x) as [E1 E2]. rewrite E1 in M1. rewrite E2 in M2.
    unfold liability in M2. rewrite (proj2 (Z.eqb_neq x CORE)) in M2 by done.
    destruct (Ex x Hx) as [T S]. assert (E3 : excess x d' = excess x d1) by (unfold excess; by rewrite T, S).
    rewrite E3. unfold neutral in *. lia.
Qed.

Lemma maintenance_same_dgp {Sum Tx} (b : signed_block Sum Tx) c c' : perform_chain_maintenance b c = Ok c' ->
  exists x y, dgp c' = set_budget x (set_next_maintenance y (dgp c)).
Proof.
  intros H. apply maintenance_inv in H as (m & g & d1 & e & l & nm & cp & up & s & d' & _ & _ & _ & _ & _ & _ & _ & ->).
  by eexists _, _.
Qed.

(** ** A maintenance at work *)

Definition demo_office (acc vote total : Z) : candidate := mk_candidate acc vote total "" true 0 ∅ None.

(** Two witnesses and two committee members stand for election; an interval is over. *)
Definition demo_maintained_db : database :=
  let g := governance demo_budget_input in
  set_accounts (<[0 := basic_account ∅ None]> (accounts demo_budget_input))
    (set_governance (set_witness_candidates {[ 0 := demo_office 11 0 900; 1 := demo_office 12 1 300 ]}
                       (set_committee_members {[ 0 := demo_office 10 2 500; 1 := demo_office 13 3 400 ]} g))
       demo_budget_input).

Definition demo_maintained : chain :=
  mk_chain (gpo_of demo_budget_parameters [0; 1])
    (mk_dgp 30 null_block_id 1000000 1 0 1000 0 500 0 0 1000000 20)
    (list_to_map [(0, mk_witness 11 None 0 28 "a"); (1, mk_witness 12 None 0 29 "b")]) [1; 0] ∅
    (mk_maintenance 913600 [(913600, demo_record)] no_election [] []) demo_maintained_db.

Definition demo_maintenance_block : signed_block Z Z := mk_block null_block_id 1000000 1 0 None 0 null_block_id [].

Lemma demo_maintained_ok : market_ok demo_maintained_db /\ bids_ok demo_maintained_db.
Proof.
  split; split; try done.
  - intros x a H. change (({[ CORE := mk_asset_object "COCOS" 5 3 (mk_asset_options 100000000000 0 0 0 0 None "core") false ]}
      : gmap Z asset_object) !! x = Some a) in H. apply lookup_singleton_Some in H as [_ <-]. cbn. lia.
  - intros x dd H. change (({[ CORE := mk_dyn 60000000 4000 ]} : gmap Z asset_dynamic_data) !! x = Some dd) in H.
    apply lookup_singleton_Some in H as [_ <-]. cbn. lia.
Qed.

Lemma maintenance_conserves_witness :
  match perform_chain_maintenance demo_maintenance_block demo_maintained with
  | Ok c' => 0 <= excess CORE (ledger c') + core_waiting c' <= 0
  | Err _ => False
  end.
Proof.
  assert (Hok : is_ok (perform_chain_maintenance demo_maintenance_block demo_maintained) = true) by (vm_compute; reflexivity).
  destruct (perform_chain_maintenance demo_maintenance_block demo_maintained) as [c'|] eqn:E; [|discriminate Hok].
  destruct (maintenance_conserves _ _ _ E (proj1 demo_maintained_ok) (proj2 demo_maintained_ok)) as (H1 & H2 & _).
  assert (E1 : excess CORE (ledger demo_maintained) + core_waiting demo_maintained = 0) by (vm_compute; reflexivity).
  assert (E2 : liability CORE (ledger demo_maintained) + core_waiting demo_maintained = 0) by (vm_compute; reflexivity).
  rewrite E1 in H1. rewrite E2 in H2. split; assumption.
Defined.
