(* ===== verification/Genesis.v ===== *)
(** * The first state of the chain (db_init.cpp, genesis_state.hpp)

    [database::init_genesis] with the structures of [genesis_state_type]: the accounts and
    assets the protocol names, the initial accounts and assets with their margin positions,
    the balances handed out, the supplies tallied from them, the candidates of the two
    offices, the base contract and the first schedule.  Accounts and candidates are made by
    their evaluators, with all fees zero.  [genesis_sound]: what is built satisfies the
    invariants the other components keep. *)

From Stdlib Require Import Ascii.
From S2P Require Import Prelude SafeInt Asset Vesting Authority State Ledger MarketProofs Fees AssetEval.
From S2P Require Import Candidates Names Text Votes VotesSpec GovOperations Elections Budget Bids MaintenanceSpec.
From S2P Require Import Contracts Block Schedule.

(** ** The genesis file *)

Record initial_account_type := mk_initial_account {
  ia_name : string;
  owner_key : Z;
  active_key : Z;
  ia_is_lifetime_member : bool }.

Record initial_collateral_position := mk_position {
  icp_owner : Z;
  icp_collateral : Z;
  icp_debt : Z }.

Record initial_asset_type := mk_initial_asset {
  ias_symbol : string;
  issuer_name : string;
  ias_description : string;
  ias_precision : Z;
  ias_max_supply : Z;
  ias_accumulated_fees : Z;
  is_bitasset : bool;
  collateral_records : list initial_collateral_position }.

Record initial_balance_type := mk_initial_balance {
  ib_owner : Z;
  ib_asset_symbol : string;
  ib_amount : Z }.

Record initial_vesting_balance_type := mk_initial_vesting {
  iv_owner : Z;
  iv_asset_symbol : string;
  iv_amount : Z;
  iv_begin_timestamp : Z;
  iv_vesting_duration_seconds : Z;
  iv_begin_balance : Z }.

Record initial_account_balances_type := mk_initial_account_balance {
  iab_owner_name : string;
  iab_asset_symbol : string;
  iab_amount : Z }.

Record initial_witness_type := mk_initial_witness {
  iw_owner_name : string;
  block_signing_key : Z }.

(** A committee member is the name of its account; [initial_fees] is what the evaluators
    read of the fee schedule. *)
Record genesis_state_type := mk_genesis {
  initial_timestamp : Z;
  max_core_supply : Z;
  initial_parameters : chain_parameters;
  initial_fees : fee_parameters;
  gs_min_witness_count : Z;
  gs_min_committee_member_count : Z;
  initial_accounts : list initial_account_type;
  initial_assets : list initial_asset_type;
  initial_address_balances : list initial_balance_type;
  initial_account_balances : list initial_account_balances_type;
  initial_vesting_balances : list initial_vesting_balance_type;
  initial_active_witnesses : Z;
  initial_witness_candidates : list initial_witness_type;
  initial_committee_candidates : list string;
  initial_contract_base : string }.

(** ** Operations of the genesis *)

(** [zero_all_fees]: no operation costs anything, and what it costs is scaled to nothing. *)
Definition zero_all_fees (fp : fee_parameters) : fee_parameters :=
  mk_fee_parameters 0 (cashback_gas_period_seconds fp).
Abbreviation zero_fee := 0.

(** [apply_operation] while no fee is asked. *)
Definition genesis_apply {Op} (E : Evaluator Op) (fp : fee_parameters) (op : Op) (d : database)
    : result (operation_result * database) :=
  match apply_operation (zero_all_fees fp) false zero_fee op d with
  | (Ok r, d') => Ok (variant r, d')
  | (Err e, _) => Err e
  end.

Definition get_object_id (r : operation_result) : result Z :=
  match r with object_id_result id => Ok id | _ => Err assert_exception end.

(** ** Accounts and assets of the protocol *)

Abbreviation GRAPHENE_RELAXED_COMMITTEE_ACCOUNT := 1.
Abbreviation GRAPHENE_WITNESS_ACCOUNT := 2.
Abbreviation GRAPHENE_NULL_ACCOUNT := 3.
Abbreviation GRAPHENE_TEMP_ACCOUNT := 4.
Abbreviation GRAPHENE_BLOCKCHAIN_PRECISION_DIGITS := 5.
Abbreviation GRAPHENE_DEFAULT_BLOCK_INTERVAL := 5.

Definition special_account (name : string) (reg threshold : Z) : account_object :=
  let a := mk_authority threshold [] [] [] in
  mk_account name reg time_point_sec_maximum a a 0 ∅ ∅ None None None None [] None None None None None None None None.

(** The assertion is on the id the account gets. *)
Definition create_special (expected : Z) (name : string) (threshold : Z) (d : database) : result database :=
  let id := next_account (governance d) in
  check negb (name_taken name d);
  let d := put_account id (special_account name expected threshold)
             (set_account_statistics (<[id := 0]> (account_statistics d)) d) in
  check id =? expected;
  Ok (set_governance (set_next_account (id + 1) (governance d)) d).

Definition empty_database : database :=
  mk_db ∅ ∅ ∅ ∅ 0 ∅ ∅ ∅ ∅ 0 ∅ 0 ∅ 0 ∅ 0 ∅ 0 ∅ 0 ∅ empty_governance empty_nh 0 [].

Definition create_special_accounts (d : database) : result database :=
  let d := set_account_balances (<[(GRAPHENE_COMMITTEE_ACCOUNT, CORE) := GRAPHENE_MAX_SHARE_SUPPLY]> (account_balances d)) d in
  let* d := create_special GRAPHENE_COMMITTEE_ACCOUNT "committee-account" 1 d in
  let* d := create_special GRAPHENE_RELAXED_COMMITTEE_ACCOUNT "committee-relaxed" 1 d in
  let* d := create_special GRAPHENE_WITNESS_ACCOUNT "witness-account" 1 d in
  let* d := create_special GRAPHENE_NULL_ACCOUNT "null-account" 1 d in
  create_special GRAPHENE_TEMP_ACCOUNT "temp-account" 0 d.

(** [a.options] with the defaults of [asset_options]. *)
Definition genesis_options (max permissions fl : Z) (rate : option price) (descr : string) : asset_options :=
  mk_asset_options max 0 GRAPHENE_MAX_SHARE_SUPPLY permissions fl rate descr.

Definition core_asset (max : Z) : asset_object :=
  mk_asset_object "COCOS" GRAPHENE_BLOCKCHAIN_PRECISION_DIGITS GRAPHENE_COMMITTEE_ACCOUNT
    (genesis_options max 2 0 None "") false.
Definition gas_asset (max : Z) : asset_object :=
  mk_asset_object "GAS" GRAPHENE_BLOCKCHAIN_PRECISION_DIGITS GRAPHENE_COMMITTEE_ACCOUNT
    (genesis_options max 138 138 (Some (mk_price (mk_asset 1 CORE) (mk_asset 1 GRAPHENE_ASSET_GAS))) "") false.

Definition symbol_taken (s : string) (d : database) : bool :=
  existsb (fun kv => String.eqb (symbol kv.2) s) (map_to_list (assets d)).

(** An asset with its dynamic data; symbols are unique. *)
Definition create_asset (a : asset_object) (dd : asset_dynamic_data) (d : database) : result database :=
  let id := next_asset d in
  let d := set_dynamic_data (<[id := dd]> (dynamic_data d)) d in
  check negb (symbol_taken (symbol a) d);
  Ok (set_next_asset (id + 1) (set_assets (<[id := a]> (assets d)) d)).

Definition create_special_assets (max : Z) (d : database) : result database :=
  let* d := create_asset (core_asset max) (mk_dyn GRAPHENE_MAX_SHARE_SUPPLY 0) d in
  create_asset (gas_asset max) (mk_dyn 0 0) d.

(** ** Initial accounts *)

(** [public_key_type()]. *)
Abbreviation null_key := 0.

Definition key_authority (k : Z) : authority := mk_authority 1 [] [(k, 1)] [].
Definition address_authority (a : Z) : authority := mk_authority 1 [] [] [(a, 1)].

Definition create_initial_account (fp : fee_parameters) (a : initial_account_type) (d : database) : result database :=
  check default false (is_valid_name (ia_name a));
  let owner := key_authority (owner_key a) in
  let (active, memo) :=
    if active_key a =? null_key then (owner, owner_key a)
    else (key_authority (active_key a), active_key a) in
  let cop := mk_account_create GRAPHENE_TEMP_ACCOUNT (ia_name a) owner active (mk_account_options memo ∅) None None in
  let* (r, d) := genesis_apply account_create_evaluator fp cop d in
  let* id := get_object_id r in
  if ia_is_lifetime_member a then
    let* (_, d) := genesis_apply account_upgrade_evaluator fp (mk_account_upgrade id true) d in Ok d
  else Ok d.

(** [get_account_id] and [get_asset] look a name up in a unique index. *)
Definition get_account_id (name : string) (d : database) : result Z :=
  let* (id, _) := get_or (find (fun kv => String.eqb (account_name kv.2) name) (map_to_list (accounts d)))
                    assert_exception in
  Ok id.
Definition get_asset_by_symbol (s : string) (d : database) : result (Z * asset_object) :=
  get_or (find (fun kv => String.eqb (symbol kv.2) s) (map_to_list (assets d))) assert_exception.

(** ** Initial assets *)

(** The database, [total_supplies] and [total_debts]. *)
Record allocation := mk_allocation {
  al_db : database;
  total_supplies : gmap Z Z;
  total_debts : gmap Z Z }.

Definition set_al_db (d : database) (s : allocation) : allocation := mk_allocation d (total_supplies s) (total_debts s).

(** [m[x] += v]. *)
Definition add_to (x v : Z) (m : gmap Z Z) : result (gmap Z Z) :=
  let* n := Share.add (default 0 (m !! x)) v in Ok (<[x := n]> m).

Definition add_supply (x v : Z) (s : allocation) : result allocation :=
  let* m := add_to x v (total_supplies s) in Ok (mk_allocation (al_db s) m (total_debts s)).
Definition add_debt (x v : Z) (s : allocation) : result allocation :=
  let* m := add_to x v (total_debts s) in Ok (mk_allocation (al_db s) (total_supplies s) m).

Definition lower (c : ascii) : ascii :=
  if char_in "A" "Z" c then ascii_of_nat (nat_of_ascii c + 32) else c.
Fixpoint to_lower (s : string) : string :=
  match s with
  | EmptyString => EmptyString
  | String c s => String (lower c) (to_lower s)
  end.
Definition holder_name (sym : string) (n : Z) : string :=
  to_lower (sym ++ "-collateral-holder-" ++ String.string_of_list_ascii (to_string n))%string.

(** A holder account and its margin position. *)
Definition create_position (fp : fee_parameters) (sym : string) (new_asset n : Z) (p : initial_collateral_position)
    (s : allocation) : result allocation :=
  let owner := address_authority (icp_owner p) in
  let cop := mk_account_create GRAPHENE_TEMP_ACCOUNT (holder_name sym n) owner owner (mk_account_options null_key ∅)
               None None in
  let* (r, d) := genesis_apply account_create_evaluator fp cop (al_db s) in
  let* id := get_object_id r in
  let* d := modify_statistics id (fun _ => Ok (icp_collateral p)) d in
  let* cp := call_price (mk_asset (icp_debt p) new_asset) (mk_asset (icp_collateral p) CORE)
               GRAPHENE_DEFAULT_MAINTENANCE_COLLATERAL_RATIO in
  let cid := next_call_order d in
  let d := set_next_call_order (cid + 1)
             (set_call_orders (<[cid := mk_call id (icp_collateral p) (icp_debt p) cp]> (call_orders d)) d) in
  let* s := add_supply CORE (icp_collateral p) (set_al_db d s) in
  add_debt new_asset (icp_debt p) s.

Fixpoint create_positions (fp : fee_parameters) (sym : string) (new_asset n : Z)
    (l : list initial_collateral_position) (s : allocation) : result allocation :=
  match l with
  | [] => Ok s
  | p :: l' => let* s := create_position fp sym new_asset n p s in create_positions fp sym new_asset (n + 1) l' s
  end.

(** [bitasset_options] of the genesis; the other fields have their defaults. *)
Definition genesis_bitasset_options : bitasset_options := mk_bitasset_options 86400 7 86400 0 2000 CORE.

Definition genesis_permissions (bit : bool) : Z :=
  Z.lor (Z.lor (Z.lor charge_market_fee override_authority) (Z.lor white_list transfer_restricted))
    (if bit then Z.lor (Z.lor disable_force_settle global_settle) (Z.lor witness_fed_asset committee_fed_asset) else 0).

Definition create_initial_asset (fp : fee_parameters) (a : initial_asset_type) (s : allocation) : result allocation :=
  let id := next_asset (al_db s) in
  let s := mk_allocation (al_db s) (<[id := 0]> (total_supplies s)) (total_debts s) in
  let* s :=
    if is_bitasset a then
      let* s := create_positions fp (ias_symbol a) id 0 (collateral_records a)
                  (mk_allocation (al_db s) (total_supplies s) (<[id := 0]> (total_debts s))) in
      let d := al_db s in
      Ok (set_al_db (set_bitassets (<[id := new_bitasset genesis_bitasset_options]> (bitassets d)) d) s)
    else Ok s in
  let* s := add_supply id (ias_accumulated_fees a) s in
  let* who := get_account_id (issuer_name a) (al_db s) in
  let o := genesis_options (ias_max_supply a) (genesis_permissions (is_bitasset a)) witness_fed_asset None
             (ias_description a) in
  let* d := create_asset (mk_asset_object (ias_symbol a) (ias_precision a) who o (is_bitasset a))
              (mk_dyn 0 (ias_accumulated_fees a)) (al_db s) in
  Ok (set_al_db d s).

(** ** Initial balances *)

Definition create_balance_object (b : balance_object) (d : database) : database :=
  set_initial_balances (<[Z.of_nat (size (initial_balances d)) := b]> (initial_balances d)) d.

Definition address_handout (h : initial_balance_type) (s : allocation) : result allocation :=
  let* (x, _) := get_asset_by_symbol (ib_asset_symbol h) (al_db s) in
  add_supply x (ib_amount h)
    (set_al_db (create_balance_object (mk_balance_object (ib_owner h) (mk_asset (ib_amount h) x) None 0) (al_db s)) s).

(** Owner and asset of a balance are unique. *)
Definition account_handout (h : initial_account_balances_type) (s : allocation) : result allocation :=
  let* (x, a) := get_asset_by_symbol (iab_asset_symbol h) (al_db s) in
  check negb (is_market_issued a);
  let d := al_db s in
  let* who := get_account_id (iab_owner_name h) d in
  check bool_decide (account_balances d !! (who, x) = None);
  add_supply x (iab_amount h)
    (set_al_db (set_account_balances (<[(who, x) := iab_amount h]> (account_balances d)) d) s).

Definition vesting_handout (v : initial_vesting_balance_type) (s : allocation) : result allocation :=
  let* (x, _) := get_asset_by_symbol (iv_asset_symbol v) (al_db s) in
  let policy := mk_linear (iv_begin_timestamp v) 0 (iv_vesting_duration_seconds v) (iv_begin_balance v) in
  add_supply x (iv_amount v)
    (set_al_db (create_balance_object
                  (mk_balance_object (iv_owner v) (mk_asset (iv_amount v) x) (Some policy) 0) (al_db s)) s).

(** A [for] loop whose body may throw. *)
Fixpoint for_each {A S : Type} (f : A -> S -> result S) (l : list A) (s : S) : result S :=
  match l with
  | [] => Ok s
  | a :: l' => let* s := f a s in for_each f l' s
  end.

(** ** Supplies *)

(** The committee holds all core units unless the genesis hands some out. *)
Definition settle_core (s : allocation) : result allocation :=
  if default 0 (total_supplies s !! CORE) >? 0 then
    let* neg := asset_neg (get_balance GRAPHENE_COMMITTEE_ACCOUNT CORE (al_db s)) in
    let* d := adjust_balance GRAPHENE_COMMITTEE_ACCOUNT neg false (al_db s) in
    Ok (set_al_db d s)
  else Ok (mk_allocation (al_db s) (<[CORE := GRAPHENE_MAX_SHARE_SUPPLY]> (total_supplies s)) (total_debts s)).

(** Whether the debt of a market-issued asset is its supply. *)
Definition balanced (s : allocation) (xa : Z * asset_object) : result bool :=
  if is_market_issued xa.2 then
    let* supply_ := get_or (total_supplies s !! xa.1) assert_exception in
    let* debt_ := get_or (total_debts s !! xa.1) assert_exception in
    Ok (supply_ =? debt_)
  else Ok true.

Definition check_balanced (s : allocation) : result unit :=
  let* all := for_each (fun xa acc => let* b := balanced s xa in Ok (acc && b)) (map_to_list (assets (al_db s))) true in
  fc_assert all.

Definition save_supply (xv : Z * Z) (d : database) : result database :=
  let* a := get_asset xv.1 d in
  check xv.2 <=? max_supply a;
  modify_dynamic_data xv.1 (fun dd => Ok (mk_dyn xv.2 (accumulated_fees dd))) d.

(** [total_supplies] is an ordered map. *)
Definition save_supplies (s : allocation) : result database :=
  for_each save_supply (sort_by (fun a b => a.1 <=? b.1) (map_to_list (total_supplies s))) (al_db s).

(** ** Candidates

    The chain has no maintenance time yet. *)

(** The object with the null id is made and removed. *)
Definition create_null_witness (d : database) : result database :=
  let g := governance d in
  let id := next_witness g in
  check id =? 0;
  Ok (set_governance (set_next_witness (id + 1) g) d).

Definition create_initial_witness (fp : fee_parameters) (w : initial_witness_type) (d : database) : result database :=
  let* who := get_account_id (iw_owner_name w) d in
  let* (_, d) := genesis_apply (candidate_create_evaluator Witness 0) fp
                   (mk_candidate_create who "" (Some (block_signing_key w))) d in
  Ok d.
Definition create_initial_committee_member (fp : fee_parameters) (name : string) (d : database) : result database :=
  let* who := get_account_id name d in
  let* (_, d) := genesis_apply (candidate_create_evaluator Committee 0) fp (mk_candidate_create who "" None) d in
  Ok d.

(** ** The genesis *)

Definition validate_genesis (g : genesis_state_type) : result unit :=
  check negb (initial_timestamp g =? 0);
  check initial_timestamp g mod GRAPHENE_DEFAULT_BLOCK_INTERVAL =? 0;
  check (0 <? length (initial_witness_candidates g))%nat;
  fc_assert (initial_active_witnesses g <=? Z.of_nat (length (initial_witness_candidates g))).

Definition validate_elections (g : genesis_state_type) : result unit :=
  let p := initial_parameters g in
  check Z.land (gs_min_witness_count g) 1 =? 1;
  check Z.land (gs_min_committee_member_count g) 1 =? 1;
  check (witness_number_of_election p >=? gs_min_witness_count g)
        && (Z.of_nat (length (initial_witness_candidates g)) >=? witness_number_of_election p);
  fc_assert ((committee_number_of_election p >=? gs_min_committee_member_count g)
             && (Z.of_nat (length (initial_committee_candidates g)) >=? committee_number_of_election p)).

(** Global and dynamic global properties, as far as the evaluators read them. *)
Definition create_properties (g : genesis_state_type) (d : database) : database :=
  set_head_block_time (initial_timestamp g)
    (set_governance (set_parameters (set_account_create_basic_fee zero_fee (initial_parameters g)) (governance d)) d).

(** From the accounts of the protocol to the tallied supplies. *)
Definition init_balances (g : genesis_state_type) (d : database) : result database :=
  let fp := initial_fees g in
  let* d := for_each (create_initial_account fp) (initial_accounts g) d in
  let* s := for_each (create_initial_asset fp) (initial_assets g) (mk_allocation d ∅ ∅) in
  let* s := for_each address_handout (initial_address_balances g) s in
  let* s := for_each account_handout (initial_account_balances g) s in
  let* s := for_each vesting_handout (initial_vesting_balances g) s in
  let* s := settle_core s in
  let* _ := check_balanced s in
  save_supplies s.

Definition init_candidates (g : genesis_state_type) (d : database) : result database :=
  let fp := initial_fees g in
  let* d := create_null_witness d in
  let* d := for_each (create_initial_witness fp) (initial_witness_candidates g) d in
  for_each (create_initial_committee_member fp) (initial_committee_candidates g) d.

Definition init_ledger (g : genesis_state_type) : result database :=
  let* _ := validate_genesis g in
  let* d := create_special_accounts empty_database in
  let* d := create_special_assets (max_core_supply g) d in
  let d := create_properties g d in
  let* _ := validate_elections g in
  let* d := init_balances g d in
  init_candidates g d.

(** Enabling the fees puts the basic fee of accounts back. *)
Definition enable_fees (g : genesis_state_type) (d : database) : database :=
  let p := parameters (governance d) in
  set_governance
    (set_parameters (set_account_create_basic_fee (account_create_basic_fee (initial_parameters g)) p) (governance d)) d.

(** Made when a database without the object is opened, after a genesis too; the sizes are the
    defaults of the object. *)
Definition init_global_property_extensions (d : database) : database :=
  set_governance
    (set_property_extensions
       (Some (mk_extensions GRAPHENE_DEFAULT_WITNESSE_NUMBER GRAPHENE_DEFAULT_COMMITTEE_NUMBER 3072 10485760 2147483648))
       (governance d)) d.

(** [witness_id_type(1)] and on. *)
Definition first_witnesses (g : genesis_state_type) : list Z := seqZ 1 (initial_active_witnesses g).

Definition new_witness (c : candidate) : witness_object := mk_witness (cand_account c) None 0 0 "".

Definition block_summary_pool : gmap Z block_id_type :=
  list_to_map ((fun i => (i, null_block_id)) <$> seqZ 0 65537).

(** The objects the blocks start from. *)
Definition start_chain (g : genesis_state_type) (d : database) : chain :=
  let p := initial_parameters g in
  let ws := first_witnesses g in
  mk_chain
    (mk_gpo (block_interval_ p) (maintenance_skip_slots_ p) (witness_pay_per_block_ p) (witness_pay_vesting_seconds_ p) ws)
    (mk_dgp 0 null_block_id (initial_timestamp g) 0 0 0 0 0 (2 ^ 128 - 1) 0 0 0)
    (new_witness <$> witness_candidates (governance d)) ws block_summary_pool no_maintenance (enable_fees g d).

Section Genesis.
Context {Data Code : Type} (empty_data : Data) (compile : string -> string -> result (Code * gmap string (option nat))).

(** The first contract has no version of its own and no authority. *)
Definition create_contract_base (base : string) (d : database) : result contract_state :=
  check (0 <? String.length base)%nat;
  let* (_, s) := contract_create_do_apply empty_data compile 0 GRAPHENE_COMMITTEE_ACCOUNT "contract.baseENV" base null_key
                   (mk_cs d ∅ 0 ∅ ∅ ∅ ∅ ∅ []) in
  Ok s.

Definition init_genesis (g : genesis_state_type) : result (chain * contract_state (Data := Data) (Code := Code)) :=
  let* d := init_ledger g in
  let* s := create_contract_base (initial_contract_base g) d in
  let c := start_chain g d in
  Ok (c, set_db (ledger c) s).
End Genesis.
