(* ===== verification/GenesisSpec.v ===== *)
(** * The first state satisfies the invariants of the chain

    While [Genesis] hands out balances, [books_ok] relates the state to the two tallies:
    what exists of an asset is what was tallied, and what the committee keeps of the core
    asset; what is owed in margin positions is the tallied debt.  Saving the tallies as
    supplies then leaves no excess.  The invariants of orders ([market_ok], [chain_ok]),
    bids ([bids_ok]) and elections ([gov_ok]) hold of what is built. *)

From S2P Require Import Prelude SafeInt Asset Vesting Authority State Ledger MarketProofs Fees AssetEval.
From S2P Require Import Candidates Names Text Votes VotesSpec Elections Budget Bids Collateral MaintenanceSpec.
From S2P Require Import GovOperations Contracts Block Schedule Genesis.

(** ** Loops and operations *)

Lemma for_each_inv {A S} (P : S -> Prop) (f : A -> S -> result S) l : forall s s',
  (forall a s s', a ∈ l -> P s -> f a s = Ok s' -> P s') -> P s -> for_each f l s = Ok s' -> P s'.
Proof.
  induction l as [|a l IH]; intros s s' Hf Hs H; cbn in H; [by injection H as <-|].
  apply rbind_ok in H as (s1 & H1 & H). eapply IH; [|eapply Hf; [by left|exact Hs|exact H1]|exact H].
  intros b t t' Hb. apply Hf. by right.
Qed.

(** The operations of the genesis cost nothing. *)
Lemma genesis_apply_inv {Op} (E : Evaluator Op) fp op d r d' : (forall op d, late_fee (Evaluator := E) op d = None) ->
  after_fee (Evaluator := E) = no_after_fee -> genesis_apply E fp op d = Ok (r, d') ->
  exists ctx ctx', do_evaluate (Evaluator := E) op d = Ok ctx /\ do_apply op ctx d = Ok (r, ctx', d').
Proof.
  intros Hl Ha H. unfold genesis_apply, apply_operation in H.
  destruct (start_evaluate _ _ op d) as [[rr dd]|e] eqn:Es; [|by destruct e]. injection H as <- <-.
  unfold start_evaluate in Es.
  apply rbind_ok in Es as (? & _ & Es). apply rbind_ok in Es as (? & _ & Es). apply rbind_ok in Es as (? & _ & Es).
  apply rbind_ok in Es as (fee & Hfee & Es). apply rbind_ok in Es as (ctx & He & Es).
  apply rbind_ok in Es as ([[r1 ctx1] d1] & Hd & Es). rewrite Hl in Es.
  vm_compute in Hfee. injection Hfee as <-. cbn in Es.
  apply rbind_ok in Es as ([paid d2] & Hp & Es). rewrite Ha in Es. unfold no_after_fee in Es. cbn in Es.
  injection Es as <- <-. unfold evaluator_pay_fee in Hp. apply rbind_ok in Hp as (? & _ & Hp).
  apply rbind_ok in Hp as (? & _ & Hp). cbn in Hp. injection Hp as <- <-. by exists ctx, ctx1.
Qed.

(** ** Accounts *)

(** An account that takes no part in elections. *)
Definition plain (a : account_object) : Prop :=
  votes a = ∅ /\ locked_of a CORE = 0 /\ forall o, freeze_of o a = None /\ lock_of o a = None.

(** Before the candidates. *)
Record members_ok (d : database) : Prop := {
  mo_plain : forall k a, accounts d !! k = Some a -> k < next_account (governance d) /\ plain a;
  mo_none : forall o, candidates o (governance d) = ∅;
  mo_votes : next_available_vote_id (governance d) = 0;
  mo_witness : next_witness (governance d) = 0 }.

Lemma members_add d d' k a : members_ok d -> k = next_account (governance d) -> plain a ->
  accounts d' = <[k := a]> (accounts d) -> next_account (governance d') = k + 1 ->
  next_available_vote_id (governance d') = next_available_vote_id (governance d) ->
  (forall o, next_candidate o (governance d') = next_candidate o (governance d)
     /\ candidates o (governance d') = candidates o (governance d)) -> members_ok d'.
Proof.
  intros M -> Ha EA EN EV EC. split.
  - intros k a'. rewrite EA, EN. intros [[<- <-]|[_ H]]%lookup_insert_Some; [split; [lia|done]|].
    destruct (mo_plain _ M _ _ H). split; [lia|done].
  - intros o. rewrite (proj2 (EC o)). apply M.
  - rewrite EV. apply M.
  - destruct (EC Witness) as [E _]. cbn in E. rewrite E. apply M.
Qed.

(** Creating an account without votes and special authorities. *)
Lemma create_account_step fp name ow ac memo d r d' :
  genesis_apply account_create_evaluator fp
    (mk_account_create GRAPHENE_TEMP_ACCOUNT name ow ac (mk_account_options memo ∅) None None) d = Ok (r, d') ->
  members_ok d ->
  r = object_id_result (next_account (governance d)) /\ members_only d d' /\ members_ok d'
  /\ is_Some (account_statistics d' !! next_account (governance d)).
Proof.
  intros H M. apply genesis_apply_inv in H as (ctx & ctx' & _ & H); [|done|done].
  unfold do_apply, account_create_evaluator, return_with in H. apply rbind_ok in H as ([id d1] & H & [= <- _ <-]).
  unfold account_create_do_apply in H. apply rbind_ok in H as (_ & _ & H). cbn -[set_governance] in H.
  apply rbind_ok in H as (g & Hg & [= <- <-]). destruct (scale_account_fee_frame _ _ Hg) as (N1 & N2 & N3).
  split; [done|]. split; [eexists _, _, _; done|]. split; [|cbn; rewrite lookup_insert_eq; eauto].
  eapply (members_add d); [done|done| |done|..]; cbn -[scale_account_fee].
  - by split; [|split]; [..|intros []].
  - by rewrite N1.
  - by rewrite N2.
  - intros o. destruct (N3 o) as [-> ->]. by destruct o.
Qed.

Lemma upgrade_step fp id d r d' :
  genesis_apply account_upgrade_evaluator fp (mk_account_upgrade id true) d = Ok (r, d') -> members_ok d ->
  members_only d d' /\ members_ok d'.
Proof.
  intros H M. apply genesis_apply_inv in H as (ctx & ctx' & _ & H); [|done|done].
  unfold do_apply, account_upgrade_evaluator, return_void in H. apply rbind_ok in H as (d1 & H & [= _ _ <-]).
  unfold account_upgrade_do_apply, get_account in H. cbn in H. res_inv.
  split; [exists (<[id := set_membership_expiration_date time_point_sec_maximum a]> (accounts d)),
            (account_statistics d), (governance d); by destruct d|].
  split; cbn; [|apply M..]. intros k b [[<- <-]|[_ H]]%lookup_insert_Some; [|by apply M].
  match goal with H : accounts d !! id = Some _ |- _ => destruct (mo_plain _ M _ _ H) as (? & ? & ? & Hp) end.
  split; [done|]. split; [done|]. split; [done|]. intros o. specialize (Hp o). by destruct o.
Qed.

Lemma initial_account_step fp a d d' : create_initial_account fp a d = Ok d' -> members_ok d ->
  members_only d d' /\ members_ok d'.
Proof.
  unfold create_initial_account. intros H M. apply rbind_ok in H as (_ & _ & H).
  destruct (if active_key a =? null_key then _ else _) as [active memo].
  apply rbind_ok in H as ([r d1] & H1 & H). apply create_account_step in H1 as (-> & F1 & M1 & _); [|done].
  cbn in H. destruct (ia_is_lifetime_member a); [|by injection H as <-].
  apply rbind_ok in H as ([r d2] & H2 & [= <-]). apply upgrade_step in H2 as [F2 M2]; [|done].
  split; [by etransitivity|done].
Qed.

(** ** Balances and tallies *)

(** The assets of the protocol need not be tallied. *)
Definition listed (ts : gmap Z Z) (x : Z) : Prop := x = CORE \/ x = GRAPHENE_ASSET_GAS \/ is_Some (ts !! x).

Definition asset_listed (d : database) (ts : gmap Z Z) (x : Z) (a : asset_object) : Prop :=
  x < next_asset d /\ listed ts x /\ market_fee_percent a = 0 /\ max_market_fee a = GRAPHENE_MAX_SHARE_SUPPLY.

Lemma asset_listed_mono d ts ts' x a : (forall y, is_Some (ts !! y) -> is_Some (ts' !! y)) -> asset_listed d ts x a ->
  asset_listed d ts' x a.
Proof. intros H (? & [|[|]] & ?); (split; [done|]; split; [|done]); [by left|by right; left|right; right; auto]. Qed.

(** [kept] is what the committee holds besides what was tallied. *)
Record books_ok (kept : Z) (d : database) (ts td : gmap Z Z) : Prop := {
  bo_total : forall x, total x d = default 0 (ts !! x) + in_asset x (mk_asset kept CORE);
  bo_owed : forall x, owed x d = default 0 (td !! x);
  bo_nonneg : forall x v, ts !! x = Some v -> 0 <= v;
  bo_assets : forall x a, assets d !! x = Some a -> asset_listed d ts x a;
  bo_dyn : forall x, is_Some (dynamic_data d !! x) <-> is_Some (assets d !! x);
  bo_supply : forall x dd, dynamic_data d !! x = Some dd -> x <> CORE -> current_supply dd = 0;
  bo_bit : forall x b, bitassets d !! x = Some b -> b = new_bitasset genesis_bitasset_options /\ x <> CORE;
  bo_calls : forall id c, call_orders d !! id = Some c ->
    0 <= debt c /\ id < next_call_order d /\ asset_id (base (co_call_price c)) = CORE;
  bo_balances : balances_nonneg d;
  bo_initial : forall id, is_Some (initial_balances d !! id) -> id < Z.of_nat (size (initial_balances d));
  bo_none : limit_orders d = ∅ /\ force_settlements d = ∅ /\ collateral_bids d = ∅ /\ vesting_balances d = ∅ }.

Lemma books_members kept d d' ts td : members_only d d' -> books_ok kept d ts td -> books_ok kept d' ts td.
Proof. intros (m & st & g & ->) B. split; apply B. Qed.

(** [m[x] += v] adds [v] at [x]. *)
Lemma add_to_spec x v m m' : add_to x v m = Ok m' ->
  (forall y, default 0 (m' !! y) = default 0 (m !! y) + in_asset y (mk_asset v x))
  /\ (forall y, is_Some (m !! y) -> is_Some (m' !! y)) /\ (forall y, is_Some (m' !! y) -> y = x \/ is_Some (m !! y))
  /\ (0 <= v -> (forall y w, m !! y = Some w -> 0 <= w) -> forall y w, m' !! y = Some w -> 0 <= w).
Proof.
  unfold add_to. intros H. apply rbind_ok in H as (n & Hn & [= <-]). apply Share.add_value in Hn as ->.
  unfold in_asset. cbn. split; [|split; [|split]].
  - intros y. destruct (Z.eqb_spec x y) as [->|Hy]; [by rewrite lookup_insert_eq|].
    rewrite lookup_insert_ne by done. lia.
  - intros y Hy. destruct (decide (x = y)) as [->|]; [rewrite lookup_insert_eq; eauto|by rewrite lookup_insert_ne].
  - intros y [w [[<- _]|[_ Hw]]%lookup_insert_Some]; eauto.
  - intros Hv Hm y w [[<- <-]|[_ Hw]]%lookup_insert_Some; [|eauto].
    destruct (m !! x) as [u|] eqn:E; cbn; [specialize (Hm _ _ E)|]; lia.
Qed.

(** The first entry of an asset in a tally. *)
Lemma books_new_tally kept d ts td x : books_ok kept d ts td -> ts !! x = None -> td !! x = None ->
  books_ok kept d (<[x := 0]> ts) td /\ books_ok kept d (<[x := 0]> ts) (<[x := 0]> td).
Proof.
  intros B Ht Hd.
  assert (Hz : forall (m : gmap Z Z) y, m !! x = None -> default 0 (<[x := 0]> m !! y) = default 0 (m !! y)).
  { intros m y Hm. destruct (decide (x = y)) as [->|]; [by rewrite lookup_insert_eq, Hm|by rewrite lookup_insert_ne]. }
  assert (Hn : forall y v, <[x := 0]> ts !! y = Some v -> 0 <= v).
  { intros y v [[_ <-]|[_ H]]%lookup_insert_Some; [done|]. by eapply (bo_nonneg _ _ _ _ B). }
  assert (Ha : forall y a, assets d !! y = Some a -> asset_listed d (<[x := 0]> ts) y a).
  { intros y a H. eapply asset_listed_mono; [|by apply B]. intros z Hz'. destruct (decide (x = z)) as [->|];
      [rewrite lookup_insert_eq; eauto|by rewrite lookup_insert_ne]. }
  split; split; try apply B; try done; intros y; rewrite ?Hz by done; apply B.
Qed.

Lemma books_call kept d ts td ts' td' c x : books_ok kept d ts td -> 0 <= collateral c -> 0 <= debt c ->
  asset_id (base (co_call_price c)) = CORE -> asset_id (quote (co_call_price c)) = x ->
  add_to CORE (collateral c) ts = Ok ts' -> add_to x (debt c) td = Ok td' ->
  let id := next_call_order d in
  books_ok kept (set_next_call_order (id + 1) (set_call_orders (<[id := c]> (call_orders d)) d)) ts' td'.
Proof.
  intros B Hc Hd Eb Eq Ht Htd id. apply add_to_spec in Ht as (T1 & T2 & _ & T4).
  apply add_to_spec in Htd as (D1 & _).
  assert (Hnew : call_orders d !! id = None).
  { destruct (call_orders d !! id) eqn:E; [|done]. apply (bo_calls _ _ _ _ B) in E as (_ & ? & _). unfold id in *. lia. }
  split; try apply B.
  - intros y. change (total y (set_call_orders (<[id := c]> (call_orders d)) d) = default 0 (ts' !! y) + in_asset y (mk_asset kept CORE)).
    rewrite total_set_call, (bo_total _ _ _ _ B), T1. unfold in_call_orders. rewrite sum_map_insert_new by done.
    unfold get_collateral. rewrite Eb. lia.
  - intros y. unfold owed. cbn. rewrite sum_map_insert_new by done.
    fold (owed y d). rewrite (bo_owed _ _ _ _ B), D1. unfold get_debt, debt_type. rewrite Eq. lia.
  - apply (T4 Hc (bo_nonneg _ _ _ _ B)).
  - intros y a H. eapply asset_listed_mono; [exact T2|]. apply (bo_assets _ _ _ _ B _ _ H).
  - cbn. intros i c' [[<- <-]|[_ H]]%lookup_insert_Some; [lia|]. destruct (bo_calls _ _ _ _ B _ _ H) as (? & ? & ?).
    unfold id. lia.
Qed.

Lemma books_bitasset kept d ts td x : books_ok kept d ts td -> x <> CORE ->
  books_ok kept (set_bitassets (<[x := new_bitasset genesis_bitasset_options]> (bitassets d)) d) ts td.
Proof.
  intros B Hx. split; try apply B.
  - intros y. rewrite total_set_bitassets, (bo_total _ _ _ _ B). unfold in_funds.
    destruct (bitassets d !! x) as [b|] eqn:E.
    + destruct (bo_bit _ _ _ _ B _ _ E) as [-> _]. rewrite (sum_map_insert _ _ _ _ _ E). lia.
    + rewrite sum_map_insert_new by done. cbn [settlement_fund new_bitasset]. rewrite in_asset_0. lia.
  - cbn. intros y b [[<- <-]|[_ H]]%lookup_insert_Some; [done|]. by eapply (bo_bit _ _ _ _ B).
Qed.

(** How a tally grows by [v] at [x]. *)
Definition grows (x v : Z) (ts ts' : gmap Z Z) : Prop :=
  (forall y, default 0 (ts' !! y) = default 0 (ts !! y) + in_asset y (mk_asset v x))
  /\ (forall y, is_Some (ts !! y) -> is_Some (ts' !! y)) /\ (forall y w, ts' !! y = Some w -> 0 <= w).

Lemma grows_add kept d x v ts td ts' : books_ok kept d ts td -> 0 <= v -> add_to x v ts = Ok ts' -> grows x v ts ts'.
Proof. intros B Hv H. apply add_to_spec in H as (T1 & T2 & _ & T4). split; [done|]. split; [done|]. apply (T4 Hv), B. Qed.

Lemma grows_refl kept d x ts td : books_ok kept d ts td -> grows x 0 ts ts.
Proof. intros B. split; [|split; [done|apply B]]. intros y. rewrite in_asset_0. lia. Qed.

Lemma create_asset_inv a dd d d' : create_asset a dd d = Ok d' -> let id := next_asset d in
  d' = set_next_asset (id + 1) (set_assets (<[id := a]> (assets d)) (set_dynamic_data (<[id := dd]> (dynamic_data d)) d)).
Proof. unfold create_asset. intros H. by res_inv. Qed.

Lemma books_asset kept d ts td ts' a s f d' : books_ok kept d ts td -> grows (next_asset d) f ts ts' ->
  create_asset a (mk_dyn s f) d = Ok d' -> listed ts' (next_asset d) -> (next_asset d <> CORE -> s = 0) ->
  market_fee_percent a = 0 -> max_market_fee a = GRAPHENE_MAX_SHARE_SUPPLY -> books_ok kept d' ts' td.
Proof.
  intros B (T1 & T2 & T4) H Hl Hs Ha1 Ha2. apply create_asset_inv in H as ->. set (id := next_asset d) in *.
  assert (HA : assets d !! id = None).
  { destruct (assets d !! id) eqn:E; [|done]. apply (bo_assets _ _ _ _ B) in E as (? & _). unfold id in *. lia. }
  assert (HD : dynamic_data d !! id = None).
  { destruct (dynamic_data d !! id) eqn:E; [|done]. destruct (proj1 (bo_dyn _ _ _ _ B id)); [eauto|congruence]. }
  split; try apply B; try done.
  - intros y. change (total y (set_dynamic_data (<[id := mk_dyn s f]> (dynamic_data d)) d)
      = default 0 (ts' !! y) + in_asset y (mk_asset kept CORE)).
    rewrite total_set_dyn, (bo_total _ _ _ _ B), T1. unfold in_fees. rewrite sum_map_insert_new by done. cbn. lia.
  - cbn. intros y b [[<- <-]|[_ H]]%lookup_insert_Some; [split; [cbn; lia|done]|].
    destruct (asset_listed_mono _ _ _ _ _ T2 (bo_assets _ _ _ _ B _ _ H)) as (? & ? & ?).
    split; [cbn; unfold id; lia|done].
  - cbn. intros y. rewrite !lookup_insert_is_Some. pose proof (bo_dyn _ _ _ _ B y). naive_solver.
  - cbn. intros y dd [[<- <-]|[_ H]]%lookup_insert_Some; [done|]. by eapply (bo_supply _ _ _ _ B).
Qed.

Lemma books_handout kept d ts td ts' b : books_ok kept d ts td -> grows (asset_id (bal_balance b)) (amount (bal_balance b)) ts ts' ->
  books_ok kept (create_balance_object b d) ts' td.
Proof.
  intros B (T1 & T2 & T4). unfold create_balance_object. set (id := Z.of_nat (size (initial_balances d))).
  assert (HN : initial_balances d !! id = None).
  { destruct (initial_balances d !! id) eqn:E; [|done]. pose proof (bo_initial _ _ _ _ B id ltac:(eauto)). unfold id in *. lia. }
  split; try apply B; try done.
  - intros y. rewrite total_set_initial, (bo_total _ _ _ _ B), T1. unfold in_initial.
    rewrite sum_map_insert_new by done. rewrite (in_asset_eta y (bal_balance b)). lia.
  - intros y a H. eapply asset_listed_mono; [exact T2|]. apply (bo_assets _ _ _ _ B _ _ H).
  - cbn. intros i. rewrite map_size_insert_None by done. intros [w [[<- _]|[_ H]]%lookup_insert_Some]; [unfold id; lia|].
    pose proof (bo_initial _ _ _ _ B i ltac:(eauto)). lia.
Qed.

Lemma books_balance kept d ts td ts' k v : books_ok kept d ts td -> account_balances d !! k = None -> 0 <= v ->
  grows k.2 v ts ts' -> books_ok kept (set_account_balances (<[k := v]> (account_balances d)) d) ts' td.
Proof.
  intros B HN Hv (T1 & T2 & T4). split; try apply B; try done.
  - intros y. assert (E : total y (set_account_balances (<[k := v]> (account_balances d)) d)
      = total y d - in_balances y (account_balances d) + in_balances y (<[k := v]> (account_balances d)))
      by (unfold total; cbn; lia).
    rewrite E, in_balances_insert, HN, (bo_total _ _ _ _ B), T1. cbn. rewrite Z.sub_0_r. lia.
  - intros y a H. eapply asset_listed_mono; [exact T2|]. apply (bo_assets _ _ _ _ B _ _ H).
  - unfold balances_nonneg. cbn. intros i w [[<- <-]|[_ H]]%lookup_insert_Some; [done|]. by eapply (bo_balances _ _ _ _ B).
Qed.

(** ** Handing out *)

Definition protocol_assets (max : Z) (d : database) : Prop :=
  assets d !! CORE = Some (core_asset max) /\ assets d !! GRAPHENE_ASSET_GAS = Some (gas_asset max).

(** [m] is the next asset, and [n] bounds the assets tallied so far. *)
Record alloc_ok (max m n : Z) (s : allocation) : Prop := {
  ak_books : books_ok GRAPHENE_MAX_SHARE_SUPPLY (al_db s) (total_supplies s) (total_debts s);
  ak_members : members_ok (al_db s);
  ak_kept : account_balances (al_db s) !! (GRAPHENE_COMMITTEE_ACCOUNT, CORE) = Some GRAPHENE_MAX_SHARE_SUPPLY;
  ak_special : protocol_assets max (al_db s);
  ak_next : next_asset (al_db s) = m /\ GRAPHENE_ASSET_GAS < m <= n;
  ak_keys : forall x, is_Some (total_supplies s !! x) \/ is_Some (total_debts s !! x) -> x < n }.

(** What a genesis file should hold: no negative amounts. *)
Definition position_nonneg (p : initial_collateral_position) : Prop := 0 <= icp_collateral p /\ 0 <= icp_debt p.
Definition asset_nonneg (a : initial_asset_type) : Prop :=
  0 <= ias_accumulated_fees a /\ Forall position_nonneg (collateral_records a).
Record amounts_nonneg (g : genesis_state_type) : Prop := {
  an_assets : Forall asset_nonneg (initial_assets g);
  an_address : Forall (fun h => 0 <= ib_amount h) (initial_address_balances g);
  an_account : Forall (fun h => 0 <= iab_amount h) (initial_account_balances g);
  an_vesting : Forall (fun v => 0 <= iv_amount v) (initial_vesting_balances g) }.

Lemma add_to_keys x v (m m' : gmap Z Z) n : add_to x v m = Ok m' -> x < n ->
  (forall y, is_Some (m !! y) -> y < n) -> forall y, is_Some (m' !! y) -> y < n.
Proof. intros H Hx Hm y Hy. apply add_to_spec in H as (_ & _ & T3 & _). destruct (T3 y Hy) as [->|]; auto. Qed.

Lemma position_step mx fp sym x n m i p s s' : create_position fp sym x i p s = Ok s' -> alloc_ok mx m n s ->
  position_nonneg p -> x < n -> alloc_ok mx m n s'.
Proof.
  unfold create_position. intros H [B M K P N Ky] [Hc Hd] Hx. apply rbind_ok in H as ([r d1] & H1 & H).
  apply create_account_step in H1 as (-> & F1 & M1 & _); [|done]. cbn [get_object_id rbind] in H.
  apply rbind_ok in H as (d2 & H2 & H). apply modify_statistics_inv in H2 as (st & st' & _ & _ & ->).
  apply rbind_ok in H as (cp & Hcp & H). apply call_price_ids in Hcp as [Eb Eq]. cbn in Eb, Eq.
  pose proof (books_members _ _ _ _ _ F1 B) as B1.
  assert (E1 : account_balances d1 = account_balances (al_db s) /\ next_asset d1 = next_asset (al_db s)
    /\ assets d1 = assets (al_db s)) by (by destruct F1 as (? & ? & ? & ->)).
  destruct E1 as (E1 & E2 & E3). unfold add_supply in H. apply rbind_ok in H as (s1 & H & H3).
  apply rbind_ok in H as (ts' & Hts & [= <-]). unfold add_debt in H3. apply rbind_ok in H3 as (td' & Htd & [= <-]).
  cbn [al_db total_supplies total_debts set_al_db] in *. split; cbn [al_db total_supplies total_debts].
  - eapply (books_call _ (set_account_statistics _ d1)); [|done|done|exact Eb|exact Eq|exact Hts|exact Htd].
    eapply books_members; [apply members_only_stats|exact B1].
  - destruct M1. by split.
  - cbn. by rewrite E1.
  - unfold protocol_assets. cbn. by rewrite E3.
  - cbn. by rewrite E2.
  - intros y [Hy|Hy]; [eapply (add_to_keys _ _ _ _ _ Hts)|eapply (add_to_keys _ _ _ _ _ Htd)]; try exact Hy; try lia;
      intros z Hz; apply Ky; auto.
Qed.

Lemma positions_step mx fp sym x n m l : forall i s s', create_positions fp sym x i l s = Ok s' -> alloc_ok mx m n s ->
  Forall position_nonneg l -> x < n -> alloc_ok mx m n s'.
Proof.
  induction l as [|p l IH]; intros i s s' H A Hl Hx; cbn in H; [by injection H as <-|].
  apply Forall_cons in Hl as [Hp Hl]. apply rbind_ok in H as (s1 & H1 & H).
  eapply IH; [exact H| |done|done]. by eapply position_step.
Qed.

Lemma initial_asset_step mx fp a m s s' : create_initial_asset fp a s = Ok s' -> alloc_ok mx m m s -> asset_nonneg a ->
  alloc_ok mx (m + 1) (m + 1) s'.
Proof.
  unfold create_initial_asset. intros H [B M K P [N1 N2] Ky] [Hf Hp]. rewrite N1 in H.
  assert (Hts : total_supplies s !! m = None /\ total_debts s !! m = None).
  { split; apply eq_None_not_Some; intros Hs; specialize (Ky m); lia || naive_solver lia. }
  destruct Hts as [Hts Htd]. destruct (books_new_tally _ _ _ _ _ B Hts Htd) as [B1 B2].
  assert (Hk : forall (t : gmap Z Z), (forall x, is_Some (t !! x) -> x < m) -> forall x, is_Some (<[m := 0]> t !! x) -> x < m + 1).
  { intros t Ht x [w [[<- _]|[_ Hw]]%lookup_insert_Some]; [lia|]. pose proof (Ht x ltac:(eauto)). lia. }
  apply rbind_ok in H as (s1 & H1 & H). cbn [al_db total_supplies total_debts] in H1.
  assert (A1 : alloc_ok mx m (m + 1) s1).
  { destruct (is_bitasset a); [|injection H1 as <-].
    - apply rbind_ok in H1 as (s2 & H2 & [= <-]).
      assert (A2 : alloc_ok mx m (m + 1) s2).
      { eapply positions_step; [exact H2| |done|lia]. split; cbn; [done|done|done|done|lia|].
        intros x [Hx|Hx]; (eapply Hk; [|exact Hx]); intros y Hy; apply Ky; auto. }
      destruct A2 as [B3 M3 K3 P3 N3 Ky3]. split; [|destruct M3; by split|done|done|done|done]. apply books_bitasset; [done|lia].
    - split; cbn; [done|done|done|done|lia|]. intros x [Hx|Hx]; [eapply Hk; [|exact Hx]; intros y Hy; apply Ky; auto|].
      pose proof (Ky x ltac:(auto)). lia. }
  clear - H A1 Hf. destruct A1 as [B M K P [N1 N2] Ky]. apply rbind_ok in H as (s2 & H2 & H).
  unfold add_supply in H2. apply rbind_ok in H2 as (ts' & Hts & [= <-]). apply rbind_ok in H as (who & _ & H).
  apply rbind_ok in H as (d & Hd & [= <-]). cbn [al_db total_supplies total_debts] in *.
  pose proof (create_asset_inv _ _ _ _ Hd) as ->. cbn zeta. rewrite N1 in *.
  split; cbn [al_db total_supplies total_debts set_al_db].
  - eapply books_asset; [exact B| |exact Hd| |done|done|done]; rewrite N1; [by eapply grows_add|].
    right. right. unfold add_to in Hts. apply rbind_ok in Hts as (v & _ & [= <-]). rewrite lookup_insert_eq. eauto.
  - destruct M. by split.
  - done.
  - destruct P as [P1 P2]. split; cbn; by rewrite lookup_insert_ne by lia.
  - cbn. lia.
  - intros y [Hy|Hy]; [|apply Ky; auto]. eapply add_to_keys; [exact Hts| | |exact Hy]; [lia|]. intros z Hz. apply Ky. auto.
Qed.

Lemma symbol_found sym d x a : get_asset_by_symbol sym d = Ok (x, a) -> assets d !! x = Some a.
Proof.
  unfold get_asset_by_symbol. intros H. destruct (find _ _) as [[y b]|] eqn:E; [|done]. injection H as -> ->.
  apply find_some in E as [E _]. by apply elem_of_map_to_list, list_elem_of_In.
Qed.

(** A handout of an asset that exists keeps the books when the object created does. *)
Lemma handout_step mx m s s' d x v : alloc_ok mx m m s -> (exists a, assets (al_db s) !! x = Some a) ->
  add_supply x v (set_al_db d s) = Ok s' ->
  (forall ts', add_to x v (total_supplies s) = Ok ts' -> books_ok GRAPHENE_MAX_SHARE_SUPPLY d ts' (total_debts s)) ->
  accounts d = accounts (al_db s) -> governance d = governance (al_db s) -> assets d = assets (al_db s) -> next_asset d = next_asset (al_db s) ->
  account_balances d !! (GRAPHENE_COMMITTEE_ACCOUNT, CORE) = Some GRAPHENE_MAX_SHARE_SUPPLY -> alloc_ok mx m m s'.
Proof.
  intros [B M K P [N1 N2] Ky] [a Ha] H Hb EA EG ES EN EK. unfold add_supply in H. apply rbind_ok in H as (ts' & Hts & [= <-]).
  cbn [total_supplies al_db total_debts set_al_db] in *. split; cbn; [by apply Hb| |done|unfold protocol_assets; by rewrite ES|by rewrite EN|].
  - split; rewrite ?EA, ?EG; apply M.
  - intros y [Hy|Hy]; [|apply Ky; auto]. eapply (add_to_keys _ _ _ _ _ Hts); [|intros z Hz; apply Ky; auto|exact Hy].
    destruct (bo_assets _ _ _ _ B _ _ Ha). lia.
Qed.

Lemma address_step mx m h s s' : address_handout h s = Ok s' -> alloc_ok mx m m s -> 0 <= ib_amount h -> alloc_ok mx m m s'.
Proof.
  unfold address_handout. intros H A Hv. apply rbind_ok in H as ([x a] & Ha & H). apply symbol_found in Ha.
  eapply handout_step; [exact A|eauto|exact H| |done|done|done|done|apply A].
  intros ts' Ht. eapply books_handout; [apply A|]. eapply grows_add; [apply A|done|done].
Qed.

Lemma vesting_step mx m h s s' : vesting_handout h s = Ok s' -> alloc_ok mx m m s -> 0 <= iv_amount h -> alloc_ok mx m m s'.
Proof.
  unfold vesting_handout. intros H A Hv. apply rbind_ok in H as ([x a] & Ha & H). apply symbol_found in Ha.
  eapply handout_step; [exact A|eauto|exact H| |done|done|done|done|apply A].
  intros ts' Ht. eapply books_handout; [apply A|]. eapply grows_add; [apply A|done|done].
Qed.

Lemma account_step mx m h s s' : account_handout h s = Ok s' -> alloc_ok mx m m s -> 0 <= iab_amount h -> alloc_ok mx m m s'.
Proof.
  unfold account_handout. intros H A Hv. apply rbind_ok in H as ([x a] & Ha & H). apply symbol_found in Ha.
  apply rbind_ok in H as (_ & _ & H). apply rbind_ok in H as (who & _ & H).
  apply rbind_ok in H as (? & Hn & H). unfold fc_assert in Hn. case_if_in Hn; [|done]. bool_to_prop.
  eapply handout_step; [exact A|eauto|exact H| |done|done|done|done|].
  - intros ts' Ht. eapply books_balance; [apply A|done|done|]. eapply grows_add; [apply A|done|done].
  - cbn. rewrite lookup_insert_ne; [apply A|]. intros E. rewrite E, (ak_kept _ _ _ _ A) in Hif. done.
Qed.

(** ** The state before the handouts *)

Lemma special_account_step id name th d d' : create_special id name th d = Ok d' -> members_ok d ->
  members_only d d' /\ members_ok d'.
Proof.
  unfold create_special. intros H M. apply rbind_ok in H as (? & _ & H). apply rbind_ok in H as (? & _ & [= <-]).
  split; [by eexists _, _, _|]. eapply (members_add d); [done|done| |done|done|done|by intros []].
  split; [done|]. split; [done|]. by intros [].
Qed.

Lemma special_accounts_ok d : create_special_accounts empty_database = Ok d ->
  members_ok d /\ books_ok GRAPHENE_MAX_SHARE_SUPPLY d ∅ ∅ /\ next_asset d = 0
  /\ account_balances d !! (GRAPHENE_COMMITTEE_ACCOUNT, CORE) = Some GRAPHENE_MAX_SHARE_SUPPLY.
Proof.
  unfold create_special_accounts. set (d0 := set_account_balances _ _). intros H.
  assert (M0 : members_ok d0) by (split; [intros k a; cbn; by rewrite lookup_empty|by intros []|done|done]).
  assert (B0 : books_ok GRAPHENE_MAX_SHARE_SUPPLY d0 ∅ ∅).
  { split; try (intros *; cbn; rewrite ?lookup_empty; done).
    - intros x. unfold total, in_limit_orders, in_call_orders, in_settlements, in_bids, in_funds, in_fees, in_vesting,
        in_gas_collateral, in_initial. cbn -[sum_map in_balances]. rewrite !sum_map_empty, in_balances_insert, lookup_empty.
      unfold in_balances. rewrite sum_map_empty. cbn. rewrite lookup_empty, Z.sub_0_r. cbn. lia.
    - intros k v. cbn. intros [[_ <-]|[_ H']]%lookup_insert_Some; [lia|by rewrite lookup_empty in H']. }
  apply rbind_ok in H as (d1 & H1 & H). apply rbind_ok in H as (d2 & H2 & H). apply rbind_ok in H as (d3 & H3 & H).
  apply rbind_ok in H as (d4 & H4 & H5).
  apply special_account_step in H1 as [F1 M1]; [|done]. apply special_account_step in H2 as [F2 M2]; [|done].
  apply special_account_step in H3 as [F3 M3]; [|done]. apply special_account_step in H4 as [F4 M4]; [|done].
  apply special_account_step in H5 as [F5 M5]; [|done].
  assert (F : members_only d0 d)
    by (etransitivity; [exact F1|]; etransitivity; [exact F2|]; etransitivity; [exact F3|]; by etransitivity).
  split; [done|]. split; [by eapply books_members|]. by destruct F as (? & ? & ? & ->).
Qed.

Lemma special_assets_ok max d d' kept : create_special_assets max d = Ok d' -> books_ok kept d ∅ ∅ -> next_asset d = 0 ->
  books_ok kept d' ∅ ∅ /\ next_asset d' = 2 /\ accounts d' = accounts d /\ governance d' = governance d
  /\ account_balances d' = account_balances d /\ protocol_assets max d'.
Proof.
  unfold create_special_assets. intros H B N. apply rbind_ok in H as (d1 & H1 & H2).
  pose proof (create_asset_inv _ _ _ _ H1) as E1. pose proof (create_asset_inv _ _ _ _ H2) as E2.
  assert (B1 : books_ok kept d1 ∅ ∅).
  { eapply books_asset; [exact B|by eapply grows_refl|exact H1|by left|by rewrite N|done|done]. }
  assert (N1 : next_asset d1 = 1) by (rewrite E1; cbn; lia). split.
  - eapply books_asset; [exact B1|by eapply grows_refl|exact H2|by right; left|done|done|done].
  - unfold protocol_assets. rewrite E2, N1. cbn. split; [lia|]. rewrite E1, N. cbn.
    rewrite lookup_insert_ne, !lookup_insert_eq by done. done.
Qed.

Lemma members_properties g d : members_ok d -> members_ok (create_properties g d).
Proof. intros []. by split. Qed.

Lemma books_properties g d kept ts td : books_ok kept d ts td -> books_ok kept (create_properties g d) ts td.
Proof. intros B. split; apply B. Qed.

(** ** Supplies *)

Lemma committee_gives_all mx s s' m : settle_core s = Ok s' -> alloc_ok mx m m s ->
  books_ok 0 (al_db s') (total_supplies s') (total_debts s') /\ members_ok (al_db s')
  /\ is_Some (total_supplies s' !! CORE) /\ protocol_assets mx (al_db s').
Proof.
  unfold settle_core. intros H [B M K P N Ky]. case_if_in H.
  - apply rbind_ok in H as (neg & Hneg & H). apply rbind_ok in H as (d & Hd & [= <-]).
    apply asset_neg_value in Hneg as [Hi Hn]. unfold get_balance in Hi, Hn. rewrite K in Hi, Hn. cbn in Hi, Hn.
    cbn [al_db total_supplies total_debts set_al_db].
    pose proof (adjust_balance_map _ _ _ _ _ Hd) as [_ Hm]. apply adjust_balance_total in Hd as (mb & -> & Ht).
    split; [|split; [destruct M; by split|]].
    + split; try apply B.
      * intros x. assert (E : total x (set_account_balances mb (al_db s))
          = total x (al_db s) - in_balances x (account_balances (al_db s)) + in_balances x mb) by (unfold total; cbn; lia).
        rewrite E, Ht, (bo_total _ _ _ _ B), in_asset_0, (in_asset_eta x neg), Hi, Hn. unfold in_asset. cbn. case_if; lia.
      * unfold balances_nonneg. cbn. intros k v Hv. specialize (Hm k). cbn in Hm. rewrite Hv in Hm. cbn in Hm. subst v.
        case_decide as Ek; [subst k; rewrite Hi, K, Hn; cbn; lia|]. rewrite Z.add_0_r.
        destruct (account_balances (al_db s) !! k) eqn:E; cbn; [by eapply (bo_balances _ _ _ _ B)|lia].
    + split; [|done]. destruct (total_supplies s !! CORE) eqn:E; [eauto|]. cbn in Hif. lia.
  - injection H as <-. cbn. split; [|split; [done|split; [rewrite lookup_insert_eq; eauto|done]]].
    assert (Hz : default 0 (total_supplies s !! CORE) = 0).
    { rewrite Z.gtb_ltb in Hif. apply Z.ltb_ge in Hif. destruct (total_supplies s !! CORE) as [v|] eqn:E; [|done].
      pose proof (bo_nonneg _ _ _ _ B _ _ E). cbn in *. lia. }
    split; try apply B.
    + intros x. rewrite (bo_total _ _ _ _ B), in_asset_0. unfold in_asset. cbn [amount asset_id].
      destruct (Z.eqb_spec CORE x) as [<-|]; [rewrite lookup_insert_eq, Hz; cbn; lia|rewrite lookup_insert_ne by done; lia].
    + intros x v [[_ <-]|[_ H]]%lookup_insert_Some; [lia|]. by eapply (bo_nonneg _ _ _ _ B).
    + intros x a H. eapply asset_listed_mono; [|by apply B]. intros y Hy. destruct (decide (CORE = y)) as [<-|];
        [rewrite lookup_insert_eq; eauto|by rewrite lookup_insert_ne].
Qed.

Lemma all_balanced {A} (f : A -> result bool) l : forall acc,
  for_each (fun x acc => let* b := f x in Ok (acc && b)) l acc = Ok true -> acc = true /\ forall x, x ∈ l -> f x = Ok true.
Proof.
  induction l as [|y l IH]; intros acc H; cbn in H; [injection H as ->; split; [done|by intros x ?%elem_of_nil]|].
  apply rbind_ok in H as (a1 & H1 & H). apply rbind_ok in H1 as (b & Hb & [= <-]).
  destruct (IH _ H) as [Ha Hl]. apply andb_true_iff in Ha as [-> ->]. split; [done|].
  intros x [->|Hx]%elem_of_cons; auto.
Qed.

Lemma check_balanced_spec s : check_balanced s = Ok tt -> forall x a, assets (al_db s) !! x = Some a ->
  is_market_issued a = true -> exists v, total_supplies s !! x = Some v /\ total_debts s !! x = Some v.
Proof.
  unfold check_balanced. intros H x a Ha Hm. apply rbind_ok in H as ([] & H & Hb); [|done].
  apply all_balanced in H as [_ H]. specialize (H (x, a) (proj2 (elem_of_map_to_list _ _ _) Ha)).
  unfold balanced in H. cbn in H. rewrite Hm in H. res_inv. bool_to_prop. subst. eauto.
Qed.

(** What saving a list of supplies leaves. *)
Record saved (l : list (Z * Z)) (d : database) (m : gmap Z asset_dynamic_data) : Prop := {
  sv_dom : forall x, is_Some (m !! x) <-> is_Some (dynamic_data d !! x);
  sv_fees : forall x, in_fees x m = in_fees x (dynamic_data d);
  sv_new : forall x v, (x, v) ∈ l -> exists dd a, m !! x = Some dd /\ current_supply dd = v
    /\ assets d !! x = Some a /\ v <= max_supply a;
  sv_old : forall x, x ∉ l.*1 -> m !! x = dynamic_data d !! x }.

Lemma save_supplies_spec l : forall d d', for_each save_supply l d = Ok d' -> NoDup l.*1 ->
  exists m, d' = set_dynamic_data m d /\ saved l d m.
Proof.
  induction l as [|[x v] l IH]; intros d d' H Hnd; cbn in H.
  - injection H as <-. exists (dynamic_data d). split; [by destruct d|]. split; try done. by intros x v ?%elem_of_nil.
  - apply NoDup_cons in Hnd as [Hx Hnd]. apply rbind_ok in H as (d1 & H1 & H). unfold save_supply, get_asset in H1.
    apply rbind_ok in H1 as (a & Ha & H1). apply rbind_ok in H1 as (? & Hmax & H1).
    apply modify_dynamic_data_inv in H1 as (dd & dd' & Hdd & [= <-] & ->). cbn [fst snd] in *.
    destruct (IH _ _ H Hnd) as (m & -> & [S1 S2 S3 S4]). cbn in S1, S2, S3, S4. exists m. split; [done|].
    destruct (assets d !! x) as [a'|] eqn:Ea; [|done]. injection Ha as ->.
    unfold fc_assert in Hmax. case_if_in Hmax; [|done]. bool_to_prop. split.
    + intros y. rewrite S1, lookup_insert_is_Some. destruct (decide (x = y)) as [->|]; [rewrite Hdd; naive_solver|naive_solver].
    + intros y. rewrite S2, (in_fees_insert _ _ _ _ _ Hdd). cbn. rewrite Z.sub_diag, in_asset_0. lia.
    + intros y w [[= -> ->]|Hy]%elem_of_cons; [|by apply S3]. rewrite (S4 x Hx), lookup_insert_eq.
      eexists _, a. done.
    + intros y Hy. cbn in Hy. apply not_elem_of_cons in Hy as [? ?]. rewrite S4 by done. by rewrite lookup_insert_ne.
Qed.

(** ** The ledger *)

(** What the rest of the chain relies on. *)
Record ledger_ready (d : database) : Prop := {
  lr_chain : chain_ok d;
  lr_bids : bids_ok d;
  lr_excess : forall x, excess x d = 0;
  lr_supply : forall x a, assets d !! x = Some a -> 0 <= supply x d <= max_supply a
    /\ (is_market_issued a = true -> owed x d = supply x d) }.

Lemma books_chain_ok d ts td : books_ok 0 d ts td -> chain_ok d.
Proof.
  intros B. destruct (bo_none _ _ _ _ B) as (N1 & N2 & N3 & N4). split; [split|split|].
  - intros x a H. destruct (bo_assets _ _ _ _ B _ _ H) as (_ & _ & -> & ->). lia.
  - intros x b H _. by destruct (bo_bit _ _ _ _ B _ _ H) as [-> _].
  - intros x b H. by destruct (bo_bit _ _ _ _ B _ _ H) as [-> _].
  - intros id o. by rewrite N1, lookup_empty.
  - intros id c H. destruct (bo_calls _ _ _ _ B _ _ H) as (? & ? & _). lia.
  - intros id b. by rewrite N3, lookup_empty.
  - intros id c b Hc Hb. destruct (bo_calls _ _ _ _ B _ _ Hc) as (_ & _ & ->).
    by destruct (bo_bit _ _ _ _ B _ _ Hb) as [-> _].
  - intros id c b. by rewrite N3, lookup_empty.
  - apply B.
  - intros id v. by rewrite N4, lookup_empty.
  - intros id v. by rewrite N2, lookup_empty.
Qed.

Lemma tallies_saved max s d : books_ok 0 (al_db s) (total_supplies s) (total_debts s) ->
  is_Some (total_supplies s !! CORE) -> protocol_assets max (al_db s) ->
  check_balanced s = Ok tt -> save_supplies s = Ok d ->
  ledger_ready d /\ exists m, d = set_dynamic_data m (al_db s).
Proof.
  intros B [w Hw] [P1 P2] Hb Hs. apply save_supplies_spec in Hs as (m & -> & S);
    [|rewrite sort_by_perm; apply NoDup_fst_map_to_list]. set (d := al_db s) in *.
  assert (Hnew : forall x v, total_supplies s !! x = Some v -> exists dd a, m !! x = Some dd /\ current_supply dd = v
    /\ assets d !! x = Some a /\ v <= max_supply a).
  { intros x v H. apply (sv_new _ _ _ S). by apply sort_by_elem, elem_of_map_to_list. }
  assert (Hold : forall x, total_supplies s !! x = None -> m !! x = dynamic_data d !! x).
  { intros x H. apply (sv_old _ _ _ S). intros ([y v] & -> & Hy)%list_elem_of_fmap.
    apply sort_by_elem, elem_of_map_to_list in Hy. cbn in H. congruence. }
  assert (Hsup : forall x, supply x (set_dynamic_data m d) = default 0 (total_supplies s !! x)).
  { intros x. rewrite supply_at. cbn. destruct (total_supplies s !! x) as [v|] eqn:E.
    - by destruct (Hnew _ _ E) as (dd & a & -> & <- & _).
    - rewrite (Hold _ E). destruct (dynamic_data d !! x) as [dd|] eqn:Ed; [|done].
      apply (bo_supply _ _ _ _ B _ _ Ed). intros ->. congruence. }
  assert (Htot : forall x, total x (set_dynamic_data m d) = default 0 (total_supplies s !! x)).
  { intros x. rewrite total_set_dyn, (sv_fees _ _ _ S), (bo_total _ _ _ _ B), in_asset_0. lia. }
  assert (Hnn : forall x, 0 <= default 0 (total_supplies s !! x)).
  { intros x. destruct (total_supplies s !! x) eqn:E; cbn; [by eapply (bo_nonneg _ _ _ _ B)|lia]. }
  split; [|by exists m]. split.
  - destruct (books_chain_ok _ _ _ B) as [[] [] ?]. split; [by split|by split|done].
  - destruct (bo_none _ _ _ _ B) as (_ & _ & N3 & _). split.
    + intros id b. cbn. by rewrite N3, lookup_empty.
    + intros x dd H. specialize (Hsup x). rewrite supply_at in Hsup. cbn in H, Hsup. rewrite H in Hsup. rewrite Hsup. apply Hnn.
    + intros x b H. by destruct (bo_bit _ _ _ _ B _ _ H) as [-> Hx].
  - intros x. unfold excess. rewrite Hsup, Htot. lia.
  - intros x a H. rewrite Hsup. cbn in H. split.
    + split; [apply Hnn|]. destruct (total_supplies s !! x) as [v|] eqn:E; cbn.
      * destruct (Hnew _ _ E) as (_ & a' & _ & _ & Ha & Hle). rewrite H in Ha. by injection Ha as ->.
      * destruct (bo_assets _ _ _ _ B _ _ H) as (_ & [->|[->|[? ?]]] & _); [congruence| |congruence].
        rewrite P2 in H. injection H as <-. destruct (Hnew _ _ Hw) as (_ & a' & _ & _ & Ha & Hle).
        rewrite P1 in Ha. injection Ha as <-. pose proof (bo_nonneg _ _ _ _ B _ _ Hw).
        unfold max_supply in *. cbn in *. lia.
    + intros Hm. change (owed x d = default 0 (total_supplies s !! x)). rewrite (bo_owed _ _ _ _ B).
      by destruct (check_balanced_spec _ Hb _ _ H Hm) as (v & -> & ->).
Qed.

Lemma init_balances_spec g d d' : init_balances g d = Ok d' -> amounts_nonneg g -> members_ok d ->
  books_ok GRAPHENE_MAX_SHARE_SUPPLY d ∅ ∅ -> next_asset d = 2 -> protocol_assets (max_core_supply g) d ->
  account_balances d !! (GRAPHENE_COMMITTEE_ACCOUNT, CORE) = Some GRAPHENE_MAX_SHARE_SUPPLY ->
  ledger_ready d' /\ members_ok d' /\ protocol_assets (max_core_supply g) d'.
Proof.
  unfold init_balances. intros H [A1 A2 A3 A4] M B N P K.
  apply rbind_ok in H as (d1 & H1 & H).
  assert (I1 : members_only d d1 /\ members_ok d1).
  { eapply (for_each_inv (fun x => members_only d x /\ members_ok x)); [| |exact H1].
    - intros a x x' _ [F Mx] Hx. apply initial_account_step in Hx as [F' M']; [|done]. split; [by etransitivity|done].
    - by split. }
  destruct I1 as [F1 M1]. pose proof (books_members _ _ _ _ _ F1 B) as B1.
  apply rbind_ok in H as (s1 & H2 & H).
  assert (I2 : exists m, alloc_ok (max_core_supply g) m m s1).
  { eapply (for_each_inv (fun s => exists m, alloc_ok (max_core_supply g) m m s)); [| |exact H2].
    - intros a s s' Ha [m Hs] Hstep. exists (m + 1). eapply initial_asset_step; [exact Hstep|done|].
      by eapply Forall_forall in A1.
    - exists 2. destruct F1 as (? & ? & ? & ->). split; cbn; [done|done|done|done|lia|].
      intros y [[? E]|[? E]]; by rewrite lookup_empty in E. }
  destruct I2 as [m I2]. apply rbind_ok in H as (s2 & H3 & H). apply rbind_ok in H as (s3 & H4 & H).
  apply rbind_ok in H as (s4 & H5 & H).
  assert (I3 : alloc_ok (max_core_supply g) m m s4).
  { eapply (for_each_inv _ _ _ _ _ _ _ H5). Unshelve.
    - intros a s s' Ha Hs Hstep. eapply vesting_step; [exact Hstep|done|]. by eapply Forall_forall in A4.
    - eapply (for_each_inv _ _ _ _ _ _ _ H4). Unshelve.
      + intros a s s' Ha Hs Hstep. eapply account_step; [exact Hstep|done|]. by eapply Forall_forall in A3.
      + eapply (for_each_inv _ _ _ _ _ _ I2 H3). Unshelve.
        intros a s s' Ha Hs Hstep. eapply address_step; [exact Hstep|done|]. by eapply Forall_forall in A2. }
  apply rbind_ok in H as (s5 & H6 & H). apply rbind_ok in H as ([] & H7 & H).
  destruct (committee_gives_all _ _ _ _ H6 I3) as (B5 & M5 & C5 & P5).
  destruct (tallies_saved _ _ _ B5 C5 P5 H7 H) as [R [mm ->]]. split; [done|]. split; [|done].
  destruct M5. by split.
Qed.

(** ** Candidates *)

Lemma for_each_count {A T} (P : Z -> T -> Prop) (f : A -> T -> result T) (top : Z) l : forall n s s',
  (forall n a s s', n < top -> P n s -> f a s = Ok s' -> P (n + 1) s') -> n + Z.of_nat (length l) <= top -> P n s ->
  for_each f l s = Ok s' -> P (n + Z.of_nat (length l)) s'.
Proof.
  induction l as [|a l IH]; intros n s s' Hf Hn Hs H; cbn in H; [injection H as <-; by rewrite Z.add_0_r|].
  cbn [length] in *. apply rbind_ok in H as (s1 & H1 & H).
  replace (n + Z.of_nat (S (length l))) with (n + 1 + Z.of_nat (length l)) by lia.
  eapply IH; [exact Hf|lia| |exact H]. eapply Hf; [|exact Hs|exact H1]. lia.
Qed.

Lemma ready_members d d' : members_only d d' -> ledger_ready d -> ledger_ready d'.
Proof.
  intros (m & st & g & ->) [[[] [] ?] [] E S]. split; [split; [by split|by split|done]|by split|exact E|exact S].
Qed.

(** Accounts and global properties change; an office gets the next candidate. *)
Lemma candidate_apply_frame o op d id d' : candidate_create_do_apply o 0 op d = Ok (id, d') ->
  members_only d d' /\ exists c,
    candidates o (governance d') = <[next_candidate o (governance d) := c]> (candidates o (governance d))
    /\ next_candidate o (governance d') = next_candidate o (governance d) + 1
    /\ forall o', o' <> o -> candidates o' (governance d') = candidates o' (governance d)
                             /\ next_candidate o' (governance d') = next_candidate o' (governance d).
Proof.
  intros H. split; [by eapply candidate_create_members|].
  unfold candidate_create_do_apply in H. cbn zeta in H. unfold get_next_vote_id in H. do 2 skip_bind H.
  apply rbind_ok in H as (a2 & _ & H). do 2 skip_bind H. injection H as <- <-.
  eexists. by destruct o; (split; [done|]; split; [done|]); intros [].
Qed.

Record registered (max k n : Z) (d : database) : Prop := {
  rg_gov : gov_ok d;
  rg_ready : ledger_ready d;
  rg_special : protocol_assets max d;
  rg_votes : next_available_vote_id (governance d) = k;
  rg_next : next_witness (governance d) = n + 1;
  rg_all : forall i, 1 <= i <= n -> is_Some (witness_candidates (governance d) !! i) }.

Lemma candidate_step o max k n fp op d r d' : genesis_apply (candidate_create_evaluator o 0) fp op d = Ok (r, d') ->
  0 <= k < 2 ^ 24 -> registered max k n d ->
  registered max (k + 1) (match o with Witness => n + 1 | Committee => n end) d'.
Proof.
  intros H Hk [G R P V N W]. apply genesis_apply_inv in H as (ctx & ctx' & _ & H); [|done|done].
  unfold do_apply, candidate_create_evaluator, return_with in H. apply rbind_ok in H as ([id d1] & H & [= _ _ <-]).
  destruct (candidate_create_ok _ _ _ _ _ _ G H) as [G' V']; [by rewrite V|].
  destruct (candidate_apply_frame _ _ _ _ _ H) as (F & c & C1 & C2 & C3).
  assert (E : assets d1 = assets d) by (by destruct F as (? & ? & ? & ->)).
  split; [done|by eapply ready_members|unfold protocol_assets; by rewrite E|lia| |].
  - destruct o; cbn in C2; [lia|]. destruct (C3 Witness ltac:(done)) as [_ E2]. cbn in E2. lia.
  - intros i Hi. destruct o; cbn in C1, C2.
    + rewrite C1. apply lookup_insert_is_Some. destruct (decide (next_witness (governance d) = i)); [by left|].
      right. split; [done|]. apply W. lia.
    + destruct (C3 Witness ltac:(done)) as [E2 _]. cbn in E2. rewrite E2. by apply W.
Qed.

Lemma init_candidates_spec g d d' max : init_candidates g d = Ok d' -> members_ok d -> ledger_ready d ->
  protocol_assets max d ->
  Z.of_nat (length (initial_witness_candidates g)) + Z.of_nat (length (initial_committee_candidates g)) <= 2 ^ 24 ->
  let n := Z.of_nat (length (initial_witness_candidates g)) in
  registered max (n + Z.of_nat (length (initial_committee_candidates g))) n d'.
Proof.
  intros H M R P Hn n. unfold init_candidates in H. apply rbind_ok in H as (d1 & H1 & H). apply rbind_ok in H as (d2 & H2 & H3).
  assert (R1 : registered max 0 0 d1).
  { unfold create_null_witness in H1. apply rbind_ok in H1 as (? & _ & [= <-]). split; [|by destruct R as [[[] []] [] ? ?]| | | |].
    - apply gov_ok_start.
      + intros o. rewrite <- (mo_none _ M o). by destruct o.
      + intros k a Ha. apply (mo_plain _ M _ _ Ha).
      + intros k. rewrite get_balance_default. cbn. destruct (account_balances d !! (k, CORE)) eqn:E; cbn; [|lia].
        by eapply (proj1 (co_ledger _ (lr_chain _ R))).
    - done.
    - cbn. apply M.
    - cbn. by rewrite (mo_witness _ M).
    - intros i Hi. lia. }
  assert (R2 : registered max n n d2).
  { eapply (for_each_count (fun k x => 0 <= k /\ registered max k k x) _ n _ 0); [| |split; [lia|exact R1]|exact H2]; [|lia].
    intros k a x x' Hk [Hk0 Hx] Hstep. unfold create_initial_witness in Hstep. apply rbind_ok in Hstep as (who & _ & Hs).
    apply rbind_ok in Hs as ([r y] & Hs & [= <-]). split; [lia|].
    eapply (candidate_step Witness); [exact Hs|lia|done]. }
  eapply (for_each_count (fun k x => 0 <= k /\ registered max k n x)
    _ (n + Z.of_nat (length (initial_committee_candidates g))) _ n); [| |split; [lia|exact R2]|exact H3]; [|lia].
  intros k a x x' Hk [Hk0 Hx] Hstep. unfold create_initial_committee_member in Hstep. apply rbind_ok in Hstep as (who & _ & Hs).
  apply rbind_ok in Hs as ([r y] & Hs & [= <-]). split; [lia|].
  eapply (candidate_step Committee); [exact Hs|lia|done].
Qed.

(** ** Properties *)

Lemma init_ledger_spec g d : init_ledger g = Ok d -> amounts_nonneg g ->
  Z.of_nat (length (initial_witness_candidates g)) + Z.of_nat (length (initial_committee_candidates g)) <= 2 ^ 24 ->
  exists k, registered (max_core_supply g) k (Z.of_nat (length (initial_witness_candidates g))) d
  /\ initial_active_witnesses g <= Z.of_nat (length (initial_witness_candidates g)).
Proof.
  unfold init_ledger. intros H Hn Hk. apply rbind_ok in H as (? & Hv & H). apply rbind_ok in H as (d1 & H1 & H).
  apply rbind_ok in H as (d2 & H2 & H). apply rbind_ok in H as (? & _ & H). apply rbind_ok in H as (d3 & H3 & H).
  destruct (special_accounts_ok _ H1) as (M1 & B1 & N1 & K1).
  destruct (special_assets_ok _ _ _ _ H2 B1 N1) as (B2 & N2 & EA & EG & EB & P2).
  assert (M2 : members_ok d2) by (destruct M1; split; rewrite ?EA, ?EG; done).
  destruct (init_balances_spec _ _ _ H3 Hn (members_properties _ _ M2) (books_properties _ _ _ _ _ B2) N2 P2)
    as (R3 & M3 & P3); [cbn; by rewrite EB|].
  eexists. split; [by eapply init_candidates_spec|]. unfold validate_genesis in Hv.
  do 3 apply rbind_ok in Hv as (? & _ & Hv). unfold fc_assert in Hv. case_if_in Hv; [|done]. by bool_to_prop.
Qed.

Lemma enabled_ready g d : members_only d (enable_fees g d).
Proof. eexists (accounts d), (account_statistics d), _. by destruct d. Qed.

Lemma genesis_ready {Data Code} (empty_data : Data) (compile : string -> string -> result (Code * gmap string (option nat)))
    g c s : init_genesis empty_data compile g = Ok (c, s) -> amounts_nonneg g ->
  Z.of_nat (length (initial_witness_candidates g)) + Z.of_nat (length (initial_committee_candidates g)) <= 2 ^ 24 ->
  ledger_ready (ledger c) /\ exists d k, c = start_chain g d
    /\ registered (max_core_supply g) k (Z.of_nat (length (initial_witness_candidates g))) d
    /\ initial_active_witnesses g <= Z.of_nat (length (initial_witness_candidates g)).
Proof.
  intros H Hn Hk. unfold init_genesis in H. apply rbind_ok in H as (d & Hd & H). apply rbind_ok in H as (cs & _ & [= <- _]).
  destruct (init_ledger_spec _ _ Hd Hn Hk) as (k & G & Ha).
  split; [|by exists d, k]. exact (ready_members _ _ (enabled_ready g d) (rg_ready _ _ _ _ G)).
Qed.

(** C31: A genesis that is accepted, with no negative amounts and no more candidates than vote
    ids, starts a chain on which the invariants of the other parts hold: the orders, margin
    positions and bids are well formed; the units of every asset that exist are its recorded
    supply, which is within its maximum; every unit of a market-issued asset is owed in a margin
    position; votes and locks of the elections add up; nothing waits to be paid out; and the
    schedule names distinct witnesses that are registered. *)
Theorem genesis_sound {Data Code} (empty_data : Data)
    (compile : string -> string -> result (Code * gmap string (option nat))) (g : genesis_state_type) (c : chain) s
    (H : init_genesis empty_data compile g = Ok (c, s)) (Hn : amounts_nonneg g)
    (Hk : Z.of_nat (length (initial_witness_candidates g)) + Z.of_nat (length (initial_committee_candidates g)) <= 2 ^ 24) :
  chain_ok (ledger c) /\ bids_ok (ledger c) /\ gov_ok (ledger c) /\ core_waiting c = 0
  /\ (forall x, excess x (ledger c) = 0)
  /\ (forall x a, assets (ledger c) !! x = Some a -> 0 <= supply x (ledger c) <= max_supply a
        /\ (is_market_issued a = true -> owed x (ledger c) = supply x (ledger c)))
  /\ NoDup (current_shuffled_witnesses c)
  /\ (forall w, w ∈ current_shuffled_witnesses c -> is_Some (witnesses c !! w)).
Proof.
  destruct (genesis_ready _ _ _ _ _ H Hn Hk) as ([R1 R2 R3 R4] & d & k & -> & [G R P V N W] & Ha).
  split; [done|]. split; [done|]. split; [|split; [done|split; [done|split; [done|split]]]].
  - eapply gov_ok_frame; [exact G|done..|]. by intros [].
  - apply NoDup_seqZ.
  - cbn. unfold first_witnesses. intros w Hw%elem_of_seqZ. rewrite lookup_fmap. apply fmap_is_Some, W. lia.
Qed.

(** Two accounts, a market-issued and a plain asset, and balances of every kind. *)
Definition demo_genesis_parameters : chain_parameters :=
  mk_parameters 3 86400 3 1209600 2419200 1 1 10 86400 86400 1000 86400 50000 1000 4 7776000 100 200 3000 1000 2000 500.
Definition demo_genesis_with (active : Z) : genesis_state_type :=
  mk_genesis 1000000000 GRAPHENE_MAX_SHARE_SUPPLY demo_genesis_parameters (mk_fee_parameters 10000 86400) 1 1
    [mk_initial_account "alice1" 11 null_key true; mk_initial_account "bobby1" 12 13 false]
    [mk_initial_asset "USD" "alice1" "dollar" 4 1000000 0 true [mk_position 21 4000 1000; mk_position 22 900 500];
     mk_initial_asset "TOKEN" "bobby1" "token" 2 5000 7 false []]
    [mk_initial_balance 31 "USD" 1500; mk_initial_balance 32 "COCOS" 50]
    [mk_initial_account_balance "alice1" "COCOS" 1000; mk_initial_account_balance "bobby1" "TOKEN" 40;
     mk_initial_account_balance "alice1" "GAS" 9]
    [mk_initial_vesting 33 "COCOS" 600 1000000000 86400 600]
    active [mk_initial_witness "alice1" 77] ["alice1"] "base".
Definition demo_compile (name data : string) : result (Z * gmap string (option nat)) := Ok (0, ∅).

Lemma demo_genesis_runs active : active = 0 \/ active = 1 ->
  exists d s, init_ledger (demo_genesis_with active) = Ok d
  /\ init_genesis tt demo_compile (demo_genesis_with active) = Ok (start_chain (demo_genesis_with active) d, s)
  /\ supply 2 d = 1500 /\ is_market_issued <$> assets d !! 2 = Some true.
Proof.
  intros Ha. set (g := demo_genesis_with active).
  assert (E : match init_ledger g with
              | Ok d => is_ok (create_contract_base tt demo_compile "base" d) && (supply 2 d =? 1500)
                        && bool_decide (is_market_issued <$> assets d !! 2 = Some true)
              | Err _ => false
              end = true) by (by destruct Ha as [-> | ->]; vm_compute).
  unfold init_genesis. destruct (init_ledger g) as [d|]; [|done]. cbn [rbind].
  change (initial_contract_base g) with "base". destruct (create_contract_base tt demo_compile "base" d) as [s|]; [|done].
  cbn in E. exists d. eexists. split; [done|]. split; [reflexivity|].
  apply andb_true_iff in E as [E1 E2]. apply Z.eqb_eq in E1. by apply bool_decide_eq_true in E2.
Qed.

(** The dollars of the example are all owed. *)
Lemma genesis_sound_witness : exists c s, init_genesis tt demo_compile (demo_genesis_with 1) = Ok (c, s)
  /\ owed 2 (ledger c) = 1500 /\ excess CORE (ledger c) = 0 /\ is_Some (witnesses c !! 1).
Proof.
  destruct (demo_genesis_runs 1 ltac:(by right)) as (d & s & _ & H & Hs & Hm). eexists _, s. split; [exact H|].
  destruct (genesis_sound tt demo_compile (demo_genesis_with 1) _ s H) as (_ & _ & _ & _ & He & Ha & _ & Hw).
  - split; repeat constructor; cbn; lia.
  - cbn. lia.
  - destruct (assets d !! 2) as [a|] eqn:E; [|done]. injection Hm as Hm.
    destruct (Ha 2 a E) as [_ Ho]. rewrite (Ho Hm). split; [exact Hs|]. split; [apply He|]. apply Hw. by left.
Defined.

(** The check against starting without witnesses counts the candidates: with no active ones the
    genesis is accepted, and the first slot has no witness (a division by zero). *)
Theorem empty_schedule_accepted : exists c s, init_genesis tt demo_compile (demo_genesis_with 0) = Ok (c, s)
  /\ get_scheduled_witness 1 c = Err undefined_behaviour.
Proof. destruct (demo_genesis_runs 0 ltac:(by left)) as (d & s & _ & H & _). eexists _, s. by split. Qed.

(** The exchange rate the genesis gives to GAS has the core asset as its base; the options of
    an asset must have it as the quote, so those of GAS never pass their own validation. *)
Theorem genesis_gas_rate_reversed {Data Code} (empty_data : Data)
    (compile : string -> string -> result (Code * gmap string (option nat))) (g : genesis_state_type) (c : chain) s
    (H : init_genesis empty_data compile g = Ok (c, s)) (Hn : amounts_nonneg g)
    (Hk : Z.of_nat (length (initial_witness_candidates g)) + Z.of_nat (length (initial_committee_candidates g)) <= 2 ^ 24) :
  exists a, assets (ledger c) !! GRAPHENE_ASSET_GAS = Some a /\ asset_options_validate (common_options a) <> Ok tt.
Proof.
  destruct (genesis_ready _ _ _ _ _ H Hn Hk) as (_ & d & k & -> & [_ _ [_ P] _ _ _] & _). eexists. split; [exact P|].
  unfold asset_options_validate. intros Hv. do 6 apply rbind_ok in Hv as (? & _ & Hv). by apply rbind_ok in Hv as (? & Hv & _).
Qed.
