(* ===== verification/FromGenesis.v ===== *)
(** * Transactions from the genesis on

    The genesis of [Genesis], the evaluators of [AllOperations], the transactions of
    [Transaction] and the expirations of [ExpiredOrders] together: whatever transactions are
    applied on the first state of the chain, with the clock moving on and orders and feeds
    expiring between them, nobody holds units the supplies do not record.  The pay of witnesses
    and the maintenance of a block move core units through the budgets, which are not in the
    ledger; they are not part of the sequence and have theorems of their own ([Schedule],
    [MaintenanceSpec]). *)

From S2P Require Import Prelude SafeInt Asset Vesting State Ledger MarketProofs Fees Operations Candidates Votes ExpiredOrders.
From S2P Require Import Authority Transaction GovOperations AllOperations Schedule Genesis GenesisSpec.

(** ** Sequences of transactions and expirations keep the books *)

Section Keeps.
Context {Op : Type} `{OperationLaws Op}.
Context (tx_hash : transaction Op -> Z) (id_of_hash : Z -> Z) (pack_size : transaction Op -> Z)
  (recovered_keys : transaction Op -> list Z) (required : transaction Op -> requirements)
  (key_addresses : Z -> list Z) (op_time : nat -> Z) (p : tx_parameters).

(** The invariants hold; no asset but the core asset has more or fewer units outside of its
    supply, and the core asset not fewer. *)
Definition books_kept (d d' : database) : Prop :=
  chain_ok d' /\ (forall x, x <> CORE -> excess x d' = excess x d) /\ excess CORE d <= excess CORE d'.

Lemma books_kept_trans d1 d2 d3 : books_kept d1 d2 -> books_kept d2 d3 -> books_kept d1 d3.
Proof.
  intros (_ & X1 & C1) (Hok & X2 & C2). split; [done|]. split; [|lia]. intros x Hx. by rewrite X2, X1.
Qed.

Lemma conserves_but_kept extra d d' : conserves_but extra d d' -> books_kept d d'.
Proof.
  intros (Hok & _ & C). split; [done|]. split; [|specialize (C CORE); lia].
  intros x Hx. specialize (C x). unfold liability in C. rewrite (proj2 (Z.eqb_neq _ _) Hx) in C. lia.
Qed.

Lemma next_head_kept t sums (s : tx_state Op) : chain_ok (Transaction.ledger s) ->
  books_kept (Transaction.ledger s) (Transaction.ledger (next_head t sums s)).
Proof. intros [[] [] ?]. split; [split; [by split|by split|done]|]. by split. Qed.

Lemma run_event_kept ev s s' :
  run_event tx_hash id_of_hash pack_size recovered_keys required key_addresses op_time p ev s = Ok s' ->
  event_ok ev -> chain_ok (Transaction.ledger s) -> books_kept (Transaction.ledger s) (Transaction.ledger s').
Proof.
  intros He Hev Hok. destruct ev as [skip mode only blk trx|time summaries]; cbn [run_event] in He.
  - apply rbind_ok in He as ([[t m] s1] & Ha & [= <-]). destruct Hev as [Hsk Ht].
    eapply conserves_but_kept. eapply apply_tx_keeps; [done|exact Hsk|done|exact Ha].
  - skip_bind He. rewrite clear_transactions_exact in He. cbn [mbind option_bind] in He.
    match type of He with context [clear_expired_proposals ?x] => destruct (clear_proposals_exact x) as (pm & Hpm & _) end.
    rewrite Hpm in He. cbn [mbind option_bind] in He. rewrite clear_crontabs_exact in He. cbn [mbind option_bind] in He.
    rewrite clear_active_exact in He. injection He as <-. by apply (next_head_kept time summaries).
Qed.

(** A transaction, the head moving on, or the orders or the feeds expiring
    ([clear_expired_orders], [update_expired_feeds]). *)
Inductive ledger_event :=
| le_event (e : event (Op := Op))
| le_expire_orders (fp : fee_parameters) (cancel_fee : Z)
| le_expire_feeds.

Definition run_ledger_event (e : ledger_event) (s : tx_state Op) : result (tx_state Op) :=
  match e with
  | le_event e => run_event tx_hash id_of_hash pack_size recovered_keys required key_addresses op_time p e s
  | le_expire_orders fp fee =>
      let* r := get_or (clear_expired_orders fp fee (Transaction.ledger s)) undefined_behaviour in
      let* d := r in Ok (Transaction.set_ledger d s)
  | le_expire_feeds => let* d := update_expired_feeds (Transaction.ledger s) in Ok (Transaction.set_ledger d s)
  end.

Fixpoint run_ledger_events (l : list ledger_event) (s : tx_state Op) : result (tx_state Op) :=
  match l with
  | [] => Ok s
  | e :: l' => let* s := run_ledger_event e s in run_ledger_events l' s
  end.

Definition ledger_event_ok (e : ledger_event) : Prop :=
  match e with le_event e => event_ok e | _ => True end.

Lemma conserves_kept d d' : conserves d d' -> books_kept d d'.
Proof.
  intros (Hok & _ & C). split; [done|]. split; [|apply C].
  intros x Hx. specialize (C x). unfold liability in C. rewrite (proj2 (Z.eqb_neq _ _) Hx) in C. lia.
Qed.

Lemma run_ledger_event_kept ev s s' : run_ledger_event ev s = Ok s' -> ledger_event_ok ev ->
  chain_ok (Transaction.ledger s) -> books_kept (Transaction.ledger s) (Transaction.ledger s').
Proof.
  intros He Hev Hok. destruct ev as [e|fp fee|]; cbn [run_ledger_event] in He; [by eapply run_event_kept| |].
  - destruct (clear_expired_orders_ends fp fee _ Hok) as (r & Hr & Hc). rewrite Hr in He. cbn [get_or rbind] in He.
    apply rbind_ok in He as (d & -> & [= <-]). apply conserves_kept. by destruct (Hc d eq_refl).
  - apply rbind_ok in He as (d & Hd & [= <-]). apply conserves_kept. by eapply renew_feeds_conserves.
Qed.

Lemma run_ledger_events_kept l : forall s s', run_ledger_events l s = Ok s' -> Forall ledger_event_ok l ->
  chain_ok (Transaction.ledger s) -> books_kept (Transaction.ledger s) (Transaction.ledger s').
Proof.
  induction l as [|ev l IH]; intros s s' He Hl Hok; cbn in He; [injection He as <-; by split|].
  apply Forall_cons in Hl as [Hev Hl]. apply rbind_ok in He as (s1 & H1 & He).
  pose proof (run_ledger_event_kept _ _ _ H1 Hev Hok) as K.
  eapply books_kept_trans; [exact K|]. by eapply IH; [| |apply K].
Qed.
End Keeps.

(** ** Properties *)

(** C4: From a genesis with non-negative amounts and at most 2^24 candidates on, whatever
    validated transactions with the modelled operations are applied one after the other, with
    the clock moving on and orders and feeds expiring between them, the invariants of the books
    hold; of every asset but the core asset exactly the recorded supply exists, and of the
    core asset at least the recorded supply.  Witness pay and maintenance, which move core
    units through the waiting budgets, are not among the steps. *)
Theorem units_recorded_since_genesis {Data Code} (empty_data : Data)
    (compile : string -> string -> result (Code * gmap string (option nat))) (g : genesis_state_type) (c : chain) cs
    (env : environment) (tx_hash : transaction operation -> Z) (id_of_hash : Z -> Z)
    (pack_size : transaction operation -> Z) (recovered_keys : transaction operation -> list Z)
    (required : transaction operation -> requirements) (key_addresses : Z -> list Z) (op_time : nat -> Z)
    (p : tx_parameters) (l : list (ledger_event (Op := operation))) (s s' : tx_state operation)
    (Hg : init_genesis empty_data compile g = Ok (c, cs)) (Hn : amounts_nonneg g)
    (Hk : Z.of_nat (length (initial_witness_candidates g)) + Z.of_nat (length (initial_committee_candidates g)) <= 2 ^ 24)
    (Hs : Transaction.ledger s = Schedule.ledger c)
    (Hl : Forall (ledger_event_ok (H0 := all_operations_laws env)) l)
    (Hr : run_ledger_events (H := all_operations env) tx_hash id_of_hash pack_size recovered_keys required key_addresses
            op_time p l s = Ok s') :
  chain_ok (Transaction.ledger s') /\
  (forall x, x <> CORE -> total x (Transaction.ledger s') = supply x (Transaction.ledger s')) /\
  supply CORE (Transaction.ledger s') <= total CORE (Transaction.ledger s').
Proof.
  destruct (genesis_ready _ _ _ _ _ Hg Hn Hk) as [R _].
  pose proof (run_ledger_events_kept (H0 := all_operations_laws env) _ _ _ _ _ _ _ _ _ _ _ Hr Hl) as K.
  rewrite Hs in K. destruct (K (lr_chain _ R)) as (Hok & X & C). split; [done|]. split.
  - intros x Hx. specialize (X x Hx). rewrite (lr_excess _ R) in X. unfold excess in X. lia.
  - rewrite (lr_excess _ R) in C. unfold excess in C. lia.
Qed.

(** The first account of the example genesis sends core units to the second. *)
Definition demo_first_trx : transaction operation :=
  mk_trx 3 77 1000000060 [op_transfer (mk_transfer 5 6 (mk_asset 10 CORE))] None [].
Definition demo_first_state (d : database) : tx_state operation :=
  mk_tx_state (enable_fees (demo_genesis_with 1) d) ∅ ∅ ∅ ∅ 0 ∅ {[3 := 77]} 3 [].
Definition demo_first_events : list (ledger_event (Op := operation)) :=
  [le_event (ev_apply no_tx_skip push_mode false (4, 0) demo_first_trx); le_event (ev_block 1000000005 {[4 := 78]});
   le_expire_orders (env_fees demo_env) 0; le_expire_feeds].
Definition demo_first_run (d : database) : result (tx_state operation) :=
  run_ledger_events (H := all_operations demo_env) demo_hash (fun h => h) (fun _ => 200) (fun _ => [11])
    (fun _ => mk_requirements [5] [] []) (fun k => [k + 100]) (fun _ => 500) demo_params demo_first_events
    (demo_first_state d).

Lemma units_recorded_since_genesis_witness : exists c s s', Transaction.ledger s = Schedule.ledger c
  /\ run_ledger_events (H := all_operations demo_env) demo_hash (fun h => h) (fun _ => 200) (fun _ => [11])
       (fun _ => mk_requirements [5] [] []) (fun k => [k + 100]) (fun _ => 500) demo_params demo_first_events s = Ok s'
  /\ total GRAPHENE_ASSET_GAS (Transaction.ledger s') = supply GRAPHENE_ASSET_GAS (Transaction.ledger s').
Proof.
  assert (E : match init_ledger (demo_genesis_with 1) with Ok d => is_ok (demo_first_run d) | Err _ => false end = true)
    by (vm_compute; reflexivity).
  destruct (demo_genesis_runs 1 ltac:(by right)) as (d & cs & Hd & H & _). rewrite Hd in E.
  destruct (demo_first_run d) as [s'|] eqn:Er; [|discriminate E].
  exists (start_chain (demo_genesis_with 1) d), (demo_first_state d), s'. split; [reflexivity|]. split; [exact Er|].
  refine (proj1 (proj2 (units_recorded_since_genesis tt demo_compile (demo_genesis_with 1) _ cs demo_env demo_hash
    (fun h => h) (fun _ => 200) (fun _ => [11]) (fun _ => mk_requirements [5] [] []) (fun k => [k + 100]) (fun _ => 500)
    demo_params demo_first_events (demo_first_state d) s' H _ _ eq_refl _ Er)) GRAPHENE_ASSET_GAS _).
  - split; repeat constructor; cbn; lia.
  - cbn. lia.
  - constructor; [|by repeat constructor]. split; [done|]. intros op Hop. apply list_elem_of_singleton in Hop as ->. exact I.
  - done.
Defined.
