(* ===== verification/BlockDb.v ===== *)
(** * The block database (chain/block_database.cpp)

    Blocks are appended to one file; an index file of fixed-size entries, one per
    block number, says where.  The index file is a list of entries (the file only
    ever grows or shrinks by whole entries; a write past its end leaves zero
    entries in the gap), the blocks file a list of bytes.  Serialisation
    ([fc::raw::pack], [unpack]) and [make_id] are parameters; [unpack] gives [None]
    where it throws. *)

From S2P Require Import Prelude Block.

Record index_entry := mk_entry {
  block_pos : Z;
  block_size : Z;
  entry_id : block_id_type }.

Definition zero_entry : index_entry := mk_entry 0 0 null_block_id.

Record block_database := mk_block_db {
  index_file : list index_entry;
  blocks_file : list Z }.

Definition empty_block_db : block_database := mk_block_db [] [].

(** [seekp(sizeof(entry) * n)] and [write]. *)
Definition write_entry (n : nat) (e : index_entry) (l : list index_entry) : list index_entry :=
  if decide (n < length l)%nat then <[n := e]> l
  else l ++ replicate (n - length l) zero_entry ++ [e].

Definition entry_of (id : block_id_type) : nat := Z.to_nat (num_from_id id).

Section BlockDb.
Variable B : Type.
Variable make_id : B -> block_id_type.
Variable pack : B -> list Z.
Variable unpack : list Z -> option B.

(** [seekg(pos)] and [read]: reading past the end throws. *)
Definition read_blocks (pos size : Z) (db : block_database) : option (list Z) :=
  let data := take (Z.to_nat size) (drop (Z.to_nat pos) (blocks_file db)) in
  if bool_decide (length data = Z.to_nat size) then Some data else None.

Definition store (_id : block_id_type) (b : B) (db : block_database) : block_database :=
  let id := if bool_decide (_id = null_block_id) then make_id b else _id in
  let vec := pack b in
  let e := mk_entry (Z.of_nat (length (blocks_file db))) (wrap32 (Z.of_nat (length vec))) id in
  mk_block_db (write_entry (entry_of id) e (index_file db)) (blocks_file db ++ vec).

Definition remove (id : block_id_type) (db : block_database) : result block_database :=
  match index_file db !! entry_of id with
  | None => Err key_not_found_exception
  | Some e =>
      if bool_decide (entry_id e = id)
      then Ok (mk_block_db (<[entry_of id := mk_entry (block_pos e) 0 (entry_id e)]> (index_file db))
                 (blocks_file db))
      else Ok db
  end.

Definition contains (id : block_id_type) (db : block_database) : bool :=
  if bool_decide (id = null_block_id) then false
  else
    match index_file db !! entry_of id with
    | None => false
    | Some e => bool_decide (entry_id e = id) && (block_size e >? 0)
    end.

Definition fetch_block_id (num : Z) (db : block_database) : result block_id_type :=
  check negb (num =? 0);
  let* e := get_or (index_file db !! Z.to_nat num) key_not_found_exception in
  check negb (bool_decide (entry_id e = null_block_id));
  Ok (entry_id e).

(** Reading, unpacking and checking the id of the block an entry points to. *)
Definition load (e : index_entry) (db : block_database) : option B :=
  match read_blocks (block_pos e) (block_size e) db with
  | None => None
  | Some data =>
      match unpack data with
      | None => None
      | Some b => if bool_decide (make_id b = entry_id e) then Some b else None
      end
  end.

Definition fetch_optional (id : block_id_type) (db : block_database) : option B :=
  match index_file db !! entry_of id with
  | None => None
  | Some e => if bool_decide (entry_id e = id) then load e db else None
  end.

Definition fetch_by_number (num : Z) (db : block_database) : option B :=
  match index_file db !! Z.to_nat num with
  | None => None
  | Some e => load e db
  end.

(** Drop entries from the end until one loads; [n] entries are left to look at. *)
Fixpoint last_loop (n : nat) (db : block_database) : option index_entry * block_database :=
  match n with
  | O => (None, db)
  | S n' =>
      let cut := mk_block_db (take n' (index_file db)) (blocks_file db) in
      match index_file db !! n' with
      | Some e =>
          if (block_size e >? 0)
             && (block_pos e + block_size e <=? Z.of_nat (length (blocks_file db)))
             && bool_decide (is_Some (load e db))
          then (Some e, db)
          else last_loop n' cut
      | None => last_loop n' cut
      end
  end.

Definition last_index_entry (db : block_database) : option index_entry * block_database :=
  last_loop (length (index_file db)) db.

Definition last (db : block_database) : option B * block_database :=
  let (e, db) := last_index_entry db in
  match e with
  | Some e => (fetch_by_number (num_from_id (entry_id e)) db, db)
  | None => (None, db)
  end.

Definition last_id (db : block_database) : option block_id_type * block_database :=
  let (e, db) := last_index_entry db in (entry_id <$> e, db).

(** ** Specification: a map from block numbers to blocks *)

Inductive command :=
| cmd_store (b : B)
| cmd_remove (id : block_id_type).

Definition exec (db : block_database) (c : command) : block_database :=
  match c with
  | cmd_store b => store (make_id b) b db
  | cmd_remove id => match remove id db with Ok db' => db' | Err _ => db end
  end.

Definition spec (m : gmap nat B) (c : command) : gmap nat B :=
  match c with
  | cmd_store b => <[entry_of (make_id b) := b]> m
  | cmd_remove id =>
      match m !! entry_of id with
      | Some b => if bool_decide (make_id b = id) then delete (entry_of id) m else m
      | None => m
      end
  end.

(** The blocks that may be stored.  Packing can be undone, and a packed block fits the
    32-bit size field; ids of blocks are not the null id.  An empty buffer, which is what a
    removed entry reads, unpacks to the block of all defaults; its id is no stored
    block's either. *)
Variable stored : B -> Prop.
Hypothesis unpack_pack : forall b, stored b -> unpack (pack b) = Some b.
Hypothesis unpack_empty : forall d, unpack [] = Some d ->
  make_id d <> null_block_id /\ forall b, stored b -> make_id b <> make_id d.
Hypothesis pack_size : forall b, stored b -> 0 < Z.of_nat (length (pack b)) < uint32_mod.
Hypothesis id_not_null : forall b, stored b -> make_id b <> null_block_id.

(** An entry that stands for a block, or for none. *)
Definition entry_ok (m : gmap nat B) (db : block_database) (n : nat) (e : index_entry) : Prop :=
  0 <= block_pos e /\
  match m !! n with
  | Some b => stored b /\ make_id b = entry_id e /\ entry_of (make_id b) = n
              /\ block_size e = Z.of_nat (length (pack b))
              /\ take (length (pack b)) (drop (Z.to_nat (block_pos e)) (blocks_file db)) = pack b
  | None => block_size e = 0 /\ (entry_id e = null_block_id \/ exists b, stored b /\ make_id b = entry_id e)
  end.

Definition refines (m : gmap nat B) (db : block_database) : Prop :=
  forall n, match index_file db !! n with
            | Some e => entry_ok m db n e
            | None => m !! n = None
            end.

Lemma lookup_write n e l k : write_entry n e l !! k =
  if decide (k = n) then Some e
  else match l !! k with
       | Some x => Some x
       | None => if decide (k < n)%nat then Some zero_entry else None
       end.
Proof.
  unfold write_entry. case_decide as Hn.
  - case_decide as Hk; [subst; by rewrite list_lookup_insert_eq|].
    rewrite list_lookup_insert_ne by done. destruct (l !! k) eqn:E; [done|].
    apply lookup_ge_None in E. case_decide; [lia|done].
  - destruct (decide (k < length l)%nat) as [Hl|Hl].
    + rewrite lookup_app_l by done. case_decide; [lia|].
      destruct (lookup_lt_is_Some_2 l k Hl) as [x ->]. done.
    + rewrite lookup_app_r by lia. rewrite (lookup_ge_None_2 l) by lia.
      destruct (decide (k < n)%nat) as [Hk|Hk].
      * rewrite lookup_app_l by (rewrite length_replicate; lia).
        rewrite lookup_replicate_2 by lia. case_decide; [lia|done].
      * rewrite lookup_app_r by (rewrite length_replicate; lia). rewrite length_replicate.
        case_decide as E; [subst; by replace (n - length l - (n - length l))%nat with 0%nat by lia|].
        apply lookup_ge_None_2. cbn. lia.
Qed.

Lemma load_ok m db n e b : entry_ok m db n e -> m !! n = Some b -> load e db = Some b.
Proof.
  intros [Hpos He] Hm. rewrite Hm in He. destruct He as (Hst & Hid & _ & Hs & Ht).
  unfold load, read_blocks. rewrite Hs, Nat2Z.id, Ht, bool_decide_eq_true_2 by done.
  rewrite unpack_pack by done. by rewrite bool_decide_eq_true_2.
Qed.

Lemma load_none m db n e : entry_ok m db n e -> m !! n = None -> load e db = None.
Proof.
  intros [Hpos He] Hm. rewrite Hm in He. destruct He as [He Hid]. unfold load, read_blocks. rewrite He.
  change (Z.to_nat 0) with 0%nat. rewrite take_0, bool_decide_eq_true_2 by done. destruct (unpack []) as [d|] eqn:Ed; [|done].
  destruct (unpack_empty d eq_refl) as [Hnull Hother]. rewrite bool_decide_eq_false_2; [done|].
  destruct Hid as [->|(b & Hb & <-)]; [done|]. intros E. by apply (Hother b).
Qed.

Lemma take_drop_app {A} (l k : list A) p q : (p <= length l)%nat ->
  length (take q (drop p l)) = q -> take q (drop p (l ++ k)) = take q (drop p l).
Proof.
  intros Hp H. rewrite drop_app_le by done. rewrite take_app_le; [done|].
  rewrite length_take in H. lia.
Qed.

Lemma store_refines m db b : stored b -> refines m db -> refines (spec m (cmd_store b)) (exec db (cmd_store b)).
Proof.
  intros Hst H n. cbn. unfold store. rewrite bool_decide_eq_false_2 by (by apply id_not_null). cbn.
  rewrite lookup_write. pose proof (pack_size b Hst) as Hb. case_decide as Hn.
  - subst n. unfold entry_ok. cbn. rewrite lookup_insert_eq. split; [lia|].
    do 3 (split; [done|]). rewrite wrap32_small by lia. split; [done|].
    rewrite Nat2Z.id, drop_app_length, take_ge by done. done.
  - rewrite lookup_insert_ne by done. specialize (H n). destruct (index_file db !! n) as [e|] eqn:E.
    + destruct H as [Hp H]. split; [done|]. rewrite lookup_insert_ne by done.
      destruct (m !! n) as [b'|]; [|done]. destruct H as (H0 & H1 & H2 & H3 & H4).
      do 4 (split; [done|]). cbn. rewrite take_drop_app; [done| |by rewrite H4].
      destruct (decide (Z.to_nat (block_pos e) <= length (blocks_file db))%nat) as [|Hgt]; [done|].
      rewrite drop_ge in H4 by lia. pose proof (pack_size b' H0) as Hb'. rewrite <- H4, take_nil in Hb'.
      cbn in Hb'. lia.
    + case_decide; [|done]. unfold entry_ok. cbn. rewrite lookup_insert_ne, H by done. split; [done|]. split; [done|]. by left.
Qed.

Lemma remove_refines m db id : refines m db -> refines (spec m (cmd_remove id)) (exec db (cmd_remove id)).
Proof.
  intros H. cbn. unfold remove. pose proof (H (entry_of id)) as Hid.
  destruct (index_file db !! entry_of id) as [e|] eqn:E; [|by rewrite Hid].
  destruct Hid as [Hp Hid]. destruct (m !! entry_of id) as [b|] eqn:Em.
  - destruct Hid as (H0 & H1 & H2 & H3 & H4). rewrite H1. case_if; [|done].
    apply bool_decide_eq_true in Hif. intros n. cbn.
    destruct (decide (n = entry_of id)) as [->|Hn].
    + rewrite list_lookup_insert_eq by (by eapply lookup_lt_Some).
      unfold entry_ok. cbn. rewrite lookup_delete_eq. split; [done|]. split; [done|]. right. by exists b.
    + rewrite list_lookup_insert_ne by done. specialize (H n). destruct (index_file db !! n) as [e'|].
      * unfold entry_ok in *. by rewrite lookup_delete_ne.
      * by rewrite lookup_delete_ne.
  - case_if; [|done]. intros n. cbn. destruct (decide (n = entry_of id)) as [->|Hn].
    + rewrite list_lookup_insert_eq by (by eapply lookup_lt_Some).
      unfold entry_ok. cbn. rewrite Em. split; [done|]. by split; [|apply Hid].
    + rewrite list_lookup_insert_ne by done. apply (H n).
Qed.

Lemma exec_refines cs : (forall b, cmd_store b ∈ cs -> stored b) -> forall m db, refines m db ->
  refines (foldl spec m cs) (foldl exec db cs).
Proof.
  induction cs as [|c cs IH]; intros Hcs m db H; [done|]. cbn [foldl]. apply IH.
  - intros b Hb. apply Hcs. by right.
  - destruct c as [b|id]; [|by apply remove_refines]. apply store_refines; [|done]. apply Hcs. by left.
Qed.

Lemma last_loop_spec m n : forall db, refines m db -> n = length (index_file db) ->
  match last_loop n db with
  | (Some e, db') => refines m db' /\ exists k b, S k = length (index_file db')
      /\ index_file db' !! k = Some e /\ m !! k = Some b /\ entry_id e = make_id b
  | (None, db') => m = ∅
  end.
Proof.
  induction n as [|n IH]; intros db H Hn; cbn [last_loop].
  - apply map_eq. intros k. specialize (H k). rewrite lookup_ge_None_2 in H by lia. by rewrite lookup_empty.
  - destruct (lookup_lt_is_Some_2 (index_file db) n) as [e He]; [lia|]. rewrite He.
    pose proof (H n) as Hentry. rewrite He in Hentry. destruct (m !! n) as [b|] eqn:Em.
    + rewrite (load_ok _ _ _ _ _ Hentry Em), (bool_decide_eq_true_2 (is_Some (Some b))) by eauto.
      destruct Hentry as [Hp Hentry]. rewrite Em in Hentry. destruct Hentry as (H0 & H1 & H2 & H3 & H4).
      pose proof (pack_size b H0) as Hb. rewrite H3, (proj2 (Z.gtb_lt _ _)) by lia.
      assert (Hlen : (Z.to_nat (block_pos e) + length (pack b) <= length (blocks_file db))%nat).
      { apply (f_equal length) in H4. rewrite length_take, length_drop in H4. lia. }
      rewrite (proj2 (Z.leb_le _ _)) by lia. cbn [andb]. split; [done|].
      exists n, b. split; [lia|]. done.
    + rewrite (load_none _ _ _ _ Hentry Em), (bool_decide_eq_false_2 (is_Some None)) by (by intros [? ?]).
      rewrite andb_false_r. apply IH; [|cbn; rewrite length_take; lia].
      intros k. cbn. specialize (H k). destruct (decide (k < n)%nat) as [Hk|Hk].
      * by rewrite lookup_take_lt.
      * rewrite lookup_take_ge by lia. destruct (decide (k = n)) as [->|]; [done|].
        rewrite lookup_ge_None_2 in H by lia. done.
Qed.
End BlockDb.

(** ** The two files stand for a map *)

(** After any sequence of stores (under the block's own id, which is not the id of
    the block of all defaults that an empty buffer unpacks to) and removals the two files stand for a map from block numbers to blocks: fetching by number or
    by id, [contains] and [last] answer from it, a later block of the same number
    replacing the earlier one. *)
Lemma block_db_map (B : Type) (make_id : B -> block_id_type) (pack : B -> list Z)
    (unpack : list Z -> option B)
    (cs : list (command B)) (stored := fun b => cmd_store B b ∈ cs)
    (Hpack : forall b, stored b -> unpack (pack b) = Some b)
    (Hsize : forall b, stored b -> 0 < Z.of_nat (length (pack b)) < uint32_mod)
    (Hid : forall b, stored b -> make_id b <> null_block_id)
    (Hempty : forall d, unpack [] = Some d ->
       make_id d <> null_block_id /\ forall b, stored b -> make_id b <> make_id d) :
  let m := foldl (spec B make_id) ∅ cs in
  let db := foldl (exec B make_id pack) empty_block_db cs in
  (forall n, fetch_by_number B make_id unpack n db = m !! Z.to_nat n) /\
  (forall id, fetch_optional B make_id unpack id db
     = match m !! entry_of id with
       | Some b => if bool_decide (make_id b = id) then Some b else None
       | None => None
       end) /\
  (forall id, contains id db = true <-> exists b, m !! entry_of id = Some b /\ make_id b = id) /\
  match (last B make_id unpack db).1 with
  | Some b => exists k, m !! k = Some b /\ forall k', is_Some (m !! k') -> (k' <= k)%nat
  | None => m = ∅
  end.
Proof.
  intros m db.
  assert (R : refines B make_id pack stored m db)
    by (apply exec_refines; [done|done|by intros b Hb|]; intros n; cbn; apply lookup_empty).
  clearbody m db. split; [|split; [|split]].
  - intros n. unfold fetch_by_number. pose proof (R (Z.to_nat n)) as Hn.
    destruct (index_file db !! Z.to_nat n) as [e|]; [|done].
    destruct (m !! Z.to_nat n) as [b|] eqn:E; [exact (load_ok _ _ _ _ _ Hpack _ _ _ _ _ Hn E)|].
    exact (load_none _ _ _ _ _ Hempty _ _ _ _ Hn E).
  - intros id. unfold fetch_optional. pose proof (R (entry_of id)) as Hn.
    destruct (index_file db !! entry_of id) as [e|]; [|by rewrite Hn].
    destruct (m !! entry_of id) as [b|] eqn:E.
    + pose proof Hn as [_ Hn']. rewrite E in Hn'. destruct Hn' as (_ & <- & _).
      case_if; [exact (load_ok _ _ _ _ _ Hpack _ _ _ _ _ Hn E)|done].
    + case_if; [exact (load_none _ _ _ _ _ Hempty _ _ _ _ Hn E)|done].
  - intros id. unfold contains. pose proof (R (entry_of id)) as Hn. case_if.
    + apply bool_decide_eq_true in Hif. split; [done|]. intros (b & Hm & Hb).
      destruct (index_file db !! entry_of id) as [e|]; [|congruence]. destruct Hn as [_ Hn]. rewrite Hm in Hn.
      destruct Hn as (Hst & _). destruct (Hid b Hst). congruence.
    + destruct (index_file db !! entry_of id) as [e|]; [|rewrite Hn; split; [done|by intros (? & ? & _)]].
      destruct Hn as [_ Hn]. destruct (m !! entry_of id) as [b|].
      * destruct Hn as (H0 & H1 & _ & H3 & _). rewrite H3, (proj2 (Z.gtb_lt _ _)) by (by apply Hsize).
        rewrite andb_true_r, bool_decide_eq_true, <- H1. split; [eauto|by intros (b' & [= <-] & ?)].
      * destruct Hn as [Hn _]. rewrite Hn, andb_false_r. split; [done|by intros (? & ? & _)].
  - unfold last, last_index_entry.
    pose proof (last_loop_spec B make_id pack unpack stored Hpack Hempty Hsize m _ db R eq_refl) as Hl.
    destruct (last_loop B make_id unpack (length (index_file db)) db) as [[e|] db']; [|done].
    destruct Hl as (R' & k & b & Hk & He & Hb & Hide). unfold fetch_by_number.
    pose proof (R' k) as Hn. rewrite He in Hn. pose proof Hn as [_ Hn'].
    rewrite Hb in Hn'. destruct Hn' as (_ & _ & Hkid & _). unfold entry_of in Hkid. rewrite Hide, Hkid, He.
    cbn [fst]. rewrite (load_ok _ _ _ _ _ Hpack _ _ _ _ _ Hn Hb).
    exists k. split; [done|]. intros k' [b' Hb']. destruct (decide (k' <= k)%nat); [done|].
    specialize (R' k'). rewrite lookup_ge_None_2 in R' by lia. congruence.
Qed.

(** A block stored under an id that is not its own can not be fetched by that id:
    the id is checked against the block when it is read. *)
Theorem store_under_other_id (B : Type) (make_id : B -> block_id_type) (pack : B -> list Z)
    (unpack : list Z -> option B) (id : block_id_type) (b : B) (db : block_database)
    (Hpack : unpack (pack b) = Some b) (Hsize : 0 < Z.of_nat (length (pack b)) < uint32_mod)
    (Hnull : id <> null_block_id) (Hid : make_id b <> id) :
  let db' := store B make_id pack id b db in
  contains id db' = true /\ fetch_optional B make_id unpack id db' = None.
Proof.
  unfold store, contains, fetch_optional. rewrite !bool_decide_eq_false_2 by done.
  cbn [index_file]. rewrite lookup_write, decide_True by done. cbn [entry_id block_size].
  rewrite bool_decide_eq_true_2 by done. rewrite wrap32_small by lia.
  split; [apply Z.gtb_lt; lia|]. unfold load, read_blocks. cbn [block_pos block_size blocks_file entry_id].
  rewrite !Nat2Z.id, drop_app_length, take_ge by done. rewrite bool_decide_eq_true_2 by done.
  rewrite Hpack. by rewrite bool_decide_eq_false_2.
Qed.
