(* ===== verification/Wire.v ===== *)
(** * The protocol's types on the wire (protocol/block.hpp, transaction.hpp, asset.hpp, ...)

    The reflected structures as codecs of [Raw]: amounts and prices, vesting policies,
    authorities, transactions and blocks.  The codecs of operations, their results, keys and
    addresses are arguments.  [block_wire_roundtrip]: a block is read back from its bytes,
    and its bytes determine it.  The sizes given are the [sizeof] of a 64-bit platform; they
    only bound how many elements a vector may announce.  [blocks_survive_storage]: the block database of [BlockDb]
    with this serialization keeps blocks. *)

From S2P Require Import Prelude Asset Block BlockDb Vesting Ledger Authority Raw.

(** [object_id] is reflected as its instance. *)
Abbreviation object_id_codec := (uint_codec 8).
Abbreviation time_point_sec_codec := (uint_codec 4).

#[global] Instance int64_faithful : Faithful int64_codec.
Proof. apply int_faithful. lia. Qed.

(** ** Amounts and prices *)

Definition asset_codec : codec asset :=
  struct_codec 16 (fun a => (amount a, asset_id a)) (fun f => mk_asset f.1 f.2) (pair_codec int64_codec object_id_codec).
#[global] Instance asset_faithful : Faithful asset_codec.
Proof. apply struct_faithful; [apply _|by intros []]. Qed.

Definition price_codec : codec price :=
  struct_codec 32 (fun p => (base p, quote p)) (fun f => mk_price f.1 f.2) (pair_codec asset_codec asset_codec).
#[global] Instance price_faithful : Faithful price_codec.
Proof. apply struct_faithful; [apply _|by intros []]. Qed.

Definition price_feed_codec : codec price_feed :=
  struct_codec 40
    (fun f => (settlement_price f, (maintenance_collateral_ratio f, maximum_short_squeeze_ratio f)))
    (fun f => mk_price_feed f.1 f.2.1 f.2.2) (pair_codec price_codec (pair_codec uint16_codec uint16_codec)).
#[global] Instance price_feed_faithful : Faithful price_feed_codec.
Proof. apply struct_faithful; [apply _|by intros []]. Qed.

(** ** Vesting policies *)

Definition linear_alternative : alternative vesting_policy_initializer :=
  mk_alt _ (pair_codec time_point_sec_codec (pair_codec uint32_codec uint32_codec))
    (fun f => LinearInit f.1 f.2.1 f.2.2)
    (fun p => match p with LinearInit b c d => Some (b, (c, d)) | _ => None end).
Definition cdd_alternative : alternative vesting_policy_initializer :=
  mk_alt _ (pair_codec time_point_sec_codec uint32_codec) (fun f => CddInit f.1 f.2)
    (fun p => match p with CddInit s v => Some (s, v) | _ => None end).
Definition vesting_policy_codec : codec vesting_policy_initializer :=
  variant_codec 24 [linear_alternative; cdd_alternative].
#[global] Instance vesting_policy_faithful : Faithful vesting_policy_codec.
Proof.
  apply variant_faithful; [|done]. constructor; [|constructor; [|constructor]].
  - split; [cbn; apply _|by intros [] ? [= <-]].
  - split; [cbn; apply _|by intros [] ? [= <-]].
Qed.

(** ** Authorities *)

Section Keys.
Context (key address : codec Z) `{!Faithful key} `{!Faithful address}.

Definition authority_codec : codec authority :=
  struct_codec 80 (fun a => (weight_threshold a, (account_auths a, (key_auths a, address_auths a))))
    (fun f => mk_authority f.1 f.2.1 f.2.2.1 f.2.2.2)
    (pair_codec uint32_codec (pair_codec (map_codec Z.ltb object_id_codec uint16_codec)
       (pair_codec (map_codec Z.ltb key uint16_codec) (map_codec Z.ltb address uint16_codec)))).
#[global] Instance authority_faithful : Faithful authority_codec.
Proof. apply struct_faithful; [apply _|by intros []]. Qed.
End Keys.

(** ** Blocks and transactions *)

(** [ripemd160]: five words, copied from memory. *)
Definition ripemd160_codec : codec block_id_type :=
  struct_codec 20 (fun h => (hash0 h, (hash1 h, (hash2 h, (hash3 h, hash4 h)))))
    (fun f => mk_bid f.1 f.2.1 f.2.2.1 f.2.2.2.1 f.2.2.2.2)
    (pair_codec uint32_codec (pair_codec uint32_codec (pair_codec uint32_codec (pair_codec uint32_codec uint32_codec)))).
#[global] Instance ripemd160_faithful : Faithful ripemd160_codec.
Proof. apply struct_faithful; [apply _|by intros []]. Qed.

Abbreviation sha256_codec := (array_codec 32).
Abbreviation signature_codec := (array_codec 65).
Definition extensions_codec : codec (list string) := vector_codec string_codec.
#[global] Instance extensions_faithful : Faithful extensions_codec := _.

(** [object_id_type]: space, type and instance. *)
Definition object_id_type_codec : codec (Z * (Z * Z)) := pair_codec uint8_codec (pair_codec uint8_codec uint64_codec).

(** [processed_transaction], whose base structures are reflected first. *)
Record wire_transaction (Op Res : Type) := mk_wire_trx {
  wt_ref_block_num : Z;
  wt_ref_block_prefix : Z;
  wt_expiration : Z;
  wt_operations : list Op;
  wt_extensions : list string;
  wt_agreed_task : option (list Z * (Z * (Z * Z)));
  wt_signatures : list (list Z);
  wt_operation_results : list Res }.
Arguments mk_wire_trx {Op Res}.
Arguments wt_ref_block_num {Op Res}.
Arguments wt_ref_block_prefix {Op Res}.
Arguments wt_expiration {Op Res}.
Arguments wt_operations {Op Res}.
Arguments wt_extensions {Op Res}.
Arguments wt_agreed_task {Op Res}.
Arguments wt_signatures {Op Res}.
Arguments wt_operation_results {Op Res}.

Definition transaction_codec {Op Res} (op : codec Op) (res : codec Res) : codec (wire_transaction Op Res) :=
  struct_codec 168
    (fun t => (wt_ref_block_num t, (wt_ref_block_prefix t, (wt_expiration t, (wt_operations t, (wt_extensions t,
               (wt_agreed_task t, (wt_signatures t, wt_operation_results t))))))))
    (fun f => mk_wire_trx f.1 f.2.1 f.2.2.1 f.2.2.2.1 f.2.2.2.2.1 f.2.2.2.2.2.1 f.2.2.2.2.2.2.1 f.2.2.2.2.2.2.2)
    (pair_codec uint16_codec (pair_codec uint32_codec (pair_codec time_point_sec_codec
      (pair_codec (vector_codec op) (pair_codec extensions_codec
        (pair_codec (optional_codec 56 (pair_codec sha256_codec object_id_type_codec))
          (pair_codec (vector_codec signature_codec) (vector_codec res)))))))).
#[global] Instance transaction_faithful {Op Res} (op : codec Op) (res : codec Res) :
  Faithful op -> Faithful res -> Faithful (transaction_codec op res).
Proof. intros. apply struct_faithful; [apply _|by intros []]. Qed.

Record wire_header := mk_header {
  wh_previous : block_id_type;
  wh_timestamp : Z;
  wh_witness : Z;
  wh_transaction_merkle_root : block_id_type;
  wh_extensions : option (list string) }.

Definition header_codec : codec wire_header :=
  struct_codec 88
    (fun h => (wh_previous h, (wh_timestamp h, (wh_witness h, (wh_transaction_merkle_root h, wh_extensions h)))))
    (fun f => mk_header f.1 f.2.1 f.2.2.1 f.2.2.2.1 f.2.2.2.2)
    (pair_codec ripemd160_codec (pair_codec time_point_sec_codec (pair_codec object_id_codec
      (pair_codec ripemd160_codec (optional_codec 32 extensions_codec))))).
#[global] Instance header_faithful : Faithful header_codec.
Proof. apply struct_faithful; [apply _|by intros []]. Qed.

(** [signed_block]; the transactions come with their hashes. *)
Record wire_block (Tx : Type) := mk_wire_block {
  wb_header : wire_header;
  wb_witness_signature : list Z;
  wb_block_id : block_id_type;
  wb_transactions : list (list Z * Tx) }.
Arguments mk_wire_block {Tx}.
Arguments wb_header {Tx}.
Arguments wb_witness_signature {Tx}.
Arguments wb_block_id {Tx}.
Arguments wb_transactions {Tx}.

Definition signed_header_codec : codec (wire_header * list Z) := pair_codec header_codec signature_codec.

Definition block_codec {Tx} (tx : codec Tx) : codec (wire_block Tx) :=
  struct_codec 208
    (fun b => ((wb_header b, wb_witness_signature b), (wb_block_id b, wb_transactions b)))
    (fun f => mk_wire_block f.1.1 f.1.2 f.2.1 f.2.2)
    (pair_codec signed_header_codec (pair_codec ripemd160_codec (vector_codec (pair_codec sha256_codec tx)))).
#[global] Instance block_faithful {Tx} (tx : codec Tx) : Faithful tx -> Faithful (block_codec tx).
Proof. intros. apply struct_faithful; [apply _|by intros []]. Qed.

(** A block with the default value in every field, as [unpack] leaves it for an empty
    buffer. *)
Definition default_block {Tx} : wire_block Tx :=
  mk_wire_block (mk_header null_block_id 0 0 null_block_id None) (replicate 65 0) null_block_id [].

(** [signed_block_header::make_id]: the hash of the serialized header with its signature. *)
Definition wire_make_id {Tx} (sha224 : list Z -> sha224_words) (b : wire_block Tx) : block_id_type :=
  let tmp := sha224 (pack signed_header_codec (wb_header b, wb_witness_signature b)) in
  mk_bid (endian_reverse_u32 (wrap32 (num_from_id (wh_previous (wb_header b)) + 1))) (w1 tmp) (w2 tmp) (w3 tmp) (w4 tmp).

(** ** Properties *)

Lemma block_bytes_some {Tx} (tx : codec Tx) (b : wire_block Tx) : pack (block_codec tx) b <> [].
Proof. by destruct b as [[[? ? ? ? ?] ? ? ? ?] ? ? ?]. Qed.

(** C35: a block whose fields are in the range of their types is read back from its
    serialization, whatever follows it; two such blocks with the same bytes are the same
    block, and signed headers are told apart by the bytes that are hashed to the block
    id. *)
Theorem block_wire_roundtrip {Tx} (tx : codec Tx) (Htx : Faithful tx) (b : wire_block Tx)
    (Hb : fits (block_codec tx) b) :
  from_bytes (block_codec tx) default_block (to_bytes (block_codec tx) b) = Ok b
  /\ (forall rest, unpack (block_codec tx) (to_bytes (block_codec tx) b ++ rest) = Ok (b, rest))
  /\ Forall is_byte (to_bytes (block_codec tx) b)
  /\ (forall b', fits (block_codec tx) b' -> to_bytes (block_codec tx) b' = to_bytes (block_codec tx) b -> b' = b)
  /\ (forall b', fits (block_codec tx) b' ->
        pack signed_header_codec (wb_header b', wb_witness_signature b')
          = pack signed_header_codec (wb_header b, wb_witness_signature b) ->
        wb_header b' = wb_header b /\ wb_witness_signature b' = wb_witness_signature b).
Proof.
  split; [apply from_to_bytes; [apply _|done|apply block_bytes_some]|].
  split; [intros rest; by apply (unpack_pack (c := block_codec tx))|].
  split; [by apply (pack_bytes (c := block_codec tx))|]. split.
  - intros b' Hb' E. destruct (pack_injective (block_codec tx) b' b [] [] Hb' Hb); [|done].
    unfold to_bytes in E. by rewrite E.
  - intros b' Hb' E. destruct Hb as [Hh _]. destruct Hb' as [Hh' _].
    destruct (pack_injective signed_header_codec (wb_header b', wb_witness_signature b')
      (wb_header b, wb_witness_signature b) [] [] Hh' Hh) as [Eq _]; [by rewrite E|].
    by injection Eq.
Qed.

(** An operation that is a number, and a block with one such transaction. *)
Definition demo_trx : wire_transaction Z unit :=
  mk_wire_trx 3 77 1000 [5; 300] ["memo"] (Some (replicate 32 9, (1, (24, 6)))) [replicate 65 4] [tt].
Definition demo_wire_block : wire_block (wire_transaction Z unit) :=
  mk_wire_block (mk_header (mk_bid 1 2 3 4 5) 1000 8 (mk_bid 6 7 8 9 10) (Some [])) (replicate 65 1) null_block_id
    [(replicate 32 0, demo_trx)].
Abbreviation demo_tx_codec := (transaction_codec unsigned_int_codec void_codec).

Ltac solve_fits :=
  repeat match goal with
         | |- _ /\ _ => split
         | |- Forall _ _ => repeat constructor
         | |- _ => progress cbn
         end; try (vm_compute; intuition congruence); try lia; auto.

Lemma demo_wire_block_fits : fits (block_codec demo_tx_codec) demo_wire_block.
Proof. solve_fits. Qed.

Lemma block_wire_roundtrip_witness :
  from_bytes (block_codec demo_tx_codec) default_block (to_bytes (block_codec demo_tx_codec) demo_wire_block) = Ok demo_wire_block
  /\ length (to_bytes (block_codec demo_tx_codec) demo_wire_block) = 302%nat.
Proof.
  destruct (block_wire_roundtrip demo_tx_codec _ demo_wire_block demo_wire_block_fits) as [H _].
  split; [exact H|vm_compute; reflexivity].
Defined.

(** [fc::raw::unpack<signed_block>] of what was read from the file; [None] where it throws. *)
Definition unpack_block {Tx} (tx : codec Tx) (l : list Z) : option (wire_block Tx) :=
  match from_bytes (block_codec tx) default_block l with Ok b => Some b | Err _ => None end.

Lemma wire_id_not_null {Tx} sha224 (b : wire_block Tx) :
  wrap32 (num_from_id (wh_previous (wb_header b)) + 1) <> 0 -> wire_make_id sha224 b <> null_block_id.
Proof.
  intros Hn E. apply (f_equal hash0) in E. cbn [hash0 wire_make_id null_block_id] in E. apply Hn.
  rewrite <- (rev32_involutive (wrap32 _)), E; [done|apply wrap32_bound].
Qed.

(** C20: the block database with the protocol's serialization stands for a map from block
    numbers to blocks, after any sequence of stores (of blocks whose fields are in range,
    whose number is not zero, and that do not have the id of the block of all defaults,
    which an empty buffer unpacks to) and removals: fetching by number or by id, [contains]
    and [last] answer from the map. *)
Theorem blocks_survive_storage {Tx} (tx : codec Tx) (Htx : Faithful tx) (sha224 : list Z -> sha224_words)
    (cs : list (command (wire_block Tx)))
    (Hcs : forall b, cmd_store _ b ∈ cs -> fits (block_codec tx) b /\ pack_size (block_codec tx) b < uint32_mod
       /\ wrap32 (num_from_id (wh_previous (wb_header b)) + 1) <> 0
       /\ wire_make_id sha224 b <> wire_make_id sha224 (@default_block Tx)) :
  let make_id := wire_make_id sha224 in
  let m := foldl (spec _ make_id) ∅ cs in
  let db := foldl (exec _ make_id (to_bytes (block_codec tx))) empty_block_db cs in
  (forall n, fetch_by_number _ make_id (unpack_block tx) n db = m !! Z.to_nat n) /\
  (forall id, fetch_optional _ make_id (unpack_block tx) id db
     = match m !! entry_of id with
       | Some b => if bool_decide (make_id b = id) then Some b else None
       | None => None
       end) /\
  (forall id, contains id db = true <-> exists b, m !! entry_of id = Some b /\ make_id b = id) /\
  match (last _ make_id (unpack_block tx) db).1 with
  | Some b => exists k, m !! k = Some b /\ forall k', is_Some (m !! k') -> (k' <= k)%nat
  | None => m = ∅
  end.
Proof.
  apply block_db_map.
  - intros b Hb. destruct (Hcs b Hb) as [Hf _]. unfold unpack_block.
    by rewrite (from_to_bytes (block_codec tx)) by (done || apply block_bytes_some).
  - intros b Hb. destruct (Hcs b Hb) as (_ & Hs & _). unfold pack_size in Hs. unfold to_bytes. split; [|done].
    pose proof (block_bytes_some tx b). destruct (pack _ b); [done|cbn; lia].
  - intros b Hb. destruct (Hcs b Hb) as (_ & _ & Hn & _). by apply wire_id_not_null.
  - intros d [= <-]. split; [apply wire_id_not_null; by vm_compute|]. intros b Hb. apply (Hcs b Hb).
Qed.

(** A hash that adds up the bytes. *)
Definition demo_sha224 (l : list Z) : sha224_words := mk_sha224 0 (sumZ id l) 0 0 0 0 0.

Lemma blocks_survive_storage_witness :
  let make_id := wire_make_id demo_sha224 in
  let db := foldl (exec _ make_id (to_bytes (block_codec demo_tx_codec))) empty_block_db [cmd_store _ demo_wire_block] in
  fetch_optional _ make_id (unpack_block demo_tx_codec) (make_id demo_wire_block) db = Some demo_wire_block.
Proof.
  destruct (blocks_survive_storage demo_tx_codec _ demo_sha224 [cmd_store _ demo_wire_block]) as (_ & H & _).
  - intros b Hb. apply list_elem_of_singleton in Hb. injection Hb as ->. split; [exact demo_wire_block_fits|].
    split; [vm_compute; reflexivity|]. split; [by vm_compute|]. intros E. vm_compute in E. discriminate E.
  - cbv zeta. rewrite H. cbn [foldl spec]. rewrite lookup_insert_eq. by rewrite bool_decide_eq_true_2.
Defined.

(** ** Where the serialization does not do what it means to *)

(** A 64-bit [unsigned_int] is written with all its bits, and read with 32 of them or not at
    all. *)
Theorem unsigned_int_truncated :
  (let* (v, _) := unpack unsigned_int_codec (pack unsigned_int_codec 4294967301) in Ok v) = Ok 5
  /\ unpack unsigned_int_codec (pack unsigned_int_codec 34359738368) = Err undefined_behaviour.
Proof. vm_compute. split; reflexivity. Qed.

(** A [signed_int] of 2{^30} is read as another number. *)
Theorem signed_int_changed :
  (let* (v, _) := unpack signed_int_codec (pack signed_int_codec 1073741824) in Ok v) = Ok 1073741825.
Proof. vm_compute. reflexivity. Qed.

(** Five bytes with a tag above the range of [int] end the program that reads a variant. *)
Theorem huge_tag_is_fatal : unpack vesting_policy_codec [128; 128; 128; 128; 8] = Err undefined_behaviour.
Proof. vm_compute. reflexivity. Qed.

(** The same number has several serializations. *)
Theorem overlong_number_accepted :
  unpack unsigned_int_codec [133; 0] = Ok (5, []) /\ pack unsigned_int_codec 5 = [5].
Proof. vm_compute. split; reflexivity. Qed.

(** An empty buffer is read as a block. *)
Theorem empty_buffer_is_a_block : from_bytes (block_codec demo_tx_codec) default_block [] = Ok default_block.
Proof. reflexivity. Qed.
