(* ===== verification/DbBlock.v ===== *)
(** * Pushing and popping blocks (libraries/chain/db_block.cpp)

    A node holds the object database, the undo stack, the fork database, the block
    files and the transactions of popped blocks.  [_push_block] links a block into
    the fork tree and either applies it on the head, ignores it, or switches to its
    fork: blocks are popped down to the fork point, the new branch is applied, and
    when a block of it fails the old branch is applied again.

    What the components promise each other is [ChainOps] and [ChainLaws]: a chain
    state, applying a block to it, and how that moves the head.  The undo stack is
    a list of snapshots, which is what the undo database implements ([UndoSpec]). *)

From S2P Require Import Prelude Block ForkDb BlockDb.

(** Applying a block gives a new state or throws; the number is the size that
    [update_global_dynamic_data] gave to the undo and the fork database, when it
    was reached. *)
Class ChainOps (S Sum Tx : Type) := {
  head_id : S -> block_id_type;
  head_num : S -> Z;
  apply_block : signed_block Sum Tx -> S -> result S * option Z }.

Class ChainLaws (S Sum Tx : Type) `{!ChainOps S Sum Tx} : Prop := {
  apply_on_head : forall b s s' z, apply_block b s = (Ok s', z) -> previous b = head_id s;
  apply_moves_head : forall b s s' z, apply_block b s = (Ok s', z) ->
    head_id s' = block_id b /\ head_num s' = block_num b;
  apply_size : forall b s r z, apply_block b s = (r, Some z) -> 1 <= z < uint32_mod;
  apply_sized : forall b s s' z, apply_block b s = (Ok s', z) -> exists k, z = Some k }.

Section Node.
Context {S Sum Tx : Type} `{!ChainOps S Sum Tx}.
Abbreviation block := (signed_block Sum Tx).
Abbreviation item := (fork_item Sum Tx).

(** The hash a block's id is made of, the encoding of blocks, and the node's
    skip flag for the fork database. *)
Variable make_id : block -> block_id_type.
Variable pack : block -> list Z.
Variable unpack : list Z -> option block.
Variable skip_fork_db : bool.

Record node := mk_node {
  st : S;
  undo_stack : list S;
  undo_max_size : Z;
  _fork_db : fork_database Sum Tx;
  _block_id_to_block : block_database;
  _popped_tx : list Tx }.

Definition set_state (s : S) (u : list S) (n : node) : node :=
  mk_node s u (undo_max_size n) (_fork_db n) (_block_id_to_block n) (_popped_tx n).
Definition set_fork_db (f : fork_database Sum Tx) (n : node) : node :=
  mk_node (st n) (undo_stack n) (undo_max_size n) f (_block_id_to_block n) (_popped_tx n).
Definition set_block_db (d : block_database) (n : node) : node :=
  mk_node (st n) (undo_stack n) (undo_max_size n) (_fork_db n) d (_popped_tx n).
Definition set_popped (l : list Tx) (n : node) : node :=
  mk_node (st n) (undo_stack n) (undo_max_size n) (_fork_db n) (_block_id_to_block n) l.
Definition set_sizes (z : Z) (n : node) : node :=
  mk_node (st n) (undo_stack n) z (set_max_size z (_fork_db n)) (_block_id_to_block n) (_popped_tx n).

Abbreviation N := (stM node).

(** ** Queries *)

Definition node_is_known_block (i : block_id_type) (n : node) : bool :=
  is_known_block i (_fork_db n) || contains i (_block_id_to_block n).

Definition fetch_block_by_id (i : block_id_type) (n : node) : option block :=
  match fetch_block i (_fork_db n) with
  | Some it => Some (data it)
  | None => fetch_optional block make_id unpack i (_block_id_to_block n)
  end.

Definition node_fetch_by_number (k : Z) (n : node) : option block :=
  match fetch_block_by_number k (_fork_db n) with
  | [it] => Some (data it)
  | _ => fetch_by_number block make_id unpack k (_block_id_to_block n)
  end.

(** The ids of a fork down to the block it left the current chain at. *)
Definition get_block_ids_on_fork (head_of_fork : block_id_type) (n : node)
    : result (list block_id_type) :=
  let* (first, second) := fetch_branch_from (head_id (st n)) head_of_fork (_fork_db n) in
  let* l := get_or (list.last first) undefined_behaviour in
  Ok (map id second ++ [previous_id l]).

(** ** Popping *)

(** The fork database's [pop_block]; [roots] are the items that the caller's
    branches keep alive besides the database. *)
Definition lock_in (l : list item) (w : option nat) : option item :=
  match w with
  | None => None
  | Some a => find (fun it => Nat.eqb (addr it) a) l
  end.

Definition fork_pop_block (roots : list item) (db : fork_database Sum Tx)
    : result (fork_database Sum Tx) :=
  let* h := get_or (_head db) assert_exception in
  let* p := get_or (lock_in (held db ++ roots) (prev h)) assert_exception in
  Ok (with_head (Some p) db).

Definition pop_undo : N unit :=
  fun n => match undo_stack n with
           | [] => (Err assert_exception, n)
           | s :: u => (Ok tt, set_state s u n)
           end.

(** [pop_block]; the popped transactions replace those of an earlier pop. *)
Definition pop_block (roots : list item) : N unit :=
  hb <-- get (fun n => fetch_block_by_id (head_id (st n)) n);
  head_block <-- lift (get_or hb pop_empty_chain);
  db <-- get _fork_db;
  db <-- lift (fork_pop_block roots db);
  _ <-- modify (set_fork_db db);
  _ <-- pop_undo;
  modify (set_popped (transactions head_block)).

(** [while( head_block_id() != target ) pop_block();] with no states left to undo
    the call throws. *)
Fixpoint pop_until (fuel : nat) (roots : list item) (target : block_id_type) : N unit :=
  h <-- get (fun n => head_id (st n));
  if bool_decide (h = target) then ret tt
  else
    _ <-- pop_block roots;
    match fuel with
    | O => ret tt
    | Datatypes.S f => pop_until f roots target
    end.

Definition pop_blocks_to (roots : list item) (target : block_id_type) : N unit :=
  fuel <-- get (fun n => length (undo_stack n));
  pop_until fuel roots target.

(** ** Applying *)

(** [start_undo_session]: drop the oldest states beyond the limit, save this one. *)
Definition start_session : N unit :=
  modify (fun n => set_state (st n) (st n :: take (Z.to_nat (undo_max_size n)) (undo_stack n)) n).

(** Leaving the session without [commit] restores the saved state. *)
Definition session_undo (n : node) : node :=
  match undo_stack n with
  | [] => n
  | s :: u => set_state s u n
  end.

Definition in_session (m : N unit) : N unit :=
  _ <-- start_session;
  fun n => match m n with
           | (Ok _, n') => (Ok tt, n')
           | (Err e, n') => (Err e, session_undo n')
           end.

Definition apply_state (b : block) : N unit :=
  fun n =>
    let (r, z) := apply_block b (st n) in
    let n := match z with Some z => set_sizes z n | None => n end in
    match r with
    | Ok s => (Ok tt, set_state s (undo_stack n) n)
    | Err e => (Err e, n)
    end.

(** One session: apply the block, store it under the given id, commit. *)
Definition apply_and_store (i : block_id_type) (b : block) : N unit :=
  in_session
    (_ <-- apply_state b;
     modify (fun n => set_block_db (store block make_id pack i b (_block_id_to_block n)) n)).

(** ** Switching forks *)

Fixpoint remove_items (l : list item) (db : fork_database Sum Tx) : fork_database Sum Tx :=
  match l with
  | [] => db
  | it :: l' => remove_items l' (ForkDb.remove (block_id (data it)) db)
  end.

(** [l] from the oldest block on; each is stored under the id of the block that was
    pushed. *)
Fixpoint restore_good (new_id : block_id_type) (l : list item) : N unit :=
  match l with
  | [] => ret tt
  | it :: l' => _ <-- apply_and_store new_id (data it); restore_good new_id l'
  end.

Definition recover (new_id : block_id_type) (first second rest : list item)
    (target : block_id_type) : N unit :=
  _ <-- modify (fun n => set_fork_db (remove_items rest (_fork_db n)) n);
  front <-- lift (get_or (head second) undefined_behaviour);
  _ <-- modify (fun n => set_fork_db (set_head (Some front) (_fork_db n)) n);
  _ <-- pop_blocks_to (first ++ second) target;
  restore_good new_id (reverse second).

Fixpoint push_branch (new_id : block_id_type) (first second : list item)
    (target : block_id_type) (l : list item) : N unit :=
  match l with
  | [] => ret tt
  | it :: l' =>
      _ <-- try_catch (apply_and_store (id it) (data it))
              (fun e => _ <-- recover new_id first second (it :: l') target; throw e);
      push_branch new_id first second target l'
  end.

Definition switch_fork (new_id : block_id_type) (new_head : item) : N unit :=
  branches <-- (fun n => (fetch_branch_from (block_id (data new_head)) (head_id (st n)) (_fork_db n), n));
  let (first, second) := branches in
  b <-- lift (get_or (list.last second) undefined_behaviour);
  let target := previous (data b) in
  _ <-- pop_blocks_to (first ++ second) target;
  push_branch new_id first second target (reverse first).

(** ** Pushing *)

Definition fork_push (b : block) : N item :=
  fun n => match ForkDb.push_block b (_fork_db n) with
           | Ok (h, db) => (get_or h undefined_behaviour, set_fork_db db n)
           | Err e => (Err e, set_fork_db (alloc (_fork_db n)) n)
           end.

(** On the head: a block that fails is taken out of the fork database again. *)
Definition push_on_head (b : block) : N bool :=
  _ <-- try_catch (apply_and_store (block_id b) b)
          (fun e => _ <-- modify (fun n => set_fork_db (ForkDb.remove (block_id b) (_fork_db n)) n);
                    throw e);
  ret false.

Definition _push_block (b : block) : N bool :=
  _ <-- lift (fc_assert (bool_decide (block_id b = make_id b)));
  if skip_fork_db then push_on_head b
  else
    new_head <-- fork_push b;
    s <-- get st;
    if bool_decide (previous (data new_head) <> head_id s) then
      if block_num (data new_head) >? head_num s then
        _ <-- switch_fork (block_id b) new_head; ret true
      else ret false
    else push_on_head b.
End Node.
Arguments node : clear implicits.

(** ** Histories *)

Lemma last_cons_default {A} (x : A) l d : List.last (x :: l) d = List.last l x.
Proof. revert x d. induction l as [|y l IH]; intros x d; [done|]. exact (eq_trans (IH y d) (eq_sym (IH y x))). Qed.

Section History.
Context {S Sum Tx : Type} `{!ChainOps S Sum Tx} `{!ChainLaws S Sum Tx}.
Variable make_id : signed_block Sum Tx -> block_id_type.

(** An id carries the block's number. *)
Hypothesis id_number : forall b : signed_block Sum Tx, num_from_id (make_id b) = block_num b.

Definition own_id (b : signed_block Sum Tx) : Prop := block_id b = make_id b.

Lemma same_id_same_num b b' : own_id b -> own_id b' -> block_id b = block_id b' -> block_num b = block_num b'.
Proof. unfold own_id. intros E1 E2 E. rewrite <- (id_number b), <- (id_number b'). congruence. Qed.

Definition numbered (s : S) : Prop := head_num s = num_from_id (head_id s).

(** The saved states and this one are linked by the blocks that were applied. *)
Fixpoint history (s : S) (u : list S) (bs : list (signed_block Sum Tx)) : Prop :=
  match u, bs with
  | [], [] => True
  | s' :: u', b :: bs' =>
      own_id b /\ numbered s' /\ (exists z, apply_block b s' = (Ok s, Some z)) /\ history s' u' bs'
  | _, _ => False
  end.

Fixpoint replay (s : S) (bs : list (signed_block Sum Tx)) : option S :=
  match bs with
  | [] => Some s
  | b :: bs' => match apply_block b s with
                | (Ok s', _) => replay s' bs'
                | (Err _, _) => None
                end
  end.

Lemma history_length s u bs : history s u bs -> length u = length bs.
Proof. revert s bs. induction u as [|s' u IH]; intros s [|b bs]; cbn; try done. intros (_ & _ & _ & H). f_equal. by eapply IH. Qed.

Lemma history_prefix s u u' bs : history s u bs -> u' `prefix_of` u ->
  exists bs', history s u' bs' /\ bs' `prefix_of` bs.
Proof.
  revert s u' bs. induction u as [|s' u IH]; intros s u' bs H Hp.
  - apply prefix_nil_inv in Hp as ->. exists []. split; [done|apply prefix_nil].
  - destruct u' as [|x u']; [exists []; split; [done|apply prefix_nil]|]. destruct bs as [|b bs]; [done|].
    destruct H as (H1 & H2 & H3 & H). apply prefix_cons_inv_1 in Hp as E. subst x.
    apply prefix_cons_inv_2 in Hp. destruct (IH _ _ _ H Hp) as (bs' & Hb & Hpre).
    exists (b :: bs'). split; [done|by apply prefix_cons].
Qed.

Lemma own_numbered b s s' z : own_id b -> apply_block b s = (Ok s', z) -> numbered s'.
Proof.
  intros Hb H. destruct (apply_moves_head _ _ _ _ H) as [E1 E2]. unfold numbered, own_id in *.
  by rewrite E1, E2, Hb, id_number.
Qed.

Lemma history_take k s u bs : history s u bs -> history s (take k u) (take k bs).
Proof.
  revert s k bs. induction u as [|s' u IH]; intros s k [|b bs] H; destruct k; try done; cbn in *.
  destruct H as (H1 & H2 & H3 & H). split_and!; [done..|by apply IH].
Qed.

Lemma history_drop k : forall s u bs, history s u bs ->
  history (List.last (take k u) s) (drop k u) (drop k bs).
Proof.
  induction k as [|k IH]; intros s u bs H; [by rewrite !drop_0|].
  destruct u as [|s' u], bs as [|b bs]; try done. destruct H as (_ & _ & _ & H).
  cbn [take drop]. rewrite last_cons_default. by apply IH.
Qed.

Lemma history_app s us a r b1 b2 : history s us b1 -> List.last us s = a -> history a r b2 ->
  history s (us ++ r) (b1 ++ b2).
Proof.
  revert s b1. induction us as [|s' us IH]; intros s b1 H E Hr; destruct b1 as [|b b1]; try done.
  - by subst.
  - destruct H as (H1 & H2 & H3 & H). cbn. split_and!; [done..|]. apply IH; [done| |done].
    by rewrite <- E, last_cons_default.
Qed.

(** The blocks of a history are those that the fork database holds under their ids.
    An id is made of the signed header only, so this is not a matter of the ids. *)
Definition coherent (bs : list (signed_block Sum Tx)) (db : fork_database Sum Tx) : Prop :=
  forall x b, x ∈ _index db -> b ∈ bs -> block_id b = id x -> b = data x.

Lemma coherent_sub bs bs' (db db' : fork_database Sum Tx) : coherent bs db ->
  (forall b, b ∈ bs' -> b ∈ bs) -> (forall x, x ∈ _index db' -> x ∈ _index db) -> coherent bs' db'.
Proof. intros H H1 H2 x b Hx Hb. apply H; auto. Qed.

(** [history] for the states a node has saved. *)
Definition saved_history (n : node S Sum Tx) (bs : list (signed_block Sum Tx)) : Prop :=
  history (st n) (undo_stack n) bs /\ coherent bs (_fork_db n).

Lemma history_ids s u bs b : history s u bs -> b ∈ bs -> exists s', s' ∈ s :: u /\ head_id s' = block_id b.
Proof.
  revert s bs. induction u as [|s1 u IH]; intros s [|c bs] H Hb; try done.
  { by apply elem_of_nil in Hb. }
  destruct H as (_ & _ & (z & Ha) & H). apply elem_of_cons in Hb as [->|Hb].
  - exists s. split; [constructor|]. by destruct (apply_moves_head _ _ _ _ Ha).
  - destruct (IH _ _ H Hb) as (s' & Hs & E). exists s'. split; [by constructor|done].
Qed.

Lemma ids_unique (l : list (fork_item Sum Tx)) x y : NoDup (map id l) -> x ∈ l -> y ∈ l -> id x = id y -> x = y.
Proof.
  induction l as [|z l IH]; intros Hn Hx Hy E; [by apply elem_of_nil in Hx|]. cbn in Hn. apply NoDup_cons in Hn as [Hz Hn].
  assert (Hmem : forall w, w ∈ l -> id w ∈ map id l) by (intros w Hw; by apply list_elem_of_In, in_map, list_elem_of_In).
  apply elem_of_cons in Hx as [->|Hx], Hy as [->|Hy]; [done| | |by apply IH]; exfalso; apply Hz;
    [rewrite E|rewrite <- E]; auto.
Qed.

Lemma prefix_elem {A} (l l' : list A) x : l `prefix_of` l' -> x ∈ l -> x ∈ l'.
Proof. intros [k ->] H. apply elem_of_app. by left. Qed.
End History.

(** ** Popping along a branch *)

Section Popping.
Context {S Sum Tx : Type} `{!ChainOps S Sum Tx}.
Variable make_id : signed_block Sum Tx -> block_id_type.
Variable unpack : list Z -> option (signed_block Sum Tx).

(** Items with distinct addresses, and those the branches keep alive. *)
Variables X R : list (fork_item Sum Tx).
Hypothesis X_addr : forall i1 i2, i1 ∈ X -> i2 ∈ X -> addr i1 = addr i2 -> i1 = i2.
Hypothesis R_in_X : forall x, x ∈ R -> x ∈ X.

Lemma lock_in_found (l : list (fork_item Sum Tx)) y :
  (forall x, x ∈ l -> x ∈ X) -> y ∈ l -> lock_in l (Some (addr y)) = Some y.
Proof.
  intros Hl Hy. cbn. destruct (find (fun it => Nat.eqb (addr it) (addr y)) l) as [x|] eqn:E.
  - apply find_some in E as [Hx Ea]. apply list_elem_of_In in Hx. apply Nat.eqb_eq in Ea.
    f_equal. apply X_addr; auto.
  - exfalso. apply list_elem_of_In in Hy. apply (find_none _ _ E) in Hy. by rewrite Nat.eqb_refl in Hy.
Qed.

(** The fork head moves from [h] along [fl]. *)
Fixpoint fork_path (db : fork_database Sum Tx) (h : fork_item Sum Tx)
    (fl : list (fork_item Sum Tx)) : Prop :=
  match fl with
  | [] => True
  | y :: fl' => prev h = Some (addr y) /\ (y ∈ R \/ y ∈ _index db) /\ fork_path db y fl'
  end.

Lemma fork_path_index db db' fl : (forall x, x ∈ _index db -> x ∈ _index db') ->
  forall h, fork_path db h fl -> fork_path db' h fl.
Proof.
  intros Hsub. induction fl as [|z fl IH]; intros h; cbn; [done|].
  intros (H1 & H2 & H3). split_and!; [done|naive_solver|by apply IH].
Qed.

Definition in_index (db : fork_database Sum Tx) (i : block_id_type) : Prop :=
  exists it, it ∈ _index db /\ id it = i.

Lemma fetch_in_index db i n : in_index db i -> _fork_db n = db ->
  exists b, fetch_block_by_id (S := S) make_id unpack i n = Some b.
Proof.
  intros (it & Hin & Hi) <-. unfold fetch_block_by_id, fetch_block, find_id.
  destruct (find (has_id i) (_index (_fork_db n))) as [x|] eqn:E; [eauto|].
  apply list_elem_of_In in Hin. apply (find_none _ _ E) in Hin. unfold has_id in Hin.
  by apply bool_decide_eq_false in Hin.
Qed.

(** What popping leaves alone. *)
Definition popped (n n' : node S Sum Tx) (s : S) (u : list S) (h : fork_item Sum Tx) : Prop :=
  st n' = s /\ undo_stack n' = u /\ undo_max_size n' = undo_max_size n
  /\ _block_id_to_block n' = _block_id_to_block n
  /\ _fork_db n' = with_head (Some h) (_fork_db n).

Lemma pop_block_step n h y s u :
  (forall x, x ∈ held (_fork_db n) -> x ∈ X) ->
  _head (_fork_db n) = Some h -> prev h = Some (addr y) -> y ∈ R \/ y ∈ _index (_fork_db n) ->
  in_index (_fork_db n) (head_id (st n)) -> undo_stack n = s :: u ->
  exists n', pop_block make_id unpack R n = (Ok tt, n') /\ popped n n' s u y.
Proof.
  intros Hh Eh Ep Hy Hin Eu. unfold pop_block, bind, get, lift, modify.
  destruct (fetch_in_index _ _ n Hin eq_refl) as [b ->]. cbn [get_or].
  unfold fork_pop_block. rewrite Eh. cbn [get_or rbind]. rewrite Ep.
  rewrite (lock_in_found _ y); [|by intros x [?|?]%elem_of_app; auto|].
  - cbn [get_or rbind]. unfold pop_undo. cbn [undo_stack set_fork_db]. rewrite Eu. eexists. by split.
  - apply elem_of_app. destruct Hy as [?|?]; [by right|left]. apply held_in. auto.
Qed.

Lemma with_head_index h (db : fork_database Sum Tx) : _index (with_head h db) = _index db.
Proof. done. Qed.

(** Popping [us] states off the stack, the last of which is the target. *)
Lemma pop_until_spec target us : forall fl fuel n h rest,
  (forall x, x ∈ held (_fork_db n) -> x ∈ X) ->
  _head (_fork_db n) = Some h -> fork_path (_fork_db n) h fl -> length fl = length us ->
  undo_stack n = us ++ rest -> (length us <= fuel)%nat ->
  (forall s, s ∈ removelast (st n :: us) -> head_id s <> target /\ in_index (_fork_db n) (head_id s)) ->
  head_id (List.last us (st n)) = target ->
  exists n', pop_until make_id unpack fuel R target n = (Ok tt, n')
    /\ popped n n' (List.last us (st n)) rest (List.last fl h).
Proof.
  induction us as [|s us IH]; intros fl fuel n h rest Hh Eh Hfp Hlen Eu Hf Hst Htg.
  - destruct fl; [|done]. exists n. destruct fuel; cbn [pop_until]; unfold bind, get;
      rewrite bool_decide_eq_true_2 by done; (split; [done|]); split_and!; try done;
      destruct (_fork_db n) eqn:E; cbn in *; by rewrite Eh.
  - destruct fl as [|y fl]; [done|]. destruct Hfp as (Ep & Hy & Hfp).
    destruct fuel as [|fuel]; [cbn in Hf; lia|].
    destruct (Hst (st n)) as [Hne Hin]; [destruct us; set_solver|].
    cbn [pop_until]. unfold bind at 1, get at 1. rewrite bool_decide_eq_false_2 by done.
    destruct (pop_block_step n h y s (us ++ rest)) as (n1 & E1 & P1); [done..|].
    unfold bind. rewrite E1. destruct P1 as (Es & Eus & Em & Eb & Ef).
    destruct (IH fl fuel n1 y rest) as (n2 & E2 & P2); try done.
    + intros x Hx. rewrite Ef in Hx. apply held_in in Hx. cbn in Hx.
      destruct Hx as [[= <-]|Hx]; [|apply Hh, held_in; tauto].
      destruct Hy as [?|?]; [by apply R_in_X|]. apply Hh, held_in. tauto.
    + by rewrite Ef.
    + rewrite Ef. revert Hfp. by apply fork_path_index.
    + by injection Hlen.
    + cbn in Hf. lia.
    + intros s0 Hs0. rewrite Ef. apply Hst. rewrite Es in Hs0.
      change (removelast (st n :: s :: us)) with (st n :: removelast (s :: us)). apply elem_of_cons. by right.
    + by rewrite Es, <- Htg, last_cons_default.
    + exists n2. split; [done|]. destruct P2 as (Q1 & Q2 & Q3 & Q4 & Q5).
      split_and!; [| |congruence|congruence|].
      * by rewrite Q1, Es, last_cons_default.
      * done.
      * by rewrite Q5, Ef, last_cons_default.
Qed.
End Popping.

(** ** Applying *)

Section Applying.
Context {S Sum Tx : Type} `{!ChainOps S Sum Tx} `{!ChainLaws S Sum Tx}.
Variable make_id : signed_block Sum Tx -> block_id_type.
Variable pack : signed_block Sum Tx -> list Z.

(** A fork database that lost items of its index. *)
Record sub_db (db db' : fork_database Sum Tx) : Prop := {
  sub_index : forall x, x ∈ _index db' -> x ∈ _index db;
  sub_next : next_addr db' = next_addr db;
  sub_unlinked : _unlinked_index db = [] -> _unlinked_index db' = [];
  sub_nodup : NoDup (map id (_index db)) -> NoDup (map id (_index db')) }.

#[global] Instance sub_db_preorder : PreOrder sub_db.
Proof. split; [by split|]. intros a b c [] []. split; naive_solver congruence. Qed.

Lemma sub_set_max_size z db : sub_db db (set_max_size z db).
Proof.
  unfold set_max_size. cbn. destruct (_head db); [|by split]. split; cbn; [|done| |].
  - intros x [_ Hx]%list_elem_of_filter. done.
  - by intros ->.
  - apply nodup_filter_ids.
Qed.

Lemma sub_remove i db : sub_db db (ForkDb.remove i db).
Proof. split; cbn; [|done|done|apply nodup_filter_ids]. intros x [_ Hx]%list_elem_of_filter. done. Qed.

Lemma sub_with_head h db : sub_db db (with_head h db).
Proof. by split. Qed.

Lemma max_size_keeps z (db : fork_database Sum Tx) h x : _head db = Some h -> x ∈ _index db ->
  num h - z <= num x -> 0 <= num x -> x ∈ _index (set_max_size z db).
Proof.
  intros Eh Hx H1 H2. unfold set_max_size. cbn. rewrite Eh. cbn. apply list_elem_of_filter. split; [lia|done].
Qed.

Lemma set_max_size_head z (db : fork_database Sum Tx) : _head (set_max_size z db) = _head db.
Proof. unfold set_max_size. cbn. by destruct (_head db) eqn:E. Qed.

Definition sized (z : option Z) (db : fork_database Sum Tx) : fork_database Sum Tx :=
  match z with Some z => set_max_size z db | None => db end.

Lemma apply_and_store_ok i b (n : node S Sum Tx) s' z : apply_block b (st n) = (Ok s', Some z) ->
  exists n', apply_and_store make_id pack i b n = (Ok tt, n') /\ st n' = s'
    /\ undo_stack n' = st n :: take (Z.to_nat (undo_max_size n)) (undo_stack n)
    /\ undo_max_size n' = z /\ _fork_db n' = set_max_size z (_fork_db n).
Proof.
  intros H. unfold apply_and_store, in_session, start_session, bind, modify, apply_state. cbn [st set_state].
  rewrite H. eexists. split; [done|]. by split_and!.
Qed.

Lemma apply_and_store_err i b (n : node S Sum Tx) e z : apply_block b (st n) = (Err e, z) ->
  exists n', apply_and_store make_id pack i b n = (Err e, n') /\ st n' = st n
    /\ undo_stack n' = take (Z.to_nat (undo_max_size n)) (undo_stack n)
    /\ _fork_db n' = sized z (_fork_db n).
Proof.
  intros H. unfold apply_and_store, in_session, start_session, bind, modify, apply_state. cbn [st set_state].
  rewrite H. eexists. split; [done|]. by destruct z.
Qed.

Lemma restore_good_app i l1 l2 (n : node S Sum Tx) :
  restore_good make_id pack i (l1 ++ l2) n
  = bind (restore_good make_id pack i l1) (fun _ => restore_good make_id pack i l2) n.
Proof.
  revert n. induction l1 as [|it l1 IH]; intros n; cbn [app restore_good]; [done|].
  unfold bind in *. destruct (apply_and_store make_id pack i (data it) n) as [[[]|e] n1]; [apply IH|done].
Qed.

(** Applying the old blocks again rebuilds the old state. *)
Lemma restore_good_spec i : forall sl s U rest n bs,
  history make_id s U bs -> map data sl = bs -> List.last U s = st n ->
  undo_stack n `prefix_of` rest ->
  exists n', restore_good make_id pack i (reverse sl) n = (Ok tt, n') /\ st n' = s
    /\ undo_stack n' `prefix_of` U ++ rest /\ _head (_fork_db n') = _head (_fork_db n)
    /\ sub_db (_fork_db n) (_fork_db n').
Proof.
  induction sl as [|y sl IH]; intros s U rest n bs Hh Hbs Hl Hp; cbn in Hbs; subst bs.
  - destruct U; [|done]. exists n. by split_and!.
  - destruct U as [|s' U]; [done|]. destruct Hh as (Hb & Hn & (z & Ha) & Hh).
    rewrite last_cons_default in Hl.
    destruct (IH s' U rest n _ Hh eq_refl Hl Hp) as (n1 & E1 & Es & Eu & Eh & Hsub).
    rewrite reverse_cons, restore_good_app. unfold bind at 1. rewrite E1. cbn [restore_good].
    rewrite <- Es in Ha. destruct (apply_and_store_ok i _ _ _ _ Ha) as (n2 & E2 & Es2 & Eu2 & _ & Ef2).
    unfold bind. rewrite E2. exists n2. split; [done|]. split; [done|]. rewrite Eu2, Es, Ef2.
    split_and!.
    + cbn. apply prefix_cons. etrans; [apply prefix_take|done].
    + by rewrite set_max_size_head.
    + etrans; [done|apply sub_set_max_size].
Qed.

Lemma remove_items_sub l : forall db, sub_db db (remove_items l db).
Proof. induction l as [|it l IH]; intros db; cbn; [done|]. etrans; [apply sub_remove|apply IH]. Qed.

Lemma remove_items_head l : forall db : fork_database Sum Tx, _head (remove_items l db) = _head db.
Proof. induction l as [|it l IH]; intros db; cbn; [done|]. by rewrite IH. Qed.

Lemma remove_items_index l x : forall db : fork_database Sum Tx,
  x ∈ _index (remove_items l db) <-> x ∈ _index db /\ forall y, y ∈ l -> id x <> block_id (data y).
Proof.
  induction l as [|it l IH]; intros db; cbn; [set_solver|]. rewrite IH. cbn. rewrite list_elem_of_filter.
  setoid_rewrite elem_of_cons. naive_solver.
Qed.
End Applying.

(** ** The two branches of a switch *)

Section Branches.
Context {S Sum Tx : Type} `{!ChainOps S Sum Tx} `{!ChainLaws S Sum Tx}.
Variable make_id : signed_block Sum Tx -> block_id_type.
Variable pack : signed_block Sum Tx -> list Z.
Variable unpack : list Z -> option (signed_block Sum Tx).
Hypothesis id_number : forall b : signed_block Sum Tx, num_from_id (make_id b) = block_num b.

(** [l] follows [prev] pointers, block numbers falling from [h]. *)
Record chained (db : fork_database Sum Tx) (h : Z) (l : list (fork_item Sum Tx)) : Prop := {
  ch_index : forall k x, l !! k = Some x -> x ∈ _index db /\ num x = h - Z.of_nat k;
  ch_prev : forall k x y, l !! k = Some x -> l !! Datatypes.S k = Some y ->
    prev x = Some (addr y) /\ previous (data x) = id y }.

(** The branch to switch to, the current one and the fork point [p]. *)
Record branches (db : fork_database Sum Tx) (s : S) (first second : list (fork_item Sum Tx))
    (p : fork_item Sum Tx) : Prop := {
  br_wf : wf db;
  br_len : length first = Datatypes.S (length second);
  br_first : chained db (head_num s + 1) first;
  br_second : chained db (head_num s) (second ++ [p]);
  br_front : _head db = head first;
  br_head : forall x, second !! 0%nat = Some x -> id x = head_id s;
  br_ne : second <> [];
  br_own : forall x, x ∈ _index db -> own_id make_id (data x) }.

Lemma chained_tail db h x l : chained db h (x :: l) -> chained db (h - 1) l.
Proof.
  intros [H1 H2]. split.
  - intros k y Hy. destruct (H1 (Datatypes.S k) y Hy) as [? ->]. split; [done|lia].
  - intros k y z Hy Hz. by apply (H2 (Datatypes.S k)).
Qed.

Lemma chained_in db h l x : chained db h l -> x ∈ l -> x ∈ _index db.
Proof. intros H [k Hk]%list_elem_of_lookup. by destruct (ch_index _ _ _ H k x Hk). Qed.

Lemma chained_path db db' h l : forall x, chained db h (x :: l) ->
  forall R, (forall y, y ∈ l -> y ∈ R \/ y ∈ _index db') -> fork_path R db' x l.
Proof.
  revert h. induction l as [|y l IH]; intros h x Hc R Hin; cbn; [done|].
  split; [by apply (ch_prev _ _ _ Hc 0%nat)|]. split; [apply Hin; constructor|].
  apply (IH (h - 1)); [by apply chained_tail in Hc|]. intros z Hz. apply Hin. by constructor.
Qed.

(** The states of a history sit on the blocks of the chain they were made by. *)
Lemma history_heads db (Hown : forall x, x ∈ _index db -> own_id make_id (data x) /\ id x = block_id (data x)) :
  forall l x h s u bs, history make_id s u bs -> coherent bs db -> chained db h (x :: l) ->
    head_id s = id x -> (length l <= length u)%nat ->
    (forall i s' y, (s :: u) !! i = Some s' -> (x :: l) !! i = Some y -> head_id s' = id y)
    /\ take (length l) bs = map data (take (length l) (x :: l)).
Proof.
  induction l as [|y l IH]; intros x h s u bs Hh Hco Hc Hid Hlen.
  - split; [|done]. intros [|i] s' z Hs Hz; [by simplify_eq/=|done].
  - destruct u as [|s' u]; [cbn in Hlen; lia|]. destruct bs as [|b bs]; [done|].
    destruct Hh as (Hb & Hn & (z & Ha) & Hh).
    destruct (apply_moves_head _ _ _ _ Ha) as [E1 _]. pose proof (apply_on_head _ _ _ _ Ha) as E2.
    destruct (Hown x) as [Hox Hix]; [by eapply chained_in; [|constructor]|].
    assert (b = data x) as ->
      by (apply Hco; [by eapply chained_in; [|constructor]|constructor|congruence]).
    destruct (ch_prev _ _ _ Hc 0%nat x y eq_refl eq_refl) as [_ Hp].
    destruct (IH y (h - 1) s' u bs Hh) as [I1 I2];
      [by intros w c Hw Hc'; apply Hco; [|by constructor]|by eapply chained_tail|congruence|cbn in Hlen; lia|].
    split.
    + intros [|i] s0 w Hs0 Hw; [by simplify_eq/=|]. by apply (I1 i).
    + cbn [length]. rewrite !firstn_cons. cbn [map]. by f_equal.
Qed.

Lemma item_num db x : wf db -> (forall x, x ∈ _index db -> own_id make_id (data x)) ->
  x ∈ _index db -> num x = num_from_id (id x) /\ id x = block_id (data x) /\ 0 <= num x < uint32_mod.
Proof.
  intros Hwf Hown Hx. destruct (ok_data _ _ (wf_items _ Hwf) x) as (_ & E1 & E2); [apply held_in; auto|].
  specialize (Hown _ Hx). unfold own_id in Hown. rewrite E1, E2, Hown, id_number.
  split_and!; [done|done|apply block_num_bound..].
Qed.
End Branches.

Section Switch.
Context {S Sum Tx : Type} `{!ChainOps S Sum Tx} `{!ChainLaws S Sum Tx}.
Variable make_id : signed_block Sum Tx -> block_id_type.
Variable pack : signed_block Sum Tx -> list Z.
Variable unpack : list Z -> option (signed_block Sum Tx).
Hypothesis id_number : forall b : signed_block Sum Tx, num_from_id (make_id b) = block_num b.

(** The node before the switch, and its branches. *)
Variable n0 : node S Sum Tx.
Variables (x0 y0 : fork_item Sum Tx) (fl sl : list (fork_item Sum Tx)) (p : fork_item Sum Tx).
Variable bs : list (signed_block Sum Tx).
Abbreviation db0 := (_fork_db n0).
Abbreviation first := (x0 :: fl).
Abbreviation second := (y0 :: sl).
Hypothesis Hbr : branches make_id db0 (st n0) first second p.
Hypothesis Hhist : history make_id (st n0) (undo_stack n0) bs.
Hypothesis Hcoherent : coherent bs db0.
Hypothesis Hdepth : (length second <= length (undo_stack n0))%nat.

Definition fork_states : list S := take (length second) (undo_stack n0).
Definition older_states : list S := drop (length second) (undo_stack n0).
Definition fork_state : S := List.last fork_states (st n0).

Lemma X_addr : forall i1 i2, i1 ∈ held db0 -> i2 ∈ held db0 -> addr i1 = addr i2 -> i1 = i2.
Proof. apply (ok_addr _ _ (wf_items _ (br_wf _ _ _ _ _ _ Hbr))). Qed.

Lemma indexed x : x ∈ _index db0 -> num x = num_from_id (id x) /\ id x = block_id (data x)
  /\ 0 <= num x < uint32_mod.
Proof. intros Hx. eapply item_num; [done|apply Hbr|apply Hbr|done]. Qed.

Lemma in_held x : x ∈ _index db0 -> x ∈ held db0.
Proof. intros H. apply held_in. auto. Qed.

Lemma in_branches x : x ∈ first ++ second -> x ∈ _index db0.
Proof.
  intros [H|H]%elem_of_app; [eapply chained_in; [apply (br_first _ _ _ _ _ _ Hbr)|done]|].
  eapply chained_in; [apply (br_second _ _ _ _ _ _ Hbr)|]. apply elem_of_app. by left.
Qed.

Lemma p_in : p ∈ _index db0 /\ num p = head_num (st n0) - Z.of_nat (length second).
Proof.
  apply (ch_index _ _ _ (br_second _ _ _ _ _ _ Hbr)). by rewrite list_lookup_middle.
Qed.

Lemma first_num x : x ∈ first ->
  head_num (st n0) - Z.of_nat (length second) < num x <= head_num (st n0) + 1.
Proof.
  intros [k Hk]%list_elem_of_lookup. pose proof (lookup_lt_Some _ _ _ Hk) as Hl.
  rewrite (br_len _ _ _ _ _ _ Hbr) in Hl. apply (ch_index _ _ _ (br_first _ _ _ _ _ _ Hbr)) in Hk as [_ ->].
  lia.
Qed.

Lemma second_num x : x ∈ second ++ [p] ->
  head_num (st n0) - Z.of_nat (length second) <= num x <= head_num (st n0).
Proof.
  intros [k Hk]%list_elem_of_lookup. pose proof (lookup_lt_Some _ _ _ Hk) as Hl.
  rewrite length_app in Hl. apply (ch_index _ _ _ (br_second _ _ _ _ _ _ Hbr)) in Hk as [_ ->].
  cbn in Hl |- *. lia.
Qed.

Lemma second_states i s y : (st n0 :: undo_stack n0) !! i = Some s ->
  (second ++ [p]) !! i = Some y -> head_id s = id y.
Proof.
  destruct (history_heads make_id db0) with (l := sl ++ [p]) (x := y0)
    (h := head_num (st n0)) (s := st n0) (u := undo_stack n0) (bs := bs) as [H _]; [|done|done|apply (br_second _ _ _ _ _ _ Hbr)| | |by apply H].
  - intros x Hx. split; [by apply Hbr|]. by destruct (indexed x Hx) as (_ & ? & _).
  - symmetry. by apply (br_head _ _ _ _ _ _ Hbr).
  - rewrite length_app. cbn in *. lia.
Qed.

Lemma second_blocks : take (length second) bs = map data second.
Proof.
  destruct (history_heads make_id db0) with (l := sl ++ [p]) (x := y0)
    (h := head_num (st n0)) (s := st n0) (u := undo_stack n0) (bs := bs) as [_ H]; [|done|done|apply (br_second _ _ _ _ _ _ Hbr)| | |].
  - intros x Hx. split; [by apply Hbr|]. by destruct (indexed x Hx) as (_ & ? & _).
  - symmetry. by apply (br_head _ _ _ _ _ _ Hbr).
  - rewrite length_app. cbn in *. lia.
  - rewrite length_app in H. cbn [length] in H. rewrite Nat.add_1_r in H. cbn [length]. etrans; [exact H|].
    f_equal. change (y0 :: sl ++ [p]) with ((y0 :: sl) ++ [p]). apply (take_app_length (y0 :: sl)).
Qed.

Lemma undo_split : undo_stack n0 = fork_states ++ older_states.
Proof. symmetry. apply take_drop. Qed.

Lemma fork_states_length : length fork_states = length second.
Proof. unfold fork_states. rewrite length_take. lia. Qed.

Lemma fork_state_lookup : (st n0 :: undo_stack n0) !! length second = Some fork_state.
Proof.
  unfold fork_state. rewrite undo_split. pose proof fork_states_length as Hl.
  destruct fork_states as [|s us] eqn:E using rev_ind; [done|]. rewrite List.last_last.
  rewrite length_app in Hl. cbn [length] in *.
  transitivity (((us ++ [s]) ++ older_states) !! length sl); [done|].
  rewrite <- app_assoc. apply list_lookup_middle. lia.
Qed.

Lemma fork_state_head : head_id fork_state = id p.
Proof.
  eapply second_states; [apply fork_state_lookup|]. by rewrite list_lookup_middle.
Qed.

Lemma last_second : list.last second = Some (List.last sl y0) /\ previous (data (List.last sl y0)) = id p.
Proof.
  assert (E : exists l, y0 :: sl = l ++ [List.last sl y0]).
  { exists (removelast (y0 :: sl)). rewrite <- (last_cons_default y0 sl y0).
    by apply app_removelast_last. }
  destruct E as [l E]. split; [rewrite E; by rewrite last_snoc|].
  apply (ch_prev _ _ _ (br_second _ _ _ _ _ _ Hbr) (length l)); rewrite E, <- app_assoc.
  - by apply list_lookup_middle.
  - rewrite lookup_app_r by lia. by replace (Datatypes.S (length l) - length l)%nat with 1%nat by lia.
Qed.

(** Every state above the fork point sits on a block above it. *)
Lemma state_above i s : (i < length second)%nat -> (st n0 :: undo_stack n0) !! i = Some s ->
  head_id s <> id p /\ in_index db0 (head_id s).
Proof.
  intros Hi Hs. destruct (lookup_lt_is_Some_2 (second ++ [p]) i) as [y Hy];
    [rewrite length_app; cbn in *; lia|].
  rewrite (second_states i s y Hs Hy).
  apply (ch_index _ _ _ (br_second _ _ _ _ _ _ Hbr)) in Hy as [Hy Hn]. destruct p_in as [Hp Hpn].
  split; [|by exists y]. intros E. destruct (indexed y Hy) as [N1 _]. destruct (indexed p Hp) as [N2 _].
  rewrite E in N1. lia.
Qed.

Lemma removelast_lookup {A} (l : list A) x : x ∈ removelast l -> exists i, (Datatypes.S i < length l)%nat /\ l !! i = Some x.
Proof.
  destruct l as [|y l] using rev_ind; [by intros ?%elem_of_nil|]. rewrite removelast_last.
  intros [i Hi]%list_elem_of_lookup. exists i. pose proof (lookup_lt_Some _ _ _ Hi).
  rewrite length_app. cbn. split; [lia|]. by rewrite lookup_app_l.
Qed.

Lemma pop_old_branch : exists n1,
  pop_blocks_to make_id unpack (first ++ second) (id p) n0 = (Ok tt, n1)
  /\ popped n0 n1 fork_state older_states (List.last fl x0).
Proof.
  unfold pop_blocks_to, bind, get. pose proof fork_states_length as Hl.
  apply (pop_until_spec make_id unpack (held db0) (first ++ second) X_addr) with (us := fork_states).
  - intros x Hx. by apply in_held, in_branches.
  - done.
  - apply Hbr.
  - eapply chained_path; [apply (br_first _ _ _ _ _ _ Hbr)|]. intros y Hy. left.
    apply elem_of_app. left. by constructor.
  - rewrite Hl. pose proof (br_len _ _ _ _ _ _ Hbr) as E. by injection E.
  - apply undo_split.
  - rewrite Hl. done.
  - intros s (i & Hi & Hs)%removelast_lookup. cbn [length] in Hi. rewrite Hl in Hi.
    apply (state_above i); [lia|]. rewrite undo_split.
    change (st n0 :: fork_states ++ older_states) with ((st n0 :: fork_states) ++ older_states).
    rewrite lookup_app_l by (cbn [length]; rewrite Hl; lia). done.
  - apply fork_state_head.
Qed.

(** After the blocks [l1] of the new branch have been applied. *)
Record applied (l1 : list (fork_item Sum Tx)) (n : node S Sum Tx) : Prop := {
  ap_replay : replay fork_state (map data l1) = Some (st n);
  ap_undo : exists us r, undo_stack n = us ++ r /\ r `prefix_of` older_states
    /\ length us = length l1 /\ List.last us (st n) = fork_state
    /\ history make_id (st n) us (reverse (map data l1))
    /\ forall i s x, (st n :: us) !! i = Some s -> reverse l1 !! i = Some x -> head_id s = id x;
  ap_head : _head (_fork_db n) = Some (List.last fl x0);
  ap_sub : sub_db db0 (_fork_db n);
  ap_keep : forall x, x ∈ _index db0 -> num p <= num x -> x ∈ _index (_fork_db n) }.

(** The undo database keeps the states of the new branch. *)
Definition roomy (l1 : list (fork_item Sum Tx)) (n : node S Sum Tx) : Prop :=
  l1 = [] \/ Z.of_nat (length l1) <= undo_max_size n.

Lemma last_first_num : num (List.last fl x0) = num p + 1.
Proof.
  destruct p_in as [_ ->]. pose proof (br_len _ _ _ _ _ _ Hbr) as E.
  assert (Hk : first !! length fl = Some (List.last fl x0)).
  { rewrite <- (last_cons_default x0 fl x0). rewrite (app_removelast_last (l := first) x0) at 1 by done.
    rewrite last_cons_default. apply list_lookup_middle.
    pose proof (f_equal length (app_removelast_last (l := first) x0 ltac:(done))) as Hl.
    rewrite length_app in Hl. cbn [length] in Hl. lia. }
  apply (ch_index _ _ _ (br_first _ _ _ _ _ _ Hbr)) in Hk as [_ ->]. cbn in E |- *. lia.
Qed.

Lemma sized_keeps z n l1 r b s : applied l1 n -> apply_block b s = (r, z) ->
  _head (sized z (_fork_db n)) = Some (List.last fl x0) /\ sub_db db0 (sized z (_fork_db n))
  /\ forall x, x ∈ _index db0 -> num p <= num x -> x ∈ _index (sized z (_fork_db n)).
Proof.
  intros [_ _ Hh Hs Hk] Ha. destruct z as [z|]; [|done]. cbn [sized].
  rewrite set_max_size_head. split; [done|]. split; [etrans; [done|apply sub_set_max_size]|].
  intros x Hx Hn. eapply max_size_keeps; [done|by apply Hk| |apply (indexed x Hx)].
  rewrite last_first_num. destruct (apply_size _ _ _ _ Ha). lia.
Qed.

Lemma take_roomy l1 n us r : roomy l1 n -> length us = length l1 -> undo_stack n = us ++ r ->
  r `prefix_of` older_states ->
  exists r', take (Z.to_nat (undo_max_size n)) (undo_stack n) = us ++ r' /\ r' `prefix_of` older_states.
Proof.
  intros Hr Hl Eu Hp. rewrite Eu. destruct Hr as [-> |Hr].
  - destruct us; [|done]. eexists. split; [done|]. etrans; [apply prefix_take|done].
  - rewrite take_app_ge by lia. eexists. split; [done|]. etrans; [apply prefix_take|done].
Qed.

Lemma failed_keeps l1 n i b e z : applied l1 n -> roomy l1 n -> apply_block b (st n) = (Err e, z) ->
  exists n', apply_and_store make_id pack i b n = (Err e, n') /\ applied l1 n'.
Proof.
  intros Ha Hr Hb. destruct (apply_and_store_err make_id pack i b n e z Hb) as (n' & E & Es & Eu & Ef).
  exists n'. split; [done|]. destruct (sized_keeps _ _ _ _ _ _ Ha Hb) as (K1 & K2 & K3).
  destruct Ha as [Hrep (us & r & Eus & Hpre & Hl & Hlast & Hhis & Hid) _ _ _].
  destruct (take_roomy _ _ _ _ Hr Hl Eus Hpre) as (r' & Er & Hpre').
  split; rewrite ?Es, ?Ef; try done. exists us, r'. rewrite Eu. by split_and!.
Qed.

Lemma replay_snoc s l b s1 s2 z : replay s l = Some s1 -> apply_block b s1 = (Ok s2, z) ->
  replay s (l ++ [b]) = Some s2.
Proof.
  revert s. induction l as [|c l IH]; intros s; cbn [replay app]; [intros [= ->] ->; done|].
  destruct (apply_block c s) as [[s'|] ?]; [apply IH|done].
Qed.

Variable new_id : block_id_type.

Lemma apply_next l1 it n s' z : it ∈ first -> applied l1 n -> roomy l1 n ->
  apply_block (data it) (st n) = (Ok s', Some z) -> Z.of_nat (length l1) + 1 <= z ->
  numbered (st n) ->
  exists n', apply_and_store make_id pack (id it) (data it) n = (Ok tt, n')
    /\ applied (l1 ++ [it]) n' /\ roomy (l1 ++ [it]) n' /\ numbered (st n').
Proof.
  intros Hit Ha Hr Hb Hz Hnum.
  destruct (apply_and_store_ok make_id pack (id it) (data it) n s' z Hb) as (n' & E & Es & Eu & Em & Ef).
  exists n'. split; [done|]. destruct (sized_keeps _ _ _ _ _ _ Ha Hb) as (K1 & K2 & K3).
  destruct Ha as [Hrep (us & r & Eus & Hpre & Hl & Hlast & Hhis & Hid) _ _ _].
  destruct (take_roomy _ _ _ _ Hr Hl Eus Hpre) as (r' & Er & Hpre').
  assert (Hin : it ∈ _index db0) by (apply in_branches, elem_of_app; by left).
  pose proof (br_own _ _ _ _ _ _ Hbr it Hin) as Hown.
  destruct (apply_moves_head _ _ _ _ Hb) as [Hh _].
  split; [split|split; [right; rewrite length_app, Em; cbn; lia|]].
  - rewrite map_app. rewrite Es. by eapply replay_snoc.
  - exists (st n :: us), r'. rewrite Eu, Er, Es. split; [done|]. split; [done|].
    split; [rewrite length_app; cbn; lia|]. split; [by rewrite last_cons_default|].
    rewrite map_app. cbn [map]. rewrite !reverse_snoc. split; [cbn; split_and!; [done|done|by exists z|done]|].
    intros [|i] s x Hs Hx; cbn in Hs, Hx; [|by apply (Hid i)].
    injection Hs as <-. injection Hx as <-. rewrite Hh. by destruct (indexed it Hin) as (_ & ? & _).
  - by rewrite Ef.
  - by rewrite Ef.
  - by rewrite Ef.
  - rewrite Es. by eapply own_numbered.
Qed.

Lemma rev_first_num i x : reverse first !! i = Some x -> x ∈ first /\ num x = num p + 1 + Z.of_nat i.
Proof.
  intros Hx. pose proof (lookup_lt_Some _ _ _ Hx) as Hi. rewrite length_reverse in Hi.
  rewrite reverse_lookup in Hx by done. split; [by apply list_elem_of_lookup_2 in Hx|].
  apply (ch_index _ _ _ (br_first _ _ _ _ _ _ Hbr)) in Hx as [_ ->]. destruct p_in as [_ ->].
  rewrite (br_len _ _ _ _ _ _ Hbr) in *. lia.
Qed.

Lemma branch_order (l1 l2 : list (fork_item Sum Tx)) x y : reverse first = l1 ++ l2 -> x ∈ l1 -> y ∈ l2 ->
  x ∈ first /\ y ∈ first /\ num p < num x < num y.
Proof.
  intros E [i Hi]%list_elem_of_lookup [j Hj]%list_elem_of_lookup.
  destruct (rev_first_num i x) as [H1 H2]; [rewrite E; by apply lookup_app_l_Some|].
  destruct (rev_first_num (length l1 + j) y) as [H3 H4].
  { rewrite E, lookup_app_r by lia. by replace (length l1 + j - length l1)%nat with j by lia. }
  pose proof (lookup_lt_Some _ _ _ Hi). split_and!; [done|done|lia|lia].
Qed.

Lemma ids_differ (x y : fork_item Sum Tx) : x ∈ _index db0 -> y ∈ _index db0 -> num x <> num y -> id x <> block_id (data y).
Proof.
  intros Hx Hy Hn E. destruct (indexed x Hx) as (N1 & _). destruct (indexed y Hy) as (N2 & N3 & _).
  rewrite <- N3 in E. congruence.
Qed.

Lemma chained_take (db : fork_database Sum Tx) h l k : chained db h l -> chained db h (take k l).
Proof.
  intros [H1 H2]. split.
  - intros i x Hx. apply H1. by apply lookup_take_Some in Hx as [? _].
  - intros i x y Hx Hy. apply lookup_take_Some in Hx as [Hx _], Hy as [Hy _]. by apply (H2 i).
Qed.

Definition recovered (n : node S Sum Tx) : Prop :=
  st n = st n0 /\ undo_stack n `prefix_of` undo_stack n0 /\ sub_db db0 (_fork_db n)
  /\ (forall x, x ∈ _index (_fork_db n) -> id x <> block_id (data x0))
  /\ exists h, _head (_fork_db n) = Some h /\ h ∈ second ++ [p].

Lemma last_in {A} (l : list A) d : List.last l d ∈ d :: l.
Proof.
  revert d. induction l as [|x l IH]; intros d; [constructor|]. rewrite last_cons_default.
  specialize (IH x). apply elem_of_cons. right. exact IH.
Qed.

Lemma held_sub db h : sub_db db0 db -> h ∈ held db0 ->
  forall x, x ∈ held (with_head (Some h) db) -> x ∈ held db0.
Proof.
  intros Hs Hh x Hx. apply held_in in Hx. cbn in Hx. destruct Hx as [[= <-]|[Hx|Hx]]; [done| |].
  - by apply in_held, (sub_index _ _ Hs).
  - rewrite (sub_unlinked _ _ Hs) in Hx by apply Hbr. by apply elem_of_nil in Hx.
Qed.

Lemma rest_in_first l1 l2 y : reverse first = l1 ++ l2 -> y ∈ l1 \/ y ∈ l2 -> y ∈ first /\ y ∈ _index db0.
Proof.
  intros E Hy. assert (y ∈ first)
    by (rewrite <- (reverse_involutive first), elem_of_reverse, E, elem_of_app; done).
  split; [done|]. apply in_branches, elem_of_app. by left.
Qed.

(** Items below the failed block stay in the index. *)
Lemma stays l1 rest n x : reverse first = l1 ++ rest -> applied l1 n -> x ∈ _index db0 ->
  num p <= num x -> x = p \/ x ∈ l1 -> x ∈ _index (remove_items rest (_fork_db n)).
Proof.
  intros E Ha Hx Hn Hc. apply remove_items_index. split; [by apply (ap_keep _ _ Ha)|].
  intros y Hy. destruct (rest_in_first _ _ y E (or_intror Hy)) as [Hyf Hyi].
  apply ids_differ; [done..|]. destruct Hc as [-> |Hc].
  - apply first_num in Hyf. destruct p_in as [_ ->]. lia.
  - destruct (branch_order _ _ x y E Hc Hy) as (_ & _ & Ho). lia.
Qed.

Definition restarted (rest : list (fork_item Sum Tx)) (n : node S Sum Tx) : node S Sum Tx :=
  set_fork_db (with_head (Some y0) (remove_items rest (_fork_db n))) n.

Lemma recover_pops l1 rest n : reverse first = l1 ++ rest -> rest <> [] -> applied l1 n ->
  exists n' h, pop_blocks_to make_id unpack (first ++ second) (id p) (restarted rest n) = (Ok tt, n')
    /\ st n' = fork_state /\ undo_stack n' `prefix_of` older_states /\ h ∈ second ++ [p]
    /\ _fork_db n' = with_head (Some h) (remove_items rest (_fork_db n)).
Proof.
  intros Erev Hne Ha. pose proof Ha as [_ (us & r & Eus & Hpre & Hl & Hlast & _ & Hid) _ Hsub _].
  assert (Hlen : (length l1 <= length (sl ++ [p]))%nat).
  { pose proof (f_equal length Erev) as E. rewrite length_reverse, length_app in E.
    rewrite (br_len _ _ _ _ _ _ Hbr) in E. destruct rest; [done|]. rewrite length_app. cbn in *. lia. }
  destruct p_in as [Hp Hpn].
  destruct (pop_until_spec make_id unpack (held db0) (first ++ second) X_addr
    ltac:(intros x Hx; by apply in_held, in_branches) (id p) us (take (length l1) (sl ++ [p]))
    (length (undo_stack n)) (restarted rest n) y0 r) as (n2 & E2 & P2).
  - apply held_sub; [etrans; [exact Hsub|apply remove_items_sub]|].
    apply in_held, in_branches, elem_of_app. right. constructor.
  - done.
  - eapply chained_path.
    { apply (chained_take _ _ (y0 :: sl ++ [p]) (Datatypes.S (length l1))). apply (br_second _ _ _ _ _ _ Hbr). }
    intros y Hy. apply elem_of_take in Hy as (i & Hy & _). apply list_elem_of_lookup_2, elem_of_app in Hy as [Hy|Hy].
    + left. apply elem_of_app. right. by constructor.
    + apply list_elem_of_singleton in Hy as ->. right. eapply stays; [done|done|done|done|by left].
  - rewrite length_take. lia.
  - exact Eus.
  - rewrite Eus, length_app. lia.
  - intros s (i & Hi & Hs)%removelast_lookup. cbn [length] in Hi.
    destruct (lookup_lt_is_Some_2 (reverse l1) i) as [x Hx]; [rewrite length_reverse; lia|].
    rewrite (Hid i s x Hs Hx). apply list_elem_of_lookup_2 in Hx. rewrite elem_of_reverse in Hx.
    destruct (rest_in_first _ _ x Erev (or_introl Hx)) as [Hxf Hxi]. pose proof (first_num x Hxf) as Hxn.
    split.
    + intros E. destruct (indexed x Hxi) as [N1 _]. destruct (indexed p Hp) as [N2 _]. rewrite E in N1. lia.
    + exists x. split; [|done]. eapply stays; [done|done|done|lia|by right].
  - change (st (restarted rest n)) with (st n). rewrite Hlast. apply fork_state_head.
  - destruct P2 as (Q1 & Q2 & _ & _ & Q5). exists n2. eexists. split; [exact E2|].
    split; [by rewrite Q1|]. split; [by rewrite Q2|]. split; [|exact Q5].
    pose proof (last_in (take (length l1) (sl ++ [p])) y0) as Hin.
    apply elem_of_cons in Hin as [->|Hin]; [constructor|].
    apply elem_of_take in Hin as (i & Hin & _). apply elem_of_cons. right. by apply list_elem_of_lookup_2 in Hin.
Qed.

Lemma recover_spec l1 it l2 n : reverse first = l1 ++ it :: l2 -> applied l1 n ->
  exists n', recover make_id pack unpack new_id first second (it :: l2) (id p) n = (Ok tt, n')
    /\ recovered n'.
Proof.
  intros Erev Ha.
  assert (Hx0 : x0 ∈ it :: l2).
  { assert (E : list.last (reverse first) = Some x0) by (by rewrite last_reverse).
    rewrite Erev, last_app_cons in E. by apply last_Some_elem_of in E. }
  destruct (recover_pops l1 (it :: l2) n Erev ltac:(done) Ha) as (n2 & h & E2 & Es2 & Eu2 & Hh2 & Ef2).
  destruct (restore_good_spec make_id pack new_id second (st n0) fork_states older_states n2
    (take (length second) bs)) as (n3 & E3 & Es3 & Eu3 & Eh3 & Hs3);
    [by apply history_take|by rewrite second_blocks|by rewrite Es2|done|].
  exists n3. unfold recover, restarted in *. unfold bind, modify, lift. cbn [head get_or].
  change (set_fork_db (set_head (Some y0) (_fork_db (set_fork_db (remove_items (it :: l2) (_fork_db n)) n)))
    (set_fork_db (remove_items (it :: l2) (_fork_db n)) n)) with
    (set_fork_db (with_head (Some y0) (remove_items (it :: l2) (_fork_db n))) n).
  rewrite E2. split; [exact E3|]. split; [done|]. split; [by rewrite undo_split|]. rewrite Ef2 in *. split_and!.
  - etrans; [|exact Hs3]. etrans; [apply (ap_sub _ _ Ha)|]. etrans; [apply remove_items_sub|apply sub_with_head].
  - intros x Hx. apply (sub_index _ _ Hs3) in Hx. rewrite with_head_index in Hx.
    apply remove_items_index in Hx as [_ Hx]. by apply Hx.
  - rewrite Eh3. by exists h.
Qed.

(** The undo database never forgets a state of the branch being applied. *)
Hypothesis Hsizes : forall l1 it l2 s s' z, reverse first = l1 ++ it :: l2 ->
  replay fork_state (map data l1) = Some s -> apply_block (data it) s = (Ok s', Some z) ->
  Z.of_nat (length l1) + 1 <= z.

Definition switched (r : result unit) (n : node S Sum Tx) : Prop :=
  match r with
  | Ok _ => applied (reverse first) n /\ numbered (st n)
  | Err undefined_behaviour => True
  | Err _ => recovered n
  end.

Lemma push_branch_spec l : forall l1 n, reverse first = l1 ++ l -> applied l1 n -> roomy l1 n ->
  numbered (st n) ->
  exists r n', push_branch make_id pack unpack new_id first second (id p) l n = (r, n') /\ switched r n'.
Proof.
  induction l as [|it l IH]; intros l1 n E Ha Hr Hn; cbn [push_branch].
  - exists (Ok tt), n. rewrite app_nil_r in E. split; [done|]. by rewrite <- E in Ha.
  - unfold bind at 1, try_catch. destruct (apply_block (data it) (st n)) as [[s'|e] z] eqn:Eb.
    + destruct (apply_sized _ _ _ _ Eb) as [k ->].
      destruct (apply_next l1 it n s' k) as (n1 & E1 & Ha1 & Hr1 & Hn1); try done.
      * apply (rest_in_first l1 (it :: l) it E). right. constructor.
      * eapply Hsizes; [done|apply (ap_replay _ _ Ha)|done].
      * rewrite E1. apply (IH (l1 ++ [it])); [by rewrite <- app_assoc|done..].
    + destruct (failed_keeps l1 n (id it) (data it) e z Ha Hr Eb) as (n1 & E1 & Ha1). rewrite E1.
      destruct (recover_spec l1 it l n1 E Ha1) as (n2 & E2 & Hrec).
      destruct (decide (e = undefined_behaviour)) as [->|Hne].
      * by exists (Err undefined_behaviour), n1.
      * exists (Err e), n2. unfold bind, throw. rewrite E2. destruct e; by split.
Qed.

Lemma fork_state_numbered : numbered fork_state.
Proof.
  pose proof fork_state_lookup as H. cbn [length] in H.
  change ((st n0 :: undo_stack n0) !! Datatypes.S (length sl)) with (undo_stack n0 !! length sl) in H.
  revert H Hhist. generalize (undo_stack n0) (st n0) bs fork_state. clear.
  generalize (length sl). intros k u. revert k. induction u as [|s u IH]; intros k s0 b s1 Hs Hh; [done|].
  destruct b as [|b bs]; [done|]. destruct Hh as (_ & Hn & _ & Hh).
  destruct k; [by injection Hs as <-|]. by eapply IH.
Qed.

Lemma switch_fork_spec :
  fetch_branch_from (block_id (data x0)) (head_id (st n0)) db0 = Ok (first, second) ->
  exists r n', switch_fork make_id pack unpack new_id x0 n0 = (r, n') /\ switched r n'.
Proof.
  intros Hf. unfold switch_fork. unfold bind at 1. rewrite Hf. destruct last_second as [El Ep].
  unfold bind at 1, lift. rewrite El. cbn [get_or]. rewrite Ep.
  destruct pop_old_branch as (n1 & E1 & P1). unfold bind. rewrite E1.
  destruct P1 as (Q1 & Q2 & Q3 & Q4 & Q5).
  apply (push_branch_spec _ [] n1); [done| |by left|rewrite Q1; apply fork_state_numbered].
  split; cbn [map replay]; rewrite ?Q1; [done| |by rewrite Q5|rewrite Q5; apply sub_with_head|].
  - exists [], older_states. rewrite Q2. split_and!; try done.
  - intros x Hx _. by rewrite Q5.
Qed.
End Switch.

(** ** The invariant of a node *)

Section Invariant.
Context {S Sum Tx : Type} `{!ChainOps S Sum Tx} `{!ChainLaws S Sum Tx}.
Variable make_id : signed_block Sum Tx -> block_id_type.
Variable pack : signed_block Sum Tx -> list Z.
Variable unpack : list Z -> option (signed_block Sum Tx).
Hypothesis id_number : forall b : signed_block Sum Tx, num_from_id (make_id b) = block_num b.

(** The fork tree is well formed and no higher than the head, the head of the fork
    database is at most one block ahead, and the saved states are the history of
    the current one. *)
Record node_ok (n : node S Sum Tx) : Prop := {
  no_wf : wf (_fork_db n);
  no_numbered : numbered (st n);
  no_history : exists bs, saved_history make_id n bs;
  no_index : forall x, x ∈ _index (_fork_db n) -> own_id make_id (data x) /\ num x <= head_num (st n);
  no_head : forall h, _head (_fork_db n) = Some h ->
    num h <= head_num (st n) \/ previous (data h) = head_id (st n) }.

(** Before a block is applied on the head: only that block may be above it. *)
Record head_ready (b : signed_block Sum Tx) (n : node S Sum Tx) : Prop := {
  hr_wf : wf (_fork_db n);
  hr_numbered : numbered (st n);
  hr_history : exists bs, saved_history make_id n bs;
  hr_index : forall x, x ∈ _index (_fork_db n) ->
    own_id make_id (data x) /\ (num x <= head_num (st n) \/ data x = b);
  hr_head : forall h, _head (_fork_db n) = Some h ->
    num h <= head_num (st n) \/ previous (data h) = head_id (st n) }.

Lemma sub_wf (db db' : fork_database Sum Tx) : wf db -> sub_db db db' -> (forall h, _head db' = Some h -> h ∈ held db) -> wf db'.
Proof.
  intros Hwf Hs Hh. eapply wf_shrink; [done| | | |].
  - apply Hs, Hwf.
  - by rewrite (sub_next _ _ Hs).
  - apply Hs, Hwf.
  - intros x Hx. apply held_in in Hx as [Hx|[Hx|Hx]]; [by apply Hh| |].
    + apply held_in. right. left. by apply Hs.
    + rewrite (sub_unlinked _ _ Hs) in Hx by apply Hwf. by apply elem_of_nil in Hx.
Qed.

Lemma numbered_next b s s' z : numbered s -> head_num s + 2 < uint32_mod -> 0 <= head_num s ->
  apply_block b s = (Ok s', z) -> head_num s' = head_num s + 1.
Proof.
  intros Hn Hr H0 H. destruct (apply_moves_head _ _ _ _ H) as [_ ->]. unfold block_num.
  rewrite (apply_on_head _ _ _ _ H), <- Hn, wrap32_small by lia. done.
Qed.

Definition pushed_on_head (b : signed_block Sum Tx) (n : node S Sum Tx) (r : result bool)
    (n' : node S Sum Tx) : Prop :=
  match r with
  | Ok _ => r = Ok false /\ (exists z, apply_block b (st n) = (Ok (st n'), z)) /\ node_ok n'
  | Err undefined_behaviour => True
  | Err _ => st n' = st n /\ undo_stack n' `prefix_of` undo_stack n /\ node_ok n'
  end.

Lemma push_on_head_spec b n : own_id make_id b -> head_ready b n ->
  0 <= head_num (st n) -> head_num (st n) + 2 < uint32_mod ->
  exists r n', push_on_head make_id pack b n = (r, n') /\ pushed_on_head b n r n'.
Proof.
  intros Hb [Hwf Hnum (bs & Hh & Hco) Hi Hhd] H0 Hroom. unfold push_on_head, bind, try_catch.
  destruct (apply_block b (st n)) as [[s'|e] z] eqn:E.
  - destruct (apply_sized _ _ _ _ E) as [k ->].
    destruct (apply_and_store_ok make_id pack (block_id b) b n s' k E) as (n' & -> & Es & Eu & _ & Ef).
    pose proof (numbered_next _ _ _ _ Hnum Hroom H0 E) as Hnx.
    destruct (apply_moves_head _ _ _ _ E) as [_ Hbn]. pose proof (apply_on_head _ _ _ _ E) as Hprev.
    exists (Ok false), n'. split; [done|]. split; [done|]. rewrite Es. split; [by exists (Some k)|].
    split; rewrite ?Es, ?Eu, ?Ef.
    + eapply sub_wf; [done|apply sub_set_max_size|]. intros h. rewrite set_max_size_head.
      intros Hx. apply held_in. auto.
    + by eapply own_numbered.
    + destruct (history_prefix make_id (st n) (undo_stack n) (take (Z.to_nat (undo_max_size n)) (undo_stack n)) bs Hh)
        as (bs' & Hbs' & Hpre); [apply prefix_take|]. exists (b :: bs'). split; rewrite ?Es, ?Eu, ?Ef.
      { cbn. split_and!; [done|done|by exists k|done]. }
      intros x c Hx Hc Ec. apply (sub_index _ _ (sub_set_max_size k (_fork_db n))) in Hx.
      apply elem_of_cons in Hc as [->|Hc]; [|apply Hco; [done|by eapply prefix_elem|done]].
      destruct (Hi x Hx) as [Hxo [Hxn|Hxb]]; [|done].
      destruct (ok_data _ _ (wf_items _ Hwf) x) as (_ & Nx & Ex); [apply held_in; auto|].
      rewrite Nx, <- (same_id_same_num make_id id_number b (data x)) in Hxn by (done || congruence). lia.
    + intros x Hx. apply (sub_index _ _ (sub_set_max_size k (_fork_db n))) in Hx. destruct (Hi x Hx) as [Hxo Hxn].
      split; [done|]. destruct Hxn as [?|Hxid]; [lia|].
      destruct (ok_data _ _ (wf_items _ Hwf) x) as (_ & -> & _); [apply held_in; auto|].
      rewrite Hxid. lia.
    + intros h. rewrite set_max_size_head. intros Hx. left. destruct (Hhd h Hx) as [?|Hp]; [lia|].
      destruct (ok_data _ _ (wf_items _ Hwf) h) as (_ & -> & _); [apply held_in; auto|].
      rewrite Hbn. unfold block_num. rewrite Hp, Hprev. lia.
  - destruct (apply_and_store_err make_id pack (block_id b) b n e z E) as (n' & -> & Es & Eu & Ef).
    assert (Hsub : sub_db (_fork_db n) (_fork_db n'))
      by (rewrite Ef; destruct z; [apply sub_set_max_size|done]).
    assert (Ehd : _head (_fork_db n') = _head (_fork_db n))
      by (rewrite Ef; destruct z; [apply set_max_size_head|done]).
    assert (Hend : let n2 := set_fork_db (ForkDb.remove (block_id b) (_fork_db n')) n' in
      st n2 = st n /\ undo_stack n2 `prefix_of` undo_stack n /\ node_ok n2).
    { cbn. split; [done|]. split; [rewrite Eu; apply prefix_take|]. split; cbn [st undo_stack _fork_db set_fork_db];
        rewrite ?Es, ?Eu.
      - eapply sub_wf; [done|etrans; [exact Hsub|apply sub_remove]|]. cbn. rewrite Ehd. intros h Hx. apply held_in. auto.
      - done.
      - edestruct (history_prefix make_id) as (bs' & Hbs' & Hpre); [exact Hh|apply prefix_take|].
        exists bs'. split; cbn [st undo_stack _fork_db set_fork_db]; rewrite ?Es, ?Eu; [done|].
        eapply coherent_sub; [exact Hco|intros c; by eapply prefix_elem|].
        intros x Hx. cbn in Hx. apply list_elem_of_filter in Hx as [_ Hx]. by apply Hsub.
      - intros x Hx. cbn in Hx. apply list_elem_of_filter in Hx as [Hne Hx]. apply Hsub in Hx.
        destruct (Hi x Hx) as [Hxo [?|Hxb]]; [done|].
        destruct (ok_data _ _ (wf_items _ Hwf) x) as (_ & _ & Exid); [apply held_in; auto|]. congruence.
      - cbn. rewrite Ehd. exact Hhd. }
    destruct (decide (e = undefined_behaviour)) as [->|Hne]; [by exists (Err undefined_behaviour), n'|].
    exists (Err e). eexists. unfold modify, throw. cbv beta iota. destruct e; (split; [reflexivity|exact Hend]) || done.
Qed.

Definition undo_keeps (s0 : S) (fi : list (fork_item Sum Tx)) : Prop :=
  forall l1 it l2 s s' z, reverse fi = l1 ++ it :: l2 -> replay s0 (map data l1) = Some s ->
    apply_block (data it) s = (Ok s', Some z) -> Z.of_nat (length l1) + 1 <= z.

(** When the block leads to a switch, the fork point is still known: its block is in
    the fork database, its state in the undo database, and neither is dropped while
    the new branch is applied. *)
Definition fork_point_kept (b : signed_block Sum Tx) (n : node S Sum Tx) : Prop :=
  forall hd db, ForkDb.push_block b (_fork_db n) = Ok (Some hd, db) ->
    previous (data hd) <> head_id (st n) -> block_num (data hd) > head_num (st n) ->
    exists fi se y p s0, fetch_branch_from (block_id (data hd)) (head_id (st n)) db = Ok (fi, se)
      /\ list.last se = Some y /\ lock db (prev y) = Some p
      /\ undo_stack n !! pred (length se) = Some s0 /\ undo_keeps s0 fi.

(** A block that is pushed under the id of a block of the saved states after the fork
    database has dropped that id is the same block.  (While the fork database holds
    the id, another block under it is simply not taken in.) *)
Definition unaltered (b : signed_block Sum Tx) (n : node S Sum Tx) : Prop :=
  forall bs b', saved_history make_id n bs -> b' ∈ bs -> block_id b' = block_id b ->
    ~ in_index (_fork_db n) (block_id b) -> b' = b.

Lemma new_id_unaltered b n : (forall s, s ∈ st n :: undo_stack n -> head_id s <> block_id b) -> unaltered b n.
Proof.
  intros H bs b' [Hh _] Hb E. destruct (history_ids make_id _ _ _ _ Hh Hb) as (s & Hs & Es).
  destruct (H s Hs). congruence.
Qed.

Lemma pushed_coherent b n hd db bs : own_id make_id b -> unaltered b n -> saved_history make_id n bs ->
  ForkDb.push_block b (_fork_db n) = Ok (Some hd, db) -> coherent bs db.
Proof.
  intros Hown Hun Hs Ep x c Hx Hc Ec. pose proof Hs as [_ Hco].
  destruct (push_block_shape _ _ _ _ Ep) as (hd' & it & _ & _ & _ & _ & Id & _ & Ii & _ & Hindex).
  destruct (Hindex x Hx) as [->|Hold]; [|by apply Hco].
  destruct (decide (Exists (fun y => id y = block_id b) (_index (_fork_db n)))) as [Hin|Hnin].
  - apply Exists_exists in Hin as (y & Hy & Ey). apply Hco; [|done|done].
    by eapply push_block_known.
  - rewrite Id. apply (Hun bs); [done|done|congruence|]. intros (y & Hy & Ey). apply Hnin, Exists_exists. eauto.
Qed.

(** The state after a switch: the new branch applied to the state of the fork point. *)
Definition switched_to (b : signed_block Sum Tx) (n n' : node S Sum Tx) : Prop :=
  exists s0 l, s0 ∈ undo_stack n /\ replay s0 (l ++ [b]) = Some (st n')
    /\ head_num (st n') = head_num (st n) + 1.

Definition push_result (b : signed_block Sum Tx) (n : node S Sum Tx) (r : result bool)
    (n' : node S Sum Tx) : Prop :=
  match r with
  | Ok true => switched_to b n n' /\ node_ok n'
  | Ok false =>
      ((st n' = st n /\ undo_stack n' = undo_stack n)
       \/ exists z, apply_block b (st n) = (Ok (st n'), z)) /\ node_ok n'
  | Err undefined_behaviour => True
  | Err _ => st n' = st n /\ undo_stack n' `prefix_of` undo_stack n /\ node_ok n'
  end.

Lemma push_on_head_result b n n1 r n' : st n1 = st n -> undo_stack n1 = undo_stack n ->
  pushed_on_head b n1 r n' -> push_result b n r n'.
Proof.
  intros Es Eu. unfold pushed_on_head, push_result. rewrite Es, Eu.
  destruct r as [[]|[]]; try done; intros (H1 & H2 & H3); [done|]. split; [by right|done].
Qed.

Lemma fork_states_last (n : node S Sum Tx) (se : list (fork_item Sum Tx)) s0 y sl : se = y :: sl ->
  undo_stack n !! pred (length se) = Some s0 ->
  (length se <= length (undo_stack n))%nat /\ List.last (take (length se) (undo_stack n)) (st n) = s0.
Proof.
  intros -> H. cbn [length pred] in *. pose proof (lookup_lt_Some _ _ _ H). split; [lia|].
  rewrite (take_S_r _ _ _ H). apply List.last_last.
Qed.

Lemma found_new n b db it fi se : node_ok n -> wf db -> own_id make_id b ->
  (forall x, x ∈ _index db -> x = it \/ x ∈ _index (_fork_db n)) -> block_num b > head_num (st n) ->
  fetch_branch_from (block_id b) (head_id (st n)) db = Ok (fi, se) -> it ∈ _index db.
Proof.
  intros Hok Hwf Hown Hindex Hhigh Hf. unfold fetch_branch_from, fetch_branch_fuel in Hf.
  destruct (find_id (block_id b) (_index db)) as [a|] eqn:Ea; [|done].
  apply find_id_spec in Ea as [Ea Eida]. destruct (Hindex a Ea) as [->|Hold]; [done|].
  exfalso. destruct (no_index _ Hok a Hold) as [Ho Hle].
  destruct (ok_data _ _ (wf_items _ Hwf) a) as (_ & Na & Ia'); [apply held_in; auto|].
  rewrite (same_id_same_num make_id id_number (data a) b Ho Hown) in Na by congruence. lia.
Qed.

Lemma ignored_ok n b hd db : node_ok n -> own_id make_id b -> unaltered b n ->
  ForkDb.push_block b (_fork_db n) = Ok (Some hd, db) -> wf db ->
  block_num (data hd) <= head_num (st n) -> node_ok (set_fork_db db n).
Proof.
  intros Hok Hown Hun Ep Hwf Hlow.
  destruct (push_block_shape _ _ _ _ Ep) as (hd' & it & [= <-] & Hhead & _ & _ & Id & In & _ & Hhd & Hindex).
  destruct (ok_data _ _ (wf_items _ Hwf) hd) as (_ & Nhd & _); [apply held_in; auto|].
  split; cbn [st _fork_db undo_stack set_fork_db]; [done|apply Hok| | |].
  - destruct (no_history _ Hok) as (bs & Hs). exists bs. split; [apply Hs|]. by eapply pushed_coherent.
  - intros x [->|Hx]%Hindex; [|by apply (no_index _ Hok)]. rewrite Id. split; [done|].
    destruct Hhd as [-> |Hold]; [lia|].
    pose proof (push_item_ok b (_fork_db n) db) as Hpi. unfold ForkDb.push_block in Ep.
    apply rbind_ok in Ep as (db1 & Ep & [= _ ->]). destruct (Hpi Ep) as (hd' & Eh1 & _ & _ & Hgt & _).
    destruct (decide (block_num b <= num hd)); [lia|]. destruct (Hgt hd Hold) as (_ & Hn' & _); [lia|].
    rewrite Hhead in Eh1. injection Eh1 as <-. lia.
  - intros h Hx. rewrite Hhead in Hx. injection Hx as <-. left. lia.
Qed.

Section Pushed.
Variables (n : node S Sum Tx) (b : signed_block Sum Tx) (db : fork_database Sum Tx).
Variable it : fork_item Sum Tx.
Hypothesis Hok : node_ok n.
Hypothesis Hroom : head_num (st n) + 2 < uint32_mod.
Hypothesis Hwf : wf db.
Hypothesis Hown : own_id make_id b.
Hypothesis Hit : addr it = next_addr (_fork_db n) /\ data it = b /\ num it = block_num b /\ id it = block_id b.
Hypothesis Hnext : next_addr db = Datatypes.S (next_addr (_fork_db n)).
Hypothesis Hhead : _head db = Some it.
Hypothesis Hindex : forall x, x ∈ _index db -> x = it \/ x ∈ _index (_fork_db n).
Hypothesis Hhigh : block_num b > head_num (st n).
Hypothesis Hin : it ∈ _index db.

Lemma pushed_own x : x ∈ _index db -> own_id make_id (data x).
Proof.
  intros [->|Hx]%Hindex; [destruct Hit as (_ & -> & _); exact Hown|]. by apply (no_index _ Hok).
Qed.

Lemma pushed_held x : x ∈ held db -> x ∈ _index db.
Proof.
  rewrite held_in, (wf_unlinked _ Hwf), Hhead. intros [[= <-]|[?|[]%elem_of_nil]]; done.
Qed.

(** Anything a pointer leads to is older than the new block. *)
Lemma pushed_older x y : x ∈ held db -> lock db (prev x) = Some y -> y ∈ _index (_fork_db n).
Proof.
  intros Hx Hl. pose proof (prev_older _ _ _ Hwf Hx Hl) as Ha. apply lock_spec in Hl as [_ Hy].
  apply pushed_held, Hindex in Hy as [->|Hy]; [|done].
  pose proof (held_addr _ _ Hwf Hx). destruct Hit as [E _]. lia.
Qed.

Lemma linked_chained l : forall x h, linked db (x :: l) -> (forall y, y ∈ x :: l -> y ∈ held db) -> num x = h ->
  chained db h (x :: l).
Proof.
  induction l as [|y l IH]; intros x h Hl Hh Hx.
  - split; [|done]. intros [|k] z Hz; [|done]. injection Hz as <-.
    split; [apply pushed_held, Hh; constructor|cbn; lia].
  - destruct Hl as [Hxy Hl].
    assert (Hxh : x ∈ held db) by (apply Hh; constructor).
    pose proof (pushed_older x y Hxh Hxy) as Hyo. destruct (no_index _ Hok y Hyo) as [Hyown Hyn].
    pose proof (lock_spec _ _ _ Hxy) as [Hp Hyh].
    assert (Hid : id y = previous (data x)) by (by eapply (ok_prev _ _ (wf_items _ Hwf))).
    destruct (ok_data _ _ (wf_items _ Hwf) x Hxh) as (_ & Nx & _).
    destruct (item_num make_id id_number db y Hwf pushed_own (pushed_held _ Hyh)) as (Ny & _ & Hb).
    assert (Hnum : num x = num y + 1).
    { rewrite Nx. unfold block_num. rewrite <- Hid, <- Ny, wrap32_small by lia. done. }
    destruct (IH y (h - 1) Hl (fun z Hz => Hh z (proj2 (elem_of_cons _ _ _) (or_intror Hz)))) as [C1 C2]; [lia|].
    split.
    + intros [|k] z Hz; cbn in Hz; [injection Hz as <-; split; [by apply pushed_held|lia]|].
      destruct (C1 k z Hz) as [? ->]. split; [done|lia].
    + intros [|k] w z Hw Hz; [|by apply (C2 k)]. cbn in Hw, Hz. injection Hw as <-. injection Hz as <-. by split.
Qed.

Lemma same_previous_num x y : x ∈ held db -> y ∈ held db -> previous (data x) = previous (data y) ->
  num x = num y.
Proof.
  intros Hx Hy E. destruct (ok_data _ _ (wf_items _ Hwf) x Hx) as (_ & -> & _).
  destruct (ok_data _ _ (wf_items _ Hwf) y Hy) as (_ & -> & _). unfold block_num. by rewrite E.
Qed.

Lemma fetched_branches fi se y p :
  fetch_branch_from (block_id b) (head_id (st n)) db = Ok (fi, se) ->
  list.last se = Some y -> lock db (prev y) = Some p ->
  exists fl y0 sl, fi = it :: fl /\ se = y0 :: sl /\ branches make_id db (st n) fi se p.
Proof.
  intros Hf Hl Hp. destruct (fetch_branch_walks _ _ _ _ _ Hwf Hf)
    as (a & c & qa & qb & a' & c' & Fa & Fc & -> & -> & (La & Ha & Ia) & (Lc & Hc & Ic) & Hprev).
  rewrite last_snoc in Hl. injection Hl as <-.
  destruct Hit as (_ & Id & Inum & Iid). apply find_id_spec in Fa as [Fa Eida], Fc as [Fc Eidc].
  assert (a = it) as ->.
  { apply Hindex in Fa as [->|Fa]; [done|]. destruct (no_index _ Hok a Fa) as [Ho Hn].
    destruct (ok_data _ _ (wf_items _ (no_wf _ Hok)) a) as (_ & Na & Ea); [apply held_in; auto|].
    rewrite (same_id_same_num make_id id_number (data a) b Ho Hown) in Na by congruence. lia. }
  assert (Hnc : num c = head_num (st n)).
  { destruct (item_num make_id id_number db c Hwf pushed_own Fc) as (-> & _ & _). rewrite Eidc. symmetry. apply Hok. }
  destruct (qa ++ [a']) as [|x fl] eqn:Efi; [by destruct qa|]. injection Ha as ->.
  destruct (qb ++ [c']) as [|y0 sl] eqn:Ese; [by destruct qb|]. injection Hc as ->.
  pose proof (linked_chained fl it _ La Ia eq_refl) as Ca.
  assert (Cc : chained db (head_num (st n)) (c :: sl ++ [p])).
  { apply linked_chained; [|  |done].
    - pose proof (linked_snoc db qb c' p) as Hs. rewrite Ese in Hs. by apply Hs.
    - intros z. change (c :: sl ++ [p]) with ((c :: sl) ++ [p]). rewrite elem_of_app, list_elem_of_singleton.
      intros [Hz| ->]; [by apply Ic|]. by apply lock_spec in Hp as [_ ?]. }
  assert (Hla : (it :: fl) !! length qa = Some a') by (rewrite <- Efi; by apply list_lookup_middle).
  assert (Hlc : (c :: sl ++ [p]) !! length qb = Some c').
  { change (c :: sl ++ [p]) with ((c :: sl) ++ [p]). rewrite <- Ese, <- app_assoc. by apply list_lookup_middle. }
  pose proof (f_equal length Efi) as Hlen1. pose proof (f_equal length Ese) as Hlen2.
  rewrite length_app in Hlen1, Hlen2. cbn [length] in Hlen1, Hlen2.
  destruct (ch_index _ _ _ Ca _ _ Hla) as [Hai Han]. destruct (ch_index _ _ _ Cc _ _ Hlc) as [Hci Hcn].
  pose proof (same_previous_num a' c' ltac:(apply held_in; auto) ltac:(apply held_in; auto) Hprev) as Hsame.
  assert (HF : num it = head_num (st n) + 1).
  { destruct fl as [|z fl]; [cbn in Hlen1; assert (length qa = 0)%nat as Eq by lia; rewrite Eq in *; lia|].
    destruct (ch_index _ _ _ Ca 1%nat z eq_refl) as [_ Hz]. destruct La as [Lz _].
    pose proof (pushed_older it z ltac:(apply held_in; auto) Lz) as Hzo.
    destruct (no_index _ Hok z Hzo) as [_ Hzn]. lia. }
  exists fl, c, sl. do 2 (split; [done|]). split; [done| |by rewrite <- HF|exact Cc|done| |done|apply pushed_own].
  - cbn [length]. lia.
  - intros x Hx. cbn in Hx. by injection Hx as <-.
Qed.

(** The branches of a switch, and the state of the fork point. *)
Variables (fl sl : list (fork_item Sum Tx)) (y0 p : fork_item Sum Tx) (s0 : S).
Variable bs : list (signed_block Sum Tx).
Abbreviation n1 := (set_fork_db db n).
Hypothesis Hbr : branches make_id db (st n) (it :: fl) (y0 :: sl) p.
Hypothesis Hh : history make_id (st n) (undo_stack n) bs.
Hypothesis Hco : coherent bs db.
Hypothesis Hs0 : undo_stack n !! length sl = Some s0.

(** The blocks of the new branch are those of the index. *)
Lemma first_coherent x c : x ∈ _index db -> c ∈ reverse (map data (reverse (it :: fl))) ->
  block_id c = id x -> c = data x.
Proof.
  intros Hx Hc Ec. rewrite elem_of_reverse in Hc. apply list_elem_of_In, in_map_iff in Hc as (y & <- & Hy).
  apply list_elem_of_In in Hy. rewrite elem_of_reverse in Hy.
  pose proof (chained_in _ _ _ _ (br_first _ _ _ _ _ _ Hbr) Hy) as Hyi.
  destruct (ok_data _ _ (wf_items _ Hwf) y) as (_ & _ & Ey); [apply held_in; auto|].
  f_equal. eapply ids_unique; [apply Hwf|done|done|congruence].
Qed.

Lemma switch_success n' : numbered (st n') -> applied make_id n1 it y0 fl sl p (reverse (it :: fl)) n' ->
  switched_to b n n' /\ node_ok n'.
Proof.
  intros Hn' [Hrep (us & rr & Eus & Hpre & Hlen & Hlast & Hhis & Hid) Hhd Hsub _].
  destruct Hit as (_ & Id & Inum & Iid). destruct (fork_states_last n (y0 :: sl) s0 y0 sl eq_refl Hs0) as [Hd Hst].
  assert (Hhead' : head_id (st n') = block_id b).
  { rewrite <- Iid. apply (Hid 0%nat); [done|]. by rewrite reverse_involutive. }
  assert (Hnum' : head_num (st n') = block_num b).
  { rewrite Hn', Hhead'. unfold own_id in Hown. by rewrite Hown, id_number. }
  destruct (ch_index _ _ _ (br_first _ _ _ _ _ _ Hbr) 0%nat it eq_refl) as [_ Hitn].
  split.
  - exists s0, (map data (reverse fl)). split; [by apply list_elem_of_lookup_2 in Hs0|]. split; [|lia].
    rewrite reverse_cons, map_app in Hrep. cbn [map] in Hrep. rewrite Id in Hrep.
    rewrite <- Hst. exact Hrep.
  - split.
    + eapply sub_wf; [exact Hwf|exact Hsub|]. intros h Hx. rewrite Hhd in Hx. injection Hx as <-.
      apply held_in. right. left. eapply chained_in; [apply (br_first _ _ _ _ _ _ Hbr)|apply last_in].
    + exact Hn'.
    + pose proof (history_drop make_id (length (y0 :: sl)) _ _ _ Hh) as Hdrop.
      destruct (history_prefix make_id _ _ rr _ Hdrop Hpre) as (b2 & Hb2 & Hp2).
      eexists. split; [rewrite Eus; eapply history_app; [exact Hhis|exact Hlast|exact Hb2]|].
      intros x c Hx Hc Ec. apply Hsub in Hx. apply elem_of_app in Hc as [Hc|Hc].
      * by apply (first_coherent x).
      * apply Hco; [done| |done]. rewrite <- (take_drop (length (y0 :: sl)) bs), elem_of_app. right.
        by eapply prefix_elem.
    + intros x Hx. apply Hsub in Hx. split; [by apply (br_own _ _ _ _ _ _ Hbr)|].
      apply Hindex in Hx as [->|Hx]; [lia|]. apply (no_index _ Hok) in Hx. lia.
    + intros h Hx. left. rewrite Hhd in Hx. injection Hx as <-.
      pose proof (first_num make_id n1 it y0 fl sl p Hbr Hd (List.last fl it) (last_in fl it)) as Hlf.
      cbn in Hlf. lia.
Qed.

Lemma switch_failure n' : recovered n1 it y0 sl p n' ->
  st n' = st n /\ undo_stack n' `prefix_of` undo_stack n /\ node_ok n'.
Proof.
  intros (R1 & R2 & R3 & R4 & h & R5 & R6). destruct Hit as (_ & Id & _ & Iid).
  destruct (fork_states_last n (y0 :: sl) s0 y0 sl eq_refl Hs0) as [Hd _].
  split; [exact R1|]. split; [exact R2|].
  pose proof (second_num make_id n1 it y0 fl sl p Hbr Hd h R6) as Hhn. split.
  - eapply sub_wf; [exact Hwf|exact R3|]. intros h' Hx. rewrite R5 in Hx. injection Hx as <-.
    apply held_in. right. left. eapply chained_in; [apply (br_second _ _ _ _ _ _ Hbr)|exact R6].
  - rewrite R1. apply Hok.
  - destruct (history_prefix make_id _ _ _ _ Hh R2) as (bs' & Hb' & Hp'). exists bs'. split; [by rewrite R1|].
    eapply coherent_sub; [exact Hco|intros c; by eapply prefix_elem|apply R3].
  - intros x Hx. rewrite R1. pose proof (R4 x Hx) as Hne'. apply R3 in Hx.
    apply Hindex in Hx as [->|Hx]; [|by apply (no_index _ Hok)]. rewrite Id in Hne'. congruence.
  - intros h' Hx. left. rewrite R5 in Hx. injection Hx as <-. rewrite R1. cbn in Hhn |- *. lia.
Qed.

Lemma switch_result : undo_keeps s0 (it :: fl) ->
  fetch_branch_from (block_id b) (head_id (st n)) db = Ok (it :: fl, y0 :: sl) ->
  exists r n', switch_fork make_id pack unpack (block_id b) it n1 = (r, n')
    /\ push_result b n (rbind r (fun _ => Ok true)) n'.
Proof.
  intros Hkeep Hf. destruct (fork_states_last n (y0 :: sl) s0 y0 sl eq_refl Hs0) as [Hd Hst].
  destruct (switch_fork_spec make_id pack unpack id_number n1 it y0 fl sl p bs
    Hbr Hh Hco Hd (block_id b)) as (r & n' & E & Hsw).
  - intros l1 x l2 s s' z Er Hr Ha. eapply Hkeep; [exact Er| |exact Ha]. rewrite <- Hst. exact Hr.
  - destruct Hit as (_ & -> & _). exact Hf.
  - exists r, n'. split; [exact E|]. destruct r as [[]|e]; cbn [rbind switched push_result] in *.
    + destruct Hsw. by apply switch_success.
    + destruct (decide (e = undefined_behaviour)) as [->|Hne]; [done|].
      pose proof (switch_failure n' ltac:(by destruct e)). by destruct e.
Qed.
End Pushed.
End Invariant.

(** ** Runs of a node *)

Section Runs.
Context {S Sum Tx : Type} `{!ChainOps S Sum Tx} `{!ChainLaws S Sum Tx}.
Variable make_id : signed_block Sum Tx -> block_id_type.
Variable pack : signed_block Sum Tx -> list Z.
Variable unpack : list Z -> option (signed_block Sum Tx).
Variable skip_fork_db : bool.
Hypothesis Hnum : forall b : signed_block Sum Tx, num_from_id (make_id b) = block_num b.

Lemma push_block_ok (b : signed_block Sum Tx) (n : node S Sum Tx) : node_ok make_id n ->
  0 <= head_num (st n) -> head_num (st n) + 2 < uint32_mod -> fork_point_kept b n ->
  unaltered make_id b n ->
  exists r n', _push_block make_id pack unpack skip_fork_db b n = (r, n') /\ push_result make_id b n r n'.
Proof.
  intros Hok H0 Hroom Hkept Hun.
  unfold _push_block. unfold bind at 1, lift, fc_assert.
  destruct (bool_decide (block_id b = make_id b)) eqn:Eid; [|by exists (Err assert_exception), n].
  apply bool_decide_eq_true in Eid. destruct skip_fork_db.
  { destruct (push_on_head_spec make_id pack Hnum b n Eid) as (r & n' & E & Hr); [|done|done|].
    - destruct Hok as [? ? ? Hi ?]. split; try done. intros x Hx. destruct (Hi x Hx). auto.
    - exists r, n'. split; [exact E|]. by eapply push_on_head_result. }
  unfold bind at 1, fork_push. destruct (ForkDb.push_block b (_fork_db n)) as [[h db]|e] eqn:Ep.
  2:{ exists (Err e). eexists. split; [done|]. assert (Hgoal : node_ok make_id (set_fork_db (alloc (_fork_db n)) n)).
      { destruct Hok as [Hw ? ? ? ?]. split; try done. eapply step_wf; [exact Hw|apply step_refused]. }
      unfold push_result. by destruct e. }
  assert (Hwf : wf db) by (eapply step_wf; [apply Hok|by eapply step_push]).
  destruct (push_block_shape _ _ _ _ Ep) as (hd & it & -> & Hhead & Hnext & Ia & Id & In & Ii & Hhd & Hindex).
  cbn [get_or]. unfold bind at 1, get. change (st (set_fork_db db n)) with (st n).
  destruct (ok_data _ _ (wf_items _ Hwf) hd) as (_ & Nhd & Ihd); [apply held_in; auto|].
  case_bool_decide as Eprev.
  - destruct (block_num (data hd) >? head_num (st n)) eqn:Ehigh; bool_to_prop.
    + destruct (Hkept hd db Ep Eprev) as (fi & se & y & p & s0 & Hf & Hl & Hp & Hs & Hk); [lia|].
      assert (hd = it) as ->.
      { destruct Hhd as [|Hold]; [done|]. destruct (no_head _ _ Hok hd Hold) as [Hle|]; [|done]. lia. }
      rewrite Id in Hf, Ehigh. assert (Hhigh : block_num b > head_num (st n)) by lia.
      assert (Hin : it ∈ _index db) by (by eapply (found_new make_id Hnum n b db it)).
      destruct (fetched_branches make_id Hnum n b db it Hok Hroom Hwf Eid ltac:(done) Hnext Hhead Hindex
        Hhigh Hin fi se y p Hf Hl Hp) as (fl & y0 & sl & -> & -> & Hbr).
      destruct (no_history _ _ Hok) as [bs Hh].
      pose proof (pushed_coherent _ _ _ _ _ _ Eid Hun Hh Ep) as Hco.
      destruct (switch_result make_id pack unpack Hnum n b db it Hok Hwf Eid ltac:(done) Hnext Hindex
        fl sl y0 p s0 bs Hbr (proj1 Hh) Hco Hs Hk Hf) as (r & n' & E & Hr).
      unfold bind. rewrite E. destruct r as [[]|e]; eexists _, n'; by split.
    + exists (Ok false). eexists. split; [done|]. split; [by left|].
      eapply ignored_ok; [exact Hok|exact Eid|exact Hun|exact Ep|exact Hwf|exact Ehigh].
  - destruct (push_on_head_spec make_id pack Hnum b (set_fork_db db n) Eid) as (r & n' & E & Hr); [|done|done|].
    + split; cbn [st _fork_db undo_stack set_fork_db]; [done|apply Hok| | |].
      * destruct (no_history _ _ Hok) as (bs & Hs). exists bs. split; [apply Hs|]. by eapply pushed_coherent.
      * intros x [->|Hx]%Hindex; [rewrite Id; auto|]. destruct (no_index _ _ Hok x Hx). auto.
      * intros h Hx. rewrite Hhead in Hx. injection Hx as <-. by right.
    + exists r, n'. split; [exact E|]. by eapply (push_on_head_result make_id b n (set_fork_db db n)).
Qed.

(** A node that starts with a state and no blocks, and is given blocks. *)
Inductive run : node S Sum Tx -> Prop :=
| run_start s f : numbered s -> 0 <= head_num s ->
    run (mk_node s [] 0 empty_fork_db f [])
| run_push b n r n' : run n -> head_num (st n) + 2 < uint32_mod -> fork_point_kept b n ->
    unaltered make_id b n ->
    _push_block make_id pack unpack skip_fork_db b n = (r, n') -> r <> Err undefined_behaviour ->
    run n'.

Lemma run_ok n : run n -> node_ok make_id n /\ 0 <= head_num (st n).
Proof.
  induction 1 as [s f Hs H0|b n r n' _ [Hok H0] Hroom Hkept Hun E Hr].
  - split; [|done]. split; cbn; [apply reachable_wf, reach_init|done|by exists []; split; [|intros x b Hx%elem_of_nil]| |done].
    by intros x Hx%elem_of_nil.
  - destruct (push_block_ok b n Hok H0 Hroom Hkept Hun) as (r' & n2 & E' & Hres).
    rewrite E in E'. injection E' as <- <-. unfold push_result in Hres.
    assert (Hn : node_ok make_id n') by (destruct r as [[]|[]]; tauto). split; [done|].
    destruct r as [[]|e].
    + destruct Hres as [(s0 & l & _ & _ & E2) _]. lia.
    + destruct Hres as [[[E1 _]|[z Ez]] _]; [by rewrite E1|].
      destruct (apply_moves_head _ _ _ _ Ez) as [_ ->]. apply block_num_bound.
    + assert (st n' = st n) as -> by (destruct e; tauto). done.
Qed.
End Runs.

(** ** Properties *)

(** C1: pushing a block is all or nothing, also across forks.  On a node that was
    started at some state and has been given any blocks, [_push_block] either ignores
    the block, or applies it to the head, or ends in the state that the new branch
    gives on the state of the fork point, one block higher than before; when it
    throws, wherever in a switch of forks that happens, the state is the one before
    the call, because the blocks of the old branch are applied again.  It is assumed of
    this push and of those before it: block numbers stay below 2^32; when a push leads
    to a switch, the block of the fork point is still in the fork database, its state
    among the saved ones, and the undo database does not drop it while the new branch is
    applied ([fork_point_kept]); and a block that comes under the id of a block of the
    saved states which the fork database has dropped is that block ([unaltered]; an id is
    made of the signed header only, so it does not follow from the ids). *)
Theorem push_block_atomic {S Sum Tx : Type} `{!ChainOps S Sum Tx} `{!ChainLaws S Sum Tx}
    (make_id : signed_block Sum Tx -> block_id_type) (pack : signed_block Sum Tx -> list Z)
    (unpack : list Z -> option (signed_block Sum Tx)) (skip_fork_db : bool)
    (Hnum : forall b, num_from_id (make_id b) = block_num b)
    (b : signed_block Sum Tx) (n : node S Sum Tx) (Hrun : run make_id pack unpack skip_fork_db n)
    (Hroom : head_num (st n) + 2 < uint32_mod) (Hkept : fork_point_kept b n) (Hun : unaltered make_id b n) :
  exists r n', _push_block make_id pack unpack skip_fork_db b n = (r, n') /\ push_result make_id b n r n'.
Proof.
  destruct (run_ok make_id pack unpack skip_fork_db Hnum n Hrun) as [Hok H0].
  by apply push_block_ok.
Qed.

(** A chain of numbered heads that refuses transaction 13, and blocks whose
    transactions are not those their header commits to. *)
Definition toy_root (txs : list Z) : Z := Zpos (encode txs).
Definition toy_state : Type := block_id_type * Z.

#[local] Instance toy_ops : ChainOps toy_state Z Z := {
  head_id := fst;
  head_num := snd;
  apply_block b s :=
    if bool_decide (previous b = s.1) && bool_decide (transaction_merkle_root b = toy_root (transactions b))
       && negb (existsb (Z.eqb 13) (transactions b))
    then (Ok (block_id b, block_num b), Some 10) else (Err assert_exception, None) }.

#[local] Instance toy_laws : ChainLaws toy_state Z Z.
Proof.
  split; cbn; intros b s r z H; try (case_if_in H; [|discriminate H]); try discriminate H.
  - apply andb_true_iff in Hif as [[Hif _]%andb_true_iff _]. by apply bool_decide_eq_true in Hif.
  - by injection H as <- <-.
  - injection H as <- <-. lia.
  - injection H as <- <-. by exists 10.
Qed.

(** Ids that hold the number and a code of the signed header. *)
Definition toy_code (b : signed_block Z Z) : positive :=
  let p := previous b in
  encode ((hash0 p, hash1 p, hash2 p, hash3 p, hash4 p),
          (timestamp b, witness b, transaction_merkle_root b, witness_signature b)).
Definition toy_id (b : signed_block Z Z) : block_id_type :=
  mk_bid (endian_reverse_u32 (block_num b)) (Zpos (toy_code b)) 0 0 0.

Lemma toy_id_number b : num_from_id (toy_id b) = block_num b.
Proof. apply rev32_involutive, block_num_bound. Qed.

Definition toy_body (p : block_id_type) (root : Z) (txs : list Z) : signed_block Z Z :=
  let b := mk_block p 0 0 root None 0 null_block_id txs in
  mk_block p 0 0 root None 0 (toy_id b) txs.
Definition toy_block (p : block_id_type) (txs : list Z) : signed_block Z Z := toy_body p (toy_root txs) txs.

(** A first block, two rival blocks on it, the second of which has a child that can
    not be applied. *)
Definition toy_a1 := toy_block null_block_id [1].
Definition toy_a2 := toy_block (block_id toy_a1) [2].
Definition toy_b2 := toy_block (block_id toy_a1) [3].
Definition toy_b3 := toy_block (block_id toy_b2) [13].

Definition toy_push (b : signed_block Z Z) (n : node toy_state Z Z) : result bool * node toy_state Z Z :=
  _push_block toy_id (fun _ => [0]) (fun _ => None) false b n.
Definition toy_0 : node toy_state Z Z := mk_node (null_block_id, 0) [] 0 empty_fork_db empty_block_db [].
Definition toy_1 := (toy_push toy_a1 toy_0).2.
Definition toy_2 := (toy_push toy_a2 toy_1).2.
Definition toy_3 := (toy_push toy_b2 toy_2).2.

Lemma toy_kept_vacuous b n : (forall hd db, ForkDb.push_block b (_fork_db n) = Ok (Some hd, db) ->
  previous (data hd) = head_id (st n) \/ block_num (data hd) <= head_num (st n)) -> fork_point_kept b n.
Proof. intros H hd db E E1 E2. destruct (H hd db E); [done|lia]. Qed.

Definition toy_unseen (b : signed_block Z Z) (n : node toy_state Z Z) : bool :=
  forallb (fun s => negb (bool_decide (head_id s = block_id b))) (st n :: undo_stack n).

Lemma toy_unaltered b n : toy_unseen b n = true -> unaltered toy_id b n.
Proof.
  intros H. apply new_id_unaltered. intros s Hs. apply list_elem_of_In in Hs.
  eapply forallb_forall in H; [|exact Hs]. by apply negb_true_iff, bool_decide_eq_false in H.
Qed.

Lemma toy_run : run toy_id (fun _ => [0]) (fun _ => None) false toy_3.
Proof.
  assert (R0 : run toy_id (fun _ => [0]) (fun _ => None) false toy_0) by (by apply run_start).
  assert (R1 : run toy_id (fun _ => [0]) (fun _ => None) false toy_1).
  { eapply (run_push _ _ _ _ toy_a1 toy_0 (Ok false)); [done|vm_compute; reflexivity| |by apply toy_unaltered; vm_compute|vm_compute; reflexivity|done].
    apply toy_kept_vacuous. intros hd db E. vm_compute in E. injection E as <- <-. by left. }
  assert (R2 : run toy_id (fun _ => [0]) (fun _ => None) false toy_2).
  { eapply (run_push _ _ _ _ toy_a2 toy_1 (Ok false)); [done|vm_compute; reflexivity| |by apply toy_unaltered; vm_compute|vm_compute; reflexivity|done].
    apply toy_kept_vacuous. intros hd db E. vm_compute in E. injection E as <- <-. by left. }
  eapply (run_push _ _ _ _ toy_b2 toy_2 (Ok false)); [done|vm_compute; reflexivity| |by apply toy_unaltered; vm_compute|vm_compute; reflexivity|done].
  apply toy_kept_vacuous. intros hd db E. vm_compute in E. injection E as <- <-. right. vm_compute. discriminate.
Qed.

Definition toy_switch_known (b : signed_block Z Z) (n : node toy_state Z Z) : bool :=
  match ForkDb.push_block b (_fork_db n) with
  | Ok (Some hd, db) =>
      match fetch_branch_from (block_id (data hd)) (head_id (st n)) db with
      | Ok (fi, se) =>
          (length fi =? 2)%nat
          && match list.last se with
             | Some y => match lock db (prev y), undo_stack n !! pred (length se) with
                         | Some _, Some _ => true
                         | _, _ => false
                         end
             | None => false
             end
      | Err _ => false
      end
  | _ => false
  end.

Lemma toy_kept b n : toy_switch_known b n = true -> fork_point_kept b n.
Proof.
  intros H hd db E _ _. unfold toy_switch_known in H. rewrite E in H.
  destruct (fetch_branch_from _ _ db) as [[fi se]|]; [|discriminate H].
  apply andb_true_iff in H as [Hl H]. apply Nat.eqb_eq in Hl.
  destruct (list.last se) as [y|] eqn:Ey; [|discriminate H].
  destruct (lock db (prev y)) as [p|] eqn:Ep; [|discriminate H].
  destruct (undo_stack n !! pred (length se)) as [s0|] eqn:Es; [|discriminate H].
  exists fi, se, y, p, s0. do 4 (split; [done|]).
  intros l1 it l2 s s' z Er _ Ha. apply (f_equal length) in Er. rewrite length_reverse, length_app in Er.
  cbn in Er, Ha. case_if_in Ha; [injection Ha as _ <-; lia|discriminate Ha].
Qed.

Lemma toy_b3_kept : fork_point_kept toy_b3 toy_3.
Proof. apply toy_kept. vm_compute. reflexivity. Qed.

Lemma toy_b3_unaltered : unaltered toy_id toy_b3 toy_3.
Proof. by apply toy_unaltered; vm_compute. Qed.

Lemma toy_room : head_num (st toy_3) + 2 < uint32_mod.
Proof. vm_compute. reflexivity. Qed.

Lemma toy_b3_fails :
  fst (_push_block toy_id (fun _ => [0]) (fun _ => None) false toy_b3 toy_3) = Err assert_exception.
Proof. vm_compute. reflexivity. Qed.

Lemma push_block_atomic_witness :
  exists n', _push_block toy_id (fun _ => [0]) (fun _ => None) false toy_b3 toy_3 = (Err assert_exception, n')
    /\ st n' = st toy_3.
Proof.
  destruct (push_block_atomic toy_id (fun _ => [0]) (fun _ => None) false toy_id_number
    toy_b3 toy_3 toy_run toy_room toy_b3_kept toy_b3_unaltered) as (r & n' & E & H).
  pose proof toy_b3_fails as Er. rewrite E in Er. cbn [fst] in Er. subst r.
  exists n'. split; [exact E|exact (proj1 H)].
Defined.

(** After a block that could not be applied, the fork database's head stays on it;
    a rival block that arrives then is not kept as a fork but refused. *)
Definition toy_bad := toy_block (block_id toy_a1) [13].
Theorem refused_block_blocks_forks :
  let n := (toy_push toy_bad toy_1).2 in
  let rival := toy_block null_block_id [5] in
  (toy_push rival toy_1).1 = Ok false /\ (toy_push rival n).1 = Err assert_exception.
Proof. by vm_compute. Qed.

(** A node at its first state that is given a later block keeps refusing the first. *)
Theorem early_block_blocks_start :
  let later := toy_block (block_id toy_a2) [4] in
  let n := (toy_push later toy_0).2 in
  (toy_push toy_a1 toy_0).1 = Ok false /\ (toy_push toy_a1 n).1 = Err assert_exception.
Proof. by vm_compute. Qed.

(** The fork database keeps the first block it is given under an id, and an id does not
    cover the transactions: a copy of [toy_b2] with other transactions that arrives
    first, off the head, makes the switch to the fork of the genuine one fail. *)
Definition toy_b2_altered := toy_body (block_id toy_a1) (toy_root [3]) [4].
Definition toy_b3_good := toy_block (block_id toy_b2) [5].
Theorem altered_copy_blocks_fork :
  let n := (toy_push toy_b2 (toy_push toy_b2_altered toy_2).2).2 in
  block_id toy_b2_altered = block_id toy_b2
  /\ (toy_push toy_b3_good toy_3).1 = Ok true /\ (toy_push toy_b3_good n).1 = Err assert_exception.
Proof. by vm_compute. Qed.
