(* ===== verification/ApplyBlock.v ===== *)
(** * Applying a block ([database::apply_block], [_apply_block])

    The order of the steps by which a block changes the chain, with the checkpoint
    rule around it: Merkle root, header, transactions, the bookkeeping of
    [Schedule], maintenance, expirations and the next schedule.  The transactions'
    evaluation and the expirations are given as functions; what is needed of them is that
    they do not move the head.  This is the implementation of
    the interface that [DbBlock] pushes and pops blocks against. *)

From S2P Require Import Prelude SafeInt Vesting State Ledger Block Schedule ForkDb BlockDb DbBlock Maintenance MaintenanceSpec.

(** The skip flags that matter to applying a block. *)
Record skip_flags := mk_skip {
  skip_witness_signature : bool;
  skip_merkle_check : bool;
  skip_undo_history_check : bool;
  skip_witness_schedule_check : bool }.

(** [~0]. *)
Definition skip_everything : skip_flags := mk_skip true true true true.

Section ApplyBlock.
Context {Digest Sum Tx : Type} `{EqDecision Sum}.
Abbreviation block := (signed_block Sum Tx).
Variable hash_pair : Digest -> Digest -> Digest.
Variable checksum : Digest -> Sum.
Variable checksum_null : Sum.
Variable merkle_digest : Tx -> Digest.
(** Whether a transaction carries operation results; whether the public key recovered
    from a block's signature and digest is the given one. *)
Variable has_results : Tx -> bool.
Variable validate_signee : block -> Z -> bool.
Variable apply_transaction : skip_flags -> Tx -> chain -> result chain.
(** From [clear_expired_transactions] to [clear_expired_active]. *)
Variable clear_expired : chain -> result chain.
Variable _checkpoints : gmap Z block_id_type.

Fixpoint apply_transactions (f : skip_flags) (l : list Tx) (c : chain) : result chain :=
  match l with
  | [] => Ok c
  | tx :: l' =>
      check has_results tx;
      let* c := apply_transaction f tx c in
      apply_transactions f l' c
  end.

(** The key a witness signs with. *)
Definition signing_key_of (w : Z) (c : chain) : option Z :=
  witness_candidates (governance (ledger c)) !! w ≫= signing_key.

Definition signed_by_witness (b : block) (c : chain) : bool :=
  match signing_key_of (witness b) c with Some k => validate_signee b k | None => false end.

(** Up to the point where the sizes of the undo and the fork database are set. *)
Definition apply_first (f : skip_flags) (b : block) (c : chain) : result (chain * Z) :=
  check skip_merkle_check f
        || bool_decide (Some (transaction_merkle_root b)
             = calculate_merkle_root hash_pair checksum checksum_null merkle_digest b);
  let* _ := validate_block_header (skip_witness_signature f) (skip_witness_schedule_check f)
              (signed_by_witness b c) b c in
  let* c := apply_transactions f (transactions b) c in
  update_global_dynamic_data _checkpoints (skip_undo_history_check f) b c.

Definition apply_rest (maint_needed : bool) (b : block) (c : chain) : result chain :=
  let* c := update_signing_witness (witness b) b c in
  let* c := update_last_irreversible_block c in
  let* c := if maint_needed then perform_chain_maintenance b c else Ok c in
  let c := create_block_summary b c in
  let* c := clear_expired c in
  let c := update_maintenance_flag maint_needed c in
  update_witness_schedule c.

Definition _apply_block (f : skip_flags) (b : block) (c : chain) : result chain * option Z :=
  let maint_needed := next_maintenance_time (dgp c) <=? timestamp b in
  match apply_first f b c with
  | Err e => (Err e, None)
  | Ok (c1, z) => (apply_rest maint_needed b c1, Some z)
  end.

(** Below the last checkpoint almost everything is skipped; a checkpointed number
    must carry the checkpointed id. *)
Definition chain_apply_block (f : skip_flags) (b : block) (c : chain) : result chain * option Z :=
  match last_checkpoint _checkpoints with
  | None => _apply_block f b c
  | Some top =>
      if bool_decide (_checkpoints !! top = Some null_block_id) then _apply_block f b c
      else
        match _checkpoints !! block_num b with
        | Some i =>
            if bool_decide (block_id b = i)
            then _apply_block (if top >=? block_num b then skip_everything else f) b c
            else (Err assert_exception, None)
        | None => _apply_block (if top >=? block_num b then skip_everything else f) b c
        end
  end.

#[local] Instance chain_ops (f : skip_flags) : ChainOps chain Sum Tx := {
  head_id c := head_block_id (dgp c);
  head_num c := head_block_number (dgp c);
  apply_block := chain_apply_block f }.

(** ** What the steps leave alone *)

Definition same_head (c c' : chain) : Prop :=
  head_block_id (dgp c') = head_block_id (dgp c)
  /\ head_block_number (dgp c') = head_block_number (dgp c) /\ time (dgp c') = time (dgp c).

#[local] Instance same_head_preorder : PreOrder same_head.
Proof. split; [done|]. intros a b c (H1 & H2 & H3) (H4 & H5 & H6). split_and!; congruence. Qed.

(** The steps that are given as functions do not move the head; the expirations do not
    take back the irreversible block. *)
Hypothesis transaction_head : forall f tx c c', apply_transaction f tx c = Ok c' ->
  same_head c c' /\ last_irreversible_block_num (dgp c') = last_irreversible_block_num (dgp c).
Hypothesis expired_head : forall c c', clear_expired c = Ok c' ->
  same_head c c' /\ last_irreversible_block_num (dgp c') = last_irreversible_block_num (dgp c).

Lemma maintenance_head (b : block) c c' : perform_chain_maintenance b c = Ok c' ->
  same_head c c' /\ last_irreversible_block_num (dgp c') = last_irreversible_block_num (dgp c).
Proof. intros H. apply maintenance_same_dgp in H as (x & y & E). unfold same_head. by rewrite E. Qed.

Lemma transactions_head f l : forall c c', apply_transactions f l c = Ok c' ->
  same_head c c' /\ last_irreversible_block_num (dgp c') = last_irreversible_block_num (dgp c).
Proof.
  induction l as [|tx l IH]; intros c c' H; cbn in H; [by injection H as <-|].
  apply rbind_ok in H as (_ & _ & H). apply rbind_ok in H as (c1 & H1 & H).
  destruct (transaction_head _ _ _ _ H1) as [E1 E2]. destruct (IH _ _ H) as [E3 E4].
  split; [by etrans|congruence].
Qed.

Lemma signing_head w (b : block) c c' : update_signing_witness w b c = Ok c' ->
  same_head c c' /\ last_irreversible_block_num (dgp c') = last_irreversible_block_num (dgp c).
Proof.
  unfold update_signing_witness. intros H. apply rbind_ok in H as (bu & _ & H).
  apply rbind_ok in H as (c1 & H1 & H). apply rbind_ok in H as (wt & _ & [= <-]).
  assert (E : dgp c1 = set_budget bu (dgp c)); [|by unfold same_head; cbn; rewrite E].
  unfold deposit_witness_pay in H1. case_if_in H1; [by injection H1 as <-|].
  apply rbind_ok in H1 as (wt' & _ & H1). apply rbind_ok in H1 as ([nv d] & _ & H1).
  by destruct nv; injection H1 as <-.
Qed.

Lemma irreversible_head c c' : update_last_irreversible_block c = Ok c' ->
  same_head c c' /\ last_irreversible_block_num (dgp c) <= last_irreversible_block_num (dgp c').
Proof.
  unfold update_last_irreversible_block. intros H. apply rbind_ok in H as (vals & _ & H).
  apply rbind_ok in H as (v & _ & H). case_if_in H; injection H as <-; cbn; [|done].
  bool_to_prop. split; [done|lia].
Qed.

Lemma schedule_head c c' : update_witness_schedule c = Ok c' -> dgp c' = dgp c.
Proof.
  unfold update_witness_schedule. destruct (active_witnesses (gpo c)); [done|]. intros H.
  case_if_in H; by injection H as <-.
Qed.

Lemma rest_head m b c c' : apply_rest m b c = Ok c' ->
  same_head c c' /\ last_irreversible_block_num (dgp c) <= last_irreversible_block_num (dgp c').
Proof.
  unfold apply_rest. intros H. apply rbind_ok in H as (c1 & H1 & H). apply rbind_ok in H as (c2 & H2 & H).
  apply rbind_ok in H as (c3 & H3 & H). apply rbind_ok in H as (c4 & H4 & H).
  apply signing_head in H1 as [E1 L1]. apply irreversible_head in H2 as [E2 L2].
  assert (E3 : same_head c2 c3 /\ last_irreversible_block_num (dgp c3) = last_irreversible_block_num (dgp c2))
    by (destruct m; [by eapply maintenance_head|by injection H3 as <-]).
  destruct E3 as [E3 L3]. apply expired_head in H4 as [E4 L4]. apply schedule_head in H.
  unfold same_head in *. rewrite H. cbn in *. split; [intuition congruence|lia].
Qed.

Lemma first_head f b c c' z : apply_first f b c = Ok (c', z) ->
  previous b = head_block_id (dgp c) /\ time (dgp c) < timestamp b
  /\ head_block_id (dgp c') = block_id b /\ head_block_number (dgp c') = block_num b
  /\ time (dgp c') = timestamp b
  /\ last_irreversible_block_num (dgp c') = last_irreversible_block_num (dgp c)
  /\ z = wrap32 (wrap32 (block_num b - last_irreversible_block_num (dgp c)) + 1)
  /\ (skip_undo_history_check f = false -> wrap32 (block_num b - last_irreversible_block_num (dgp c)) < GRAPHENE_MAX_UNDO_HISTORY)
  /\ (skip_merkle_check f = false -> calculate_merkle_root hash_pair checksum checksum_null merkle_digest b
        = Some (transaction_merkle_root b))
  /\ (skip_witness_schedule_check f = false ->
        get_scheduled_witness (get_slot_at_time (timestamp b) c) c = Ok (witness b))
  /\ (skip_witness_signature f = false ->
        exists k, signing_key_of (witness b) c = Some k /\ validate_signee b k = true).
Proof.
  unfold apply_first. intros H. apply rbind_ok in H as (u1 & Hm & H). apply rbind_ok in H as (w & Hv & H).
  apply rbind_ok in H as (c1 & Ht & H). destruct (transactions_head _ _ _ _ Ht) as [(E1 & E2 & _) E3].
  unfold update_global_dynamic_data in H. apply rbind_ok in H as (u2 & Hu & [= <- <-]). cbn in *.
  unfold validate_block_header in Hv. unfold fc_assert in *.
  apply rbind_ok in Hv as (u3 & Hp & Hv). apply rbind_ok in Hv as (u4 & Htm & Hv).
  apply rbind_ok in Hv as (w' & _ & Hv). apply rbind_ok in Hv as (u6 & Hsig & Hv).
  apply rbind_ok in Hv as (u5 & Hs & _).
  case_if_in Hp; [|done]. apply bool_decide_eq_true in Hif. case_if_in Htm; [|done]. bool_to_prop.
  rewrite E3 in Hu |- *. split_and!; try done.
  - intros Hsk. rewrite Hsk in Hu. cbn in Hu. unfold graphene_assert in Hu. case_if_in Hu; [|done]. by apply Z.ltb_lt.
  - intros Hsk. rewrite Hsk in Hm. cbn in Hm. case_if_in Hm; [|done]. by apply bool_decide_eq_true in Hif1.
  - intros Hsk. rewrite Hsk in Hs. cbn in Hs. apply rbind_ok in Hs as (_ & _ & Hs).
    apply rbind_ok in Hs as (sw & Hsw & Hs). case_if_in Hs; [|done]. apply Z.eqb_eq in Hif1. by rewrite Hif1.
  - intros Hsk. rewrite Hsk in Hsig. cbn [negb] in Hsig. unfold signed_by_witness in Hsig.
    destruct (signing_key_of (witness b) c) as [k|]; [|done]. exists k. split; [done|]. by destruct (validate_signee b k).
Qed.

Lemma apply_block_inner f b c r z : chain_apply_block f b c = (r, z) ->
  (exists e, r = Err e /\ z = None) \/ exists f', _apply_block f' b c = (r, z)
    /\ (_checkpoints = ∅ -> f' = f).
Proof.
  unfold chain_apply_block. intros H.
  destruct (last_checkpoint _checkpoints) as [top|] eqn:E; [|right; by exists f].
  assert (Hne : _checkpoints <> ∅)
    by (intros ->; unfold last_checkpoint in E; by rewrite map_to_list_empty in E).
  destruct (bool_decide _) in H; [right; by exists f|].
  destruct (_checkpoints !! block_num b) as [i|]; [|right; eexists; split; [exact H|done]].
  case_if_in H; [right; eexists; split; [exact H|done]|]. left. injection H as <- <-. by eexists.
Qed.

Lemma inner_ok f b c c' z : _apply_block f b c = (Ok c', z) ->
  exists c1 k, z = Some k /\ apply_first f b c = Ok (c1, k)
    /\ apply_rest (next_maintenance_time (dgp c) <=? timestamp b) b c1 = Ok c'.
Proof.
  unfold _apply_block. destruct (apply_first f b c) as [[c1 k]|]; [|done].
  intros H. injection H as H <-. by exists c1, k.
Qed.

(** The chain is an implementation of the interface: without checkpoints and with
    the undo history check on, blocks apply to the head, move it, and size the undo
    and the fork database. *)
Lemma chain_laws f : _checkpoints = ∅ -> skip_undo_history_check f = false ->
  @ChainLaws chain Sum Tx (chain_ops f).
Proof.
  intros Hc Hf. split; cbn; intros b c.
  - intros c' z H. apply apply_block_inner in H as [(e & [=] & _)|(f' & H & _)].
    apply inner_ok in H as (c1 & k & _ & H1 & _). by apply first_head in H1 as [? _].
  - intros c' z H. apply apply_block_inner in H as [(e & [=] & _)|(f' & H & _)].
    apply inner_ok in H as (c1 & k & _ & H1 & H2). apply first_head in H1 as (_ & _ & H3 & H4 & _).
    apply rest_head in H2 as [(-> & -> & _) _]. done.
  - intros r z H. apply apply_block_inner in H as [(e & _ & [=])|(f' & H & Ef)]. rewrite (Ef Hc) in H.
    unfold _apply_block in H. destruct (apply_first f b c) as [[c1 k]|] eqn:E; [|done].
    injection H as _ <-. apply first_head in E as (_ & _ & _ & _ & _ & _ & -> & Hb & _). specialize (Hb Hf).
    pose proof (wrap32_bound (block_num b - last_irreversible_block_num (dgp c))).
    rewrite wrap32_small by lia. lia.
  - intros c' z H. apply apply_block_inner in H as [(e & [=] & _)|(f' & H & _)].
    apply inner_ok in H as (c1 & k & -> & _). by exists k.
Qed.

Lemma applied_effect f b c c' z : chain_apply_block f b c = (Ok c', z) -> _checkpoints = ∅ ->
  previous b = head_block_id (dgp c) /\ time (dgp c) < timestamp b
  /\ head_block_id (dgp c') = block_id b /\ head_block_number (dgp c') = block_num b
  /\ time (dgp c') = timestamp b /\ last_irreversible_block_num (dgp c) <= last_irreversible_block_num (dgp c')
  /\ (skip_merkle_check f = false -> calculate_merkle_root hash_pair checksum checksum_null merkle_digest b
        = Some (transaction_merkle_root b))
  /\ (skip_witness_schedule_check f = false ->
        get_scheduled_witness (get_slot_at_time (timestamp b) c) c = Ok (witness b))
  /\ (skip_witness_signature f = false ->
        exists k, signing_key_of (witness b) c = Some k /\ validate_signee b k = true).
Proof.
  intros H Hc. apply apply_block_inner in H as [(e & [=] & _)|(f' & H & Ef)]. rewrite (Ef Hc) in H.
  apply inner_ok in H as (c1 & k & _ & H1 & H2).
  apply first_head in H1 as (P1 & P2 & P3 & P4 & P5 & P6 & _ & _ & P7 & P8 & P9).
  apply rest_head in H2 as [(E1 & E2 & E4) E3]. rewrite E1, E2, E4. split_and!; try done. lia.
Qed.
End ApplyBlock.

(** ** Properties *)

(** C11: a block that applies was made for this chain and extends it.  Without
    checkpoints, when [apply_block] returns, the block names the head as its
    predecessor and is later than it; unless the check is skipped, it carries the Merkle
    root of its transactions, its witness is the one scheduled for its slot, and its
    signature is valid for that witness's signing key; afterwards it is the head, the clock
    shows its time, and the irreversible block has not moved back. *)
Theorem apply_block_effect {Digest Sum Tx : Type} `{EqDecision Sum}
    (hash_pair : Digest -> Digest -> Digest) (checksum : Digest -> Sum) (checksum_null : Sum)
    (merkle_digest : Tx -> Digest) (has_results : Tx -> bool)
    (validate_signee : signed_block Sum Tx -> Z -> bool)
    (apply_transaction : skip_flags -> Tx -> chain -> result chain)
    (clear_expired : chain -> result chain)
    (f : skip_flags) (b : signed_block Sum Tx) (c c' : chain) (z : option Z)
    (Htx : forall f tx c c', apply_transaction f tx c = Ok c' -> same_head c c'
       /\ last_irreversible_block_num (dgp c') = last_irreversible_block_num (dgp c))
    (He : forall c c', clear_expired c = Ok c' -> same_head c c'
       /\ last_irreversible_block_num (dgp c') = last_irreversible_block_num (dgp c))
    (H : chain_apply_block hash_pair checksum checksum_null merkle_digest has_results validate_signee
           apply_transaction clear_expired ∅ f b c = (Ok c', z)) :
  previous b = head_block_id (dgp c) /\ time (dgp c) < timestamp b
  /\ head_block_id (dgp c') = block_id b /\ head_block_number (dgp c') = block_num b
  /\ time (dgp c') = timestamp b /\ last_irreversible_block_num (dgp c) <= last_irreversible_block_num (dgp c')
  /\ (skip_merkle_check f = false -> calculate_merkle_root hash_pair checksum checksum_null merkle_digest b
        = Some (transaction_merkle_root b))
  /\ (skip_witness_schedule_check f = false ->
        get_scheduled_witness (get_slot_at_time (timestamp b) c) c = Ok (witness b))
  /\ (skip_witness_signature f = false ->
        exists k, signing_key_of (witness b) c = Some k /\ validate_signee b k = true).
Proof. by eapply applied_effect. Qed.

(** Transactions that do nothing, on the chain of [Schedule]; witness 9 signs with key 91. *)
Definition demo_signee (b : signed_block Z Z) (k : Z) : bool := witness_signature b =? k - 1 + timestamp b.
Definition demo_apply (b : signed_block Z Z) (c : chain) : result chain * option Z :=
  chain_apply_block Z.add (fun x => x) 0 (fun x => x) (fun _ => true) demo_signee
    (fun _ _ c => Ok c) Ok ∅ (mk_skip false false false false) b c.

Definition demo_at_30 : chain :=
  let c := set_dgp (mk_dgp 30 (demo_bid 30 1) 1000 4 0 25 0 500 0 1 5000 20) demo_chain in
  let g := governance (ledger c) in
  set_ledger (set_governance (set_witness_candidates
    (<[9 := mk_candidate 3 9 0 "" true 0 ∅ (Some 91)]> (witness_candidates g)) g) (ledger c)) c.
Definition demo_signed : signed_block Z Z :=
  mk_block (demo_bid 30 1) 1011 9 12 None 1101 (demo_bid 31 2) [5; 7].

Lemma apply_block_effect_witness :
  match demo_apply demo_signed demo_at_30 with
  | (Ok c', _) => head_block_id (dgp c') = demo_bid 31 2
                  /\ get_scheduled_witness (get_slot_at_time 1011 demo_at_30) demo_at_30 = Ok 9
                  /\ exists k, signing_key_of 9 demo_at_30 = Some k /\ demo_signee demo_signed k = true
  | _ => False
  end.
Proof.
  assert (Hok : is_ok (demo_apply demo_signed demo_at_30).1 = true) by (vm_compute; reflexivity).
  destruct (demo_apply demo_signed demo_at_30) as [[c'|e] z] eqn:E; [|discriminate Hok].
  destruct (apply_block_effect Z.add (fun x => x) 0 (fun x => x) (fun _ => true) demo_signee
    (fun _ _ c => Ok c) Ok (mk_skip false false false false) demo_signed demo_at_30 c' z)
    as (_ & _ & H3 & _ & _ & _ & _ & H7 & H8).
  - intros f tx c1 c2 [= ->]. done.
  - intros c1 c2 [= ->]. done.
  - exact E.
  - split; [exact H3|]. split; [by apply H7|by apply H8].
Defined.
