(* ===== verification/Production.v ===== *)
(** * Producing blocks

    [witness_plugin::maybe_produce_block] (plugins/witness/witness.cpp),
    [database::_generate_block] (db_block.cpp) and [validate_block]
    (db_validate_block.cpp): when a node makes a block, which pending transactions go into
    it, and how the block becomes the head of the node that made it.  As in [ApplyBlock] the
    evaluation of a transaction, which [Transaction] models on a state of its own, is given as
    a function, one for each mode it runs in, and so are sizes and signatures; nothing is
    assumed of the two evaluations, which do differ ([select_pending] carries the flags of a
    share-fee transaction over to those behind it).  The thread that watches the time is a
    function that says after how many transactions the time is up. *)

From S2P Require Import Prelude SafeInt Vesting State Ledger Block Schedule ForkDb BlockDb DbBlock Maintenance ApplyBlock.

(** The skip flags of the node that matter to production. *)
Record production_skip := mk_production_skip {
  block_skip : skip_flags;
  skip_tx_signatures : bool;
  skip_tapos : bool;
  skip_authority : bool;
  skip_block_size : bool;
  skip_fork : bool }.

(** [skip = skip_transaction_signatures|skip_tapos_check]. *)
Definition share_fee_skip : production_skip :=
  mk_production_skip (mk_skip false false false false) true true false false false.

(** [skip | skip_authority | skip_merkle_check | skip_witness_signature]. *)
Definition validation_skip (authority : bool) (f : production_skip) : production_skip :=
  mk_production_skip (mk_skip true true (skip_undo_history_check (block_skip f)) (skip_witness_schedule_check (block_skip f)))
    (skip_tx_signatures f) (skip_tapos f) (skip_authority f || authority) (skip_block_size f) (skip_fork f).
Definition all_skipped : production_skip := mk_production_skip skip_everything true true true true true.

Section Production.
Context {Digest Sum Tx : Type} `{EqDecision Sum}.
Abbreviation block := (signed_block Sum Tx).
Variable hash_pair : Digest -> Digest -> Digest.
Variable checksum : Digest -> Sum.
Variable checksum_null : Sum.
Variable merkle_digest : Tx -> Digest.
Variable clear_expired : chain -> result chain.
Variable _checkpoints : gmap Z block_id_type.
Variable make_id : block -> block_id_type.
Variable pack : block -> list Z.
(** The serialized size of a transaction, and what the code reads of it. *)
Variable tx_size : Tx -> Z.
(** The size of its entry in a block, which has its hash beside it. *)
Variable entry_size : Tx -> Z.
Variable tx_share_fee tx_agreed : Tx -> bool.
Variable tx_reference : Tx -> Z * Z.
Variable tx_expiration : Tx -> Z.
(** Running a transaction in [production_block_mode]: the transaction with its results. *)
Variable produce_transaction : production_skip -> Tx -> chain -> result (Tx * chain).
Variable block_size : block -> Z.
(** The signature a private key makes of a block, and the public key of a private key. *)
Variable signature : Z -> block -> Z.
Variable public_key : Z -> Z.
(** Chain parameters and node options. *)
Variable maximum_block_size maximum_time_until_expiration max_block_header_size : Z.
Variable pause_point_num : Z.
Variable deduce_in_verification_mode : bool.
(** Whether the time is up before the transaction at this position. *)
Variable canstop : nat -> bool.

(** ** Choosing the pending transactions *)

(** The reference block and the expiration of a pending transaction. *)
Definition check_pending (tapos_skipped : bool) (tx : Tx) (c : chain) : result unit :=
  if (head_block_number (dgp c) >? 0) && negb (tx_agreed tx) then
    let* _ :=
      if negb tapos_skipped then
        let* i := get_or (block_summaries c !! (tx_reference tx).1) assert_exception in
        fc_assert ((tx_reference tx).2 =? hash1 i)
      else Ok tt in
    check tx_expiration tx <=? wrap32 (time (dgp c) + maximum_time_until_expiration);
    fc_assert (time (dgp c) <=? tx_expiration tx)
  else Ok tt.

(** The flags a transaction sets stay for those after it. *)
Fixpoint select_pending (skip : production_skip) (total_block_size : Z) (l : list Tx) (c : chain)
    : list Tx * production_skip :=
  match l with
  | [] => ([], skip)
  | tx :: l' =>
      if total_block_size + tx_size tx >=? maximum_block_size then ([], skip)
      else
        let skip := if tx_share_fee tx then share_fee_skip else skip in
        match check_pending (skip_tapos skip) tx c with
        | Ok _ => let (r, skip) := select_pending skip (total_block_size + tx_size tx) l' c in (tx :: r, skip)
        | Err _ => select_pending skip total_block_size l' c
        end
  end.

(** ** Running them *)

Definition with_transactions (l : list Tx) (b : block) : block :=
  mk_block (previous b) (timestamp b) (witness b) (transaction_merkle_root b) (header_extensions b) (witness_signature b)
    (block_id b) l.

(** [_try_apply_block]: what throws or is too large is left out; [done] are the transactions
    in the block so far. *)
Fixpoint _try_apply_block (skip : production_skip) (b : block) (i : nat) (done l : list Tx) (c : chain)
    : list Tx * chain :=
  match l with
  | [] => (done, c)
  | tx :: l' =>
      if canstop i then (done, c)
      else if block_size (with_transactions done b) >? maximum_block_size then (done, c)
      else
        match produce_transaction skip tx c with
        | Err _ => _try_apply_block skip b (S i) done l' c
        | Ok (tx', c') =>
            if negb (skip_block_size skip) && (entry_size tx' >? maximum_block_size)
            then _try_apply_block skip b (S i) done l' c
            else _try_apply_block skip b (S i) (done ++ [tx']) l' c'
        end
  end.

(** The id of the block is not known yet when it is compared with a checkpoint. *)
Definition try_apply_block (skip : production_skip) (b : block) (c : chain) : result (list Tx * chain) :=
  match last_checkpoint _checkpoints with
  | None => Ok (_try_apply_block skip b 0 [] (transactions b) c)
  | Some top =>
      if bool_decide (_checkpoints !! top = Some null_block_id)
      then Ok (_try_apply_block skip b 0 [] (transactions b) c)
      else
        let skip := if top >=? block_num b then all_skipped else skip in
        match _checkpoints !! block_num b with
        | Some i => check bool_decide (block_id b = i); Ok (_try_apply_block skip b 0 [] (transactions b) c)
        | None => Ok (_try_apply_block skip b 0 [] (transactions b) c)
        end
  end.

(** ** Finishing the block *)

Definition sign (key : Z) (b : block) : block :=
  mk_block (previous b) (timestamp b) (witness b) (transaction_merkle_root b) (header_extensions b) (signature key b)
    (block_id b) (transactions b).
Definition with_id (i : block_id_type) (b : block) : block :=
  mk_block (previous b) (timestamp b) (witness b) (transaction_merkle_root b) (header_extensions b) (witness_signature b)
    i (transactions b).
Definition with_root (r : Sum) (b : block) : block :=
  mk_block (previous b) (timestamp b) (witness b) r (header_extensions b) (witness_signature b) (block_id b)
    (transactions b).

(** The first half of [_validate_block]: the transactions are run, and the block gets its
    Merkle root, its signature and its id. *)
Definition complete_block (skip : production_skip) (key : Z) (b : block) (c : chain) : result (block * chain) :=
  check bool_decide (head_block_id (dgp c) = previous b);
  check time (dgp c) <? timestamp b;
  let* _ := get_witness (witness b) c in
  let* (txs, c) := try_apply_block skip b c in
  let b := with_transactions txs b in
  let* root := get_or (calculate_merkle_root hash_pair checksum checksum_null merkle_digest b) undefined_behaviour in
  let b := sign key (with_root root b) in
  Ok (with_id (make_id b) b, c).

Abbreviation chain_node := (node chain Sum Tx).

Definition drop_block (i : block_id_type) (n : chain_node) : chain_node :=
  session_undo (set_fork_db (ForkDb.remove i (_fork_db n)) n).

(** The second half, in the session the block is made in. *)
Definition adopt_block (skip : production_skip) (maint_needed : bool) (b : block) (c : chain) : stM chain_node unit :=
  _ <-- (if skip_fork skip then ret tt else _ <-- fork_push b; ret tt);
  cz <-- lift (update_global_dynamic_data _checkpoints (skip_undo_history_check (block_skip skip)) b c);
  _ <-- modify (set_sizes cz.2);
  c <-- lift (apply_rest clear_expired maint_needed b cz.1);
  modify (fun n => set_block_db (store block make_id pack (block_id b) b (_block_id_to_block n))
                     (set_state c (undo_stack n) n)).

Definition _validate_block (skip : production_skip) (key : Z) (b : block) : stM chain_node block :=
  _ <-- start_session;
  fun n =>
    let maint_needed := next_maintenance_time (dgp (st n)) <=? timestamp b in
    match complete_block skip key b (st n) with
    | Err e => (Err e, drop_block (block_id b) n)
    | Ok (b', c) =>
        match adopt_block skip maint_needed b' c n with
        | (Ok _, n') => (Ok b', n')
        | (Err e, n') => (Err e, drop_block (block_id b') n')
        end
    end.

Definition validate_block (skip : production_skip) (key : Z) (b : block) : stM chain_node block :=
  if (block_num b >? pause_point_num) && negb (pause_point_num =? 0) then throw fc_exception
  else _validate_block skip key b.

(** ** Generating *)

(** The extensions of the first block. *)
Definition first_block_text : list string := ["Ignition with Kevin , Nico , Major and Wililiam"].

(** The block before its transactions have run. *)
Definition pending_block (when witness_id : Z) (txs : list Tx) (c : chain) : block :=
  let ext := if bool_decide (head_block_id (dgp c) = null_block_id) then Some first_block_text else None in
  mk_block (head_block_id (dgp c)) when witness_id checksum_null ext 0 null_block_id txs.

Definition _generate_block (skip : production_skip) (pending : list Tx) (when witness_id key : Z)
    : stM chain_node block :=
  fun n =>
    let c := st n in
    let slot_num := get_slot_at_time when c in
    match
      (check slot_num >? 0;
       let* scheduled := get_scheduled_witness slot_num c in
       check scheduled =? witness_id;
       let* _ := get_witness witness_id c in
       if skip_witness_signature (block_skip skip) then Ok tt
       else fc_assert (bool_decide (signing_key_of witness_id c = Some (public_key key))))
    with
    | Err e => (Err e, n)
    | Ok _ =>
        let (txs, skip) := select_pending skip max_block_header_size pending c in
        validate_block (validation_skip deduce_in_verification_mode skip) key (pending_block when witness_id txs c) n
    end.

(** ** When a node makes a block *)

Inductive block_production_condition :=
| produced | not_synced | not_my_turn | not_time_yet | no_private_key | low_participation | lag
| consecutive | exception_producing_block.

(** The clock rounded to the next half second, as [time_point_sec]. *)
Definition rounded (now_fine : Z) : Z := wrap32 ((now_fine + 500000) / 1000000).

(** [now_fine] is in microseconds.  The first result is whether production is enabled
    afterwards; sending the block to the peers is left out. *)
Definition maybe_produce_block (production_enabled : bool) (own_witnesses : gset Z) (private_keys : gmap Z Z)
    (now_fine : Z) (skip : production_skip) (pending : list Tx)
    : stM chain_node (bool * block_production_condition) :=
  fun n =>
    let c := st n in
    let now := rounded now_fine in
    if negb production_enabled && negb (get_slot_time 1 c >=? now) then (Ok (false, not_synced), n)
    else
      let slot := get_slot_at_time now c in
      if slot =? 0 then (Ok (true, not_time_yet), n)
      else
        match get_scheduled_witness slot c with
        | Err e => (Err e, n)
        | Ok scheduled_witness =>
            if negb (bool_decide (scheduled_witness ∈ own_witnesses)) then (Ok (true, not_my_turn), n)
            else
              let scheduled_time := get_slot_time slot c in
              match witness_candidates (governance (ledger c)) !! scheduled_witness with
              | None => (Err assert_exception, n)
              | Some witness_obj =>
                  match signing_key witness_obj ≫= fun scheduled_key => private_keys !! scheduled_key with
                  | None => (Ok (true, no_private_key), n)
                  | Some key =>
                      if Z.abs (scheduled_time - now) * 1000000 >? 500000 then (Ok (true, lag), n)
                      else
                        match _generate_block skip pending scheduled_time scheduled_witness key n with
                        | (Err e, n') => (Err e, n')
                        | (Ok _, n') => (Ok (true, produced), n')
                        end
                  end
              end
        end.

(** ** What followers do with the block *)

Variable has_results : Tx -> bool.
Variable apply_transaction : skip_flags -> Tx -> chain -> result chain.
Variable validate_signee : block -> Z -> bool.

(** The checks no node may skip. *)
Abbreviation no_skip := (mk_skip false false false false).

(** A signature is checked with the public key of the key that made
    it; neither the signature nor the id of a block depends on the id it carries; clearing
    what has expired does not move the head or its clock. *)
Hypothesis signature_valid : forall key b i, validate_signee (with_id i (sign key b)) (public_key key) = true.
Hypothesis id_fixed : forall i b, make_id (with_id i b) = make_id b.
Hypothesis expired_head : forall c c', clear_expired c = Ok c' ->
  same_head c c' /\ last_irreversible_block_num (dgp c') = last_irreversible_block_num (dgp c).

Lemma merkle_total (b : block) :
  exists r, calculate_merkle_root hash_pair checksum checksum_null merkle_digest b = Some r.
Proof.
  destruct (transactions b) as [|tx l] eqn:E; [|destruct (calculate_merkle_root_ref hash_pair checksum checksum_null
    merkle_digest b) as (d & _ & ->); [by rewrite E|eauto]].
  unfold calculate_merkle_root. rewrite E. cbn. eauto.
Qed.

Lemma complete_spec skip key b c b' c1 :
  complete_block skip key b c = Ok (b', c1) ->
  head_block_id (dgp c) = previous b /\ time (dgp c) < timestamp b /\ is_ok (get_witness (witness b) c) = true
  /\ try_apply_block skip b c = Ok (transactions b', c1)
  /\ exists r b0, calculate_merkle_root hash_pair checksum checksum_null merkle_digest b' = Some r
     /\ b' = with_id (make_id b0) b0 /\ b0 = sign key (with_root r (with_transactions (transactions b') b)).
Proof.
  intros H. unfold complete_block in H. apply rbind_ok in H as ([] & H1 & H). apply rbind_ok in H as ([] & H2 & H).
  apply rbind_ok in H as (w & H3 & H). apply rbind_ok in H as ([txs c2] & H4 & H).
  apply rbind_ok in H as (r & H5 & [= <- <-]). unfold fc_assert in *.
  case_bool_decide; [|done]. destruct (Z.ltb_spec (time (dgp c)) (timestamp b)); [|done].
  unfold get_or in H5. destruct (calculate_merkle_root _ _ _ _ _) as [r'|] eqn:Er in H5; [injection H5 as ->|done].
  split; [done|]. split; [done|]. rewrite H3. split; [done|]. split; [exact H4|].
  exists r, (sign key (with_root r (with_transactions txs b))). split; [exact Er|]. done.
Qed.

Lemma complete_time skip key b c b' c1 : complete_block skip key b c = Ok (b', c1) -> timestamp b' = timestamp b.
Proof.
  unfold complete_block. intros H. do 3 apply rbind_ok in H as (? & _ & H). apply rbind_ok in H as ([txs c2] & _ & H).
  apply rbind_ok in H as (r & _ & [= <- <-]). done.
Qed.

Lemma adopt_spec skip m b c n n' :
  adopt_block skip m b c n = (Ok tt, n') ->
  exists c1 z, update_global_dynamic_data _checkpoints (skip_undo_history_check (block_skip skip)) b c = Ok (c1, z)
    /\ apply_rest clear_expired m b c1 = Ok (st n').
Proof.
  unfold adopt_block, bind, lift, modify, ret. intros H.
  destruct (if skip_fork skip then _ else _) as [[u|] n1]; [|done].
  destruct (update_global_dynamic_data _ _ _ _) as [[c1 z]|]; [|done].
  destruct (apply_rest _ _ _ _) as [c2|] eqn:E; [|done]. injection H as <-. by exists c1, z.
Qed.

Lemma select_flags l : forall skip total c txs skip',
  select_pending skip total l c = (txs, skip') ->
  skip_undo_history_check (block_skip skip) = false -> skip_undo_history_check (block_skip skip') = false.
Proof.
  induction l as [|tx l IH]; intros skip total c txs skip' H Hs; cbn in H; [by injection H as <- <-|].
  case_match; [by injection H as <- <-|].
  set (skip1 := if tx_share_fee tx then share_fee_skip else skip) in *.
  assert (H1 : skip_undo_history_check (block_skip skip1) = false) by (unfold skip1; by destruct (tx_share_fee tx)).
  destruct (check_pending _ _ _); [|by eapply IH].
  destruct (select_pending skip1 (total + tx_size tx) l c) as [r s2] eqn:E. injection H as <- <-. by eapply IH.
Qed.

(** What a successful generation went through. *)
Lemma generate_spec skip pending when w key n b n' :
  skip_witness_signature (block_skip skip) = false -> skip_undo_history_check (block_skip skip) = false ->
  _checkpoints = ∅ -> _generate_block skip pending when w key n = (Ok b, n') ->
  get_slot_at_time when (st n) > 0 /\ get_scheduled_witness (get_slot_at_time when (st n)) (st n) = Ok w
  /\ signing_key_of w (st n) = Some (public_key key)
  /\ let (txs, skip') := select_pending skip max_block_header_size pending (st n) in
     exists c1 c2 z,
       complete_block (validation_skip deduce_in_verification_mode skip') key (pending_block when w txs (st n)) (st n)
         = Ok (b, c1)
       /\ update_global_dynamic_data _checkpoints false b c1 = Ok (c2, z)
       /\ apply_rest clear_expired (next_maintenance_time (dgp (st n)) <=? when) b c2 = Ok (st n').
Proof.
  intros Hsig Hundo Hc H. unfold _generate_block in H.
  match type of H with match ?m with _ => _ end = _ => destruct m as [u|] eqn:Eg; [|done] end.
  apply rbind_ok in Eg as ([] & G1 & Eg). apply rbind_ok in Eg as (w' & G2 & Eg). apply rbind_ok in Eg as ([] & G3 & Eg).
  apply rbind_ok in Eg as (wo & _ & G4). rewrite Hsig in G4. unfold fc_assert in *.
  destruct (Z.gtb_spec (get_slot_at_time when (st n)) 0) as [Hslot|]; [|done].
  destruct (Z.eqb_spec w' w) as [->|]; [|done]. 
  destruct (bool_decide (signing_key_of _ _ = _)) eqn:Hk in G4; [|done]. apply bool_decide_eq_true in Hk.
  split; [lia|]. split; [done|]. split; [done|].
  destruct (select_pending skip _ pending (st n)) as [txs skip'] eqn:Es. apply select_flags in Es; [|done].
  unfold validate_block in H. case_match; [done|]. unfold _validate_block, bind, start_session, modify in H.
  cbn [st set_state] in H. destruct (complete_block _ _ _ _) as [[b' c1]|] eqn:Ec in H; [|done].
  destruct (adopt_block _ _ _ _ _) as [[[]|] n1] eqn:Ea in H; [|done]. injection H as <- <-.
  apply adopt_spec in Ea as (c2 & z & E1 & E2). cbn [timestamp] in E2.
  exists c1, c2, z. split; [exact Ec|].
  cbn [block_skip validation_skip skip_undo_history_check] in E1. rewrite Es in E1. done.
Qed.

Lemma generated_head skip pending when w key n b n' :
  skip_witness_signature (block_skip skip) = false -> skip_undo_history_check (block_skip skip) = false ->
  _checkpoints = ∅ -> _generate_block skip pending when w key n = (Ok b, n') ->
  head_block_id (dgp (st n')) = block_id b /\ time (dgp (st n')) = when.
Proof.
  intros Hs Hu Hc H. destruct (generate_spec _ _ _ _ _ _ _ _ Hs Hu Hc H) as (_ & _ & _ & Hb).
  destruct (select_pending _ _ _ _) as [txs skip']. destruct Hb as (c1 & c2 & z & Ec & E1 & E2).
  apply complete_time in Ec. cbn [timestamp pending_block] in Ec. apply (rest_head (fun _ _ => true) clear_expired expired_head) in E2 as [(-> & _ & ->) _].
  unfold update_global_dynamic_data in E1. apply rbind_ok in E1 as (u & _ & [= <- <-]). cbn.
  split; [done|congruence].
Qed.

(** Production happens in the second of the own slot, and not twice in it. *)
Lemma produced_spec enabled own keys now_fine skip pending n e n' :
  skip_witness_signature (block_skip skip) = false -> skip_undo_history_check (block_skip skip) = false ->
  _checkpoints = ∅ ->
  maybe_produce_block enabled own keys now_fine skip pending n = (Ok (e, produced), n') ->
  let slot := get_slot_at_time (rounded now_fine) (st n) in
  slot <> 0 /\ get_slot_time slot (st n) = rounded now_fine
  /\ (exists w, get_scheduled_witness slot (st n) = Ok w /\ w ∈ own)
  /\ time (dgp (st n')) = rounded now_fine.
Proof.
  intros Hs Hu Hc H slot. unfold maybe_produce_block in H. fold slot in H.
  case_match; [done|]. destruct (Z.eqb_spec slot 0) as [|Hslot]; [done|].
  destruct (get_scheduled_witness slot (st n)) as [w|] eqn:Ew; [|done].
  case_bool_decide as Ho; [|done]. cbn [negb] in H. destruct (_ !! w) as [wo|]; [|done].
  destruct (signing_key wo ≫= _) as [key|]; [|done].
  destruct (Z.gtb_spec (Z.abs (get_slot_time slot (st n) - rounded now_fine) * 1000000) 500000); [done|].
  assert (Et : get_slot_time slot (st n) = rounded now_fine) by lia.
  destruct (_generate_block _ _ _ _ _ _) as [[b|] n1] eqn:Eg; [|done]. injection H as <- <-.
  apply generated_head in Eg as [_ Eg]; try done. split; [done|]. split; [done|]. split; [by exists w|congruence].
Qed.

Lemma slot_passed own keys now_fine skip pending n :
  clock_ok 1 (st n) -> rounded now_fine <= time (dgp (st n)) ->
  maybe_produce_block true own keys now_fine skip pending n = (Ok (true, not_time_yet), n).
Proof.
  intros Hk Ht. unfold maybe_produce_block. cbn [negb andb].
  destruct (slot_base_bounds 1 (st n) Hk ltac:(lia)) as (_ & B & _).
  assert (E : get_slot_at_time (rounded now_fine) (st n) = 0); [|by rewrite E].
  unfold get_slot_at_time. rewrite (get_slot_time_value 1 1) by (done || lia).
  by rewrite (proj2 (Z.ltb_lt _ _)) by lia.
Qed.
(** What is left to do of a block once its header has passed. *)
Definition transactions_decide (b : block) (c0 c1 : chain) (z : Z) (c' : chain) : Prop :=
  let outcome := chain_apply_block hash_pair checksum checksum_null merkle_digest has_results validate_signee
                   apply_transaction clear_expired _checkpoints no_skip b c0 in
  match apply_transactions has_results apply_transaction no_skip (transactions b) c0 with
  | Ok c => c = c1 -> outcome = (Ok c', Some z)
  | Err e => outcome = (Err e, None)
  end.

(** C24: a block a node makes passes every check of a block but those of its transactions.
    When [_generate_block] returns (with the checks of signatures and of the undo history on,
    without checkpoints), the block carries its own id and exactly the transactions, of those
    chosen from the pending ones, that ran while it was made; when [apply_block] with all checks on is given it in the state it was
    made in, its Merkle root, predecessor, time, signature and scheduled witness are accepted:
    if its transactions run and lead where they led the producer, the result is the state the
    producer went to, and if one throws, that exception is the outcome. *)
Theorem produced_block_accepted skip pending when w key n b n' :
  skip_witness_signature (block_skip skip) = false -> skip_undo_history_check (block_skip skip) = false ->
  _checkpoints = ∅ -> _generate_block skip pending when w key n = (Ok b, n') ->
  block_id b = make_id b
  /\ let (txs, skip') := select_pending skip max_block_header_size pending (st n) in
     exists c1 z,
       try_apply_block (validation_skip deduce_in_verification_mode skip') (pending_block when w txs (st n)) (st n)
         = Ok (transactions b, c1)
       /\ transactions_decide b (st n) c1 z (st n').
Proof.
  intros Hs Hu Hc H. destruct (generate_spec _ _ _ _ _ _ _ _ Hs Hu Hc H) as (Hslot & Hsch & Hkey & Hb).
  destruct (select_pending _ _ _ _) as [txs skip']. destruct Hb as (c1 & c2 & z & Ec & E1 & E2).
  set (b1 := pending_block when w txs (st n)) in *.
  assert (Ew : timestamp b1 = when) by done. assert (Ewi : witness b1 = w) by done. clearbody b1.
  apply complete_spec in Ec as (P1 & P2 & P3 & P4 & r & b0 & P5 & P6 & P7).
  split; [rewrite P6; cbn [block_id with_id]; by rewrite id_fixed|].
  exists c1, z. split; [exact P4|].
  assert (Ep : previous b = previous b1 /\ timestamp b = timestamp b1 /\ witness b = witness b1
    /\ transaction_merkle_root b = r) by (rewrite P6, P7; done).
  destruct Ep as (Ep & Et & Ewb & Er).
  assert (Esig : signed_by_witness validate_signee b (st n) = true)
    by (unfold signed_by_witness; rewrite Ewb, Ewi, Hkey, P6, P7; apply signature_valid).
  unfold transactions_decide, chain_apply_block.
  replace (last_checkpoint _checkpoints) with (@None Z) by (by rewrite Hc).
  unfold _apply_block, apply_first. rewrite P5, Er, bool_decide_true by done. cbn [skip_merkle_check orb fc_assert rbind].
  unfold validate_block_header. rewrite Esig, Ep, P1, bool_decide_true by done. rewrite Et, (proj2 (Z.ltb_lt _ _) P2), Ewb.
  destruct (get_witness (witness b1) (st n)) as [wo|]; [|done]. cbn [fc_assert rbind skip_witness_signature negb
    skip_witness_schedule_check]. rewrite Ew, (proj2 (Z.gtb_lt (get_slot_at_time when (st n)) 0)), Hsch by lia. cbn [fc_assert rbind]. rewrite ?Ewi, Z.eqb_refl.
  cbn [fc_assert rbind skip_undo_history_check].
  destruct (apply_transactions _ _ _ (transactions b) (st n)) as [c|e]; cbn [rbind]; [|done].
  intros ->. rewrite E1, E2. done.
Qed.

(** C33: a witness makes one block per slot.  When [maybe_produce_block] says it produced,
    the clock, rounded to a second, is exactly the time of a slot that an own witness is
    scheduled for, and that is the time of the new head; in that second, or at any earlier
    reading of the clock, it produces no other block. *)
Theorem one_block_per_slot enabled own keys now_fine skip pending n e n' :
  skip_witness_signature (block_skip skip) = false -> skip_undo_history_check (block_skip skip) = false ->
  _checkpoints = ∅ ->
  maybe_produce_block enabled own keys now_fine skip pending n = (Ok (e, produced), n') ->
  clock_ok 1 (st n') ->
  let slot := get_slot_at_time (rounded now_fine) (st n) in
  slot <> 0 /\ get_slot_time slot (st n) = rounded now_fine
  /\ (exists w, get_scheduled_witness slot (st n) = Ok w /\ w ∈ own)
  /\ time (dgp (st n')) = rounded now_fine
  /\ forall own' keys' now' skip' pending', rounded now' <= rounded now_fine ->
       maybe_produce_block true own' keys' now' skip' pending' n' = (Ok (true, not_time_yet), n').
Proof.
  intros Hs Hu Hc H Hk slot. destruct (produced_spec _ _ _ _ _ _ _ _ _ Hs Hu Hc H) as (H1 & H2 & H3 & H4).
  split_and!; try done. intros. apply slot_passed; [done|lia].
Qed.
End Production.

(** A node whose chain is at its thirtieth block. *)
Definition demo_producer : node chain Z Z := mk_node demo_at_30 [] 100 empty_fork_db empty_block_db [].

Definition demo_id_of (b : signed_block Z Z) : block_id_type :=
  demo_bid (block_num b) (witness_signature b + transaction_merkle_root b).
Definition demo_no_skip : production_skip := mk_production_skip (mk_skip false false false false) false false false false false.
Definition demo_produce (skip : production_skip) (tx : Z) (c : chain) : result (Z * chain) :=
  if tx =? 6 then Err assert_exception else Ok (tx, c).
Definition demo_signature (key : Z) (b : signed_block Z Z) : Z := key + timestamp b.

Definition demo_generate (pending : list Z) : stM (node chain Z Z) (signed_block Z Z) :=
  _generate_block Z.add (fun x => x) 0 (fun x => x) Ok ∅ demo_id_of (fun _ => [0]) (fun _ => 10) (fun _ => 30)
    (fun _ => false) (fun _ => true) (fun _ => (0, 0)) (fun _ => 0) demo_produce (fun _ => 100) demo_signature
    (fun k => k + 1) 1000 1000 100 0 false (fun _ => false) demo_no_skip pending 1011 9 90.
Definition demo_maybe (now_fine : Z) (pending : list Z) : stM (node chain Z Z) (bool * block_production_condition) :=
  maybe_produce_block Z.add (fun x => x) 0 (fun x => x) Ok ∅ demo_id_of (fun _ => [0]) (fun _ => 10) (fun _ => 30)
    (fun _ => false) (fun _ => true) (fun _ => (0, 0)) (fun _ => 0) demo_produce (fun _ => 100) demo_signature
    (fun k => k + 1) 1000 1000 100 0 false (fun _ => false) true {[9]} {[91 := 90]} now_fine demo_no_skip pending.

Lemma demo_try_state skip (b : signed_block Z Z) l : forall i d c d' c',
  _try_apply_block (fun _ => 30) demo_produce (fun _ => 100) 1000 (fun _ => false) skip b i d l c = (d', c') -> c' = c.
Proof.
  induction l as [|tx l IH]; intros i d c d' c' H; cbn in H; [by injection H|].
  unfold demo_produce in H at 1. destruct (tx =? 6); [by eapply IH|]. case_if_in H; by eapply IH.
Qed.

Lemma produced_block_accepted_witness :
  match demo_generate [5; 6; 7] demo_producer with
  | (Ok b, n') =>
      transactions b = [5; 7]
      /\ (chain_apply_block Z.add (fun x => x) 0 (fun x => x) (fun _ => true) demo_signee
            (fun _ tx c => if tx =? 6 then Err assert_exception else Ok c) Ok ∅ (mk_skip false false false false)
            b (st demo_producer)).1 = Ok (st n')
  | _ => False
  end.
Proof.
  assert (Ht : match demo_generate [5; 6; 7] demo_producer with (Ok b, _) => transactions b = [5; 7] | _ => False end)
    by (vm_compute; reflexivity).
  destruct (demo_generate [5; 6; 7] demo_producer) as [[b|] n'] eqn:E; [|done]. split; [exact Ht|].
  destruct (produced_block_accepted Z.add (fun x => x) 0 (fun x => x) Ok ∅ demo_id_of (fun _ => [0]) (fun _ => 10)
    (fun _ => 30) (fun _ => false) (fun _ => true) (fun _ => (0, 0)) (fun _ => 0) demo_produce (fun _ => 100)
    demo_signature (fun k => k + 1) 1000 1000 100 0 false (fun _ => false) (fun _ => true)
    (fun _ tx c => if tx =? 6 then Err assert_exception else Ok c) demo_signee) with (6 := E)
    as (_ & Hd).
  - intros key b' i. apply Z.eqb_eq. cbn. unfold demo_signature. lia.
  - done.
  - done.
  - done.
  - done.
  - destruct (select_pending _ _ _ _ _ _ _ _ _ _) as [txs skip'] in Hd. destruct Hd as (c1 & z & Hrun & Hd).
    unfold transactions_decide in Hd. rewrite Ht in Hd. cbn [apply_transactions] in Hd.
    cbn [fc_assert rbind Z.eqb Pos.eqb] in Hd. rewrite Hd; [done|].
    assert (Hc : c1 = st demo_producer); [|done].
    unfold try_apply_block in Hrun. replace (last_checkpoint ∅) with (@None Z) in Hrun by done.
    injection Hrun as Hrun. by apply demo_try_state in Hrun.
Defined.

Lemma one_block_per_slot_witness :
  match demo_maybe 1010600000 [5; 6; 7] demo_producer with
  | (Ok (_, produced), n') =>
      time (dgp (st n')) = 1011 /\ demo_maybe 1011200000 [8] n' = (Ok (true, not_time_yet), n')
  | _ => False
  end.
Proof.
  assert (Ht : match demo_maybe 1010600000 [5; 6; 7] demo_producer with
     | (Ok (_, produced), n') => (block_interval (gpo (st n')), maintenance_skip_slots (gpo (st n')), time (dgp (st n')))
         = (3, 2, 1011) | _ => False end) by (vm_compute; reflexivity).
  destruct (demo_maybe 1010600000 [5; 6; 7] demo_producer) as [[[e []]|] n'] eqn:E; try done.
  injection Ht as E1 E2 E3. destruct (one_block_per_slot Z.add (fun x => x) 0 (fun x => x) Ok ∅ demo_id_of (fun _ => [0]) (fun _ => 10)
    (fun _ => 30) (fun _ => false) (fun _ => true) (fun _ => (0, 0)) (fun _ => 0) demo_produce (fun _ => 100)
    demo_signature (fun k => k + 1) 1000 1000 100 0 false (fun _ => false))
    with (5 := E) as (_ & _ & _ & Ht & Hn); try reflexivity.
  - intros c c' [= ->]. done.
  - split; rewrite ?E1, ?E2, ?E3; done.
  - split; [exact Ht|]. apply Hn. vm_compute. discriminate.
Defined.
